(* ===== verification/_CoqProject ===== *)
-Q . S2P
Prelude.v
Libc.v
Regexp.v
KUtils.v
Feature.v
Json.v
MacTable.v
Client.v
Rules.v
Dpi.v
Filter.v
ClientFs.v
Devices.v
Schedule.v
Names.v
Ubus.v
Lmo.v
Po2lmo.v
Lmotool.v
Crc.v
Base64.v
Framing.v
Verify.v
Auth.v
AuthAes.v
Cache.v
Ota.v
Crypt.v
Acl.v
Relay.v
Session.v
Request.v
Tunnel.v
CList.v
Ticket.v
Handshake.v
Camouflage.v
HostNames.v
Datagrams.v
Resolv.v
UdpRelay.v
