(* ===== verification/Prelude.v ===== *)
(** * Verification of the C programs of the package collection

    This library models three programs of the repository.  The application filter:
    the kernel module under src/oaf/src, which recognises applications in forwarded
    traffic and drops those that are blocked, and the daemon under
    src/open-app-filter/src, which keeps the devices and what they used and
    switches the filter by a schedule.  The translation catalogues under
    src/luci-app-autorepeater/tools: the writer, the tool that lists and extends a
    catalogue, and the library that looks messages up.  And of the proxy under
    src/shadowsocksr-libev/src/server the checksums, base 64, the protocol
    plugins, which cut a stream into authenticated frames, the cache with the
    block list and the memory of vectors that the server keeps in it, one-time
    authentication, the use of the ciphers, the access lists, the connections of
    the server from the first byte to the last, the plugin that dresses them as
    TLS, and the datagram relay with the name queries it makes.  The other C code of
    the repository is listed at the end.

    ** The program and how its parts meet

    The web interface writes JSON commands to a character device (blocked
    applications, filtered users) and a schedule to the system configuration.
    When the module is loaded it reads a feature file.  A hook on forwarded
    packets learns the LAN clients; a second one dissects a packet (IPv4, TLS
    server name, HTTP headers), finds the first feature that matches, asks the
    rules whether its application is blocked for the sender, books the visit on
    the client, and marks the connection.  A timer drops idle clients and reports
    the visits as JSON over netlink; the daemon books them on its devices, reads
    the module's client listing to see who is online, expires devices and
    records, and writes the switch of the module.

    A catalogue file is texts, an index sorted by hash, and the offset of the
    index.  po2lmo reads a .po file line by line through a state machine and writes
    one; lmotool copies one and appends the messages of another .po file; the
    library maps files, keeps a list of catalogues per language with one active,
    and finds a message by binary search.

    A protocol plugin packs what the client sends into frames with a filling and a
    checksum or MAC, after a first packet that names the connection or the user;
    on the other side bytes collect in a buffer of 16384 bytes until a frame is
    whole.  The checksums, base 64 and the random numbers serve all plugins.

    A connection of the server decrypts what the client sends, waits for a header
    (a type, an address or a name, a port, a MAC if one is asked for), asks the
    access lists, resolves the name, connects, and from then on passes data both
    ways.  It has one buffer for each direction; while data wait in one, the
    watcher that would fill it is off.

    The datagram relay has no connections: a datagram is decrypted, its header
    parsed, and the socket of its client for that address family is looked up in
    the cache or made; a name is resolved first, so the datagram waits in a query.
    A reply is sent to the client of the socket under a header.  A socket goes when
    its timer fires or the cache is full.

    ** Files

    - [Prelude] (this file): C integers, memory objects, strings, the tokenising
      loop of the module, tactics and hint databases.
    - [Libc]: what the user-space programs use of the C library: copies between
      objects, strings, characters, network order, decimal numbers.
    - [Regexp] (oaf/src/regexp.c): compiler and matcher of host patterns, against
      a declarative semantics of node lists.
    - [KUtils] (oaf/src/af_utils.c): trimming and the local scanf; the interface
      [Klib] of the kernel's own scanf and its reference instance.
    - [Feature] (app_filter.c, app_filter.h): from the bytes of the feature file
      to the list of feature nodes.
    - [Json] (cJSON.c): parser, printer, minifier; JSON values and their text.
    - [MacTable]: the hash table shape shared by three components, refined to a
      finite map; a client gives the key and the hash (classes [HasMac] and
      [KeyHash]).
    - [Client] (af_client.c): the client table, visit records, expiry, reports and
      the hook that learns clients.
    - [Rules] (app_filter_config.c): the table of blocked applications, the list
      of filtered users, the configuration commands and the device.
    - [Dpi] (app_filter.c): header parsing and the TLS and HTTP dissectors.
    - [Filter] (app_filter.c): matching, the two hooks, the timer, the netlink
      receiver, loading and unloading; the module state, the relation [step] of
      its entry points and the invariant [inv].
    - [ClientFs] (af_client_fs.c): the iterator behind /proc/net/af_client.
    - [Devices] (open-app-filter/src/appfilter_user.c, appfilter_netlink.c,
      main.c): the device table, the device list, expiry and the report handler;
      the relation [dev_step].  The json-c library is the class [JsonC], its
      documented behaviour the class [JsonCLaws]; the cJSON model is an instance.
    - [Schedule] (appfilter_config.c, main.c): the time configuration and the
      switch; the UCI library is a function from keys to what it finds.
    - [Names] (appfilter_config.c): the tables of application and class names.
    - [Ubus] (appfilter_ubus.c): the methods the daemon offers on the bus, with the
      aggregation of visit times; building replies is the classes [JsonBuild] and
      [Blob].
    - [Lmo] (luci-app-autorepeater/tools/po2lmo/src/template_lmo.c): hashes,
      archives, the catalogues of the process, lookup.
    - [Po2lmo] (po2lmo.c) and [Lmotool] (lmotool/src/lmotool.c): the two programs
      as functions from the bytes they read to the bytes they write; qsort is the
      class [Qsort] with the laws [QsortLaws].
    - [Crc] (shadowsocksr-libev/src/server/crc32.c) and [Base64] (base64.c).
    - [Framing]: the loops that all plugins share, sending and receiving, over the
      classes [Framing] and [Packing]; what a plugin promises is [FramingLaws] and
      [PackingLaws], from which delivery in any segmentation follows.
    - [Verify] (obfsutil.c, verify.c): the random numbers and the plugin
      verify_simple.
    - [Auth] (auth.c): auth_simple, auth_sha1, auth_sha1_v2 and auth_sha1_v4, as
      instances indexed by [plugin], and the packets that open a connection.
    - [AuthAes] (auth.c, encrypt.c): auth_aes128, streams and datagrams.
    - [Cache] (cache.c, acl.c, encrypt.c): the cache over the class [HashFind] of
      uthash, the block list of peers and the check of replayed vectors; sequences
      of calls are the relation [runs].
    - [Ota] (encrypt.c): one-time authentication of headers and of packets, against
      a machine that takes one byte at a time.
    - [Crypt] (encrypt.c): the substitution table, and the other methods on
      connections and datagrams over libsodium ([SodiumLaws]) and the cipher
      library ([EvpLaws]); [recv_stream] goes through the memory of vectors.
    - [Acl] (acl.c, rule.c): the file of access lists and the queries, over the
      classes [IpSet] and [Pcre] with their laws.
    - [Relay] (server.c, netutils.c): the callbacks of a connection as functions of
      its state [server_t] and of what the system calls return, with the effects
      they have; the cipher is the class [Cipher]; host names and the format of
      requests.
    - [Session] (server.c): runs of a connection, the relation [run] over events
      that an active watcher may deliver; the invariant [link] and the
      specification [relays]; what is relied on in a cipher is [CipherLaws].
    - [Request] (server.c): what becomes of a request, in one piece, in several, and
      with fast open.
    - [Tunnel] (server.c, encrypt.c): the functions of [Crypt] as an instance of
      [CipherLaws], and a client, the server and a peer together.
    - [CList] (list.c): the linked list, on a store of nodes where an allocation can
      fail; [repr] relates it to the sequence of its elements.  What a plugin needs
      of it is the class [RecordList] with [RecordListLaws].
    - [Ticket] (tls1.2_ticket.c): the obfuscating plugin tls1.2_ticket_auth, both
      sides, and its stream of records.
    - [Handshake] (tls1.2_ticket.c): the messages of its handshake, and the two sides
      together.
    - [Camouflage] (server.c, obfs.c): a connection of [Relay] behind a plugin, and
      behind this one.
    - [HostNames] (tls.c, http.c): the host name in a TLS hello, also in the one of
      [Ticket], and in an HTTP request.
    - [Datagrams] (encrypt.c): the functions of [Crypt] for whole datagrams as an
      instance of [PacketCipher], with [PacketCipherLaws].
    - [Resolv] (resolv.c): a query for both address families, its answers and the
      choice among them.
    - [UdpRelay] (udprelay.c, netutils.c): the callbacks of the datagram relay as
      functions of [server_ctx], with the contexts in a store; the relation [run]
      over events that libev or the DNS library may deliver, the invariant [wf].

    ** Conventions

    A definition has the name of the C function it models; a loop or a phase of a
    function has a name of its own and says in its comment which.  A C integer is
    a [Z], converted where the code stores it ([u8], [u16], [u32], [s32], ...); a
    memory object is the list of its bytes, a pointer into it an offset, and an
    access outside it is [None], which stands for undefined behaviour and
    propagates.  State is passed explicitly; a pointer to a node of a table is
    its address or its key, and an assignment through it changes the node in the
    table.  Locks are left out: an entry point is one step, and the interleaving
    of entry points is a sequence of steps.

    Loops over a list or a string are structural.  The tokenising loops, the
    pattern compiler and the JSON parser take fuel: the length of the object plus
    one, which is enough because each turn consumes a byte or ends, and running
    out gives [None]; the round-trip theorems show that a result is produced.
    The receiving loop has the length of the buffer plus one turns, since a frame
    has at least seven bytes; the binary search has 33, since each turn halves an
    interval of 32-bit bounds; the sending loop the length of the data plus one.
    MACs, hashes and ciphers are functions with laws on the lengths of their
    results ([MacLaws], [ServerLaws], [OpeningPromises]), fresh memory is a
    function with [MallocLaws].  The loop over the labels of a host name has the
    length of the name as its fuel, since a turn consumes at least two bytes.  Lookups in the kernel's and the C library's scanf, memory allocation, the
    contents of fresh memory, the clock and the bytes that follow a message are
    parameters.

    ** Theorems

    - Matching: the compiled pattern means what the declarative semantics says
      ([Regexp.regexp_match_correct]), plain host names are substring search, and
      the longest and shortest variants agree.
    - Configuration: printed features load back ([Feature.feature_roundtrip]),
      features with more ranges or positions than a node has room for, and no
      others, are written past its arrays ([Feature.feature_overrun]), port lists
      decide membership; commands to the device set exactly the listed applications
      and users
      ([Rules.device_sets_apps], [Rules.config_sets_macs]).
    - JSON: printed values without negative numbers, with strings of printable
      characters other than the percent sign, are parsed back, and minified ones
      too if no string ends with a backslash ([Json.cJSON_print_parse]).
    - Clients: the table is a finite map, visits are counted per application, the
      hook learns senders, expiry drains, reports are delivered, lost or
      overflow depending on their length.
    - Dissection: server names lie inside the payload and are found; HTTP headers
      are read as written.
    - Verdicts: the gateway hook drops exactly what the policy blocks
      ([Filter.gateway_enforces_policy]); a dropped connection stays dropped; with
      nothing blocked everything is accepted; every reachable module state is
      well formed ([Filter.reachable_inv]).
    - Module to daemon: the listing is read exactly ([ClientFs.seq_read_lists],
      [Devices.listing_sets_online]) and reports are booked
      ([Devices.report_reaches_daemon]).
    - Daemon: the device table stays well formed, expiry follows its policy, the
      limit of devices is permanent, the schedule decides as written
      ([Schedule.schedule_decides]); names are found under their numbers
      ([Names.names_read]), and the replies on the bus list the devices, their
      visit times and their five longest applications ([Ubus.dev_list_complete],
      [Ubus.visit_times_listed], [Ubus.top5_longest]).
    - Catalogues: what po2lmo writes translates ([Po2lmo.catalogue_translates]),
      also after lmotool extended it ([Lmotool.append_translates]); the search
      finds what is there ([Lmo.find_entry_correct]) and reads inside the file
      ([Lmo.opened_search_inside]).
    - Checksums and base 64: the table-driven CRC is the bitwise one and notices
      every change of four neighbouring bytes, Adler-32 never overflows, base 64
      is read back ([Base64.base64_roundtrip]).
    - Plugins: what a client sends, in any number of calls, is a first packet of
      the prescribed form and frames that deliver the rest in any segmentation
      ([Verify.verify_simple_transport], [Auth.auth_client_stream],
      [AuthAes.auth_aes128_client_stream]); changed frames are refused.
    - Cache: its data are accounted for ([Cache.cache_accounts]), what was used
      recently stays ([Cache.recent_key_found]); the block list refines a map of
      counts ([Cache.block_list_counts]) and replays are refused
      ([Cache.replay_refused]).
    - One-time authentication: packets arrive whatever the segmentation
      ([Ota.chunks_delivered]), and nothing but packets with the right MACs gets
      through ([Ota.chunks_authentic]).
    - Encryption: connections and datagrams are transparent
      ([Crypt.connection_transparent], [Crypt.datagram_roundtrip]), the table of a
      password has an inverse ([Crypt.table_roundtrip]).
    - Access lists: the queries answer as the entries under the sections of the
      file say ([Acl.acl_decides]).
    - Connections: whatever the events, segments and short writes, a connection
      contacts only who the decrypted header asks for and relays without loss or
      repetition ([Session.connection_relays]), and inside its buffers, for ciphers
      with a context and streams they decrypt, unless the header came in pieces or
      the payload outgrew a buffer ([Session.connection_safe]); a complete request is granted
      ([Request.request_granted]), one in pieces is judged by its last piece
      ([Request.pieces_refused], [Request.pieces_put_together]); with the ciphers
      of [Crypt] the server is transparent from client to peer and back
      ([Tunnel.upstream_transparent], [Tunnel.downstream_transparent]); host names
      are what the reference says ([Relay.validate_hostname_decides]).
    - Lists: any sequence of operations does what it does on sequences
      ([CList.list_operations_refine]), sorting sorts ([CList.list_sort_sorts]).
    - Camouflage: the records of messages of at most 40860 bytes are transparent
      ([Ticket.stream_transparent]), the
      handshake ends with both sides ready and the early data delivered
      ([Handshake.handshake_delivers]); what the server makes of any hello
      ([Handshake.hello_decides], [Handshake.replay_accepted]); a connection answers
      a hello ([Camouflage.hello_answered]) and then does on records what it does
      without a plugin on their data ([Camouflage.connection_under_tls]).
    - Host names: the parsers stay inside their objects on any bytes
      ([HostNames.host_parsers_sound]); the TLS one finds the name the plugin's
      client put into its hello ([HostNames.hello_names_host]), the HTTP one the
      first Host header ([HostNames.http_host_found]).
    - Datagrams: a query has one outcome in either order of the answers
      ([Resolv.resolved_in_any_order]); over any run of the relay whose callbacks
      return no socket is lost or closed twice ([UdpRelay.udp_sockets]) and clients do
      not get each other's data ([UdpRelay.udp_isolated]); a callback is undefined in
      just two cases, an answer for a context that was closed and a copy of more
      bytes than an address and the memory behind it have ([UdpRelay.udp_defined]);
      datagrams to addresses arrive, but for the text of an IPv6 address, which is
      taken for the unspecified one ([UdpRelay.ip_there_and_back]), and so do those
      of a client to its first name ([UdpRelay.name_there_and_back]), with their
      replies.
    Theorems named after a defect ([Filter.port_only_feature_needs_zero_byte],
    [Filter.malformed_pattern_matches_all], [Client.report_overflows],
    [Lmo.close_leaves_active_dangling], [Verify.verify_simple_forged_filling],
    [Auth.auth_long_host_name], [Request.fast_open_repeats],
    [UdpRelay.second_name_misdirects], ...) state what the code does where that is
    not what it means to do.

    ** Not modelled

    Registration of hooks, devices, timers and sockets; reading the feature file
    from disk; logging; freeing memory; the cJSON functions nothing calls.  Of the
    daemon: the event loop, and opening its sockets and the bus.  Of the catalogue
    tools: the command line and the progress messages.  Of shadowsocksr-libev:
    accepting connections and start-up, the ciphers themselves, the sockets and
    timers of the DNS library, the parts of udprelay.c that are compiled for the
    local programs only, allocation and disposal of the plugins' objects; a connection is proved for no plugin and for
    tls1.2_ticket_auth, and without fast open, its definitions have all.  The
    obfuscating plugin http_simple is left out because its server side reads two
    bytes without a NUL as a string and searches what it received, which has no NUL
    either, so its outcome depends on the memory behind its buffers.  The nginx
    modules are third-party code for a server whose core is not in the repository.
    Packages without C code have nothing to model. *)

From Stdlib Require Export Ascii ZArith Lia.
From stdpp Require Export base list strings gmap numbers option.
From stdpp Require Export list_basics list_relations list_monad list_misc list_numbers.

#[global] Open Scope Z_scope.

Declare Scope c_scope.
Delimit Scope c_scope with C.
#[global] Open Scope c_scope.

(** ** C integers

    A machine integer is a [Z]; the functions below are the conversions the
    C code performs when a value is stored in an object of that width. *)

Definition u8 (z : Z) : Z := z mod 2 ^ 8.
Definition u16 (z : Z) : Z := z mod 2 ^ 16.
Definition u32 (z : Z) : Z := z mod 2 ^ 32.
Definition u64 (z : Z) : Z := z mod 2 ^ 64.

Definition sgn (w z : Z) : Z :=
  let m := z mod 2 ^ w in if m <? 2 ^ (w - 1) then m else m - 2 ^ w.
Definition s8 (z : Z) : Z := sgn 8 z.
Definition s16 (z : Z) : Z := sgn 16 z.
Definition s32 (z : Z) : Z := sgn 32 z.

(** ** Memory objects

    An array object is the list of its bytes.  An access outside the object is
    undefined behaviour in C: it is [None] here, and [None] propagates
    through the option monad. *)

Definition rd (buf : list Z) (i : Z) : option Z :=
  if i <? 0 then None else buf !! Z.to_nat i.

Definition wr (buf : list Z) (i v : Z) : option (list Z) :=
  if (0 <=? i) && (i <? Z.of_nat (length buf))
  then Some (<[Z.to_nat i := v]> buf) else None.

Notation "b @! i" := (rd b i) (at level 20) : c_scope.

Fixpoint wr_list (buf : list Z) (i : Z) (vs : list Z) : option (list Z) :=
  match vs with
  | [] => Some buf
  | v :: vs => buf' ← wr buf i v; wr_list buf' (i + 1) vs
  end.

(** The C string at the start of an object: the bytes before its first NUL;
    [None] when the object holds no NUL (a reader runs off its end). *)
Fixpoint cstr (buf : list Z) : option (list Z) :=
  match buf with
  | [] => None
  | c :: buf => if c =? 0 then Some [] else s ← cstr buf; Some (c :: s)
  end.

Definition strlen (buf : list Z) : option Z :=
  s ← cstr buf; Some (Z.of_nat (length s)).

(** The bytes [strncpy(dst, src, n)] reads from [src]: up to [n] of them,
    stopping after a NUL. *)
Fixpoint strncpy_src (src : list Z) (n : nat) {struct n} : option (list Z) :=
  match n with
  | O => Some []
  | S n =>
      match src with
      | [] => None
      | c :: src =>
          if c =? 0 then Some [] else s ← strncpy_src src n; Some (c :: s)
      end
  end.

(** [strncpy] with the count already converted to [size_t]: exactly [n]
    bytes of [dst] are written, so [n] larger than the object is an
    overflow whatever the source holds. *)
Definition strncpy (dst src : list Z) (n : Z) : option (list Z) :=
  let n := Z.to_nat (u64 n) in
  if (length dst <? n)%nat then None else
  s ← strncpy_src src n;
  Some (s ++ replicate (n - length s) 0 ++ drop n dst).

Definition strcpy (dst src : list Z) : option (list Z) :=
  s ← cstr src;
  if (length dst <? length s + 1)%nat then None
  else Some (s ++ 0 :: drop (length s + 1) dst).

(** [while ( *p++ ) { body }]: the idiom of every tokeniser of the program.
    The test reads the byte under [p] and moves [p]; the body then sees the
    byte that follows, so the body never sees the first byte and does see
    the terminating NUL; the loop leaves [p] one past the NUL.  Each turn
    moves [p] by one and a read past the object stops the run, so fuel
    [S (length buf)] never runs out first. *)
Fixpoint while_pp {St} (fuel : nat) (buf : list Z) (p : Z)
    (body : Z -> Z -> St -> option St) (s : St) : option (Z * St) :=
  match fuel with
  | O => None
  | S fuel =>
      c ← buf @! p;
      if c =? 0 then Some (p + 1, s) else
      c' ← buf @! (p + 1);
      s' ← body (p + 1) c' s;
      while_pp fuel buf (p + 1) body s'
  end.

(** String literals of the source as byte lists. *)
Fixpoint bytes_of (s : string) : list Z :=
  match s with
  | EmptyString => []
  | String a s => Z.of_nat (Ascii.nat_of_ascii a) :: bytes_of s
  end.
Definition chr (a : Ascii.ascii) : Z := Z.of_nat (Ascii.nat_of_ascii a).
#[global] Arguments chr a%_char.
#[global] Arguments bytes_of s%_string.

(** A C object of [n] bytes holding the string [s], zero padded. *)
Definition cbuf (n : nat) (s : list Z) : list Z := s ++ replicate (n - length s) 0.

(** ** Automation *)

Create HintDb cint.

Ltac simp_opt :=
  repeat match goal with
  | H : Some _ = Some _ |- _ => apply (inj Some) in H; try subst
  | H : None = Some _ |- _ => discriminate H
  | H : Some _ = None |- _ => discriminate H
  | H : _ ≫= _ = Some _ |- _ =>
      apply bind_Some in H; destruct H as (? & ? & H)
  | H : (_, _) = (_, _) |- _ => apply pair_equal_spec in H; destruct H; try subst
  end.

Ltac zify_bool :=
  repeat match goal with
  | H : (_ && _) = true |- _ => apply andb_true_iff in H; destruct H
  | H : (_ || _) = false |- _ => apply orb_false_iff in H; destruct H
  | H : (_ =? _) = true |- _ => apply Z.eqb_eq in H
  | H : (_ =? _) = false |- _ => apply Z.eqb_neq in H
  | H : (_ <? _) = true |- _ => apply Z.ltb_lt in H
  | H : (_ <? _) = false |- _ => apply Z.ltb_ge in H
  | H : (_ <=? _) = true |- _ => apply Z.leb_le in H
  | H : (_ <=? _) = false |- _ => apply Z.leb_gt in H
  end.

(** Equality of lists up to associativity of concatenation. *)
Ltac list_assoc := repeat (progress (rewrite <- ?app_assoc; cbn [app])); reflexivity.

(** Evaluate the character constants. *)
Ltac chr_simpl :=
  repeat match goal with
  | |- context [chr ?a] => let v := eval vm_compute in (chr a) in change (chr a) with v
  | H : context [chr ?a] |- _ => let v := eval vm_compute in (chr a) in change (chr a) with v in H
  end.

(** Case analysis on the innermost boolean test of the goal. *)
Ltac case_bool :=
  match goal with
  | |- context [if ?b then _ else _] =>
      lazymatch b with
      | context [if _ then _ else _] => fail
      | _ => let E := fresh "E" in destruct b eqn:E; zify_bool
      end
  end.

(** ** Lemmas on integers *)

Lemma u8_range z : 0 <= u8 z < 256.
Proof. apply Z.mod_pos_bound. lia. Qed.
Lemma u16_range z : 0 <= u16 z < 65536.
Proof. apply Z.mod_pos_bound. lia. Qed.
Lemma u32_range z : 0 <= u32 z < 2 ^ 32.
Proof. apply Z.mod_pos_bound. lia. Qed.
Lemma u8_id z : 0 <= z < 256 -> u8 z = z.
Proof. apply Z.mod_small. Qed.
Lemma u16_id z : 0 <= z < 65536 -> u16 z = z.
Proof. apply Z.mod_small. Qed.
Lemma u32_id z : 0 <= z < 2 ^ 32 -> u32 z = z.
Proof. apply Z.mod_small. Qed.
Lemma u64_id z : 0 <= z < 2 ^ 64 -> u64 z = z.
Proof. apply Z.mod_small. Qed.

Lemma sgn_id w z : 0 < w -> - 2 ^ (w - 1) <= z < 2 ^ (w - 1) -> sgn w z = z.
Proof.
  intros Hw Hz. unfold sgn.
  assert (2 ^ w = 2 * 2 ^ (w - 1)) as Hp
    by (rewrite <- Z.pow_succ_r by lia; f_equal; lia).
  destruct (decide (0 <= z)).
  - rewrite Z.mod_small by lia. case_bool; lia.
  - assert (z mod 2 ^ w = z + 2 ^ w) as ->
      by (symmetry; apply (Z.mod_unique_pos _ _ (-1)); lia).
    case_bool; lia.
Qed.

Lemma s32_id z : - 2 ^ 31 <= z < 2 ^ 31 -> s32 z = z.
Proof. intros. by apply (sgn_id 32). Qed.
Lemma s8_id z : -128 <= z < 128 -> s8 z = z.
Proof. intros. by apply (sgn_id 8). Qed.
#[export] Hint Resolve u8_range u16_range u32_range : cint.

(** ** Lemmas on memory objects *)

Lemma rd_Some buf i v :
  rd buf i = Some v <-> 0 <= i /\ buf !! Z.to_nat i = Some v.
Proof. unfold rd. case_bool; intuition (try lia; congruence). Qed.

Lemma rd_lt buf i v : rd buf i = Some v -> 0 <= i < Z.of_nat (length buf).
Proof. rewrite rd_Some. intros [? Hl%lookup_lt_Some]. lia. Qed.

Lemma rd_is_Some buf i : 0 <= i < Z.of_nat (length buf) -> is_Some (rd buf i).
Proof.
  intros H. unfold rd. case_bool; [lia|]. apply lookup_lt_is_Some. lia.
Qed.

Lemma rd_nat buf (n : nat) : rd buf (Z.of_nat n) = buf !! n.
Proof. unfold rd. case_bool; [lia|]. by rewrite Nat2Z.id. Qed.

Lemma rd_app_l a b i : 0 <= i < Z.of_nat (length a) -> rd (a ++ b) i = rd a i.
Proof. intros H. unfold rd. case_bool; [lia|]. apply lookup_app_l. lia. Qed.

Lemma rd_app_r a b i :
  Z.of_nat (length a) <= i -> rd (a ++ b) i = rd b (i - Z.of_nat (length a)).
Proof.
  intros H. unfold rd. do 2 (case_bool; [lia|]).
  rewrite lookup_app_r by lia. f_equal. lia.
Qed.

Lemma rd_cons_0 c b : rd (c :: b) 0 = Some c.
Proof. done. Qed.

Lemma rd_cons_S c b i : 0 < i -> rd (c :: b) i = rd b (i - 1).
Proof. intros H. by apply (rd_app_r [c] b); simpl; lia. Qed.

Lemma rd_app_mid a c b i : i = Z.of_nat (length a) -> rd (a ++ c :: b) i = Some c.
Proof. intros ->. rewrite rd_app_r, Z.sub_diag by lia. done. Qed.

Lemma wr_length buf i v buf' : wr buf i v = Some buf' -> length buf' = length buf.
Proof. unfold wr. case_bool; intros; simp_opt. apply length_insert. Qed.

Lemma cstr_app s rest : Forall (fun c => c <> 0) s -> cstr (s ++ 0 :: rest) = Some s.
Proof.
  induction 1 as [|c s Hc _ IH]; simpl; [done|].
  apply Z.eqb_neq in Hc. by rewrite Hc, IH.
Qed.

Lemma cstr_cbuf n s :
  Forall (fun c => c <> 0) s -> (length s < n)%nat -> cstr (cbuf n s) = Some s.
Proof.
  intros Hs Hn. unfold cbuf.
  replace (n - length s)%nat with (S (n - length s - 1)) by lia.
  by apply cstr_app.
Qed.

Lemma cstr_nonzero buf s : cstr buf = Some s -> Forall (fun c => c <> 0) s.
Proof.
  revert s; induction buf as [|c buf IH]; simpl; intros s H; [done|].
  destruct (c =? 0) eqn:E; simp_opt; [done|]. zify_bool. constructor; auto.
Qed.

Lemma length_cbuf n s : (length s <= n)%nat -> length (cbuf n s) = n.
Proof. intros. unfold cbuf. rewrite length_app, length_replicate. lia. Qed.

(** ** Lemmas on lists *)

Lemma Forall_imp {A} (P Q : A -> Prop) l :
  Forall P l -> (forall x, P x -> Q x) -> Forall Q l.
Proof. intros H HPQ. induction H; constructor; auto. Qed.

Lemma suffix_of_cons {A} (s : list A) c t :
  s `suffix_of` c :: t <-> s = c :: t \/ s `suffix_of` t.
Proof.
  split.
  - intros [[|x l] H]; simplify_eq/=; [by left|right; by exists l].
  - intros [->|H]; [done|by apply suffix_cons_r].
Qed.

Lemma cstr_inv buf s :
  cstr buf = Some s ->
  exists rest, buf = s ++ 0 :: rest /\ Forall (fun c => c <> 0) s.
Proof.
  revert s; induction buf as [|c buf IH]; simpl; intros s H; [done|].
  destruct (c =? 0) eqn:E; simp_opt; zify_bool.
  - subst. by exists buf.
  - destruct (IH _ ltac:(done)) as (rest & -> & ?). exists rest.
    split; [done|by constructor].
Qed.

Lemma strncpy_src_app s n rest :
  Forall (fun c => c <> 0) s -> (n <= length s)%nat ->
  strncpy_src (s ++ rest) n = Some (take n s).
Proof.
  intros Hs. revert n; induction Hs as [|c s Hc _ IH]; intros [|n] Hn; simpl in *;
    try lia; try done.
  apply Z.eqb_neq in Hc. rewrite Hc, IH by lia. done.
Qed.

Lemma strncpy_src_full s n rest :
  Forall (fun c => c <> 0) s -> (length s < n)%nat ->
  strncpy_src (s ++ 0 :: rest) n = Some s.
Proof.
  intros Hs. revert n; induction Hs as [|c s Hc _ IH]; intros [|n] Hn; simpl in *;
    try lia; try done.
  apply Z.eqb_neq in Hc. rewrite Hc, IH by lia. done.
Qed.

(** [strncpy] of exactly the [n] bytes of a NUL-free prefix. *)
Lemma strncpy_prefix dst s rest n :
  Forall (fun c => c <> 0) s -> n = Z.of_nat (length s) ->
  (length s <= length dst)%nat -> n < 2 ^ 64 ->
  strncpy dst (s ++ rest) n = Some (s ++ drop (length s) dst).
Proof.
  intros Hs -> Hl H64. unfold strncpy. rewrite u64_id, Nat2Z.id by lia.
  case_match eqn:E; [apply Nat.ltb_lt in E; lia|].
  rewrite strncpy_src_app by done. simpl.
  rewrite firstn_all, Nat.sub_diag. done.
Qed.

(** [strncpy] of a string together with its NUL. *)
Lemma strncpy_with_nul dst s rest n :
  Forall (fun c => c <> 0) s -> n = Z.of_nat (length s) + 1 ->
  (length s < length dst)%nat -> n < 2 ^ 64 ->
  strncpy dst (s ++ 0 :: rest) n = Some (s ++ 0 :: drop (S (length s)) dst).
Proof.
  intros Hs -> Hl H64. unfold strncpy. rewrite u64_id by lia.
  replace (Z.to_nat (Z.of_nat (length s) + 1)) with (S (length s)) by lia.
  case_match eqn:E; [apply Nat.ltb_lt in E; lia|].
  rewrite strncpy_src_full by (auto; lia). cbn [mbind option_bind].
  replace (S (length s) - length s)%nat with 1%nat by lia. done.
Qed.

Lemma strncpy_cbuf m s rest n :
  Forall (fun c => c <> 0) s -> n = Z.of_nat (length s) ->
  (length s <= m)%nat -> n < 2 ^ 64 ->
  strncpy (replicate m 0) (s ++ rest) n = Some (cbuf m s).
Proof.
  intros. rewrite strncpy_prefix by (rewrite ?length_replicate; done).
  by rewrite drop_replicate.
Qed.

Lemma wr_Some buf i v :
  0 <= i < Z.of_nat (length buf) -> wr buf i v = Some (<[Z.to_nat i := v]> buf).
Proof. intros H. unfold wr. case_bool; [done|lia]. Qed.

Lemma wr_rd buf i v buf' j :
  wr buf i v = Some buf' -> 0 <= j -> rd buf' j = if j =? i then Some v else rd buf j.
Proof.
  unfold wr. case_bool; [|done]. intros [= <-] Hj. unfold rd.
  rewrite (proj2 (Z.ltb_ge j 0)) by lia. destruct (j =? i) eqn:Ej; zify_bool.
  - subst. apply list_lookup_insert_eq. lia.
  - apply list_lookup_insert_ne. lia.
Qed.

Lemma strcpy_cbuf m src s :
  cstr src = Some s -> (length s < m)%nat -> strcpy (replicate m 0) src = Some (cbuf m s).
Proof.
  intros Hs Hl. unfold strcpy. rewrite Hs. simpl. rewrite length_replicate.
  case_match eqn:E; [apply Nat.ltb_lt in E; lia|].
  rewrite drop_replicate. unfold cbuf.
  by replace (m - length s)%nat with (S (m - (length s + 1))) by lia.
Qed.

Lemma strncpy_cbuf_nul m s rest n :
  Forall (fun c => c <> 0) s -> n = Z.of_nat (length s) + 1 ->
  (length s < m)%nat -> n < 2 ^ 64 ->
  strncpy (replicate m 0) (s ++ 0 :: rest) n = Some (cbuf m s).
Proof.
  intros. rewrite strncpy_with_nul by (rewrite ?length_replicate; done).
  rewrite drop_replicate. unfold cbuf.
  by replace (m - length s)%nat with (S (m - S (length s))) by lia.
Qed.

Lemma cbuf_0 m s : (length s < m)%nat -> exists rest, cbuf m s = s ++ 0 :: rest.
Proof.
  intros Hl. unfold cbuf. exists (replicate (m - S (length s)) 0).
  by replace (m - length s)%nat with (S (m - S (length s))) by lia.
Qed.

(** ** The scanning loop *)

Lemma while_pp_inv {St} (I : St -> Prop) fuel buf p body s p' s' :
  (forall p c s s', I s -> body p c s = Some s' -> I s') ->
  I s -> while_pp fuel buf p body s = Some (p', s') -> I s'.
Proof.
  intros Hb. revert p s. induction fuel as [|fuel IH]; intros p s Hs H; simpl in H; [done|].
  simp_opt. case_match; simp_opt; eauto.
Qed.

(** Over an object without NUL the loop runs off its end. *)
Lemma while_pp_no_nul {St} fuel buf p (body : Z -> Z -> St -> option St) s :
  Forall (fun c => c <> 0) buf -> while_pp fuel buf p body s = None.
Proof.
  intros Hb. revert p s. induction fuel as [|fuel IH]; intros p s; simpl; [done|].
  destruct (rd buf p) as [c|] eqn:E; [|done]. simpl.
  apply rd_Some in E as [_ E]. rewrite Forall_lookup in Hb.
  rewrite (proj2 (Z.eqb_neq c 0)) by eauto.
  destruct (rd buf (p + 1)); [|done]. simpl. destruct (body _ _ _); [|done]. apply IH.
Qed.
