(* ===== verification/Libc.v ===== *)
(** * Libc: what the user-space programs use of the C library

    Plain characters, the C locale's [isspace], copies between memory objects,
    [strncmp] on strings and integers in network order.  A string that is only
    read is the list of its bytes before the NUL. *)

From S2P Require Import Prelude.

Module Libc.

Notation is_bytes := (Forall (fun b => 0 <= b < 256)).

(** The value of a plain [char] holding byte [c]; whether it is signed depends
    on the target. *)
Definition cval (signed_char : bool) (c : Z) : Z := if signed_char then s8 c else c.

Definition isspace (c : Z) : bool := (c =? 32) || ((9 <=? c) && (c <=? 13)).

(** The [n] bytes at [i]: what [memcpy], [memmove] and [fwrite] read.  The count
    is converted to [size_t], so a negative one reaches outside every object. *)
Definition mread (buf : list Z) (i n : Z) : option (list Z) :=
  let n := u64 n in
  if (0 <=? i) && (i + n <=? Z.of_nat (length buf))
  then Some (take (Z.to_nat n) (drop (Z.to_nat i) buf)) else None.

(** The object after the bytes [vs] were stored at [i]. *)
Definition mwrite (buf : list Z) (i : Z) (vs : list Z) : option (list Z) :=
  if (0 <=? i) && (i + Z.of_nat (length vs) <=? Z.of_nat (length buf))
  then Some (take (Z.to_nat i) buf ++ vs ++ drop (Z.to_nat i + length vs) buf) else None.

(** [strncmp(s, t, n) == 0] on two strings given by their bytes. *)
Definition strncmp_eq (n : nat) (s t : list Z) : bool :=
  bool_decide (take n (s ++ [0]) = take n (t ++ [0])).

(** [snprintf(dst, n, "%s", s)]: what [dst] holds as a string. *)
Definition snprintf_s (n : nat) (s : list Z) : list Z := take (n - 1) s.

(** [strcat] into an object. *)
Definition strcat (dst src : list Z) : option (list Z) :=
  d ← cstr dst; s ← cstr src;
  mwrite dst (Z.of_nat (length d)) (s ++ [0]).

(** Integers of [n] bytes in network order, and in the order of a little-endian
    word. *)
Definition be_step (acc b : Z) : Z := acc * 256 + b.
Definition be_val (l : list Z) : Z := foldl be_step 0 l.
Fixpoint be_bytes (n : nat) (z : Z) : list Z :=
  match n with
  | O => []
  | S n => u8 (z / 2 ^ (8 * Z.of_nat n)) :: be_bytes n z
  end.
Definition ld_be (n : Z) (buf : list Z) (i : Z) : option Z := be_val <$> mread buf i n.

Notation ntohl_at := (ld_be 4).
Notation htonl_bytes := (be_bytes 4).

(** ** Decimal numbers: [%d] of a non-negative number, then of any *)
Fixpoint digits (fuel : nat) (z : Z) : list Z :=
  match fuel with
  | O => []
  | S fuel => if z <? 10 then [48 + z] else digits fuel (z / 10) ++ [48 + z mod 10]
  end.
Definition dec (z : Z) : list Z :=
  if z <? 0 then chr "-" :: digits 20 (- z) else digits 20 z.

(** ** Numbers read: blanks, a sign, digits *)
Fixpoint skip_space (s : list Z) : list Z :=
  match s with c :: r => if isspace c then skip_space r else s | [] => [] end.

(** [atoi]: blanks, a sign, digits; out of range is undefined. *)
Fixpoint digits_prefix (s : list Z) (n : Z) : Z * list Z :=
  match s with
  | c :: r => if (48 <=? c) && (c <=? 57) then digits_prefix r (10 * n + (c - 48)) else (n, s)
  | [] => (n, [])
  end.
(** [%d]: the number and what follows, if there is one. *)
Definition scan_d (s : list Z) : option (Z * list Z) :=
  let s := skip_space s in
  let '(neg, t) := match s with
                   | c :: r => if c =? chr "-" then (true, r) else if c =? chr "+" then (false, r) else (false, s)
                   | [] => (false, s)
                   end in
  match t with
  | c :: _ =>
      if (48 <=? c) && (c <=? 57)
      then let '(n, r) := digits_prefix t 0 in Some (if (neg : bool) then - n else n, r)
      else None
  | [] => None
  end.
Definition atoi (s : list Z) : Z := match scan_d s with Some (n, _) => n | None => 0 end.

(** ** Lines

    What successive calls [fgets(line, size, f)] return until the end of the file:
    up to [room] more bytes and the line feed end a piece. *)
Fixpoint fgets_loop (size room : nat) (acc s : list Z) : list (list Z) :=
  match s with
  | [] => match acc with [] => [] | _ => [acc] end
  | c :: s =>
      match room with
      | O => []
      | S room =>
          if (c =? 10) || (room =? 0)%nat then (acc ++ [c]) :: fgets_loop size (size - 1) [] s
          else fgets_loop size room (acc ++ [c]) s
      end
  end.
Definition fgets_all (size : nat) (s : list Z) : list (list Z) := fgets_loop size (size - 1) [] s.

(** ** Lemmas *)

Lemma cval_range sc c : 0 <= c < 256 -> -128 <= cval sc c < 256.
Proof.
  intros Hc. unfold cval. destruct sc; [|lia].
  unfold s8, sgn. rewrite Z.mod_small by lia. change (2 ^ (8 - 1)) with 128. case_bool; lia.
Qed.

Lemma mread_spec buf i n vs :
  mread buf i n = Some vs ->
  0 <= i /\ i + u64 n <= Z.of_nat (length buf) /\
  vs = take (Z.to_nat (u64 n)) (drop (Z.to_nat i) buf).
Proof. unfold mread. case_bool; intros; simp_opt. split_and!; [lia|lia|done]. Qed.

Lemma u64_range z : 0 <= u64 z < 2 ^ 64.
Proof. apply Z.mod_pos_bound. lia. Qed.

(** Reading a block that lies at [i]. *)
Lemma mread_app a b c i n :
  i = Z.of_nat (length a) -> n = Z.of_nat (length b) -> n < 2 ^ 64 ->
  mread (a ++ b ++ c) i n = Some b.
Proof.
  intros -> -> Hn. unfold mread. rewrite u64_id by lia.
  rewrite !length_app, !Nat2Z.id. case_bool.
  - by rewrite drop_app_length, take_app_length.
  - exfalso. apply andb_false_iff in E as [E|E]; zify_bool; lia.
Qed.

Lemma mread_prefix b c n : n = Z.of_nat (length b) -> n < 2 ^ 64 -> mread (b ++ c) 0 n = Some b.
Proof. intros. by apply (mread_app [] b c). Qed.

Lemma mread_length buf i n vs :
  mread buf i n = Some vs -> 0 <= n < 2 ^ 64 -> Z.of_nat (length vs) = n.
Proof.
  intros (Hi & Hl & ->)%mread_spec Hn. rewrite u64_id in * by done.
  rewrite length_take, length_drop. lia.
Qed.

Lemma mread_in buf i n :
  0 <= i -> 0 <= n < 2 ^ 64 -> i + n <= Z.of_nat (length buf) ->
  mread buf i n = Some (take (Z.to_nat n) (drop (Z.to_nat i) buf)).
Proof. intros. unfold mread. rewrite u64_id by done. case_bool; [done|lia]. Qed.

(** A negative count reaches outside every object of less than [2^63] bytes. *)
Lemma mread_negative buf i n :
  - 2 ^ 63 <= n < 0 -> Z.of_nat (length buf) < 2 ^ 63 -> mread buf i n = None.
Proof.
  intros Hn Hb. unfold mread, u64.
  replace (n mod 2 ^ 64) with (n + 2 ^ 64) by (apply (Z.mod_unique_pos _ _ (-1)); lia).
  case_bool; [lia|done].
Qed.

Lemma mwrite_in buf i vs :
  0 <= i -> i + Z.of_nat (length vs) <= Z.of_nat (length buf) ->
  mwrite buf i vs = Some (take (Z.to_nat i) buf ++ vs ++ drop (Z.to_nat i + length vs) buf).
Proof. intros. unfold mwrite. case_bool; [done|lia]. Qed.

(** Writing over a block that lies at [i]. *)
Lemma mwrite_app a b c i vs :
  i = Z.of_nat (length a) -> length vs = length b -> mwrite (a ++ b ++ c) i vs = Some (a ++ vs ++ c).
Proof.
  intros -> Hl. rewrite mwrite_in by (rewrite ?length_app; lia).
  rewrite Nat2Z.id, take_app_length, Hl. f_equal. do 2 f_equal.
  rewrite drop_app_ge by lia. replace (length a + length b - length a)%nat with (length b) by lia.
  apply drop_app_length.
Qed.

Lemma wr_app a x c i v : i = Z.of_nat (length a) -> wr (a ++ x :: c) i v = Some (a ++ v :: c).
Proof.
  intros ->. rewrite wr_Some by (rewrite length_app; cbn [length]; lia).
  by rewrite Nat2Z.id, insert_app_r_alt, Nat.sub_diag by lia.
Qed.

(** An object of at least [n] bytes begins with a block of [n]. *)
Lemma split_block (buf : list Z) n :
  (n <= length buf)%nat -> exists a b, buf = a ++ b /\ length a = n.
Proof. intros Hn. exists (take n buf), (drop n buf). rewrite take_drop, length_take. split; [done|lia]. Qed.

Lemma mwrite_length buf i vs buf' : mwrite buf i vs = Some buf' -> length buf' = length buf.
Proof.
  unfold mwrite. case_bool; intros; simp_opt.
  rewrite !length_app, length_take, length_drop. lia.
Qed.

Lemma strncmp_eq_spec n s t :
  strncmp_eq n s t = true <-> take n (s ++ [0]) = take n (t ++ [0]).
Proof. apply bool_decide_eq_true. Qed.

Lemma length_be_bytes n z : length (be_bytes n z) = n.
Proof. induction n; simpl; auto. Qed.

Lemma be_bytes_range n z : Forall (fun b => 0 <= b < 256) (be_bytes n z).
Proof. induction n; simpl; constructor; auto with cint. Qed.

Lemma be_foldl l a : foldl be_step a l = a * 256 ^ Z.of_nat (length l) + be_val l.
Proof.
  revert a. induction l as [|b l IH]; intros a; unfold be_val; cbn [foldl length]; [lia|].
  rewrite IH, (IH (be_step 0 b)), Nat2Z.inj_succ, Z.pow_succ_r by lia. unfold be_step. lia.
Qed.

Lemma be_val_cons b l : be_val (b :: l) = b * 256 ^ Z.of_nat (length l) + be_val l.
Proof. unfold be_val at 1. cbn [foldl]. rewrite be_foldl. unfold be_step. lia. Qed.

(** Encoding and decoding agree modulo the width. *)
Lemma be_val_bytes n z : be_val (be_bytes n z) = z mod 2 ^ (8 * Z.of_nat n).
Proof.
  induction n as [|n IH]; [by rewrite Z.mod_1_r|].
  cbn [be_bytes]. rewrite be_val_cons, length_be_bytes, IH.
  change 256 with (2 ^ 8). rewrite <- Z.pow_mul_r by lia.
  rewrite Nat2Z.inj_succ.
  replace (8 * Z.succ (Z.of_nat n)) with (8 * Z.of_nat n + 8) by lia.
  rewrite Z.pow_add_r by lia.
  rewrite (Z.rem_mul_r z (2 ^ (8 * Z.of_nat n)) (2 ^ 8)) by lia.
  unfold u8. lia.
Qed.

Lemma be_val_range l :
  Forall (fun b => 0 <= b < 256) l -> 0 <= be_val l < 256 ^ Z.of_nat (length l).
Proof.
  induction 1 as [|b l Hb _ IH]; [done|].
  rewrite be_val_cons. cbn [length]. rewrite Nat2Z.inj_succ, Z.pow_succ_r by lia. nia.
Qed.

Lemma ntohl_htonl a z c i :
  i = Z.of_nat (length a) -> 0 <= z < 2 ^ 32 ->
  ntohl_at (a ++ htonl_bytes z ++ c) i = Some z.
Proof.
  intros Hi Hz. unfold ld_be. rewrite mread_app by (auto; lia).
  change (Some (be_val (htonl_bytes z)) = Some z). rewrite be_val_bytes, Z.mod_small by done. done.
Qed.

(** ** Lines come back from [fgets] *)

Lemma fgets_loop_line size l s room acc :
  Forall (fun c => c <> 10) l -> (length l < room)%nat ->
  fgets_loop size room acc (l ++ 10 :: s) = (acc ++ l ++ [10]) :: fgets_all size s.
Proof.
  intros Hl. revert room acc. induction Hl as [|c l Hc _ IH]; intros [|room] acc Hr;
    cbn [length app fgets_loop] in *; try lia; [done|].
  rewrite (proj2 (Z.eqb_neq c 10)) by done. cbn [orb].
  destruct (room =? 0)%nat eqn:E; [apply Nat.eqb_eq in E; lia|].
  rewrite IH by lia. f_equal. list_assoc.
Qed.

Lemma fgets_line size l s :
  Forall (fun c => c <> 10) l -> (length l + 1 < size)%nat ->
  fgets_all size ((l ++ [10]) ++ s) = (l ++ [10]) :: fgets_all size s.
Proof.
  intros Hl Hn. unfold fgets_all at 1. rewrite <- app_assoc. cbn [app].
  by rewrite fgets_loop_line by (done || lia).
Qed.

End Libc.
