(* ===== verification/Regexp.v ===== *)
(** * Regexp: the pattern matcher of the kernel module

    Models src/oaf/src/regexp.c: the compiler from pattern text to a list of
    [RE] nodes, the backtracking matcher in its shortest and longest variants,
    and [regexp_match].  Shows that the matcher decides a declarative
    relation, that both variants agree, and what a pattern means for a host. *)

From S2P Require Import Prelude.

Module Regexp.

(** ** Data *)

(** [typedef enum{CHAR, ..., LIST, TYPENUM}TYPE] *)
Inductive TYPE := CHAR | DOT | BEGIN | END | STAR | PLUS | QUES | LIST.

#[export] Instance TYPE_eq_dec : EqDecision TYPE.
Proof. solve_decision. Defined.

(** [struct RE]; the [next] chain is a list, NULL is [[]].  [re_ccl] is the
    string the [ccl] pointer denotes; it and [re_nccl] are read only when the
    type is [LIST]. *)
Record RE := mkRE { re_type : TYPE; re_ch : Z; re_ccl : list Z; re_nccl : bool }.

(** What [kmalloc] leaves in memory the code never writes: the [ch] field of
    the i-th node, byte 10 of the i-th node's 11-byte class, and whether an
    11-byte request has a usable 12th byte. *)
Record kmem := mkKmem { junk_ch : nat -> Z; junk_ccl10 : nat -> Z; slack11 : bool }.

Section Compile.
Context (mem : kmem).

(** ** Compiling a pattern *)

Fixpoint range_bytes (start : Z) (n : nat) : list Z :=
  match n with O => [] | S n => u8 start :: range_bytes (start + 1) n end.

(** [creat_list]: writes the bytes [start..end] at [str]; the returned
    [size_t] is added to a pointer, so it acts as the signed difference. *)
Definition creat_list (ccl : list Z) (str start end_ : Z) : option (list Z * Z) :=
  ccl' ← wr_list ccl str (range_bytes start (Z.to_nat (end_ - start + 1)));
  Some (ccl', end_ - start + 1).

(** The [while] loop of the ['['] case.  Result: the pattern position, the
    class buffer, the write position and [err_flag]. *)
Fixpoint class_loop (fuel : nat) (reg : list Z) (p : Z) (ccl : list Z) (pstr : Z)
    : option (Z * list Z * Z * bool) :=
  match fuel with
  | O => None
  | S fuel =>
      c ← reg @! p;
      if (c =? 0) || (c =? chr "]") then Some (p, ccl, pstr, false) else
      if negb (c =? chr "-") then
        ccl' ← wr ccl pstr c; class_loop fuel reg (p + 1) ccl' (pstr + 1)
      else if pstr =? 0 then Some (p, ccl, pstr, true) else
      c1 ← reg @! (p + 1);
      if c1 =? chr "]" then Some (p, ccl, pstr, true) else
      c0 ← reg @! (p - 1);
      '(ccl', n) ← creat_list ccl pstr (s8 c0 + 1) (s8 c1);
      class_loop fuel reg (p + 2) ccl' (pstr + n)
  end.

(** The class of [\d] and [\D]: ten digits are written to an 11-byte object,
    byte 10 is not written, and the NUL goes to index 11. *)
Definition digit_class (idx : nat) (nccl : bool) : option RE :=
  if slack11 mem then
    ccl ← cstr (range_bytes (chr "0") 10 ++ [junk_ccl10 mem idx; 0]);
    Some (mkRE LIST (junk_ch mem idx) ccl nccl)
  else None.

(** The body of the [for] loop of [compile], for the byte [c] at [p]: the new
    node, the position the body leaves [regexp] at, and [err_flag]. *)
Definition compile_node (reg : list Z) (p : Z) (idx : nat) (c : Z)
    : option (RE * Z * bool) :=
  let plain t := Some (mkRE t (junk_ch mem idx) [] false, p, false) in
  if c =? chr "\" then
    c1 ← reg @! (p + 1);
    if c1 =? chr "d" then r ← digit_class idx false; Some (r, p + 1, false) else
    if c1 =? chr "D" then r ← digit_class idx true; Some (r, p + 1, false) else
    c2 ← reg @! (p + 2); Some (mkRE CHAR c2 [] false, p + 1, false)
  else if c =? chr "." then plain DOT
  else if c =? chr "^" then Some (mkRE BEGIN (chr "^") [] false, p, false)
  else if c =? chr "$" then Some (mkRE END (chr "$") [] false, p, false)
  else if c =? chr "*" then plain STAR
  else if c =? chr "+" then plain PLUS
  else if c =? chr "?" then plain QUES
  else if c =? chr "[" then
    c1 ← reg @! (p + 1);
    let nccl := c1 =? chr "^" in
    let start := if nccl then p + 2 else p + 1 in
    '(p', ccl, pstr, err) ← class_loop (S (length reg)) reg start (replicate 256 0) 0;
    ccl' ← wr ccl pstr 0;
    s ← cstr ccl';
    cend ← reg @! p';
    Some (mkRE LIST (junk_ch mem idx) s nccl, p', err || (cend =? 0))
  else Some (mkRE CHAR c [] false, p, false).

Fixpoint compile_loop (fuel : nat) (reg : list Z) (p : Z) (err_flag : bool)
    (acc : list RE) : option (list RE * bool) :=
  match fuel with
  | O => None
  | S fuel =>
      c ← reg @! p;
      if (c =? 0) || err_flag then Some (acc, err_flag) else
      '(node, p', err) ← compile_node reg p (length acc) c;
      compile_loop fuel reg (p' + 1) err (acc ++ [node])
  end.

(** [compile]: [reg] is the whole object the pattern lives in.  A NULL result
    (an error, or an empty pattern) is [[]]. *)
Definition compile (reg : list Z) : option (list RE) :=
  '(nodes, err) ← compile_loop (S (length reg)) reg 0 false [];
  Some (if (err : bool) then [] else nodes).

End Compile.

(** ** Matching

    The text is the list of its bytes before the NUL; no function moves past
    the NUL.  [match_longest] is the global of that name. *)

Definition in_list (ch : Z) (r : RE) : bool :=
  if decide (re_type r = LIST)
  then xorb (existsb (Z.eqb ch) (re_ccl r)) (re_nccl r) else false.

(** [MATCH_ONE] and [MATCH_ONE_P]; both read one byte of the text. *)
Definition match_one (r : RE) (c : Z) : bool :=
  bool_decide (re_type r = DOT) || in_list c r || (c =? re_ch r).

Section Quantifiers.
Context (k : list Z -> bool) (cur : RE).

Fixpoint matchstar (text : list Z) : bool :=
  k text || match text with
            | [] => false
            | c :: t => match_one cur c && matchstar t
            end.

(** [for(t = text; *t != '\0' && MATCH_ONE(cur, t); t++);] *)
Fixpoint span_len (text : list Z) : nat :=
  match text with
  | [] => O
  | c :: t => if match_one cur c then S (span_len t) else O
  end.

(** [do{ if(matchhere(regexp, t)) return 1; }while(t-- > text);] *)
Fixpoint down_to (text : list Z) (n : nat) : bool :=
  k (drop n text) || match n with O => false | S n => down_to text n end.

(** [for(; t > text; t--) if(matchhere(regexp, t)) return 1;] *)
Fixpoint down_above (text : list Z) (n : nat) : bool :=
  match n with O => false | S n' => k (drop n text) || down_above text n' end.

Definition matchstar_l (text : list Z) : bool := down_to text (span_len text).

Fixpoint matchplus (text : list Z) : bool :=
  match text with
  | [] => false
  | c :: t => match_one cur c && (k t || matchplus t)
  end.

Definition matchplus_l (text : list Z) : bool := down_above text (span_len text).

Definition matchques (text : list Z) : bool :=
  down_to text match text with
               | [] => O
               | c :: _ => if match_one cur c then 1%nat else O
               end.

End Quantifiers.

Section Match.
Context (match_longest : bool).

Fixpoint matchhere (regexp : list RE) (text : list Z) : bool :=
  match regexp with
  | [] => true
  | r :: nxt =>
      let single :=
        match text with
        | [] => false
        | c :: t => match_one r c && matchhere nxt t
        end in
      match nxt with
      | [] => if decide (re_type r = END) then bool_decide (text = []) else single
      | q :: rest =>
          match re_type q with
          | STAR => if match_longest then matchstar_l (matchhere rest) r text
                    else matchstar (matchhere rest) r text
          | PLUS => if match_longest then matchplus_l (matchhere rest) r text
                    else matchplus (matchhere rest) r text
          | QUES => matchques (matchhere rest) r text
          | _ => single
          end
      end
  end.

(** The search loop of [regexp_match]: every suffix, the empty one included. *)
Fixpoint match_from (regexp : list RE) (text : list Z) : bool :=
  matchhere regexp text ||
  match text with [] => false | _ :: t => match_from regexp t end.

Definition regexp_match_compiled (regexp : list RE) (text : list Z) : Z :=
  match regexp with
  | [] => -1
  | r :: nxt => if decide (re_type r = BEGIN) then Z.b2z (matchhere nxt text)
                else Z.b2z (match_from regexp text)
  end.

End Match.
#[global] Arguments regexp_match_compiled : simpl never.

(** [regexp_match] on the objects that hold the two strings; [match_longest]
    is never written, so it keeps its initial value 0. *)
Definition regexp_match (mem : kmem) (reg text : list Z) : option Z :=
  re ← compile mem reg;
  match re with
  | [] => Some (-1)
  | _ => t ← cstr text; Some (regexp_match_compiled false re t)
  end.

(** ** Specification *)

Definition quantifier (t : TYPE) : bool :=
  match t with STAR | PLUS | QUES => true | _ => false end.

Definition head_quantified (re : list RE) : bool :=
  match re with q :: _ => quantifier (re_type q) | [] => false end.

(** The bytes a node stands for: any byte for a dot; for a class the bytes of
    its list, or the others when it is negated; and always the byte in its
    field [ch]. *)
Inductive ByteOf (r : RE) (c : Z) : Prop :=
  | B_dot : re_type r = DOT -> ByteOf r c
  | B_class : re_type r = LIST -> re_nccl r = false -> c ∈ re_ccl r -> ByteOf r c
  | B_negated : re_type r = LIST -> re_nccl r = true -> c ∉ re_ccl r -> ByteOf r c
  | B_char : c = re_ch r -> ByteOf r c.

(** [Matches re t]: some prefix of [t] is matched by [re]. *)
Inductive Matches : list RE -> list Z -> Prop :=
  | M_nil t : Matches [] t
  | M_end r : re_type r = END -> Matches [r] []
  | M_star r q rest w t :
      re_type q = STAR -> Forall (ByteOf r) w ->
      Matches rest t -> Matches (r :: q :: rest) (w ++ t)
  | M_plus r q rest w t :
      re_type q = PLUS -> w <> [] -> Forall (ByteOf r) w ->
      Matches rest t -> Matches (r :: q :: rest) (w ++ t)
  | M_ques r q rest w t :
      re_type q = QUES -> (length w <= 1)%nat ->
      Forall (ByteOf r) w ->
      Matches rest t -> Matches (r :: q :: rest) (w ++ t)
  | M_one r nxt c t :
      head_quantified nxt = false -> ~ (re_type r = END /\ nxt = []) ->
      ByteOf r c -> Matches nxt t -> Matches (r :: nxt) (c :: t).

Lemma match_one_spec r c : match_one r c = true <-> ByteOf r c.
Proof.
  unfold match_one, in_list. rewrite !orb_true_iff, bool_decide_eq_true, Z.eqb_eq.
  assert (existsb (Z.eqb c) (re_ccl r) = true <-> c ∈ re_ccl r) as He.
  { rewrite existsb_exists. setoid_rewrite Z.eqb_eq. rewrite list_elem_of_In. naive_solver. }
  split.
  - intros [[H|H]|H]; [by apply B_dot| |by apply B_char]. case_decide as Ht; [|done].
    destruct (re_nccl r) eqn:En; destruct (existsb _ _) eqn:Ex; try done.
    + apply B_negated; [done..|]. by rewrite <- He.
    + apply B_class; [done..|]. by apply He.
  - intros [H|H Hn Hc|H Hn Hc|H]; auto; left; right; rewrite decide_True by done; rewrite Hn.
    + apply He in Hc. by rewrite Hc.
    + destruct (existsb _ _); [|done]. by destruct Hc; apply He.
Qed.

(** ** The quantifier loops *)

Section QuantifierLemmas.
Context (k : list Z -> bool) (cur : RE).
Abbreviation ones w := (Forall (fun c => match_one cur c = true) w).

Lemma matchstar_true text :
  matchstar k cur text = true <-> exists w t, text = w ++ t /\ ones w /\ k t = true.
Proof.
  induction text as [|c text IH]; simpl; rewrite orb_true_iff.
  - split; [intros [H|H]; [by exists [], []|done]|].
    intros (w & t & Heq & _ & Hk). symmetry in Heq.
    apply app_eq_nil in Heq as [-> ->]. by left.
  - rewrite andb_true_iff, IH. split.
    + intros [H|[Hc (w & t & -> & Hw & Hk)]]; [by exists [], (c :: text)|].
      exists (c :: w), t. by repeat constructor.
    + intros ([|x w] & t & Heq & Hw & Hk); simplify_eq/=; [by left|].
      inversion_clear Hw. right.
      split; [done|]. by exists w, t.
Qed.

Lemma matchplus_true text :
  matchplus k cur text = true <->
  exists w t, text = w ++ t /\ w <> [] /\ ones w /\ k t = true.
Proof.
  induction text as [|c text IH]; simpl.
  - split; [done|]. intros ([|] & t & Heq & ? & _); by simplify_eq/=.
  - rewrite andb_true_iff, orb_true_iff, IH. split.
    + intros [Hc [H|(w & t & -> & ? & Hw & Hk)]].
      * exists [c], text. split_and!; [done|done| |done]. by repeat constructor.
      * exists (c :: w), t. by repeat constructor.
    + intros ([|x w] & t & Heq & ? & Hw & Hk); simplify_eq/=.
      inversion_clear Hw. split; [done|].
      destruct w as [|y w]; [by left|right]. by exists (y :: w), t.
Qed.

Lemma span_len_le text n :
  (n <= span_len cur text)%nat <-> (n <= length text)%nat /\ ones (take n text).
Proof.
  revert n; induction text as [|c text IH]; intros [|n]; simpl.
  - split; [by split; [lia|constructor]|lia].
  - split; [lia|]. intros [? _]; lia.
  - split; [by split; [lia|constructor]|lia].
  - destruct (match_one cur c) eqn:E.
    + rewrite <- Nat.succ_le_mono, IH. split; intros [? H]; split; try lia.
      * by constructor.
      * by inversion_clear H.
    + split; [lia|]. intros [_ H]. inversion_clear H. congruence.
Qed.

Lemma down_to_true text n :
  down_to k text n = true <-> exists m, (m <= n)%nat /\ k (drop m text) = true.
Proof.
  induction n as [|n IH]; simpl; rewrite orb_true_iff.
  - split; [intros [H|H]; [by exists O|done]|].
    intros (m & Hm & H). replace m with O in H by lia. by left.
  - rewrite IH. split.
    + intros [H|(m & ? & ?)]; [by exists (S n)|]. exists m. split; [lia|done].
    + intros (m & Hm & H). destruct (decide (m = S n)) as [->|]; [by left|].
      right. exists m. split; [lia|done].
Qed.

Lemma down_above_true text n :
  down_above k text n = true <->
  exists m, (0 < m <= n)%nat /\ k (drop m text) = true.
Proof.
  induction n as [|n IH]; simpl.
  - split; [done|]. intros (? & ? & _); lia.
  - rewrite orb_true_iff, IH. split.
    + intros [H|(m & ? & ?)]; [exists (S n); split; [lia|done]|].
      exists m. split; [lia|done].
    + intros (m & Hm & H). destruct (decide (m = S n)) as [->|]; [by left|].
      right. exists m. split; [lia|done].
Qed.

(** A run of matching bytes is a count bounded by [span_len]. *)
Lemma runs_iff text (Q : nat -> Prop) :
  (exists m, (m <= span_len cur text)%nat /\ Q m /\ k (drop m text) = true) <->
  (exists w t, text = w ++ t /\ ones w /\ Q (length w) /\ k t = true).
Proof.
  split.
  - intros (m & Hm & HQ & Hk). apply span_len_le in Hm as [Hl Hw].
    exists (take m text), (drop m text). rewrite take_drop, length_take_le by done.
    done.
  - intros (w & t & -> & Hw & HQ & Hk). exists (length w).
    rewrite drop_app_length. split; [|done].
    apply span_len_le. rewrite length_app, take_app_length. split; [lia|done].
Qed.

Lemma matchstar_l_true text :
  matchstar_l k cur text = true <-> exists w t, text = w ++ t /\ ones w /\ k t = true.
Proof.
  unfold matchstar_l. rewrite down_to_true.
  pose proof (runs_iff text (fun _ => True)) as H. split.
  - intros (m & ? & ?). destruct (proj1 H) as (w & t & ? & ? & _ & ?); [|by exists w, t].
    by exists m.
  - intros (w & t & ? & ? & ?). destruct (proj2 H) as (m & ? & _ & ?); [|by exists m].
    by exists w, t.
Qed.

Lemma matchplus_l_true text :
  matchplus_l k cur text = true <->
  exists w t, text = w ++ t /\ w <> [] /\ ones w /\ k t = true.
Proof.
  unfold matchplus_l. rewrite down_above_true.
  pose proof (runs_iff text (fun m => (0 < m)%nat)) as H. split.
  - intros (m & ? & ?). destruct (proj1 H) as (w & t & ? & ? & ? & ?).
    { exists m. split_and!; [lia|lia|done]. }
    exists w, t. split_and!; try done. destruct w; simpl in *; [lia|done].
  - intros (w & t & ? & ? & ? & ?). destruct (proj2 H) as (m & ? & ? & ?).
    { exists w, t. split_and!; try done. destruct w; simpl; [done|lia]. }
    exists m. split; [lia|done].
Qed.

Lemma matchques_true text :
  matchques k cur text = true <->
  exists w t, text = w ++ t /\ (length w <= 1)%nat /\ ones w /\ k t = true.
Proof.
  assert (matchques k cur text = down_to k text (Nat.min 1 (span_len cur text))) as ->.
  { unfold matchques. f_equal. destruct text as [|c text]; simpl; [done|].
    by destruct (match_one cur c). }
  rewrite down_to_true.
  pose proof (runs_iff text (fun m => (m <= 1)%nat)) as H. split.
  - intros (m & ? & ?). destruct (proj1 H) as (w & t & ? & ? & ? & ?).
    { exists m. split_and!; [lia|lia|done]. }
    by exists w, t.
  - intros (w & t & ? & ? & ? & ?). destruct (proj2 H) as (m & ? & ? & ?).
    { by exists w, t. }
    exists m. split; [lia|done].
Qed.

End QuantifierLemmas.

(** ** The matcher against its specification *)

Abbreviation ones r w := (Forall (fun c => match_one r c = true) w).

Lemma ones_spec r w : ones r w <-> Forall (ByteOf r) w.
Proof. apply Forall_iff. intros c. apply match_one_spec. Qed.

(** Inversion of [Matches], by the kind of the node that follows. *)
Lemma Matches_single_iff r nxt text :
  head_quantified nxt = false -> ~ (re_type r = END /\ nxt = []) ->
  Matches (r :: nxt) text <->
  match text with [] => False
  | c :: t => match_one r c = true /\ Matches nxt t end.
Proof.
  intros Hq He. split.
  - intros H. inversion H as [|? Ht|???? t Hs|???? t Hs|???? t Hs|]; subst;
      simpl in Hq; try (by rewrite Hs in Hq); [by destruct He|by rewrite match_one_spec].
  - destruct text as [|c t]; [done|]. rewrite match_one_spec. intros []. by constructor.
Qed.

Lemma Matches_end_iff r text : re_type r = END -> Matches [r] text <-> text = [].
Proof.
  intros Ht. split; [|intros ->; by constructor].
  intros H. inversion H; subst; [done|]. by exfalso; auto.
Qed.

Lemma Matches_quant_iff r q rest text :
  quantifier (re_type q) = true ->
  Matches (r :: q :: rest) text <->
  exists w t, text = w ++ t /\ ones r w /\ Matches rest t /\
    (re_type q = PLUS -> w <> []) /\ (re_type q = QUES -> (length w <= 1)%nat).
Proof.
  intros Hq. setoid_rewrite ones_spec. split.
  - intros H. inversion H as [| |? ? ? w t Hs|? ? ? w t Hs|? ? ? w t Hs|]; subst;
      [exists w, t; rewrite Hs; by split_and!..|].
    simpl in *. congruence.
  - intros (w & t & -> & Hw & Hm & Hp & Hqu).
    destruct (re_type q) eqn:Eq; try done;
      [by apply M_star|apply M_plus|apply M_ques]; auto.
Qed.

Lemma matchhere_step longest r nxt text :
  head_quantified nxt = false -> ~ (re_type r = END /\ nxt = []) ->
  matchhere longest (r :: nxt) text =
  match text with [] => false | c :: t => match_one r c && matchhere longest nxt t end.
Proof.
  intros Hq He. simpl. destruct nxt as [|q rest]; simpl in *.
  - case_decide; [by exfalso; auto|done].
  - by destruct (re_type q).
Qed.

Lemma matchhere_quant longest r q rest text :
  quantifier (re_type q) = true ->
  matchhere longest (r :: q :: rest) text = true <->
  exists w t, text = w ++ t /\ ones r w /\ matchhere longest rest t = true /\
    (re_type q = PLUS -> w <> []) /\ (re_type q = QUES -> (length w <= 1)%nat).
Proof.
  intros Hq. simpl matchhere at 1. set (k := matchhere longest rest).
  transitivity (exists w t, text = w ++ t /\
    (re_type q = PLUS -> w <> []) /\ (re_type q = QUES -> (length w <= 1)%nat) /\
    ones r w /\ k t = true); [|by split; intros (w & t & ?); exists w, t; tauto].
  destruct (re_type q) eqn:Eq; try done.
  - transitivity (exists w t, text = w ++ t /\ ones r w /\ k t = true).
    { destruct longest; [apply matchstar_l_true|apply matchstar_true]. }
    by split; intros (w & t & ?); exists w, t; naive_solver.
  - transitivity (exists w t, text = w ++ t /\ w <> [] /\ ones r w /\ k t = true).
    { destruct longest; [apply matchplus_l_true|apply matchplus_true]. }
    by split; intros (w & t & ?); exists w, t; naive_solver.
  - rewrite matchques_true.
    by split; intros (w & t & ?); exists w, t; naive_solver.
Qed.

(** [matchhere], in its shortest-match and longest-match variant, accepts
    exactly when some prefix of the text is matched in the declarative sense. *)
Lemma matchhere_Matches longest re text :
  matchhere longest re text = true <-> Matches re text.
Proof.
  revert text. induction re as [re IH] using (Nat.measure_induction _ length).
  intros text. destruct re as [|r nxt]; [by split; [constructor|]|].
  destruct (head_quantified nxt) eqn:Hq.
  - destruct nxt as [|q rest]; [done|]. rewrite matchhere_quant, Matches_quant_iff by done.
    setoid_rewrite (IH rest); [done|simpl; lia].
  - destruct (decide (re_type r = END)) as [He|He]; [destruct nxt as [|q rest]|].
    + rewrite Matches_end_iff by done. simpl. case_decide; [|done].
      by rewrite bool_decide_eq_true.
    + rewrite matchhere_step, Matches_single_iff by (simpl in *; naive_solver).
      destruct text; [done|]. by rewrite andb_true_iff, IH by (simpl; lia).
    + rewrite matchhere_step, Matches_single_iff by naive_solver.
      destruct text; [done|]. by rewrite andb_true_iff, IH by (simpl; lia).
Qed.

Lemma match_from_true longest re text :
  match_from longest re text = true <->
  exists s, s `suffix_of` text /\ Matches re s.
Proof.
  induction text as [|c text IH]; simpl; rewrite orb_true_iff, matchhere_Matches.
  - split; [intros [H|]; [by exists []|done]|].
    intros (s & Hs & H). apply suffix_nil_inv in Hs as ->. by left.
  - rewrite IH. setoid_rewrite suffix_of_cons. naive_solver.
Qed.

(** What a compiled, non-NULL pattern accepts. *)
Definition accepts (re : list RE) (t : list Z) : Prop :=
  match re with
  | [] => False
  | r :: nxt => if decide (re_type r = BEGIN) then Matches nxt t
                else exists s, s `suffix_of` t /\ Matches re s
  end.

Lemma regexp_match_compiled_accepts longest re t :
  re <> [] ->
  (regexp_match_compiled longest re t = 1 <-> accepts re t) /\
  (regexp_match_compiled longest re t = 0 <-> ~ accepts re t).
Proof.
  intros Hre. destruct re as [|r nxt]; [done|]. unfold regexp_match_compiled, accepts.
  case_decide.
  - rewrite <- (matchhere_Matches longest).
    destruct (matchhere longest nxt t); simpl; intuition congruence.
  - rewrite <- (match_from_true longest).
    destruct (match_from longest (r :: nxt) t); simpl; intuition congruence.
Qed.

(** ** Plain patterns *)

Definition metachars : list Z := bytes_of "\.^$*+?[".

(** A pattern byte that stands for itself, or a dot. *)
Definition plain (c : Z) : Prop := c <> 0 /\ (c = chr "." \/ c ∉ metachars).

#[export] Instance plain_dec c : Decision (plain c).
Proof. unfold plain. apply _. Defined.

Definition plain_node (mem : kmem) (idx : nat) (c : Z) : RE :=
  if c =? chr "." then mkRE DOT (junk_ch mem idx) [] false
  else mkRE CHAR c [] false.

(** The nodes of plain bytes, numbered from [k]. *)
Fixpoint plain_nodes (mem : kmem) (k : nat) (p : list Z) : list RE :=
  match p with
  | [] => []
  | c :: p => plain_node mem k c :: plain_nodes mem (S k) p
  end.

Lemma plain_nodes_app mem k p q :
  plain_nodes mem k (p ++ q) = plain_nodes mem k p ++ plain_nodes mem (k + length p) q.
Proof.
  revert k; induction p as [|c p IH]; intros k; simpl; [by rewrite Nat.add_0_r|].
  rewrite IH. do 3 f_equal. lia.
Qed.

Lemma length_plain_nodes mem k p : length (plain_nodes mem k p) = length p.
Proof. revert k; induction p; simpl; auto. Qed.

Lemma compile_node_plain mem reg p idx c :
  plain c -> compile_node mem reg p idx c = Some (plain_node mem idx c, p, false).
Proof.
  intros [_ Hc]. unfold compile_node, plain_node. destruct Hc as [->|Hc]; [done|].
  assert (forall a, In a metachars -> c =? a = false) as He.
  { intros a Ha. apply Z.eqb_neq. intros ->. apply Hc. by apply list_elem_of_In. }
  rewrite !He by (simpl; tauto). done.
Qed.

Lemma compile_loop_prefix mem pre p rest acc fuel :
  Forall plain p -> (length p <= fuel)%nat ->
  compile_loop mem fuel (pre ++ p ++ rest) (Z.of_nat (length pre)) false acc =
  compile_loop mem (fuel - length p) (pre ++ p ++ rest)
    (Z.of_nat (length (pre ++ p))) false
    (acc ++ plain_nodes mem (length acc) p).
Proof.
  intros Hp. revert pre acc fuel. induction Hp as [|c p Hc _ IH];
    intros pre acc fuel Hf; simpl in Hf.
  - by rewrite !app_nil_r, Nat.sub_0_r.
  - destruct fuel as [|fuel]; [lia|]. simpl compile_loop at 1.
    rewrite rd_app_mid by done. simpl. destruct (c =? 0) eqn:E; zify_bool;
      [by destruct Hc|]. simpl.
    rewrite compile_node_plain by done. simpl.
    replace (pre ++ c :: p ++ rest) with ((pre ++ [c]) ++ p ++ rest)
      by by rewrite <- app_assoc.
    replace (Z.of_nat (length pre) + 1) with (Z.of_nat (length (pre ++ [c])))
      by (rewrite length_app; simpl; lia).
    rewrite IH by lia. rewrite (length_app acc). simpl.
    by rewrite Nat.add_1_r, <- !app_assoc.
Qed.

Lemma compile_loop_plain mem pre p rest acc fuel :
  Forall plain p -> (length p < fuel)%nat ->
  compile_loop mem fuel (pre ++ p ++ 0 :: rest) (Z.of_nat (length pre)) false acc =
  Some (acc ++ plain_nodes mem (length acc) p, false).
Proof.
  intros Hp Hf. rewrite compile_loop_prefix by (auto; lia).
  destruct (fuel - length p)%nat as [|f] eqn:E; [lia|]. simpl.
  rewrite app_assoc, rd_app_mid by done. done.
Qed.

(** The object [cbuf n p], with its first NUL made visible. *)
Lemma cbuf_nul n p :
  (length p < n)%nat -> exists z, cbuf n p = p ++ 0 :: z /\ z = replicate (n - length p - 1) 0.
Proof.
  intros Hn. unfold cbuf. exists (replicate (n - length p - 1) 0). split; [|done].
  destruct (n - length p)%nat as [|m] eqn:E; [lia|]. simpl.
  by rewrite Nat.sub_0_r.
Qed.

Lemma compile_plain mem n p :
  Forall plain p -> (length p < n)%nat ->
  compile mem (cbuf n p) = Some (plain_nodes mem 0 p).
Proof.
  intros Hp Hn. unfold compile. destruct (cbuf_nul n p Hn) as (z & -> & _).
  pose proof (compile_loop_plain mem [] p z [] (S (length (p ++ 0 :: z))) Hp) as H.
  change (Z.of_nat (length [])) with 0 in H. rewrite app_nil_l in H.
  rewrite H by (rewrite length_app; simpl; lia). done.
Qed.

(** An escape: the node holds the byte after the escaped one. *)
Lemma compile_escape mem n p e x q :
  Forall plain p -> Forall plain q -> plain x -> x <> chr "." ->
  e <> chr "d" -> e <> chr "D" ->
  (length p + length q + 3 < n)%nat ->
  compile mem (cbuf n (p ++ chr "\" :: e :: x :: q)) =
  Some (plain_nodes mem 0 (p ++ x :: x :: q)).
Proof.
  intros Hp Hq Hx Hdot Hd HD Hn.
  assert (length (p ++ chr "\" :: e :: x :: q) < n)%nat as Hl
    by (rewrite length_app; simpl; lia).
  unfold compile. destruct (cbuf_nul _ _ Hl) as (z & -> & _).
  pose (tl := chr "\" :: e :: x :: q ++ 0 :: z).
  replace ((p ++ chr "\" :: e :: x :: q) ++ 0 :: z) with (p ++ tl)
    by (unfold tl; by rewrite <- app_assoc).
  set (fuel := S (length (p ++ tl))).
  pose proof (compile_loop_prefix mem [] p tl [] fuel Hp) as H.
  change (Z.of_nat (length [])) with 0 in H. rewrite !app_nil_l in H.
  rewrite H by (unfold fuel; rewrite length_app; lia). clear H.
  destruct (fuel - length p)%nat as [|f] eqn:Ef; [unfold fuel in Ef; rewrite length_app in Ef; lia|].
  assert (length q + 2 < f)%nat as Hf.
  { unfold fuel in Ef. rewrite length_app in Ef. unfold tl in Ef. simpl in Ef.
    rewrite length_app in Ef. simpl in Ef. lia. }
  simpl compile_loop. unfold tl. rewrite rd_app_mid by done. simpl.
  unfold compile_node. simpl.
  rewrite !rd_app_r by lia. replace (Z.of_nat (length p) + 1 - Z.of_nat (length p)) with 1 by lia.
  replace (Z.of_nat (length p) + 2 - Z.of_nat (length p)) with 2 by lia.
  apply Z.eqb_neq in Hd, HD. change (rd (chr "\" :: ?l) 1) with (Some e). simpl.
  rewrite Hd, HD. simpl.
  replace (Z.of_nat (length p) + 1 + 1) with (Z.of_nat (length (p ++ [chr "\"; e])))
    by (rewrite length_app; simpl; lia).
  replace (p ++ chr "\" :: e :: x :: q ++ 0 :: z)
    with ((p ++ [chr "\"; e]) ++ (x :: q) ++ 0 :: z) by by rewrite <- app_assoc.
  rewrite compile_loop_plain by (first [by constructor|simpl; lia]). simpl.
  rewrite <- app_assoc, plain_nodes_app, length_app, length_plain_nodes. simpl.
  rewrite Nat.add_1_r. do 3 f_equal. unfold plain_node. by apply Z.eqb_neq in Hdot as ->.
Qed.

(** A class that is never closed is an error: [compile] gives NULL. *)
Example compile_open_class mem : compile mem (cbuf 128 (bytes_of "[abc")) = Some [].
Proof. by vm_compute. Qed.

Definition dot_matches (c x : Z) : Prop := c = chr "." \/ c = x.

Lemma match_one_plain mem idx c x :
  match_one (plain_node mem idx c) x = true <-> dot_matches c x.
Proof.
  unfold dot_matches, plain_node. destruct (c =? chr ".") eqn:E; zify_bool; simpl.
  - tauto.
  - unfold match_one, in_list; simpl. rewrite Z.eqb_eq. naive_solver.
Qed.

Lemma Matches_plain mem k p t :
  Matches (plain_nodes mem k p) t <->
  exists w s, t = w ++ s /\ Forall2 dot_matches p w.
Proof.
  revert k t. induction p as [|c p IH]; intros k t; simpl.
  - split; [by exists [], t|constructor].
  - rewrite Matches_single_iff.
    + destruct t as [|x t].
      * split; [done|]. intros (w & s & Heq & Hw). inversion Hw; by simplify_eq/=.
      * rewrite match_one_plain, IH. split.
        -- intros [? (w & s & -> & ?)]. exists (x :: w), s.
           split; [done|by constructor].
        -- intros (w & s & Heq & Hw). inversion Hw; simplify_eq/=.
           split; [done|by eexists _, _].
    + destruct p as [|d p]; [done|]. simpl. unfold plain_node. by case_bool.
    + unfold plain_node. intros [He _]. by destruct (c =? _).
Qed.

Lemma accepts_plain mem p t :
  p <> [] -> Forall plain p ->
  accepts (plain_nodes mem 0 p) t <->
  exists l1 w l2, t = l1 ++ w ++ l2 /\ Forall2 dot_matches p w.
Proof.
  intros Hp Hpl.
  assert (accepts (plain_nodes mem 0 p) t <->
          exists s, s `suffix_of` t /\ Matches (plain_nodes mem 0 p) s) as ->.
  { destruct p as [|c p]; [done|]. simpl. rewrite decide_False; [done|].
    unfold plain_node. by destruct (c =? _). }
  setoid_rewrite Matches_plain. split.
  - intros (s & [l1 ->] & w & l2 & -> & Hw). by exists l1, w, l2.
  - intros (l1 & w & l2 & -> & Hw). exists (w ++ l2). split; [by exists l1|].
    by exists w, l2.
Qed.

(** ** Properties *)

(** C19: [regexp_match] decides the declarative meaning of the pattern: a
    pattern that compiles to a non-NULL node list gives 1 exactly when it
    accepts the text (at the start for a pattern that begins with a caret, at
    any position otherwise) and 0 exactly when it does not, whatever the
    allocator left in the uninitialised fields. *)
Theorem regexp_match_correct mem reg re text t :
  compile mem reg = Some re -> re <> [] -> cstr text = Some t ->
  (regexp_match mem reg text = Some 1 <-> accepts re t) /\
  (regexp_match mem reg text = Some 0 <-> ~ accepts re t).
Proof.
  intros Hc Hre Ht. unfold regexp_match. rewrite Hc. simpl.
  destruct re as [|r nxt]; [done|]. rewrite Ht. simpl.
  destruct (regexp_match_compiled_accepts false (r :: nxt) t Hre) as [H1 H0].
  split; [rewrite <- H1|rewrite <- H0]; split; congruence.
Qed.

Definition mem0 : kmem := mkKmem (fun _ => 0) (fun _ => 0) true.

Lemma regexp_match_correct_witness :
  compile mem0 (cbuf 32 (bytes_of ".*baidu.com$")) <> None /\
  regexp_match mem0 (cbuf 32 (bytes_of ".*baidu.com$"))
    (cbuf 64 (bytes_of "www.baidu.com")) <> None /\
  exists re, re <> [] /\
    (regexp_match mem0 (cbuf 32 (bytes_of ".*baidu.com$"))
       (cbuf 64 (bytes_of "www.baidu.com")) = Some 1 <->
     accepts re (bytes_of "www.baidu.com")) /\
    (regexp_match mem0 (cbuf 32 (bytes_of ".*baidu.com$"))
       (cbuf 64 (bytes_of "www.baidu.com")) = Some 0 <->
     ~ accepts re (bytes_of "www.baidu.com")).
Proof.
  split; [by vm_compute|]. split; [by vm_compute|].
  eexists. split; [|apply regexp_match_correct; [by vm_compute| |by vm_compute]];
    done.
Defined.

(** The longest-match and shortest-match variants of the quantifier loops
    give every pattern the same answer on every text. *)
Theorem longest_shortest_agree re text :
  regexp_match_compiled true re text = regexp_match_compiled false re text.
Proof.
  assert (forall r t, matchhere true r t = matchhere false r t) as Hm.
  { intros r t. apply eq_true_iff_eq. by rewrite !matchhere_Matches. }
  assert (forall r t, match_from true r t = match_from false r t) as Hf.
  { intros r t. apply eq_true_iff_eq. by rewrite !match_from_true. }
  unfold regexp_match_compiled. destruct re as [|r nxt]; [done|].
  by rewrite Hm, Hf.
Qed.

(** A host pattern without metacharacters other than the dot is a substring
    search in which a dot stands for any byte: the pattern always compiles
    inside its buffer, and [regexp_match] returns 1 if a substring of the text
    agrees with it byte for byte and 0 otherwise. *)
Theorem plain_pattern_is_substring_search mem n p text t :
  p <> [] -> Forall plain p -> (length p < n)%nat -> cstr text = Some t ->
  (regexp_match mem (cbuf n p) text = Some 1 <->
     exists l1 w l2, t = l1 ++ w ++ l2 /\ Forall2 dot_matches p w) /\
  (regexp_match mem (cbuf n p) text = Some 0 <->
     ~ exists l1 w l2, t = l1 ++ w ++ l2 /\ Forall2 dot_matches p w).
Proof.
  intros Hp Hpl Hn Ht. rewrite <- (accepts_plain mem p t) by done.
  unfold regexp_match. rewrite compile_plain by done. simpl.
  set (re := plain_nodes mem 0 p). assert (re <> []) as Hre.
  { unfold re. destruct p; [done|]. by simpl. }
  destruct (regexp_match_compiled_accepts false re t Hre) as [H1 H0].
  destruct re as [|r nxt]; [done|]. rewrite Ht. simpl.
  split; [rewrite <- H1|rewrite <- H0]; split; congruence.
Qed.

Lemma plain_pattern_is_substring_search_witness :
  (regexp_match mem0 (cbuf 32 (bytes_of "baidu.com")) (cbuf 64 (bytes_of "www.baidu.com.cn")) = Some 1 <->
     exists l1 w l2, bytes_of "www.baidu.com.cn" = l1 ++ w ++ l2 /\
       Forall2 dot_matches (bytes_of "baidu.com") w) /\
  (regexp_match mem0 (cbuf 32 (bytes_of "baidu.com")) (cbuf 64 (bytes_of "www.baidu.com.cn")) = Some 0 <->
     ~ exists l1 w l2, bytes_of "www.baidu.com.cn" = l1 ++ w ++ l2 /\
       Forall2 dot_matches (bytes_of "baidu.com") w).
Proof.
  apply plain_pattern_is_substring_search; [done| |vm_compute; lia|by vm_compute].
  apply (bool_decide_unpack _). by vm_compute.
Defined.

(** An escape does not match the escaped byte: in a pattern [p\exq] the node
    made for the escape holds [x], the byte after [e], so the pattern accepts
    what [pxxq] accepts; in particular an escaped dot never matches a dot. *)
Theorem escape_matches_following_byte mem n p e x q text t :
  Forall plain p -> Forall plain q -> plain x -> x <> chr "." ->
  e <> chr "d" -> e <> chr "D" -> (length p + length q + 3 < n)%nat ->
  cstr text = Some t ->
  regexp_match mem (cbuf n (p ++ chr "\" :: e :: x :: q)) text = Some 1 <->
  exists l1 w l2, t = l1 ++ w ++ l2 /\ Forall2 dot_matches (p ++ x :: x :: q) w.
Proof.
  intros Hp Hq Hx Hdot Hd HD Hn Ht. unfold regexp_match.
  rewrite compile_escape by done. simpl.
  assert (Forall plain (p ++ x :: x :: q)) as Hall.
  { apply Forall_app_2; [done|]. by repeat (apply Forall_cons_2; [done|]). }
  rewrite <- (accepts_plain mem) by (first [done|by destruct p]).
  set (re := plain_nodes mem 0 (p ++ x :: x :: q)).
  assert (re <> []) as Hre by (unfold re; by destruct p).
  destruct (regexp_match_compiled_accepts false re t Hre) as [H1 _].
  rewrite <- H1. destruct re; [done|]. rewrite Ht. simpl. split; congruence.
Qed.

Lemma escape_matches_following_byte_witness :
  regexp_match mem0 (cbuf 32 (bytes_of "baidu\.com")) (cbuf 64 (bytes_of "baidu.com")) = Some 0 /\
  (regexp_match mem0 (cbuf 32 (bytes_of "baidu" ++ chr "\" :: chr "." :: chr "c" :: bytes_of "om"))
     (cbuf 64 (bytes_of "baidu.com")) = Some 1 <->
   exists l1 w l2, bytes_of "baidu.com" = l1 ++ w ++ l2 /\
     Forall2 dot_matches (bytes_of "baidu" ++ chr "c" :: chr "c" :: bytes_of "om") w).
Proof.
  split; [by vm_compute|].
  apply escape_matches_following_byte; try done;
    first [by vm_compute|vm_compute; discriminate|vm_compute; lia
         |apply (bool_decide_unpack _); by vm_compute].
Defined.

End Regexp.
