(* ===== verification/KUtils.v ===== *)
(** * KUtils: the string utilities of the kernel module

    Models src/oaf/src/af_utils.c: [k_trim], [k_sscanf] with its helpers, and
    [check_local_network_ip].  The kernel library functions the scanner calls
    are the class [Klib]; what the proofs rely on is the class [KlibLaws].
    Shows that trimming strips exactly the blanks at both ends, and what
    [k_sscanf] stores for the two formats the module uses. *)

From S2P Require Import Prelude.

(** ** The kernel library *)

(** [isspace], [isdigit] and [isxdigit] of the kernel's ctype table, on the
    unsigned value of the byte. *)
Definition isspace (c : Z) : bool :=
  (c =? 32) || ((9 <=? c) && (c <=? 13)) || (c =? 160).
Definition isdigit (c : Z) : bool := (48 <=? c) && (c <=? 57).
Definition isxdigit (c : Z) : bool :=
  isdigit c || ((65 <=? c) && (c <=? 70)) || ((97 <=? c) && (c <=? 102)).

(** Conversions of the kernel's lib/vsprintf.c: value and number of bytes
    consumed; and the integers its [sscanf] stores for a format of integer
    conversions (their number is its return value). *)
Class Klib := {
  simple_strtoul : list Z -> Z -> Z * nat;
  simple_strtol : list Z -> Z -> Z * nat;
  simple_strtoull : list Z -> Z -> Z * nat;
  sscanf : list Z -> list Z -> list Z;
}.

(** Digits and the number a digit string denotes. *)
Definition digit_val (c : Z) : Z :=
  if isdigit c then c - 48 else if c <=? 70 then c - 55 else c - 87.
Definition digits_val (base : Z) (ds : list Z) : Z :=
  foldl (fun a c => a * base + digit_val c) 0 ds.
Definition is_base_digit (base c : Z) : bool :=
  if base =? 16 then isxdigit c else isdigit c.

(** No digit follows, nor the letter that would turn a leading zero into a
    hexadecimal prefix. *)
Definition number_ends (base : Z) (rest : list Z) : Prop :=
  match rest with
  | [] => True
  | c :: _ => is_base_digit base c = false /\ c <> chr "x" /\ c <> chr "X"
  end.

(** [%02x] of a byte, and [MAC_FMT]. *)
Definition hex_digit (d : Z) : Z := if d <? 10 then 48 + d else 87 + d.
Definition hex2 (b : Z) : list Z := [hex_digit (b / 16); hex_digit (b mod 16)].
Fixpoint mac_str (mac : list Z) : list Z :=
  match mac with
  | [] => []
  | [b] => hex2 b
  | b :: mac => hex2 b ++ chr ":" :: mac_str mac
  end.
Definition MAC_SCAN_FMT : list Z := bytes_of "%02x:%02x:%02x:%02x:%02x:%02x".

Class KlibLaws `{Klib} := {
  strtoul_digits base ds rest :
    base = 10 \/ base = 16 -> ds <> [] ->
    Forall (fun c => is_base_digit base c = true) ds -> number_ends base rest ->
    digits_val base ds < 2 ^ 31 ->
    simple_strtoul (ds ++ rest) base = (digits_val base ds, length ds);
  strtol_pos s base : head s <> Some (chr "-") ->
    simple_strtol s base = simple_strtoul s base;
  strtol_neg s base :
    simple_strtol (chr "-" :: s) base =
    (- fst (simple_strtoul s base), S (snd (simple_strtoul s base)));
  sscanf_d ds :
    ds <> [] -> Forall (fun c => isdigit c = true) ds -> digits_val 10 ds < 2 ^ 31 ->
    sscanf ds (bytes_of "%d") = [digits_val 10 ds];
  sscanf_d_d ds es :
    ds <> [] -> Forall (fun c => isdigit c = true) ds -> digits_val 10 ds < 2 ^ 31 ->
    es <> [] -> Forall (fun c => isdigit c = true) es -> digits_val 10 es < 2 ^ 31 ->
    sscanf (ds ++ chr "-" :: es) (bytes_of "%d-%d") =
    [digits_val 10 ds; digits_val 10 es];
  sscanf_empty fmt : sscanf [] fmt = [];
  sscanf_mac mac :
    length mac = 6%nat -> Forall (fun b => 0 <= b < 256) mac ->
    sscanf (mac_str mac) MAC_SCAN_FMT = mac;
}.

(** ** [k_trim] and friends *)

Module KUtils.

(** [while (isspace( *start)) start++;] on the bytes before the NUL. *)
Fixpoint lead_spaces (s : list Z) : nat :=
  match s with
  | [] => O
  | c :: s => if isspace c then S (lead_spaces s) else O
  end.

(** [while (last > start && isspace( *last)) last--;] for [last >= start]: the
    result is [last - start] at exit, starting from [n]. *)
Fixpoint trail_loop (s : list Z) (n : nat) : nat :=
  match n with
  | O => O
  | S n' =>
      match s !! n with
      | Some c => if isspace c then trail_loop s n' else n
      | None => n
      end
  end.

(** [k_trim] on the object that holds the string.  [last < start] happens for
    a string of blanks only (or none), where the loop does not run. *)
Definition k_trim (buf : list Z) : option (list Z) :=
  s ← cstr buf;
  let start := lead_spaces s in
  let bk := Z.of_nat (length s) - 1 in
  let last :=
    if bk <? Z.of_nat start then bk
    else Z.of_nat (start + trail_loop (drop start s) (length s - 1 - start)) in
  if negb (Z.of_nat start =? 0) || negb (bk =? last) then
    let len := last - Z.of_nat start + 1 in
    buf' ← strncpy buf (drop start buf) len;
    wr buf' len 0
  else Some buf.

Definition check_local_network_ip (ip : Z) : Z :=
  if Z.land ip 0xffff0000 =? 0xc0a80000 then 1
  else if Z.land ip 0xfff00000 =? 0xac100000 then 1
  else if Z.land ip 0xff000000 =? 0x0a000000 then 1
  else 0.

(** ** [k_vsscanf] *)

(** [skip_atoi]: the number under [*s] and what follows it. *)
Fixpoint skip_atoi_acc (i : Z) (s : list Z) : Z * list Z :=
  match s with
  | c :: s' => if isdigit c then skip_atoi_acc (i * 10 + c - 48) s' else (i, s)
  | [] => (i, [])
  end.
Definition skip_atoi (s : list Z) : Z * list Z := skip_atoi_acc 0 s.

Fixpoint skip_spaces (s : list Z) : list Z :=
  match s with
  | c :: s' => if isspace c && negb (c =? 160) then skip_spaces s' else s
  | [] => []
  end.

(** What is stored through the next argument. *)
Inductive sval := VInt (v : Z) | VStr (s : list Z) | VChars (s : list Z).

(** The scanner's variables: the unread format, the unread input, the
    assignments counted, the values stored so far. *)
Record scan := mkScan { fmt : list Z; str : list Z; num : Z; stored : list sval }.

(** How a turn of the loop ends; [BreakPast] is a [break] taken after [str] was
    moved one past its NUL. *)
Inductive outcome :=
  | Continue (st : scan) | Break (st : scan) | BreakPast (st : scan) | Return (st : scan).

Definition TOLOWER (c : Z) : Z := Z.lor c 0x20.

Section Scan.
Context `{Klib} (input : list Z).

(** [k_simple_strtoll]. *)
Definition k_simple_strtoll (s : list Z) (base : Z) : Z * nat :=
  match s with
  | c :: s' =>
      if c =? chr "-" then
        let '(v, n) := simple_strtoull s' base in (- v, S n)
      else simple_strtoull s base
  | [] => simple_strtoull s base
  end.

(** The [switch (qualifier)]: the stored value and the bytes consumed; the
    plain [unsigned char] value 255 stands for no qualifier. *)
Definition convert (is_sign : bool) (qualifier base : Z) (s : list Z) : Z * nat :=
  let '(sl, sn) := simple_strtol s base in
  let '(ul, un) := simple_strtoul s base in
  if qualifier =? chr "H" then
    if is_sign then (s8 sl, sn) else (u8 ul, un)
  else if qualifier =? chr "h" then
    if is_sign then (s16 sl, sn) else (u16 ul, un)
  else if qualifier =? chr "l" then
    if is_sign then (sl, sn) else (ul, un)
  else if qualifier =? chr "L" then
    if is_sign then k_simple_strtoll s base else simple_strtoull s base
  else if (qualifier =? chr "Z") || (qualifier =? chr "z") then (ul, un)
  else if is_sign then (s32 sl, sn) else (u32 ul, un).

(** The code after the [switch] on the conversion letter. *)
Definition scan_number (is_sign : bool) (qualifier base : Z) (st : scan) : outcome :=
  let s := skip_spaces (str st) in
  let digit :=
    match s with
    | [] => 0
    | c :: s' => if is_sign && (c =? chr "-") then default 0 (head s') else c
    end in
  let st := mkScan (fmt st) s (num st) (stored st) in
  if (digit =? 0)
     || ((base =? 16) && negb (isxdigit digit))
     || ((base =? 10) && negb (isdigit digit))
     || ((base =? 8) && (negb (isdigit digit) || (chr "7" <? digit)))
     || ((base =? 0) && negb (isdigit digit))
  then Break st
  else
    let '(v, n) := convert is_sign qualifier base s in
    Continue (mkScan (fmt st) (drop n s) (num st + 1) (stored st ++ [VInt v])).

(** [%s]: the copied bytes and the rest; [w] is the number of turns after
    which the signed 16-bit [field_width--] tests zero. *)
Fixpoint scan_word (w : nat) (s : list Z) : list Z * list Z :=
  match w, s with
  | S w, c :: s' =>
      if negb (isspace c) || (c =? 160) then
        let '(a, r) := scan_word w s' in (c :: a, r)
      else ([], s)
  | _, _ => ([], s)
  end.

(** The conversion letter [c], its width and qualifier. *)
Definition scan_conv (c field_width qualifier : Z) (st : scan) : outcome :=
  if c =? chr "c" then
    let w := if field_width =? -1 then 1 else field_width in
    let n := Z.to_nat (Z.max 1 w) in
    Continue (mkScan (fmt st) (drop n (str st)) (num st + 1)
                (stored st ++ [VChars (take n (str st))]))
  else if c =? chr "s" then
    let w := if field_width =? -1 then 32767 else field_width in
    let '(a, r) := scan_word (Z.to_nat (u16 w)) (skip_spaces (str st)) in
    Continue (mkScan (fmt st) r (num st + 1) (stored st ++ [VStr a]))
  else if c =? chr "n" then
    Continue (mkScan (fmt st) (str st) (num st)
                (stored st ++ [VInt (Z.of_nat (length input - length (str st)))]))
  else if c =? chr "o" then scan_number false qualifier 8 st
  else if (c =? chr "x") || (c =? chr "X") then scan_number false qualifier 16 st
  else if c =? chr "i" then scan_number true qualifier 0 st
  else if c =? chr "d" then scan_number true qualifier 10 st
  else if c =? chr "u" then scan_number false qualifier 10 st
  else if c =? chr "%" then
    match str st with
    | x :: s => if x =? chr "%" then Continue (mkScan (fmt st) s (num st) (stored st))
                else Return st
    | [] => Return st
    end
  else Return st.

(** [qualifier = *fmt++] and the doubled letters [hh], [ll]. *)
Definition scan_qualifier (f : list Z) : Z * list Z :=
  match f with
  | c :: f' =>
      if (c =? chr "h") || (TOLOWER c =? chr "l") || (TOLOWER c =? chr "z") then
        match f' with
        | d :: f'' =>
            if d =? c then
              if c =? chr "h" then (chr "H", f'')
              else if c =? chr "l" then (chr "L", f'')
              else (c, f')
            else (c, f')
        | [] => (c, f')
        end
      else (255, f)
  | [] => (255, f)
  end.

(** Skipping a suppressed conversion in the format, and its word. *)
Fixpoint skip_conv (f : list Z) : list Z :=
  match f with
  | c :: f' => if negb (isspace c) && negb (c =? chr "%") then skip_conv f' else f
  | [] => []
  end.
Fixpoint skip_word (s : list Z) : list Z :=
  match s with
  | c :: s' => if isspace c then s else skip_word s'
  | [] => []
  end.

(** One turn of the [while] loop; both strings are not at their NUL. *)
Definition scan_step (st : scan) : outcome :=
  let '(f, s) :=
    match fmt st with
    | c :: f' => if isspace c then (skip_spaces f', skip_spaces (str st))
                 else (fmt st, str st)
    | [] => (fmt st, str st)
    end in
  match f with
  | [] => Break (mkScan f s (num st) (stored st))
  | c :: f' =>
      if negb (c =? chr "%") then
        match s with
        | x :: s' =>
            if c =? x then Continue (mkScan f' s' (num st) (stored st))
            else Break (mkScan f' s' (num st) (stored st))
        | [] => BreakPast (mkScan f' [] (num st) (stored st))
        end
      else if bool_decide (head f' = Some (chr "*")) then
        Continue (mkScan (skip_conv f') (skip_word s) (num st) (stored st))
      else
        let '(field_width, f1) :=
          match f' with
          | d :: _ => if isdigit d then let '(w, r) := skip_atoi f' in (s16 w, r) else (-1, f')
          | [] => (-1, f')
          end in
        let '(qualifier, f2) := scan_qualifier f1 in
        match f2, s with
        | d :: f3, _ :: _ =>
            scan_conv d field_width qualifier (mkScan f3 s (num st) (stored st))
        | _, _ => Break (mkScan f2 s (num st) (stored st))
        end
  end.

(** The loop and the trailing [%n]; every turn shortens the format, so fuel
    [S (length fmt)] never runs out. *)
Fixpoint scan_loop (fuel : nat) (st : scan) : scan :=
  let finish st past :=
    match fmt st with
    | c :: d :: _ =>
        if (c =? chr "%") && (d =? chr "n") then
          mkScan (fmt st) (str st) (num st)
            (stored st ++ [VInt (Z.of_nat (length input - length (str st)) + past)])
        else st
    | _ => st
    end in
  match fuel with
  | O => st
  | S fuel =>
      match fmt st, str st with
      | _ :: _, _ :: _ =>
          match scan_step st with
          | Continue st' => scan_loop fuel st'
          | Break st' => finish st' 0
          | BreakPast st' => finish st' 1
          | Return st' => st'
          end
      | _, _ => finish st 0
      end
  end.

End Scan.

(** [k_sscanf(buf, fmt, ...)]: the return value and the values stored through
    the arguments, in order. *)
Definition k_sscanf `{Klib} (buf f : list Z) : Z * list sval :=
  let st := scan_loop buf (S (length f)) (mkScan f buf 0 []) in
  (num st, stored st).

(** ** Lemmas *)

(** [m] is [s] without the blanks at its two ends. *)
Definition stripped (s m : list Z) : Prop :=
  exists l r, s = l ++ m ++ r /\
    Forall (fun c => isspace c = true) l /\ Forall (fun c => isspace c = true) r /\
    (forall c, head m = Some c -> isspace c = false) /\
    (forall c, last m = Some c -> isspace c = false).

Ltac char_lia := chr_simpl; unfold isspace, isxdigit, isdigit in *; lia.

Lemma isdigit_not_space c : isdigit c = true -> isspace c = false.
Proof. char_lia. Qed.

Lemma isxdigit_not_space c : isxdigit c = true -> isspace c = false.
Proof. char_lia. Qed.

Lemma base_digit_not_space base c : is_base_digit base c = true -> isspace c = false.
Proof. unfold is_base_digit. case_bool; eauto using isdigit_not_space, isxdigit_not_space. Qed.

Lemma digits_val_nonneg base ds :
  0 <= base -> Forall (fun c => is_base_digit base c = true) ds -> 0 <= digits_val base ds.
Proof.
  intros Hb Hd. unfold digits_val.
  assert (forall a, 0 <= a -> 0 <= foldl (fun a c => a * base + digit_val c) a ds) as H;
    [|by apply H].
  induction Hd as [|c ds Hc _ IH]; intros a Ha; simpl; [done|].
  apply IH. assert (0 <= digit_val c); [|nia].
  unfold is_base_digit, digit_val in *.
  destruct (base =? 16); repeat case_bool; char_lia.
Qed.

Section ScanLemmas.
Context `{KlibLaws}.

Lemma strtol_digits ds rest :
  ds <> [] -> Forall (fun c => isdigit c = true) ds -> number_ends 10 rest ->
  digits_val 10 ds < 2 ^ 31 ->
  simple_strtol (ds ++ rest) 10 = (digits_val 10 ds, length ds).
Proof.
  intros Hne Hd He Hv. rewrite strtol_pos.
  - apply strtoul_digits; auto.
  - destruct ds as [|c ds]; [done|]. simpl. intros [= ->]. by inversion Hd.
Qed.

(** Reading a decimal number with [%d]. *)
Lemma scan_number_dec f ds rest n out :
  ds <> [] -> Forall (fun c => isdigit c = true) ds -> number_ends 10 rest ->
  digits_val 10 ds < 2 ^ 31 ->
  scan_number true 255 10 (mkScan f (ds ++ rest) n out) =
  Continue (mkScan f rest (n + 1) (out ++ [VInt (digits_val 10 ds)])).
Proof.
  intros Hne Hd He Hv. unfold scan_number.
  assert (0 <= digits_val 10 ds) as Hpos by (apply digits_val_nonneg; [lia|done]).
  assert (skip_spaces (ds ++ rest) = ds ++ rest) as Hs.
  { destruct Hd as [|c ds Hc _]; [done|]. simpl. by rewrite isdigit_not_space. }
  cbn [str fmt num stored]. rewrite Hs. unfold convert.
  rewrite strtol_digits by done.
  destruct (simple_strtoul (ds ++ rest) 10) as [ul un].
  replace (match ds ++ rest with [] => 0 | c :: s' =>
    if true && (c =? chr "-") then default 0 (head s') else c end)
    with (default 0 (head ds)).
  2: { destruct Hd as [|c ds Hc _]; [done|]. simpl.
       assert (c =? chr "-" = false) as -> by char_lia. done. }
  destruct Hd as [|c ds' Hc Hd]; [done|]. simpl head. simpl default.
  assert (c =? 0 = false) as -> by char_lia. rewrite Hc. simpl.
  rewrite s32_id by lia. change (c :: ds' ++ rest) with ((c :: ds') ++ rest).
  by rewrite drop_app_length.
Qed.

(** Reading a hexadecimal number with [%x]. *)
Lemma scan_number_hex f ds rest n out :
  ds <> [] -> Forall (fun c => isxdigit c = true) ds -> number_ends 16 rest ->
  digits_val 16 ds < 2 ^ 31 ->
  scan_number false 255 16 (mkScan f (ds ++ rest) n out) =
  Continue (mkScan f rest (n + 1) (out ++ [VInt (digits_val 16 ds)])).
Proof.
  intros Hne Hd He Hv. unfold scan_number.
  assert (0 <= digits_val 16 ds) as Hpos by (apply digits_val_nonneg; [lia|done]).
  assert (skip_spaces (ds ++ rest) = ds ++ rest) as Hs.
  { destruct Hd as [|c ds Hc _]; [done|]. simpl. by rewrite isxdigit_not_space. }
  cbn [str fmt num stored]. rewrite Hs. unfold convert.
  rewrite strtoul_digits by auto. destruct (simple_strtol (ds ++ rest) 16) as [sl sn].
  destruct Hd as [|c ds' Hc Hd]; [done|]. simpl.
  assert (c =? 0 = false) as -> by char_lia. rewrite Hc. simpl.
  rewrite u32_id by lia. change (c :: ds' ++ rest) with ((c :: ds') ++ rest).
  by rewrite drop_app_length.
Qed.

Lemma scan_step_dec input f ds rest n out :
  ds <> [] -> Forall (fun c => isdigit c = true) ds -> number_ends 10 rest ->
  digits_val 10 ds < 2 ^ 31 ->
  scan_step input (mkScan (chr "%" :: chr "d" :: f) (ds ++ rest) n out) =
  Continue (mkScan f rest (n + 1) (out ++ [VInt (digits_val 10 ds)])).
Proof.
  intros. rewrite <- scan_number_dec by done. unfold scan_step. simpl.
  by destruct ds.
Qed.

Lemma scan_step_hex input f ds rest n out :
  ds <> [] -> Forall (fun c => isxdigit c = true) ds -> number_ends 16 rest ->
  digits_val 16 ds < 2 ^ 31 ->
  scan_step input (mkScan (chr "%" :: chr "x" :: f) (ds ++ rest) n out) =
  Continue (mkScan f rest (n + 1) (out ++ [VInt (digits_val 16 ds)])).
Proof.
  intros. rewrite <- scan_number_hex by done. unfold scan_step. simpl.
  by destruct ds.
Qed.

Lemma scan_loop_continue input fuel st st' :
  fmt st <> [] -> str st <> [] -> scan_step input st = Continue st' ->
  scan_loop input (S fuel) st = scan_loop input fuel st'.
Proof. intros Hf Hs Hst. simpl. rewrite Hst. by destruct (fmt st), (str st). Qed.

(** [k_sscanf(pos, "%d:%x", ...)] on a position and a value. *)
Lemma k_sscanf_pos_value ds hs :
  ds <> [] -> Forall (fun c => isdigit c = true) ds -> digits_val 10 ds < 2 ^ 31 ->
  hs <> [] -> Forall (fun c => isxdigit c = true) hs -> digits_val 16 hs < 2 ^ 31 ->
  k_sscanf (ds ++ chr ":" :: hs) (bytes_of "%d:%x") =
  (2, [VInt (digits_val 10 ds); VInt (digits_val 16 hs)]).
Proof.
  intros Hd1 Hd2 Hd3 Hh1 Hh2 Hh3. unfold k_sscanf.
  change (length (bytes_of "%d:%x")) with 5%nat. simpl bytes_of.
  erewrite scan_loop_continue; [|done|by destruct ds|by apply scan_step_dec].
  erewrite scan_loop_continue; [|done|done|by unfold scan_step].
  erewrite scan_loop_continue; [|done|by destruct hs|].
  2: { pose proof (fun i f n out => scan_step_hex i f hs [] n out Hh1 Hh2 I Hh3) as Hx.
       rewrite app_nil_r in Hx. apply Hx. }
  done.
Qed.

Lemma scan_number_cases sg q base st :
  (exists s, scan_number sg q base st = Break (mkScan (fmt st) s (num st) (stored st))) \/
  (exists s v, scan_number sg q base st =
     Continue (mkScan (fmt st) s (num st + 1) (stored st ++ [VInt v]))).
Proof.
  unfold scan_number. cbv zeta. cbn [fmt str num stored].
  case_match; [left; by eexists|]. destruct (convert _ _ _ _) as [v n].
  right. by eexists _, _.
Qed.

(** [k_sscanf(line, "%d%[^:]", ...)]: the scanner has no [%\[] conversion, so it
    returns after the number and stores nothing through the second argument. *)
Lemma k_sscanf_no_scanset line :
  exists out, k_sscanf line (bytes_of "%d%[^:]") = (Z.of_nat (length out), out) /\
    (length out <= 1)%nat.
Proof.
  unfold k_sscanf. change (length (bytes_of "%d%[^:]")) with 7%nat. simpl bytes_of.
  destruct line as [|c l]; [exists []; split; [done|simpl; lia]|].
  set (f := [chr "%"; chr "["; chr "^"; chr ":"; chr "]"]).
  set (st := mkScan f (c :: l) 0 []).
  assert (scan_step (c :: l) (mkScan (chr "%" :: chr "d" :: f) (c :: l) 0 []) =
          scan_number true 255 10 st) as Hs by done.
  cbn [scan_loop fmt str].
  change (mkScan [_; _; _; _; _; _; _] (c :: l) 0 [])
    with (mkScan (chr "%" :: chr "d" :: f) (c :: l) 0 []).
  rewrite Hs. destruct (scan_number_cases true 255 10 st) as [(s & ->)|(s & v & ->)].
  - exists []. split; [done|simpl; lia].
  - exists [VInt v]. split; [|simpl; lia]. by destruct s.
Qed.

End ScanLemmas.

(** The leading loop of [k_trim] stops at the first byte that is no blank. *)
Lemma lead_spaces_spec s :
  exists l m, s = l ++ m /\ length l = lead_spaces s /\
    Forall (fun c => isspace c = true) l /\
    (forall c, head m = Some c -> isspace c = false).
Proof.
  induction s as [|c s (l & m & -> & Hl & Hs & Hm)]; [by exists [], []|].
  simpl. destruct (isspace c) eqn:E.
  - exists (c :: l), m. simpl. rewrite <- Hl. split_and!; auto.
  - exists [], (c :: l ++ m). split_and!; simpl; try done. by intros ? [= <-].
Qed.

(** The trailing loop stops at the last byte that is no blank. *)
Lemma trail_loop_spec m n :
  (n < length m)%nat -> (forall c, head m = Some c -> isspace c = false) ->
  (trail_loop m n <= n)%nat /\
  Forall (fun c => isspace c = true) (drop (S (trail_loop m n)) (take (S n) m)) /\
  (forall c, m !! trail_loop m n = Some c -> isspace c = false).
Proof.
  intros Hn Hh. induction n as [|n IH].
  - simpl. split_and!; [done| |].
    + destruct m as [|c m]; [done|]. simpl. constructor.
    + intros c Hc. apply Hh. by rewrite head_lookup.
  - specialize (IH ltac:(lia)) as (H1 & H2 & H3). simpl trail_loop.
    destruct (lookup_lt_is_Some_2 m (S n) Hn) as [c Hc]. rewrite Hc.
    destruct (isspace c) eqn:E.
    + split_and!; [lia| |done].
      rewrite (take_S_r m (S n) c), drop_app_le by (rewrite ?length_take; done || lia).
      apply Forall_app_2; [done|]. by constructor.
    + split_and!; [lia| |by intros ? [= <-]%(eq_trans (eq_sym Hc))].
      rewrite drop_ge; [constructor|]. rewrite length_take. lia.
Qed.

Lemma trail_loop_stripped l m :
  m <> [] -> Forall (fun c => isspace c = true) l ->
  (forall c, head m = Some c -> isspace c = false) ->
  let k := trail_loop m (length m - 1) in
  (S k <= length m)%nat /\ stripped (l ++ m) (take (S k) m).
Proof.
  intros Hne Hl Hm k. assert (0 < length m)%nat as Hm0 by (destruct m; simpl; [done|lia]).
  destruct (trail_loop_spec m (length m - 1) ltac:(lia) Hm) as (Ht1 & Ht2 & Ht3).
  fold k in Ht1, Ht2, Ht3. split; [lia|].
  replace (S (length m - 1)) with (length m) in Ht2 by lia. rewrite firstn_all in Ht2.
  exists l, (drop (S k) m). rewrite take_drop. split_and!; try done.
  - intros c. rewrite head_lookup, lookup_take_lt by lia. rewrite <- head_lookup. auto.
  - intros c. rewrite last_lookup, length_take_le by lia. simpl.
    rewrite lookup_take_lt by lia. auto.
Qed.

(** Writing back the [n] bytes at [l]: what the [strncpy] of [k_trim] and the
    NUL it stores leave in the object. *)
Lemma k_trim_write l w rest n :
  Forall (fun c => c <> 0) w -> n = Z.of_nat (length w) ->
  Z.of_nat (length (l ++ w ++ rest)) < 2 ^ 64 -> rest <> [] ->
  exists buf', (buf' ← strncpy (l ++ w ++ rest) (w ++ rest) n; wr buf' n 0) = Some buf' /\
    length buf' = length (l ++ w ++ rest) /\ cstr buf' = Some w.
Proof.
  intros Hw -> H64 Hr. assert (0 < length rest)%nat by (destruct rest; simpl; [done|lia]).
  rewrite !length_app in *. set (buf := l ++ w ++ rest).
  assert (length buf = length l + (length w + length rest))%nat as Hb
    by (unfold buf; by rewrite !length_app).
  rewrite strncpy_prefix by (done || lia). simpl.
  rewrite wr_Some by (rewrite length_app, length_drop; lia). rewrite Nat2Z.id.
  eexists. split_and!; [done| |].
  - rewrite length_insert, length_app, length_drop. lia.
  - rewrite insert_app_r_alt, Nat.sub_diag by done.
    destruct (drop (length w) buf) as [|x d] eqn:Ed; [|by apply cstr_app].
    apply (f_equal length) in Ed. rewrite length_drop in Ed. simpl in Ed. lia.
Qed.

(** [k_trim] stays inside the object and leaves the stripped string. *)
Lemma k_trim_spec buf s :
  cstr buf = Some s -> Z.of_nat (length buf) < 2 ^ 64 ->
  exists buf' m, k_trim buf = Some buf' /\ length buf' = length buf /\
    cstr buf' = Some m /\ stripped s m.
Proof.
  intros Hs H64. destruct (cstr_inv _ _ Hs) as (rest & Hb & Hnz).
  unfold k_trim. rewrite Hs. simpl.
  destruct (lead_spaces_spec s) as (l & m & Hlm & Hll & Hl & Hm). rewrite <- Hll.
  rewrite Hlm in Hnz. apply Forall_app in Hnz as [_ Hnzm].
  assert (length s = length l + length m)%nat as Hls by (by rewrite Hlm, length_app).
  assert (buf = l ++ m ++ 0 :: rest) as Hb' by (by rewrite Hb, Hlm, <- app_assoc).
  destruct (decide (m = [])) as [->|Hmne].
  - simpl in Hls. rewrite (proj2 (Z.ltb_lt _ _)) by lia.
    rewrite Z.eqb_refl, orb_false_r. rewrite app_nil_r in Hlm. subst l.
    assert (stripped s []) as Hstr by (exists s, []; by rewrite !app_nil_r).
    destruct (Z.of_nat (length s) =? 0) eqn:E0; zify_bool; simpl.
    + exists buf, []. destruct s; [by split_and!|done].
    + replace (Z.of_nat (length s) - 1 - Z.of_nat (length s) + 1) with 0 by lia.
      rewrite Hb' in *. rewrite drop_app_length.
      destruct (k_trim_write s [] (0 :: rest) 0) as (buf' & ? & ? & ?); try done.
      by exists buf', [].
  - rewrite (proj2 (Z.ltb_ge _ _)) by (destruct m; simpl in *; [done|lia]).
    replace (drop (length l) s) with m by (by rewrite Hlm, drop_app_length).
    replace (length s - 1 - length l)%nat with (length m - 1)%nat by lia.
    destruct (trail_loop_stripped l m) as [Hk Hstr]; [done..|].
    rewrite <- Hlm in Hstr. set (k := trail_loop m (length m - 1)) in *.
    destruct (negb _ || negb _) eqn:E.
    + assert (buf = l ++ take (S k) m ++ drop (S k) m ++ 0 :: rest) as Hb''
        by (by rewrite (app_assoc (take _ _)), take_drop).
      destruct (k_trim_write l (take (S k) m) (drop (S k) m ++ 0 :: rest)
        (Z.of_nat (length l + k) - Z.of_nat (length l) + 1)) as (buf' & ? & ? & ?).
      * by apply Forall_take.
      * rewrite length_take. lia.
      * by rewrite <- Hb''.
      * by destruct (drop (S k) m).
      * exists buf', (take (S k) m). rewrite Hb'' at 1 2. rewrite drop_app_length.
        rewrite Hb''. by split_and!.
    + apply orb_false_iff in E as [E1 E2]. apply negb_false_iff in E1, E2. zify_bool.
      exists buf, s. split_and!; try done.
      replace s with (take (S k) m) at 2; [done|].
      rewrite take_ge by lia. destruct l; [done|simpl in *; lia].
Qed.

(** A string without blanks is left alone. *)
Lemma k_trim_no_space buf s :
  cstr buf = Some s -> Forall (fun c => isspace c = false) s -> k_trim buf = Some buf.
Proof.
  intros Hs Hns. unfold k_trim. rewrite Hs. simpl.
  assert (lead_spaces s = 0%nat) as -> by (destruct Hns as [|c s Hc]; simpl; [done|by rewrite Hc]).
  simpl. destruct s as [|c s]; [done|].
  rewrite (proj2 (Z.ltb_ge _ _)) by (simpl; lia). rewrite drop_0, Nat.sub_0_r.
  assert (trail_loop (c :: s) (length (c :: s) - 1) = (length (c :: s) - 1)%nat) as ->.
  { destruct (length (c :: s) - 1)%nat as [|n] eqn:E; [done|]. simpl.
    destruct (s !! n) as [x|] eqn:Ex; [|done].
    rewrite Forall_lookup in Hns. by rewrite (Hns (S n) x Ex). }
  simpl. rewrite (proj2 (Z.eqb_eq _ _)) by lia. done.
Qed.

(** Trimming a string held in an object keeps the object's size, never
    leaves it, and what remains is the string without the blanks at its two
    ends (inner blanks stay). *)
Theorem k_trim_strips buf s :
  cstr buf = Some s -> Z.of_nat (length buf) < 2 ^ 64 ->
  exists buf' m, k_trim buf = Some buf' /\ length buf' = length buf /\
    cstr buf' = Some m /\ stripped s m.
Proof. apply k_trim_spec. Qed.

Lemma k_trim_strips_witness :
  exists buf' m, k_trim (bytes_of "  80 - 90 " ++ [0; 0]) = Some buf' /\ length buf' = 12%nat /\
    cstr buf' = Some m /\ stripped (bytes_of "  80 - 90 ") m.
Proof.
  apply (k_trim_strips (bytes_of "  80 - 90 " ++ [0; 0]) (bytes_of "  80 - 90 "));
    vm_compute; reflexivity.
Defined.

End KUtils.

(** ** A reference kernel library

    Witnesses need one implementation that has the laws. *)
Module KlibRef.

Fixpoint digit_run (base : Z) (s : list Z) : list Z :=
  match s with
  | c :: s => if is_base_digit base c then c :: digit_run base s else []
  | [] => []
  end.

Definition strtoul (s : list Z) (base : Z) : Z * nat :=
  let ds := digit_run base s in (digits_val base ds, length ds).

Definition strtol (s : list Z) (base : Z) : Z * nat :=
  match s with
  | c :: s' => if c =? chr "-" then let '(v, n) := strtoul s' base in (- v, S n)
               else strtoul s base
  | [] => strtoul s base
  end.

(** Up to [n] two-digit bytes with colons between them. *)
Fixpoint mac_scan (n : nat) (s : list Z) : list Z :=
  match n, s with
  | S n, a :: b :: s =>
      if isxdigit a && isxdigit b then
        digits_val 16 [a; b] ::
        match s with
        | c :: s => if c =? chr ":" then mac_scan n s else []
        | [] => []
        end
      else []
  | _, _ => []
  end.

(** The formats the module uses. *)
Definition sscanf_ref (s f : list Z) : list Z :=
  if bool_decide (f = MAC_SCAN_FMT) then mac_scan 6 s else
  let ds := digit_run 10 s in
  let rest := drop (length ds) s in
  if bool_decide (ds = []) then []
  else if bool_decide (f = bytes_of "%d-%d") then
    match rest with
    | c :: s' =>
        let es := digit_run 10 s' in
        if (c =? chr "-") && negb (bool_decide (es = []))
        then [digits_val 10 ds; digits_val 10 es] else [digits_val 10 ds]
    | [] => [digits_val 10 ds]
    end
  else [digits_val 10 ds].

#[export] Instance klib_ref : Klib := Build_Klib strtoul strtol strtoul sscanf_ref.

Lemma digit_run_app base ds rest :
  Forall (fun c => is_base_digit base c = true) ds ->
  match rest with c :: _ => is_base_digit base c = false | [] => True end ->
  digit_run base (ds ++ rest) = ds.
Proof.
  intros Hd Hr. induction Hd as [|c ds Hc _ IH]; simpl.
  - destruct rest as [|c r]; simpl; [done|by rewrite Hr].
  - by rewrite Hc, IH.
Qed.

Lemma digit_run_all ds : Forall (fun c => isdigit c = true) ds -> digit_run 10 ds = ds.
Proof. intros Hd. rewrite <- (app_nil_r ds) at 1. by apply digit_run_app. Qed.

Lemma hex_digit_val d : 0 <= d < 16 -> isxdigit (hex_digit d) = true /\ digit_val (hex_digit d) = d.
Proof.
  intros Hd. unfold hex_digit. case_bool.
  - assert (isdigit (48 + d) = true) as Hg by (unfold isdigit; lia).
    unfold isxdigit, digit_val. rewrite Hg. split; [done|lia].
  - assert (isdigit (87 + d) = false) as Hg by (unfold isdigit; lia).
    unfold isxdigit, digit_val. rewrite Hg. split; [lia|]. case_bool; lia.
Qed.

Lemma hex2_scan b :
  0 <= b < 256 -> isxdigit (hex_digit (b / 16)) && isxdigit (hex_digit (b mod 16)) = true /\
    digits_val 16 (hex2 b) = b.
Proof.
  intros Hb. pose proof (Z.mod_pos_bound b 16 ltac:(lia)).
  destruct (hex_digit_val (b / 16)) as [H1 H2].
  { split; [apply Z.div_pos; lia|apply Z.div_lt_upper_bound; lia]. }
  destruct (hex_digit_val (b mod 16)) as [H3 H4]; [lia|]. rewrite H1, H3. split; [done|].
  unfold digits_val, hex2. cbn [foldl]. rewrite H2, H4.
  pose proof (Z.div_mod b 16 ltac:(lia)). lia.
Qed.

Lemma mac_scan_str n b mac :
  Forall (fun b => 0 <= b < 256) (b :: mac) -> (length mac < n)%nat ->
  mac_scan n (mac_str (b :: mac)) = b :: mac.
Proof.
  revert n b. induction mac as [|b' mac IH]; intros n b Hm Hn;
    (destruct n as [|n]; [simpl in Hn; lia|]); apply Forall_cons in Hm as [Hb Hm];
    destruct (hex2_scan b Hb) as [H1 H2].
  - cbn [mac_str hex2 mac_scan]. rewrite H1. fold (hex2 b). by rewrite H2.
  - change (mac_str (b :: b' :: mac)) with (hex2 b ++ chr ":" :: mac_str (b' :: mac)).
    cbn [hex2 app mac_scan]. rewrite H1. fold (hex2 b). rewrite H2, Z.eqb_refl. f_equal.
    apply IH; [done|simpl in Hn; lia].
Qed.

#[export] Instance klib_ref_laws : KlibLaws.
Proof.
  split.
  - intros base ds rest _ _ Hd He _. simpl. unfold strtoul.
    rewrite digit_run_app; [done..|]. destruct rest; simpl in *; tauto.
  - intros [|c s] base Hs; simpl; [done|]. case_bool; [|done]. subst. by destruct Hs.
  - intros s base. simpl. unfold strtoul. done.
  - intros ds Hne Hd _. simpl. unfold sscanf_ref.
    replace (bool_decide (bytes_of "%d" = MAC_SCAN_FMT)) with false by reflexivity.
    rewrite digit_run_all by done. by rewrite bool_decide_false.
  - intros ds es Hne Hd _ Hne' He _. simpl. unfold sscanf_ref.
    replace (bool_decide (bytes_of "%d-%d" = MAC_SCAN_FMT)) with false by reflexivity.
    rewrite digit_run_app by done. rewrite drop_app_length.
    rewrite bool_decide_false by done. rewrite bool_decide_true by done. simpl.
    rewrite digit_run_all by done. by rewrite bool_decide_false.
  - intros fmt. simpl. unfold sscanf_ref. by case_bool_decide.
  - intros mac Hl Hm. simpl. unfold sscanf_ref. rewrite bool_decide_true by done.
    destruct mac as [|b mac]; [done|]. apply mac_scan_str; [done|simpl in Hl; lia].
Qed.

End KlibRef.
