(* ===== verification/Feature.v ===== *)
(** * Feature: the feature database of the kernel module

    Models the loader of src/oaf/src/app_filter.c: port ranges, position
    dictionaries, feature strings, feature lines and the feature file, down to
    the fixed-size buffers they are copied through, and [af_match_port].  A
    copy past the end of a buffer is [None]. *)

From S2P Require Import Prelude KUtils.

Import KUtils.

#[local] Arguments Z.eqb : simpl never.

(** ** Tokenising loops

    Every [while ( *p++ )] loop of the loader looks for one delimiter and keeps
    a [begin] pointer; [act begin p] is what it does with the token. *)
Definition tok_body {St} (d : Z) (act : Z -> Z -> St -> option St)
    (p c : Z) (s : Z * St) : option (Z * St) :=
  let '(begin, st) := s in
  if c =? d then st' ← act begin p st; Some (p + 1, st') else Some (begin, st).

(** The loop over [buf] from its start; result: [p], [begin] and the state. *)
Definition tok_loop {St} (d : Z) (act : Z -> Z -> St -> option St)
    (buf : list Z) (st : St) : option (Z * Z * St) :=
  '(p, s) ← while_pp (S (length buf)) buf 0 (tok_body d act) (0, st);
  Some (p, fst s, snd s).

(** The object seen through a pointer into it. *)
Definition at_ (buf : list Z) (p : Z) : list Z := drop (Z.to_nat p) buf.

(** *** What the loop does on a list of tokens *)

Fixpoint foldM {A St} (f : A -> St -> option St) (l : list A) (st : St) : option St :=
  match l with [] => Some st | x :: l => st' ← f x st; foldM f l st' end.

(** A token: no NUL, no delimiter. *)
Definition token (d : Z) (t : list Z) : Prop := Forall (fun c => c <> 0 /\ c <> d) t.

Lemma token_nonzero d t : token d t -> Forall (fun c => c <> 0) t.
Proof. intros H. apply (Forall_imp _ _ _ H). tauto. Qed.

Lemma last_nonzero d c w w' c' :
  c <> 0 -> token d w -> c :: w = w' ++ [c'] -> c' <> 0.
Proof.
  intros Hc Hw Heq. assert (Forall (fun c => c <> 0) (c :: w)) as Hnz.
  { constructor; [done|]. by eapply token_nonzero. }
  rewrite Heq in Hnz. apply Forall_app in Hnz as [_ Hnz]. by inversion Hnz.
Qed.

Lemma at_app pre x p : p = Z.of_nat (length pre) -> at_ (pre ++ x) p = x.
Proof. intros ->. unfold at_. by rewrite Nat2Z.id, drop_app_length. Qed.

Lemma foldM_snoc {A St} (f : A -> St -> option St) l x st :
  foldM f (l ++ [x]) st = st' ← foldM f l st; f x st'.
Proof.
  revert st. induction l as [|y l IH]; intros st; simpl; [by destruct (f x st)|].
  destruct (f y st); simpl; [apply IH|done].
Qed.

Lemma foldM_removelast {A St} (f : A -> St -> option St) x l st d :
  (st' ← foldM f (removelast (x :: l)) st; f (List.last (x :: l) d) st') =
  foldM f (x :: l) st.
Proof.
  rewrite <- foldM_snoc. f_equal. symmetry. by apply app_removelast_last.
Qed.

Lemma foldM_inv {A St} (I : St -> Prop) (f : A -> St -> option St) l st st' :
  (forall x st st', x ∈ l -> I st -> f x st = Some st' -> I st') ->
  I st -> foldM f l st = Some st' -> I st'.
Proof.
  revert st. induction l as [|x l IH]; simpl; intros st Hf Hst H; simp_opt; [done|].
  eapply IH; [|eapply Hf; [by left|done..]|done]. intros y ? ? ?. apply Hf. by right.
Qed.

Lemma elem_of_removelast {A} (x : A) l : x ∈ removelast l -> x ∈ l.
Proof.
  induction l as [|y l IH]; [done|]. simpl. destruct l; [by intros ?%elem_of_nil|].
  intros [->|?]%elem_of_cons; [by left|right; auto].
Qed.

Lemma last_elem_of {A} (x : A) l d : List.last (x :: l) d ∈ x :: l.
Proof.
  rewrite (app_removelast_last d (l := x :: l)) at 2 by done.
  apply elem_of_app. right. by left.
Qed.

Section TokLemmas.
Context {St : Type} (d : Z) (act : Z -> Z -> St -> option St).
Context (Hd : d <> 0).

(** The loop over the bytes of one token. *)
Lemma tok_run pre c w x rest begin st fuel :
  c <> 0 -> token d w ->
  while_pp (length w + S fuel) (pre ++ c :: w ++ x :: rest) (Z.of_nat (length pre))
    (tok_body d act) (begin, st) =
  while_pp (S fuel) (pre ++ c :: w ++ x :: rest) (Z.of_nat (length pre + length w))
    (tok_body d act) (begin, st).
Proof.
  intros Hc Hw. revert pre c Hc. induction Hw as [|y w [Hy0 Hyd] _ IH]; intros pre c Hc.
  - by rewrite Nat.add_0_r.
  - simpl. rewrite (rd_app_mid pre c _ _ eq_refl). simpl.
    apply Z.eqb_neq in Hc, Hyd. rewrite Hc.
    assert (pre ++ c :: y :: w ++ x :: rest = (pre ++ [c]) ++ y :: w ++ x :: rest) as Hb
      by by rewrite <- app_assoc.
    rewrite Hb, rd_app_mid by (rewrite length_app; simpl; lia). simpl. rewrite Hyd. simpl.
    replace (Z.of_nat (length pre) + 1) with (Z.of_nat (length (pre ++ [c])))
      by (rewrite length_app; simpl; lia).
    rewrite IH by done. rewrite length_app. simpl.
    by replace (length pre + 1 + length w)%nat with (length pre + S (length w))%nat by lia.
Qed.

(** The byte before the delimiter (or the delimiter before an empty token). *)
Lemma tok_at_delim buf pre c rest begin st fuel :
  buf = pre ++ c :: d :: rest -> c <> 0 ->
  while_pp (S fuel) buf (Z.of_nat (length pre)) (tok_body d act) (begin, st) =
  st' ← act begin (Z.of_nat (length pre) + 1) st;
  while_pp fuel buf (Z.of_nat (length pre) + 1) (tok_body d act)
    (Z.of_nat (length pre) + 2, st').
Proof.
  intros Hb Hc. simpl. rewrite Hb at 1. rewrite rd_app_mid by done. simpl.
  apply Z.eqb_neq in Hc. rewrite Hc.
  replace (rd buf (Z.of_nat (length pre) + 1)) with (Some d).
  2: { rewrite Hb. change (c :: d :: rest) with ([c] ++ d :: rest). rewrite app_assoc.
       symmetry. apply rd_app_mid. rewrite length_app. simpl. lia. }
  simpl. rewrite Z.eqb_refl. destruct (act _ _ _); [|done]. simpl.
  by replace (Z.of_nat (length pre) + 1 + 1) with (Z.of_nat (length pre) + 2) by lia.
Qed.

Lemma tok_at_nul buf pre c rest begin st fuel :
  buf = pre ++ c :: 0 :: rest -> c <> 0 ->
  while_pp (S (S fuel)) buf (Z.of_nat (length pre)) (tok_body d act) (begin, st) =
  Some (Z.of_nat (length pre) + 2, (begin, st)).
Proof.
  intros Hb Hc. apply Z.eqb_neq in Hc.
  assert (rd buf (Z.of_nat (length pre)) = Some c) as H1 by (rewrite Hb; by apply rd_app_mid).
  assert (rd buf (Z.of_nat (length pre) + 1) = Some 0) as H2.
  { rewrite Hb. change (c :: 0 :: rest) with ([c] ++ 0 :: rest). rewrite app_assoc.
    apply rd_app_mid. rewrite length_app. simpl. lia. }
  simpl. rewrite H1. simpl. rewrite Hc, H2. simpl.
  assert (0 =? d = false) as -> by (by apply Z.eqb_neq).
  simpl.
  do 2 f_equal. lia.
Qed.

Context (f : list Z -> St -> option St).

(** The string made of the tokens [u] and [ts]. *)
Definition joined (u : list Z) (ts : list (list Z)) : list Z :=
  u ++ concat (map (cons d) ts).

(** The effect of the loop: [f] on every token but the last; [b] is where the
    token [u] begins. *)
Fixpoint tok_spec (b : nat) (u : list Z) (ts : list (list Z)) (st : St)
    : option (nat * St) :=
  match ts with
  | [] => Some (b, st)
  | v :: ts => st' ← f u st; tok_spec (b + length u + 1) v ts st'
  end.

(** The loop at the byte [c], with the rest [w] of the token before it. *)
Lemma tok_run_tokens buf ts pre c w preu u rest st fuel :
  Forall (token d) ts -> token d w -> c <> 0 -> pre ++ c :: w = preu ++ u ->
  buf = preu ++ joined u ts ++ 0 :: rest ->
  (forall b t rest' st, t ∈ u :: ts -> at_ buf (Z.of_nat b) = t ++ rest' ->
     (b + length t < length buf)%nat ->
     act (Z.of_nat b) (Z.of_nat (b + length t)) st = f t st) ->
  (length buf < length pre + fuel)%nat ->
  while_pp fuel buf (Z.of_nat (length pre)) (tok_body d act) (Z.of_nat (length preu), st) =
  '(b, st') ← tok_spec (length preu) u ts st;
  Some (Z.of_nat (length preu + length (joined u ts) + 1), (Z.of_nat b, st')).
Proof.
  unfold joined. revert pre c w preu u st fuel. induction ts as [|v ts IH];
    intros pre c w preu u st fuel Hts Hw Hc Hu Hb Hact Hfuel.
  all: assert (length pre + S (length w) = length preu + length u)%nat as Hl
    by (apply (f_equal length) in Hu; rewrite !length_app in Hu; done).
  all: destruct (exists_last (l := c :: w)) as (w' & c' & Hcw); [done|].
  all: assert (length w' = length w) as Hlw
    by (apply (f_equal length) in Hcw; rewrite length_app in Hcw; simpl in Hcw; lia).
  all: assert (c' <> 0) as Hc' by (by eapply last_nonzero).
  - assert (buf = pre ++ c :: w ++ 0 :: rest) as Hb'.
    { rewrite Hb. simpl. rewrite app_nil_r, app_assoc, <- Hu, <- app_assoc. done. }
    assert (exists k, fuel = length w + S (S k))%nat as [k ->].
    { exists (fuel - length w - 2)%nat. rewrite Hb', length_app in Hfuel.
      simpl in Hfuel. rewrite length_app in Hfuel. simpl in Hfuel. lia. }
    rewrite Hb' at 1. rewrite tok_run by done. rewrite <- Hb'.
    rewrite <- Hlw, <- length_app. rewrite (tok_at_nul _ _ c' rest); [|..|done].
    + simpl. rewrite !app_nil_r, length_app. do 3 f_equal. lia.
    + rewrite Hb'. change (c :: w ++ 0 :: rest) with ((c :: w) ++ 0 :: rest).
      by rewrite Hcw, <- !app_assoc.
  - simpl in Hb. set (tl := concat (map (cons d) ts) ++ 0 :: rest).
    assert (buf = (preu ++ u) ++ d :: v ++ tl) as Hb1
      by (rewrite Hb; unfold tl; list_assoc).
    assert (buf = pre ++ c :: w ++ d :: v ++ tl) as Hb2
      by (by rewrite Hb1, <- Hu, <- app_assoc).
    assert (exists k, fuel = length w + S k)%nat as [k ->].
    { exists (fuel - length w - 1)%nat. rewrite Hb2, length_app in Hfuel.
      simpl in Hfuel. rewrite length_app in Hfuel. simpl in Hfuel. lia. }
    rewrite Hb2 at 1. rewrite tok_run by done. rewrite <- Hb2.
    rewrite <- Hlw, <- length_app. rewrite (tok_at_delim _ _ c' (v ++ tl)); [|..|done].
    2: { rewrite Hb2. change (c :: w ++ d :: v ++ tl) with ((c :: w) ++ d :: v ++ tl).
         by rewrite Hcw, <- !app_assoc. }
    replace (Z.of_nat (length (pre ++ w')) + 1) with (Z.of_nat (length preu + length u))
      by (rewrite length_app; lia).
    rewrite (Hact _ u (d :: v ++ tl)); [|by left| |].
    2: { rewrite Hb1, <- app_assoc. by apply at_app. }
    2: { rewrite Hb1, !length_app. simpl. lia. }
    simpl. destruct (f u st) as [st'|]; [|done]. simpl.
    replace (Z.of_nat (length (pre ++ w')) + 2)
      with (Z.of_nat (length (preu ++ u ++ [d]))) by (rewrite !length_app; simpl; lia).
    replace (Z.of_nat (length preu + length u)) with (Z.of_nat (length (pre ++ c :: w)))
      by (rewrite length_app; simpl; lia).
    inversion_clear Hts. rewrite (IH _ d v (preu ++ u ++ [d]) v); try done.
    + replace (length (preu ++ u ++ [d])) with (length preu + length u + 1)%nat
        by (rewrite !length_app; simpl; lia).
      destruct (tok_spec _ v ts st') as [[]|]; [|done]. simpl.
      do 2 f_equal. rewrite !length_app. simpl. rewrite !length_app. lia.
    + rewrite Hu. list_assoc.
    + rewrite Hb1. unfold tl. list_assoc.
    + intros b t rest' st0 Ht. apply Hact. by right.
    + rewrite length_app. simpl. lia.
Qed.

Lemma tok_spec_foldM b u ts st :
  tok_spec b u ts st =
  st' ← foldM f (removelast (u :: ts)) st;
  Some ((b + length (joined u ts) - length (List.last (u :: ts) []))%nat, st').
Proof.
  unfold joined. revert b u st. induction ts as [|v ts IH]; intros b u st.
  - simpl. rewrite app_nil_r. do 2 f_equal. lia.
  - change (removelast (u :: v :: ts)) with (u :: removelast (v :: ts)).
    change (List.last (u :: v :: ts) []) with (List.last (v :: ts) []). simpl tok_spec.
    simpl foldM. destruct (f u st) as [st'|]; [|done]. cbn [mbind option_bind].
    rewrite IH. destruct (foldM f _ st'); [|done]. simpl. do 2 f_equal.
    rewrite !length_app. simpl. rewrite !length_app. lia.
Qed.

Lemma joined_last u ts :
  exists pre, joined u ts = pre ++ List.last (u :: ts) [] /\
    length pre = (length (joined u ts) - length (List.last (u :: ts) []))%nat.
Proof.
  assert (exists pre, joined u ts = pre ++ List.last (u :: ts) []) as [pre Hp].
  { unfold joined. revert u. induction ts as [|v ts IH]; intros u.
    - exists []. simpl. by rewrite app_nil_r.
    - destruct (IH v) as [pre Hp]. exists (u ++ d :: pre).
      change (List.last (u :: v :: ts) []) with (List.last (v :: ts) []).
      simpl. rewrite Hp. list_assoc. }
  exists pre. split; [done|]. rewrite Hp, length_app. lia.
Qed.

(** The loop over a NUL-terminated list of tokens, the first one not empty: [f]
    runs on every token but the last; [p] ends one past the NUL and [begin] at
    the last token. *)
Lemma tok_loop_tokens u ts rest st :
  u <> [] -> Forall (token d) (u :: ts) ->
  let buf := joined u ts ++ 0 :: rest in
  (forall b t rest' st, t ∈ u :: ts -> at_ buf (Z.of_nat b) = t ++ rest' ->
     (b + length t < length buf)%nat ->
     act (Z.of_nat b) (Z.of_nat (b + length t)) st = f t st) ->
  exists b, at_ buf (Z.of_nat b) = List.last (u :: ts) [] ++ 0 :: rest /\
    (b + length (List.last (u :: ts) []) = length (joined u ts))%nat /\
    tok_loop d act buf st =
    st' ← foldM f (removelast (u :: ts)) st;
    Some (Z.of_nat (b + length (List.last (u :: ts) []) + 1), Z.of_nat b, st').
Proof.
  intros Hu Hts buf Hact. destruct u as [|c w]; [done|].
  inversion Hts as [|? ? Hcw Hts']; subst. inversion Hcw as [|? ? [Hc _] Hw]; subst.
  destruct (joined_last (c :: w) ts) as (pre & Hj & Hpre). set (l := List.last _ _) in *.
  exists (length pre). split_and!.
  - unfold buf. rewrite Hj, <- app_assoc. by apply at_app.
  - by rewrite Hj, length_app.
  - unfold tok_loop.
    pose proof (tok_run_tokens buf ts [] c w [] (c :: w) rest st (S (length buf))) as H.
    rewrite !app_nil_l in H. change (@length Z []) with 0%nat in H.
    change (Z.of_nat 0) with 0 in H. rewrite H by (auto; lia). clear H. rewrite tok_spec_foldM.
    destruct (foldM _ _ _) as [st'|]; [|done]. cbn [mbind option_bind fst snd].
    fold l. rewrite Nat.add_0_l, <- Hpre. do 3 f_equal. rewrite Hj, length_app. simpl. lia.
Qed.

(** The loop and the action [fin] on the last token, which sees one byte more. *)
Lemma tok_loop_all {R} (I : St -> Prop) u ts rest st
    (fin : Z -> Z -> St -> option R) (g : St -> R) :
  I st -> (forall t st st', t ∈ u :: ts -> I st -> f t st = Some st' -> I st') ->
  u <> [] -> Forall (token d) (u :: ts) ->
  let buf := joined u ts ++ 0 :: rest in
  (forall b t x st, t ∈ u :: ts -> at_ buf (Z.of_nat b) = t ++ x ->
     act (Z.of_nat b) (Z.of_nat (b + length t)) st = f t st) ->
  (forall b t st, I st -> t ∈ u :: ts -> at_ buf (Z.of_nat b) = t ++ 0 :: rest ->
     (b = 0%nat <-> ts = []) ->
     fin (Z.of_nat (b + length t + 1)) (Z.of_nat b) st = st' ← f t st; Some (g st')) ->
  ('(p, begin, st) ← tok_loop d act buf st; fin p begin st) =
  (st' ← foldM f (u :: ts) st; Some (g st')).
Proof.
  intros HI Hpres Hu Hts buf Hact Hfin. subst buf.
  destruct (tok_loop_tokens u ts rest st) as (b & Hat & Hb & ->); [done|done|eauto|].
  rewrite <- (foldM_removelast f u ts st []).
  destruct (foldM f (removelast _) st) as [st'|] eqn:Ef; [|done]. simpl mbind.
  apply Hfin; [eapply foldM_inv; [|done..]; eauto using elem_of_removelast|apply last_elem_of|done|].
  unfold joined in Hb. destruct ts as [|v ts]; [simpl in Hb; rewrite app_nil_r in Hb; split; [done|lia]|].
  split; [|done]. intros ->. exfalso.
  destruct (joined_last v ts) as (pre & Hj & _). unfold joined in Hj.
  change (List.last (u :: v :: ts) []) with (List.last (v :: ts) []) in Hb.
  simpl in Hb. rewrite length_app in Hb. simpl in Hb. rewrite Hj, length_app in Hb.
  destruct u; [done|]. simpl in Hb. lia.
Qed.

End TokLemmas.

Module Feature.

(** ** Data *)

Record range_value := mkRange { r_not : bool; r_start : Z; r_end : Z }.
Definition range0 : range_value := mkRange false 0 0.

Definition MAX_PORT_RANGE_NUM : Z := 5.

Record port_info := mkPortInfo { pi_num : Z; range_list : list range_value }.
Definition port_info0 : port_info :=
  mkPortInfo 0 (replicate (Z.to_nat MAX_PORT_RANGE_NUM) range0).

Record pos_info := mkPos { pos : Z; value : Z }.

Definition MAX_POS_INFO_PER_FEATURE : Z := 16.
Definition MAX_FEATURE_LINE_LEN : Z := 256.
Definition MIN_FEATURE_LINE_LEN : Z := 16.
Definition MIN_FEATURE_STR_LEN : Z := 16.
Definition MAX_FEATURE_STR_LEN : Z := 128.
Definition IPPROTO_TCP : Z := 6.
Definition IPPROTO_UDP : Z := 17.

(** [af_feature_node_t], without the fields no code reads; the strings are the
    contents of the node's arrays, [positions] its first [pos_num] entries. *)
Record feature_node := mkNode {
  app_id : Z; app_name : list Z; proto : Z; sport : Z; dport_info : port_info;
  host_url : list Z; request_url : list Z; positions : list pos_info }.
Definition pos_num (n : feature_node) : Z := Z.of_nat (length (positions n)).

(** ** Port ranges *)

Definition af_match_port (info : port_info) (port : Z) : bool :=
  if pi_num info =? 0 then true else
  let ranges := take (Z.to_nat (pi_num info)) (range_list info) in
  let with_not := existsb r_not ranges in
  let inside r := (r_start r <=? port) && (port <=? r_end r) in
  if with_not then negb (existsb (fun r => r_not r && inside r) ranges)
  else existsb inside ranges.

Fixpoint validate_range_value (range_str : list Z) : option bool :=
  match range_str with
  | [] => None
  | c :: s =>
      if c =? 0 then Some true
      else if (c =? chr " ") || (c =? chr "!") || (c =? chr "-") || isdigit c
      then validate_range_value s
      else Some false
  end.

Section Loader.
Context `{Klib}.

(** [parse_range_value(range_str, range)]: the return code and [*range] after
    the call; [not] is written before the numbers are scanned. *)
Definition parse_range_value (range_str : list Z) (range : range_value)
    : option (Z * range_value) :=
  ok ← validate_range_value range_str;
  if negb ok then Some (-1, range) else
  range_str ← k_trim range_str;
  c ← range_str @! 0;
  let not := c =? chr "!" in
  let range := mkRange not (r_start range) (r_end range) in
  pure_range ← strcpy (replicate 128 0) (if (not : bool) then at_ range_str 1 else range_str);
  pure_range ← k_trim pure_range;
  s ← cstr pure_range;
  if existsb (Z.eqb (chr "-")) s then
    match sscanf s (bytes_of "%d-%d") with
    | [a; b] => Some (0, mkRange not a b)
    | _ => Some (-1, range)
    end
  else
    match sscanf s (bytes_of "%d") with
    | [a] => Some (0, mkRange not a a)
    | _ => Some (-1, range)
    end.

(** One token of [parse_port_info]: copy it to [one_port_buf], parse it into
    the slot [info->num], count it when it parsed. *)
Definition add_range (port_str : list Z) (begin p : Z) (info : port_info)
    : option port_info :=
  one_port_buf ← strncpy (replicate 128 0) (at_ port_str begin) (p - begin);
  slot ← range_list info !! Z.to_nat (pi_num info);
  '(rc, r) ← parse_range_value one_port_buf slot;
  Some (mkPortInfo (if rc =? 0 then pi_num info + 1 else pi_num info)
          (<[Z.to_nat (pi_num info) := r]> (range_list info))).

(** [parse_port_info(port_str, info)]: the return code and [*info]. *)
Definition parse_port_info (port_str : list Z) (info : port_info)
    : option (Z * port_info) :=
  port_str ← k_trim port_str;
  n ← strlen port_str;
  if n =? 0 then Some (-1, info) else
  '(p, begin, info) ← tok_loop (chr "|") (add_range port_str) port_str info;
  info ← add_range port_str begin p info;
  Some (0, info).

(** ** Position dictionaries *)

(** The variables of the dictionary loop of [__add_app_feature]. *)
Record dict_st := mkDict {
  d_pos : list Z; d_index : Z; d_value : Z; d_entries : list pos_info }.

(** [k_sscanf(pos, "%d:%x", &index, &value)] and the store of the entry
    [pos_info[pos_num++]]; the value is truncated to [unsigned char]. *)
Definition add_position (pos : list Z) (st : dict_st) : option dict_st :=
  s ← cstr pos;
  let '(index, value) :=
    match snd (k_sscanf s (bytes_of "%d:%x")) with
    | VInt i :: VInt v :: _ => (i, v)
    | VInt i :: _ => (i, d_value st)
    | _ => (d_index st, d_value st)
    end in
  if Z.of_nat (length (d_entries st)) <? MAX_POS_INFO_PER_FEATURE then
    Some (mkDict pos index value (d_entries st ++ [mkPos index (u8 value)]))
  else None.

Definition dict_token (dict : list Z) (begin p : Z) (st : dict_st) : option dict_st :=
  pos ← strncpy (replicate 32 0) (at_ dict begin) (p - begin);
  add_position pos st.

Definition parse_dict (dict : list Z) : option (list pos_info) :=
  '(p, begin, st) ← tok_loop (chr "|") (dict_token dict) dict
                      (mkDict (replicate 32 0) 0 0 []);
  pos ← if negb (begin =? 0) then strncpy (d_pos st) (at_ dict begin) (p - begin)
        else strcpy (d_pos st) dict;
  st ← add_position pos st;
  Some (d_entries st).

(** [__add_app_feature]: the strings are copied into the node's arrays of 64,
    128 and 128 bytes; the node goes to the front of the list.  The allocation
    is taken to succeed. *)
Definition __add_app_feature (appid : Z) (name : list Z) (proto src_port : Z)
    (dport_info : port_info) (host_url request_url dict : list Z)
    (af_feature_head : list feature_node) : option (list feature_node) :=
  name ← (b ← strcpy (replicate 64 0) name; cstr b);
  host ← (b ← strcpy (replicate 128 0) host_url; cstr b);
  request ← (b ← strcpy (replicate 128 0) request_url; cstr b);
  entries ← parse_dict dict;
  Some (mkNode (u32 appid) name proto (u32 src_port) dport_info host request entries
        :: af_feature_head).

(** ** Feature strings *)

(** The local buffers of [add_app_feature]. *)
Record fields := mkFields {
  f_proto : list Z; f_src : list Z; f_dst : list Z; f_host : list Z;
  f_request : list Z; param_num : Z }.
Definition fields0 : fields :=
  mkFields (replicate 16 0) (replicate 16 0) (replicate 16 0) (replicate 32 0)
    (replicate 128 0) 0.

(** The [switch (param_num)]. *)
Definition add_field (feature : list Z) (begin p : Z) (f : fields) : option fields :=
  let copy dst := strncpy dst (at_ feature begin) (p - begin) in
  let n := param_num f + 1 in
  match param_num f with
  | 0 => b ← copy (f_proto f); Some (mkFields b (f_src f) (f_dst f) (f_host f) (f_request f) n)
  | 1 => b ← copy (f_src f); Some (mkFields (f_proto f) b (f_dst f) (f_host f) (f_request f) n)
  | 2 => b ← copy (f_dst f); Some (mkFields (f_proto f) (f_src f) b (f_host f) (f_request f) n)
  | 3 => b ← copy (f_host f); Some (mkFields (f_proto f) (f_src f) (f_dst f) b (f_request f) n)
  | 4 => b ← copy (f_request f); Some (mkFields (f_proto f) (f_src f) (f_dst f) (f_host f) b n)
  | _ => Some (mkFields (f_proto f) (f_src f) (f_dst f) (f_host f) (f_request f) n)
  end.

(** [add_app_feature(appid, name, feature)]: the return code and the feature
    list; neither pointer is NULL at the only call. *)
Definition add_app_feature (appid : Z) (name feature : list Z)
    (af_feature_head : list feature_node) : option (Z * list feature_node) :=
  '(p, begin, f) ← tok_loop (chr ";") (add_field feature) feature fields0;
  len ← strlen feature;
  if negb (param_num f =? 5) && (MIN_FEATURE_STR_LEN <? len)
  then Some (-1, af_feature_head) else
  dict ← strncpy (replicate 128 0) (at_ feature begin) (p - begin);
  proto_str ← cstr (f_proto f);
  if negb (bool_decide (proto_str = bytes_of "tcp")
           || bool_decide (proto_str = bytes_of "udp"))
  then Some (-1, af_feature_head) else
  let proto := if bool_decide (proto_str = bytes_of "tcp") then IPPROTO_TCP else IPPROTO_UDP in
  src ← cstr (f_src f);
  let src_port := match sscanf src (bytes_of "%d") with a :: _ => a | [] => 0 end in
  '(_, dport_info) ← parse_port_info (f_dst f) port_info0;
  head ← __add_app_feature appid name proto src_port dport_info (f_host f)
           (f_request f) dict af_feature_head;
  Some (0, head).

(** ** Feature lines *)

(** The loop of [af_init_feature] that looks for the brackets: [pos] is -1 for
    NULL. *)
Definition bracket_body (p c : Z) (s : Z * Z) : option (Z * Z) :=
  let '(pos, len) := s in
  if c =? chr "[" then Some (p + 1, len)
  else if (c =? chr "]") && negb (pos =? -1) then Some (pos, p - pos)
  else Some (pos, len).

Definition add_feature_token (appid : Z) (name feature_buf : list Z) (begin p : Z)
    (head : list feature_node) : option (list feature_node) :=
  feature ← strncpy (replicate 128 0) (at_ feature_buf begin) (p - begin);
  '(_, head) ← add_app_feature appid name feature head;
  Some head.

(** [af_init_feature(feature_str)]; [junk_id] is what the uninitialised
    [app_id] holds when the line does not start with a number. *)
Definition af_init_feature (junk_id : Z) (feature_str : list Z)
    (head : list feature_node) : option (list feature_node) :=
  line ← cstr feature_str;
  if existsb (Z.eqb (chr "#")) line then Some head else
  let '(app_id, app_name) :=
    match snd (k_sscanf line (bytes_of "%d%[^:]")) with
    | VInt i :: VStr s :: _ => (i, s)
    | VInt i :: _ => (i, [])
    | _ => (junk_id, [])
    end in
  '(_, (pos, len)) ← while_pp (S (length feature_str)) feature_str 0 bracket_body (-1, 0);
  feature_buf ← if negb (pos =? -1) && negb (len =? 0)
                then strncpy (replicate 256 0) (at_ feature_str pos) len
                else Some (replicate 256 0);
  let act := add_feature_token app_id (cbuf 128 app_name) feature_buf in
  '(p, begin, head) ← tok_loop (chr ",") act feature_buf head;
  if negb (p =? begin) then act begin p head else Some head.

(** ** The feature file *)

(** One line of the file: skipped unless 16 to 256 bytes long. *)
Definition feature_line (junk_id : Z) (feature_buf : list Z) (begin p : Z)
    (head : list feature_node) : option (list feature_node) :=
  if (p - begin <? MIN_FEATURE_LINE_LEN) || (MAX_FEATURE_LINE_LEN <? p - begin)
  then Some head else
  line ← strncpy (replicate 256 0) (at_ feature_buf begin) (p - begin);
  af_init_feature junk_id line head.

(** [load_feature_config] on what [load_feature_buf_from_file] left in
    [feature_buf]: NULL, or an allocation that holds the file's bytes and
    nothing else. *)
Definition load_feature_config (junk_id : Z) (feature_buf : option (list Z))
    (head : list feature_node) : option (Z * list feature_node) :=
  match feature_buf with
  | None => Some (-1, head)
  | Some feature_buf =>
      '(p, begin, head) ← tok_loop (chr "010") (feature_line junk_id feature_buf)
                            feature_buf head;
      head ← feature_line junk_id feature_buf begin p head;
      Some (0, head)
  end.

(** [af_clean_feature_list]. *)
Fixpoint af_clean_feature_list (head : list feature_node) : list feature_node :=
  match head with [] => [] | _ :: head => af_clean_feature_list head end.

End Loader.
(** ** Port lists *)

(** A port range as it is written: [!lo-hi], with optional parts. *)
Record range_text := mkRangeText { rt_not : bool; rt_lo : list Z; rt_hi : option (list Z) }.

Definition digits_ok (ds : list Z) : Prop :=
  ds <> [] /\ Forall (fun c => isdigit c = true) ds /\ digits_val 10 ds < 2 ^ 31.

#[export] Instance digits_ok_dec ds : Decision (digits_ok ds).
Proof. unfold digits_ok. apply _. Defined.

Definition range_ok (r : range_text) : Prop :=
  digits_ok (rt_lo r) /\ match rt_hi r with Some h => digits_ok h | None => True end.

Definition print_range (r : range_text) : list Z :=
  (if rt_not r then [chr "!"] else []) ++ rt_lo r ++
  match rt_hi r with Some h => chr "-" :: h | None => [] end.

Definition range_of (r : range_text) : range_value :=
  mkRange (rt_not r) (digits_val 10 (rt_lo r))
    (digits_val 10 (default (rt_lo r) (rt_hi r))).

(** The bytes a printed range is made of. *)
Definition range_char (c : Z) : Prop := c = chr "!" \/ c = chr "-" \/ isdigit c = true.

Lemma range_char_props c :
  range_char c -> c <> 0 /\ c <> chr "|" /\ isspace c = false.
Proof. intros [->|[->|H]]; [done..|]. char_lia. Qed.

Lemma print_range_chars r : range_ok r -> Forall range_char (print_range r).
Proof.
  intros [(_ & Hlo & _) Hhi]. unfold print_range.
  assert (forall l, Forall (fun c => isdigit c = true) l -> Forall range_char l) as Hd
    by (intros l Hl; apply (Forall_imp _ _ _ Hl); unfold range_char; tauto).
  repeat apply Forall_app_2; [|auto|].
  - destruct (rt_not r); repeat constructor.
  - destruct (rt_hi r) as [h|]; [|constructor]. destruct Hhi as (_ & Hh & _).
    constructor; [unfold range_char; tauto|auto].
Qed.

Lemma print_range_nonempty r : range_ok r -> print_range r <> [].
Proof.
  intros [(Hne & _) _]. unfold print_range.
  destruct (rt_not r), (rt_lo r); simpl; congruence.
Qed.

Lemma range_chars_nonzero s : Forall range_char s -> Forall (fun c => c <> 0) s.
Proof. intros H. apply (Forall_imp _ _ _ H). apply range_char_props. Qed.

Lemma range_chars_not_space s : Forall range_char s -> Forall (fun c => isspace c = false) s.
Proof. intros H. apply (Forall_imp _ _ _ H). apply range_char_props. Qed.

Lemma validate_range_chars s rest :
  Forall range_char s -> validate_range_value (s ++ 0 :: rest) = Some true.
Proof.
  induction 1 as [|c s Hc _ IH]; [done|]. simpl.
  destruct (range_char_props c Hc) as (H0 & _ & _). apply Z.eqb_neq in H0. rewrite H0.
  assert ((c =? chr " ") || (c =? chr "!") || (c =? chr "-") || isdigit c = true) as ->;
    [|done].
  destruct Hc as [->|[->| ->]]; [done..|]. by rewrite !orb_true_r.
Qed.

Lemma existsb_digits x ds :
  isdigit x = false -> Forall (fun c => isdigit c = true) ds -> existsb (Z.eqb x) ds = false.
Proof.
  intros Hx. induction 1 as [|c ds Hc _ IH]; simpl; [done|].
  rewrite IH, orb_false_r. apply Z.eqb_neq. congruence.
Qed.

Section PortParsing.
Context `{KlibLaws}.

(** The scan of the text after the exclamation mark. *)
Lemma scan_range r :
  range_ok r ->
  let s := rt_lo r ++ match rt_hi r with Some h => chr "-" :: h | None => [] end in
  if existsb (Z.eqb (chr "-")) s
  then sscanf s (bytes_of "%d-%d") = [r_start (range_of r); r_end (range_of r)]
  else sscanf s (bytes_of "%d") = [r_start (range_of r)] /\
       r_end (range_of r) = r_start (range_of r).
Proof.
  intros [(H1 & H2 & H3) Hhi]. unfold range_of. simpl. destruct (rt_hi r) as [h|].
  - destruct Hhi as (H4 & H5 & H6). rewrite existsb_app. simpl existsb.
    rewrite orb_true_r. by apply sscanf_d_d.
  - rewrite app_nil_r, (existsb_digits (chr "-")) by done. split; [|done].
    by apply sscanf_d.
Qed.

Lemma parse_range_value_ok r slot :
  range_ok r -> (length (print_range r) < 128)%nat ->
  parse_range_value (cbuf 128 (print_range r)) slot = Some (0, range_of r).
Proof.
  intros Hr Hl. pose proof (print_range_chars r Hr) as Hch.
  pose proof (range_chars_nonzero _ Hch) as Hnz.
  pose proof (range_chars_not_space _ Hch) as Hns.
  unfold parse_range_value.
  destruct (cbuf_0 128 (print_range r) Hl) as [rest Hb].
  rewrite Hb, validate_range_chars by done. rewrite <- Hb. cbn [mbind option_bind negb].
  rewrite (k_trim_no_space _ (print_range r)) by (done || by apply cstr_cbuf).
  cbn [mbind option_bind].
  set (s := rt_lo r ++ match rt_hi r with Some h => chr "-" :: h | None => [] end).
  assert (print_range r = (if rt_not r then [chr "!"] else []) ++ s) as Hp by done.
  assert (exists c, cbuf 128 (print_range r) @! 0 = Some c /\ (c =? chr "!") = rt_not r)
    as (c & Hc & Hnot).
  { rewrite Hb, Hp. destruct (rt_not r); [by eexists|]. unfold s.
    destruct Hr as [(Hne & Hd & _) _]. destruct Hd as [|c ds Hc]; [done|].
    exists c. split; [done|]. apply Z.eqb_neq. char_lia. }
  rewrite Hc. cbn [mbind option_bind]. rewrite Hnot.
  assert (Forall (fun c => c <> 0) s /\ Forall (fun c => isspace c = false) s /\
          (length s <= length (print_range r))%nat) as (Hsz & Hss & Hsl).
  { rewrite Hp in *. apply Forall_app in Hnz as [_ ?], Hns as [_ ?].
    rewrite length_app. split_and!; [done..|lia]. }
  assert (cstr (if rt_not r then at_ (cbuf 128 (print_range r)) 1
                else cbuf 128 (print_range r)) = Some s) as Hcs.
  { rewrite Hb, Hp. destruct (rt_not r); by apply cstr_app. }
  rewrite (strcpy_cbuf _ _ s) by (done || lia). cbn [mbind option_bind].
  assert (cstr (cbuf 128 s) = Some s) as Hcb by (apply cstr_cbuf; [done|lia]).
  rewrite (k_trim_no_space _ s) by done. cbn [mbind option_bind].
  rewrite Hcb. cbn [mbind option_bind]. pose proof (scan_range r Hr) as Hscan. cbv zeta in Hscan. fold s in Hscan.
  revert Hscan. destruct (existsb _ _); [by intros ->|]. intros [-> He].
  unfold range_of in *. simpl in *. by rewrite He.
Qed.

(** One token of the port list, seen as a function of the token. *)
Definition range_token (t : list Z) (info : port_info) : option port_info :=
  slot ← range_list info !! Z.to_nat (pi_num info);
  '(rc, r) ← parse_range_value (cbuf 128 t) slot;
  Some (mkPortInfo (if rc =? 0 then pi_num info + 1 else pi_num info)
          (<[Z.to_nat (pi_num info) := r]> (range_list info))).

Lemma add_range_token buf b t x rest info p :
  at_ buf b = t ++ x -> Forall (fun c => c <> 0) t -> (length t < 128)%nat ->
  (p = b + Z.of_nat (length t) \/ (p = b + Z.of_nat (length t) + 1 /\ x = 0 :: rest)) ->
  add_range buf b p info = range_token t info.
Proof.
  intros Ha Ht Hl Hp. unfold add_range, range_token. rewrite Ha.
  destruct Hp as [->|[-> ->]].
  - rewrite strncpy_cbuf by (done || lia). done.
  - rewrite strncpy_cbuf_nul by (done || lia). done.
Qed.

(** Ranges [ds] parsed, the other slots untouched. *)
Definition ports_parsed (ds : list range_value) : port_info :=
  mkPortInfo (Z.of_nat (length ds))
    (ds ++ replicate (Z.to_nat MAX_PORT_RANGE_NUM - length ds) range0).

Lemma range_token_ok ds r :
  range_ok r -> (length (print_range r) < 128)%nat -> (length ds < 5)%nat ->
  range_token (print_range r) (ports_parsed ds) = Some (ports_parsed (ds ++ [range_of r])).
Proof.
  intros Hr Hl Hd. unfold range_token, ports_parsed. simpl. rewrite Nat2Z.id.
  rewrite lookup_app_r, Nat.sub_diag by done.
  destruct (Z.to_nat MAX_PORT_RANGE_NUM - length ds)%nat as [|k] eqn:E;
    [change (Z.to_nat MAX_PORT_RANGE_NUM) with 5%nat in E; lia|]. simpl.
  rewrite parse_range_value_ok by done. simpl. do 2 f_equal.
  - rewrite length_app. simpl. lia.
  - rewrite insert_app_r_alt, Nat.sub_diag by done. simpl.
    rewrite length_app, <- app_assoc. simpl. do 3 f_equal. lia.
Qed.

(** The sixth range has no slot. *)
Lemma range_token_over ds t : (5 <= length ds)%nat -> range_token t (ports_parsed ds) = None.
Proof.
  intros Hd. unfold range_token, ports_parsed. simpl. rewrite Nat2Z.id.
  change (Z.to_nat MAX_PORT_RANGE_NUM) with 5%nat.
  replace (5 - length ds)%nat with 0%nat by lia.
  by rewrite app_nil_r, lookup_ge_None_2.
Qed.

Lemma range_tokens_spec ds rs :
  Forall range_ok rs -> Forall (fun r => (length (print_range r) < 128)%nat) rs ->
  (length ds <= 5)%nat ->
  foldM range_token (map print_range rs) (ports_parsed ds) =
  if decide (length ds + length rs <= 5)%nat
  then Some (ports_parsed (ds ++ map range_of rs)) else None.
Proof.
  intros Hr. revert ds. induction Hr as [|r rs Hr _ IH]; intros ds Hl Hn; simpl in *.
  - by rewrite app_nil_r, decide_True by lia.
  - inversion_clear Hl. destruct (decide (length ds < 5)%nat).
    + rewrite range_token_ok by done. cbn [mbind option_bind].
      rewrite IH by (rewrite ?length_app; simpl; done || lia).
      rewrite length_app, <- app_assoc. simpl. do 2 case_decide; done || lia.
    + rewrite range_token_over by lia. by rewrite decide_False by lia.
Qed.

(** The whole of a printed port list. *)
Definition print_ports (r : range_text) (rs : list range_text) : list Z :=
  joined (chr "|") (print_range r) (map print_range rs).

Lemma joined_Forall (P : Z -> Prop) d u ts :
  P d -> Forall (Forall P) (u :: ts) -> Forall P (joined d u ts).
Proof.
  intros Hd Hts. inversion_clear Hts as [|? ? Hu Ht]. unfold joined.
  apply Forall_app_2; [done|]. induction Ht; simpl; [constructor|].
  constructor; [done|]. by apply Forall_app_2.
Qed.

Lemma joined_token_length d u ts t : t ∈ u :: ts -> (length t <= length (joined d u ts))%nat.
Proof.
  unfold joined. rewrite length_app. intros [->|Ht]%elem_of_cons; [lia|].
  assert (length t <= length (concat (map (cons d) ts)))%nat; [|lia].
  induction Ht as [|v ts ? IH]; simpl; rewrite length_app; simpl; lia.
Qed.

(** A printed list is parsed when it has a slot for every range; a longer one
    is written past the slots. *)
Lemma parse_port_info_spec r rs n :
  Forall range_ok (r :: rs) ->
  (length (print_ports r rs) < n)%nat -> (n <= 128)%nat ->
  parse_port_info (cbuf n (print_ports r rs)) port_info0 =
  if decide (length (r :: rs) <= 5)%nat
  then Some (0, ports_parsed (map range_of (r :: rs))) else None.
Proof.
  intros Hr Hl H128. set (ts := map print_range rs).
  assert (Forall (Forall range_char) (print_range r :: ts)) as Hch.
  { change (Forall (Forall range_char) (map print_range (r :: rs))).
    apply Forall_map. apply (Forall_imp _ _ _ Hr). apply print_range_chars. }
  assert (Forall (token (chr "|")) (print_range r :: ts)) as Htok.
  { apply (Forall_imp _ _ _ Hch). intros t Ht. apply (Forall_imp _ _ _ Ht).
    intros c Hc. by destruct (range_char_props c Hc) as (? & ? & ?). }
  assert (Forall (fun c => c <> 0) (print_ports r rs)) as Hnz.
  { apply joined_Forall; [done|]. apply (Forall_imp _ _ _ Hch).
    apply range_chars_nonzero. }
  assert (Forall (fun c => isspace c = false) (print_ports r rs)) as Hns.
  { apply joined_Forall; [done|]. apply (Forall_imp _ _ _ Hch).
    apply range_chars_not_space. }
  assert (cstr (cbuf n (print_ports r rs)) = Some (print_ports r rs)) as Hc
    by by apply cstr_cbuf.
  unfold parse_port_info. rewrite (k_trim_no_space _ (print_ports r rs)) by done.
  cbn [mbind option_bind]. unfold strlen. rewrite Hc. cbn [mbind option_bind].
  assert (print_range r <> []) as Hne
    by (apply print_range_nonempty; by inversion Hr).
  assert (print_ports r rs <> []) as Hne'.
  { unfold print_ports, joined. destruct (print_range r); naive_solver. }
  rewrite (proj2 (Z.eqb_neq _ 0)) by (destruct (print_ports r rs); simpl; [congruence|lia]).
  destruct (cbuf_0 n (print_ports r rs) Hl) as [rest Hb]. rewrite Hb.
  unfold print_ports in Hl |- *. fold ts in Hl |- *.
  set (buf := joined (chr "|") (print_range r) ts ++ 0 :: rest).
  assert (forall t, t ∈ print_range r :: ts ->
    Forall (fun c => c <> 0) t /\ (length t < 128)%nat) as Ht.
  { intros t Ht. pose proof (joined_token_length (chr "|") _ _ _ Ht).
    split; [|lia]. rewrite Forall_forall in Htok. eapply token_nonzero. by apply Htok. }
  etrans; [apply (tok_loop_all (chr "|") (add_range buf) ltac:(done) range_token (fun _ => True)
    (print_range r) ts rest port_info0 (fun p begin info => info ← add_range buf begin p info; Some (0, info))
    (fun info => (0, info)))|]; [done..| | |].
  - intros b t x st Hin Hat. destruct (Ht t Hin).
    by eapply (add_range_token _ _ _ _ []); [..|left; lia].
  - intros b t st _ Hin Hat _. destruct (Ht t Hin).
    erewrite add_range_token; [done|exact Hat|done..|]. right. split; [lia|done].
  - change (print_range r :: ts) with (map print_range (r :: rs)).
    change port_info0 with (ports_parsed []).
    rewrite range_tokens_spec; [cbn [length Nat.add]; by case_decide|done| |simpl; lia].
    apply Forall_forall. intros x Hx. apply Ht.
    by apply (list_elem_of_fmap_2 print_range) in Hx.
Qed.

End PortParsing.

(** ** Dictionaries *)

(** A position and the value expected there, as they are written. *)
Record pos_text := mkPosText { pt_pos : list Z; pt_val : list Z }.

Definition pos_ok (e : pos_text) : Prop :=
  digits_ok (pt_pos e) /\ pt_val e <> [] /\
  Forall (fun c => isxdigit c = true) (pt_val e) /\ digits_val 16 (pt_val e) < 2 ^ 31.

Definition print_pos (e : pos_text) : list Z := pt_pos e ++ chr ":" :: pt_val e.
Definition pos_of (e : pos_text) : pos_info :=
  mkPos (digits_val 10 (pt_pos e)) (u8 (digits_val 16 (pt_val e))).

Lemma print_pos_token e : pos_ok e -> token (chr "|") (print_pos e).
Proof.
  intros [(_ & Hd & _) (_ & Hx & _)]. unfold print_pos, token.
  apply Forall_app_2; [|constructor; [done|]].
  - apply (Forall_imp _ _ _ Hd). intros c Hc. char_lia.
  - apply (Forall_imp _ _ _ Hx). intros c Hc. char_lia.
Qed.

Definition print_dict (e : pos_text) (es : list pos_text) : list Z :=
  joined (chr "|") (print_pos e) (map print_pos es).

Section DictParsing.
Context `{KlibLaws}.

Definition pos_token (t : list Z) : dict_st -> option dict_st := add_position (cbuf 32 t).

Lemma add_position_ok buf e st :
  pos_ok e -> cstr buf = Some (print_pos e) -> (length (d_entries st) < 16)%nat ->
  exists i v, add_position buf st = Some (mkDict buf i v (d_entries st ++ [pos_of e])).
Proof.
  intros [(? & ? & ?) (? & ? & ?)] Hc Hl. unfold add_position. rewrite Hc.
  cbn [mbind option_bind]. unfold print_pos. rewrite k_sscanf_pos_value by done.
  cbn [snd]. rewrite (proj2 (Z.ltb_lt _ _)) by (unfold MAX_POS_INFO_PER_FEATURE; lia).
  by eexists _, _.
Qed.

(** The seventeenth entry has no slot. *)
Lemma add_position_over buf st : (16 <= length (d_entries st))%nat -> add_position buf st = None.
Proof.
  intros Hl. unfold add_position. destruct (cstr buf); [|done]. cbn [mbind option_bind].
  rewrite (proj2 (Z.ltb_ge _ _)) by (unfold MAX_POS_INFO_PER_FEATURE; lia).
  by repeat case_match.
Qed.

Lemma pos_tokens_spec es st :
  Forall pos_ok es -> Forall (fun e => (length (print_pos e) < 32)%nat) es ->
  (length (d_entries st) <= 16)%nat ->
  d_entries <$> foldM pos_token (map print_pos es) st =
  if decide (length (d_entries st) + length es <= 16)%nat
  then Some (d_entries st ++ map pos_of es) else None.
Proof.
  intros He. revert st. induction He as [|e es He _ IH]; intros st Hl Hn; simpl in *.
  - by rewrite app_nil_r, decide_True by lia.
  - inversion_clear Hl. change (pos_token (print_pos e) st) with (add_position (cbuf 32 (print_pos e)) st).
    assert (cstr (cbuf 32 (print_pos e)) = Some (print_pos e)) as Hc.
    { apply cstr_cbuf; [|lia]. apply (token_nonzero (chr "|")). by apply print_pos_token. }
    destruct (decide (length (d_entries st) < 16)%nat).
    + destruct (add_position_ok _ e st He Hc) as (i & v & ->); [done|]. cbn [mbind option_bind].
      rewrite IH by (simpl; rewrite ?length_app; simpl; done || lia). simpl.
      rewrite length_app, <- app_assoc. simpl. do 2 case_decide; done || lia.
    + rewrite add_position_over by lia. by rewrite decide_False by lia.
Qed.

(** The entries do not depend on what the token buffer held. *)
Lemma add_position_buf buf buf' st :
  cstr buf = cstr buf' -> (st' ← add_position buf st; Some (d_entries st')) =
  (st' ← add_position buf' st; Some (d_entries st')).
Proof.
  intros Hb. unfold add_position. rewrite Hb. destruct (cstr buf'); [|done]. simpl.
  repeat case_match; done.
Qed.

Lemma add_position_pos buf st st' : add_position buf st = Some st' -> d_pos st' = buf.
Proof.
  unfold add_position. intros H1. simp_opt. revert H1. repeat case_match; by intros [= <-].
Qed.

Lemma parse_dict_spec e es n :
  Forall pos_ok (e :: es) -> Forall (fun e => (length (print_pos e) < 32)%nat) (e :: es) ->
  (length (print_dict e es) < n)%nat -> (n <= 128)%nat ->
  parse_dict (cbuf n (print_dict e es)) =
  if decide (length (e :: es) <= 16)%nat then Some (map pos_of (e :: es)) else None.
Proof.
  intros He Hl Hlen H128. unfold parse_dict.
  destruct (cbuf_0 n _ Hlen) as [rest ->]. unfold print_dict in *.
  set (ts := map print_pos es) in *. set (buf := joined _ _ _ ++ 0 :: rest).
  assert (Forall (token (chr "|")) (print_pos e :: ts)) as Htok.
  { change (Forall (token (chr "|")) (map print_pos (e :: es))). apply Forall_map.
    apply (Forall_imp _ _ _ He). apply print_pos_token. }
  assert (forall t, t ∈ print_pos e :: ts ->
    Forall (fun c => c <> 0) t /\ (length t < 32)%nat) as Ht.
  { intros t Ht. rewrite Forall_forall in Htok. split; [by eapply token_nonzero, Htok|].
    change (print_pos e :: ts) with (map print_pos (e :: es)) in Ht.
    apply list_elem_of_fmap in Ht as (x & -> & Hx). rewrite Forall_forall in Hl. auto. }
  etrans; [apply (tok_loop_all (chr "|") (dict_token buf) ltac:(done) pos_token
    (fun st => length (d_pos st) = 32%nat) (print_pos e) ts rest _
    (fun p begin st => pos ← if negb (begin =? 0) then strncpy (d_pos st) (at_ buf begin) (p - begin)
        else strcpy (d_pos st) buf; st ← add_position pos st; Some (d_entries st))
    d_entries)|]; [done| |..].
  - intros t st st' [_ Hlt]%Ht _ Hst'. erewrite add_position_pos by done.
    apply length_cbuf. lia.
  - intros Hp. apply (f_equal length) in Hp. unfold print_pos in Hp.
    rewrite length_app in Hp. simpl in Hp. lia.
  - done.
  - intros b t x st [Hnz Hlt]%Ht Hat. fold buf in Hat. unfold dict_token. rewrite Hat.
    by rewrite strncpy_cbuf by (done || lia).
  - intros b t st Hst [Hnz Hlt]%Ht Hat Hb. fold buf in Hat.
    assert (exists pos, (if negb (Z.of_nat b =? 0)
      then strncpy (d_pos st) (at_ buf (Z.of_nat b)) (Z.of_nat (b + length t + 1) - Z.of_nat b)
      else strcpy (d_pos st) buf) = Some pos /\ cstr pos = Some t) as (q & -> & Hq).
    { destruct (Z.of_nat b =? 0) eqn:E; zify_bool; simpl.
      - assert (at_ buf (Z.of_nat b) = buf) as Ha by (by rewrite E).
        assert (cstr buf = Some t) as Hct by (rewrite <- Ha, Hat; by apply cstr_app).
        unfold strcpy. rewrite Hct. simpl. rewrite Hst.
        case_match eqn:E1; [apply Nat.ltb_lt in E1; lia|].
        eexists. split; [done|]. by apply cstr_app.
      - rewrite Hat, strncpy_with_nul by (done || lia).
        eexists. split; [done|]. by apply cstr_app. }
    cbn [mbind option_bind]. apply add_position_buf. rewrite Hq. symmetry.
    by apply cstr_cbuf.
  - change (print_pos e :: ts) with (map print_pos (e :: es)).
    pose proof (pos_tokens_spec (e :: es) (mkDict (replicate 32 0) 0 0 []) He Hl) as Hf.
    simpl length in Hf. simpl length. rewrite Nat.add_0_l in Hf. specialize (Hf ltac:(lia)).
    revert Hf. generalize (foldM pos_token (map print_pos (e :: es)) (mkDict (replicate 32 0) 0 0 [])).
    intros [st'|]; intros Hf; simpl in Hf |- *; case_decide; congruence.
Qed.

End DictParsing.

(** ** Feature strings *)

(** A feature as it is written between the commas of a line; [ft_src] is empty
    or a number, the port list and the dictionary may be empty. *)
Record feature_text := mkFeature {
  ft_tcp : bool; ft_src : list Z; ft_ports : list range_text;
  ft_host : list Z; ft_request : list Z; ft_dict : list pos_text }.

Definition print_port_list (rs : list range_text) : list Z :=
  match rs with [] => [] | r :: rs => print_ports r rs end.
Definition print_dict_list (es : list pos_text) : list Z :=
  match es with [] => [] | e :: es => print_dict e es end.

Definition proto_name (tcp : bool) : list Z := bytes_of (if tcp then "tcp" else "udp").

Definition feature_tokens (f : feature_text) : list (list Z) :=
  [ft_src f; print_port_list (ft_ports f); ft_host f; ft_request f; print_dict_list (ft_dict f)].
Definition print_feature (f : feature_text) : list Z :=
  joined (chr ";") (proto_name (ft_tcp f)) (feature_tokens f).

Record feature_ok (f : feature_text) : Prop := {
  fo_src : ft_src f = [] \/ digits_ok (ft_src f);
  fo_src_len : (length (ft_src f) < 16)%nat;
  fo_ports : Forall range_ok (ft_ports f);
  fo_ports_num : (length (ft_ports f) <= 5)%nat;
  fo_ports_len : (length (print_port_list (ft_ports f)) < 16)%nat;
  fo_host : token (chr ";") (ft_host f);
  fo_host_len : (length (ft_host f) < 32)%nat;
  fo_request : token (chr ";") (ft_request f);
  fo_dict : Forall pos_ok (ft_dict f);
  fo_dict_tokens : Forall (fun e => (length (print_pos e) < 32)%nat) (ft_dict f);
  fo_dict_num : (length (ft_dict f) <= 16)%nat;
  fo_len : (length (print_feature f) < 128)%nat;
}.

(** The same without the bounds on the two counts, which the code never checks. *)
Record feature_form (f : feature_text) : Prop := {
  ff_src : ft_src f = [] \/ digits_ok (ft_src f);
  ff_src_len : (length (ft_src f) < 16)%nat;
  ff_ports : Forall range_ok (ft_ports f);
  ff_ports_len : (length (print_port_list (ft_ports f)) < 16)%nat;
  ff_host : token (chr ";") (ft_host f);
  ff_host_len : (length (ft_host f) < 32)%nat;
  ff_request : token (chr ";") (ft_request f);
  ff_dict : Forall pos_ok (ft_dict f);
  ff_dict_tokens : Forall (fun e => (length (print_pos e) < 32)%nat) (ft_dict f);
  ff_len : (length (print_feature f) < 128)%nat;
}.

(** The counts the arrays of a node have room for. *)
Definition feature_fits (f : feature_text) : Prop :=
  (length (ft_ports f) <= 5)%nat /\ (length (ft_dict f) <= 16)%nat.

#[export] Instance feature_fits_dec f : Decision (feature_fits f).
Proof. unfold feature_fits. apply _. Defined.

Lemma feature_ok_form f : feature_ok f -> feature_form f /\ feature_fits f.
Proof. by intros []. Qed.

(** The node that the feature denotes. *)
Definition node_of (appid : Z) (name : list Z) (f : feature_text) : feature_node :=
  mkNode (u32 appid) name (if ft_tcp f then IPPROTO_TCP else IPPROTO_UDP)
    (digits_val 10 (ft_src f)) (ports_parsed (map range_of (ft_ports f)))
    (ft_host f) (ft_request f)
    (match ft_dict f with [] => [mkPos 0 0] | es => map pos_of es end).

Lemma digits_token d ds :
  isdigit d = false -> Forall (fun c => isdigit c = true) ds -> token d ds.
Proof.
  intros Hd H. apply (Forall_imp _ _ _ H). intros c Hc. split; [char_lia|congruence].
Qed.

Lemma print_port_list_token rs : Forall range_ok rs -> token (chr ";") (print_port_list rs).
Proof.
  destruct rs as [|r rs]; [constructor|]. intros Hr.
  apply joined_Forall; [done|]. change (Forall (token (chr ";")) (map print_range (r :: rs))).
  apply Forall_map. apply (Forall_imp _ _ _ Hr). intros x Hx%print_range_chars.
  apply (Forall_imp _ _ _ Hx). intros c [->|[->|Hc]]; [done..|]. char_lia.
Qed.

Lemma print_dict_list_token es : Forall pos_ok es -> token (chr ";") (print_dict_list es).
Proof.
  destruct es as [|e es]; [constructor|]. intros He.
  apply joined_Forall; [done|]. change (Forall (token (chr ";")) (map print_pos (e :: es))).
  apply Forall_map. apply (Forall_imp _ _ _ He). intros x [(_ & Hd & _) (_ & Hx & _)].
  unfold print_pos. apply Forall_app_2; [by apply digits_token|].
  constructor; [done|]. apply (Forall_imp _ _ _ Hx). intros c Hc. char_lia.
Qed.

Lemma feature_tokens_ok f :
  feature_form f -> Forall (token (chr ";")) (proto_name (ft_tcp f) :: feature_tokens f).
Proof.
  intros [Hs _ Hp _ Hh _ Hr Hd _ _]. unfold feature_tokens.
  repeat constructor; [..|by apply print_port_list_token|done|done|by apply print_dict_list_token].
  - destruct (ft_tcp f); by repeat constructor.
  - destruct Hs as [->|(_ & Hs & _)]; [constructor|]. by apply digits_token.
Qed.

(** A field copied from the token alone. *)
Lemma strncpy_app dst t x :
  Forall (fun c => c <> 0) t ->
  strncpy dst (t ++ x) (Z.of_nat (length t)) = strncpy dst t (Z.of_nat (length t)).
Proof.
  intros Ht. unfold strncpy. set (n := Z.to_nat _).
  assert (n <= length t)%nat as Hn.
  { unfold n, u64. pose proof (Z.mod_le (Z.of_nat (length t)) (2 ^ 64)). lia. }
  rewrite strncpy_src_app by done.
  pose proof (strncpy_src_app t n [] Ht Hn) as H1. rewrite app_nil_r in H1. by rewrite H1.
Qed.

Lemma add_field_token buf b t x st :
  at_ buf (Z.of_nat b) = t ++ x -> Forall (fun c => c <> 0) t ->
  add_field buf (Z.of_nat b) (Z.of_nat (b + length t)) st =
  add_field t 0 (Z.of_nat (length t)) st.
Proof.
  intros Ha Ht. unfold add_field. rewrite Ha, Z.sub_0_r.
  replace (Z.of_nat (b + length t) - Z.of_nat b) with (Z.of_nat (length t)) by lia.
  change (at_ t 0) with t. by rewrite !strncpy_app.
Qed.

Lemma strncpy_token n t :
  Forall (fun c => c <> 0) t -> (length t <= n)%nat -> (n < 1000)%nat ->
  strncpy (replicate n 0) t (Z.of_nat (length t)) = Some (cbuf n t).
Proof.
  intros. rewrite <- (app_nil_r t) at 1. rewrite strncpy_cbuf; [done..|lia].
Qed.

Definition feature_fields (f : feature_text) : fields :=
  mkFields (cbuf 16 (proto_name (ft_tcp f))) (cbuf 16 (ft_src f))
    (cbuf 16 (print_port_list (ft_ports f))) (cbuf 32 (ft_host f))
    (cbuf 128 (ft_request f)) 5.

Lemma add_fields_ok f :
  feature_form f ->
  foldM (fun t => add_field t 0 (Z.of_nat (length t)))
    (removelast (proto_name (ft_tcp f) :: feature_tokens f)) fields0 =
  Some (feature_fields f).
Proof.
  intros Hf. pose proof (feature_tokens_ok f Hf) as Ht.
  assert (length (ft_request f) < 128)%nat as Hr.
  { eapply Nat.le_lt_trans; [|apply Hf]. apply joined_token_length. set_solver. }
  assert (length (proto_name (ft_tcp f)) < 16)%nat by (destruct (ft_tcp f); simpl; lia).
  destruct Hf. repeat (apply Forall_cons in Ht as [?%token_nonzero Ht]).
  unfold fields0. cbn [removelast feature_tokens foldM]. unfold add_field.
  change (at_ ?t 0) with t.
  repeat (cbn [param_num f_proto f_src f_dst f_host f_request mbind option_bind];
    change (0 + 1) with 1; change (1 + 1) with 2; change (2 + 1) with 3; change (3 + 1) with 4;
    rewrite ?Z.sub_0_r, strncpy_token by (done || lia)).
  reflexivity.
Qed.

Section FeatureParsing.
Context `{KlibLaws}.

Lemma parse_port_list_spec rs :
  Forall range_ok rs -> (length (print_port_list rs) < 16)%nat ->
  snd <$> parse_port_info (cbuf 16 (print_port_list rs)) port_info0 =
  if decide (length rs <= 5)%nat then Some (ports_parsed (map range_of rs)) else None.
Proof.
  destruct rs as [|r rs]; intros Hr Hl; [done|].
  unfold print_port_list in *. rewrite parse_port_info_spec by (done || lia). by case_decide.
Qed.

Lemma parse_dict_list_spec es :
  Forall pos_ok es -> Forall (fun e => (length (print_pos e) < 32)%nat) es ->
  (length (print_dict_list es) < 128)%nat ->
  parse_dict (cbuf 128 (print_dict_list es)) =
  if decide (length es <= 16)%nat
  then Some match es with [] => [mkPos 0 0] | _ => map pos_of es end else None.
Proof.
  destruct es as [|e es]; intros He Ht Hl; [done|].
  unfold print_dict_list in *. rewrite parse_dict_spec by (done || lia). by case_decide.
Qed.

(** [add_app_feature] after its loop. *)
Lemma add_parsed_feature_spec appid name nm f head :
  feature_form f -> cstr name = Some nm -> (length nm < 64)%nat ->
  (proto_str ← cstr (cbuf 16 (proto_name (ft_tcp f)));
   if negb (bool_decide (proto_str = bytes_of "tcp")
            || bool_decide (proto_str = bytes_of "udp"))
   then Some (-1, head) else
   src ← cstr (cbuf 16 (ft_src f));
   '(_, dport_info) ← parse_port_info (cbuf 16 (print_port_list (ft_ports f))) port_info0;
   head ← __add_app_feature appid name
     (if bool_decide (proto_str = bytes_of "tcp") then IPPROTO_TCP else IPPROTO_UDP)
     (match sscanf src (bytes_of "%d") with a :: _ => a | [] => 0 end) dport_info
     (cbuf 32 (ft_host f)) (cbuf 128 (ft_request f)) (cbuf 128 (print_dict_list (ft_dict f))) head;
   Some (0, head)) =
  if decide (feature_fits f) then Some (0, node_of appid nm f :: head) else None.
Proof.
  intros Hf Hnm Hnl. pose proof (feature_tokens_ok f Hf) as Ht.
  assert (forall t, t ∈ feature_tokens f -> (length t < 128)%nat) as Hlen.
  { intros t Hin. eapply Nat.le_lt_trans; [|apply Hf]. apply joined_token_length. by right. }
  pose proof (Hlen (ft_request f) ltac:(set_solver)) as Hrl.
  pose proof (Hlen (print_dict_list (ft_dict f)) ltac:(set_solver)) as Hdl.
  assert (match sscanf (ft_src f) (bytes_of "%d") with a :: _ => a | [] => 0 end =
    digits_val 10 (ft_src f) /\ 0 <= digits_val 10 (ft_src f) < 2 ^ 31) as [Hsrc Hsv].
  { destruct (ff_src f Hf) as [->|(? & ? & ?)]; [by rewrite sscanf_empty|].
    rewrite sscanf_d by done. split; [done|]. split; [|done].
    by apply digits_val_nonneg. }
  destruct Hf. repeat (apply Forall_cons in Ht as [?%token_nonzero Ht]).
  rewrite (cstr_cbuf 16 (proto_name _)) by (done || destruct (ft_tcp f); simpl; lia). cbn [mbind option_bind].
  assert (negb (bool_decide (proto_name (ft_tcp f) = bytes_of "tcp")
    || bool_decide (proto_name (ft_tcp f) = bytes_of "udp")) = false) as ->
    by (by destruct (ft_tcp f)).
  rewrite (cstr_cbuf 16 (ft_src f)) by done. cbn [mbind option_bind].
  pose proof (parse_port_list_spec (ft_ports f)) as Hp.
  unfold feature_fits. revert Hp.
  destruct (parse_port_info _ _) as [[rc info]|]; intros Hp; specialize (Hp ltac:(done) ltac:(done));
    simpl in Hp; destruct (decide (length (ft_ports f) <= 5)%nat) in Hp; simplify_eq;
    cbn [mbind option_bind]; [|by rewrite decide_False by tauto].
  rewrite Hsrc. unfold __add_app_feature. rewrite parse_dict_list_spec by done.
  pose proof (cstr_nonzero _ _ Hnm).
  rewrite (strcpy_cbuf 64 name nm), (strcpy_cbuf 128 (cbuf 32 _) (ft_host f)),
    (strcpy_cbuf 128 (cbuf 128 _) (ft_request f)) by (apply cstr_cbuf || idtac; done || lia).
  cbn [mbind option_bind].
  rewrite (cstr_cbuf 64 nm), (cstr_cbuf 128 (ft_host f)), (cstr_cbuf 128 (ft_request f))
    by (done || lia). cbn [mbind option_bind].
  rewrite (u32_id (digits_val _ _)) by lia. unfold node_of.
  destruct (decide (length (ft_dict f) <= 16)%nat);
    [rewrite decide_True by done|by rewrite decide_False by tauto].
  by destruct (ft_tcp f), (ft_dict f).
Qed.

Lemma add_app_feature_spec appid name nm f n head :
  feature_form f -> cstr name = Some nm -> (length nm < 64)%nat ->
  (length (print_feature f) < n)%nat ->
  add_app_feature appid name (cbuf n (print_feature f)) head =
  if decide (feature_fits f) then Some (0, node_of appid nm f :: head) else None.
Proof.
  intros Hf Hnm Hnl Hl. pose proof (feature_tokens_ok f Hf) as Ht.
  assert (Forall (fun c => c <> 0) (print_feature f)) as Hnz.
  { apply joined_Forall; [done|]. apply (Forall_imp _ _ _ Ht). apply token_nonzero. }
  assert (forall t, t ∈ proto_name (ft_tcp f) :: feature_tokens f ->
    Forall (fun c => c <> 0) t /\ (length t < 128)%nat) as Htok.
  { intros t Hin. rewrite Forall_forall in Ht. split; [by eapply token_nonzero, Ht|].
    eapply Nat.le_lt_trans; [by eapply joined_token_length|apply Hf]. }
  unfold add_app_feature, strlen. rewrite cstr_cbuf by done.
  destruct (cbuf_0 n _ Hl) as [rest ->]. unfold print_feature.
  destruct (tok_loop_tokens (chr ";") (add_field (print_feature f ++ 0 :: rest))
    ltac:(done) (fun t => add_field t 0 (Z.of_nat (length t))) (proto_name (ft_tcp f))
    (feature_tokens f) rest fields0) as (b & Hat & Hb & Hloop).
  { by destruct (ft_tcp f). }
  { done. }
  { intros b t x st [Hz _]%Htok Hat _. by eapply add_field_token. }
  unfold print_feature in Hloop. rewrite Hloop, add_fields_ok by done. cbn [mbind option_bind].
  cbn [param_num feature_fields f_proto f_src f_dst f_host f_request]. rewrite Hat.
  change (List.last _ []) with (print_dict_list (ft_dict f)).
  destruct (Htok (print_dict_list (ft_dict f))) as [Hdz Hdl]; [set_solver|].
  rewrite strncpy_cbuf_nul by (done || lia). rewrite Z.eqb_refl. cbn [negb andb mbind option_bind].
  by apply add_parsed_feature_spec.
Qed.

End FeatureParsing.

(** ** The invariant of the feature list *)

Definition node_wf (n : feature_node) : Prop :=
  app_name n = [] /\ (proto n = IPPROTO_TCP \/ proto n = IPPROTO_UDP) /\
  1 <= pos_num n <= MAX_POS_INFO_PER_FEATURE /\
  0 <= pi_num (dport_info n) <= MAX_PORT_RANGE_NUM.

Lemma tok_loop_inv {St} (I : St -> Prop) d act buf st p begin st' :
  (forall b p st st', I st -> act b p st = Some st' -> I st') ->
  I st -> tok_loop d act buf st = Some (p, begin, st') -> I st'.
Proof.
  intros Hact Hst H. unfold tok_loop in H. simp_opt.
  match goal with x : Z * (Z * St) |- _ => destruct x as [q [b s]] end. simp_opt.
  match goal with Hw : while_pp _ _ _ _ _ = _ |- _ =>
    eapply (while_pp_inv (fun s => I (snd s))) in Hw; [exact Hw| |done] end.
  intros ? c [b0 s0] [b1 s1] Hs0 Hb. simpl in *. destruct (c =? d); simp_opt; simpl; eauto.
Qed.

Section Invariant.
Context `{Klib}.

Lemma parse_port_info_wf buf rc info :
  parse_port_info buf port_info0 = Some (rc, info) -> 0 <= pi_num info <= MAX_PORT_RANGE_NUM.
Proof.
  set (I i := 0 <= pi_num i <= MAX_PORT_RANGE_NUM /\ length (range_list i) = 5%nat).
  assert (forall b port_str p i i', I i -> add_range port_str b p i = Some i' -> I i') as Hadd.
  { intros b port_str p i i' [Hi Hl] H1. unfold add_range in H1. simp_opt.
    match goal with x : Z * range_value |- _ => destruct x end. simp_opt.
    match goal with Hl : _ !! _ = Some _ |- _ => apply lookup_lt_Some in Hl end.
    unfold I, MAX_PORT_RANGE_NUM in *. simpl. rewrite length_insert. case_bool; lia. }
  intros H1. unfold parse_port_info in H1. simp_opt. case_match; simp_opt.
  { by unfold MAX_PORT_RANGE_NUM. }
  match goal with x : Z * Z * port_info |- _ => destruct x as [[p b] i] end. simp_opt.
  assert (I info) as [? _]; [|done].
  match goal with Ha : add_range _ _ _ _ = Some info |- _ => eapply Hadd; [|exact Ha] end.
  match goal with Hl : tok_loop _ _ _ _ = _ |- _ => apply (tok_loop_inv I) in Hl end; [done| |].
  - intros. by eapply Hadd.
  - split; [|done]. by vm_compute.
Qed.

Lemma parse_dict_wf buf es :
  parse_dict buf = Some es -> 1 <= Z.of_nat (length es) <= MAX_POS_INFO_PER_FEATURE.
Proof.
  assert (forall q st st', Z.of_nat (length (d_entries st)) <= MAX_POS_INFO_PER_FEATURE ->
    add_position q st = Some st' ->
    1 <= Z.of_nat (length (d_entries st')) <= MAX_POS_INFO_PER_FEATURE) as Hadd.
  { intros q st st' Hl H1. unfold add_position in H1. simp_opt.
    revert H1. case_match. case_bool; [|done]. intros [= <-]. simpl. rewrite length_app. simpl. lia. }
  intros H1. unfold parse_dict in H1. simp_opt.
  match goal with x : Z * Z * dict_st |- _ => destruct x as [[p b] i] end. simp_opt.
  eapply Hadd; [|done].
  eapply (tok_loop_inv (fun st => Z.of_nat (length (d_entries st)) <= MAX_POS_INFO_PER_FEATURE));
    [| |done]; [|done].
  intros ? ? st st' Hst Hd. unfold dict_token in Hd. simp_opt. eapply Hadd in Hd; [|done]. lia.
Qed.

Lemma add_app_feature_wf appid feature head rc head' :
  Forall node_wf head -> add_app_feature appid (cbuf 128 []) feature head = Some (rc, head') ->
  Forall node_wf head'.
Proof.
  intros Hh H1. unfold add_app_feature in H1. simp_opt.
  match goal with x : Z * Z * fields |- _ => destruct x as [[p b] i] end. simp_opt.
  case_match; simp_opt; [done|]. case_match; simp_opt; [done|].
  match goal with x : Z * port_info |- _ => destruct x as [? info] end. simp_opt.
  match goal with Hp : parse_port_info _ _ = _ |- _ => apply parse_port_info_wf in Hp end.
  match goal with Ha : __add_app_feature _ _ _ _ _ _ _ _ _ = _ |- _ =>
    unfold __add_app_feature in Ha; simp_opt end.
  match goal with Hd : parse_dict _ = _ |- _ => apply parse_dict_wf in Hd end.
  constructor; [|done]. unfold node_wf, pos_num. simpl. split; [|split; [|done]].
  - match goal with Hs : strcpy _ (cbuf 128 []) = Some _ |- _ => vm_compute in Hs end.
    simp_opt. match goal with Hc : cstr (_ :: _) = Some _ |- _ => by injection Hc end.
  - case_bool; auto.
Qed.

Lemma af_init_feature_wf junk line head head' :
  Forall node_wf head -> af_init_feature junk line head = Some head' -> Forall node_wf head'.
Proof.
  intros Hh H1. unfold af_init_feature in H1. simp_opt.
  case_match; simp_opt; [done|].
  match type of H1 with context [k_sscanf ?l ?f] =>
    destruct (k_sscanf_no_scanset l) as (out & Hk & Hout); rewrite Hk in H1 end.
  cbn [snd] in H1.
  assert (exists id, match out with
    | VInt i :: VStr s :: _ => (i, s) | VInt i :: _ => (i, []) | _ => (junk, []) end = (id, [])) as [id Hid].
  { destruct out as [|[] [|[] []]]; eauto; simpl in Hout; lia. }
  assert (forall fb b p h h', Forall node_wf h ->
    add_feature_token id (cbuf 128 []) fb b p h = Some h' -> Forall node_wf h') as Hact.
  { intros fb b p h h' Hwf Ha. unfold add_feature_token in Ha. simp_opt.
    match goal with x : Z * list feature_node |- _ => destruct x end. simp_opt.
    eapply add_app_feature_wf; [|done]. done. }
  rewrite Hid in H1. simp_opt.
  match goal with x : Z * (Z * Z) |- _ => destruct x as [? []] end. simp_opt.
  match goal with x : Z * Z * list feature_node |- _ => destruct x as [[p b] h] end. simp_opt.
  assert (Forall node_wf h) by (eapply tok_loop_inv; [|exact Hh|done]; eauto).
  destruct (negb (p =? b)); simp_opt; [by eapply Hact|done].
Qed.

Lemma feature_line_wf junk fb b p head head' :
  Forall node_wf head -> feature_line junk fb b p head = Some head' -> Forall node_wf head'.
Proof.
  intros Hh H1. unfold feature_line in H1. case_match; simp_opt; [done|].
  by eapply af_init_feature_wf.
Qed.

Lemma load_feature_config_nodes junk feature_buf head rc head' :
  Forall node_wf head -> load_feature_config junk feature_buf head = Some (rc, head') ->
  Forall node_wf head'.
Proof.
  intros Hh H1. destruct feature_buf as [fb|]; simpl in H1; simp_opt; [|done].
  match goal with x : Z * Z * list feature_node |- _ => destruct x as [[p b] h] end. simp_opt.
  eapply feature_line_wf; [|done]. eapply tok_loop_inv; [|exact Hh|done].
  intros. by eapply feature_line_wf.
Qed.

(** The loader scans the file for a NUL that the allocation does not hold:
    with file contents free of NUL, it reads past the allocation. *)
Theorem load_feature_config_overread junk feature_buf head :
  Forall (fun c => c <> 0) feature_buf ->
  load_feature_config junk (Some feature_buf) head = None.
Proof.
  intros Hb. simpl. unfold tok_loop. by rewrite while_pp_no_nul.
Qed.

End Invariant.

(** ** Correctness of the loader *)

(** A port satisfies a list of ranges: outside every negated one when there is
    one, else inside one of them. *)
Definition ports_allow (rs : list range_text) (port : Z) : bool :=
  let inside r := (digits_val 10 (rt_lo r) <=? port) &&
                  (port <=? digits_val 10 (default (rt_lo r) (rt_hi r))) in
  if existsb rt_not rs then forallb (fun r => negb (rt_not r && inside r)) rs
  else existsb inside rs.

Lemma existsb_map {A B} (f : A -> B) (p : B -> bool) l :
  existsb p (map f l) = existsb (fun x => p (f x)) l.
Proof. induction l as [|x l IH]; simpl; [done|]. by rewrite IH. Qed.

Lemma negb_existsb {A} (p : A -> bool) l : negb (existsb p l) = forallb (fun x => negb (p x)) l.
Proof. induction l as [|x l IH]; simpl; [done|]. by rewrite negb_orb, IH. Qed.

Lemma af_match_port_parsed rs port :
  rs <> [] -> af_match_port (ports_parsed (map range_of rs)) port = ports_allow rs port.
Proof.
  intros Hne. unfold af_match_port, ports_parsed, ports_allow. cbn [pi_num range_list].
  rewrite (proj2 (Z.eqb_neq _ 0)) by (destruct rs; simpl; [done|lia]).
  rewrite Nat2Z.id, take_app_length, !existsb_map, <- negb_existsb.
  done.
Qed.

(** Parsing a printed list of at most 5 port ranges from a buffer that
    holds it succeeds, and matching against the result is membership in the
    ranges as written (negated ranges take over when there is one). *)
Theorem port_list_decides `{KlibLaws} r rs n port :
  Forall range_ok (r :: rs) -> (length rs < 5)%nat ->
  (length (print_ports r rs) < n)%nat -> (n <= 128)%nat ->
  exists info, parse_port_info (cbuf n (print_ports r rs)) port_info0 = Some (0, info) /\
    af_match_port info port = ports_allow (r :: rs) port.
Proof.
  intros. eexists. split.
  - rewrite parse_port_info_spec by done. by rewrite decide_True by (simpl; lia).
  - by apply af_match_port_parsed.
Qed.

(** C20: a feature string within the sizes of the loader's buffers is loaded as
    the node it denotes, in front of the nodes already there. *)
Theorem feature_roundtrip `{KlibLaws} appid name nm f n head :
  feature_ok f -> cstr name = Some nm -> (length nm < 64)%nat ->
  (length (print_feature f) < n)%nat ->
  add_app_feature appid name (cbuf n (print_feature f)) head =
  Some (0, node_of appid nm f :: head).
Proof.
  intros [Hf Hn]%feature_ok_form ? ? ?. erewrite add_app_feature_spec by done.
  by rewrite decide_True.
Qed.

(** C27: the loader never compares the number of port ranges or of dictionary
    positions with the arrays it stores them in.  A feature string whose parts
    are well formed and fit the text buffers ([feature_form]) therefore makes
    [add_app_feature] write outside a node's arrays exactly when it lists more
    than 5 port ranges or more than 16 positions, and both can happen: the text
    buffers have room for 8 ranges and 30 positions.  No other object is
    overrun on the way. *)
Theorem feature_overrun `{KlibLaws} appid name nm f n head :
  feature_form f -> cstr name = Some nm -> (length nm < 64)%nat ->
  (length (print_feature f) < n)%nat ->
  add_app_feature appid name (cbuf n (print_feature f)) head = None <->
  (5 < length (ft_ports f))%nat \/ (16 < length (ft_dict f))%nat.
Proof.
  intros. erewrite add_app_feature_spec by done. unfold feature_fits.
  case_decide; (split; [|]); intros; done || lia || (destruct_or?; lia).
Qed.

Lemma cstr_no_nul s : Forall (fun c => c <> 0) s -> cstr s = None.
Proof.
  induction 1 as [|c s Hc _ IH]; simpl; [done|]. apply Z.eqb_neq in Hc. by rewrite Hc, IH.
Qed.

(** The length check admits a line of exactly 256 bytes, which fills the
    line buffer and leaves no room for the NUL: its reader runs off the buffer. *)
Theorem feature_line_256_overread `{Klib} junk feature_buf begin s x head :
  at_ feature_buf begin = s ++ x -> length s = 256%nat -> Forall (fun c => c <> 0) s ->
  feature_line junk feature_buf begin (begin + 256) head = None.
Proof.
  intros Ha Hl Hs. unfold feature_line, MIN_FEATURE_LINE_LEN, MAX_FEATURE_LINE_LEN.
  replace (begin + 256 - begin) with 256 by lia. cbn [Z.ltb Z.compare Pos.compare Pos.compare_cont orb].
  rewrite Ha, strncpy_cbuf by (done || lia). cbn [mbind option_bind].
  unfold af_init_feature, cbuf. rewrite Hl, Nat.sub_diag, app_nil_r. by rewrite cstr_no_nul.
Qed.

(** ** Witnesses, over the reference library *)

Import KlibRef.

Definition ports_demo : list range_text :=
  [mkRangeText false (bytes_of "8000") (Some (bytes_of "8010"))].
Definition range_443 : range_text := mkRangeText false (bytes_of "443") None.
Definition feature_demo : feature_text :=
  mkFeature true [] (range_443 :: ports_demo) (bytes_of "^www.qq.com") []
    [mkPosText (bytes_of "0") (bytes_of "1f")].

Lemma range_443_ok : Forall range_ok (range_443 :: ports_demo).
Proof.
  repeat constructor; vm_compute; congruence.
Qed.

Lemma feature_demo_ok : feature_ok feature_demo.
Proof.
  split.
  all: lazymatch goal with
    | |- (_ < _)%nat => vm_compute; lia
    | |- (_ <= _)%nat => vm_compute; lia
    | |- _ \/ _ => by left
    | |- Forall range_ok _ => apply range_443_ok
    | |- token _ _ => repeat constructor; vm_compute; congruence
    | |- Forall pos_ok _ => repeat constructor; vm_compute; congruence
    | |- _ => repeat constructor
    end.
Qed.

Lemma port_list_decides_witness :
  exists info, parse_port_info (cbuf 16 (bytes_of "443|8000-8010")) port_info0 = Some (0, info) /\
    af_match_port info 8001 = true.
Proof.
  destruct (port_list_decides range_443 ports_demo 16 8001 range_443_ok) as (info & H1 & H2);
    [vm_compute; lia..|].
  exists info. split; [exact H1|exact H2].
Defined.

Lemma feature_roundtrip_witness :
  add_app_feature 1001 (cbuf 128 []) (cbuf 128 (bytes_of "tcp;;443|8000-8010;^www.qq.com;;0:1f")) [] =
  Some (0, [node_of 1001 [] feature_demo]).
Proof.
  apply (feature_roundtrip 1001 (cbuf 128 []) [] feature_demo 128 [] feature_demo_ok);
    vm_compute; [reflexivity|lia..].
Defined.

(** Six ports, and seventeen times the position 0. *)
Definition six_ports : feature_text :=
  mkFeature true [] (replicate 6 (mkRangeText false (bytes_of "1") None)) [] [] [].
Definition many_positions : feature_text :=
  mkFeature false [] [] [] [] (replicate 17 (mkPosText (bytes_of "0") (bytes_of "1"))).

Ltac form_tac :=
  split; simpl;
  lazymatch goal with
  | |- (_ < _)%nat => vm_compute; lia
  | |- _ \/ _ => by left
  | |- _ => repeat apply Forall_cons_2; try apply Forall_nil;
      first [vm_compute; lia|repeat constructor; vm_compute; congruence]
  end.

Lemma six_ports_form : feature_form six_ports.
Proof. form_tac. Qed.

Lemma many_positions_form : feature_form many_positions.
Proof. form_tac. Qed.

(** The ports run over the 5 slots, the positions over the 16; neither does the
    feature of [feature_roundtrip_witness]. *)
Lemma feature_overrun_witness :
  add_app_feature 1 (cbuf 128 []) (cbuf 128 (bytes_of "tcp;;1|1|1|1|1|1;;;")) [] = None /\
  add_app_feature 1 (cbuf 128 []) (cbuf 128 (print_feature many_positions)) [] = None /\
  add_app_feature 1 (cbuf 128 []) (cbuf 128 (print_feature feature_demo)) [] <> None.
Proof.
  split_and!.
  - apply (feature_overrun 1 (cbuf 128 []) [] six_ports 128 [] six_ports_form);
      [reflexivity|simpl; lia|vm_compute; lia|left; vm_compute; lia].
  - apply (feature_overrun 1 (cbuf 128 []) [] many_positions 128 [] many_positions_form);
      [reflexivity|simpl; lia|vm_compute; lia|right; vm_compute; lia].
  - intros Ho. apply (feature_overrun 1 (cbuf 128 []) [] feature_demo 128 []
      (proj1 (feature_ok_form _ feature_demo_ok))) in Ho;
      [|reflexivity|simpl; lia|vm_compute; lia].
    vm_compute in Ho. lia.
Defined.

Definition file_demo : list Z :=
  bytes_of "1001 qq:[tcp;;443;qq.com;;,udp;;!53;;;0:02|3:1f]" ++ [10; 0].

Lemma load_feature_config_overread_witness :
  load_feature_config 0 (Some (bytes_of "1001 qq:[tcp;;443;qq.com;;]")) [] = None.
Proof.
  apply load_feature_config_overread. repeat constructor; vm_compute; congruence.
Defined.

Lemma feature_line_256_overread_witness :
  feature_line 0 (replicate 256 97 ++ [10; 0]) 0 256 [] = None.
Proof.
  apply (feature_line_256_overread 0 _ 0 (replicate 256 97) [10; 0] []);
    [vm_compute; reflexivity..|]. apply Forall_replicate. lia.
Defined.

(** Six ranges fit the 16-byte destination field but not the 5 slots. *)
Example six_port_ranges_overflow :
  parse_port_info (cbuf 16 (bytes_of "1|2|3|4|5|6")) port_info0 = None.
Proof. vm_compute. reflexivity. Qed.

End Feature.
