(* ===== verification/Json.v ===== *)
(** * Json: the JSON library of the kernel module

    Models src/oaf/src/cJSON.c: the parser, the printer, [cJSON_Minify], the
    item accessors and the constructors.  A pointer into a text is the rest of
    the object it points into, so a read past the object is [None]; a function
    that returns a possibly NULL pointer has result [option (option _)], the
    outer [None] for undefined behaviour and the inner one for NULL.
    Allocations are taken to succeed; that every write stays inside its
    allocation is part of the model of the string parser. *)

From S2P Require Import Prelude Libc KUtils.

Import Libc KUtils.

Module Json.

Definition cJSON_False : Z := 0.
Definition cJSON_True : Z := 1.
Definition cJSON_NULL : Z := 2.
Definition cJSON_Number : Z := 3.
Definition cJSON_String : Z := 4.
Definition cJSON_Array : Z := 5.
Definition cJSON_Object : Z := 6.

(** [cJSON]: the [child] chain is the list of its items. *)
Inductive cJSON := Item (type valueint : Z) (valuestring string : option (list Z))
                        (child : list cJSON).

Definition type_ (c : cJSON) : Z := let 'Item t _ _ _ _ := c in t.
Definition valueint (c : cJSON) : Z := let 'Item _ v _ _ _ := c in v.
Definition valuestring (c : cJSON) : option (list Z) := let 'Item _ _ s _ _ := c in s.
Definition string_ (c : cJSON) : option (list Z) := let 'Item _ _ _ s _ := c in s.
Definition child (c : cJSON) : list cJSON := let 'Item _ _ _ _ l := c in l.
Definition set_string (s : option (list Z)) (c : cJSON) : cJSON :=
  let 'Item t v vs _ l := c in Item t v vs s l.

(** ** The parser *)

Section Parser.
Context `{Klib}.

(** [signed_char]: whether plain [char] is signed on the target; [uc0]: what
    the uninitialised [uc] of [parse_string] holds. *)
Variable signed_char : bool.
Variable uc0 : Z.

Notation cval := (cval signed_char).

(** [skip]: the test [*in<=32] holds for the NUL too. *)
Fixpoint skip (inp : list Z) : option (list Z) :=
  match inp with
  | [] => None
  | c :: r => if cval c <=? 32 then skip r else Some inp
  end.

Fixpoint number_loop (n : Z) (num : list Z) : option (Z * list Z) :=
  match num with
  | [] => None
  | c :: r => if isdigit c then number_loop (s32 (n * 10 + (c - chr "0"))) r
              else Some (n, num)
  end.

(** [parse_number]: the value stored in [valueint] and the rest. *)
Definition parse_number (num : list Z) : option (Z * list Z) :=
  c ← num @! 0;
  let num := if c =? chr "-" then drop 1 num else num in
  c ← num @! 0;
  let num := if c =? chr "0" then drop 1 num else num in
  c ← num @! 0;
  if (chr "1" <=? c) && (c <=? chr "9") then number_loop 0 num else Some (0, num).

(** The first loop of [parse_string]: the size it reserves. *)
Fixpoint string_len (ptr : list Z) (len : Z) : option Z :=
  match ptr with
  | [] => None
  | c :: r =>
      if (c =? 34) || (cval c <=? 31) then Some len
      else if c =? 92 then
        match r with [] => None | _ :: r' => string_len r' (len + 1) end
      else string_len r (len + 1)
  end.

(** A code unit as UTF-8: the bytes and what is left in [uc]. *)
Definition utf8 (uc : Z) : list Z * Z :=
  if uc <? 0x80 then ([u8 uc], uc)
  else
    let low uc := Z.land (Z.lor uc 0x80) 0xBF in
    let uc1 := Z.shiftr uc 6 in
    if uc <? 0x800 then ([u8 (Z.lor uc1 0xC0); u8 (low uc)], uc1)
    else
      let uc2 := Z.shiftr uc1 6 in
      ([u8 (Z.lor uc2 0xE0); u8 (low uc1); u8 (low uc)], uc2).

(** The byte a one-letter escape stands for. *)
Definition unescape (c : Z) : Z :=
  if c =? chr "b" then 8 else if c =? chr "f" then 12 else if c =? chr "n" then 10
  else if c =? chr "r" then 13 else if c =? chr "t" then 9 else c.

(** The second loop; each turn consumes a byte, so fuel [S (length ptr)] is
    enough. *)
Fixpoint string_loop (fuel : nat) (ptr out : list Z) (uc : Z) : option (list Z * list Z) :=
  match fuel with
  | O => None
  | S fuel =>
      match ptr with
      | [] => None
      | c :: r =>
          if (c =? 34) || (cval c <=? 31) then Some (out, ptr)
          else if negb (c =? 92) then string_loop fuel r (out ++ [c]) uc
          else
            match r with
            | [] => None
            | e :: r' =>
                if e =? chr "u" then
                  s ← cstr r';
                  let uc := match sscanf s (bytes_of "%4x") with v :: _ => u32 v | [] => uc end in
                  let '(bs, uc) := utf8 uc in
                  string_loop fuel (drop 4 r') (out ++ bs) uc
                else string_loop fuel r' (out ++ [unescape e]) uc
            end
      end
  end.

(** [parse_string]: the string and the rest; the copy and its NUL must fit the
    [len + 1] bytes reserved. *)
Definition parse_string (str : list Z) : option (option (list Z * list Z)) :=
  c ← str @! 0;
  if negb (c =? 34) then Some None else
  len ← string_len (drop 1 str) 0;
  '(out, ptr) ← string_loop (S (length str)) (drop 1 str) [] uc0;
  if len <? Z.of_nat (length out) then None else
  c ← ptr @! 0;
  Some (Some (out, if c =? 34 then drop 1 ptr else ptr)).

Notation result := (option (option (cJSON * list Z))).

(** [strncmp(value, w, n) == 0] for a literal [w] of [n] bytes. *)
Fixpoint starts_with (value w : list Z) {struct w} : option bool :=
  match w with
  | [] => Some true
  | x :: w =>
      match value with
      | [] => None
      | c :: value => if c =? x then starts_with value w else Some false
      end
  end.

(** [skip(parse_value(child, skip(value)))]. *)
Definition skipped (parse : list Z -> result) (value : list Z) : result :=
  value ← skip value;
  r ← parse value;
  match r with
  | None => Some None
  | Some (c, value) => value ← skip value; Some (Some (c, value))
  end.

(** The elements of an array, from the first one on: the items and the text at
    the closing bracket; NULL when it is missing. *)
Fixpoint parse_elems (pv : list Z -> result) (n : nat) (value : list Z)
    : option (option (list cJSON * list Z)) :=
  match n with
  | O => None
  | S n =>
      r ← skipped pv value;
      match r with
      | None => Some None
      | Some (c, value) =>
          x ← value @! 0;
          if x =? chr "," then
            r ← parse_elems pv n (drop 1 value);
            Some (match r with None => None | Some (cs, value) => Some (c :: cs, value) end)
          else if x =? chr "]" then Some (Some ([c], drop 1 value))
          else Some None
      end
  end.

(** A member: name, colon, value. *)
Definition parse_member (pv : list Z -> result) (value : list Z) : result :=
  value ← skip value;
  r ← parse_string value;
  match r with
  | None => Some None
  | Some (name, value) =>
      value ← skip value;
      x ← value @! 0;
      if negb (x =? chr ":") then Some None else
      r ← skipped pv (drop 1 value);
      Some (match r with None => None | Some (c, value) => Some (set_string (Some name) c, value) end)
  end.

Fixpoint parse_members (pv : list Z -> result) (n : nat) (value : list Z)
    : option (option (list cJSON * list Z)) :=
  match n with
  | O => None
  | S n =>
      r ← parse_member pv value;
      match r with
      | None => Some None
      | Some (c, value) =>
          x ← value @! 0;
          if x =? chr "," then
            r ← parse_members pv n (drop 1 value);
            Some (match r with None => None | Some (cs, value) => Some (c :: cs, value) end)
          else if x =? chr "}" then Some (Some ([c], drop 1 value))
          else Some None
      end
  end.

Definition parse_array (pv : list Z -> result) (n : nat) (value : list Z) : result :=
  value ← skip (drop 1 value);
  x ← value @! 0;
  if x =? chr "]" then Some (Some (Item cJSON_Array 0 None None [], drop 1 value)) else
  r ← parse_elems pv n value;
  Some (match r with None => None | Some (cs, value) =>
          Some (Item cJSON_Array 0 None None cs, value) end).

Definition parse_object (pv : list Z -> result) (n : nat) (value : list Z) : result :=
  value ← skip (drop 1 value);
  x ← value @! 0;
  if x =? chr "}" then Some (Some (Item cJSON_Object 0 None None [], drop 1 value)) else
  r ← parse_members pv n value;
  Some (match r with None => None | Some (cs, value) =>
          Some (Item cJSON_Object 0 None None cs, value) end).

(** [parse_value] on a non-NULL text. *)
Fixpoint parse_value (fuel : nat) (value : list Z) : result :=
  match fuel with
  | O => None
  | S fuel =>
      b ← starts_with value (bytes_of "null");
      if (b : bool) then Some (Some (Item cJSON_NULL 0 None None [], drop 4 value)) else
      b ← starts_with value (bytes_of "false");
      if (b : bool) then Some (Some (Item cJSON_False 0 None None [], drop 5 value)) else
      b ← starts_with value (bytes_of "true");
      if (b : bool) then Some (Some (Item cJSON_True 1 None None [], drop 4 value)) else
      c ← value @! 0;
      if c =? 34 then
        r ← parse_string value;
        Some (match r with None => None
              | Some (s, value) => Some (Item cJSON_String 0 (Some s) None [], value) end)
      else if (c =? chr "-") || isdigit c then
        '(n, value) ← parse_number value;
        Some (Some (Item cJSON_Number n None None [], value))
      else if c =? chr "[" then parse_array (parse_value fuel) fuel value
      else if c =? chr "{" then parse_object (parse_value fuel) fuel value
      else Some None
  end.

(** [cJSON_Parse]: what follows the value is not looked at.  Every nested value
    is shorter than the text around it, so the length of the text is enough
    fuel. *)
Definition cJSON_Parse (value : list Z) : option (option cJSON) :=
  value ← skip value;
  r ← parse_value (S (length value)) value;
  Some (match r with None => None | Some (c, _) => Some c end).

End Parser.

(** ** Accessors *)

(** [strcasecmp] is 0: equal up to the case of ASCII letters. *)
Definition tolower (c : Z) : Z := if (65 <=? c) && (c <=? 90) then c + 32 else c.
Definition strcase_eq (a b : list Z) : bool := bool_decide (map tolower a = map tolower b).

Definition cJSON_GetArraySize (array : cJSON) : Z := Z.of_nat (length (child array)).
Definition cJSON_GetArrayItem (array : cJSON) (item : Z) : option cJSON :=
  child array !! Z.to_nat item.

(** [cJSON_GetObjectItem]; an unnamed item on the way makes [strcasecmp] read
    through NULL. *)
Fixpoint find_item (cs : list cJSON) (name : list Z) : option (option cJSON) :=
  match cs with
  | [] => Some None
  | c :: cs =>
      s ← string_ c;
      if strcase_eq s name then Some (Some c) else find_item cs name
  end.
Definition cJSON_GetObjectItem (object : cJSON) (name : list Z) : option (option cJSON) :=
  find_item (child object) name.

(** ** Constructors *)

Definition cJSON_CreateNumber (num : Z) : cJSON := Item cJSON_Number (s32 num) None None [].
Definition cJSON_CreateString (s : list Z) : cJSON := Item cJSON_String 0 (Some s) None [].
Definition cJSON_CreateArray : cJSON := Item cJSON_Array 0 None None [].
Definition cJSON_CreateObject : cJSON := Item cJSON_Object 0 None None [].
Definition cJSON_AddItemToArray (array item : cJSON) : cJSON :=
  let 'Item t v vs s l := array in Item t v vs s (l ++ [item]).
Definition cJSON_AddItemToObject (object : cJSON) (name : list Z) (item : cJSON) : cJSON :=
  cJSON_AddItemToArray object (set_string (Some name) item).
Definition cJSON_AddNumberToObject (object : cJSON) (name : list Z) (n : Z) : cJSON :=
  cJSON_AddItemToObject object name (cJSON_CreateNumber n).
Definition cJSON_AddStringToObject (object : cJSON) (name s : list Z) : cJSON :=
  cJSON_AddItemToObject object name (cJSON_CreateString s).

(** ** The printer *)

(** [sprintf(ptr, s)]: the text is used as a format without arguments; a
    conversion other than [%%] reads an argument that is not there. *)
Fixpoint sprintf_text (s : list Z) : option (list Z) :=
  match s with
  | [] => Some []
  | c :: s' =>
      if c =? chr "%" then
        match s' with
        | d :: s'' => if d =? chr "%" then r ← sprintf_text s''; Some (d :: r) else None
        | [] => None
        end
      else r ← sprintf_text s'; Some (c :: r)
  end.

Definition print_number (n : Z) : list Z := dec n.

Section Printer.
Variable signed_char : bool.
Notation cval := (cval signed_char).

(** The bytes printed for one byte of a string; other control bytes vanish. *)
Definition escape (c : Z) : list Z :=
  if (31 <? cval c) && negb (c =? 34) && negb (c =? 92) then [c]
  else if c =? 92 then [92; 92] else if c =? 34 then [92; 34]
  else if c =? 8 then [92; chr "b"] else if c =? 12 then [92; chr "f"]
  else if c =? 10 then [92; chr "n"] else if c =? 13 then [92; chr "r"]
  else if c =? 9 then [92; chr "t"] else [].

Definition print_string_ptr (str : list Z) : list Z :=
  34 :: concat (map escape str) ++ [34].

Definition tabs (n : Z) : list Z := replicate (Z.to_nat n) 9.

(** The loops of [print_array] and [print_object] over the children. *)
Section Loops.
Variable print_child : cJSON -> option (list Z).

Fixpoint print_elems (cs : list cJSON) : option (list Z) :=
  match cs with
  | [] => Some []
  | c :: cs' =>
      ret ← print_child c;
      ret ← sprintf_text ret;
      rest ← print_elems cs';
      Some (ret ++ (if cs' then [] else bytes_of ", ") ++ rest)
  end.

Fixpoint print_members (depth : Z) (cs : list cJSON) : option (list Z) :=
  match cs with
  | [] => Some []
  | c :: cs' =>
      name ← string_ c;
      ret ← print_child c;
      str ← sprintf_text (print_string_ptr name);
      ret ← sprintf_text ret;
      rest ← print_members depth cs';
      Some (tabs depth ++ str ++ [chr ":"; 9] ++ ret ++
            (if cs' then [] else [chr ","]) ++ [10] ++ rest)
  end.
End Loops.

(** [print_value(item, depth)]: [None] for undefined behaviour or NULL (no item
    of the module prints as NULL). *)
Fixpoint print_value (item : cJSON) (depth : Z) : option (list Z) :=
  let 'Item type vi vs _ cs := item in
  if type =? cJSON_NULL then Some (bytes_of "null")
  else if type =? cJSON_False then Some (bytes_of "false")
  else if type =? cJSON_True then Some (bytes_of "true")
  else if type =? cJSON_Number then Some (print_number vi)
  else if type =? cJSON_String then s ← vs; Some (print_string_ptr s)
  else if type =? cJSON_Array then
    body ← print_elems (fun c => print_value c (depth + 1)) cs;
    Some (chr "[" :: body ++ [chr "]"])
  else if type =? cJSON_Object then
    body ← print_members (fun c => print_value c (depth + 1)) (depth + 1) cs;
    Some (chr "{" :: 10 :: body ++ tabs depth ++ [chr "}"])
  else None.

Definition cJSON_Print (item : cJSON) : option (list Z) := print_value item 0.

End Printer.

(** ** [cJSON_Minify]

    The text is rewritten in place, the output never ahead of the input; the
    functions give the output and the unread input. *)

Fixpoint skip_oneline_comment (inp : list Z) : list Z :=
  match inp with
  | [] => []
  | c :: r => if c =? 10 then r else skip_oneline_comment r
  end.

Fixpoint skip_multiline_comment (inp : list Z) : list Z :=
  match inp with
  | [] => []
  | c :: r =>
      match r with
      | d :: r' => if (c =? chr "*") && (d =? chr "/") then r' else skip_multiline_comment r
      | [] => []
      end
  end.

(** The body of a string, after its opening quote. *)
Fixpoint minify_string (inp : list Z) : list Z * list Z :=
  match inp with
  | [] => ([], [])
  | c :: r =>
      if c =? 34 then ([34], r)
      else if c =? 92 then
        match r with
        | d :: r' => if d =? 34 then let '(o, r) := minify_string r' in (c :: d :: o, r)
                     else let '(o, r) := minify_string r in (c :: o, r)
        | [] => ([c], [])
        end
      else let '(o, r) := minify_string r in (c :: o, r)
  end.

Fixpoint minify_loop (fuel : nat) (json : list Z) : list Z :=
  match fuel, json with
  | S fuel, c :: r =>
      if (c =? 32) || (c =? 9) || (c =? 13) || (c =? 10) then minify_loop fuel r
      else if c =? chr "/" then
        match r with
        | d :: r' =>
            if d =? chr "/" then minify_loop fuel (skip_oneline_comment r')
            else if d =? chr "*" then minify_loop fuel (skip_multiline_comment r')
            else minify_loop fuel r
        | [] => []
        end
      else if c =? 34 then
        let '(o, r) := minify_string r in 34 :: o ++ minify_loop fuel r
      else c :: minify_loop fuel r
  | _, _ => []
  end.
Definition cJSON_Minify (json : list Z) : list Z := minify_loop (length json) json.

(** ** Values and their text *)

Inductive jval :=
  | JNull | JBool (b : bool) | JNum (n : Z) | JStr (s : list Z)
  | JArr (l : list jval) | JObj (l : list (list Z * jval)).

Section JvalInd.
Variable P : jval -> Prop.
Hypotheses (Hnull : P JNull) (Hbool : forall b, P (JBool b)) (Hnum : forall n, P (JNum n))
  (Hstr : forall s, P (JStr s)) (Harr : forall l, Forall P l -> P (JArr l))
  (Hobj : forall l, Forall (fun kv => P (snd kv)) l -> P (JObj l)).
Fixpoint jval_ind' (v : jval) : P v :=
  match v with
  | JNull => Hnull | JBool b => Hbool b | JNum n => Hnum n | JStr s => Hstr s
  | JArr l => Harr l ((fix go l := match l return Forall P l with
      | [] => Forall_nil_2 _ | v :: l => Forall_cons_2 _ _ _ (jval_ind' v) (go l) end) l)
  | JObj l => Hobj l ((fix go l := match l return Forall (fun kv => P (snd kv)) l with
      | [] => Forall_nil_2 _
      | kv :: l => Forall_cons_2 _ _ _ (jval_ind' (snd kv)) (go l) end) l)
  end.
End JvalInd.

(** The item the constructors build for a value. *)
Fixpoint item_of (name : option (list Z)) (v : jval) : cJSON :=
  match v with
  | JNull => Item cJSON_NULL 0 None name []
  | JBool b => if b then Item cJSON_True 1 None name [] else Item cJSON_False 0 None name []
  | JNum n => Item cJSON_Number n None name []
  | JStr s => Item cJSON_String 0 (Some s) name []
  | JArr l => Item cJSON_Array 0 None name (map (item_of None) l)
  | JObj l => Item cJSON_Object 0 None name (map (fun kv => item_of (Some (fst kv)) (snd kv)) l)
  end.

(** Bytes that survive printing and parsing: printable ASCII other than the
    percent sign, and the control bytes with an escape letter. *)
Definition text_byte (c : Z) : Prop :=
  (32 <= c <= 126 /\ c <> chr "%") \/ c = 8 \/ c = 9 \/ c = 10 \/ c = 12 \/ c = 13.

(** Literals of the source. *)
Lemma name_ok s : forallb (fun c => (32 <=? c) && (c <=? 126) && negb (c =? 37)) (bytes_of s) = true ->
  Forall text_byte (bytes_of s).
Proof.
  induction (bytes_of s) as [|c l IH]; simpl; intros Hl; [constructor|].
  apply andb_true_iff in Hl as [Hc Hl]. constructor; [|by apply IH].
  unfold text_byte. chr_simpl. lia.
Qed.

(** MAC addresses as text. *)
(** The bytes of addresses: digits, lower-case letters, dots and colons. *)
Definition addr_byte (c : Z) : Prop := 46 <= c <= 58 \/ 97 <= c <= 102.

Lemma addr_text c : addr_byte c -> text_byte c.
Proof. unfold addr_byte, text_byte. chr_simpl. lia. Qed.

Lemma hex_digit_byte d : 0 <= d < 16 -> addr_byte (hex_digit d).
Proof. intros Hd. unfold hex_digit, addr_byte. case_bool; lia. Qed.

Lemma hex2_bytes b : 0 <= b < 256 -> Forall addr_byte (hex2 b).
Proof.
  intros Hb. apply Forall_cons_2; [|apply Forall_cons_2; [|constructor]]; apply hex_digit_byte.
  - split; [apply Z.div_pos; lia|apply Z.div_lt_upper_bound; lia].
  - apply Z.mod_pos_bound. lia.
Qed.

Lemma mac_str_addr mac : Forall (fun b => 0 <= b < 256) mac -> Forall addr_byte (mac_str mac).
Proof.
  induction 1 as [|b mac Hb Hmac IH]; [constructor|]. destruct mac as [|b' mac].
  - by apply hex2_bytes.
  - change (mac_str (b :: b' :: mac)) with (hex2 b ++ chr ":" :: mac_str (b' :: mac)).
    apply Forall_app_2; [by apply hex2_bytes|]. constructor; [|done].
    unfold addr_byte. chr_simpl. lia.
Qed.

Lemma mac_str_bytes mac : Forall (fun b => 0 <= b < 256) mac -> Forall text_byte (mac_str mac).
Proof. intros Hm. apply (Forall_imp _ _ _ (mac_str_addr mac Hm)), addr_text. Qed.

Fixpoint jval_ok (v : jval) : Prop :=
  match v with
  | JNull | JBool _ => True
  | JNum n => 0 <= n < 2 ^ 31
  | JStr s => Forall text_byte s
  | JArr l => (fix go l := match l with [] => True | v :: l => jval_ok v /\ go l end) l
  | JObj l => (fix go l := match l with [] => True
      | kv :: l => (Forall text_byte (fst kv) /\ jval_ok (snd kv)) /\ go l end) l
  end.

Lemma jval_ok_arr l : jval_ok (JArr l) <-> Forall jval_ok l.
Proof.
  induction l as [|v l IH]; [split; constructor|]. rewrite Forall_cons, <- IH. done.
Qed.

Lemma jval_ok_obj l :
  jval_ok (JObj l) <-> Forall (fun kv => Forall text_byte (fst kv) /\ jval_ok (snd kv)) l.
Proof.
  induction l as [|v l IH]; [split; constructor|]. rewrite Forall_cons, <- IH. done.
Qed.

(** The number of values nested in a value. *)
Fixpoint size (v : jval) : nat :=
  match v with
  | JArr l => S ((fix go l := match l with [] => 0 | v :: l => S (size v) + go l end) l)%nat
  | JObj l => S ((fix go l := match l with [] => 0 | kv :: l => S (size (snd kv)) + go l end) l)%nat
  | _ => 1%nat
  end.

Section Text.
Variable signed_char : bool.
Variable pretty : bool.
Notation escape := (escape signed_char).
Notation print_string_ptr := (print_string_ptr signed_char).

(** The blanks between tokens. *)
Definition gap (w : list Z) : list Z := if pretty then w else [].

(** What the printer makes of a value ([pretty]), and the same tokens without
    the blanks between them. *)
Fixpoint gtext (v : jval) (depth : Z) : list Z :=
  match v with
  | JNull => bytes_of "null"
  | JBool b => bytes_of (if b then "true" else "false")
  | JNum n => dec n
  | JStr s => print_string_ptr s
  | JArr l => chr "[" :: (fix go l := match l with [] => []
      | v :: l' => gtext v (depth + 1) ++ (if l' then [] else chr "," :: gap [32]) ++ go l' end) l
      ++ [chr "]"]
  | JObj l => chr "{" :: gap [10] ++ (fix go l := match l with [] => []
      | kv :: l' => gap (tabs (depth + 1)) ++ print_string_ptr (fst kv) ++ chr ":" :: gap [9] ++
          gtext (snd kv) (depth + 1) ++ (if l' then [] else [chr ","]) ++ gap [10] ++ go l' end) l
      ++ gap (tabs depth) ++ [chr "}"]
  end.

Fixpoint elems_text (depth : Z) (l : list jval) : list Z :=
  match l with
  | [] => []
  | v :: l' => gtext v depth ++ (if l' then [] else chr "," :: gap [32]) ++ elems_text depth l'
  end.
Fixpoint members_text (depth : Z) (l : list (list Z * jval)) : list Z :=
  match l with
  | [] => []
  | kv :: l' => gap (tabs depth) ++ print_string_ptr (fst kv) ++ chr ":" :: gap [9] ++
      gtext (snd kv) depth ++ (if l' then [] else [chr ","]) ++ gap [10] ++ members_text depth l'
  end.

Lemma text_arr l d : gtext (JArr l) d = chr "[" :: elems_text (d + 1) l ++ [chr "]"].
Proof. simpl. do 2 f_equal. induction l as [|v l IH]; simpl; [done|]. by rewrite IH. Qed.
Lemma text_obj l d :
  gtext (JObj l) d =
  chr "{" :: gap [10] ++ members_text (d + 1) l ++ gap (tabs d) ++ [chr "}"].
Proof.
  simpl. do 3 f_equal. induction l as [|v l IH]; simpl; [done|]. by rewrite IH.
Qed.

End Text.

Notation text signed_char := (gtext signed_char true).
Notation compact signed_char v := (gtext signed_char false v 0).

Section Printer.
Variable signed_char : bool.
Notation escape := (escape signed_char).
Notation print_string_ptr := (print_string_ptr signed_char).
Notation text := (text signed_char).
Notation elems_text := (elems_text signed_char true).
Notation members_text := (members_text signed_char true).

(** *** The printer *)

Lemma sprintf_text_id s : Forall (fun c => c <> chr "%") s -> sprintf_text s = Some s.
Proof.
  induction 1 as [|c s Hc _ IH]; simpl; [done|]. apply Z.eqb_neq in Hc. by rewrite Hc, IH.
Qed.

Notation no_percent := (Forall (fun c => c <> chr "%")).

Lemma escape_text c : text_byte c -> no_percent (escape c).
Proof.
  intros Hc. unfold escape, Json.escape.
  destruct Hc as [[Hc Hp]|[->|[->|[->|[->| ->]]]]];
    repeat case_bool; repeat constructor; try done; chr_simpl; lia.
Qed.

Lemma print_string_no_percent s : Forall text_byte s -> no_percent (print_string_ptr s).
Proof.
  intros Hs. constructor; [done|]. apply Forall_app_2; [|by repeat constructor].
  induction Hs; simpl; [constructor|]. apply Forall_app_2; [by apply escape_text|done].
Qed.

Lemma digits_isdigit fuel z : 0 <= z -> Forall (fun c => isdigit c = true) (digits fuel z).
Proof.
  revert z. induction fuel as [|fuel IH]; intros z Hz; simpl; [constructor|].
  case_bool; [constructor; [|constructor]; char_lia|].
  apply Forall_app_2; [apply IH; by apply Z.div_pos|].
  pose proof (Z.mod_pos_bound z 10). constructor; [char_lia|constructor].
Qed.

Lemma dec_no_percent z : no_percent (dec z).
Proof.
  unfold dec. case_bool; [constructor; [done|]|].
  all: eapply Forall_imp; [apply digits_isdigit; lia|]; intros c Hc; char_lia.
Qed.

Lemma tabs_no_percent d : no_percent (tabs d).
Proof. by apply Forall_replicate. Qed.

Lemma elems_no_percent d l :
  Forall (fun v => no_percent (text v d)) l -> no_percent (elems_text d l).
Proof.
  induction 1 as [|v l Hv Hl IH]; simpl; [constructor|]. repeat apply Forall_app_2; [done| |done].
  destruct l; by repeat constructor.
Qed.

Lemma members_no_percent d l :
  Forall (fun kv => Forall text_byte (fst kv) /\ no_percent (text (snd kv) d)) l ->
  no_percent (members_text d l).
Proof.
  induction 1 as [|kv l [Hk Hv] Hl IH]; [constructor|]. cbn [members_text].
  unfold gap. do 2 (apply Forall_app_2; [auto using tabs_no_percent, print_string_no_percent|]).
  do 2 (apply Forall_cons_2; [done|]). apply Forall_app_2; [done|].
  apply Forall_app_2; [destruct l; by repeat constructor|]. by apply Forall_cons_2.
Qed.

Lemma text_no_percent v d : jval_ok v -> no_percent (text v d).
Proof.
  revert d. induction v as [|b|n|s|l IH|l IH] using jval_ind'; intros d Hv.
  - by repeat constructor.
  - destruct b; by repeat constructor.
  - apply dec_no_percent.
  - by apply print_string_no_percent.
  - rewrite text_arr. constructor; [done|]. apply Forall_app_2; [|by repeat constructor].
    apply elems_no_percent. apply jval_ok_arr in Hv.
    rewrite Forall_forall in *. auto.
  - rewrite text_obj. do 2 (constructor; [done|]). apply Forall_app_2.
    + apply members_no_percent. apply jval_ok_obj in Hv.
      rewrite Forall_forall in *. intros kv Hkv. destruct (Hv kv Hkv). auto.
    + apply Forall_app_2; [apply tabs_no_percent|by repeat constructor].
Qed.

Lemma print_value_text v name d :
  jval_ok v -> print_value signed_char (item_of name v) d = Some (text v d).
Proof.
  revert name d. induction v as [|b|n|s|l IH|l IH] using jval_ind'; intros name d Hv.
  1-4: try destruct b; done.
  - rewrite text_arr. apply jval_ok_arr in Hv.
    assert (print_elems (fun c => print_value signed_char c (d + 1)) (map (item_of None) l) =
            Some (elems_text (d + 1) l)) as Hl.
    { induction l as [|v l IHl]; [done|]. inversion IH; inversion Hv; subst. cbn [map print_elems].
      rewrite H1 by done. cbn [mbind option_bind].
      rewrite sprintf_text_id by by apply text_no_percent. cbn [mbind option_bind].
      rewrite IHl by done. by destruct l. }
    cbn [item_of print_value]. by rewrite Hl.
  - rewrite text_obj. apply jval_ok_obj in Hv.
    assert (print_members signed_char (fun c => print_value signed_char c (d + 1)) (d + 1)
        (map (fun kv => item_of (Some (fst kv)) (snd kv)) l) =
      Some (members_text (d + 1) l)) as Hl.
    { induction l as [|[k v] l IHl]; [done|]. inversion IH; inversion Hv; subst.
      cbn [map print_members fst snd] in *.
      replace (string_ (item_of (Some k) v)) with (Some k) by by destruct v as [|[]| | | |].
      cbn [mbind option_bind]. rewrite H1 by tauto. cbn [mbind option_bind].
      rewrite (sprintf_text_id (print_string_ptr k)) by (apply print_string_no_percent; tauto).
      rewrite (sprintf_text_id (text v (d + 1))) by (apply text_no_percent; tauto).
      cbn [mbind option_bind]. rewrite IHl by done. by destruct l. }
    cbn [item_of print_value]. by rewrite Hl.
Qed.

End Printer.

(** ** Parsing the text back *)

Section ParseText.
Context `{Klib} (signed_char : bool) (uc0 : Z) (pretty : bool).
Notation cval := (cval signed_char).
Notation skip := (skip signed_char).
Notation escape := (escape signed_char).
Notation print_string_ptr := (print_string_ptr signed_char).
Notation text := (gtext signed_char pretty).
Notation gap := (gap pretty).
Notation parse_value := (parse_value signed_char uc0).

Lemma cval_ascii c : 0 <= c < 128 -> cval c = c.
Proof. intros. unfold Libc.cval. destruct signed_char; [|done]. apply s8_id. lia. Qed.

Definition blank (c : Z) : Prop := 0 <= c <= 32.

Lemma skip_blanks ws r : Forall blank ws -> skip (ws ++ r) = skip r.
Proof.
  induction 1 as [|c ws Hc _ IH]; [done|]. unfold blank in Hc. simpl.
  rewrite cval_ascii by lia. case_bool; [done|lia].
Qed.

Lemma skip_visible c r : 33 <= c < 128 -> skip (c :: r) = Some (c :: r).
Proof. intros Hc. simpl. rewrite cval_ascii by lia. case_bool; [lia|done]. Qed.

Lemma skip_blanks_visible ws c r :
  Forall blank ws -> 33 <= c < 128 -> skip (ws ++ c :: r) = Some (c :: r).
Proof. intros. rewrite skip_blanks by done. by apply skip_visible. Qed.

Lemma tabs_blank d : Forall blank (tabs d).
Proof. apply Forall_replicate. unfold blank. lia. Qed.

(** *** Strings *)

Lemma escape_cases c :
  text_byte c ->
  (escape c = [c] /\ c <> 34 /\ c <> 92 /\ 31 < cval c) \/
  (exists e, escape c = [92; e] /\ unescape e = c /\ e <> chr "u").
Proof.
  intros Hc. unfold text_byte in Hc.
  assert (0 <= c < 128) as Hr by (chr_simpl; lia).
  unfold escape, Json.escape. rewrite !(cval_ascii c Hr).
  destruct ((31 <? c) && negb (c =? 34) && negb (c =? 92)) eqn:E.
  - left. zify_bool. split_and!; try lia; done.
  - right. repeat (case_bool; [eexists; split_and!; [done|by subst|done]|]). exfalso. lia.
Qed.

Lemma string_len_text s rest n :
  Forall text_byte s ->
  string_len signed_char (concat (map escape s) ++ 34 :: rest) n =
  Some (n + Z.of_nat (length s)).
Proof.
  intros Hs. revert n. induction Hs as [|c s Hc _ IH]; intros n.
  { simpl. f_equal. lia. }
  cbn [map concat]. rewrite <- app_assoc.
  destruct (escape_cases c Hc) as [(-> & H1 & H2 & H3)|(e & -> & _ & _)]; simpl.
  - rewrite !(proj2 (Z.eqb_neq _ _)), (proj2 (Z.leb_gt _ _)) by done. simpl.
    rewrite IH. f_equal. lia.
  - rewrite cval_ascii by lia. simpl. rewrite IH. f_equal. lia.
Qed.

Lemma string_loop_text s rest out uc fuel :
  Forall text_byte s -> (length (concat (map escape s)) < fuel)%nat ->
  string_loop signed_char fuel (concat (map escape s) ++ 34 :: rest) out uc =
  Some (out ++ s, 34 :: rest).
Proof.
  intros Hs. revert out fuel. induction Hs as [|c s Hc _ IH]; intros out fuel Hf.
  { destruct fuel; simpl in *; [lia|]. by rewrite app_nil_r. }
  cbn [map concat] in *. rewrite length_app in Hf. rewrite <- app_assoc.
  destruct fuel as [|fuel]; [lia|].
  destruct (escape_cases c Hc) as [(He & H1 & H2 & H3)|(e & He & Hu & Hne)];
    rewrite He in *; simpl in *.
  - rewrite !(proj2 (Z.eqb_neq _ _)), (proj2 (Z.leb_gt _ _)) by done. simpl.
    rewrite IH by lia. by rewrite <- app_assoc.
  - rewrite cval_ascii by lia. simpl. rewrite (proj2 (Z.eqb_neq e _)) by done.
    rewrite IH by lia. by rewrite Hu, <- app_assoc.
Qed.

Lemma parse_string_text s rest :
  Forall text_byte s ->
  parse_string signed_char uc0 (print_string_ptr s ++ rest) = Some (Some (s, rest)).
Proof.
  intros Hs. unfold parse_string, print_string_ptr, Json.print_string_ptr.
  cbn [app]. rewrite rd_cons_0. cbn [mbind option_bind]. rewrite Z.eqb_refl. cbn [negb].
  change (drop 1 (34 :: ?l)) with l. rewrite <- app_assoc. cbn [app].
  rewrite string_len_text by done. cbn [mbind option_bind].
  rewrite string_loop_text; [|done|simpl; rewrite length_app; lia].
  cbn [mbind option_bind app]. rewrite (proj2 (Z.ltb_ge _ _)) by lia. done.
Qed.

(** *** Numbers *)

Definition stops (rest : list Z) : Prop :=
  match rest with c :: _ => isdigit c = false | [] => False end.

Lemma number_loop_digits fuel z rest :
  0 <= z < 2 ^ 31 -> z < 10 ^ Z.of_nat fuel -> (0 < fuel)%nat ->
  number_loop 0 (digits fuel z ++ rest) = number_loop z rest.
Proof.
  revert z rest. induction fuel as [|fuel IH]; intros z rest Hz Hf Hpos; [lia|].
  cbn [digits]. case_bool.
  - cbn [app number_loop]. replace (isdigit (48 + z)) with true by char_lia.
    chr_simpl. rewrite s32_id by lia. f_equal. lia.
  - rewrite <- app_assoc. cbn [app].
    assert (z / 10 < 10 ^ Z.of_nat fuel /\ 0 <= z / 10 < 2 ^ 31) as [H1 H2].
    { rewrite Nat2Z.inj_succ, Z.pow_succ_r in Hf by lia.
      split; [apply Z.div_lt_upper_bound; lia|]. split; [apply Z.div_pos; lia|].
      eapply Z.le_lt_trans; [|apply Hz]. apply Z.div_le_upper_bound; lia. }
    destruct fuel as [|fuel]; [simpl in H1; lia|].
    rewrite IH by lia. cbn [number_loop]. pose proof (Z.mod_pos_bound z 10 ltac:(lia)).
    replace (isdigit (48 + z mod 10)) with true by char_lia. chr_simpl.
    pose proof (Z.div_mod z 10 ltac:(lia)). rewrite s32_id by lia. f_equal. lia.
Qed.

Lemma digits_head fuel z :
  1 <= z < 10 ^ Z.of_nat fuel -> exists c r, digits fuel z = c :: r /\ chr "0" < c.
Proof.
  revert z. induction fuel as [|fuel IH]; intros z Hz; [simpl in Hz; lia|].
  rewrite Nat2Z.inj_succ, Z.pow_succ_r in Hz by lia. cbn [digits]. case_bool.
  - eexists _, _. split; [done|]. chr_simpl. lia.
  - destruct (IH (z / 10)) as (c & r & -> & Hc); [|by eexists _, _].
    split; [apply Z.div_le_lower_bound; lia|apply Z.div_lt_upper_bound; lia].
Qed.

Lemma parse_number_dec z rest :
  0 <= z < 2 ^ 31 -> stops rest -> parse_number (dec z ++ rest) = Some (z, rest).
Proof.
  intros Hz Hr. destruct rest as [|x rest]; [done|]. simpl in Hr.
  unfold dec. rewrite (proj2 (Z.ltb_ge _ _)) by lia.
  destruct (decide (z = 0)) as [->|Hne].
  { unfold parse_number. simpl. rewrite (proj2 (andb_false_iff _ _)); [done|].
    unfold isdigit in Hr. chr_simpl. lia. }
  destruct (digits_head 20 z ltac:(lia)) as (c & r & Hd & Hc).
  pose proof (digits_isdigit 20 z ltac:(lia)) as Hdig. rewrite Hd in Hdig.
  apply Forall_cons in Hdig as [Hdc _].
  unfold parse_number. rewrite Hd. cbn [app]. rewrite rd_cons_0. cbn [mbind option_bind].
  rewrite (proj2 (Z.eqb_neq c (chr "-"))) by char_lia.
  rewrite rd_cons_0. cbn [mbind option_bind].
  rewrite (proj2 (Z.eqb_neq c (chr "0"))) by lia.
  rewrite rd_cons_0. cbn [mbind option_bind].
  replace ((chr "1" <=? c) && (c <=? chr "9")) with true by char_lia.
  change (c :: r ++ x :: rest) with ((c :: r) ++ x :: rest). rewrite <- Hd.
  rewrite number_loop_digits by lia. simpl. by rewrite Hr.
Qed.

(** *** Values *)

Lemma gap_blank w : Forall blank w -> Forall blank (gap w).
Proof. intros Hw. unfold Json.gap. destruct pretty; [done|constructor]. Qed.

Lemma text_head v d :
  jval_ok v ->
  exists c r, text v d = c :: r /\ 33 <= c < 128 /\ c <> chr "]" /\ c <> chr "}".
Proof.
  destruct v as [|[]|n|s|l|l]; intros Hv; try by eexists _, _.
  assert (0 <= n < 2 ^ 31) as Hn by done. unfold text, gtext, dec.
  rewrite (proj2 (Z.ltb_ge _ _)) by lia.
  destruct (decide (n = 0)) as [->|Hne]; [by eexists _, _|].
  destruct (digits_head 20 n ltac:(lia)) as (c & r & Hd & Hc).
  pose proof (digits_isdigit 20 n ltac:(lia)) as Hdig. rewrite Hd in Hdig |- *.
  apply Forall_cons in Hdig as [Hdc _]. exists c, r. split_and!; try done; char_lia.
Qed.

Definition sizes (l : list jval) : nat := foldr (fun v n => (S (size v) + n)%nat) 0%nat l.

Lemma size_arr l : size (JArr l) = S (sizes l).
Proof. simpl. f_equal. Qed.
Lemma size_obj l : size (JObj l) = S (sizes (map snd l)).
Proof. simpl. f_equal. induction l as [|kv l IH]; simpl; [done|]. by rewrite IH. Qed.
Lemma sizes_length l : (length l <= sizes l)%nat.
Proof. induction l; simpl; lia. Qed.
Lemma sizes_elem l v : v ∈ l -> (size v < sizes l)%nat.
Proof. induction 1; simpl; lia. Qed.

(** A value between blanks, followed by a visible byte. *)
Lemma skipped_text pv v d ws ws' c r mid :
  jval_ok v -> Forall blank ws -> mid = ws' ++ c :: r -> Forall blank ws' -> 33 <= c < 128 ->
  pv (text v d ++ mid) = Some (Some (item_of None v, mid)) ->
  skipped signed_char pv (ws ++ text v d ++ mid) = Some (Some (item_of None v, c :: r)).
Proof.
  intros Hv Hws -> Hws' Hc Hpv. unfold skipped.
  destruct (text_head v d Hv) as (x & t & Ht & Hx & _).
  rewrite skip_blanks by done. rewrite Ht in *. cbn [app] in *. rewrite skip_visible by done.
  cbn [mbind option_bind]. rewrite Hpv. cbn [mbind option_bind].
  by rewrite skip_blanks_visible.
Qed.

Section Elems.
Context (pv : list Z -> option (option (cJSON * list Z))) (d : Z).

Lemma parse_elems_text v l ws rest n :
  Forall (fun v => jval_ok v /\ forall r, stops r -> pv (text v d ++ r) = Some (Some (item_of None v, r)))
    (v :: l) ->
  Forall blank ws -> (length l < n)%nat ->
  parse_elems signed_char pv n (ws ++ elems_text signed_char pretty d (v :: l) ++ chr "]" :: rest) =
  Some (Some (map (item_of None) (v :: l), rest)).
Proof.
  revert v ws n. induction l as [|v' l IH]; intros v ws n Hl Hws Hn;
    (destruct n as [|n]; [simpl in Hn; lia|]);
    apply Forall_cons in Hl as [[Hv Hpv] Hl]; cbn [parse_elems].
  - cbn [elems_text app]. rewrite app_nil_r. rewrite (skipped_text _ v d ws [] (chr "]") rest) by (done || by apply Hpv).
    done.
  - change (elems_text signed_char pretty d (v :: v' :: l))
      with (text v d ++ (chr "," :: gap [32]) ++ elems_text signed_char pretty d (v' :: l)).
    rewrite <- !app_assoc. cbn [app].
    erewrite (skipped_text _ v d ws [] (chr ",")); [|done..|by apply Hpv].
    cbn [mbind option_bind]. rewrite rd_cons_0. cbn [mbind option_bind].
    rewrite Z.eqb_refl. change (drop 1 (chr "," :: ?l)) with l.
    rewrite IH; [done|done|by apply gap_blank; repeat constructor|simpl in Hn; lia].
Qed.

Lemma parse_member_text k v ws ws' c r mid :
  Forall text_byte k -> jval_ok v -> Forall blank ws ->
  mid = ws' ++ c :: r -> Forall blank ws' -> 33 <= c < 128 ->
  pv (text v d ++ mid) = Some (Some (item_of None v, mid)) ->
  parse_member signed_char uc0 pv
    (ws ++ print_string_ptr k ++ chr ":" :: gap [9] ++ text v d ++ mid) =
  Some (Some (item_of (Some k) v, c :: r)).
Proof.
  intros Hk Hv Hws Hmid Hws' Hc Hpv. unfold parse_member.
  rewrite skip_blanks by done.
  replace (skip (print_string_ptr k ++ chr ":" :: gap [9] ++ text v d ++ mid))
    with (Some (print_string_ptr k ++ chr ":" :: gap [9] ++ text v d ++ mid))
    by (symmetry; by apply skip_visible).
  cbn [mbind option_bind]. rewrite parse_string_text by done. cbn [mbind option_bind].
  rewrite skip_visible by done. cbn [mbind option_bind]. rewrite rd_cons_0.
  cbn [mbind option_bind]. rewrite Z.eqb_refl. cbn [negb].
  change (drop 1 (chr ":" :: ?l)) with l.
  rewrite (skipped_text pv v d (gap [9]) ws' c r mid Hv) by
    (done || by apply gap_blank; repeat constructor). cbn [mbind option_bind]. by destruct v as [|[]| | | |].
Qed.

Lemma parse_members_text kv l ws ws' rest n :
  Forall (fun kv => Forall text_byte (fst kv) /\ jval_ok (snd kv) /\
    forall r, stops r -> pv (text (snd kv) d ++ r) = Some (Some (item_of None (snd kv), r)))
    (kv :: l) ->
  Forall blank ws -> Forall blank ws' -> (length l < n)%nat ->
  parse_members signed_char uc0 pv n
    (ws ++ members_text signed_char pretty d (kv :: l) ++ ws' ++ chr "}" :: rest) =
  Some (Some (map (fun kv => item_of (Some (fst kv)) (snd kv)) (kv :: l), rest)).
Proof.
  revert kv ws n. induction l as [|kv' l IH]; intros kv ws n Hl Hws Hws' Hn;
    (destruct n as [|n]; [simpl in Hn; lia|]);
    apply Forall_cons in Hl as [(Hk & Hv & Hpv) Hl]; cbn [parse_members].
  - cbn [members_text]. rewrite <- !app_assoc. cbn [app]. rewrite app_nil_r, <- !app_assoc.
    pose proof (parse_member_text (fst kv) (snd kv) (ws ++ gap (tabs d)) (gap [10] ++ ws')
      (chr "}") rest (gap [10] ++ ws' ++ chr "}" :: rest)) as Hm.
    rewrite <- !app_assoc in Hm. rewrite Hm; clear Hm; try done.
    + apply Forall_app_2; [done|apply gap_blank, tabs_blank].
    + apply Forall_app_2; [apply gap_blank; by repeat constructor|done].
    + apply Hpv. unfold Json.gap. destruct pretty, ws' as [|b ws']; try done.
      apply Forall_cons in Hws' as [Hb _]. unfold blank in Hb. simpl. char_lia.
  - change (members_text signed_char pretty d (kv :: kv' :: l)) with
      (gap (tabs d) ++ print_string_ptr (fst kv) ++ (chr ":" :: gap [9]) ++ text (snd kv) d ++
       [chr ","] ++ gap [10] ++ members_text signed_char pretty d (kv' :: l)).
    rewrite <- !app_assoc. cbn [app].
    pose proof (fun r => parse_member_text (fst kv) (snd kv) (ws ++ gap (tabs d)) [] (chr ",") r
      (chr "," :: r)) as Hm.
    setoid_rewrite <- app_assoc in Hm. rewrite Hm; clear Hm; try done.
    + cbn [mbind option_bind]. rewrite rd_cons_0. cbn [mbind option_bind].
      rewrite Z.eqb_refl. change (drop 1 (chr "," :: ?l)) with l.
      rewrite IH; [done|done|by apply gap_blank; repeat constructor|done|simpl in Hn; lia].
    + apply Forall_app_2; [done|apply gap_blank, tabs_blank].
    + by apply Hpv.
Qed.

End Elems.

Lemma not_literal c r :
  isdigit c = true ->
  starts_with (c :: r) (bytes_of "null") = Some false /\
  starts_with (c :: r) (bytes_of "false") = Some false /\
  starts_with (c :: r) (bytes_of "true") = Some false.
Proof.
  intros Hc. cbn [starts_with bytes_of].
  assert (48 <= c <= 57) by char_lia.
  repeat split; (rewrite (proj2 (Z.eqb_neq c _)); [done|]; vm_compute Z.of_nat; lia).
Qed.

Lemma parse_value_bracket fuel r :
  parse_value (S fuel) (chr "[" :: r) = parse_array signed_char (parse_value fuel) fuel (chr "[" :: r).
Proof. done. Qed.

Lemma parse_value_minus fuel r :
  parse_value (S fuel) (chr "-" :: r) =
  '(n, value) ← parse_number (chr "-" :: r);
  Some (Some (Item cJSON_Number n None None [], value)).
Proof. done. Qed.

(** The sign is skipped. *)
Lemma parse_number_minus n rest :
  0 < n < 2 ^ 31 ->
  parse_number (chr "-" :: digits 20 n ++ rest) = parse_number (digits 20 n ++ rest).
Proof.
  intros Hn. destruct (digits_head 20 n ltac:(lia)) as (c & r & Hd & Hc).
  pose proof (digits_isdigit 20 n ltac:(lia)) as Hdig. rewrite Hd in *.
  apply Forall_cons in Hdig as [Hdc _].
  unfold parse_number at 2. cbn [app]. rewrite rd_cons_0. cbn [mbind option_bind].
  by rewrite (proj2 (Z.eqb_neq c (chr "-"))) by char_lia.
Qed.

Lemma parse_value_brace fuel r :
  parse_value (S fuel) (chr "{" :: r) =
  parse_object signed_char uc0 (parse_value fuel) fuel (chr "{" :: r).
Proof. done. Qed.

Lemma skip_idem a b : skip a = Some b -> skip b = Some b.
Proof.
  induction a as [|c a IH]; simpl; [done|]. case_bool; [done|]. intros [= <-]. simpl.
  by rewrite (proj2 (Z.leb_gt _ _)).
Qed.

Lemma parse_members_skip pv n a b :
  skip a = Some b -> parse_members signed_char uc0 pv n b = parse_members signed_char uc0 pv n a.
Proof.
  intros Hs. destruct n as [|n]; [done|]. cbn [parse_members]. unfold parse_member.
  by rewrite Hs, (skip_idem a b Hs).
Qed.

Lemma parse_object_text l d rest fuel :
  Forall (fun kv => forall d rest fuel, jval_ok (snd kv) -> (size (snd kv) < fuel)%nat ->
    stops rest -> parse_value fuel (text (snd kv) d ++ rest) =
    Some (Some (item_of None (snd kv), rest))) l ->
  jval_ok (JObj l) -> (size (JObj l) < S fuel)%nat ->
  parse_value (S fuel) (text (JObj l) d ++ rest) = Some (Some (item_of None (JObj l), rest)).
Proof.
  intros IH Hv Hf. rewrite text_obj. rewrite size_obj in Hf. apply jval_ok_obj in Hv.
  cbn [app]. rewrite parse_value_brace. unfold parse_object.
  change (drop 1 (chr "{" :: ?l)) with l. rewrite <- !app_assoc. cbn [app].
  destruct l as [|kv l].
  { cbn [members_text app].
    pose proof (skip_blanks_visible (gap [10] ++ gap (tabs d)) (chr "}") rest) as Hs.
    rewrite <- app_assoc in Hs. rewrite Hs; [done| |done].
    apply Forall_app_2; apply gap_blank; [by repeat constructor|apply tabs_blank]. }
  assert (Forall (fun kv => Forall text_byte (fst kv) /\ jval_ok (snd kv) /\ forall r, stops r ->
    parse_value fuel (text (snd kv) (d + 1) ++ r) = Some (Some (item_of None (snd kv), r)))
    (kv :: l)) as Hall.
  { rewrite Forall_forall in *. intros x Hx. destruct (Hv x Hx). split_and!; [done..|].
    intros r Hr'. apply IH; [done..| |done].
    assert (snd x ∈ map snd (kv :: l)) as Hin by (by apply list_elem_of_fmap_2).
    pose proof (sizes_elem _ _ Hin). lia. }
  pose proof (sizes_length (map snd (kv :: l))) as Hlen. rewrite length_map in Hlen.
  pose proof (parse_members_text (parse_value fuel) (d + 1) kv l [] (gap (tabs d)) rest fuel Hall
    ltac:(constructor) (gap_blank _ (tabs_blank d)) ltac:(simpl in *; lia)) as Hp. cbn [app] in Hp.
  set (a := members_text signed_char pretty (d + 1) (kv :: l) ++ gap (tabs d) ++ chr "}" :: rest) in *.
  assert (exists r, skip a = Some (34 :: r)) as [r Hr].
  { unfold a. cbn [members_text]. rewrite <- !app_assoc. eexists.
    unfold print_string_ptr, Json.print_string_ptr. cbn [app].
    apply skip_blanks_visible; [apply gap_blank, tabs_blank|lia]. }
  rewrite (skip_blanks (gap [10]) a) by (apply gap_blank; by repeat constructor). rewrite Hr. cbn [mbind option_bind]. rewrite rd_cons_0. cbn [mbind option_bind].
  change (34 =? chr "}") with false. cbv iota.
  rewrite (parse_members_skip _ _ a) by done. by rewrite Hp.
Qed.

Lemma parse_value_text v d rest fuel :
  jval_ok v -> (size v < fuel)%nat -> stops rest ->
  parse_value fuel (text v d ++ rest) = Some (Some (item_of None v, rest)).
Proof.
  revert d rest fuel. induction v as [|b|n|s|l IH|l IH] using jval_ind';
    intros d rest fuel Hv Hf Hr; (destruct fuel as [|fuel]; [simpl in Hf; lia|]).
  - reflexivity.
  - destruct b; reflexivity.
  - destruct (text_head (JNum n) d Hv) as (c & r & Ht & _).
    assert (0 <= n < 2 ^ 31) as Hn by done.
    pose proof (digits_isdigit 20 n ltac:(lia)) as Hdig.
    assert (text (JNum n) d = digits 20 n) as Ht'
      by (unfold text, gtext, dec; by rewrite (proj2 (Z.ltb_ge _ _)) by lia).
    rewrite <- Ht', Ht in Hdig. apply Forall_cons in Hdig as [Hc _].
    cbn [Json.parse_value]. rewrite Ht. cbn [app].
    destruct (not_literal c (r ++ rest) Hc) as (-> & -> & ->).
    cbn [mbind option_bind]. rewrite rd_cons_0. cbn [mbind option_bind].
    rewrite (proj2 (Z.eqb_neq c 34)) by char_lia. rewrite Hc, orb_true_r.
    change (c :: r ++ rest) with ((c :: r) ++ rest). rewrite <- Ht.
    change (text (JNum n) d) with (dec n). by rewrite parse_number_dec.
  - cbn [Json.parse_value]. change (text (JStr s) d) with (print_string_ptr s).
    rewrite parse_string_text by done. reflexivity.
  - rewrite text_arr. rewrite size_arr in Hf. apply jval_ok_arr in Hv.
    cbn [app]. rewrite parse_value_bracket. unfold parse_array.
    change (drop 1 (chr "[" :: ?l)) with l. rewrite <- app_assoc. cbn [app].
    destruct l as [|v l].
    { cbn [elems_text app]. by rewrite skip_visible. }
    assert (Forall (fun v => jval_ok v /\ forall r, stops r ->
      parse_value fuel (text v (d + 1) ++ r) = Some (Some (item_of None v, r))) (v :: l)) as Hall.
    { rewrite Forall_forall in *. intros x Hx. split; [auto|]. intros r Hr'.
      apply IH; [done|auto| |done]. pose proof (sizes_elem _ _ Hx). lia. }
    pose proof (sizes_length (v :: l)).
    pose proof (parse_elems_text (parse_value fuel) (d + 1) v l [] rest fuel Hall
      ltac:(constructor) ltac:(simpl in *; lia)) as Hp. cbn [app] in Hp.
    apply Forall_cons in Hall as [[Hv0 _] _].
    destruct (text_head v (d + 1) Hv0) as (c & r & Ht & Hc & Hc1 & _).
    assert (exists r, elems_text signed_char pretty (d + 1) (v :: l) ++ chr "]" :: rest = c :: r)
      as [r' Hr'] by (cbn [elems_text]; rewrite Ht; by eexists).
    rewrite Hr' in *. rewrite skip_visible by done. cbn [mbind option_bind].
    rewrite rd_cons_0. cbn [mbind option_bind]. rewrite (proj2 (Z.eqb_neq c _)) by done.
    by rewrite Hp.
  - by apply parse_object_text.
Qed.

Lemma size_text v d : jval_ok v -> (size v <= length (text v d))%nat.
Proof.
  revert d. induction v as [|b|n|s|l IH|l IH] using jval_ind'; intros d Hv.
  - simpl. lia.
  - destruct b; simpl; lia.
  - destruct (text_head (JNum n) d Hv) as (c & r & -> & _). simpl. lia.
  - simpl. lia.
  - rewrite text_arr, size_arr. simpl. apply jval_ok_arr in Hv. apply le_n_S.
    rewrite length_app. simpl.
    enough (sizes l <= length (elems_text signed_char pretty (d + 1) l) + 1)%nat by lia.
    induction l as [|v l IHl]; [simpl; lia|]. apply Forall_cons in IH as [IHv IH], Hv as [Hv Hl].
    specialize (IHl IH Hl). specialize (IHv (d + 1) Hv).
    cbn [sizes foldr elems_text] in *. fold (sizes l). rewrite !length_app.
    destruct l; [cbn [sizes foldr] in *; simpl length|cbn [length]]; lia.
  - rewrite text_obj, size_obj. cbn [length]. apply jval_ok_obj in Hv.
    rewrite !length_app.
    enough (sizes (map snd l) <= length (members_text signed_char pretty (d + 1) l))%nat by lia.
    induction l as [|kv l IHl]; [simpl; lia|]. apply Forall_cons in IH as [IHv IH], Hv as [[_ Hv] Hl].
    specialize (IHl IH Hl). specialize (IHv (d + 1) Hv).
    cbn [sizes foldr members_text map] in *. fold (sizes (map snd l)).
    repeat (rewrite length_app || cbn [length]). lia.
Qed.

Lemma parse_text v d rest :
  jval_ok v -> stops rest ->
  cJSON_Parse signed_char uc0 (text v d ++ rest) = Some (Some (item_of None v)).
Proof.
  intros Hv Hr. destruct (text_head v d Hv) as (c & r & Ht & Hc & _).
  unfold cJSON_Parse.
  assert (skip (text v d ++ rest) = Some (text v d ++ rest)) as ->
    by (rewrite Ht; by apply skip_visible).
  cbn [mbind option_bind]. rewrite parse_value_text; [done|done| |done].
  pose proof (size_text v d Hv). rewrite length_app. lia.
Qed.

End ParseText.

Section RoundTrip.
Context `{Klib} (signed_char : bool) (uc0 : Z).
Notation skip := (skip signed_char).
Notation parse_value := (parse_value signed_char uc0).

(** The parser reads the sign of a number and drops it: printing a negative
    number and parsing the text gives its absolute value. *)
Theorem negative_number_loses_sign n :
  0 < n < 2 ^ 31 ->
  exists t, cJSON_Print signed_char (cJSON_CreateNumber (- n)) = Some t /\
    cJSON_Parse signed_char uc0 (t ++ [0]) = Some (Some (cJSON_CreateNumber n)).
Proof.
  intros Hn. exists (chr "-" :: digits 20 n). unfold cJSON_CreateNumber. rewrite !s32_id by lia.
  split.
  - cbn. unfold print_number, dec. rewrite (proj2 (Z.ltb_lt _ _)) by lia.
    by rewrite Z.opp_involutive.
  - unfold cJSON_Parse. cbn [app]. rewrite skip_visible by done. cbn [mbind option_bind length].
    rewrite parse_value_minus.
    pose proof (parse_number_dec n [0] ltac:(lia) ltac:(done)) as Hp.
    unfold dec in Hp. rewrite (proj2 (Z.ltb_ge _ _)) in Hp by lia.
    by rewrite parse_number_minus, Hp by lia.
Qed.

(** [skip] does not stop at the NUL, so an array left open is read past the
    end of its buffer, however many NULs follow it. *)
Theorem unterminated_array_overread n k :
  0 <= n < 2 ^ 31 -> (0 < k)%nat ->
  cJSON_Parse signed_char uc0 (chr "[" :: dec n ++ replicate k 0) = None.
Proof.
  intros Hn Hk. unfold cJSON_Parse. rewrite skip_visible by done. cbn [mbind option_bind length].
  set (fuel := length _). rewrite parse_value_bracket.
  unfold parse_array. change (drop 1 (chr "[" :: ?l)) with l.
  change (dec n) with (text signed_char (JNum n) 0).
  destruct (text_head signed_char true (JNum n) 0 Hn) as (c & r & Ht & Hc & Hc1 & _).
  rewrite Ht. cbn [app]. rewrite skip_visible by done. cbn [mbind option_bind].
  rewrite rd_cons_0. cbn [mbind option_bind]. rewrite (proj2 (Z.eqb_neq c _)) by done.
  assert (exists f, fuel = S f) as [f Hf].
  { unfold fuel. change (dec n) with (text signed_char (JNum n) 0). rewrite Ht. by eexists. }
  rewrite Hf. cbn [parse_elems]. unfold skipped.
  rewrite skip_visible by done. cbn [mbind option_bind].
  change (c :: r ++ replicate k 0) with ((c :: r) ++ replicate k 0). rewrite <- Ht.
  destruct f as [|f].
  { exfalso. unfold fuel in Hf. rewrite length_app, length_replicate in Hf.
    change (dec n) with (text signed_char (JNum n) 0) in Hf. rewrite Ht in Hf. simpl in Hf. lia. }
  rewrite parse_value_text; [|done|simpl; lia|by destruct k; [lia|]].
  cbn [mbind option_bind]. rewrite <- (app_nil_r (replicate k 0)), skip_blanks; [done|].
  apply Forall_replicate. unfold blank. lia.
Qed.

End RoundTrip.

(** ** Minification *)

(** No string of the value ends with a backslash; the minifier takes the
    closing quote behind it for an escaped one. *)
Definition minify_safe (s : list Z) : Prop := List.last s 0 <> 92.
Lemma minify_safe_addr s : Forall addr_byte s -> minify_safe s.
Proof.
  unfold minify_safe, addr_byte. induction 1 as [|c [|d s] Hc _ IH]; [done|simpl; lia|]. exact IH.
Qed.

Fixpoint jval_minify (v : jval) : Prop :=
  match v with
  | JStr s => minify_safe s
  | JArr l => (fix go l := match l with [] => True | v :: l => jval_minify v /\ go l end) l
  | JObj l => (fix go l := match l with [] => True
                | kv :: l => (minify_safe (fst kv) /\ jval_minify (snd kv)) /\ go l end) l
  | _ => True
  end.

Lemma jval_minify_arr l : jval_minify (JArr l) <-> Forall jval_minify l.
Proof. induction l as [|v l IH]; [done|]. rewrite Forall_cons. simpl in *. tauto. Qed.
Lemma jval_minify_obj l :
  jval_minify (JObj l) <-> Forall (fun kv => minify_safe (fst kv) /\ jval_minify (snd kv)) l.
Proof. induction l as [|v l IH]; [done|]. rewrite Forall_cons. simpl in *. tauto. Qed.

Lemma minify_string_length inp : (length (snd (minify_string inp)) <= length inp)%nat.
Proof.
  induction inp as [inp IH] using (induction_ltof1 _ (@length Z)). unfold ltof in IH.
  destruct inp as [|c r]; simpl; [done|]. case_bool; [simpl; lia|].
  assert (length (snd (let '(o, r) := minify_string r in (c :: o, r))) <= S (length r))%nat as Hr.
  { specialize (IH r ltac:(simpl; lia)). destruct (minify_string r). simpl in *. lia. }
  case_bool; [|done]. destruct r as [|d r']; [simpl; lia|]. case_bool; [|done].
  specialize (IH r' ltac:(simpl; lia)). destruct (minify_string r'). simpl in *. lia.
Qed.

Lemma skip_oneline_length inp : (length (skip_oneline_comment inp) <= length inp)%nat.
Proof. induction inp as [|c r IH]; simpl; [done|]. case_bool; lia. Qed.
Lemma skip_multiline_length inp : (length (skip_multiline_comment inp) <= length inp)%nat.
Proof.
  induction inp as [|c [|d r] IH]; [done|simpl; lia|].
  change (skip_multiline_comment (c :: d :: r)) with
    (if (c =? chr "*") && (d =? chr "/") then r else skip_multiline_comment (d :: r)).
  cbn [length] in *. case_bool; lia.
Qed.

(** Enough fuel is as good as the length. *)
Lemma minify_fuel fuel json : (length json <= fuel)%nat -> minify_loop fuel json = cJSON_Minify json.
Proof.
  unfold cJSON_Minify. remember (length json) as k eqn:Hk.
  revert fuel json Hk. induction k as [k IH] using lt_wf_ind. intros fuel json Hk Hf.
  destruct json as [|c r]; [subst; by destruct fuel|]. simpl in Hk. subst k.
  destruct fuel as [|fuel]; [lia|].
  assert (forall j, (length j <= length r)%nat -> minify_loop fuel j = minify_loop (length r) j) as Hj.
  { intros j Hl. rewrite (IH (length j) ltac:(lia) fuel j eq_refl) by lia.
    symmetry. apply (IH (length j)); lia. }
  cbn [minify_loop]. rewrite !(Hj r) by lia. case_bool; [done|]. case_bool.
  - destruct r as [|d r']; [done|].
    pose proof (skip_oneline_length r'). pose proof (skip_multiline_length r').
    rewrite !Hj by (simpl; lia). done.
  - case_bool; [|done]. pose proof (minify_string_length r) as Hl.
    destruct (minify_string r) as [o r']. simpl in Hl. by rewrite Hj.
Qed.

Lemma minify_blanks ws r :
  Forall (fun c => c = 32 \/ c = 9 \/ c = 10) ws -> cJSON_Minify (ws ++ r) = cJSON_Minify r.
Proof.
  induction 1 as [|c ws Hc _ IH]; [done|]. cbn [app]. rewrite <- IH.
  unfold cJSON_Minify. cbn [length minify_loop].
  by replace ((c =? 32) || (c =? 9) || (c =? 13) || (c =? 10)) with true by lia.
Qed.

(** Bytes the minifier copies. *)
Definition copied (c : Z) : Prop := 33 <= c /\ c <> chr "/" /\ c <> 34.

Lemma minify_copied w r : Forall copied w -> cJSON_Minify (w ++ r) = w ++ cJSON_Minify r.
Proof.
  induction 1 as [|c w (H1 & H2 & H3) _ IH]; [done|]. cbn [app]. rewrite <- IH.
  unfold cJSON_Minify. cbn [length minify_loop].
  replace ((c =? 32) || (c =? 9) || (c =? 13) || (c =? 10)) with false by lia.
  by rewrite (proj2 (Z.eqb_neq c _) H2), (proj2 (Z.eqb_neq c 34) H3).
Qed.

Section MinifyText.
Variable signed_char : bool.
Notation escape := (escape signed_char).
Notation print_string_ptr := (print_string_ptr signed_char).

Lemma escape_shape c :
  text_byte c ->
  (escape c = [c] /\ c <> 34 /\ c <> 92) \/ (c = 34 /\ escape c = [92; 34]) \/
  (c = 92 /\ escape c = [92; 92]) \/
  (c <> 92 /\ exists e, escape c = [92; e] /\ e <> 34 /\ e <> 92).
Proof.
  intros Hc. unfold text_byte in Hc.
  assert (0 <= c < 128) as Hr by (chr_simpl; lia). unfold escape, Json.escape.
  rewrite !(cval_ascii signed_char c Hr).
  destruct ((31 <? c) && negb (c =? 34) && negb (c =? 92)) eqn:E; [left; zify_bool; auto with lia|].
  right. destruct (c =? 92) eqn:E1; [right; left; split; [lia|done]|].
  destruct (c =? 34) eqn:E2; [left; split; [lia|done]|]. right. right. split; [lia|].
  repeat (case_bool; [by eexists|]). exfalso. lia.
Qed.

Lemma minify_plain c r :
  c <> 34 -> c <> 92 -> minify_string (c :: r) = (c :: fst (minify_string r), snd (minify_string r)).
Proof.
  intros H1 H2. cbn [minify_string].
  rewrite (proj2 (Z.eqb_neq c 34)), (proj2 (Z.eqb_neq c 92)) by done.
  by destruct (minify_string r).
Qed.
Lemma minify_backslash d r :
  d <> 34 -> minify_string (92 :: d :: r) =
    (92 :: fst (minify_string (d :: r)), snd (minify_string (d :: r))).
Proof.
  intros H1. change (minify_string (92 :: d :: r)) with
    (if d =? 34 then let '(o, r) := minify_string r in (92 :: d :: o, r)
     else let '(o, r) := minify_string (d :: r) in (92 :: o, r)).
  rewrite (proj2 (Z.eqb_neq d 34)) by done. by destruct (minify_string (d :: r)).
Qed.

Lemma minify_string_text s r :
  Forall text_byte s -> minify_safe s ->
  minify_string (concat (map escape s) ++ 34 :: r) = (concat (map escape s) ++ [34], r).
Proof.
  induction 1 as [|c s Hc Hs IH]; intros Hsafe; [done|].
  assert (minify_safe s) as Hsafe' by (unfold minify_safe in *; by destruct s).
  specialize (IH Hsafe'). cbn [map concat].
  destruct (escape_shape c Hc) as [(-> & H1 & H2)|[[-> ->]|[[-> ->]|(_ & e & -> & H1 & H2)]]];
    cbn [app].
  - by rewrite minify_plain, IH.
  - cbn [minify_string Z.eqb]. change (92 =? 34) with false. change (92 =? 92) with true.
    change (34 =? 34) with true. cbv iota. by rewrite IH.
  - rewrite minify_backslash by done. destruct s as [|d s]; [by destruct Hsafe|].
    assert (exists x w, concat (map escape (d :: s)) ++ 34 :: r = x :: w /\ x <> 34) as (x & w & Hx & Hne).
    { apply Forall_cons in Hs as [Hd _]. cbn [map concat].
      destruct (escape_shape d Hd) as [(-> & ? & ?)|[[_ ->]|[[_ ->]|(_ & e & -> & _)]]];
        cbn [app]; by eexists _, _. }
    rewrite Hx in *. rewrite minify_backslash by done. by rewrite IH.
  - rewrite minify_backslash by done. by rewrite minify_plain, IH.
Qed.

Lemma minify_string_ptr s r :
  Forall text_byte s -> minify_safe s ->
  cJSON_Minify (print_string_ptr s ++ r) = print_string_ptr s ++ cJSON_Minify r.
Proof.
  intros Hs Hsafe. unfold print_string_ptr, Json.print_string_ptr. cbn [app]. rewrite <- !app_assoc. cbn [app].
  unfold cJSON_Minify at 1. cbn [length minify_loop]. change (34 =? 34) with true.
  change ((34 =? 32) || (34 =? 9) || (34 =? 13) || (34 =? 10)) with false.
  change (34 =? chr "/") with false. cbv iota. rewrite minify_string_text by done.
  rewrite minify_fuel; [by rewrite <- app_assoc|]. rewrite length_app. simpl. lia.
Qed.

Lemma dec_copied n : 0 <= n -> Forall copied (dec n).
Proof.
  intros Hn. unfold dec. rewrite (proj2 (Z.ltb_ge _ _)) by lia.
  apply (Forall_imp _ _ _ (digits_isdigit 20 n Hn)). intros c Hc. unfold copied. char_lia.
Qed.

Lemma tabs_minify d r : cJSON_Minify (tabs d ++ r) = cJSON_Minify r.
Proof. apply minify_blanks. apply Forall_replicate. auto. Qed.
Lemma minify_cons c r : copied c -> cJSON_Minify (c :: r) = c :: cJSON_Minify r.
Proof. intros Hc. apply (minify_copied [c]). constructor; [done|constructor]. Qed.
Lemma minify_blank c r : c = 32 \/ c = 9 \/ c = 10 -> cJSON_Minify (c :: r) = cJSON_Minify r.
Proof. intros Hc. apply (minify_blanks [c]). constructor; [done|constructor]. Qed.

Lemma minify_elems d l r :
  Forall (fun v => forall r, cJSON_Minify (text signed_char v d ++ r) =
    gtext signed_char false v d ++ cJSON_Minify r) l ->
  cJSON_Minify (elems_text signed_char true d l ++ r) =
  elems_text signed_char false d l ++ cJSON_Minify r.
Proof.
  induction 1 as [|v l Hv _ IH]; [done|]. cbn [elems_text gap]. rewrite <- !app_assoc, Hv. f_equal.
  destruct l as [|v' l]; [exact IH|]. cbn [app]. rewrite minify_cons by done.
  rewrite minify_blank by auto. cbn [app]. f_equal. exact IH.
Qed.

Lemma minify_members d l r :
  Forall (fun kv => Forall text_byte (fst kv) /\ minify_safe (fst kv) /\
    forall r, cJSON_Minify (text signed_char (snd kv) d ++ r) =
      gtext signed_char false (snd kv) d ++ cJSON_Minify r) l ->
  cJSON_Minify (members_text signed_char true d l ++ r) =
  members_text signed_char false d l ++ cJSON_Minify r.
Proof.
  induction 1 as [|kv l (Hk & Hs & Hv) _ IH]; [done|]. cbn [members_text gap].
  rewrite <- !app_assoc, tabs_minify, minify_string_ptr by done. cbn [app]. f_equal.
  rewrite minify_cons by done. rewrite minify_blank by auto. f_equal.
  rewrite <- !app_assoc, Hv. f_equal. destruct l as [|kv' l]; cbn [app].
  - rewrite minify_blank by auto. exact IH.
  - rewrite minify_cons by done. rewrite minify_blank by auto. f_equal. exact IH.
Qed.

(** Minifying the printed text of a value leaves its tokens. *)
Lemma minify_text v d r :
  jval_ok v -> jval_minify v ->
  cJSON_Minify (text signed_char v d ++ r) = gtext signed_char false v d ++ cJSON_Minify r.
Proof.
  revert d r. induction v as [|b|n|s|l IH|l IH] using jval_ind'; intros d r Hv Hm.
  - by apply (minify_copied (bytes_of "null")); repeat constructor.
  - destruct b; [apply (minify_copied (bytes_of "true"))|apply (minify_copied (bytes_of "false"))];
      by repeat constructor.
  - cbn [gtext]. apply minify_copied, dec_copied, Hv.
  - by apply minify_string_ptr.
  - rewrite !text_arr. apply jval_ok_arr in Hv. apply jval_minify_arr in Hm.
    cbn [app]. rewrite <- !app_assoc, minify_cons by done. f_equal.
    rewrite minify_elems; [cbn [app]; by rewrite minify_cons|].
    rewrite Forall_forall in *. auto.
  - rewrite !text_obj. apply jval_ok_obj in Hv. apply jval_minify_obj in Hm.
    cbn [app gap]. rewrite <- !app_assoc, minify_cons by done. rewrite minify_blank by auto. f_equal.
    rewrite minify_members.
    + f_equal. rewrite tabs_minify. cbn [app]. by rewrite minify_cons.
    + rewrite Forall_forall in *. intros kv Hkv. destruct (Hv kv Hkv), (Hm kv Hkv). auto.
Qed.

Lemma minify_whole v :
  jval_ok v -> jval_minify v -> cJSON_Minify (text signed_char v 0) = compact signed_char v.
Proof.
  intros Hv Hm. rewrite <- (app_nil_r (text signed_char v 0)), minify_text by done.
  apply app_nil_r.
Qed.

End MinifyText.

Section Properties.
Context `{Klib} (signed_char : bool) (uc0 : Z).

(** C24: any value without negative numbers, whose strings hold printable ASCII
    other than the percent sign (or escapable control bytes), prints, and
    parsing the printed text gives the same item back, whether [char] is
    signed or not.  If no string ends with a backslash, parsing the minified
    text gives the same item too. *)
Theorem cJSON_print_parse v :
  jval_ok v ->
  exists t, cJSON_Print signed_char (item_of None v) = Some t /\
    cJSON_Parse signed_char uc0 (t ++ [0]) = Some (Some (item_of None v)) /\
    (jval_minify v ->
     cJSON_Parse signed_char uc0 (cJSON_Minify t ++ [0]) = Some (Some (item_of None v))).
Proof.
  intros Hv. exists (text signed_char v 0). split_and!; [by apply print_value_text|by apply parse_text|].
  intros Hm. rewrite minify_whole by done. by apply parse_text.
Qed.

End Properties.

(** Printable text does not depend on the sign of [char]. *)
Lemma print_string_signed sc sc' s :
  Forall text_byte s -> print_string_ptr sc s = print_string_ptr sc' s.
Proof.
  intros Hs. unfold print_string_ptr. f_equal. f_equal. f_equal.
  induction Hs as [|c s Hc _ IH]; simpl; [done|]. rewrite IH. f_equal.
  unfold text_byte in Hc. assert (0 <= c < 128) as Hr by (chr_simpl; lia).
  unfold escape. by rewrite !cval_ascii.
Qed.

Lemma gtext_signed sc sc' pretty v d : jval_ok v -> gtext sc pretty v d = gtext sc' pretty v d.
Proof.
  revert d. induction v as [|b|n|s|l IH|l IH] using jval_ind'; intros d Hv; try done.
  - by apply print_string_signed.
  - rewrite !text_arr. apply jval_ok_arr in Hv. do 2 f_equal.
    induction l as [|v l IHl]; [done|]. apply Forall_cons in IH as [IHv IH], Hv as [Hv Hl].
    cbn [elems_text]. by rewrite IHv, IHl.
  - rewrite !text_obj. apply jval_ok_obj in Hv. do 3 f_equal.
    induction l as [|kv l IHl]; [done|]. apply Forall_cons in IH as [IHv IH], Hv as [[Hk Hv] Hl].
    cbn [members_text]. by rewrite IHv, IHl, (print_string_signed sc sc' (fst kv)).
Qed.

(** Nothing behind an object matters to the parser. *)
Lemma parse_text_obj `{Klib} signed_char uc0 pretty l d rest :
  jval_ok (JObj l) ->
  cJSON_Parse signed_char uc0 (gtext signed_char pretty (JObj l) d ++ rest) =
  Some (Some (item_of None (JObj l))).
Proof.
  intros Hv. destruct (text_head signed_char pretty (JObj l) d Hv) as (c & r & Ht & Hc & _).
  unfold cJSON_Parse.
  assert (skip signed_char (gtext signed_char pretty (JObj l) d ++ rest) =
    Some (gtext signed_char pretty (JObj l) d ++ rest)) as ->
    by (rewrite Ht; by apply skip_visible).
  cbn [mbind option_bind]. rewrite parse_object_text; [done| |done|].
  - apply Forall_forall. intros kv _ d' rest' fuel'. apply parse_value_text.
  - pose proof (size_text signed_char pretty (JObj l) d Hv). rewrite length_app. lia.
Qed.

(** ** Witnesses, over the reference library *)

Import KlibRef.

Definition config_demo : jval :=
  JObj [(bytes_of "op", JNum 1);
        (bytes_of "data", JObj [(bytes_of "apps", JArr [JNum 1001; JNum 2002]);
                                (bytes_of "mac_list", JArr [JStr (bytes_of "00:11")])])].

Lemma cJSON_print_parse_witness :
  exists t, cJSON_Print true (item_of None config_demo) = Some t /\
    cJSON_Parse true 0 (t ++ [0]) = Some (Some (item_of None config_demo)) /\
    cJSON_Parse true 0 (cJSON_Minify t ++ [0]) = Some (Some (item_of None config_demo)).
Proof.
  destruct (cJSON_print_parse true 0 config_demo) as (t & H1 & H2 & H3).
  - repeat split; try lia; repeat constructor; unfold text_byte; vm_compute; intuition congruence.
  - exists t. split; [exact H1|]. split; [exact H2|]. apply H3. repeat split; vm_compute; discriminate.
Defined.

Lemma negative_number_loses_sign_witness :
  exists t, cJSON_Print false (cJSON_CreateNumber (-5)) = Some t /\
    cJSON_Parse false 0 (t ++ [0]) = Some (Some (cJSON_CreateNumber 5)).
Proof. apply (negative_number_loses_sign false 0 5). lia. Defined.

Lemma unterminated_array_overread_witness :
  cJSON_Parse true 0 (bytes_of "[1001" ++ replicate 200 0) = None.
Proof. apply (unterminated_array_overread true 0 1001 200); lia. Defined.

(** A printed text is used as a format: a percent sign in a nested string reads
    an argument that does not exist. *)
Example percent_in_string :
  cJSON_Print false (cJSON_AddStringToObject cJSON_CreateObject (bytes_of "mac") (bytes_of "%s"))
  = None.
Proof. reflexivity. Qed.

(** An escape cut short by the closing quote writes past the copy. *)
Example short_unicode_escape :
  cJSON_Parse false 0xffff (34 :: 92 :: chr "u" :: 34 :: replicate 8 0) = None.
Proof. vm_compute. reflexivity. Qed.

(** A string that ends with a backslash hides its closing quote from the
    minifier, which then drops blanks inside the next string. *)
Example minify_after_backslash :
  cJSON_Minify (text false (JArr [JStr [92]; JStr (bytes_of "a b")]) 0) =
  text false (JArr [JStr [92]; JStr (bytes_of "ab")]) 0.
Proof. reflexivity. Qed.

End Json.
