(* ===== verification/MacTable.v ===== *)
(** * MacTable: the chained hash tables keyed by a MAC address

    The client table of src/oaf/src/af_client.c, the MAC list of
    src/oaf/src/app_filter_config.c and the device table of
    src/open-app-filter/src/appfilter_user.c have the same shape: 64 buckets of
    linked nodes, the bucket chosen by one byte of the address, new nodes put in
    front.  This file has the shape, its operations and their refinement to a
    finite map; the three components instantiate it, each with its key and its
    hash function. *)

From S2P Require Import Prelude.

Definition MAX_HASH_SIZE : nat := 64.

(** A node has a key; its table has a hash that picks a bucket. *)
Class HasMac (A : Type) := mac_of : A -> list Z.
Class KeyHash (A : Type) := {
  key_hash : list Z -> nat;
  key_hash_lt : forall mac, (key_hash mac < MAX_HASH_SIZE)%nat;
}.
#[global] Arguments key_hash A {_} _ : simpl never.

(** [mac[i] & (SIZE - 1)]. *)
Definition byte_hash (i : nat) (mac : list Z) : nat :=
  Z.to_nat (Z.land (default 0 (mac !! i)) (Z.of_nat MAX_HASH_SIZE - 1)).
(** The hash of the kernel tables, on the last byte of a 6-byte array. *)
Definition mac_hash (mac : list Z) : nat := byte_hash 5 mac.

Lemma byte_hash_lt i mac : (byte_hash i mac < MAX_HASH_SIZE)%nat.
Proof.
  unfold byte_hash, MAX_HASH_SIZE. set (x := default 0 _).
  assert (0 <= Z.land x (Z.of_nat 64 - 1) < 64); [|lia].
  change (Z.of_nat 64 - 1) with (Z.ones 6). rewrite Z.land_ones by lia.
  apply Z.mod_pos_bound. lia.
Qed.

Section Table.
Context {A : Type} `{HasMac A, KeyHash A}.
Implicit Types (tbl : list (list A)) (n : A) (mac : list Z).

Definition tbl_init : list (list A) := replicate MAX_HASH_SIZE [].

Definition bucket tbl (i : nat) : list A := default [] (tbl !! i).

(** The loop over one bucket; [memcmp] of 6-byte arrays is equality. *)
Definition tbl_find tbl mac : option A :=
  List.find (fun n => bool_decide (mac_of n = mac)) (bucket tbl (key_hash A mac)).

(** [list_add(&node->hlist, &table[index])]. *)
Definition tbl_add tbl n : list (list A) := alter (cons n) (key_hash A (mac_of n)) tbl.

(** Every node is in the bucket of its address. *)
Definition tbl_placed tbl : Prop :=
  length tbl = MAX_HASH_SIZE /\
  forall i b n, tbl !! i = Some b -> n ∈ b -> key_hash A (mac_of n) = i.

(** No address occurs twice. *)
Definition tbl_unique tbl : Prop := NoDup (map mac_of (concat tbl)).

(** The map a table stands for. *)
Definition tbl_map tbl : gmap (list Z) A :=
  list_to_map (map (fun n => (mac_of n, n)) (concat tbl)).

Lemma tbl_init_placed : tbl_placed tbl_init.
Proof.
  unfold tbl_init. split; [by rewrite length_replicate|]. intros i b n Hi Hn.
  apply lookup_replicate in Hi as [-> _]. by apply elem_of_nil in Hn.
Qed.

Lemma concat_replicate_nil k : concat (replicate k ([] : list A)) = [].
Proof. by induction k. Qed.

Lemma tbl_init_unique : tbl_unique tbl_init.
Proof. unfold tbl_unique, tbl_init. rewrite concat_replicate_nil. constructor. Qed.

Lemma elem_of_table tbl n :
  n ∈ concat tbl <-> exists i b, tbl !! i = Some b /\ n ∈ b.
Proof.
  induction tbl as [|b tbl IH]; simpl.
  { split; [by intros ?%elem_of_nil|]. by intros (i & b & ? & ?). }
  rewrite elem_of_app, IH. split.
  - intros [Hn|(i & b' & Hi & Hn)]; [by exists 0%nat, b|by exists (S i), b'].
  - intros ([|i] & b' & Hi & Hn); simplify_eq/=; [by left|right; eauto].
Qed.

Lemma find_Some_elem (p : A -> bool) l n : List.find p l = Some n -> n ∈ l /\ p n = true.
Proof.
  intros H1%List.find_some. by rewrite list_elem_of_In.
Qed.

Lemma find_None_elem (p : A -> bool) l n : List.find p l = None -> n ∈ l -> p n = false.
Proof. intros H1 H2. eapply List.find_none; [done|]. by apply list_elem_of_In. Qed.

(** Looking up a MAC finds a node with that MAC, if and only if the table has
    one. *)
Lemma tbl_find_Some tbl mac n : tbl_find tbl mac = Some n -> n ∈ concat tbl /\ mac_of n = mac.
Proof.
  intros [Hn Hm%bool_decide_eq_true]%find_Some_elem. split; [|done].
  unfold bucket in Hn. destruct (tbl !! _) as [b|] eqn:E; [|by apply elem_of_nil in Hn].
  apply elem_of_table. eauto.
Qed.

Lemma tbl_find_None tbl mac n :
  tbl_placed tbl -> tbl_find tbl mac = None -> n ∈ concat tbl -> mac_of n <> mac.
Proof.
  intros [_ Hp] Hf (i & b & Hi & Hn)%elem_of_table <-.
  pose proof (Hp _ _ _ Hi Hn) as Hh.
  assert (n ∈ bucket tbl (key_hash A (mac_of n))) as Hb by (unfold bucket; by rewrite Hh, Hi).
  pose proof (find_None_elem _ _ _ Hf Hb) as He. by apply bool_decide_eq_false in He.
Qed.

Lemma nodup_mac_inj tbl n n' :
  tbl_unique tbl -> n ∈ concat tbl -> n' ∈ concat tbl -> mac_of n = mac_of n' -> n = n'.
Proof.
  unfold tbl_unique. induction (concat tbl) as [|x l IH]; simpl; intros Hu Hn Hn' He.
  { by apply elem_of_nil in Hn. }
  apply NoDup_cons in Hu as [Hx Hu].
  apply elem_of_cons in Hn as [->|Hn], Hn' as [->|Hn']; auto; exfalso; apply Hx.
  - rewrite He. by apply list_elem_of_fmap_2.
  - rewrite <- He. by apply list_elem_of_fmap_2.
Qed.

Lemma tbl_map_lookup tbl mac n :
  tbl_unique tbl -> tbl_map tbl !! mac = Some n <-> n ∈ concat tbl /\ mac_of n = mac.
Proof.
  intros Hu. unfold tbl_map. rewrite <- elem_of_list_to_map.
  - rewrite list_elem_of_fmap. split.
    + intros (x & [= -> ->] & Hx). done.
    + intros [Hn <-]. by exists n.
  - unfold tbl_unique in Hu. by rewrite <- list_fmap_compose.
Qed.

(** [tbl_find] is lookup in the map. *)
Lemma tbl_find_map tbl mac :
  tbl_placed tbl -> tbl_unique tbl -> tbl_find tbl mac = tbl_map tbl !! mac.
Proof.
  intros Hp Hu. apply option_eq. intros n. rewrite tbl_map_lookup by done. split.
  - apply tbl_find_Some.
  - intros [Hn Hm]. destruct (tbl_find tbl mac) as [n'|] eqn:E.
    + apply tbl_find_Some in E as [Hn' Hm']. f_equal.
      eapply nodup_mac_inj; [done..|congruence].
    + by destruct (tbl_find_None _ _ _ Hp E Hn).
Qed.

Lemma concat_alter_cons tbl i n :
  (i < length tbl)%nat -> concat (alter (cons n) i tbl) ≡ₚ n :: concat tbl.
Proof.
  revert i. induction tbl as [|b tbl IH]; intros [|i] Hi; simpl in Hi; try lia; [done|].
  change (alter (cons n) (S i) (b :: tbl)) with (b :: alter (cons n) i tbl).
  simpl concat. rewrite IH by lia. by rewrite Permutation_middle.
Qed.

Lemma tbl_add_elem tbl n :
  tbl_placed tbl -> concat (tbl_add tbl n) ≡ₚ n :: concat tbl.
Proof. intros [Hl _]. apply concat_alter_cons. rewrite Hl. apply key_hash_lt. Qed.

Lemma tbl_add_placed tbl n : tbl_placed tbl -> tbl_placed (tbl_add tbl n).
Proof.
  intros [Hl Hp]. split; [by rewrite <- Hl; apply length_alter|].
  intros i b n' Hi Hn'. unfold tbl_add in Hi.
  destruct (decide (i = key_hash A (mac_of n))) as [->|Hne].
  - rewrite list_lookup_alter_eq in Hi. apply fmap_Some in Hi as (b' & Hb' & ->).
    apply elem_of_cons in Hn' as [->|Hn']; [done|]. eauto.
  - rewrite list_lookup_alter_ne in Hi by done. eauto.
Qed.

Lemma tbl_add_unique tbl n :
  tbl_placed tbl -> tbl_unique tbl -> tbl_find tbl (mac_of n) = None ->
  tbl_unique (tbl_add tbl n).
Proof.
  intros Hp Hu Hf. unfold tbl_unique. rewrite tbl_add_elem by done. simpl.
  constructor; [|done]. intros (n' & He & Hn')%list_elem_of_fmap.
  by apply (tbl_find_None _ _ _ Hp Hf Hn').
Qed.

(** [tbl_add] of a new address is insertion in the map. *)
Lemma tbl_add_map tbl n :
  tbl_placed tbl -> tbl_unique tbl -> tbl_find tbl (mac_of n) = None ->
  tbl_map (tbl_add tbl n) = <[mac_of n := n]> (tbl_map tbl).
Proof.
  intros Hp Hu Hf. pose proof (tbl_add_unique _ _ Hp Hu Hf) as Hu'.
  apply map_eq. intros mac. apply option_eq. intros x.
  rewrite tbl_map_lookup, lookup_insert_Some, tbl_map_lookup by done.
  rewrite tbl_add_elem, elem_of_cons by done. split.
  - intros [[->|Hx] Hm]; [by left|]. right. split; [|done]. intros He.
    apply (tbl_find_None _ _ _ Hp Hf Hx). congruence.
  - intros [[<- <-]|(Hne & Hx & Hm)]; [by split; [left|]|]. by split; [right|].
Qed.

(** ** Updates in place *)

(** The nodes that satisfy [p] changed by [f]. *)
Definition tbl_update (p : A -> bool) (f : A -> A) tbl : list (list A) :=
  map (map (fun n => if p n then f n else n)) tbl.

Lemma concat_map_map {B} (g : A -> B) (l : list (list A)) : concat (map (map g) l) = map g (concat l).
Proof. induction l as [|b l IH]; simpl; [done|]. by rewrite IH, map_app. Qed.

Lemma tbl_update_elems p f tbl :
  concat (tbl_update p f tbl) = map (fun n => if p n then f n else n) (concat tbl).
Proof. apply concat_map_map. Qed.

Section Update.
Context (p : A -> bool) (f : A -> A) (Hf : forall n, mac_of (f n) = mac_of n).

Lemma mac_of_update n : mac_of (if p n then f n else n) = mac_of n.
Proof using Hf. by destruct (p n). Qed.

Lemma tbl_update_placed tbl : tbl_placed tbl -> tbl_placed (tbl_update p f tbl).
Proof using Hf.
  intros [Hl Hp]. split; [unfold tbl_update; by rewrite length_map|].
  intros i b n Hi Hn. unfold tbl_update in Hi. rewrite list_lookup_fmap in Hi.
  apply fmap_Some in Hi as (b' & Hb' & ->). apply list_elem_of_fmap in Hn as (n' & -> & Hn').
  rewrite mac_of_update. eauto.
Qed.

Lemma tbl_update_unique tbl : tbl_unique tbl -> tbl_unique (tbl_update p f tbl).
Proof using Hf.
  intros Hu. unfold tbl_unique. rewrite tbl_update_elems, map_map.
  erewrite map_ext; [exact Hu|]. intros n. apply mac_of_update.
Qed.

Lemma tbl_update_map tbl mac :
  tbl_unique tbl ->
  tbl_map (tbl_update p f tbl) !! mac =
  (fun n => if p n then f n else n) <$> (tbl_map tbl !! mac).
Proof using Hf.
  intros Hu. pose proof (tbl_update_unique tbl Hu) as Hu'. apply option_eq. intros n.
  rewrite tbl_map_lookup, tbl_update_elems, list_elem_of_fmap, fmap_Some by done. split.
  - intros [(x & -> & Hx) Hm]. exists x. rewrite mac_of_update in Hm.
    split; [|done]. by apply tbl_map_lookup.
  - intros (x & [Hx Hm]%tbl_map_lookup & ->); [|done]. split; [by exists x|].
    by rewrite mac_of_update.
Qed.

End Update.

(** ** Removal of the first node that satisfies a test *)

Fixpoint bucket_del (p : A -> bool) (b : list A) : option (A * list A) :=
  match b with
  | [] => None
  | n :: b => if p n then Some (n, b)
              else '(x, b) ← bucket_del p b; Some (x, n :: b)
  end.

Fixpoint tbl_del (p : A -> bool) tbl : option (A * list (list A)) :=
  match tbl with
  | [] => None
  | b :: tbl =>
      match bucket_del p b with
      | Some (x, b) => Some (x, b :: tbl)
      | None => '(x, tbl) ← tbl_del p tbl; Some (x, b :: tbl)
      end
  end.

Lemma bucket_del_Some p b x b' :
  bucket_del p b = Some (x, b') -> p x = true /\ b ≡ₚ x :: b'.
Proof.
  revert b'. induction b as [|n b IH]; simpl; intros b' E; [done|].
  destruct (p n) eqn:Ep; simp_opt; [done|].
  match goal with y : A * list A |- _ => destruct y as [y r] end. simp_opt.
  destruct (IH r) as [Hx Hr]; [done|]. split; [done|]. rewrite Hr. apply Permutation_swap.
Qed.

Lemma bucket_del_None p b : bucket_del p b = None -> Forall (fun n => p n = false) b.
Proof.
  induction b as [|n b IH]; simpl; intros E; [constructor|].
  destruct (p n) eqn:Ep; [done|]. constructor; [done|]. apply IH.
  destruct (bucket_del p b) as [[]|]; done.
Qed.

Lemma tbl_del_Some p tbl x tbl' :
  tbl_del p tbl = Some (x, tbl') -> p x = true /\ concat tbl ≡ₚ x :: concat tbl'.
Proof.
  revert tbl'. induction tbl as [|b tbl IH]; simpl; intros tbl' E; [done|].
  destruct (bucket_del p b) as [[y b']|] eqn:Eb; simp_opt.
  - destruct (bucket_del_Some _ _ _ _ Eb) as [Hx Hb]. split; [done|]. simpl. by rewrite Hb.
  - match goal with y : A * list (list A) |- _ => destruct y as [y r] end. simp_opt.
    destruct (IH r) as [Hx Hr]; [done|]. split; [done|]. simpl. rewrite Hr.
    by rewrite Permutation_middle.
Qed.

Lemma tbl_del_None p tbl :
  tbl_del p tbl = None -> Forall (fun n => p n = false) (concat tbl).
Proof.
  induction tbl as [|b tbl IH]; simpl; intros E; [constructor|].
  destruct (bucket_del p b) as [[]|] eqn:Eb; [done|]. apply Forall_app_2.
  - by apply bucket_del_None.
  - apply IH. destruct (tbl_del p tbl) as [[]|]; done.
Qed.

Lemma tbl_del_lookup p tbl x tbl' i b n :
  tbl_del p tbl = Some (x, tbl') -> tbl' !! i = Some b -> n ∈ b ->
  exists b0, tbl !! i = Some b0 /\ n ∈ b0.
Proof.
  revert tbl' i. induction tbl as [|b0 tbl IH]; simpl; intros tbl' i E Hi Hn; [done|].
  destruct (bucket_del p b0) as [[y b']|] eqn:Eb; simp_opt.
  - destruct i as [|i]; [|by exists b]. simpl in Hi. simplify_eq.
    exists b0. split; [done|]. apply bucket_del_Some in Eb as [_ ->]. by right.
  - match goal with y : A * list (list A) |- _ => destruct y as [y r] end. simp_opt.
    destruct i as [|i]; simpl in *; [simplify_eq; by exists b|]. by eapply IH.
Qed.

Lemma tbl_del_length p tbl x tbl' : tbl_del p tbl = Some (x, tbl') -> length tbl' = length tbl.
Proof.
  revert tbl'. induction tbl as [|b tbl IH]; simpl; intros tbl' E; [done|].
  destruct (bucket_del p b) as [[]|]; simp_opt; [done|].
  match goal with y : A * list (list A) |- _ => destruct y as [y r] end. simp_opt.
  simpl. by rewrite (IH r).
Qed.

Lemma tbl_del_placed p tbl x tbl' :
  tbl_placed tbl -> tbl_del p tbl = Some (x, tbl') -> tbl_placed tbl'.
Proof.
  intros [Hl Hp] E. split; [by rewrite (tbl_del_length _ _ _ _ E)|].
  intros i b n Hi Hn. destruct (tbl_del_lookup _ _ _ _ _ _ _ E Hi Hn) as (b0 & ? & ?). eauto.
Qed.

Lemma tbl_del_unique p tbl x tbl' :
  tbl_unique tbl -> tbl_del p tbl = Some (x, tbl') -> tbl_unique tbl'.
Proof.
  intros Hu [_ Hc]%tbl_del_Some. unfold tbl_unique in *. rewrite Hc in Hu.
  by inversion Hu.
Qed.

(** Removal is deletion in the map. *)
Lemma tbl_del_map p tbl x tbl' :
  tbl_unique tbl -> tbl_del p tbl = Some (x, tbl') ->
  tbl_map tbl' = delete (mac_of x) (tbl_map tbl).
Proof.
  intros Hu E. pose proof (tbl_del_unique _ _ _ _ Hu E) as Hu'.
  apply tbl_del_Some in E as [_ Hc]. apply map_eq. intros mac. apply option_eq. intros n.
  rewrite lookup_delete_Some, !tbl_map_lookup by done. rewrite Hc, elem_of_cons. split.
  - intros [Hn Hm]. split_and!; [|by right|done]. intros He.
    unfold tbl_unique in Hu. rewrite Hc in Hu. simpl in Hu. apply NoDup_cons in Hu as [Hx _].
    apply Hx. rewrite He, <- Hm. by apply list_elem_of_fmap_2.
  - intros (Hne & [->|Hn] & Hm); [done|]. done.
Qed.

(** ** Removal of every node that fails a test *)

Lemma concat_map_filter (q : A -> bool) tbl :
  concat (map (List.filter q) tbl) = List.filter q (concat tbl).
Proof.
  induction tbl as [|b tbl IH]; simpl; [done|]. by rewrite IH, List.filter_app.
Qed.

Lemma tbl_filter_placed (q : A -> bool) tbl : tbl_placed tbl -> tbl_placed (map (List.filter q) tbl).
Proof.
  intros [Hl Hp]. split; [by rewrite length_map|]. intros i b n Hi Hn.
  rewrite list_lookup_fmap in Hi. apply fmap_Some in Hi as (b' & Hb' & ->).
  apply list_elem_of_In, List.filter_In in Hn as [Hn _].
  apply (Hp i b'); [done|by apply list_elem_of_In].
Qed.

Lemma tbl_filter_unique (q : A -> bool) tbl : tbl_unique tbl -> tbl_unique (map (List.filter q) tbl).
Proof.
  unfold tbl_unique. rewrite concat_map_filter. generalize (concat tbl). intros l Hu.
  induction l as [|n l IH]; simpl in *; [done|]. apply NoDup_cons in Hu as [Hn Hu].
  destruct (q n); [|auto]. constructor; [|auto]. intros Hin. apply Hn.
  apply list_elem_of_fmap in Hin as (n' & He & Hin').
  apply list_elem_of_In, List.filter_In in Hin' as [Hin' _].
  rewrite He. apply list_elem_of_fmap_2. by apply list_elem_of_In.
Qed.

End Table.
