(* ===== verification/Client.v ===== *)
(** * Client: the client table and the visit reports

    Models src/oaf/src/af_client.c (the table of clients keyed by MAC, the visit
    records of a client, expiry, reports, the forward hook that learns
    clients), [af_get_visit_index], [af_update_client_app_info] and
    [af_send_msg_to_user] of src/oaf/src/app_filter.c.  Clients are nodes with an
    address, so that a pointer kept by a hook still names its node after the
    table changed. *)

From S2P Require Import Prelude Libc KUtils Json MacTable.

Import Libc Json.

#[local] Arguments Z.eqb : simpl never.

Module Client.

(** ** Data *)

Definition MAX_RECORD_APP_NUM : nat := 64.
Definition MAX_CLIENT_ACTIVE_TIME : Z := 90.
Definition MAX_EXPIRED_VISIT_INFO_COUNT : Z := 10.
Definition MAX_OAF_NL_MSG_LEN : Z := 1024.
Definition NF_DROP : Z := 0.
Definition NF_ACCEPT : Z := 1.

(** [app_visit_info_t], without the two history arrays, which nothing writes. *)
Record visit := mkVisit {
  v_app_id : Z; v_total_num : Z; v_drop_num : Z; v_latest_time : Z;
  v_latest_action : Z; v_down_bytes : Z; v_up_bytes : Z }.
Definition visit0 : visit := mkVisit 0 0 0 0 0 0 0.

(** [af_client_info_t]; [c_addr] is the address of the node. *)
Record client := mkClient {
  c_addr : Z; c_mac : list Z; c_ip : Z; create_jiffies : Z; update_jiffies : Z;
  visit_app_num : Z; report_count : Z; visit_info : list visit }.

#[export] Instance client_mac : HasMac client := c_mac.
#[export] Instance client_hash : KeyHash client :=
  {| key_hash := mac_hash; key_hash_lt := byte_hash_lt 5 |}.

(** [total_client], [af_client_list_table] and the allocator's next address. *)
Record clients := mkClients { total_client : Z; table : list (list client); next_addr : Z }.

(** What the kernel supplies to a call; [now_sec] is the [u_int32_t] that
    [af_get_timestamp_sec] returns. *)
Record env := mkEnv { jiffies : Z; HZ : Z; now_sec : Z; alloc_ok : bool }.

Definition set_table (t : list (list client)) (s : clients) : clients :=
  mkClients (total_client s) t (next_addr s).
Definition set_ip (ip : Z) (c : client) : client :=
  mkClient (c_addr c) (c_mac c) ip (create_jiffies c) (update_jiffies c)
    (visit_app_num c) (report_count c) (visit_info c).
Definition touch (e : env) (c : client) : client :=
  mkClient (c_addr c) (c_mac c) (c_ip c) (create_jiffies c) (jiffies e)
    (visit_app_num c) (report_count c) (visit_info c).
Definition set_report_count (n : Z) (c : client) : client :=
  mkClient (c_addr c) (c_mac c) (c_ip c) (create_jiffies c) (update_jiffies c)
    (visit_app_num c) n (visit_info c).
Definition set_visits (vs : list visit) (c : client) : client :=
  mkClient (c_addr c) (c_mac c) (c_ip c) (create_jiffies c) (update_jiffies c)
    (visit_app_num c) (report_count c) vs.

(** An assignment through a client pointer. *)
Definition at_addr (a : Z) (n : client) : bool := c_addr n =? a.
Definition write (a : Z) (f : client -> client) (s : clients) : clients :=
  set_table (tbl_update (at_addr a) f (table s)) s.

(** ** The table *)

Definition nf_client_list_init (s : clients) : clients := set_table tbl_init s.

(** Every node is unlinked and freed; the counter is left as it is. *)
Definition nf_client_list_clear (s : clients) : clients :=
  set_table (map (fun _ => []) (table s)) s.

Definition af_client_list_reset_report_num (s : clients) : clients :=
  set_table (tbl_update (fun _ => true) (set_report_count 0) (table s)) s.

Definition get_mac_hash_code (mac : list Z) : nat := mac_hash mac.

Definition find_af_client (mac : list Z) (s : clients) : option client :=
  tbl_find (table s) mac.

Definition find_af_client_by_ip (ip : Z) (s : clients) : option client :=
  List.find (fun n => c_ip n =? ip) (concat (table s)).

Definition nf_client_add (e : env) (mac : list Z) (s : clients) : option client * clients :=
  if alloc_ok e then
    let node := mkClient (next_addr s) mac 0 (jiffies e) (jiffies e) 0 0
                  (replicate MAX_RECORD_APP_NUM visit0) in
    (Some node,
     mkClients (u32 (total_client s + 1)) (tbl_add (table s) node) (next_addr s + 1))
  else (None, s).

Definition find_and_add_af_client (e : env) (mac : list Z) (s : clients)
    : option client * clients :=
  match find_af_client mac s with
  | Some nfc => (Some nfc, s)
  | None => nf_client_add e mac s
  end.

(** The expiry test, in [unsigned long] arithmetic. *)
Definition expired (e : env) (n : client) : bool :=
  u64 (update_jiffies n + MAX_CLIENT_ACTIVE_TIME * HZ e) <? jiffies e.

(** [check_client_expire]: the first expired client is removed, and the walk
    ends there. *)
Definition check_client_expire (e : env) (s : clients) : clients :=
  match tbl_del (expired e) (table s) with
  | Some (_, t) => set_table t s
  | None => s
  end.

(** ** Visit records *)

(** The first slot with this application or free; slot 0 when there is none. *)
Fixpoint visit_index (vs : list visit) (app_id : Z) (i : nat) : option nat :=
  match vs with
  | [] => None
  | v :: vs =>
      if (v_app_id v =? app_id) || (v_app_id v =? 0) then Some i
      else visit_index vs app_id (S i)
  end.
Definition af_get_visit_index (vs : list visit) (app_id : Z) : nat :=
  default 0%nat (visit_index vs app_id 0).

Definition count_visit (e : env) (app_id : Z) (drop : bool) (v : visit) : visit :=
  mkVisit app_id (u32 (v_total_num v + 1))
    (if drop then u32 (v_drop_num v + 1) else v_drop_num v)
    (now_sec e) (if drop then 1 else 0) (v_down_bytes v) (v_up_bytes v).

(** [af_update_client_app_info] on the records of the client. *)
Definition update_visits (e : env) (app_id : Z) (drop : bool) (vs : list visit) : list visit :=
  alter (count_visit e app_id drop) (af_get_visit_index vs app_id) vs.
Definition af_update_client_app_info (e : env) (app_id : Z) (drop : bool) (c : client) : client :=
  set_visits (update_visits e app_id drop (visit_info c)) c.

(** [flush_expired_visit_info]: nothing unless every slot is in use; then up to
    10 stale records are cleared.  The difference of the times is an
    [unsigned long]. *)
Definition stale (e : env) (v : visit) : bool :=
  (if 3 <? v_total_num v then 180 else 60) <? u64 (now_sec e - v_latest_time v).
Fixpoint flush_loop (e : env) (vs : list visit) (count : Z) : list visit :=
  match vs with
  | [] => []
  | v :: vs' =>
      if MAX_EXPIRED_VISIT_INFO_COUNT <=? count then vs
      else if stale e v then visit0 :: flush_loop e vs' (count + 1)
      else v :: flush_loop e vs' count
  end.
Definition flush_expired_visit_info (e : env) (c : client) : client :=
  if existsb (fun v => v_app_id v =? 0) (visit_info c) then c
  else set_visits (flush_loop e (visit_info c) 0) c.

(** ** Messages to the daemon *)

Definition le32 (z : Z) : list Z :=
  [u8 z; u8 (Z.shiftr z 8); u8 (Z.shiftr z 16); u8 (Z.shiftr z 24)].
Definition AF_MSG_MAGIC : Z := 0xa0b0c0d0.

(** [af_send_msg_to_user(pbuf, len)]: the bytes put on the socket, if any; the
    copy behind the header must stay inside [msg_buf]. *)
Definition af_send_msg_to_user (nl_ok : bool) (pbuf : list Z) (len : Z)
    : option (option (list Z)) :=
  let len := u16 len in
  if MAX_OAF_NL_MSG_LEN <=? len then Some None
  else if negb nl_ok then Some None
  else if MAX_OAF_NL_MSG_LEN <? len + 8 then None
  else Some (Some (le32 AF_MSG_MAGIC ++ le32 len ++ take (Z.to_nat len) pbuf)).

(** ** Reports *)

(** [%pI4] of an address in memory order. *)
Definition ip_str (ip : Z) : list Z :=
  dec (u8 ip) ++ chr "." :: dec (u8 (Z.shiftr ip 8)) ++
  chr "." :: dec (u8 (Z.shiftr ip 16)) ++ chr "." :: dec (u8 (Z.shiftr ip 24)).

(** One element of [visit_info]. *)
Definition visit_obj (v : visit) : cJSON :=
  cJSON_AddNumberToObject
    (cJSON_AddNumberToObject
      (cJSON_AddNumberToObject
        (cJSON_AddNumberToObject cJSON_CreateObject (bytes_of "appid") (v_app_id v))
        (bytes_of "latest_action") (v_latest_action v))
      (bytes_of "up_bytes") (v_up_bytes v))
    (bytes_of "down_bytes") (v_down_bytes v).

Definition used (v : visit) : bool := negb (v_app_id v =? 0).
Definition used_visits (vs : list visit) : list visit := List.filter used vs.

Definition root_obj (c : client) : cJSON :=
  let root := cJSON_AddStringToObject cJSON_CreateObject (bytes_of "mac") (mac_str (c_mac c)) in
  let root := cJSON_AddStringToObject root (bytes_of "ip") (ip_str (c_ip c)) in
  let root := cJSON_AddNumberToObject root (bytes_of "app_num") (visit_app_num c) in
  let arr := foldl (fun a v => cJSON_AddItemToArray a (visit_obj v)) cJSON_CreateArray
               (used_visits (visit_info c)) in
  cJSON_AddItemToObject root (bytes_of "visit_info") arr.

(** [__af_visit_info_report(node)]: the node after the call and what was sent;
    the used records are cleared while the object is built. *)
Definition __af_visit_info_report (signed_char nl_ok : bool) (c : client)
    : option (client * option (list Z)) :=
  let count := length (used_visits (visit_info c)) in
  let c' := set_visits (map (fun v => if used v then visit0 else v) (visit_info c)) c in
  out ← cJSON_Print signed_char (root_obj c);
  let out := cJSON_Minify out in
  if (0 <? Z.of_nat count) || (report_count c =? 0) then
    sent ← af_send_msg_to_user nl_ok out (Z.of_nat (length out));
    Some (set_report_count (s32 (report_count c + 1)) c', sent)
  else Some (c', None).

(** [af_visit_info_report]: the walk over the table and the messages in order. *)
Fixpoint report_bucket (signed_char nl_ok : bool) (b : list client)
    : option (list client * list (list Z)) :=
  match b with
  | [] => Some ([], [])
  | c :: b =>
      '(c', m) ← __af_visit_info_report signed_char nl_ok c;
      '(b', ms) ← report_bucket signed_char nl_ok b;
      Some (c' :: b', match m with Some m => m :: ms | None => ms end)
  end.
Fixpoint report_table (signed_char nl_ok : bool) (t : list (list client))
    : option (list (list client) * list (list Z)) :=
  match t with
  | [] => Some ([], [])
  | b :: t =>
      '(b', ms) ← report_bucket signed_char nl_ok b;
      '(t', ms') ← report_table signed_char nl_ok t;
      Some (b' :: t', ms ++ ms')
  end.
Definition af_visit_info_report (signed_char nl_ok : bool) (s : clients)
    : option (clients * list (list Z)) :=
  '(t, ms) ← report_table signed_char nl_ok (table s);
  Some (set_table t s, ms).

(** ** The forward hook *)

(** What the hooks read of a packet: its conntrack entry and device, the
    Ethernet source (or the copy in the control block), the IP source. *)
Record packet := mkPacket {
  has_ct : bool; dev_name : option (list Z); has_eth : bool;
  h_source : list Z; cb_mac : list Z; has_iph : bool; saddr : Z }.

Definition PKT_DIR_DOWN : Z := 0.
Definition PKT_DIR_UP : Z := 1.

(** [strncmp(in->name, "br", 2)]. *)
Definition get_packet_dir (name : list Z) : Z :=
  if bool_decide (take 2 name = bytes_of "br") then PKT_DIR_UP else PKT_DIR_DOWN.

Definition af_get_smac (p : packet) : list Z := if has_eth p then h_source p else cb_mac p.

Definition af_client_hook (e : env) (p : packet) (s : clients) : Z * clients :=
  if negb (has_ct p) then (NF_ACCEPT, s) else
  match dev_name p with
  | None => (NF_ACCEPT, s)
  | Some name =>
      if negb (get_packet_dir name =? PKT_DIR_UP) then (NF_ACCEPT, s) else
      let smac := af_get_smac p in
      if negb (has_iph p) then (NF_ACCEPT, s) else
      let '(nfc, s) :=
        match find_af_client smac s with
        | Some nfc => (Some nfc, s)
        | None => nf_client_add e smac s
        end in
      match nfc with
      | Some nfc =>
          if negb (c_ip nfc =? saddr p)
          then (NF_ACCEPT, write (c_addr nfc) (fun c => set_ip (saddr p) (touch e c)) s)
          else (NF_ACCEPT, s)
      | None => (NF_ACCEPT, s)
      end
  end.

(** ** The visit records of a client *)

(** The records in use come first, one per application. *)
Definition visits_wf (vs : list visit) : Prop :=
  exists us k, vs = us ++ replicate k visit0 /\ length vs = MAX_RECORD_APP_NUM /\
    Forall (fun v => v_app_id v <> 0) us /\ NoDup (map v_app_id us).

Definition visit_of (vs : list visit) (app : Z) : option visit :=
  List.find (fun v => v_app_id v =? app) vs.

Lemma find_app {A} (p : A -> bool) l1 l2 :
  List.find p (l1 ++ l2) = match List.find p l1 with Some x => Some x | None => List.find p l2 end.
Proof. induction l1 as [|x l1 IH]; simpl; [done|]. by destruct (p x). Qed.

Lemma visit_of_notin us app : app ∉ map v_app_id us -> visit_of us app = None.
Proof.
  induction us as [|v us IH]; simpl; intros Hn; [done|].
  apply not_elem_of_cons in Hn as [H1 H2]. unfold visit_of. simpl.
  rewrite (proj2 (Z.eqb_neq _ _)) by congruence. by apply IH.
Qed.

Lemma visit_of_zeros k app : app <> 0 -> visit_of (replicate k visit0) app = None.
Proof.
  intros Ha. unfold visit_of. induction k as [|k IH]; simpl; [done|].
  by rewrite (proj2 (Z.eqb_neq 0 app)) by congruence.
Qed.

Lemma visit_of_app us vs app :
  visit_of (us ++ vs) app = match visit_of us app with Some v => Some v | None => visit_of vs app end.
Proof. apply find_app. Qed.

Lemma visit_of_cons v vs app :
  visit_of (v :: vs) app = if v_app_id v =? app then Some v else visit_of vs app.
Proof. done. Qed.

Lemma visit_index_skip us rest app i :
  Forall (fun v => v_app_id v <> 0) us -> app ∉ map v_app_id us ->
  visit_index (us ++ rest) app i = visit_index rest app (i + length us).
Proof.
  intros Hus. revert i. induction Hus as [|v us Hv _ IH]; intros i Hn; simpl.
  { f_equal. lia. }
  apply not_elem_of_cons in Hn as [H1 H2].
  rewrite !(proj2 (Z.eqb_neq _ _)) by congruence. simpl. rewrite IH by done. f_equal. lia.
Qed.

(** Where a visit of [app] is counted. *)
Lemma update_visits_at e app drop u1 v u2 :
  Forall (fun v => v_app_id v <> 0) u1 -> app ∉ map v_app_id u1 ->
  v_app_id v = app \/ v_app_id v = 0 ->
  update_visits e app drop (u1 ++ v :: u2) = u1 ++ count_visit e app drop v :: u2.
Proof.
  intros Hu Hn Hv. unfold update_visits, af_get_visit_index.
  rewrite visit_index_skip by done. simpl.
  replace ((v_app_id v =? app) || (v_app_id v =? 0)) with true by lia. simpl.
  by rewrite alter_app_r_alt, Nat.sub_diag by done.
Qed.

Lemma update_visits_full e app drop v us :
  Forall (fun v => v_app_id v <> 0) (v :: us) -> app ∉ map v_app_id (v :: us) ->
  update_visits e app drop (v :: us) = count_visit e app drop v :: us.
Proof.
  intros Hu Hn. unfold update_visits, af_get_visit_index.
  pose proof (visit_index_skip (v :: us) [] app 0 Hu Hn) as Hi. rewrite app_nil_r in Hi.
  by rewrite Hi.
Qed.

(** An application that is recorded splits the records at its own. *)
Lemma visits_split us app :
  app ∈ map v_app_id us -> NoDup (map v_app_id us) ->
  exists u1 v u2, us = u1 ++ v :: u2 /\ v_app_id v = app /\ app ∉ map v_app_id u1 /\
    app ∉ map v_app_id u2.
Proof.
  intros Hin Hnd. apply list_elem_of_fmap in Hin as (v & -> & Hv).
  apply list_elem_of_split in Hv as (u1 & u2 & ->). exists u1, v, u2.
  rewrite map_app in Hnd. simpl in Hnd. apply NoDup_app in Hnd as (_ & H1 & H2).
  apply NoDup_cons in H2 as [H2 _]. split_and!; try done.
  intros H3. eapply H1; [done|]. by left.
Qed.

Lemma count_visit_app e app drop v : v_app_id (count_visit e app drop v) = app.
Proof. done. Qed.

Lemma visits_wf_update e app drop vs :
  app <> 0 -> visits_wf vs -> visits_wf (update_visits e app drop vs).
Proof.
  intros Ha (us & k & -> & Hl & Hu & Hnd).
  assert (forall ws, length (update_visits e app drop ws) = length ws) as Hlen
    by (intros; apply length_alter).
  destruct (decide (app ∈ map v_app_id us)) as [Hin|Hn].
  - destruct (visits_split us app Hin Hnd) as (u1 & v & u2 & -> & Hv & H1 & H2).
    apply Forall_app in Hu as [Hu1 Hu2].
    exists (u1 ++ count_visit e app drop v :: u2), k. split_and!; [|by rewrite Hlen| |].
    + rewrite <- !app_assoc. simpl. apply update_visits_at; auto.
    + apply Forall_app_2; [done|]. inversion Hu2. by constructor.
    + rewrite map_app in *. simpl in *. by rewrite <- Hv.
  - destruct k as [|k].
    + destruct us as [|v us]; [simpl in Hl; unfold MAX_RECORD_APP_NUM in Hl; lia|].
      exists (count_visit e app drop v :: us), 0%nat. split_and!; [|by rewrite Hlen| |].
      * simpl. rewrite !app_nil_r. by apply update_visits_full.
      * inversion Hu. by constructor.
      * simpl in *. apply not_elem_of_cons in Hn as [_ Hn]. inversion Hnd. by constructor.
    + exists (us ++ [count_visit e app drop visit0]), k. split_and!; [|by rewrite Hlen| |].
      * rewrite <- app_assoc. simpl. apply update_visits_at; auto.
      * apply Forall_app_2; [done|]. by constructor.
      * rewrite map_app. apply NoDup_app. split_and!; [done| |].
        -- intros x Hx ->%list_elem_of_singleton. done.
        -- by apply NoDup_singleton.
Qed.

(** As long as the application has a record or a slot is free, counting a
    visit changes the record of that application only: its record counts one
    visit more (one drop more if dropped), every other application's is kept. *)
Theorem update_visits_counts e app drop vs :
  visits_wf vs -> app <> 0 ->
  visit_of vs app <> None \/ (exists v, v ∈ vs /\ v_app_id v = 0) ->
  visit_of (update_visits e app drop vs) app =
    Some (count_visit e app drop (default visit0 (visit_of vs app))) /\
  forall b, b <> 0 -> b <> app ->
    visit_of (update_visits e app drop vs) b = visit_of vs b.
Proof.
  intros (us & k & -> & Hl & Hu & Hnd) Ha Hroom.
  destruct (decide (app ∈ map v_app_id us)) as [Hin|Hn].
  - destruct (visits_split us app Hin Hnd) as (u1 & v & u2 & -> & Hv & H1 & H2).
    apply Forall_app in Hu as [Hu1 _]. rewrite <- !app_assoc. simpl.
    rewrite update_visits_at by auto. rewrite !visit_of_app, !visit_of_notin by done.
    rewrite !visit_of_cons, count_visit_app, Hv, Z.eqb_refl. split; [done|].
    intros b Hb Hne. rewrite !visit_of_app, !visit_of_cons, count_visit_app, Hv.
    by rewrite (proj2 (Z.eqb_neq app b)) by congruence.
  - assert (visit_of (us ++ replicate k visit0) app = None) as Hnone
      by (by rewrite visit_of_app, visit_of_notin, visit_of_zeros).
    rewrite Hnone in *. destruct Hroom as [?|(v & Hv & Hv0)]; [done|].
    destruct k as [|k].
    { rewrite app_nil_r in Hv. rewrite Forall_forall in Hu. by apply Hu in Hv. }
    simpl. rewrite update_visits_at by auto. rewrite visit_of_app, visit_of_notin by done.
    rewrite visit_of_cons, count_visit_app, Z.eqb_refl. split; [done|].
    intros b Hb Hne. rewrite !visit_of_app, !visit_of_cons, count_visit_app.
    rewrite (proj2 (Z.eqb_neq app b)) by congruence. simpl.
    rewrite (proj2 (Z.eqb_neq 0 b)) by congruence. done.
Qed.

(** With all 64 records in use, a visit of a new application takes over the
    first record with its counters, and the application recorded there is
    forgotten. *)
Theorem update_visits_takes_over e app drop v us :
  visits_wf (v :: us) -> Forall (fun v => v_app_id v <> 0) (v :: us) ->
  visit_of (v :: us) app = None -> app <> 0 ->
  visit_of (update_visits e app drop (v :: us)) app = Some (count_visit e app drop v) /\
  visit_of (update_visits e app drop (v :: us)) (v_app_id v) = None.
Proof.
  intros (ws & k & Hw & Hl & _ & Hnd) Hall Hnone Ha.
  assert (k = 0%nat) as ->.
  { destruct k as [|k]; [done|]. rewrite Hw, Forall_app in Hall. destruct Hall as [_ Hall].
    by inversion Hall. }
  rewrite app_nil_r in Hw. subst ws.
  assert (app ∉ map v_app_id (v :: us)) as Hn.
  { intros (x & Hx & Hin)%list_elem_of_fmap.
    apply list_elem_of_In in Hin. pose proof (List.find_none _ _ Hnone x Hin) as Hf.
    simpl in Hf. lia. }
  rewrite update_visits_full by done. rewrite !visit_of_cons, count_visit_app, Z.eqb_refl.
  split; [done|]. simpl in Hn, Hnd. apply not_elem_of_cons in Hn as [H1 H2].
  rewrite (proj2 (Z.eqb_neq app _)) by congruence. inversion Hnd.
  by apply visit_of_notin.
Qed.

(** ** The table invariant *)

Definition client_wf (next : Z) (c : client) : Prop :=
  c_addr c < next /\ length (c_mac c) = 6%nat /\ visits_wf (visit_info c).

Record clients_wf (s : clients) : Prop := {
  cw_placed : tbl_placed (table s);
  cw_unique : tbl_unique (table s);
  cw_addrs : NoDup (map c_addr (concat (table s)));
  cw_nodes : Forall (client_wf (next_addr s)) (concat (table s));
}.

(** The clients by address. *)
Definition client_map (s : clients) : gmap (list Z) client := tbl_map (table s).

Lemma find_af_client_map mac s :
  clients_wf s -> find_af_client mac s = client_map s !! mac.
Proof. intros []. by apply tbl_find_map. Qed.

Lemma client_map_elem mac c s :
  clients_wf s -> client_map s !! mac = Some c <-> c ∈ concat (table s) /\ c_mac c = mac.
Proof. intros [? Hu _ _]. exact (tbl_map_lookup (table s) mac c Hu). Qed.

Lemma addr_inj s c c' :
  clients_wf s -> c ∈ concat (table s) -> c' ∈ concat (table s) -> c_addr c = c_addr c' -> c = c'.
Proof.
  intros [_ _ Hnd _]. induction (concat (table s)) as [|x l IH]; simpl; intros Hc Hc' He.
  { by apply elem_of_nil in Hc. }
  apply NoDup_cons in Hnd as [Hx Hnd].
  apply elem_of_cons in Hc as [->|Hc], Hc' as [->|Hc']; auto; exfalso; apply Hx.
  - rewrite He. by apply list_elem_of_fmap_2.
  - rewrite <- He. by apply list_elem_of_fmap_2.
Qed.

Lemma visits_wf_init : visits_wf (replicate MAX_RECORD_APP_NUM visit0).
Proof. exists [], MAX_RECORD_APP_NUM. split_and!; try done. constructor. Qed.

Lemma clients_wf_init s : clients_wf (nf_client_list_init s).
Proof.
  assert (concat (table (nf_client_list_init s)) = []) as Hn by (apply concat_replicate_nil).
  split; [apply tbl_init_placed|apply tbl_init_unique|..]; rewrite Hn; constructor.
Qed.

Lemma nf_client_add_wf e mac s c s' :
  clients_wf s -> length mac = 6%nat -> find_af_client mac s = None ->
  nf_client_add e mac s = (Some c, s') ->
  clients_wf s' /\ c_mac c = mac /\ c_ip c = 0 /\
  client_map s' = <[mac := c]> (client_map s).
Proof.
  intros [Hp Hu Ha Hn] Hmac Hf E. unfold nf_client_add in E. destruct (alloc_ok e); [|done].
  simp_opt. set (c := mkClient _ _ _ _ _ _ _ _).
  assert (tbl_find (table s) (mac_of c) = None) as Hf' by done.
  split; [split; simpl|split_and!; [done..|]; exact (tbl_add_map (table s) c Hp Hu Hf')].
  - by apply tbl_add_placed.
  - by apply tbl_add_unique.
  - rewrite tbl_add_elem by done. simpl. constructor; [|done].
    intros (x & He & Hx)%list_elem_of_fmap. rewrite Forall_forall in Hn.
    destruct (Hn x Hx) as [Hlt _]. lia.
  - rewrite tbl_add_elem by done. constructor.
    + split_and!; [simpl; lia|done|apply visits_wf_init].
    + apply (Forall_imp _ _ _ Hn). intros x (? & ? & ?). split_and!; [simpl; lia|done..].
Qed.

(** Assignments that keep the keys and the records keep the invariant. *)
Definition keeps_node (f : client -> client) : Prop :=
  forall c, c_mac (f c) = c_mac c /\ c_addr (f c) = c_addr c /\
    (visits_wf (visit_info c) -> visits_wf (visit_info (f c))).

Lemma update_wf p f s :
  keeps_node f -> clients_wf s -> clients_wf (set_table (tbl_update p f (table s)) s).
Proof.
  intros Hf [Hp Hu Ha Hn].
  assert (forall n : client, mac_of (f n) = mac_of n) as Hm by (intros n; apply Hf).
  split; simpl; [by apply tbl_update_placed|by apply tbl_update_unique|..];
    rewrite tbl_update_elems.
  - rewrite map_map. erewrite map_ext; [exact Ha|]. intros c. destruct (p c); [|done].
    apply Hf.
  - apply Forall_map. apply (Forall_imp _ _ _ Hn). intros c (H1 & H2 & H3).
    destruct (p c); [|done]. destruct (Hf c) as (H4 & H5 & H6).
    unfold client_wf. rewrite H4, H5. auto.
Qed.

Lemma write_map a f s c :
  keeps_node f -> clients_wf s -> c ∈ concat (table s) -> c_addr c = a ->
  client_map (write a f s) = <[c_mac c := f c]> (client_map s).
Proof.
  intros Hf Hs Hc Ha. apply map_eq. intros mac. unfold client_map at 1, write. simpl.
  rewrite tbl_update_map; [|intros n; apply Hf|apply Hs]. fold (client_map s).
  destruct (decide (mac = c_mac c)) as [->|Hne].
  - rewrite lookup_insert_eq.
    rewrite (proj2 (client_map_elem (c_mac c) c s Hs) (conj Hc eq_refl)). simpl.
    unfold at_addr. by rewrite Ha, Z.eqb_refl.
  - rewrite lookup_insert_ne by congruence.
    destruct (client_map s !! mac) as [x|] eqn:Ex; [|done]. simpl. unfold at_addr.
    apply client_map_elem in Ex as [Hx Hm]; [|done].
    destruct (c_addr x =? a) eqn:E; [|done]. exfalso. apply Hne.
    rewrite <- Hm. f_equal. eapply addr_inj; [done..|]. lia.
Qed.

Lemma touch_keeps e : keeps_node (touch e).
Proof. by intros c. Qed.
Lemma set_ip_keeps ip : keeps_node (set_ip ip).
Proof. by intros c. Qed.
Lemma set_report_count_keeps n : keeps_node (set_report_count n).
Proof. by intros c. Qed.
Lemma compose_keeps f g : keeps_node f -> keeps_node g -> keeps_node (fun c => f (g c)).
Proof.
  intros Hf Hg c. destruct (Hf (g c)) as (H1 & H2 & H3), (Hg c) as (H4 & H5 & H6).
  rewrite H1, H2. auto.
Qed.
Lemma update_app_keeps e app drop : app <> 0 -> keeps_node (af_update_client_app_info e app drop).
Proof. intros Ha c. split_and!; [done..|]. by apply visits_wf_update. Qed.
#[local] Hint Resolve touch_keeps set_ip_keeps set_report_count_keeps compose_keeps
  update_app_keeps : core.

Lemma write_wf a f s : keeps_node f -> clients_wf s -> clients_wf (write a f s).
Proof. apply update_wf. Qed.

Lemma check_client_expire_wf e s : clients_wf s -> clients_wf (check_client_expire e s).
Proof.
  intros Hs. unfold check_client_expire.
  destruct (tbl_del _ _) as [[x t]|] eqn:E; [|done]. destruct Hs as [Hp Hu Ha Hn].
  pose proof (tbl_del_Some _ _ _ _ E) as [_ Hc]. rewrite Hc in Ha, Hn.
  split; simpl; [by eapply tbl_del_placed|by eapply tbl_del_unique|by inversion Ha|by inversion Hn].
Qed.

(** the table refines a map keyed by MAC: a lookup finds exactly what the
    map holds, and looking up with insertion returns the client of the map or,
    when there is none and memory is available, inserts a fresh client under
    that MAC; the invariant is kept. *)
Theorem find_and_add_refines e mac s :
  clients_wf s -> length mac = 6%nat ->
  find_af_client mac s = client_map s !! mac /\
  let '(r, s') := find_and_add_af_client e mac s in
  clients_wf s' /\
  match client_map s !! mac with
  | Some c => r = Some c /\ s' = s
  | None =>
      if alloc_ok e
      then exists c, r = Some c /\ c_ip c = 0 /\ client_map s' = <[mac := c]> (client_map s)
      else r = None /\ s' = s
  end.
Proof.
  intros Hs Hmac. split; [by apply find_af_client_map|].
  unfold find_and_add_af_client. rewrite <- find_af_client_map by done.
  destruct (find_af_client mac s) as [c|] eqn:Ef; [done|].
  destruct (nf_client_add e mac s) as [r s'] eqn:E.
  destruct (alloc_ok e) eqn:Ea.
  - destruct r as [c|]; [|unfold nf_client_add in E; by rewrite Ea in E].
    destruct (nf_client_add_wf e mac s c s') as (H1 & H2 & H3 & H4); [done..|].
    split; [done|]. by exists c.
  - unfold nf_client_add in E. rewrite Ea in E. by simplify_eq.
Qed.

(** An expiry check removes at most one client, an expired one, and removes
    one if any client has expired; all others stay, but the client counter is
    not adjusted. *)
Theorem check_client_expire_spec e s :
  clients_wf s ->
  clients_wf (check_client_expire e s) /\
  total_client (check_client_expire e s) = total_client s /\
  ((check_client_expire e s = s /\ Forall (fun c => expired e c = false) (concat (table s))) \/
   exists c, client_map s !! c_mac c = Some c /\ expired e c = true /\
     client_map (check_client_expire e s) = delete (c_mac c) (client_map s)).
Proof.
  intros Hs. split; [by apply check_client_expire_wf|]. unfold check_client_expire.
  destruct (tbl_del _ _) as [[x t]|] eqn:E; (split; [done|]).
  - right. exists x. pose proof (tbl_del_Some _ _ _ _ E) as [Hx Hc]. split_and!; [|done|].
    + apply client_map_elem; [done|]. split; [|done]. rewrite Hc. by left.
    + eapply (tbl_del_map (expired e)); [apply Hs|done].
  - left. split; [done|]. by apply tbl_del_None.
Qed.

(** The clients that have expired. *)
Definition expired_num (e : env) (s : clients) : nat :=
  length (List.filter (expired e) (concat (table s))).

Lemma check_client_expire_num e s :
  expired_num e (check_client_expire e s) = pred (expired_num e s).
Proof.
  unfold check_client_expire, expired_num. destruct (tbl_del _ _) as [[x t]|] eqn:E.
  - apply tbl_del_Some in E as [Hx Hc]. cbn [table set_table].
    assert (length (List.filter (expired e) (concat (table s))) =
            length (List.filter (expired e) (x :: concat t))) as -> by (apply Permutation_length;
      clear Hx; induction Hc; simpl; repeat case_bool; eauto using perm_swap, perm_trans).
    simpl. by rewrite Hx.
  - apply tbl_del_None in E. destruct (List.filter _ _) as [|y l] eqn:Ef; [done|].
    assert (y ∈ List.filter (expired e) (concat (table s))) as Hy by (rewrite Ef; by left).
    apply list_elem_of_In, List.filter_In in Hy as [Hy Hey].
    rewrite Forall_forall in E. apply list_elem_of_In in Hy. apply E in Hy. congruence.
Qed.


(** A packet from the LAN bridge that the forward hook looks at. *)
Definition lan_packet (p : packet) : Prop :=
  has_ct p = true /\ has_iph p = true /\
  exists name, dev_name p = Some name /\ get_packet_dir name = PKT_DIR_UP.

Lemma af_client_hook_wf e p s :
  clients_wf s -> length (af_get_smac p) = 6%nat -> clients_wf (snd (af_client_hook e p s)).
Proof.
  intros Hs Hm. unfold af_client_hook. destruct (negb _); [done|].
  destruct (dev_name p); [|done]. do 2 (case_bool; [done|]).
  pose proof (find_af_client_map (af_get_smac p) s Hs) as Hf.
  destruct (find_af_client _ s) as [c|] eqn:Ef.
  - case_bool; [|done]. apply write_wf; auto.
  - destruct (nf_client_add e _ s) as [[c|] s'] eqn:Eadd.
    + destruct (nf_client_add_wf _ _ _ _ _ Hs Hm Ef Eadd) as (Hs' & _).
      case_bool; [|done]. apply write_wf; auto.
    + unfold nf_client_add in Eadd. destruct (alloc_ok e); by simplify_eq.
Qed.

(** the forward hook accepts every packet; for a packet from the LAN it
    leaves a client with the sender's MAC and current IP in the table (when
    memory is available), and the clients of all other MACs as they were. *)
Theorem af_client_hook_learns e p s :
  clients_wf s -> lan_packet p -> length (af_get_smac p) = 6%nat -> alloc_ok e = true ->
  let '(verdict, s') := af_client_hook e p s in
  verdict = NF_ACCEPT /\ clients_wf s' /\
  (exists c, client_map s' !! af_get_smac p = Some c /\ c_ip c = saddr p) /\
  forall mac, mac <> af_get_smac p -> client_map s' !! mac = client_map s !! mac.
Proof.
  intros Hs (Hct & Hip & name & Hdev & Hdir) Hm Ha.
  pose proof (af_client_hook_wf e p s Hs Hm) as Hwf. revert Hwf.
  unfold af_client_hook. rewrite Hct, Hdev, Hdir, Hip. cbn [negb Z.eqb PKT_DIR_UP].
  change (1 =? 1) with true. cbn [negb].
  assert (forall s' c, clients_wf s' -> client_map s' !! af_get_smac p = Some c ->
    (forall mac, mac <> af_get_smac p -> client_map s' !! mac = client_map s !! mac) ->
    let s'' := if negb (c_ip c =? saddr p)
      then write (c_addr c) (fun c => set_ip (saddr p) (touch e c)) s' else s' in
    (exists c, client_map s'' !! af_get_smac p = Some c /\ c_ip c = saddr p) /\
    (forall mac, mac <> af_get_smac p -> client_map s'' !! mac = client_map s !! mac)) as Hstep.
  { intros s' c Hs' Hc Hother. pose proof Hc as [Hin Hmac]%client_map_elem; [|done].
    cbv zeta. destruct (c_ip c =? saddr p) eqn:E; simpl.
    - split; [|done]. exists c. split; [done|lia].
    - rewrite (write_map _ _ s' c) by auto. rewrite Hmac. split.
      + eexists. by rewrite lookup_insert_eq.
      + intros mac Hne. rewrite lookup_insert_ne by congruence. auto. }
  pose proof (find_af_client_map (af_get_smac p) s Hs) as Hf.
  destruct (find_af_client _ s) as [c|] eqn:Ef; cbn [snd].
  - specialize (Hstep s c Hs (eq_sym Hf) (fun _ _ => eq_refl)). by destruct (negb _).
  - destruct (nf_client_add e _ s) as [[c|] s'] eqn:E.
    + destruct (nf_client_add_wf _ _ _ _ _ Hs Hm Ef E) as (Hs' & Hcm & _ & Hmap).
      specialize (Hstep s' c Hs'). rewrite Hmap, lookup_insert_eq in Hstep.
      specialize (Hstep eq_refl). destruct Hstep as [H1 H2].
      { intros mac Hne. by rewrite lookup_insert_ne by congruence. }
      by destruct (negb _).
    + unfold nf_client_add in E. rewrite Ha in E. by simplify_eq.
Qed.

(** ** Reports *)

Definition visit_ok (v : visit) : Prop :=
  0 <= v_app_id v < 2 ^ 31 /\ 0 <= v_latest_action v < 2 ^ 31 /\
  0 <= v_up_bytes v < 2 ^ 31 /\ 0 <= v_down_bytes v < 2 ^ 31.

(** A client whose numbers fit the [int] of a JSON item. *)
Definition reportable (c : client) : Prop :=
  Forall (fun b => 0 <= b < 256) (c_mac c) /\ 0 <= visit_app_num c < 2 ^ 31 /\
  Forall visit_ok (visit_info c).

Definition visit_jval (v : visit) : jval :=
  JObj [(bytes_of "appid", JNum (v_app_id v)); (bytes_of "latest_action", JNum (v_latest_action v));
        (bytes_of "up_bytes", JNum (v_up_bytes v)); (bytes_of "down_bytes", JNum (v_down_bytes v))].
Definition report_jval (c : client) : jval :=
  JObj [(bytes_of "mac", JStr (mac_str (c_mac c))); (bytes_of "ip", JStr (ip_str (c_ip c)));
        (bytes_of "app_num", JNum (visit_app_num c));
        (bytes_of "visit_info", JArr (map visit_jval (used_visits (visit_info c))))].

(** The message text. *)
Definition report_text (signed_char : bool) (c : client) : list Z :=
  cJSON_Minify (text signed_char (report_jval c) 0).

Lemma visit_obj_item v : visit_ok v -> visit_obj v = item_of None (visit_jval v).
Proof.
  intros (H1 & H2 & H3 & H4). unfold visit_obj, cJSON_AddNumberToObject, cJSON_CreateNumber.
  by rewrite !s32_id by lia.
Qed.

Lemma add_items t vi vs nm cs items :
  foldl (fun a v => cJSON_AddItemToArray a (visit_obj v)) (Item t vi vs nm cs) items =
  Item t vi vs nm (cs ++ map visit_obj items).
Proof.
  revert cs. induction items as [|x items IH]; intros cs; simpl; [by rewrite app_nil_r|].
  by rewrite IH, <- app_assoc.
Qed.

Lemma used_visits_ok vs : Forall visit_ok vs -> Forall visit_ok (used_visits vs).
Proof.
  rewrite !Forall_forall. intros Hv v Hin. apply Hv. apply list_elem_of_In, List.filter_In in Hin.
  apply list_elem_of_In. by destruct Hin.
Qed.

Lemma root_obj_item c : reportable c -> root_obj c = item_of None (report_jval c).
Proof.
  intros (_ & Hn & Hv%used_visits_ok). unfold root_obj, cJSON_CreateArray. rewrite add_items.
  unfold cJSON_AddNumberToObject, cJSON_CreateNumber. rewrite s32_id by lia.
  unfold report_jval. simpl. do 5 f_equal. rewrite map_map.
  rewrite (map_ext_in visit_obj (fun v => item_of None (visit_jval v))); [done|].
  intros v Hin. apply visit_obj_item. rewrite Forall_forall in Hv. apply Hv.
  by apply list_elem_of_In.
Qed.

Lemma dec_addr n : 0 <= n -> Forall addr_byte (dec n).
Proof.
  intros Hn. unfold dec. rewrite (proj2 (Z.ltb_ge _ _)) by lia.
  apply (Forall_imp _ _ _ (digits_isdigit 20 n Hn)). intros c Hc.
  unfold isdigit in Hc. unfold addr_byte. chr_simpl. lia.
Qed.

Lemma ip_str_addr ip : Forall addr_byte (ip_str ip).
Proof.
  assert (addr_byte (chr ".")) by (unfold addr_byte; chr_simpl; lia).
  assert (forall z, Forall addr_byte (dec (u8 z))) by (intros z; apply dec_addr, u8_range).
  unfold ip_str. repeat (apply Forall_app_2; [done|]; constructor; [done|]). done.
Qed.

Lemma ip_str_bytes ip : Forall text_byte (ip_str ip).
Proof. apply (Forall_imp _ _ _ (ip_str_addr ip)), addr_text. Qed.

Lemma report_jval_ok c : reportable c -> jval_ok (report_jval c).
Proof.
  intros (Hm & Hn & Hv%used_visits_ok). apply jval_ok_obj.
  repeat (apply Forall_cons_2; [split; [by apply name_ok|]|]); [..|constructor].
  - by apply mac_str_bytes.
  - apply ip_str_bytes.
  - done.
  - change (jval_ok (JArr (map visit_jval (used_visits (visit_info c))))). apply jval_ok_arr.
    apply Forall_map. apply (Forall_imp _ _ _ Hv). intros v (H1 & H2 & H3 & H4).
    apply jval_ok_obj.
    repeat (apply Forall_cons_2; [split; [by apply name_ok|done]|]). constructor.
Qed.

Lemma report_printed signed_char c :
  reportable c -> cJSON_Print signed_char (root_obj c) = Some (text signed_char (report_jval c) 0).
Proof.
  intros Hc. rewrite root_obj_item by done. apply print_value_text. by apply report_jval_ok.
Qed.

(** The client after its report. *)
Definition drained (c : client) : client :=
  set_report_count (s32 (report_count c + 1))
    (set_visits (map (fun v => if used v then visit0 else v) (visit_info c)) c).

Definition due (c : client) : bool :=
  (0 <? Z.of_nat (length (used_visits (visit_info c)))) || (report_count c =? 0).

Lemma report_due signed_char nl_ok c :
  reportable c -> due c = true ->
  __af_visit_info_report signed_char nl_ok c =
  sent ← af_send_msg_to_user nl_ok (report_text signed_char c)
           (Z.of_nat (length (report_text signed_char c)));
  Some (drained c, sent).
Proof.
  intros Hc Hd. unfold __af_visit_info_report. rewrite report_printed by done.
  cbn [mbind option_bind]. unfold due in Hd. rewrite Hd. done.
Qed.

Lemma report_jval_minify c : reportable c -> jval_minify (report_jval c).
Proof.
  intros (Hm & _). apply jval_minify_obj.
  assert (Forall jval_minify (map visit_jval (used_visits (visit_info c)))) as Hv.
  { apply Forall_map, Forall_forall. intros v _. apply jval_minify_obj. by repeat constructor. }
  repeat (apply Forall_cons_2; [split; [done|]|]); [..|constructor]; cbn [snd].
  - by apply minify_safe_addr, mac_str_addr.
  - by apply minify_safe_addr, ip_str_addr.
  - done.
  - by apply jval_minify_arr.
Qed.

(** The text a report carries, printed and minified, is JSON that reads
    back, with the module's own parser, as the client's MAC, IP and used visit
    records. *)
Theorem report_text_parses `{Klib} signed_char uc0 c :
  reportable c ->
  exists t, cJSON_Print signed_char (root_obj c) = Some t /\
    cJSON_Parse signed_char uc0 (cJSON_Minify t ++ [0]) = Some (Some (item_of None (report_jval c))).
Proof.
  intros Hc. exists (text signed_char (report_jval c) 0). split; [by apply report_printed|].
  pose proof (report_jval_ok c Hc) as Hok.
  rewrite minify_whole by (done || by apply report_jval_minify). by apply parse_text.
Qed.

Lemma report_sent signed_char c :
  reportable c -> due c = true -> Z.of_nat (length (report_text signed_char c)) <= 1016 ->
  __af_visit_info_report signed_char true c =
  Some (drained c, Some (le32 AF_MSG_MAGIC ++
    le32 (Z.of_nat (length (report_text signed_char c))) ++ report_text signed_char c)).
Proof.
  intros Hc Hd Hl. rewrite report_due by done. unfold af_send_msg_to_user, MAX_OAF_NL_MSG_LEN.
  rewrite u16_id by lia. rewrite (proj2 (Z.leb_gt _ _)), (proj2 (Z.ltb_ge _ _)) by lia.
  cbn [negb mbind option_bind]. by rewrite Nat2Z.id, take_ge.
Qed.

(** A report that is due and fits the message buffer is sent whole, behind
    its header with the magic number and its length, and the client's records
    are cleared. *)
Theorem report_delivers signed_char c :
  reportable c -> due c = true -> Z.of_nat (length (report_text signed_char c)) <= 1016 ->
  __af_visit_info_report signed_char true c =
  Some (drained c, Some (le32 AF_MSG_MAGIC ++
    le32 (Z.of_nat (length (report_text signed_char c))) ++ report_text signed_char c)).
Proof. apply report_sent. Qed.

(** A report of 1024 bytes or more is not sent, yet the client's records are
    cleared: the visits are lost. *)
Theorem report_lost signed_char nl_ok c :
  reportable c -> due c = true ->
  1024 <= Z.of_nat (length (report_text signed_char c)) < 65536 ->
  __af_visit_info_report signed_char nl_ok c = Some (drained c, None).
Proof.
  intros Hc Hd Hl. rewrite report_due by done. unfold af_send_msg_to_user, MAX_OAF_NL_MSG_LEN.
  rewrite u16_id by lia. by rewrite (proj2 (Z.leb_le _ _)) by lia.
Qed.

(** A report of 1017 to 1023 bytes passes the size check, but with its
    header it is longer than the message buffer it is copied to. *)
Theorem report_overflows signed_char c :
  reportable c -> due c = true ->
  1017 <= Z.of_nat (length (report_text signed_char c)) <= 1023 ->
  __af_visit_info_report signed_char true c = None.
Proof.
  intros Hc Hd Hl. rewrite report_due by done. unfold af_send_msg_to_user, MAX_OAF_NL_MSG_LEN.
  rewrite u16_id by lia. by rewrite (proj2 (Z.leb_gt _ _)), (proj2 (Z.ltb_lt _ _)) by lia.
Qed.

(** *** Reports keep the table *)

Definition same_node (c c' : client) : Prop :=
  c_mac c' = c_mac c /\ c_addr c' = c_addr c /\
  (visits_wf (visit_info c) -> visits_wf (visit_info c')).

Lemma cleared_visits vs :
  visits_wf vs ->
  map (fun v => if used v then visit0 else v) vs = replicate MAX_RECORD_APP_NUM visit0.
Proof.
  intros (us & k & -> & Hl & Hu & _). rewrite <- Hl. clear Hl.
  induction Hu as [|v us Hv _ IH]; simpl.
  - rewrite length_replicate. induction k as [|k IH]; simpl; [done|]. by f_equal.
  - unfold used at 1. rewrite (proj2 (Z.eqb_neq _ _)) by done. simpl. by f_equal.
Qed.

Lemma report_same_node signed_char nl_ok c c' m :
  __af_visit_info_report signed_char nl_ok c = Some (c', m) -> same_node c c'.
Proof.
  intros H1. unfold __af_visit_info_report in H1. simp_opt.
  assert (forall n, same_node c (set_report_count n
    (set_visits (map (fun v => if used v then visit0 else v) (visit_info c)) c))) as Hn.
  { intros n. split_and!; [done..|]. intros Hv. simpl. rewrite cleared_visits by done.
    apply visits_wf_init. }
  case_match; simp_opt; [apply Hn|]. exact (Hn (report_count c)).
Qed.

Lemma report_bucket_same signed_char nl_ok b b' ms :
  report_bucket signed_char nl_ok b = Some (b', ms) -> Forall2 same_node b b'.
Proof.
  revert b' ms. induction b as [|c b IH]; intros b' ms H1; simpl in H1; simp_opt; [constructor|].
  match goal with x : client * option (list Z) |- _ => destruct x end. simp_opt.
  match goal with x : list client * list (list Z) |- _ => destruct x end. simp_opt.
  constructor; [by eapply report_same_node|by eapply IH].
Qed.

Lemma report_table_same signed_char nl_ok t t' ms :
  report_table signed_char nl_ok t = Some (t', ms) -> Forall2 (Forall2 same_node) t t'.
Proof.
  revert t' ms. induction t as [|b t IH]; intros t' ms H1; simpl in H1; simp_opt; [constructor|].
  match goal with x : list client * list (list Z) |- _ => destruct x end. simp_opt.
  match goal with x : list (list client) * list (list Z) |- _ => destruct x end. simp_opt.
  constructor; [by eapply report_bucket_same|by eapply IH].
Qed.

Lemma same_table_wf s t' :
  Forall2 (Forall2 same_node) (table s) t' -> clients_wf s -> clients_wf (set_table t' s).
Proof.
  intros Ht [[Hl Hp] Hu Ha Hn].
  assert (Forall2 same_node (concat (table s)) (concat t')) as Hc.
  { clear -Ht. induction Ht; simpl; [constructor|]. by apply Forall2_app. }
  assert (map c_mac (concat t') = map c_mac (concat (table s))) as Hm.
  { clear -Hc. induction Hc as [|c c' l l' (H1 & _)]; simpl; [done|]. by f_equal. }
  assert (map c_addr (concat t') = map c_addr (concat (table s))) as Haddr.
  { clear -Hc. induction Hc as [|c c' l l' (_ & H1 & _)]; simpl; [done|]. by f_equal. }
  split; cbn [table set_table].
  - split; [by rewrite <- (Forall2_length _ _ _ Ht)|]. intros i b' n' Hi Hin.
    destruct (Forall2_lookup_r _ _ _ _ _ Ht Hi) as (b & Hb & Hbb).
    apply list_elem_of_lookup in Hin as [j Hj].
    destruct (Forall2_lookup_r _ _ _ _ _ Hbb Hj) as (n & Hnj & (Hmac & _)).
    change (mac_hash (c_mac n') = i). rewrite Hmac. apply (Hp i b n Hb).
    by eapply list_elem_of_lookup_2.
  - unfold tbl_unique in *. change (NoDup (map c_mac (concat t'))). by rewrite Hm.
  - by rewrite Haddr.
  - cbn [next_addr]. clear -Hc Hn. induction Hc as [|c c' l l' (H1 & H2 & H3)]; [constructor|].
    apply Forall_cons in Hn as [(H4 & H5 & H6) Hn]. constructor; [|auto].
    unfold client_wf. rewrite H1, H2. auto.
Qed.

Lemma af_visit_info_report_wf signed_char nl_ok s s' ms :
  clients_wf s -> af_visit_info_report signed_char nl_ok s = Some (s', ms) -> clients_wf s'.
Proof.
  intros Hs H1. unfold af_visit_info_report in H1. simp_opt.
  match goal with x : list (list client) * list (list Z) |- _ => destruct x end. simp_opt.
  apply same_table_wf; [|done]. by eapply report_table_same.
Qed.

(** ** Witnesses *)

Definition env_demo : env := mkEnv 10000 100 1700000000 true.
Definition clients0 : clients := nf_client_list_init (mkClients 0 [] 0).
Definition mac_demo : list Z := [0; 17; 34; 51; 68; 85].
Definition packet_demo : packet :=
  mkPacket true (Some (bytes_of "br-lan")) true mac_demo [] true 0x6401a8c0.
Definition visits_demo (base : Z) (n : nat) : list visit :=
  map (fun i => mkVisit (base + Z.of_nat i) 1 0 0 0 0 0) (seq 0 n) ++
  replicate (MAX_RECORD_APP_NUM - n) visit0.
Definition client_demo (base : Z) (n : nat) : client :=
  mkClient 0 mac_demo 0x6401a8c0 0 0 0 0 (visits_demo base n).

Lemma visits_demo_wf base n :
  0 < base -> (n <= 64)%nat -> visits_wf (visits_demo base n).
Proof.
  intros Hb Hn. eexists _, _. split_and!; [done| | |].
  - unfold visits_demo. rewrite length_app, length_map, length_seq, length_replicate.
    unfold MAX_RECORD_APP_NUM. lia.
  - apply Forall_map, Forall_forall. intros i _. simpl. lia.
  - rewrite map_map. simpl. apply NoDup_fmap_2; [intros i j; lia|apply NoDup_seq].
Qed.

Lemma client_demo_reportable base n :
  0 < base < 1000000 -> (n <= 64)%nat -> reportable (client_demo base n).
Proof.
  intros Hb Hn. split_and!; [repeat constructor; lia|simpl; lia..|]. simpl.
  apply Forall_app_2.
  - apply Forall_map, Forall_forall. intros i [_ Hi]%elem_of_seq.
    unfold visit_ok. simpl. split_and!; lia.
  - apply Forall_replicate. unfold visit_ok. simpl. lia.
Qed.

Lemma update_visits_counts_witness :
  visit_of (update_visits env_demo 1001 true (visits_demo 1001 3)) 1001 =
    Some (mkVisit 1001 2 1 1700000000 1 0 0) /\
  visit_of (update_visits env_demo 1001 true (visits_demo 1001 3)) 1002 =
    Some (mkVisit 1002 1 0 0 0 0 0).
Proof.
  destruct (update_visits_counts env_demo 1001 true (visits_demo 1001 3)) as [H1 H2].
  - apply visits_demo_wf; lia.
  - lia.
  - left. vm_compute. discriminate.
  - split; [rewrite H1; vm_compute; reflexivity|].
    rewrite H2 by lia. vm_compute. reflexivity.
Defined.

Lemma update_visits_takes_over_witness :
  visit_of (update_visits env_demo 3000 false (visits_demo 1001 64)) 3000 =
    Some (mkVisit 3000 2 0 1700000000 0 0 0) /\
  visit_of (update_visits env_demo 3000 false (visits_demo 1001 64)) 1001 = None.
Proof.
  pose proof (visits_demo_wf 1001 64 ltac:(lia) ltac:(lia)) as Hw.
  apply (update_visits_takes_over env_demo 3000 false _ _ Hw); [|vm_compute; reflexivity|lia].
  apply (bool_decide_unpack _). vm_compute. exact I.
Defined.

Lemma find_and_add_refines_witness :
  find_af_client mac_demo clients0 = client_map clients0 !! mac_demo /\
  exists c, client_map (snd (find_and_add_af_client env_demo mac_demo clients0)) =
    <[mac_demo := c]> (client_map clients0).
Proof.
  destruct (find_and_add_refines env_demo mac_demo clients0) as [H1 H2];
    [apply clients_wf_init|reflexivity|].
  split; [exact H1|]. destruct (find_and_add_af_client _ _ _) as [r s'].
  destruct H2 as [_ H2]. rewrite <- H1 in H2.
  change (find_af_client mac_demo clients0) with (@None client) in H2. cbv iota in H2.
  change (alloc_ok env_demo) with true in H2. cbv iota in H2.
  destruct H2 as (c & _ & _ & Hc). exists c. exact Hc.
Defined.

Lemma check_client_expire_spec_witness :
  let s := snd (af_client_hook (mkEnv 0 100 0 true) packet_demo clients0) in
  clients_wf (check_client_expire env_demo s) /\
  total_client (check_client_expire env_demo s) = 1 /\
  client_map (check_client_expire env_demo s) !! mac_demo = None.
Proof.
  intros s. destruct (check_client_expire_spec env_demo s) as (H1 & H2 & _).
  - apply af_client_hook_wf; [apply clients_wf_init|reflexivity].
  - split; [exact H1|]. split; [rewrite H2; reflexivity|vm_compute; reflexivity].
Defined.


Lemma af_client_hook_learns_witness :
  exists c, client_map (snd (af_client_hook env_demo packet_demo clients0)) !! mac_demo = Some c /\
    c_ip c = 0x6401a8c0.
Proof.
  pose proof (af_client_hook_learns env_demo packet_demo clients0 (clients_wf_init _)) as H1.
  destruct (af_client_hook _ _ _) as [v s'].
  destruct H1 as (_ & _ & H1 & _); [|reflexivity|reflexivity|exact H1].
  split; [reflexivity|]. split; [reflexivity|]. eexists. split; reflexivity.
Defined.

Import KlibRef.

Lemma report_text_parses_witness :
  exists t, cJSON_Print false (root_obj (client_demo 1001 2)) = Some t /\
    cJSON_Parse false 0 (cJSON_Minify t ++ [0]) =
      Some (Some (item_of None (report_jval (client_demo 1001 2)))).
Proof. apply (report_text_parses false 0). apply client_demo_reportable; lia. Defined.

Lemma report_delivers_witness :
  exists m, __af_visit_info_report false true (client_demo 1001 15) =
    Some (drained (client_demo 1001 15), Some m) /\ length m = 998%nat.
Proof.
  eexists. split.
  - apply (report_delivers false (client_demo 1001 15));
      [apply client_demo_reportable; lia|vm_compute; reflexivity|vm_compute; discriminate].
  - vm_compute. reflexivity.
Defined.

Lemma report_lost_witness :
  __af_visit_info_report false true (client_demo 1001 16) = Some (drained (client_demo 1001 16), None).
Proof.
  apply (report_lost false true (client_demo 1001 16));
    [apply client_demo_reportable; lia|vm_compute; reflexivity|].
  split; vm_compute; [discriminate|reflexivity].
Defined.

Lemma report_overflows_witness :
  __af_visit_info_report false true (client_demo 100001 15) = None.
Proof.
  apply (report_overflows false (client_demo 100001 15));
    [apply client_demo_reportable; lia|vm_compute; reflexivity|].
  split; vm_compute; discriminate.
Defined.

End Client.
