(* ===== verification/Rules.v ===== *)
(** * Rules: the filter configuration of the kernel module

    Models src/oaf/src/app_filter_config.c: the table of blocked applications,
    the MAC list of filtered users, the JSON commands that change them and the
    character device they are written to. *)

From S2P Require Import Prelude Libc KUtils Json MacTable.

Import Libc Json.

#[local] Arguments Z.eqb : simpl never.

Module Rules.

(** ** Data *)

Definition AF_MAX_APP_TYPE_NUM : Z := 16.
Definition AF_MAX_APP_NUM : Z := 256.
Definition AF_TRUE : Z := 1.
Definition AF_FALSE : Z := 0.
Definition EINVAL : Z := 22.

Inductive AF_CONFIG_CMD :=
  AF_CMD_ADD_APPID | AF_CMD_DEL_APPID | AF_CMD_CLEAN_APPID | AF_CMD_SET_MAC_LIST.
Definition config_cmd (n : Z) : option AF_CONFIG_CMD :=
  match n with
  | 1 => Some AF_CMD_ADD_APPID | 2 => Some AF_CMD_DEL_APPID
  | 3 => Some AF_CMD_CLEAN_APPID | 4 => Some AF_CMD_SET_MAC_LIST
  | _ => None
  end.

(** [af_mac_info_t]. *)
Record mac_node := mkMac { m_mac : list Z }.
#[export] Instance mac_node_mac : HasMac mac_node := m_mac.
#[export] Instance mac_node_hash : KeyHash mac_node :=
  {| key_hash := mac_hash; key_hash_lt := byte_hash_lt 5 |}.

(** [g_app_id_array] row by row, [total_mac] and [af_mac_list_table]. *)
Record rules := mkRules {
  g_app_id_array : list Z; total_mac : Z; af_mac_list_table : list (list mac_node) }.
Definition set_apps (a : list Z) (r : rules) : rules :=
  mkRules a (total_mac r) (af_mac_list_table r).

(** ** Blocked applications *)

Definition AF_APP_TYPE (a : Z) : Z := Z.quot a 1000.
Definition AF_APP_ID (a : Z) : Z := Z.rem a 1000.

(** Where [g_app_id_array[type][id]] is in memory: the rows are contiguous, so
    an [id] past its row is in a later one, and past the last row outside. *)
Definition app_slot (appid : Z) : Z := AF_APP_TYPE appid * AF_MAX_APP_NUM + AF_APP_ID appid.

Definition af_init_app_status (r : rules) : rules :=
  set_apps (replicate (Z.to_nat (AF_MAX_APP_TYPE_NUM * AF_MAX_APP_NUM)) AF_FALSE) r.

Definition af_get_app_status (appid : Z) (r : rules) : option Z :=
  g_app_id_array r @! app_slot appid.

Fixpoint change_status (ids : list cJSON) (status : Z) (a : list Z) : option (list Z) :=
  match ids with
  | [] => Some a
  | c :: ids => a ← wr a (app_slot (valueint c)) status; change_status ids status a
  end.

(** [af_change_app_status(data_obj, status)], [data_obj] not NULL: return code
    and rules; [GetArrayItem] of an index below the size is never NULL. *)
Definition af_change_app_status (data_obj : cJSON) (status : Z) (r : rules)
    : option (Z * rules) :=
  appid_arr ← cJSON_GetObjectItem data_obj (bytes_of "apps");
  match appid_arr with
  | None => Some (-1, r)
  | Some appid_arr =>
      a ← change_status (child appid_arr) status (g_app_id_array r);
      Some (0, set_apps a r)
  end.

(** ** Filtered users *)

Definition af_mac_list_init (r : rules) : rules :=
  mkRules (g_app_id_array r) (total_mac r) tbl_init.
Definition af_mac_list_clear (r : rules) : rules :=
  mkRules (g_app_id_array r) 0 (map (fun _ => []) (af_mac_list_table r)).
Definition hash_mac (mac : list Z) : nat := mac_hash mac.
Definition find_af_mac (mac : list Z) (r : rules) : option mac_node :=
  tbl_find (af_mac_list_table r) mac.
Definition af_mac_add (alloc_ok : bool) (mac : list Z) (r : rules) : rules :=
  if alloc_ok then
    mkRules (g_app_id_array r) (u32 (total_mac r + 1))
      (tbl_add (af_mac_list_table r) (mkMac mac))
  else r.
Definition is_user_match_enable (r : rules) : bool := 0 <? total_mac r.

Section Config.
Context `{Klib} (signed_char : bool) (uc0 : Z) (alloc_ok : bool).

(** [mac_to_hex]: the six bytes, or nothing when the text is no address. *)
Definition mac_to_hex (mac : list Z) : option (list Z) :=
  let mac_tmp := sscanf mac MAC_SCAN_FMT in
  if bool_decide (length mac_tmp = 6%nat) then Some (map u8 mac_tmp) else None.

(** The loop of [af_set_mac_list]; an element without string is a read through
    NULL. *)
Fixpoint add_macs (objs : list cJSON) (r : rules) : option rules :=
  match objs with
  | [] => Some r
  | mac_obj :: objs =>
      s ← valuestring mac_obj;
      add_macs objs
        (match mac_to_hex s with Some mac_hex => af_mac_add alloc_ok mac_hex r | None => r end)
  end.

Definition af_set_mac_list (data_obj : option cJSON) (r : rules) : option (Z * rules) :=
  match data_obj with
  | None => Some (-1, r)
  | Some data_obj =>
      mac_arr ← cJSON_GetObjectItem data_obj (bytes_of "mac_list");
      match mac_arr with
      | None => Some (-1, r)
      | Some mac_arr => r ← add_macs (child mac_arr) (af_mac_list_clear r); Some (0, r)
      end
  end.

(** ** Commands *)

Definition af_config_handle (config : list Z) (len : Z) (r : rules) : option (Z * rules) :=
  if len =? 0 then Some (-1, r) else
  config_obj ← cJSON_Parse signed_char uc0 config;
  match config_obj with
  | None => Some (-1, r)
  | Some config_obj =>
      cmd_obj ← cJSON_GetObjectItem config_obj (bytes_of "op");
      match cmd_obj with
      | None => Some (-1, r)
      | Some cmd_obj =>
          data_obj ← cJSON_GetObjectItem config_obj (bytes_of "data");
          match config_cmd (valueint cmd_obj) with
          | Some AF_CMD_ADD_APPID =>
              match data_obj with
              | None => Some (0, r)
              | Some d => '(_, r) ← af_change_app_status d AF_TRUE r; Some (0, r)
              end
          | Some AF_CMD_DEL_APPID =>
              match data_obj with
              | None => Some (0, r)
              | Some d => '(_, r) ← af_change_app_status d AF_FALSE r; Some (0, r)
              end
          | Some AF_CMD_CLEAN_APPID => Some (0, af_init_app_status r)
          | Some AF_CMD_SET_MAC_LIST => '(_, r) ← af_set_mac_list data_obj r; Some (0, r)
          | None => Some (-1, r)
          end
      end
  end.

(** ** The character device *)

Definition CDEV_BUF_SIZE : Z := Z.shiftl 256 10.

(** [struct af_cdev_file] of an open file. *)
Record af_cdev_file := mkFile { f_size : Z; f_buf : list Z }.
Definition af_cdev_open : af_cdev_file :=
  mkFile 0 (replicate (Z.to_nat CDEV_BUF_SIZE) 0).

(** [af_cdev_write]; [left] is what [copy_from_user] returns, the number of bytes
    it could not read: it puts zeros in their place, and the size stays. *)
Definition af_cdev_write (left : nat) (data : list Z) (f : af_cdev_file) : Z * af_cdev_file :=
  let count := Z.of_nat (length data) in
  if CDEV_BUF_SIZE <? f_size f + count then (- EINVAL, f) else
  let buf := take (Z.to_nat (f_size f)) (f_buf f) ++
             take (length data - left) data ++ replicate (left `min` length data) 0 ++
             drop (Z.to_nat (f_size f) + length data) (f_buf f) in
  if negb (left =? 0)%nat then (- EINVAL, mkFile (f_size f) buf)
  else (count, mkFile (f_size f + count) buf).

(** [af_cdev_release] runs the command; its result is ignored. *)
Definition af_cdev_release (f : af_cdev_file) (r : rules) : option rules :=
  '(_, r) ← af_config_handle (f_buf f) (f_size f) r; Some r.

End Config.

(** ** The table of applications *)

Definition app_table_ok (r : rules) : Prop := length (g_app_id_array r) = 4096%nat.

(** Application numbers that have a slot of their own. *)
Definition app_ok (a : Z) : Prop := 0 <= a < 16000 /\ a mod 1000 < 256.

#[export] Instance app_ok_dec a : Decision (app_ok a).
Proof. unfold app_ok. apply _. Defined.

Lemma app_slot_div a : 0 <= a -> app_slot a = a / 1000 * 256 + a mod 1000.
Proof.
  intros Ha. unfold app_slot, AF_APP_TYPE, AF_APP_ID, AF_MAX_APP_NUM.
  by rewrite Z.quot_div_nonneg, Z.rem_mod_nonneg by lia.
Qed.

Lemma app_slot_range a : app_ok a -> 0 <= app_slot a < 4096.
Proof.
  intros [Ha Hm]. rewrite app_slot_div by lia.
  pose proof (Z.mod_pos_bound a 1000 ltac:(lia)).
  assert (0 <= a / 1000 < 16); [|lia].
  split; [apply Z.div_pos; lia|apply Z.div_lt_upper_bound; lia].
Qed.

Lemma app_slot_inj a b : app_ok a -> app_ok b -> app_slot a = app_slot b -> a = b.
Proof.
  intros [Ha Hma] [Hb Hmb]. rewrite !app_slot_div by lia. intros He.
  pose proof (Z.mod_pos_bound a 1000 ltac:(lia)). pose proof (Z.mod_pos_bound b 1000 ltac:(lia)).
  pose proof (Z.div_mod a 1000 ltac:(lia)). pose proof (Z.div_mod b 1000 ltac:(lia)). lia.
Qed.

Lemma change_status_ok ids st a :
  length a = 4096%nat -> Forall app_ok ids ->
  exists a', change_status (map (fun i => item_of None (JNum i)) ids) st a = Some a' /\
    length a' = 4096%nat /\
    forall b, app_ok b -> rd a' (app_slot b) =
      if bool_decide (b ∈ ids) then Some st else rd a (app_slot b).
Proof.
  intros Hl Hids. revert a Hl. induction Hids as [|i ids Hi Hids IH]; intros a Hl.
  - by exists a.
  - pose proof (app_slot_range i Hi) as Hs. cbn [map change_status].
    change (valueint (item_of None (JNum i))) with i.
    destruct (wr a (app_slot i) st) as [a1|] eqn:E.
    2: { rewrite wr_Some in E by lia. done. }
    cbn [mbind option_bind]. pose proof (wr_length _ _ _ _ E) as Hl1.
    destruct (IH a1) as (a' & -> & Hl' & Hr); [lia|]. exists a'. split_and!; [done..|].
    intros b Hb. rewrite Hr by done. rewrite (wr_rd _ _ _ _ _ E) by (apply app_slot_range; done).
    destruct (decide (b = i)) as [->|Hne].
    + rewrite Z.eqb_refl, (bool_decide_true (i ∈ i :: ids)) by by left. by destruct (bool_decide _).
    + rewrite (proj2 (Z.eqb_neq _ _)) by (intros He; by apply app_slot_inj in He).
      rewrite (bool_decide_ext (b ∈ i :: ids) (b ∈ ids)); [done|].
      rewrite elem_of_cons. split; [by intros [He|Hin]|by right].
Qed.

(** The commands as they are written to the device. *)
Definition apps_jval (op : Z) (ids : list Z) : jval :=
  JObj [(bytes_of "op", JNum op);
        (bytes_of "data", JObj [(bytes_of "apps", JArr (map JNum ids))])].
Definition macs_jval (macs : list (list Z)) : jval :=
  JObj [(bytes_of "op", JNum 4);
        (bytes_of "data", JObj [(bytes_of "mac_list", JArr (map (fun m => JStr (mac_str m)) macs))])].

Lemma apps_jval_ok op ids : 0 <= op < 2 ^ 31 -> Forall app_ok ids -> jval_ok (apps_jval op ids).
Proof.
  intros Hop Hids. apply jval_ok_obj.
  apply Forall_cons_2; [split; [by apply name_ok|done]|].
  apply Forall_cons_2; [split; [by apply name_ok|]|constructor]. apply jval_ok_obj.
  apply Forall_cons_2; [split; [by apply name_ok|]|constructor]. apply jval_ok_arr.
  apply Forall_map. apply (Forall_imp _ _ _ Hids). intros a [Ha _]. simpl. lia.
Qed.

(** Running an add or delete command. *)
Lemma config_apps `{Klib} signed_char uc0 alloc_ok op ids r rest len :
  app_table_ok r -> Forall app_ok ids -> op = 1 \/ op = 2 -> len <> 0 ->
  let buf := text signed_char (apps_jval op ids) 0 ++ 0 :: rest in
  exists r', af_config_handle signed_char uc0 alloc_ok buf len r = Some (0, r') /\
    app_table_ok r' /\ total_mac r' = total_mac r /\ af_mac_list_table r' = af_mac_list_table r /\
    forall a, app_ok a -> af_get_app_status a r' =
      if bool_decide (a ∈ ids) then Some (if op =? 1 then AF_TRUE else AF_FALSE)
      else af_get_app_status a r.
Proof.
  intros Hr Hids Hop Hlen buf. unfold af_config_handle.
  rewrite (proj2 (Z.eqb_neq _ 0)) by done.
  unfold buf. rewrite parse_text; [|apply apps_jval_ok; [lia|done]|done].
  destruct (change_status_ok ids (if op =? 1 then AF_TRUE else AF_FALSE) (g_app_id_array r) Hr Hids)
    as (a' & Ha & Hl & Hget).
  exists (set_apps a' r).
  assert (forall st, st = (if op =? 1 then AF_TRUE else AF_FALSE) ->
    af_change_app_status (item_of None (JObj [(bytes_of "apps", JArr (map JNum ids))])) st r =
    Some (0, set_apps a' r)) as Hch.
  { intros st ->. unfold af_change_app_status.
    change (cJSON_GetObjectItem _ _) with
      (Some (Some (item_of (Some (bytes_of "apps")) (JArr (map JNum ids))))).
    cbn [mbind option_bind child item_of]. rewrite map_map. by rewrite Ha. }
  split; [|split_and!; try done; by intros; apply Hget].
  cbn [mbind option_bind].
  change (cJSON_GetObjectItem (item_of None (apps_jval op ids)) (bytes_of "op"))
    with (Some (Some (item_of (Some (bytes_of "op")) (JNum op)))). cbn [mbind option_bind].
  change (cJSON_GetObjectItem (item_of None (apps_jval op ids)) (bytes_of "data"))
    with (Some (Some (item_of (Some (bytes_of "data")) (JObj [(bytes_of "apps", JArr (map JNum ids))])))).
  cbn [mbind option_bind]. change (valueint (item_of _ (JNum op))) with op.
  assert (forall st, af_change_app_status (item_of (Some (bytes_of "data"))
      (JObj [(bytes_of "apps", JArr (map JNum ids))])) st r =
    af_change_app_status (item_of None (JObj [(bytes_of "apps", JArr (map JNum ids))])) st r) as Hn
    by done.
  destruct Hop as [->| ->]; cbn [config_cmd]; by rewrite Hn, Hch.
Qed.

(** *** The device *)

(** The open file holds the bytes [data] and zeros behind them. *)
Definition file_holds (f : af_cdev_file) (data : list Z) : Prop :=
  Z.of_nat (length data) <= CDEV_BUF_SIZE /\ f_size f = Z.of_nat (length data) /\
  f_buf f = data ++ replicate (Z.to_nat CDEV_BUF_SIZE - length data) 0.

Lemma cdev_size : CDEV_BUF_SIZE = 262144.
Proof. reflexivity. Qed.

Lemma af_cdev_write_holds f data chunk :
  file_holds f data -> Z.of_nat (length (data ++ chunk)) <= CDEV_BUF_SIZE ->
  fst (af_cdev_write 0 chunk f) = Z.of_nat (length chunk) /\
  file_holds (snd (af_cdev_write 0 chunk f)) (data ++ chunk).
Proof.
  intros (H1 & H2 & H3) Hl. unfold af_cdev_write. rewrite H2. rewrite length_app in Hl.
  rewrite (proj2 (Z.ltb_ge _ _)) by lia. cbn [negb Nat.eqb Nat.min replicate app]. split; [done|].
  rewrite H3, Nat2Z.id, Nat.sub_0_r, firstn_all. cbn [snd]. split_and!.
  - rewrite length_app. lia.
  - cbn [f_size]. rewrite length_app. lia.
  - cbn [f_buf]. rewrite take_app_length, <- app_assoc. do 2 f_equal.
    rewrite drop_app_ge by lia. rewrite drop_replicate, length_app. f_equal. lia.
Qed.

Definition write_all (f : af_cdev_file) (chunks : list (list Z)) : af_cdev_file :=
  foldl (fun f c => snd (af_cdev_write 0 c f)) f chunks.

Lemma write_all_holds chunks f data :
  file_holds f data -> Z.of_nat (length (data ++ concat chunks)) <= CDEV_BUF_SIZE ->
  file_holds (write_all f chunks) (data ++ concat chunks).
Proof.
  revert f data. induction chunks as [|c chunks IH]; intros f data Hf Hl; simpl in *.
  { by rewrite app_nil_r. }
  rewrite app_assoc in *. apply IH; [|done].
  apply af_cdev_write_holds; [done|]. rewrite length_app in Hl. lia.
Qed.

Lemma af_cdev_open_holds : file_holds af_cdev_open [].
Proof.
  unfold file_holds, af_cdev_open. cbn [f_size f_buf length app].
  split_and!; [by rewrite cdev_size|done|]. generalize (Z.to_nat CDEV_BUF_SIZE). intros n.
  by rewrite Nat.sub_0_r.
Qed.

(** C23: a command that adds (1) or deletes (2) applications, written to the
    device as JSON in any number of pieces that fit its buffer, sets on close
    the status of exactly the listed applications, and leaves every other one,
    and the MAC list, as it was. *)
Theorem device_sets_apps `{Klib} signed_char uc0 alloc_ok op ids r chunks :
  app_table_ok r -> Forall app_ok ids -> op = 1 \/ op = 2 ->
  concat chunks = text signed_char (apps_jval op ids) 0 ->
  Z.of_nat (length (concat chunks)) < CDEV_BUF_SIZE ->
  exists r', af_cdev_release signed_char uc0 alloc_ok (write_all af_cdev_open chunks) r = Some r' /\
    app_table_ok r' /\ total_mac r' = total_mac r /\ af_mac_list_table r' = af_mac_list_table r /\
    forall a, app_ok a -> af_get_app_status a r' =
      if bool_decide (a ∈ ids) then Some (if op =? 1 then AF_TRUE else AF_FALSE)
      else af_get_app_status a r.
Proof.
  intros Hr Hids Hop Hc Hl.
  destruct (write_all_holds chunks af_cdev_open [] af_cdev_open_holds) as (_ & Hsz & Hbuf);
    [simpl; lia|].
  unfold af_cdev_release. rewrite Hsz, Hbuf. cbn [app]. clear Hsz Hbuf.
  assert (exists k, (Z.to_nat CDEV_BUF_SIZE - length (concat chunks))%nat = S k) as [k Hk].
  { exists (Z.to_nat CDEV_BUF_SIZE - length (concat chunks) - 1)%nat. lia. }
  rewrite Hk, replicate_S, Hc. clear Hk Hl.
  destruct (config_apps signed_char uc0 alloc_ok op ids r (replicate k 0)
    (Z.of_nat (length (text signed_char (apps_jval op ids) 0)))) as (r' & Hh & Hrest);
    [done..|unfold apps_jval; rewrite text_obj; simpl; lia|].
  exists r'. rewrite Hh. by split.
Qed.

(** A write that would pass the end of the device's buffer is refused as a
    whole and leaves the file as it was. *)
Theorem af_cdev_write_refuses left f data chunk :
  file_holds f data -> CDEV_BUF_SIZE < Z.of_nat (length (data ++ chunk)) ->
  af_cdev_write left chunk f = (- EINVAL, f).
Proof.
  intros (H1 & H2 & H3) Hl. unfold af_cdev_write. rewrite H2. rewrite length_app in Hl.
  by rewrite (proj2 (Z.ltb_lt _ _)) by lia.
Qed.

(** An application number whose last three digits are 256 or more has no
    slot of its own: blocking it blocks a different application. *)
Theorem app_status_aliases t i r :
  0 <= t -> 256 <= i < 1000 ->
  af_get_app_status (1000 * t + i) r = af_get_app_status (1000 * (t + i / 256) + i mod 256) r.
Proof.
  intros Ht Hi. unfold af_get_app_status. f_equal.
  pose proof (Z.mod_pos_bound i 256 ltac:(lia)). pose proof (Z.div_mod i 256 ltac:(lia)).
  assert (0 <= i / 256) by (apply Z.div_pos; lia).
  rewrite !app_slot_div by lia. rewrite !(Z.add_comm (1000 * _)), !(Z.mul_comm 1000).
  rewrite !Z.div_add, !Z.mod_add by lia. rewrite !Z.div_small, !Z.mod_small by lia. lia.
Qed.

(** Application numbers from 16000 on are looked up outside the table. *)
Theorem app_status_out_of_range a r :
  app_table_ok r -> 16000 <= a -> af_get_app_status a r = None.
Proof.
  intros Hr Ha. unfold af_get_app_status. rewrite app_slot_div by lia.
  assert (16 <= a / 1000) by (apply Z.div_le_lower_bound; lia).
  pose proof (Z.mod_pos_bound a 1000 ltac:(lia)).
  unfold rd. rewrite (proj2 (Z.ltb_ge _ 0)) by lia. apply lookup_ge_None_2.
  unfold app_table_ok in Hr. rewrite Hr. lia.
Qed.

(** ** The MAC list *)

Lemma tbl_clear_placed (t : list (list mac_node)) : tbl_placed t -> tbl_placed (map (fun _ => []) t).
Proof.
  intros [Hl _]. split; [by rewrite length_map|]. intros i b n Hi Hn.
  rewrite list_lookup_fmap in Hi. apply fmap_Some in Hi as (b' & _ & ->). by apply elem_of_nil in Hn.
Qed.

Lemma concat_cleared {A B} (t : list A) : concat (map (fun _ => ([] : list B)) t) = [].
Proof. by induction t. Qed.

Definition mac_ok (mac : list Z) : Prop :=
  length mac = 6%nat /\ Forall (fun b => 0 <= b < 256) mac.

Lemma map_u8_bytes l : Forall (fun b => 0 <= b < 256) l -> map u8 l = l.
Proof. induction 1 as [|b l Hb _ IH]; simpl; [done|]. by rewrite u8_id, IH. Qed.

Lemma mac_to_hex_ok `{KlibLaws} mac : mac_ok mac -> mac_to_hex (mac_str mac) = Some mac.
Proof.
  intros [Hl Hb]. unfold mac_to_hex. rewrite sscanf_mac, bool_decide_true by done.
  by rewrite map_u8_bytes.
Qed.

Lemma add_macs_ok `{KlibLaws} macs r :
  Forall mac_ok macs -> tbl_placed (af_mac_list_table r) ->
  exists r', add_macs true (map (fun m => item_of None (JStr (mac_str m))) macs) r = Some r' /\
    g_app_id_array r' = g_app_id_array r /\ tbl_placed (af_mac_list_table r') /\
    total_mac r' = (if macs then total_mac r else u32 (total_mac r + Z.of_nat (length macs))) /\
    forall n, n ∈ concat (af_mac_list_table r') <-> m_mac n ∈ macs \/ n ∈ concat (af_mac_list_table r).
Proof.
  intros Hm. revert r. induction Hm as [|m macs Hm _ IH]; intros r Hp.
  { exists r. split_and!; try done. intros n. rewrite elem_of_nil. tauto. }
  cbn [map add_macs]. change (valuestring (item_of None (JStr (mac_str m)))) with (Some (mac_str m)).
  cbn [mbind option_bind]. rewrite mac_to_hex_ok by done.
  destruct (IH (af_mac_add true m r)) as (r' & -> & Ha & Hp' & Ht & Hel).
  { by apply tbl_add_placed. }
  exists r'. split_and!; [done..| |].
  - rewrite Ht. simpl. destruct macs as [|m' macs]; [simpl; f_equal; lia|].
    unfold u32. rewrite Zplus_mod_idemp_l. f_equal. simpl. lia.
  - intros n. rewrite Hel. simpl. rewrite tbl_add_elem by done. rewrite !elem_of_cons.
    destruct n as [nm]. simpl. split.
    + intros [?|[[= ->]|?]]; auto.
    + intros [[->|?]|?]; auto.
Qed.

Lemma macs_jval_ok macs : Forall mac_ok macs -> jval_ok (macs_jval macs).
Proof.
  intros Hm. apply jval_ok_obj.
  apply Forall_cons_2; [split; [by apply name_ok|simpl; lia]|].
  apply Forall_cons_2; [split; [by apply name_ok|]|constructor]. apply jval_ok_obj.
  apply Forall_cons_2; [split; [by apply name_ok|]|constructor]. apply jval_ok_arr.
  apply Forall_map. apply (Forall_imp _ _ _ Hm). intros m [_ Hb]. by apply mac_str_bytes.
Qed.

(** The command that sets the list of filtered users, written as JSON with
    one address per element, replaces the list: afterwards exactly the listed
    addresses are found, user matching is on if and only if the list is not
    empty, and the blocked applications are unchanged. *)
Theorem config_sets_macs `{KlibLaws} signed_char uc0 macs r rest :
  tbl_placed (af_mac_list_table r) -> Forall mac_ok macs -> Z.of_nat (length macs) < 2 ^ 32 ->
  let buf := text signed_char (macs_jval macs) 0 ++ 0 :: rest in
  exists r', af_config_handle signed_char uc0 true buf (Z.of_nat (length buf)) r = Some (0, r') /\
    g_app_id_array r' = g_app_id_array r /\ tbl_placed (af_mac_list_table r') /\
    is_user_match_enable r' = negb (bool_decide (macs = [])) /\
    forall mac, (exists n, find_af_mac mac r' = Some n) <-> mac ∈ macs.
Proof.
  intros Hp Hm Hlen buf. unfold af_config_handle.
  rewrite (proj2 (Z.eqb_neq _ 0)) by (unfold buf; rewrite length_app; simpl; lia).
  unfold buf. rewrite parse_text; [|by apply macs_jval_ok|done].
  destruct (add_macs_ok macs (af_mac_list_clear r) Hm) as (r' & Hadd & Ha & Hp' & Ht & Hel).
  { by apply tbl_clear_placed. }
  exists r'. split; [|split_and!; try done].
  - cbn [mbind option_bind].
    change (cJSON_GetObjectItem (item_of None (macs_jval macs)) (bytes_of "op"))
      with (Some (Some (item_of (Some (bytes_of "op")) (JNum 4)))). cbn [mbind option_bind].
    change (cJSON_GetObjectItem (item_of None (macs_jval macs)) (bytes_of "data")) with
      (Some (Some (item_of (Some (bytes_of "data"))
        (JObj [(bytes_of "mac_list", JArr (map (fun m => JStr (mac_str m)) macs))])))).
    cbn [mbind option_bind]. change (config_cmd (valueint _)) with (Some AF_CMD_SET_MAC_LIST).
    cbv iota. unfold af_set_mac_list.
    change (cJSON_GetObjectItem _ _) with (Some (Some (item_of (Some (bytes_of "mac_list"))
      (JArr (map (fun m => JStr (mac_str m)) macs))))).
    cbn [mbind option_bind item_of child]. rewrite map_map. by rewrite Hadd.
  - unfold is_user_match_enable. rewrite Ht. destruct macs as [|m macs]; [done|].
    rewrite bool_decide_false by done. simpl total_mac. rewrite u32_id by (simpl in *; lia).
    apply Z.ltb_lt. simpl. lia.
  - intros mac. unfold find_af_mac. assert (forall n, n ∈ concat (af_mac_list_table r') <-> m_mac n ∈ macs) as He.
    { intros n. rewrite Hel. simpl. rewrite concat_cleared, elem_of_nil. tauto. }
    split.
    + intros [n [Hn <-]%tbl_find_Some]. by apply He.
    + intros Hin. destruct (tbl_find _ mac) as [n|] eqn:E; [by exists n|]. exfalso.
      by apply (tbl_find_None _ _ (mkMac mac) Hp' E); [apply He|].
Qed.

(** ** The invariant of the rules *)

Definition rules_wf (r : rules) : Prop := app_table_ok r /\ tbl_placed (af_mac_list_table r).

Lemma change_status_length ids st a a' : change_status ids st a = Some a' -> length a' = length a.
Proof.
  revert a. induction ids as [|c ids IH]; intros a E; simpl in E; simp_opt; [done|].
  erewrite IH by done. by eapply wr_length.
Qed.

Lemma af_change_app_status_wf d st r rc r' :
  rules_wf r -> af_change_app_status d st r = Some (rc, r') -> rules_wf r'.
Proof.
  intros [Ha Hp] E. unfold af_change_app_status in E. simp_opt. case_match; simp_opt; [|done].
  split; [|done]. unfold app_table_ok in *. simpl. erewrite change_status_length by done. done.
Qed.

Lemma add_macs_wf `{Klib} alloc_ok objs r r' :
  rules_wf r -> add_macs alloc_ok objs r = Some r' -> rules_wf r'.
Proof.
  revert r. induction objs as [|o objs IH]; intros r Hr E; simpl in E; simp_opt; [done|].
  eapply IH; [|done]. destruct (mac_to_hex _); [|done]. unfold af_mac_add.
  destruct alloc_ok; [|done]. destruct Hr as [Ha Hp]. split; [done|]. by apply tbl_add_placed.
Qed.

Lemma af_config_handle_wf `{Klib} signed_char uc0 alloc_ok config len r rc r' :
  rules_wf r -> af_config_handle signed_char uc0 alloc_ok config len r = Some (rc, r') ->
  rules_wf r'.
Proof.
  intros Hr E. unfold af_config_handle in E. case_match; simp_opt; [done|].
  destruct x as [obj|]; simp_opt; [|done].
  match type of E with context [match ?x with Some _ => _ | None => _ end] => destruct x end;
    simp_opt; [|done].
  match type of E with context [config_cmd ?x] => destruct (config_cmd x) as [[]|] end; simp_opt.
  - match type of E with context [match ?x with Some _ => _ | None => _ end] => destruct x end;
      simp_opt; [|done].
    match goal with y : Z * rules |- _ => destruct y end. simp_opt.
    by eapply af_change_app_status_wf.
  - match type of E with context [match ?x with Some _ => _ | None => _ end] => destruct x end;
      simp_opt; [|done].
    match goal with y : Z * rules |- _ => destruct y end. simp_opt.
    by eapply af_change_app_status_wf.
  - destruct Hr as [_ Hp]. split; [|done]. unfold app_table_ok. vm_compute. reflexivity.
  - match goal with y : Z * rules |- _ => destruct y end. simp_opt.
    match goal with Hm : af_set_mac_list _ _ _ = _ |- _ => unfold af_set_mac_list in Hm end.
    case_match; simp_opt; [|done]. case_match; simp_opt; [|done].
    eapply add_macs_wf; [|done]. destruct Hr as [Ha Hp]. split; [done|]. by apply tbl_clear_placed.
  - done.
Qed.

(** ** Witnesses, over the reference library *)

Import KlibRef.

Definition rules0 : rules := af_init_app_status (mkRules [] 0 tbl_init).

Lemma rules0_ok : app_table_ok rules0.
Proof. unfold app_table_ok. vm_compute. reflexivity. Qed.

Definition apps_text : list Z := text true (apps_jval 1 [1001; 2002]) 0.

Lemma device_sets_apps_witness :
  exists r', af_cdev_release true 0 true
      (write_all af_cdev_open [take 10 apps_text; drop 10 apps_text]) rules0 = Some r' /\
    af_get_app_status 2002 r' = Some 1 /\ af_get_app_status 2003 r' = Some 0.
Proof.
  destruct (device_sets_apps true 0 true 1 [1001; 2002] rules0
    [take 10 apps_text; drop 10 apps_text]) as (r' & H1 & _ & _ & _ & H2).
  - exact rules0_ok.
  - repeat constructor; vm_compute; congruence.
  - by left.
  - vm_compute. reflexivity.
  - vm_compute. reflexivity.
  - exists r'. split; [exact H1|]. split; rewrite H2 by (split; vm_compute; split; congruence);
      vm_compute; reflexivity.
Defined.

Lemma af_cdev_write_refuses_witness :
  af_cdev_write 0 (replicate (Z.to_nat 262145) 1) af_cdev_open = (-22, af_cdev_open).
Proof.
  apply (af_cdev_write_refuses 0 af_cdev_open [] (replicate (Z.to_nat 262145) 1)
    af_cdev_open_holds).
  cbn [app]. rewrite length_replicate, Z2Nat.id by lia. reflexivity.
Defined.

Lemma app_status_aliases_witness :
  af_get_app_status 1300 rules0 = af_get_app_status 2044 rules0.
Proof. apply (app_status_aliases 1 300 rules0); lia. Defined.

Lemma app_status_out_of_range_witness : af_get_app_status 16001 rules0 = None.
Proof. apply app_status_out_of_range; [exact rules0_ok|lia]. Defined.

Definition mac_a : list Z := [0; 17; 34; 51; 68; 85].

Lemma config_sets_macs_witness :
  exists r', af_config_handle true 0 true (text true (macs_jval [mac_a]) 0 ++ [0; 0])
      (Z.of_nat (length (text true (macs_jval [mac_a]) 0 ++ [0; 0]))) rules0 = Some (0, r') /\
    is_user_match_enable r' = true /\ exists n, find_af_mac mac_a r' = Some n.
Proof.
  destruct (config_sets_macs true 0 [mac_a] rules0 [0]) as (r' & H1 & _ & _ & H2 & H3).
  - apply tbl_init_placed.
  - repeat constructor; vm_compute; congruence.
  - vm_compute. reflexivity.
  - exists r'. split; [exact H1|]. split; [exact H2|]. apply H3. by left.
Defined.

End Rules.
