(* ===== verification/Dpi.v ===== *)
(** * Dpi: packet parsing and protocol detection

    Models [parse_flow_proto], [dpi_https_proto], [dpi_http_proto] and
    [dpi_main] of src/oaf/src/app_filter.c.  A packet is the bytes of its
    network layer; pointers into it are offsets, and a read outside the packet
    is [None]. *)

From S2P Require Import Prelude Feature.

Import Feature.

#[local] Arguments Z.eqb : simpl never.

Module Dpi.

(** ** Data *)

Definition IPPROTO_ICMP : Z := 1.
Definition MIN_HTTP_DATA_LEN : Z := 16.
Definition HTTPS_URL_OFFSET : Z := 9.
Definition HTTPS_LEN_OFFSET : Z := 7.
Definition HTTP_METHOD_GET : Z := 1.
Definition HTTP_METHOD_POST : Z := 2.

(** [http_proto_t] and [https_proto_t]; a pointer that is not set is [None]. *)
Record http_proto := mkHttp {
  h_match : bool; h_method : Z; h_url_pos : option Z; h_url_len : Z;
  h_host_pos : option Z; h_host_len : Z; h_data_pos : option Z; h_data_len : Z }.
Definition http0 : http_proto := mkHttp false 0 None 0 None 0 None 0.

Record https_proto := mkHttps { s_match : bool; s_url_pos : option Z; s_url_len : Z }.
Definition https0 : https_proto := mkHttps false None 0.

(** [flow_info_t]; the name of the application is only logged and left out. *)
Record flow_info := mkFlow {
  src : Z; dst : Z; l4_protocol : Z; sport : Z; dport : Z; l4_data : Z; l4_len : Z;
  http : http_proto; https : https_proto; flow_app_id : Z; flow_drop : bool }.

Definition set_http (h : http_proto) (f : flow_info) : flow_info :=
  mkFlow (src f) (dst f) (l4_protocol f) (sport f) (dport f) (l4_data f) (l4_len f)
    h (https f) (flow_app_id f) (flow_drop f).
Definition set_https (s : https_proto) (f : flow_info) : flow_info :=
  mkFlow (src f) (dst f) (l4_protocol f) (sport f) (dport f) (l4_data f) (l4_len f)
    (http f) s (flow_app_id f) (flow_drop f).

(** ** Headers *)

Definition be16 (skb : list Z) (i : Z) : option Z :=
  a ← skb @! i; b ← skb @! (i + 1); Some (a * 256 + b).
(** A 32-bit field kept in memory order, as the number a little-endian machine
    loads. *)
Definition mem32 (skb : list Z) (i : Z) : option Z :=
  a ← skb @! i; b ← skb @! (i + 1); c ← skb @! (i + 2); d ← skb @! (i + 3);
  Some (a + 256 * b + 65536 * c + 16777216 * d).

(** [parse_flow_proto(skb, flow)] on a zeroed flow: return code and flow.  The
    transport header is taken right behind 20 bytes ([iph + 1]), the payload
    behind [ihl * 4]. *)
Definition parse_flow_proto (skb : list Z) : option (Z * flow_info) :=
  b0 ← skb @! 0;
  let ihl := Z.land b0 15 in
  saddr ← mem32 skb 12;
  daddr ← mem32 skb 16;
  protocol ← skb @! 9;
  let flow sp dp data len :=
    mkFlow saddr daddr protocol sp dp data len http0 https0 0 false in
  if protocol =? IPPROTO_TCP then
    doff ← skb @! (20 + 12);
    let doff := Z.shiftr doff 4 in
    tot_len ← be16 skb 2;
    dest ← be16 skb 22;
    source ← be16 skb 20;
    Some (0, flow source dest (ihl * 4 + doff * 4) (tot_len - ihl * 4 - doff * 4))
  else if protocol =? IPPROTO_UDP then
    len ← be16 skb 24;
    dest ← be16 skb 22;
    source ← be16 skb 20;
    Some (0, flow source dest (ihl * 4 + 8) (len - 8))
  else Some (-1, flow 0 0 0 0).

(** ** TLS *)

Section Dissect.
Context (skb : list Z).

(** [p[i] == w[0] && p[i + 1] == w[1] && ...]: reading stops at a mismatch. *)
Fixpoint bytes_at (i : Z) (w : list Z) : option bool :=
  match w with
  | [] => Some true
  | x :: w => c ← skb @! i; if c =? x then bytes_at (i + 1) w else Some false
  end.

(** The loop of [dpi_https_proto]; [n] is [data_len - i]. *)
Fixpoint https_loop (p data_len : Z) (n : nat) (i : Z) : option (option https_proto) :=
  match n with
  | O => Some None
  | S n =>
      if data_len <=? i + HTTPS_URL_OFFSET then Some None else
      zeros ← bytes_at (p + i) [0; 0; 0];
      if negb zeros then https_loop p data_len n (i + 1) else
      d ← skb @! (p + i + 3);
      if negb (d =? 0) then
        url_len ← be16 skb (p + i + HTTPS_LEN_OFFSET);
        if (url_len <=? 0) || (data_len <? url_len) then https_loop p data_len n (i + 1)
        else if i + HTTPS_URL_OFFSET + url_len <? data_len then
          Some (Some (mkHttps true (Some (p + i + HTTPS_URL_OFFSET)) url_len))
        else https_loop p data_len n (i + 1)
      else https_loop p data_len n (i + 1)
  end.

(** [dpi_https_proto]: the return code and the flow. *)
Definition dpi_https_proto (flow : flow_info) : option (Z * flow_info) :=
  let p := l4_data flow in
  let data_len := l4_len flow in
  if data_len =? 0 then Some (-1, flow) else
  hello ← bytes_at p [0x16; 0x03; 0x01];
  if negb hello then Some (-1, flow) else
  r ← https_loop p data_len (Z.to_nat data_len) 0;
  Some (match r with Some s => (0, set_https s flow) | None => (-1, flow) end).

(** ** HTTP *)

(** [memcmp(&data[start], w, n) == 0]: all [n] bytes are read. *)
Fixpoint memcmp_eq (i : Z) (w : list Z) : option bool :=
  match w with
  | [] => Some true
  | x :: w => c ← skb @! i; r ← memcmp_eq (i + 1) w; Some ((c =? x) && r)
  end.

(** What a line from [start] to [i] sets. *)
Definition http_line (data start i : Z) (h : http_proto) : option http_proto :=
  post ← memcmp_eq (data + start) (bytes_of "POST ");
  if (post : bool) then
    Some (mkHttp true HTTP_METHOD_POST (Some (data + start + 5)) (i - start - 5)
            (h_host_pos h) (h_host_len h) (h_data_pos h) (h_data_len h))
  else
  get ← memcmp_eq (data + start) (bytes_of "GET ");
  if (get : bool) then
    Some (mkHttp true HTTP_METHOD_GET (Some (data + start + 4)) (i - start - 4)
            (h_host_pos h) (h_host_len h) (h_data_pos h) (h_data_len h))
  else
  host ← memcmp_eq (data + start) (bytes_of "Host:");
  if (host : bool) then
    Some (mkHttp (h_match h) (h_method h) (h_url_pos h) (h_url_len h)
            (Some (data + start + 6)) (i - start - 6) (h_data_pos h) (h_data_len h))
  else Some h.

Fixpoint http_loop (data data_len : Z) (n : nat) (i start : Z) (h : http_proto)
    : option http_proto :=
  match n with
  | O => Some h
  | S n =>
      a ← skb @! (data + i);
      if negb (a =? 0x0d) then http_loop data data_len n (i + 1) start h else
      b ← skb @! (data + i + 1);
      if negb (b =? 0x0a) then http_loop data data_len n (i + 1) start h else
      h ← http_line data start i h;
      c ← skb @! (data + i + 2);
      if negb (c =? 0x0d) then http_loop data data_len n (i + 1) (i + 2) h else
      d ← skb @! (data + i + 3);
      if negb (d =? 0x0a) then http_loop data data_len n (i + 1) (i + 2) h else
      Some (mkHttp (h_match h) (h_method h) (h_url_pos h) (h_url_len h)
              (h_host_pos h) (h_host_len h) (Some (data + i + 4)) (data_len - i - 4))
  end.

Definition dpi_http_proto (flow : flow_info) : option flow_info :=
  if negb (l4_protocol flow =? IPPROTO_TCP) then Some flow
  else if l4_len flow <? MIN_HTTP_DATA_LEN then Some flow
  else if negb (sport flow =? 80) && negb (dport flow =? 80) then Some flow
  else
    h ← http_loop (l4_data flow) (l4_len flow) (Z.to_nat (l4_len flow)) 0 0 (http flow);
    Some (set_http h flow).

(** [dpi_main]; always 0. *)
Definition dpi_main (flow : flow_info) : option flow_info :=
  flow ← dpi_http_proto flow;
  '(_, flow) ← dpi_https_proto flow;
  Some flow.

End Dissect.

(** ** TLS detection *)

Lemma https_loop_inside skb p data_len n i s :
  0 <= i -> https_loop skb p data_len n i = Some (Some s) ->
  s_match s = true /\ exists j, i <= j /\ s_url_pos s = Some (p + j + 9) /\
    0 < s_url_len s /\ j + 9 + s_url_len s < data_len.
Proof.
  revert i. induction n as [|n IH]; intros i Hi H1; simpl in H1; [done|].
  assert (https_loop skb p data_len n (i + 1) = Some (Some s) ->
    s_match s = true /\ exists j, i <= j /\ s_url_pos s = Some (p + j + 9) /\
    0 < s_url_len s /\ j + 9 + s_url_len s < data_len) as Hnext.
  { intros Hl. apply IH in Hl; [|lia]. destruct Hl as (H2 & j & H3 & H4). split; [done|]. exists j. split; [lia|done]. }
  unfold HTTPS_URL_OFFSET in *. revert H1. case_bool; [done|]. intros H1. simp_opt.
  destruct x; simpl in H1; [|auto]. simp_opt. revert H1. case_bool; [|auto].
  intros H1. simp_opt. revert H1. case_bool; [auto|]. case_bool; [|auto].
  intros [= <-]. simpl. split; [done|]. exists i. split_and!; try done; lia.
Qed.

(** When the TLS dissector reports a server name, the name is a non-empty
    part of the transport payload. *)
Theorem dpi_https_inside skb flow flow' :
  dpi_https_proto skb flow = Some (0, flow') ->
  s_match (https flow') = true /\
  exists pos, s_url_pos (https flow') = Some pos /\ l4_data flow <= pos /\
    0 < s_url_len (https flow') /\ pos + s_url_len (https flow') < l4_data flow + l4_len flow.
Proof.
  intros H1. unfold dpi_https_proto in H1. case_match; simp_opt; [done|].
  destruct x; simpl in H1; simp_opt; [|done].
  match goal with r : option https_proto |- _ => destruct r as [s|] end; simp_opt; [|done].
  match goal with Hl : https_loop _ _ _ _ _ = _ |- _ =>
    apply https_loop_inside in Hl; [|done];
    destruct Hl as (H2 & j & H3 & H4 & H5 & H6) end.
  simpl. split; [done|]. eexists. split_and!; [done|lia..].
Qed.

Lemma https_loop_hit skb p data_len n i x hi lo :
  0 <= i -> 0 < hi * 256 + lo -> i + 9 + (hi * 256 + lo) < data_len -> x <> 0 ->
  skb @! (p + i) = Some 0 -> skb @! (p + i + 1) = Some 0 -> skb @! (p + i + 2) = Some 0 ->
  skb @! (p + i + 3) = Some x -> skb @! (p + i + 7) = Some hi -> skb @! (p + i + 7 + 1) = Some lo ->
  https_loop skb p data_len (S n) i =
  Some (Some (mkHttps true (Some (p + i + 9)) (hi * 256 + lo))).
Proof.
  intros Hi Hpos Hend Hx H0 H1 H2 H3 Hhi Hlo. cbn [https_loop bytes_at].
  unfold HTTPS_URL_OFFSET, HTTPS_LEN_OFFSET, be16.
  rewrite (proj2 (Z.leb_gt _ _)) by lia. rewrite H0. cbn [mbind option_bind].
  rewrite Z.eqb_refl, H1. cbn [mbind option_bind].
  replace (p + i + 1 + 1) with (p + i + 2) by lia.
  rewrite Z.eqb_refl, H2. cbn [mbind option_bind]. rewrite Z.eqb_refl. cbn [mbind option_bind negb].
  rewrite H3. cbn [mbind option_bind]. rewrite (proj2 (Z.eqb_neq x 0)) by done. cbn [negb].
  rewrite Hhi, Hlo. cbn [mbind option_bind].
  rewrite (proj2 (Z.leb_gt _ _)), (proj2 (Z.ltb_ge _ _)), (proj2 (Z.ltb_lt _ _)) by lia. done.
Qed.

Section Payload.
Context (pre data post : list Z).
Notation skb := (pre ++ data ++ post).
Notation p := (Z.of_nat (length pre)).

Lemma rd_payload i : 0 <= i < Z.of_nat (length data) -> skb @! (p + i) = data @! i.
Proof.
  intros Hi. rewrite rd_app_r by lia. rewrite rd_app_l by lia. f_equal. lia.
Qed.

(** Three zeros and a byte that is not zero. *)
Definition candidate (i : Z) : bool :=
  match data @! i, data @! (i + 1), data @! (i + 2), data @! (i + 3) with
  | Some 0, Some 0, Some 0, Some x => negb (x =? 0)
  | _, _, _, _ => false
  end.

Lemma https_loop_skip n i :
  0 <= i -> i + 9 < Z.of_nat (length data) -> candidate i = false ->
  https_loop skb p (Z.of_nat (length data)) (S n) i =
  https_loop skb p (Z.of_nat (length data)) n (i + 1).
Proof.
  intros Hi Hl Hc. unfold candidate in Hc. simpl. unfold HTTPS_URL_OFFSET.
  rewrite (proj2 (Z.leb_gt _ _)) by lia.
  rewrite <- !Z.add_assoc. rewrite !rd_payload by lia.
  destruct (rd_is_Some data i) as [a Ha]; [lia|]. rewrite Ha in *. simpl.
  destruct (a =? 0) eqn:Ea; [|done]. zify_bool. subst a.
  destruct (rd_is_Some data (i + 1)) as [b Hb]; [lia|]. rewrite Hb in *. simpl.
  destruct (b =? 0) eqn:Eb; [|done]. zify_bool. subst b.
  destruct (rd_is_Some data (i + 2)) as [c Hc']; [lia|].
  replace (i + (1 + 1)) with (i + 2) by lia. rewrite Hc' in *. simpl.
  destruct (c =? 0) eqn:Ec; [|done]. zify_bool. subst c.
  destruct (rd_is_Some data (i + 3)) as [d Hd]; [lia|]. rewrite Hd in *. simpl.
  by rewrite Hc.
Qed.

Lemma https_loop_skips n i k :
  0 <= i -> i + Z.of_nat k + 9 <= Z.of_nat (length data) ->
  (forall j, i <= j < i + Z.of_nat k -> candidate j = false) ->
  https_loop skb p (Z.of_nat (length data)) (k + n) i =
  https_loop skb p (Z.of_nat (length data)) n (i + Z.of_nat k).
Proof.
  revert i. induction k as [|k IH]; intros i Hi Hl Hc; [by rewrite Z.add_0_r|].
  change (S k + n)%nat with (S (k + n)). rewrite https_loop_skip by (lia || apply Hc; lia).
  rewrite IH; [|lia..|intros j Hj; apply Hc; lia]. f_equal. lia.
Qed.

End Payload.

(** a ClientHello whose first bytes 00 00 00 xx (xx not zero) start the
    server-name extension, with the name entirely before the end of the
    payload, is detected, and the name found is the one in the extension. *)
Theorem dpi_https_finds_name pre a x b c d name rest post flow :
  let data := a ++ [0; 0; 0; x; b; c; d; Z.of_nat (length name) / 256;
                    Z.of_nat (length name) mod 256] ++ name ++ rest in
  l4_data flow = Z.of_nat (length pre) -> l4_len flow = Z.of_nat (length data) ->
  take 3 a = [0x16; 0x03; 0x01] -> x <> 0 -> name <> [] -> rest <> [] ->
  (forall j, 0 <= j < Z.of_nat (length a) -> candidate data j = false) ->
  dpi_https_proto (pre ++ data ++ post) flow =
  Some (0, set_https (mkHttps true (Some (l4_data flow + Z.of_nat (length a) + 9))
                        (Z.of_nat (length name))) flow).
Proof.
  intros data Hp Hlen Hhello Hx Hname Hrest Hcand.
  set (hdr := [0; 0; 0; x; b; c; d; Z.of_nat (length name) / 256; Z.of_nat (length name) mod 256]) in *.
  assert (length data = length a + 9 + length name + length rest)%nat as Hl
    by (unfold data; rewrite !length_app; simpl; lia).
  assert (0 < length name)%nat by (destruct name; simpl; [done|lia]).
  assert (0 < length rest)%nat by (destruct rest; simpl; [done|lia]).
  assert (3 <= length a)%nat as Ha3
    by (apply (f_equal length) in Hhello; rewrite length_take in Hhello; cbn [length] in Hhello; lia).
  assert (forall i, 0 <= i < 9 -> data @! (Z.of_nat (length a) + i) = hdr @! i) as Hhdr.
  { intros i Hi. unfold data. rewrite rd_app_r by lia. rewrite rd_app_l by (simpl; lia).
    f_equal. lia. }
  assert (forall i, 0 <= i < 3 -> data @! i = [0x16; 0x03; 0x01] @! i) as Hhel.
  { intros i Hi. unfold data. rewrite rd_app_l by lia. rewrite <- (take_drop 3 a), Hhello.
    rewrite rd_app_l by (simpl; lia). done. }
  assert (https_loop (pre ++ data ++ post) (Z.of_nat (length pre)) (Z.of_nat (length data))
    (length data) 0 = Some (Some (mkHttps true
      (Some (Z.of_nat (length pre) + Z.of_nat (length a) + 9)) (Z.of_nat (length name))))) as Hloop.
  { pose proof (https_loop_skips pre data post (S (length data - length a - 1)) 0 (length a)
      ltac:(lia) ltac:(lia) Hcand) as Hskip.
    replace (length a + S (length data - length a - 1))%nat with (length data) in Hskip by lia.
    rewrite Hskip, Z.add_0_l.
    assert (forall i, 0 <= i < 9 ->
      (pre ++ data ++ post) @! (Z.of_nat (length pre) + Z.of_nat (length a) + i) = hdr @! i) as Hh.
    { intros i Hi. rewrite <- Z.add_assoc, rd_payload by lia. by apply Hhdr. }
    pose proof (Z.div_mod (Z.of_nat (length name)) 256 ltac:(lia)) as Hdm.
    assert (Z.of_nat (length name) / 256 * 256 + Z.of_nat (length name) mod 256 =
            Z.of_nat (length name)) as Hn by lia.
    rewrite (https_loop_hit _ _ _ _ _ x (Z.of_nat (length name) / 256) (Z.of_nat (length name) mod 256));
      rewrite ?Hn; try lia; try done.
    - rewrite <- (Z.add_0_r (_ + _)). by rewrite Hh by lia.
    - by rewrite Hh by lia.
    - by rewrite Hh by lia.
    - by rewrite Hh by lia.
    - by rewrite Hh by lia.
    - rewrite <- Z.add_assoc. by rewrite Hh by lia. }
  unfold dpi_https_proto. rewrite Hp, Hlen. rewrite (proj2 (Z.eqb_neq _ 0)) by lia.
  assert (bytes_at (pre ++ data ++ post) (Z.of_nat (length pre)) [0x16; 0x03; 0x01] = Some true) as ->.
  { cbn [bytes_at]. rewrite <- !Z.add_assoc. rewrite <- (Z.add_0_r (Z.of_nat (length pre))) at 1.
    rewrite !rd_payload by lia. by rewrite !Hhel by lia. }
  cbn [mbind option_bind negb]. rewrite Nat2Z.id, Hloop. done.
Qed.

(** ** HTTP detection *)

Definition CR : Z := 0x0d.
Definition LF : Z := 0x0a.

(** A header line: not empty, without carriage return. *)
Definition header_line (l : list Z) : Prop := l <> [] /\ CR ∉ l.

(** What a line at offset [start] says. *)
Definition line_http (data start : Z) (l : list Z) (h : http_proto) : http_proto :=
  let len := Z.of_nat (length l) in
  if bool_decide (bytes_of "POST " `prefix_of` l) then
    mkHttp true HTTP_METHOD_POST (Some (data + start + 5)) (len - 5)
      (h_host_pos h) (h_host_len h) (h_data_pos h) (h_data_len h)
  else if bool_decide (bytes_of "GET " `prefix_of` l) then
    mkHttp true HTTP_METHOD_GET (Some (data + start + 4)) (len - 4)
      (h_host_pos h) (h_host_len h) (h_data_pos h) (h_data_len h)
  else if bool_decide (bytes_of "Host:" `prefix_of` l) then
    mkHttp (h_match h) (h_method h) (h_url_pos h) (h_url_len h)
      (Some (data + start + 6)) (len - 6) (h_data_pos h) (h_data_len h)
  else h.

Fixpoint lines_http (data start : Z) (ls : list (list Z)) (h : http_proto) : http_proto :=
  match ls with
  | [] => h
  | l :: ls => lines_http data (start + Z.of_nat (length l) + 2) ls (line_http data start l h)
  end.

Definition header_text (ls : list (list Z)) : list Z := concat (map (fun l => l ++ [CR; LF]) ls).

(** The start of the body. *)
Definition set_body (pos len : Z) (h : http_proto) : http_proto :=
  mkHttp (h_match h) (h_method h) (h_url_pos h) (h_url_len h) (h_host_pos h) (h_host_len h)
    (Some pos) len.

Lemma prefix_before_cr w l y : CR ∉ w -> w `prefix_of` l ++ CR :: y <-> w `prefix_of` l.
Proof.
  revert l. induction w as [|c w IH]; intros l Hw.
  { split; intros; apply prefix_nil. }
  apply not_elem_of_cons in Hw as [Hc Hw]. destruct l as [|d l]; simpl.
  - split; intros Hp.
    + apply prefix_cons_inv_1 in Hp. congruence.
    + by apply prefix_nil_not in Hp.
  - split; intros Hp; pose proof (prefix_cons_inv_1 _ _ _ _ Hp) as ->;
      apply prefix_cons_inv_2 in Hp; apply prefix_cons; by apply (IH l Hw).
Qed.

Section HttpPayload.
Context (pre data post : list Z).
Notation skb := (pre ++ data ++ post).
Notation p := (Z.of_nat (length pre)).
Notation dl := (Z.of_nat (length data)).

Lemma memcmp_eq_prefix x y w :
  data = x ++ y -> (length w <= length y)%nat ->
  memcmp_eq skb (p + Z.of_nat (length x)) w = Some (bool_decide (w `prefix_of` y)).
Proof.
  revert x y. induction w as [|c w IH]; intros x y Hd Hl.
  { cbn [memcmp_eq]. rewrite bool_decide_true; [done|apply prefix_nil]. }
  destruct y as [|d y]; [simpl in Hl; lia|]. cbn [memcmp_eq].
  rewrite rd_payload by (rewrite Hd, length_app; simpl; lia).
  replace (data @! Z.of_nat (length x)) with (Some d)
    by (rewrite Hd; symmetry; by apply rd_app_mid). cbn [mbind option_bind].
  pose proof (IH (x ++ [d]) y) as IHx. rewrite length_app in IHx. cbn [length] in IHx, Hl.
  replace (p + Z.of_nat (length x) + 1) with (p + Z.of_nat (length x + 1)) by lia.
  rewrite IHx by (lia || by rewrite <- app_assoc). cbn [mbind option_bind]. f_equal.
  destruct (d =? c) eqn:E; zify_bool; simpl.
  - subst. apply bool_decide_ext. split; [apply prefix_cons|apply prefix_cons_inv_2].
  - symmetry. apply bool_decide_false. intros Hp%prefix_cons_inv_1. congruence.
Qed.

Lemma http_line_ok x l y h :
  data = x ++ l ++ CR :: y -> (4 <= length l + length y)%nat ->
  http_line skb p (Z.of_nat (length x)) (Z.of_nat (length x + length l)) h =
  Some (line_http p (Z.of_nat (length x)) l h).
Proof.
  intros Hd Hl. unfold http_line, line_http.
  rewrite !(memcmp_eq_prefix x (l ++ CR :: y)) by (done || rewrite length_app; simpl; lia).
  cbn [mbind option_bind].
  rewrite !(bool_decide_ext (_ `prefix_of` l ++ CR :: y) (_ `prefix_of` l))
    by (apply prefix_before_cr; apply (bool_decide_unpack _); by vm_compute).
  repeat case_match; try done; do 2 f_equal; lia.
Qed.

Lemma http_loop_skip x w y n start h :
  data = x ++ w ++ y -> CR ∉ w ->
  http_loop skb p dl (length w + n) (Z.of_nat (length x)) start h =
  http_loop skb p dl n (Z.of_nat (length x + length w)) start h.
Proof.
  revert x. induction w as [|c w IH]; intros x Hd Hw.
  { simpl. by rewrite Nat.add_0_r. }
  apply not_elem_of_cons in Hw as [Hc Hw]. cbn [length Nat.add http_loop].
  rewrite rd_payload by (rewrite Hd, !length_app; simpl; lia).
  replace (data @! Z.of_nat (length x)) with (Some c)
    by (rewrite Hd; symmetry; by apply rd_app_mid). cbn [mbind option_bind].
  rewrite (proj2 (Z.eqb_neq c 0x0d)) by (unfold CR in Hc; congruence). cbn [negb].
  pose proof (IH (x ++ [c])) as IHx. rewrite length_app in IHx. cbn [length] in IHx.
  replace (Z.of_nat (length x) + 1) with (Z.of_nat (length x + 1)) by lia.
  rewrite IHx by (done || by rewrite Hd, <- app_assoc). f_equal. lia.
Qed.

Lemma rd_data x y i : data = x ++ y -> 0 <= i < Z.of_nat (length y) ->
  skb @! (p + Z.of_nat (length x) + i) = y @! i.
Proof.
  intros Hd Hi. rewrite <- Z.add_assoc, rd_payload by (rewrite Hd, length_app; lia).
  rewrite Hd at 1. rewrite rd_app_r by lia. f_equal. lia.
Qed.

(** One line that is followed by another one. *)
Lemma http_loop_line x l c y n h :
  data = x ++ l ++ CR :: LF :: c :: y -> header_line l -> c <> CR -> (4 <= length l + 2 + length y)%nat ->
  http_loop skb p dl (length l + S (S n)) (Z.of_nat (length x)) (Z.of_nat (length x)) h =
  http_loop skb p dl n (Z.of_nat (length x + length l + 2)) (Z.of_nat (length x + length l + 2))
    (line_http p (Z.of_nat (length x)) l h).
Proof.
  intros Hd [Hne Hcr] Hc Hl. rewrite (http_loop_skip x l (CR :: LF :: c :: y)) by done.
  assert (data = (x ++ l) ++ CR :: LF :: c :: y) as Hd' by (by rewrite <- app_assoc).
  assert (forall i, 0 <= i < 3 -> skb @! (p + Z.of_nat (length x + length l) + i) =
    (CR :: LF :: c :: y) @! i) as Hrd.
  { intros i Hi. rewrite <- length_app. apply (rd_data _ _ _ Hd'). simpl. lia. }
  cbn [http_loop]. rewrite <- (Z.add_0_r (p + Z.of_nat (length x + length l))) at 1.
  rewrite (Hrd 0), (Hrd 1), (Hrd 2) by lia.
  change ((CR :: LF :: c :: y) @! 0) with (Some CR). change ((CR :: LF :: c :: y) @! 1) with (Some LF).
  cbn [mbind option_bind]. change (negb (CR =? 13)) with false. change (negb (LF =? 10)) with false.
  cbv iota. rewrite (http_line_ok x l (LF :: c :: y)) by (done || simpl; lia).
  cbn [mbind option_bind]. change ((CR :: LF :: c :: y) @! 2) with (Some c). cbn [mbind option_bind].
  rewrite (proj2 (Z.eqb_neq c 13)) by (unfold CR in Hc; congruence). cbn [negb].
  rewrite Z.add_assoc, (Hrd 1) by lia. change ((CR :: LF :: c :: y) @! 1) with (Some LF).
  cbn [mbind option_bind].
  change (negb (LF =? 13)) with true. cbv iota. f_equal; lia.
Qed.

(** The last line, before the blank one. *)
Lemma http_loop_last x l y n h :
  data = x ++ l ++ CR :: LF :: CR :: LF :: y -> header_line l ->
  http_loop skb p dl (length l + S n) (Z.of_nat (length x)) (Z.of_nat (length x)) h =
  Some (set_body (p + Z.of_nat (length x + length l + 4)) (Z.of_nat (length y))
          (line_http p (Z.of_nat (length x)) l h)).
Proof.
  intros Hd [Hne Hcr]. rewrite (http_loop_skip x l (CR :: LF :: CR :: LF :: y)) by done.
  assert (data = (x ++ l) ++ CR :: LF :: CR :: LF :: y) as Hd' by (by rewrite <- app_assoc).
  assert (forall i, 0 <= i < 4 -> skb @! (p + Z.of_nat (length x + length l) + i) =
    (CR :: LF :: CR :: LF :: y) @! i) as Hrd.
  { intros i Hi. rewrite <- length_app. apply (rd_data _ _ _ Hd'). simpl. lia. }
  assert (0 < length l)%nat by (destruct l; simpl; [done|lia]).
  cbn [http_loop]. rewrite <- (Z.add_0_r (p + Z.of_nat (length x + length l))) at 1.
  rewrite (Hrd 0), (Hrd 1), (Hrd 2), (Hrd 3) by lia.
  change ((CR :: LF :: CR :: LF :: y) @! 0) with (Some CR).
  change ((CR :: LF :: CR :: LF :: y) @! 1) with (Some LF).
  change ((CR :: LF :: CR :: LF :: y) @! 2) with (Some CR).
  change ((CR :: LF :: CR :: LF :: y) @! 3) with (Some LF).
  cbn [mbind option_bind]. change (negb (CR =? 13)) with false. change (negb (LF =? 10)) with false.
  cbv iota. rewrite (http_line_ok x l (LF :: CR :: LF :: y)) by (done || simpl; lia).
  cbn [mbind option_bind]. unfold set_body. do 2 f_equal; [f_equal; lia|].
  rewrite Hd, !length_app. simpl. lia.
Qed.

Lemma http_loop_lines x l ls y n h :
  data = x ++ header_text (l :: ls) ++ CR :: LF :: y -> Forall header_line (l :: ls) ->
  (length (header_text (l :: ls)) <= n)%nat ->
  http_loop skb p dl n (Z.of_nat (length x)) (Z.of_nat (length x)) h =
  Some (set_body (p + Z.of_nat (length x + length (header_text (l :: ls)) + 2)) (Z.of_nat (length y))
          (lines_http p (Z.of_nat (length x)) (l :: ls) h)).
Proof.
  revert x l n h. induction ls as [|l' ls IH]; intros x l n h Hd Hls Hn;
    apply Forall_cons in Hls as [Hl Hls].
  - unfold header_text in *. cbn [map concat] in *. rewrite app_nil_r, length_app in *. simpl in Hn.
    replace n with (length l + S (n - length l - 1))%nat by lia.
    rewrite (http_loop_last x l y) by (done || by rewrite Hd, <- app_assoc).
    cbn [lines_http]. do 3 f_equal. simpl. lia.
  - assert (header_text (l :: l' :: ls) = l ++ CR :: LF :: header_text (l' :: ls)) as Ht.
    { unfold header_text. cbn [map concat]. by rewrite <- app_assoc. }
    rewrite Ht in *. rewrite length_app in *. cbn [length] in *.
    pose proof Hls as Hls'. apply Forall_cons in Hls' as [[Hne' Hcr'] _]. destruct l' as [|c l']; [done|].
    assert (c <> CR) as Hc by (intros ->; apply Hcr'; by left).
    assert (exists y', header_text ((c :: l') :: ls) ++ CR :: LF :: y = c :: y' /\
      (4 <= length y')%nat) as (y' & Hy' & Hly').
    { unfold header_text. cbn [map concat app]. eexists. split; [done|].
      rewrite !length_app. simpl. rewrite ?length_app. simpl. lia. }
    replace n with (length l + S (S (n - length l - 2)))%nat by lia.
    rewrite (http_loop_line x l c y') by
      (done || lia || by rewrite Hd, <- app_assoc; cbn [app]; rewrite Hy').
    specialize (IH (x ++ l ++ [CR; LF]) (c :: l') (n - length l - 2)%nat
      (line_http p (Z.of_nat (length x)) l h)).
    rewrite !length_app in IH. cbn [length] in IH.
    replace (length x + length l + 2)%nat with (length x + (length l + 2))%nat by lia.
    rewrite IH; [|by rewrite Hd; list_assoc|done|lia].
    cbn [lines_http]. do 2 f_equal; [lia|]. f_equal; [|f_equal]; lia.
Qed.

End HttpPayload.

(** In a TCP payload on port 80 that holds header lines, a blank line and a
    body, the HTTP dissector finds exactly what the lines say: the method and
    target of the last GET or POST line, the value of the last Host line, and
    the body. *)
Theorem dpi_http_reads_headers pre l ls body post flow :
  let data := header_text (l :: ls) ++ CR :: LF :: body in
  let skb := pre ++ data ++ post in
  l4_protocol flow = IPPROTO_TCP -> sport flow = 80 \/ dport flow = 80 ->
  l4_data flow = Z.of_nat (length pre) -> l4_len flow = Z.of_nat (length data) ->
  MIN_HTTP_DATA_LEN <= l4_len flow -> Forall header_line (l :: ls) ->
  dpi_http_proto skb flow =
  Some (set_http (set_body (l4_data flow + Z.of_nat (length (header_text (l :: ls)) + 2))
                    (Z.of_nat (length body))
                    (lines_http (l4_data flow) 0 (l :: ls) (http flow))) flow).
Proof.
  intros data skb Htcp Hport Hp Hlen Hmin Hls. unfold dpi_http_proto.
  rewrite Htcp, Z.eqb_refl. cbn [negb].
  rewrite (proj2 (Z.ltb_ge _ _)) by done.
  replace (negb (sport flow =? 80) && negb (dport flow =? 80)) with false by lia.
  rewrite Hp, Hlen, Nat2Z.id.
  pose proof (http_loop_lines pre data post [] l ls body (length data) (http flow)) as Hl.
  cbn [length Nat.add] in Hl. change (Z.of_nat 0) with 0 in Hl. unfold skb.
  rewrite Hl; [done|done|done|]. unfold data. rewrite length_app. lia.
Qed.

(** ** Witnesses *)

Definition flow_demo (len : Z) : flow_info :=
  mkFlow 0x6401a8c0 0x08080808 IPPROTO_TCP 40000 80 40 len http0 https0 0 false.
Definition request_demo : list (list Z) :=
  [bytes_of "GET /index.html HTTP/1.1"; bytes_of "Host: www.qq.com"; bytes_of "Accept: */*"].

Lemma dpi_http_reads_headers_witness :
  dpi_http_proto (replicate 40 0 ++ (header_text request_demo ++ CR :: LF :: []) ++ []) (flow_demo 59) =
  Some (set_http (mkHttp true HTTP_METHOD_GET (Some 44) 20 (Some 72) 10 (Some 99) 0) (flow_demo 59)).
Proof.
  apply (dpi_http_reads_headers (replicate 40 0) (bytes_of "GET /index.html HTTP/1.1")
    [bytes_of "Host: www.qq.com"; bytes_of "Accept: */*"] [] [] (flow_demo 59));
    try (vm_compute; reflexivity); [right; reflexivity|vm_compute; discriminate|].
  repeat constructor; try discriminate; apply (bool_decide_unpack _); vm_compute; exact I.
Defined.

Definition hello_demo : list Z := [0x16; 3; 1; 1; 0; 1; 0; 5; 2].

Lemma dpi_https_finds_name_witness :
  dpi_https_proto (replicate 40 0 ++ (hello_demo ++ [0; 0; 0; 9; 0; 7; 0; 0; 6] ++
      bytes_of "qq.com" ++ [1]) ++ []) (flow_demo 25) =
  Some (0, set_https (mkHttps true (Some 58) 6) (flow_demo 25)).
Proof.
  apply (dpi_https_finds_name (replicate 40 0) hello_demo 9 0 7 0 (bytes_of "qq.com") [1] []
    (flow_demo 25)); try reflexivity; try discriminate.
  intros j Hj. assert (j = 0 \/ j = 1 \/ j = 2 \/ j = 3 \/ j = 4 \/ j = 5 \/ j = 6 \/ j = 7 \/ j = 8)
    as Hc by (simpl in Hj; lia).
  repeat destruct Hc as [->|Hc]; try reflexivity. rewrite Hc. reflexivity.
Defined.

Lemma dpi_https_inside_witness :
  exists flow', dpi_https_proto (replicate 40 0 ++ hello_demo ++ [0; 0; 0; 9; 0; 7; 0; 0; 6] ++
      bytes_of "qq.com" ++ [1]) (flow_demo 25) = Some (0, flow') /\
    exists pos, s_url_pos (https flow') = Some pos /\ 40 <= pos /\
      pos + s_url_len (https flow') < 65.
Proof.
  eexists. split; [vm_compute; reflexivity|].
  edestruct (dpi_https_inside (replicate 40 0 ++ hello_demo ++ [0; 0; 0; 9; 0; 7; 0; 0; 6] ++
    bytes_of "qq.com" ++ [1]) (flow_demo 25)) as (_ & pos & H1 & H2 & _ & H3);
    [vm_compute; reflexivity|].
  exists pos. split; [exact H1|]. split; [exact H2|exact H3].
Defined.

End Dpi.
