(* ===== verification/Filter.v ===== *)
(** * Filter: matching, the netfilter hooks and the module's events

    Models the matching functions, [app_filter_match], the gateway and bypass
    hooks, the timer and the netlink receiver of src/oaf/src/app_filter.c, on
    top of the feature list, the client table and the rules.  The state of the
    module is one record; the interleaving of its entry points is the relation
    [step]. *)

From S2P Require Import Prelude Libc KUtils Regexp Feature Json MacTable Client Rules Dpi.

Import Libc Regexp Feature Client Rules Dpi.

#[local] Arguments Z.eqb : simpl never.

Module Filter.

(** ** Matching *)

Definition MAX_URL_MATCH_LEN : Z := 64.

Section Match.
Context (mem : kmem) (skb : list Z).

(** [strncpy(reg_url_buf, pos, len)] cut at 63 bytes; a negative length is a
    huge [size_t]. *)
Definition copy_url (pos len : Z) : option (list Z) :=
  strncpy (replicate (Z.to_nat MAX_URL_MATCH_LEN) 0) (at_ skb pos)
    (if MAX_URL_MATCH_LEN <=? len then MAX_URL_MATCH_LEN - 1 else len).

(** [strlen(buf) > 0 && strlen(url) > 0 && regexp_match(url, buf)]. *)
Definition url_matches (url buf : list Z) : option bool :=
  s ← cstr buf;
  if bool_decide (s = []) then Some false
  else if bool_decide (url = []) then Some false
  else r ← regexp_match mem (cbuf 128 url) buf; Some (negb (r =? 0)).

Definition af_match_by_url (flow : flow_info) (node : feature_node) : option bool :=
  buf ← match s_match (https flow), s_url_pos (https flow) with
        | true, Some pos => copy_url pos (s_url_len (https flow))
        | _, _ =>
            match h_match (http flow), h_host_pos (http flow) with
            | true, Some pos => copy_url pos (h_host_len (http flow))
            | _, _ => Some (replicate (Z.to_nat MAX_URL_MATCH_LEN) 0)
            end
        end;
  m ← url_matches (host_url node) buf;
  if (m : bool) then Some true else
  match h_match (http flow), h_url_pos (http flow) with
  | true, Some pos =>
      buf ← copy_url pos (h_url_len (http flow));
      url_matches (request_url node) buf
  | _, _ => Some false
  end.

(** The loop of [af_match_by_pos]; [pos] and the comparison with [l4_len] are
    unsigned. *)
Fixpoint match_positions (flow : flow_info) (ps : list pos_info) : option bool :=
  match ps with
  | [] => Some true
  | e :: ps =>
      let p := if pos e <? 0 then u32 (l4_len flow + pos e) else pos e in
      if u32 (l4_len flow) <=? p then Some false else
      c ← skb @! (l4_data flow + p);
      if negb (c =? value e) then Some false else match_positions flow ps
  end.
Definition af_match_by_pos (flow : flow_info) (node : feature_node) : option bool :=
  if 0 <? pos_num node then match_positions flow (positions node) else Some false.

Definition af_match_one (flow : flow_info) (node : feature_node) : option bool :=
  if (0 <? proto node) && negb (l4_protocol flow =? proto node) then Some false
  else if l4_len flow =? 0 then Some false
  else if negb (Feature.sport node =? 0) && negb (sport flow =? Feature.sport node) then Some false
  else if negb (af_match_port (dport_info node) (dport flow)) then Some false
  else if negb (bool_decide (request_url node = [])) || negb (bool_decide (host_url node = []))
  then af_match_by_url flow node
  else if 0 <? pos_num node then af_match_by_pos flow node
  else Some true.

(** The loop of [app_filter_match]: the first node that matches. *)
Fixpoint first_match (flow : flow_info) (nodes : list feature_node) : option (option feature_node) :=
  match nodes with
  | [] => Some None
  | n :: nodes =>
      m ← af_match_one flow n;
      if (m : bool) then Some (Some n) else first_match flow nodes
  end.

Definition set_verdict (app : Z) (drop : bool) (f : flow_info) : flow_info :=
  mkFlow (src f) (dst f) (l4_protocol f) (sport f) (dport f) (l4_data f) (l4_len f)
    (http f) (https f) app drop.

(** [app_filter_match(flow)]: the flow with its application and verdict. *)
Definition app_filter_match (features : list feature_node) (cl : clients) (ru : rules)
    (flow : flow_info) : option flow_info :=
  m ← first_match flow features;
  match m with
  | None => Some (set_verdict (flow_app_id flow) false flow)
  | Some node =>
      let app := app_id node in
      match find_af_client_by_ip (src flow) cl with
      | None => Some (set_verdict app false flow)
      | Some client =>
          if is_user_match_enable ru && bool_decide (find_af_mac (c_mac client) ru = None)
          then Some (set_verdict app false flow) else
          status ← af_get_app_status (s32 app) ru;
          Some (set_verdict app (negb (status =? 0)) flow)
      end
  end.

End Match.

(** ** The module *)

Inductive work_mode := AF_MODE_GATEWAY | AF_MODE_BYPASS | AF_MODE_BRIDGE.
#[export] Instance work_mode_eq_dec : EqDecision work_mode.
Proof. solve_decision. Defined.

(** The global variables; [count] is the static of the timer function. *)
Record module_state := mkState {
  features : list feature_node; cl : clients; ru : rules;
  g_oaf_enable : bool; af_work_mode : work_mode; count : Z; report_flag : bool }.

Definition set_cl (c : clients) (s : module_state) : module_state :=
  mkState (features s) c (ru s) (g_oaf_enable s) (af_work_mode s) (count s) (report_flag s).
Definition set_ru (r : rules) (s : module_state) : module_state :=
  mkState (features s) (cl s) r (g_oaf_enable s) (af_work_mode s) (count s) (report_flag s).

Definition NF_DROP_BIT : Z := 0x80000000.
Definition MAX_DPI_PKT_NUM : Z := 64.
Definition MAX_BYPASS_DPI_PKT_LEN : Z := 600.

(** What the gateway hook uses of a conntrack entry; [acct] counts the packets
    of both directions. *)
Record nf_conn := mkConn { confirmed : bool; mark : Z; acct : option (Z * Z) }.
Definition set_mark (m : Z) (ct : nf_conn) : nf_conn := mkConn (confirmed ct) m (acct ct).

(** A packet as the hooks see it: its bytes, its length and its link layer. *)
Record sk_buff := mkSkb { skb_data : list Z; skb_len : Z; skb_link : packet }.

Definition af_match_bcast_packet (f : flow_info) : bool :=
  (src f =? 0) || (dst f =? 0) || (dst f =? 0xffffffff).
Definition af_match_local_packet (f : flow_info) : bool :=
  (src f =? 0x0100007f) || (dst f =? 0x0100007f).

Section Hooks.
Context (mem : kmem) (e : env).

(** The part of the gateway hook before inspection: a marked flow is counted,
    and its drop bit obeyed. *)
Definition marked_flow (ct : nf_conn) (client : client) (s : module_state)
    : bool * module_state :=
  let app_id := Z.land (mark ct) (NF_DROP_BIT - 1) in
  if negb (mark ct =? 0) && (1000 <? app_id) && (app_id <? 9999) then
    let drop := negb (Z.land (mark ct) NF_DROP_BIT =? 0) in
    (drop, set_cl (write (c_addr client) (af_update_client_app_info e app_id drop) (cl s)) s)
  else (false, s).

(** [app_filter_hook_gateway_handle]: the verdict, the conntrack entry and the
    state. *)
Definition app_filter_hook_gateway_handle (skb : sk_buff) (ct : option nf_conn)
    (s : module_state) : option (Z * option nf_conn * module_state) :=
  '(rc, flow) ← parse_flow_proto (skb_data skb);
  if rc <? 0 then Some (NF_ACCEPT, ct, s) else
  match ct with
  | None => Some (NF_ACCEPT, ct, s)
  | Some c =>
      if negb (confirmed c) then Some (NF_ACCEPT, ct, s) else
      match find_af_client_by_ip (src flow) (cl s) with
      | None => Some (NF_ACCEPT, ct, s)
      | Some client =>
          let s := set_cl (write (c_addr client) (touch e) (cl s)) s in
          let '(dropped, s) := marked_flow c client s in
          if dropped then Some (NF_DROP, ct, s) else
          match acct c with
          | None => Some (NF_ACCEPT, ct, s)
          | Some (orig, reply) =>
              if MAX_DPI_PKT_NUM <? u64 (orig + reply) then Some (NF_ACCEPT, ct, s) else
              flow ← dpi_main (skb_data skb) flow;
              flow ← app_filter_match mem (skb_data skb) (features s) (cl s) (ru s) flow;
              let '(c, s) :=
                if negb (flow_app_id flow =? 0)
                then (set_mark (flow_app_id flow) c,
                      set_cl (write (c_addr client)
                        (af_update_client_app_info e (flow_app_id flow) (flow_drop flow)) (cl s)) s)
                else (c, s) in
              if flow_drop flow
              then Some (NF_DROP, Some (set_mark (Z.lor (mark c) NF_DROP_BIT) c), s)
              else Some (NF_ACCEPT, Some c, s)
          end
      end
  end.

(** [app_filter_hook_bypass_handle]. *)
Definition app_filter_hook_bypass_handle (skb : sk_buff) (s : module_state)
    : option (Z * module_state) :=
  if bool_decide (dev_name (skb_link skb) = None) then Some (NF_ACCEPT, s) else
  if MAX_BYPASS_DPI_PKT_LEN <? skb_len skb then Some (NF_ACCEPT, s) else
  '(rc, flow) ← parse_flow_proto (skb_data skb);
  if rc <? 0 then Some (NF_ACCEPT, s) else
  if af_match_bcast_packet flow || af_match_local_packet flow then Some (NF_ACCEPT, s) else
  let '(client, c) := find_and_add_af_client e (af_get_smac (skb_link skb)) (cl s) in
  match client with
  | None => Some (NF_ACCEPT, set_cl c s)
  | Some client =>
      let s := set_cl (write (c_addr client) (touch e) c) s in
      flow ← dpi_main (skb_data skb) flow;
      let s := set_cl (write (c_addr client) (set_ip (src flow)) (cl s)) s in
      flow ← app_filter_match mem (skb_data skb) (features s) (cl s) (ru s) flow;
      let s :=
        if negb (flow_app_id flow =? 0)
        then set_cl (write (c_addr client)
               (af_update_client_app_info e (flow_app_id flow) (flow_drop flow)) (cl s)) s
        else s in
      Some (if flow_drop flow then NF_DROP else NF_ACCEPT, s)
  end.

(** The registered hooks. *)
Definition app_filter_hook (skb : sk_buff) (ct : option nf_conn) (s : module_state)
    : option (Z * option nf_conn * module_state) :=
  if negb (g_oaf_enable s) then Some (NF_ACCEPT, ct, s)
  else if bool_decide (af_work_mode s = AF_MODE_BYPASS) then Some (NF_ACCEPT, ct, s)
  else app_filter_hook_gateway_handle skb ct s.

Definition app_filter_by_pass_hook (skb : sk_buff) (s : module_state) : option (Z * module_state) :=
  if negb (g_oaf_enable s) then Some (NF_ACCEPT, s)
  else if bool_decide (af_work_mode s = AF_MODE_GATEWAY) then Some (NF_ACCEPT, s)
  else app_filter_hook_bypass_handle skb s.

End Hooks.

(** ** Timer and messages *)

(** [oaf_timer_func]: the state and the messages sent. *)
Definition oaf_timer_func (e : env) (signed_char nl_ok : bool) (s : module_state)
    : option (module_state * list (list Z)) :=
  let s := if Z.rem (count s) 60 =? 0 then set_cl (check_client_expire e (cl s)) s else s in
  '(s, ms) ←
    (if (Z.rem (count s) 60 =? 0) || report_flag s then
       '(c, ms) ← af_visit_info_report signed_char nl_ok (cl s);
       Some (mkState (features s) c (ru s) (g_oaf_enable s) (af_work_mode s) (count s) false, ms)
     else Some (s, []));
  Some (mkState (features s) (cl s) (ru s) (g_oaf_enable s) (af_work_mode s)
          (s32 (count s + 1)) (report_flag s), ms).

Definition MAX_OAF_NETLINK_MSG_LEN : Z := 1024.
Definition AF_MSG_INIT : Z := 0.

Definition oaf_user_msg_handle (action : Z) (s : module_state) : module_state :=
  if action =? AF_MSG_INIT then
    mkState (features s) (af_client_list_reset_report_num (cl s)) (ru s) (g_oaf_enable s)
      (af_work_mode s) (count s) true
  else s.

(** [oaf_msg_rcv] on the payload of a netlink message: magic, length, action. *)
Definition oaf_msg_rcv (umsg : list Z) (s : module_state) : option module_state :=
  magic ← mem32 umsg 0;
  if negb (magic =? AF_MSG_MAGIC) then Some s else
  len ← mem32 umsg 4;
  let len := s32 len in
  if (len <=? 0) || (MAX_OAF_NETLINK_MSG_LEN <=? len) then Some s else
  action ← mem32 umsg 8;
  Some (oaf_user_msg_handle (s32 action) s).

(** [app_filter_init], as far as it sets the state, and [app_filter_fini]. *)
Definition app_filter_init `{Klib} (junk_id : Z) (feature_buf : option (list Z))
    (s : module_state) : option (Z * module_state) :=
  '(rc, head) ← load_feature_config junk_id feature_buf (features s);
  let s := mkState head (cl s) (ru s) (g_oaf_enable s) (af_work_mode s) (count s) (report_flag s) in
  if negb (rc =? 0) then Some (-1, s) else
  Some (0, set_cl (nf_client_list_init (cl s))
             (set_ru (af_init_app_status (af_mac_list_init (ru s))) s)).
Definition app_filter_fini (s : module_state) : module_state :=
  let s := mkState (af_clean_feature_list (features s)) (cl s) (ru s) (g_oaf_enable s)
             (af_work_mode s) (count s) (report_flag s) in
  set_cl (nf_client_list_clear (cl s)) (set_ru (af_mac_list_clear (ru s)) s).

(** ** Events and the module invariant *)

Definition inv (s : module_state) : Prop :=
  Forall node_wf (features s) /\ clients_wf (cl s) /\ rules_wf (ru s).

(** What can happen to a loaded module: a forwarded packet seen by the client
    hook or by the filter hook, a packet seen before routing, a timer tick, a
    netlink message, a command written to the device, a change of the two
    sysctl switches. *)
Inductive step `{Klib} : module_state -> module_state -> Prop :=
  | step_client e p s :
      length (af_get_smac p) = 6%nat -> step s (set_cl (snd (af_client_hook e p (cl s))) s)
  | step_forward mem e skb ct v ct' s s' :
      app_filter_hook mem e skb ct s = Some (v, ct', s') -> step s s'
  | step_prerouting mem e skb v s s' :
      length (af_get_smac (skb_link skb)) = 6%nat ->
      app_filter_by_pass_hook mem e skb s = Some (v, s') -> step s s'
  | step_timer e signed_char nl_ok s s' ms :
      oaf_timer_func e signed_char nl_ok s = Some (s', ms) -> step s s'
  | step_message umsg s s' : oaf_msg_rcv umsg s = Some s' -> step s s'
  | step_config signed_char uc0 alloc_ok f s r' :
      af_cdev_release signed_char uc0 alloc_ok f (ru s) = Some r' -> step s (set_ru r' s)
  | step_sysctl enable mode s :
      step s (mkState (features s) (cl s) (ru s) enable mode (count s) (report_flag s)).

Inductive reachable `{Klib} : module_state -> Prop :=
  | reach_init junk_id feature_buf s0 s :
      features s0 = [] -> app_filter_init junk_id feature_buf s0 = Some (0, s) -> reachable s
  | reach_step s s' : reachable s -> step s s' -> reachable s'.

Lemma inv_set_cl s c : inv s -> clients_wf c -> inv (set_cl c s).
Proof. intros (H1 & _ & H3) Hc. done. Qed.

Lemma write_inv a f s : keeps_node f -> inv s -> inv (set_cl (write a f (cl s)) s).
Proof. intros Hf Hs. apply inv_set_cl; [done|]. apply write_wf; [done|apply Hs]. Qed.

Lemma marked_flow_inv e ct client s :
  inv s -> inv (snd (marked_flow e ct client s)).
Proof.
  intros Hs. unfold marked_flow. case_bool; [|done]. apply write_inv; [|done].
  apply update_app_keeps. zify_bool. lia.
Qed.

Lemma gateway_inv mem e skb ct s v ct' s' :
  inv s -> app_filter_hook_gateway_handle mem e skb ct s = Some (v, ct', s') -> inv s'.
Proof.
  intros Hs H1. unfold app_filter_hook_gateway_handle in H1. simp_opt.
  match goal with x : Z * flow_info |- _ => destruct x as [rc flow] end.
  destruct (rc <? 0); simp_opt; [done|]. destruct ct as [c|]; simp_opt; [|done].
  destruct (negb (confirmed c)); simp_opt; [done|].
  destruct (find_af_client_by_ip _ _) as [client|]; simp_opt; [|done].
  pose proof (write_inv (c_addr client) (touch e) s (touch_keeps e) Hs) as Ht.
  set (st := set_cl _ s) in *. pose proof (marked_flow_inv e c client st Ht) as Hm.
  destruct (marked_flow e c client st) as [dropped s1]. cbn [snd] in Hm.
  destruct dropped; simp_opt; [done|]. destruct (acct c) as [[orig reply]|]; simp_opt; [|done].
  destruct (MAX_DPI_PKT_NUM <? _); simp_opt; [done|].
  destruct (negb (flow_app_id _ =? 0)) eqn:E; cbn [fst snd] in H1.
  - assert (inv (set_cl (write (c_addr client)
      (af_update_client_app_info e (flow_app_id x0) (flow_drop x0)) (cl s1)) s1)) as Hu.
    { apply write_inv; [|done]. apply update_app_keeps. lia. }
    destruct (flow_drop x0); simp_opt; done.
  - destruct (flow_drop x0); simp_opt; done.
Qed.

Lemma bypass_inv mem e skb s v s' :
  inv s -> length (af_get_smac (skb_link skb)) = 6%nat ->
  app_filter_hook_bypass_handle mem e skb s = Some (v, s') -> inv s'.
Proof.
  intros Hs Hmac H1. unfold app_filter_hook_bypass_handle in H1.
  do 2 (case_match; simp_opt; [done|]).
  match goal with x : Z * flow_info |- _ => destruct x as [rc flow] end.
  do 2 (case_match; simp_opt; [done|]).
  assert (clients_wf (snd (find_and_add_af_client e (af_get_smac (skb_link skb)) (cl s)))) as Hc.
  { unfold find_and_add_af_client. destruct (find_af_client _ _) eqn:Ef; [apply Hs|].
    destruct (nf_client_add _ _ _) as [[c|] s1] eqn:Ea.
    - eapply nf_client_add_wf; [apply Hs|done..].
    - unfold nf_client_add in Ea. destruct (alloc_ok e); simplify_eq. apply Hs. }
  destruct (find_and_add_af_client _ _ _) as [[client|] c]; cbn [snd] in Hc; simp_opt.
  2: by apply inv_set_cl.
  assert (forall f, inv (set_cl (write (c_addr client) (set_ip (src f))
    (cl (set_cl (write (c_addr client) (touch e) c) s))) (set_cl (write (c_addr client) (touch e) c) s))) as Hi.
  { intros f. apply write_inv; [apply set_ip_keeps|]. apply inv_set_cl; [done|].
    by apply write_wf; [apply touch_keeps|]. }
  match goal with |- inv (if ?b then _ else _) => destruct b eqn:Eapp; [|apply Hi] end.
  apply write_inv; [|apply Hi]. apply update_app_keeps. lia.
Qed.

Lemma step_inv `{Klib} s s' : inv s -> step s s' -> inv s'.
Proof.
  intros Hs Hst. destruct Hst as [e p s Hm|mem e skb ct v ct' s s' H1|mem e skb v s s' Hm H1
    |e sc nl s s' ms H1|umsg s s' H1|sc uc al f s r' H1|en mode s].
  - apply inv_set_cl; [done|]. apply af_client_hook_wf; [apply Hs|done].
  - unfold app_filter_hook in H1. do 2 (case_match; simp_opt; [done|]). by eapply gateway_inv.
  - unfold app_filter_by_pass_hook in H1. do 2 (case_match; simp_opt; [done|]). by eapply bypass_inv.
  - unfold oaf_timer_func in H1. 
    set (s1 := if Z.rem (count s) 60 =? 0 then set_cl (check_client_expire e (cl s)) s else s) in H1.
    assert (inv s1) as Hs1.
    { unfold s1. case_bool; [|done]. apply inv_set_cl; [done|]. apply check_client_expire_wf, Hs. }
    clearbody s1. simp_opt.
    match goal with x : module_state * list (list Z) |- _ => destruct x as [s2 ms2] end. simp_opt.
    enough (inv s2) as (? & ? & ?) by done.
    match goal with Hx : (if ?b then _ else _) = Some _ |- _ => destruct b end; simp_opt; [|done].
    match goal with x : clients * list (list Z) |- _ => destruct x end. simp_opt.
    destruct Hs1 as (? & ? & ?). split_and!; [done| |done]. by eapply af_visit_info_report_wf.
  - unfold oaf_msg_rcv in H1. simp_opt. case_match; simp_opt; [done|]. case_match; simp_opt; [done|].
    unfold oaf_user_msg_handle. case_bool; [|done]. destruct Hs as (? & ? & ?).
    split_and!; [done| |done]. apply update_wf; [apply set_report_count_keeps|done].
  - unfold af_cdev_release in H1. simp_opt. match goal with x : Z * rules |- _ => destruct x end.
    simp_opt. destruct Hs as (? & ? & ?). split_and!; [done..|]. by eapply af_config_handle_wf.
  - done.
Qed.

(** C18: every state the loaded module can reach, through any interleaving of
    packets, timer ticks, messages, device commands and switches, satisfies the
    module invariant: features, client table and rules are well formed. *)
Theorem reachable_inv `{Klib} s : reachable s -> inv s.
Proof.
  induction 1 as [junk fb s0 s Hf Hi|s s' _ IH Hst]; [|by eapply step_inv].
  unfold app_filter_init in Hi. simp_opt.
  match goal with x : Z * list feature_node |- _ => destruct x as [rc head] end. simp_opt.
  case_match; simp_opt; [done|]. split_and!; cbn [features cl ru set_cl set_ru].
  - eapply load_feature_config_nodes; [|done]. by rewrite Hf.
  - apply clients_wf_init.
  - split; [|apply tbl_init_placed]. unfold app_table_ok. vm_compute. reflexivity.
Qed.

(** ** The verdict of the gateway hook *)

Lemma dpi_main_src skb flow flow' : dpi_main skb flow = Some flow' -> src flow' = src flow.
Proof.
  intros H1. unfold dpi_main in H1. simp_opt.
  match goal with x : Z * flow_info |- _ => destruct x as [rc f] end. simp_opt.
  assert (src x = src flow) as <-.
  { unfold dpi_http_proto in *. repeat (case_match; simp_opt; try done). }
  unfold dpi_https_proto in *. repeat (case_match; simp_opt; try done).
Qed.

Lemma find_ip_write ip a f s :
  (forall c, c_ip (f c) = c_ip c) ->
  find_af_client_by_ip ip (write a f s) =
  (fun c => if at_addr a c then f c else c) <$> find_af_client_by_ip ip s.
Proof.
  intros Hf. unfold find_af_client_by_ip, write, set_table. cbn [table].
  rewrite tbl_update_elems. induction (concat (table s)) as [|c l IH]; [done|]. cbn [map List.find].
  assert (c_ip (if at_addr a c then f c else c) = c_ip c) as -> by (by case_match).
  by destruct (c_ip c =? ip).
Qed.

Lemma first_match_spec mem skb flow fs r :
  first_match mem skb flow fs = Some r ->
  match r with
  | Some n => exists l1 l2, fs = l1 ++ n :: l2 /\ af_match_one mem skb flow n = Some true /\
      Forall (fun m => af_match_one mem skb flow m = Some false) l1
  | None => Forall (fun m => af_match_one mem skb flow m = Some false) fs
  end.
Proof.
  induction fs as [|n fs IH]; intros H1; simpl in H1; simp_opt; [done|].
  destruct x; simp_opt; [by exists [], fs|]. specialize (IH H1). destruct r as [m|]; [|by constructor].
  destruct IH as (l1 & l2 & -> & Hm & Hl). exists (n :: l1), l2. split_and!; [done..|by constructor].
Qed.

(** The policy: the first feature that matches the flow names a blocked
    application, the sender is a known client, and the list of filtered users
    is empty or holds it. *)
Definition blocked (mem : kmem) (skb : list Z) (s : module_state) (flow : flow_info)
    (node : feature_node) : Prop :=
  (exists l1 l2, features s = l1 ++ node :: l2 /\ af_match_one mem skb flow node = Some true /\
     Forall (fun m => af_match_one mem skb flow m = Some false) l1) /\
  (exists client, find_af_client_by_ip (src flow) (cl s) = Some client /\
     (is_user_match_enable (ru s) = false \/ find_af_mac (c_mac client) (ru s) <> None)) /\
  (exists status, af_get_app_status (s32 (app_id node)) (ru s) = Some status /\ status <> 0).

Lemma first_unique {A} (p : A -> option bool) a b l1 l2 k1 k2 :
  l1 ++ a :: l2 = k1 ++ b :: k2 -> p a = Some true -> p b = Some true ->
  Forall (fun m => p m = Some false) l1 -> Forall (fun m => p m = Some false) k1 -> a = b.
Proof.
  intros He Ha Hb H1. revert k1 He. induction H1 as [|x l1 Hx _ IH]; intros [|y k1] He Hk;
    simpl in He; simplify_eq; try done.
  - apply Forall_cons in Hk as [Hk _]. congruence.
  - apply Forall_cons in Hk as [_ Hk]. eauto.
Qed.

Lemma app_filter_match_spec mem skb s flow flow' :
  app_filter_match mem skb (features s) (cl s) (ru s) flow = Some flow' ->
  (flow_drop flow' = true <-> exists node, blocked mem skb s flow node) /\
  (forall node, blocked mem skb s flow node -> flow_app_id flow' = app_id node).
Proof.
  intros H1. unfold app_filter_match in H1. simp_opt.
  match goal with Hm : first_match _ _ _ _ = _ |- _ => pose proof (first_match_spec _ _ _ _ _ Hm) as Hs end.
  destruct x as [node|]; simp_opt.
  2: { rewrite Forall_forall in Hs.
       assert (forall node, ~ blocked mem skb s flow node) as Hno.
       { intros node ((l1 & l2 & Hfs & Ht & _) & _). rewrite Hs in Ht; [done|].
         rewrite Hfs. set_solver. }
       split; [split; [done|intros [n Hn]; by destruct (Hno n)]|intros n Hn; by destruct (Hno n)]. }
  destruct Hs as (l1 & l2 & Hfs & Ht & Hl).
  assert (forall n, blocked mem skb s flow n -> n = node) as Hu.
  { intros n ((k1 & k2 & Hk & Hn & Hk1) & _). rewrite Hk in Hfs.
    exact (first_unique _ _ _ _ _ _ _ Hfs Hn Ht Hk1 Hl). }
  split; [|intros n Hn; rewrite (Hu n Hn); repeat case_match; simp_opt; done].
  split.
  - intros Hd. exists node. split; [by exists l1, l2|].
    repeat case_match; simp_opt; try done. split; [|by exists x; cbn in Hd; split; [done|lia]].
    eexists; split; [done|]. destruct (is_user_match_enable _); [|by left]. right.
    by destruct (find_af_mac _ _).
  - intros [n Hn]. pose proof (Hu n Hn) as ->. destruct Hn as (_ & (c & Hc & Hm) & st & Hst & Hne).
    rewrite Hc in H1. case_match.
    { destruct Hm as [Hm|Hm]; [by rewrite Hm in *|]. case_bool_decide; [done|].
      by rewrite andb_false_r in *. }
    rewrite Hst in H1. simp_opt. cbn. lia.
Qed.

(** The policy only depends on the network addresses and MACs of the table. *)
Lemma blocked_touch mem e skb s a flow node :
  blocked mem skb (set_cl (write a (touch e) (cl s)) s) flow node <-> blocked mem skb s flow node.
Proof.
  unfold blocked. cbn [features ru cl set_cl]. rewrite find_ip_write by done.
  destruct (find_af_client_by_ip _ _) as [c|]; simpl; [|done].
  assert (c_mac (if at_addr a c then touch e c else c) = c_mac c) as Hm by (by case_match).
  split; intros (H1 & (c' & [= <-] & H2) & H3); (split; [exact H1|]); (split; [|exact H3]);
    eexists; (split; [done|]); [by rewrite <- Hm|by rewrite Hm].
Qed.

(** C1: on a packet of an unmarked, confirmed connection of at most 64 packets
    whose sender is a known client, the gateway hook drops if and only if the
    policy blocks the dissected flow, and then the connection is left marked
    with the application and the drop bit. *)
Theorem gateway_enforces_policy mem e skb ct s v ct' s' flow0 flow client orig reply :
  parse_flow_proto (skb_data skb) = Some (0, flow0) ->
  dpi_main (skb_data skb) flow0 = Some flow ->
  find_af_client_by_ip (src flow0) (cl s) = Some client ->
  confirmed ct = true -> mark ct = 0 -> acct ct = Some (orig, reply) ->
  u64 (orig + reply) <= MAX_DPI_PKT_NUM ->
  app_filter_hook_gateway_handle mem e skb (Some ct) s = Some (v, ct', s') ->
  (v = NF_DROP <-> exists node, blocked mem (skb_data skb) s flow node) /\
  (v = NF_DROP \/ v = NF_ACCEPT) /\
  (forall node, blocked mem (skb_data skb) s flow node ->
     exists c', ct' = Some c' /\ mark c' = Z.lor (app_id node) NF_DROP_BIT).
Proof.
  intros Hp Hd Hc Hcf Hm Ha Hn H1. unfold app_filter_hook_gateway_handle, marked_flow in H1.
  rewrite Hp in H1. cbn [mbind option_bind] in H1. change (0 <? 0) with false in H1. cbv iota in H1.
  rewrite Hcf, Hc, Hm, Ha in H1. cbn [negb] in H1. change (0 =? 0) with true in H1.
  cbn [negb andb] in H1. rewrite (proj2 (Z.ltb_ge _ _) Hn), Hd in H1. cbn [mbind option_bind] in H1.
  simp_opt. match goal with Hf : app_filter_match _ _ _ _ _ _ = Some ?x |- _ =>
    pose proof (app_filter_match_spec mem (skb_data skb) _ flow x Hf) as [Hdrop Happ] end.
  setoid_rewrite blocked_touch in Hdrop. setoid_rewrite blocked_touch in Happ.
  destruct (flow_drop x) eqn:Ed.
  - split; [|split].
    + rewrite <- Hdrop. destruct (flow_app_id x =? 0); cbn [negb] in H1; simp_opt; done.
    + destruct (flow_app_id x =? 0); cbn [negb] in H1; simp_opt; by left.
    + intros node Hb. rewrite <- (Happ node Hb).
      destruct (flow_app_id x =? 0) eqn:E; cbn [negb] in H1; simp_opt; eexists; (split; [done|]);
        cbn [mark set_mark]; [|done]. f_equal. lia.
  - assert (v = NF_ACCEPT) as ->.
    { destruct (flow_app_id x =? 0); cbn [negb] in H1; simp_opt; done. }
    split; [|split; [by right|]].
    + rewrite <- Hdrop. done.
    + intros node Hb. assert (false = true) by (apply Hdrop; by exists node). done.
Qed.

Lemma lor_drop_bit m : Z.land (Z.lor m NF_DROP_BIT) NF_DROP_BIT = NF_DROP_BIT.
Proof.
  apply Z.bits_inj. intros i. rewrite Z.land_spec, Z.lor_spec.
  by destruct (Z.testbit m i), (Z.testbit NF_DROP_BIT i).
Qed.

Lemma gateway_drop_marks mem e skb ct s ct' s' :
  app_filter_hook_gateway_handle mem e skb (Some ct) s = Some (NF_DROP, ct', s') ->
  exists c', ct' = Some c' /\ confirmed c' = true /\ Z.land (mark c') NF_DROP_BIT <> 0.
Proof.
  intros H1. unfold app_filter_hook_gateway_handle in H1. simp_opt.
  match goal with x : Z * flow_info |- _ => destruct x as [rc flow] end.
  case_match; simp_opt; [done|]. destruct (confirmed ct) eqn:Ec; cbn [negb] in H1; simp_opt; [|done].
  case_match; simp_opt; [|done].
  destruct (marked_flow _ _ _ _) as [dropped s1] eqn:Em. destruct dropped.
  { simp_opt. exists ct. split_and!; [done..|]. unfold marked_flow in Em.
    case_match; simplify_eq. lia. }
  destruct (acct ct) as [[? ?]|]; simp_opt; [|done]. case_match; simp_opt; [done|].
  match type of H1 with context [negb (flow_app_id ?f =? 0)] => destruct (negb (flow_app_id f =? 0)) end;
    cbn [fst snd] in H1; case_match; simp_opt; try done;
    eexists; (split; [done|]); (split; [done|]); cbn [mark set_mark]; rewrite lor_drop_bit; done.
Qed.

(** a drop is sticky.  Once the gateway hook has dropped a packet of a
    connection and left an application number between 1001 and 9998 in its mark,
    it drops every later packet of that connection that comes from a known
    client, whatever the rules, the features and the packet then are: removing
    the application from the rules does not unblock the connection. *)
Theorem drop_is_sticky mem e skb ct s c' s1 mem2 e2 skb2 s2 rc flow2 client :
  app_filter_hook_gateway_handle mem e skb (Some ct) s = Some (NF_DROP, Some c', s1) ->
  1000 < Z.land (mark c') (NF_DROP_BIT - 1) < 9999 ->
  parse_flow_proto (skb_data skb2) = Some (rc, flow2) -> 0 <= rc ->
  find_af_client_by_ip (src flow2) (cl s2) = Some client ->
  exists s3, app_filter_hook_gateway_handle mem2 e2 skb2 (Some c') s2 =
    Some (NF_DROP, Some c', s3).
Proof.
  intros (c & [= <-] & Hcf & Hbit)%gateway_drop_marks Happ Hp Hrc Hc.
  unfold app_filter_hook_gateway_handle. rewrite Hp. cbn [mbind option_bind].
  rewrite (proj2 (Z.ltb_ge rc 0)) by lia. rewrite Hcf, Hc. cbn [negb].
  unfold marked_flow. rewrite (proj2 (Z.eqb_neq (mark c') 0)).
  2: { intros Hm. rewrite Hm, Z.land_0_l in Hbit. done. }
  rewrite (proj2 (Z.ltb_lt 1000 _)), (proj2 (Z.ltb_lt _ 9999)) by lia.
  rewrite (proj2 (Z.eqb_neq _ 0) Hbit). cbn [negb andb]. by eexists.
Qed.

Lemma status_clear a r x :
  Forall (fun st => st = 0) (g_app_id_array r) -> af_get_app_status a r = Some x -> x = 0.
Proof.
  intros Hr H1. unfold af_get_app_status, rd in H1. case_match; [done|].
  rewrite Forall_forall in Hr. apply Hr. by eapply list_elem_of_lookup_2.
Qed.

Lemma match_clear mem skb s flow flow' :
  Forall (fun st => st = 0) (g_app_id_array (ru s)) ->
  app_filter_match mem skb (features s) (cl s) (ru s) flow = Some flow' -> flow_drop flow' = false.
Proof.
  intros Hr H1. apply app_filter_match_spec in H1 as [Hd _].
  destruct (flow_drop flow') eqn:E; [|done].
  destruct (proj1 Hd eq_refl) as (n & _ & _ & st & Hst & Hne). by eapply status_clear in Hst.
Qed.

(** Fail-open.  With no application blocked, both hooks accept every packet
    of a connection that carries no drop mark. *)
Theorem nothing_blocked_accepts mem e skb ct s :
  Forall (fun st => st = 0) (g_app_id_array (ru s)) ->
  (forall c, ct = Some c -> Z.land (mark c) NF_DROP_BIT = 0) ->
  (forall v ct' s', app_filter_hook mem e skb ct s = Some (v, ct', s') -> v = NF_ACCEPT) /\
  (forall v s', app_filter_by_pass_hook mem e skb s = Some (v, s') -> v = NF_ACCEPT).
Proof.
  intros Hr Hm. split.
  - intros v ct' s' H1. unfold app_filter_hook in H1. do 2 (case_match; simp_opt; [done|]).
    unfold app_filter_hook_gateway_handle in H1. simp_opt.
    match goal with x : Z * flow_info |- _ => destruct x as [rc flow] end.
    case_match; simp_opt; [done|]. destruct ct as [c|]; simp_opt; [|done].
    case_match; simp_opt; [done|]. case_match; simp_opt; [|done].
    unfold marked_flow in H1. rewrite (Hm c eq_refl) in H1. change (negb (0 =? 0)) with false in H1.
    match type of H1 with context [if ?b then (false, ?s1) else (false, ?s2)] =>
      replace (if b then (false, s1) else (false, s2)) with
        (false, if b then s1 else s2) in H1 by (by destruct b); set (st := if b then s1 else s2) in H1;
        assert (ru st = ru s) as Hst by (unfold st; by destruct b)
    end. clearbody st. cbv iota beta in H1.
    case_match; simp_opt; [|done]. case_match; simp_opt. case_match; simp_opt; [done|].
    match goal with Hf : app_filter_match _ _ _ _ _ _ = Some ?x |- _ =>
      apply match_clear in Hf; [rewrite Hf in H1|by rewrite Hst] end.
    case_match; simp_opt; done.
  - intros v s' H1. unfold app_filter_by_pass_hook in H1. do 2 (case_match; simp_opt; [done|]).
    unfold app_filter_hook_bypass_handle in H1. do 2 (case_match; simp_opt; [done|]).
    match goal with x : Z * flow_info |- _ => destruct x as [rc flow] end.
    do 2 (case_match; simp_opt; [done|]).
    destruct (find_and_add_af_client _ _ _) as [[client|] c]; simp_opt; [|done].
    match goal with Hf : app_filter_match _ _ _ _ _ _ = Some ?x |- _ =>
      apply match_clear in Hf; [by rewrite Hf|done] end.
Qed.

(** A feature with ports only never matches a payload whose first byte is
    not zero: the loader gives it the position [(0, 0)], so the branch for a
    feature without URL and without positions is never taken. *)
Theorem port_only_feature_needs_zero_byte mem skb flow appid name f :
  ft_host f = [] -> ft_request f = [] -> ft_dict f = [] ->
  af_match_one mem skb flow (node_of appid name f) = Some true -> skb @! l4_data flow = Some 0.
Proof.
  intros Hh Hr Hd H1. unfold af_match_one, node_of in H1. rewrite Hh, Hr, Hd in H1.
  do 4 (case_match; [done|]). unfold af_match_by_pos, pos_num in H1.
  cbn [host_url request_url positions] in H1. rewrite !bool_decide_true in H1 by done.
  change (0 <? Z.of_nat (length [mkPos 0 0])) with true in H1. cbn [negb orb match_positions pos value] in H1.
  change (0 <? 0) with false in H1. cbv zeta iota in H1. case_match; [done|]. simp_opt.
  rewrite Z.add_0_r in *. case_match; simplify_eq.
  match goal with Hx : negb (?x =? 0) = false |- _ => assert (x = 0) as -> by lia end. done.
Qed.

(** A feature whose host pattern is malformed matches every TLS flow that
    names a server (its ports and protocol allowing): the matcher's error code is taken for a
    match. *)
Theorem malformed_pattern_matches_all mem skb flow node pos buf c name :
  compile mem (cbuf 128 (host_url node)) = Some [] -> host_url node <> [] ->
  s_match (https flow) = true -> s_url_pos (https flow) = Some pos ->
  copy_url skb pos (s_url_len (https flow)) = Some buf -> cstr buf = Some (c :: name) ->
  af_match_by_url mem skb flow node = Some true.
Proof.
  intros Hcp Hne Hm Hpos Hcopy Hbuf. unfold af_match_by_url. rewrite Hm, Hpos, Hcopy.
  cbn [mbind option_bind].
  assert (url_matches mem (host_url node) buf = Some true) as ->; [|done].
  unfold url_matches. rewrite Hbuf. cbn [mbind option_bind].
  rewrite !bool_decide_false by done. unfold regexp_match. by rewrite Hcp.
Qed.

(** ** Witnesses *)

Definition tls_demo : list Z :=
  [0x45; 0; 0; 65; 0; 0; 0; 0; 64; 6; 0; 0; 192; 168; 1; 100; 8; 8; 8; 8] ++
  [0x9c; 0x40; 1; 0xbb; 0; 0; 0; 0; 0; 0; 0; 0; 0x50; 0; 0; 0; 0; 0; 0; 0] ++
  hello_demo ++ [0; 0; 0; 9; 0; 7; 0; 0; 6] ++ bytes_of "qq.com" ++ [1].
Definition skb_demo : sk_buff := mkSkb tls_demo 65 packet_demo.
Definition node_demo (host : string) : feature_node :=
  mkNode 1001 [] IPPROTO_TCP 0 port_info0 (bytes_of host) [] [mkPos 0 0].
Definition state_demo (host : string) (status : Z) : module_state :=
  mkState [node_demo host] (snd (af_client_hook env_demo packet_demo clients0))
    (set_apps (<[257%nat := status]> (g_app_id_array rules0)) rules0) true AF_MODE_GATEWAY 0 false.
Definition ct_demo : nf_conn := mkConn true 0 (Some (3, 2)).
Definition ct_dropped : nf_conn := mkConn true (Z.lor 1001 NF_DROP_BIT) (Some (3, 2)).
Definition flow_tls : flow_info :=
  mkFlow 0x6401a8c0 0x08080808 IPPROTO_TCP 40000 443 40 25 http0 (mkHttps true (Some 58) 6) 0 false.

Lemma gateway_enforces_policy_witness :
  exists s' node, app_filter_hook_gateway_handle mem0 env_demo skb_demo (Some ct_demo)
      (state_demo "qq.com" 1) = Some (NF_DROP, Some ct_dropped, s') /\
    blocked mem0 tls_demo (state_demo "qq.com" 1) flow_tls node.
Proof.
  destruct (app_filter_hook_gateway_handle mem0 env_demo skb_demo (Some ct_demo)
    (state_demo "qq.com" 1)) as [[[v ct'] s']|] eqn:E; [|vm_compute in E; discriminate E].
  assert (v = NF_DROP /\ ct' = Some ct_dropped) as [-> ->]
    by (vm_compute in E; injection E as <- <- <-; split; reflexivity).
  edestruct (gateway_enforces_policy mem0 env_demo skb_demo ct_demo (state_demo "qq.com" 1)
    NF_DROP (Some ct_dropped) s') as [Hd _];
    [vm_compute; reflexivity..|vm_compute; discriminate|exact E|].
  destruct (proj1 Hd eq_refl) as [node Hn]. exists s', node. split; [reflexivity|exact Hn].
Defined.

Lemma drop_is_sticky_witness :
  exists s3, app_filter_hook_gateway_handle mem0 env_demo skb_demo (Some ct_dropped)
    (state_demo "other.org" 0) = Some (NF_DROP, Some ct_dropped, s3).
Proof.
  destruct (app_filter_hook_gateway_handle mem0 env_demo skb_demo (Some ct_demo)
    (state_demo "qq.com" 1)) as [[[v ct'] s']|] eqn:E; [|vm_compute in E; discriminate E].
  assert (v = NF_DROP /\ ct' = Some ct_dropped) as [-> ->]
    by (vm_compute in E; injection E as <- <- <-; split; reflexivity).
  eapply (drop_is_sticky mem0 env_demo skb_demo ct_demo (state_demo "qq.com" 1) ct_dropped s'
    mem0 env_demo skb_demo (state_demo "other.org" 0)).
  - exact E.
  - vm_compute. split; reflexivity.
  - vm_compute. reflexivity.
  - vm_compute. discriminate.
  - vm_compute. reflexivity.
Defined.

Lemma nothing_blocked_accepts_witness :
  exists v ct' s', app_filter_hook mem0 env_demo skb_demo (Some ct_demo) (state_demo "qq.com" 0) =
    Some (v, ct', s') /\ v = NF_ACCEPT.
Proof.
  destruct (app_filter_hook mem0 env_demo skb_demo (Some ct_demo) (state_demo "qq.com" 0))
    as [[[v ct'] s']|] eqn:E; [|vm_compute in E; discriminate E].
  exists v, ct', s'. split; [reflexivity|].
  destruct (nothing_blocked_accepts mem0 env_demo skb_demo (Some ct_demo) (state_demo "qq.com" 0))
    as [H1 _].
  - apply (bool_decide_unpack _). vm_compute. exact I.
  - intros c [= <-]. reflexivity.
  - exact (H1 v ct' s' E).
Defined.

Definition ports_demo : feature_text := mkFeature true [] [] [] [] [].

Lemma port_only_feature_needs_zero_byte_witness : [0; 22; 3] @! 0 = Some 0.
Proof.
  apply (port_only_feature_needs_zero_byte mem0 [0; 22; 3]
    (mkFlow 0 0 IPPROTO_TCP 1 2 0 3 http0 https0 0 false) 1001 [] ports_demo); reflexivity.
Defined.

Lemma malformed_pattern_matches_all_witness :
  af_match_by_url mem0 tls_demo flow_tls (node_demo "[other.org") = Some true.
Proof.
  eapply (malformed_pattern_matches_all mem0 tls_demo flow_tls (node_demo "[other.org") 58);
    try (vm_compute; reflexivity). discriminate.
Defined.

Import KlibRef.

Lemma reachable_inv_witness :
  exists s, reachable s /\ inv s.
Proof.
  set (s0 := mkState [] clients0 rules0 true AF_MODE_GATEWAY 0 false).
  destruct (app_filter_init 0 (Some file_demo) s0) as [[rc s]|] eqn:E; [|vm_compute in E; discriminate E].
  assert (rc = 0) as -> by (vm_compute in E; injection E as <- <-; reflexivity).
  exists s. assert (reachable s) as Hr by (apply (reach_init 0 (Some file_demo) s0); [reflexivity|exact E]).
  split; [exact Hr|apply reachable_inv; exact Hr].
Defined.

Lemma copy_url_negative skb pos len : - 2 ^ 31 <= len < 0 -> copy_url skb pos len = None.
Proof.
  intros Hl. unfold copy_url. rewrite (proj2 (Z.leb_gt _ _)) by (unfold MAX_URL_MATCH_LEN; lia).
  unfold strncpy. rewrite (proj2 (Nat.ltb_lt _ _)); [done|]. rewrite length_replicate.
  unfold u64. assert (len mod 2 ^ 64 = len + 2 ^ 64) as ->.
  { symmetry. apply Z.mod_unique with (-1); lia. }
  unfold MAX_URL_MATCH_LEN. lia.
Qed.

(** A request with an empty Host line has host length -1, and the copy of the
    host runs over its buffer. *)
Example empty_host_overflow :
  let data := header_text [bytes_of "GET / HTTP/1.1"; bytes_of "Host:"] ++ [CR; LF] in
  let skb := replicate 40 0 ++ data in
  exists flow, dpi_http_proto skb
      (mkFlow 0 0 IPPROTO_TCP 40000 80 40 (Z.of_nat (length data)) http0 https0 0 false) = Some flow /\
    h_host_len (http flow) = -1 /\ af_match_by_url mem0 skb flow (node_demo "qq.com") = None.
Proof.
  eexists. split; [vm_compute; reflexivity|]. split; [reflexivity|].
  unfold af_match_by_url. cbn [https http s_match s_url_pos h_match h_host_pos h_host_len https0].
  by rewrite copy_url_negative by lia.
Qed.

End Filter.
