(* ===== verification/ClientFs.v ===== *)
(** * ClientFs: the listing of clients in /proc/net/af_client

    Models the sequence-file iterator of src/oaf/src/af_client_fs.c over the
    client table: a node pointer is its bucket and its place in the bucket, the
    bucket being also what [struct af_client_iter_state] keeps. *)

From S2P Require Import Prelude Libc KUtils Json MacTable Client.

Import Libc Json Client.

#[local] Arguments Z.eqb : simpl never.

Module ClientFs.

(** [v] of the callbacks: the start token or a node of the table. *)
Inductive cursor := SEQ_START_TOKEN | Node (bucket idx : nat).

Definition node_at (t : list (list client)) (b i : nat) : option client := l ← t !! b; l !! i.

(** The loop over the buckets from [b] on, [t] being the table from there. *)
Fixpoint scan (t : list (list client)) (b : nat) : option (nat * nat) :=
  match t with
  | [] => None
  | l :: t => if bool_decide (l = []) then scan t (S b) else Some (b, 0%nat)
  end.

Section Iterator.
Context (t : list (list client)).

Definition af_client_get_first : option (nat * nat) := scan t 0.

(** The next node of the bucket, or the first of the next bucket that has one;
    the list head ends a bucket. *)
Definition af_client_get_next (head : nat * nat) : option (nat * nat) :=
  let '(b, i) := head in
  if (S i <? length (bucket t b))%nat then Some (b, S i) else scan (drop (S b) t) (S b).

(** [while (pos && (head = af_client_get_next(seq, head))) pos--;
    return pos ? NULL : head;] *)
Fixpoint idx_loop (pos : nat) (head : nat * nat) : option (nat * nat) :=
  match pos with
  | O => Some head
  | S p => match af_client_get_next head with Some head => idx_loop p head | None => None end
  end.
Definition af_client_get_idx (pos : nat) : option (nat * nat) :=
  match af_client_get_first with Some head => idx_loop pos head | None => None end.

Definition as_node (h : option (nat * nat)) : option cursor :=
  match h with Some (b, i) => Some (Node b i) | None => None end.

Definition af_client_seq_start (pos : nat) : option cursor :=
  match pos with O => Some SEQ_START_TOKEN | S p => as_node (af_client_get_idx p) end.

(** The next cursor; the position grows by one. *)
Definition af_client_seq_next (v : cursor) (pos : nat) : option cursor * nat :=
  (match v with
   | SEQ_START_TOKEN => as_node (af_client_get_idx 0)
   | Node b i => as_node (af_client_get_next (b, i))
   end, S pos).

(** [%-Nd] and [%-Ns]. *)
Definition pad (n : nat) (s : list Z) : list Z := s ++ replicate (n - length s) 32.
Definition title : list Z :=
  pad 4 (bytes_of "Id") ++ 32 :: pad 20 (bytes_of "Mac") ++ 32 :: pad 20 (bytes_of "Ip") ++ [10].
Definition line (index : Z) (c : client) : list Z :=
  pad 4 (dec index) ++ 32 :: pad 20 (mac_str (c_mac c)) ++ 32 :: pad 20 (ip_str (c_ip c)) ++ [10].

(** [af_client_seq_show]: the static [index] after the call and the line. *)
Definition af_client_seq_show (index : Z) (v : cursor) : option (Z * list Z) :=
  match v with
  | SEQ_START_TOKEN => Some (0, title)
  | Node b i => c ← node_at t b i; Some (s32 (index + 1), line (s32 (index + 1)) c)
  end.

(** The protocol of a reader: start at a position, then show and next until
    the end; the lines shown, or at most [fuel] of them. *)
Fixpoint read_from (fuel : nat) (v : option cursor) (pos : nat) (index : Z) : option (list (list Z)) :=
  match fuel, v with
  | S fuel, Some v =>
      '(index, l) ← af_client_seq_show index v;
      let '(v, pos) := af_client_seq_next v pos in
      ls ← read_from fuel v pos index;
      Some (l :: ls)
  | _, _ => Some []
  end.
Definition seq_read (fuel pos : nat) (index : Z) : option (list (list Z)) :=
  read_from fuel (af_client_seq_start pos) pos index.

(** ** Order of the walk *)

(** The place of a node in the concatenation of the buckets. *)
Definition flat (b i : nat) : nat := (length (concat (take b t)) + i)%nat.

Lemma node_at_bucket b i c : node_at t b i = Some c -> bucket t b !! i = Some c.
Proof. unfold node_at, bucket. destruct (t !! b); simpl; [done|by destruct i]. Qed.

Lemma flat_S b i : (b < length t)%nat -> flat (S b) i = (flat b 0 + length (bucket t b) + i)%nat.
Proof.
  intros Hb. unfold flat, bucket. destruct (lookup_lt_is_Some_2 t b Hb) as [l Hl]. rewrite Hl.
  rewrite (take_S_r _ _ _ Hl), concat_app, length_app. simpl. rewrite app_nil_r. lia.
Qed.

Lemma node_at_flat b i c : node_at t b i = Some c -> concat t !! flat b i = Some c.
Proof.
  intros Hc. pose proof (node_at_bucket _ _ _ Hc) as Hi. unfold node_at in Hc.
  destruct (t !! b) as [l|] eqn:El; [|done]. simpl in Hc.
  pose proof (take_drop_middle t b l El) as Ht. rewrite <- Ht at 1. unfold flat.
  rewrite concat_app. rewrite lookup_app_r by lia. replace (_ + i - _)%nat with i by lia.
  simpl. by rewrite lookup_app_l by by eapply lookup_lt_Some.
Qed.

Lemma flat_end b : (length t <= b)%nat -> flat b 0 = length (concat t).
Proof. intros Hb. unfold flat. rewrite take_ge by lia. lia. Qed.

(** The scan from bucket [b] stops at the next node, if there is one. *)
Lemma scan_spec b :
  match scan (drop b t) b with
  | Some (b', i) => (exists c, node_at t b' i = Some c) /\ flat b' i = flat b 0
  | None => flat b 0 = length (concat t)
  end.
Proof.
  remember (length t - b)%nat as k eqn:Hk. revert b Hk. induction k as [|k IH]; intros b Hk.
  { rewrite drop_ge by lia. apply flat_end. lia. }
  destruct (lookup_lt_is_Some_2 t b ltac:(lia)) as [l Hl]. rewrite (drop_S _ _ _ Hl). cbn [scan].
  case_bool_decide as Hn.
  - specialize (IH (S b) ltac:(lia)). rewrite flat_S in IH by lia.
    unfold bucket in IH. rewrite Hl, Hn in IH. simpl in IH. rewrite Nat.add_0_r, Nat.add_0_r in IH.
    done.
  - split; [|done]. unfold node_at. rewrite Hl. simpl. destruct l; [done|]. by eexists.
Qed.

Lemma get_next_spec b i c :
  node_at t b i = Some c ->
  match af_client_get_next (b, i) with
  | Some (b', i') => (exists c', node_at t b' i' = Some c') /\ flat b' i' = S (flat b i)
  | None => S (flat b i) = length (concat t)
  end.
Proof.
  intros Hc. pose proof (node_at_bucket _ _ _ Hc) as Hi. apply lookup_lt_Some in Hi as Hlt.
  assert (b < length t)%nat as Hb.
  { unfold node_at in Hc. destruct (t !! b) eqn:E; [|done]. by eapply lookup_lt_Some. }
  unfold af_client_get_next. destruct (S i <? length (bucket t b))%nat eqn:E.
  - apply Nat.ltb_lt in E. split; [|unfold flat; lia]. unfold node_at, bucket in *.
    destruct (t !! b) as [l|]; [|done]. simpl in *. by apply lookup_lt_is_Some_2.
  - apply Nat.ltb_ge in E. pose proof (scan_spec (S b)) as Hs. rewrite flat_S in Hs by done.
    assert (flat b 0 + length (bucket t b) + 0 = S (flat b i))%nat as He by (unfold flat; lia).
    rewrite He in Hs. done.
Qed.

Lemma idx_loop_spec pos b i c :
  node_at t b i = Some c ->
  match idx_loop pos (b, i) with
  | Some (b', i') => (exists c', node_at t b' i' = Some c') /\ flat b' i' = (flat b i + pos)%nat
  | None => (length (concat t) <= flat b i + pos)%nat
  end.
Proof.
  revert b i c. induction pos as [|pos IH]; intros b i c Hc; cbn [idx_loop].
  - split; [by eexists|lia].
  - pose proof (get_next_spec b i c Hc) as Hn. destruct (af_client_get_next _) as [[b' i']|]; [|lia].
    destruct Hn as [[c' Hc'] Hf]. specialize (IH b' i' c' Hc'). rewrite Hf in IH.
    destruct (idx_loop _ _) as [[]|]; [|lia]. destruct IH as [? ->]. split; [done|lia].
Qed.

Lemma get_idx_spec pos :
  match af_client_get_idx pos with
  | Some (b, i) => (exists c, node_at t b i = Some c) /\ flat b i = pos
  | None => (length (concat t) <= pos)%nat
  end.
Proof.
  unfold af_client_get_idx, af_client_get_first. pose proof (scan_spec 0) as Hs.
  rewrite drop_0 in Hs. destruct (scan t 0) as [[b i]|]; [|unfold flat in Hs; simpl in Hs; lia].
  destruct Hs as [[c Hc] Hf]. pose proof (idx_loop_spec pos b i c Hc) as Hi. rewrite Hf in Hi.
  by destruct (idx_loop _ _) as [[]|].
Qed.

(** The lines of a list of clients, numbered from [index + 1]. *)
Fixpoint lines_from (index : Z) (cs : list client) : list (list Z) :=
  match cs with
  | [] => []
  | c :: cs => line (s32 (index + 1)) c :: lines_from (s32 (index + 1)) cs
  end.

Lemma read_from_node fuel b i c pos index :
  node_at t b i = Some c ->
  read_from fuel (Some (Node b i)) pos index =
  Some (take fuel (lines_from index (drop (flat b i) (concat t)))).
Proof.
  revert b i c pos index. induction fuel as [|fuel IH]; intros b i c pos index Hc; [done|].
  rewrite (drop_S _ _ _ (node_at_flat b i c Hc)). cbn [read_from af_client_seq_show lines_from take].
  rewrite Hc. cbn [mbind option_bind af_client_seq_next].
  pose proof (get_next_spec b i c Hc) as Hn.
  destruct (af_client_get_next _) as [[b' i']|]; cbn [as_node].
  - destruct Hn as [[c' Hc'] Hf]. rewrite (IH _ _ c') by done. by rewrite Hf.
  - rewrite Hn, drop_all. destruct fuel; done.
Qed.

Lemma read_from_idx fuel p pos index :
  read_from fuel (as_node (af_client_get_idx p)) pos index =
  Some (take fuel (lines_from index (drop p (concat t)))).
Proof.
  pose proof (get_idx_spec p) as Hi. destruct (af_client_get_idx p) as [[b i]|]; cbn [as_node].
  - destruct Hi as [[c Hc] <-]. by apply (read_from_node fuel b i c).
  - rewrite drop_ge by done. by destruct fuel.
Qed.

(** A reader that starts at the beginning gets the title and one line per
    client of the table, in the order of the buckets; one that resumes at a
    later position, as after a full buffer, gets exactly the lines that are
    left.  Any number of lines may be asked for. *)
Theorem seq_read_lists fuel index :
  seq_read (S fuel) 0 index = Some (title :: take fuel (lines_from 0 (concat t))) /\
  forall p, seq_read fuel (S p) index = Some (take fuel (lines_from index (drop p (concat t)))).
Proof.
  split; [|intros p; apply read_from_idx].
  unfold seq_read. cbn [af_client_seq_start read_from af_client_seq_show mbind option_bind
    af_client_seq_next]. by rewrite read_from_idx.
Qed.

End Iterator.

End ClientFs.
