(* ===== verification/Devices.v ===== *)
(** * Devices: the device table of the user-space daemon

    Models src/open-app-filter/src/appfilter_user.c (devices, their visit
    records, expiry, the device list) and the report handler of
    src/open-app-filter/src/appfilter_netlink.c.  The devices live in the table
    of MacTable, keyed by the text of the MAC address; a string field is the
    list of its bytes before the NUL. *)

From S2P Require Import Prelude Libc KUtils Json MacTable Client ClientFs Dpi.

Import Libc Json Client ClientFs Dpi.

#[local] Arguments Z.eqb : simpl never.

Module Devices.

(** ** Data *)

Definition MAX_MAC_LEN : nat := 32.
Definition MAX_IP_LEN : nat := 32.
Definition MAX_HOSTNAME_SIZE : nat := 64.
Definition MAX_SUPPORT_USER_NUM : Z := 64.
Definition MAX_SUPPORT_DEV_NUM : Z := 64.
Definition MAX_VISIT_HASH_SIZE : nat := 64.
Definition MAX_APP_TYPE : Z := 16.
Definition MAX_APP_ID_NUM : Z := 128.
Definition MIN_VISIT_TIME : Z := 5.
Definition REPORT_INTERVAL_SECS : Z := 60.
Definition DEV_OFFLINE_TIME : Z := 24 * 3600 * 3.
Definition MAX_RECORD_TIME : Z := 7 * 24 * 60 * 60.
Definition RECORD_REMAIN_TIME : Z := 24 * 60 * 60.
Definition INVALID_RECORD_TIME : Z := 5 * 60.

Record visit_info := mkInfo {
  appid : Z; first_time : Z; latest_time : Z; action : Z; v_expire : bool }.

(** [stat] is the field [total_time] of the two-dimensional array, row by row;
    the byte counters are never written. *)
Record dev_node := mkDev {
  mac : list Z; ip : list Z; hostname : list Z; online : bool; expire : bool;
  offline_time : Z; online_time : Z;
  visit_htable : list (list visit_info); stat : list Z }.
#[export] Instance dev_mac : HasMac dev_node := mac.
#[export] Instance dev_hash : KeyHash dev_node :=
  {| key_hash := byte_hash 0; key_hash_lt := byte_hash_lt 0 |}.

Record devs := mkDevs { dev_hash_table : list (list dev_node); g_cur_user_num : Z }.
Definition set_devs (t : list (list dev_node)) (s : devs) : devs := mkDevs t (g_cur_user_num s).

Definition set_dev_ip (a : list Z) (n : dev_node) : dev_node :=
  mkDev (mac n) a (hostname n) (online n) (expire n) (offline_time n) (online_time n)
    (visit_htable n) (stat n).
Definition set_hostname (h : list Z) (n : dev_node) : dev_node :=
  mkDev (mac n) (ip n) h (online n) (expire n) (offline_time n) (online_time n)
    (visit_htable n) (stat n).
Definition set_online (o : bool) (off : Z) (n : dev_node) : dev_node :=
  mkDev (mac n) (ip n) (hostname n) o (expire n) off (online_time n) (visit_htable n) (stat n).
Definition set_expire (x : bool) (n : dev_node) : dev_node :=
  mkDev (mac n) (ip n) (hostname n) (online n) x (offline_time n) (online_time n)
    (visit_htable n) (stat n).
Definition set_visit (h : list (list visit_info)) (st : list Z) (n : dev_node) : dev_node :=
  mkDev (mac n) (ip n) (hostname n) (online n) (expire n) (offline_time n) (online_time n) h st.

(** The devices in the order of [dev_foreach]. *)
Definition devices (s : devs) : list dev_node := concat (dev_hash_table s).

(** [dev_foreach(arg, iter)] with an [iter] that changes each node. *)
Definition dev_foreach (f : dev_node -> dev_node) (s : devs) : devs :=
  set_devs (map (map f) (dev_hash_table s)) s.

(** An assignment through the pointer to the device with this key. *)
Definition dev_write (k : list Z) (f : dev_node -> dev_node) (s : devs) : devs :=
  set_devs (tbl_update (fun n => bool_decide (mac n = k)) f (dev_hash_table s)) s.

(** ** The table *)

Definition hash_mac (mac : list Z) : nat := byte_hash 0 mac.
Definition hash_appid (appid : Z) : Z := Z.rem appid (Z.of_nat MAX_VISIT_HASH_SIZE - 1).

Definition init_dev_node_htable (s : devs) : devs := set_devs (replicate 64 []) s.

(** What 32 bytes of a [mac] field keep of a string, and compare of one. *)
Definition mac_key (m : list Z) : list Z := take MAX_MAC_LEN m.

(** [add_dev_node(mac)]: the new node, if any.  [now] is the time as an [int]. *)
Definition add_dev_node (now : Z) (alloc_ok : bool) (m : list Z) (s : devs)
    : option dev_node * devs :=
  if MAX_SUPPORT_USER_NUM <=? g_cur_user_num s then (None, s)
  else if negb alloc_ok then (None, s)
  else
    let node := mkDev (mac_key m) [] [] true false 0 now
                  (replicate MAX_VISIT_HASH_SIZE [])
                  (replicate (Z.to_nat (MAX_APP_TYPE * MAX_APP_ID_NUM)) 0) in
    (Some node, mkDevs (tbl_add (dev_hash_table s) node) (g_cur_user_num s + 1)).

Definition find_dev_node (m : list Z) (s : devs) : option dev_node :=
  tbl_find (dev_hash_table s) (mac_key m).

(** ** Status of the devices *)

(** The words [sscanf] reads with [%s]. *)
Fixpoint span_word (s : list Z) : list Z * list Z :=
  match s with
  | c :: r => if isspace c then ([], s) else let '(w, r) := span_word r in (c :: w, r)
  | [] => ([], [])
  end.
Definition scan_word (s : list Z) : option (list Z * list Z) :=
  match skip_space s with [] => None | s => Some (span_word s) end.

(** [sscanf] of words into buffers, given with their sizes and their contents:
    a word that does not fit with its NUL is an overflow; buffers behind the
    first missing word keep what they held. *)
Fixpoint scan_words (s : list Z) (bufs : list (nat * list Z)) : option (list (list Z)) :=
  match bufs with
  | [] => Some []
  | (n, old) :: bufs =>
      match scan_word s with
      | None => Some (old :: map snd bufs)
      | Some (w, s) =>
          if (n <=? length w)%nat then None else ws ← scan_words s bufs; Some (w :: ws)
      end
  end.
(** A leading [%*s] reads a word and drops it. *)
Definition scan_after_first (s : list Z) (bufs : list (nat * list Z)) : option (list (list Z)) :=
  match scan_word s with None => Some (map snd bufs) | Some (_, s) => scan_words s bufs end.

(** The loop of [update_dev_hostname] over the lines of the lease file. *)
Fixpoint hostname_loop (lines : list (list Z)) (mac_buf ip_buf hostname_buf : list Z) (s : devs)
    : option devs :=
  match lines with
  | [] => Some s
  | l :: lines =>
      if (length l <=? 16)%nat then hostname_loop lines mac_buf ip_buf hostname_buf s else
      ws ← scan_after_first l [(32%nat, mac_buf); (32%nat, ip_buf); (128%nat, hostname_buf)];
      match ws with
      | [mac_buf; ip_buf; hostname_buf] =>
          hostname_loop lines mac_buf ip_buf hostname_buf
            (match find_dev_node mac_buf s with
             | None => s
             | Some node =>
                 if bool_decide (hostname_buf = []) then s
                 else dev_write (mac node) (set_hostname (take MAX_HOSTNAME_SIZE hostname_buf)) s
             end)
      | _ => None
      end
  end.
Definition update_dev_hostname (leases : option (list (list Z))) (s : devs) : option devs :=
  match leases with None => Some s | Some lines => hostname_loop lines [] [] [] s end.

Definition clean_dev_online_status (now : Z) (s : devs) : devs :=
  dev_foreach (fun n => if online n then set_online false now n else n) s.

(** The loop of [update_dev_online_status] over the listing of the kernel. *)
Fixpoint online_loop (now : Z) (alloc_ok : bool) (lines : list (list Z)) (mac_buf ip_buf : list Z)
    (s : devs) : option devs :=
  match lines with
  | [] => Some s
  | l :: lines =>
      ws ← scan_after_first l [(32%nat, mac_buf); (32%nat, ip_buf)];
      match ws with
      | [mac_buf; ip_buf] =>
          online_loop now alloc_ok lines mac_buf ip_buf
            (if (length mac_buf <? 17)%nat then s else
             match find_dev_node mac_buf s with
             | Some node => dev_write (mac node) (fun n => set_online true (offline_time n) n) s
             | None =>
                 match add_dev_node now alloc_ok mac_buf s with
                 | (None, s) => s
                 | (Some node, s) =>
                     dev_write (mac node)
                       (fun n => set_online true (offline_time n) (set_dev_ip ip_buf n)) s
                 end
             end)
      | _ => None
      end
  end.
Definition update_dev_online_status (now : Z) (alloc_ok : bool) (listing : option (list (list Z)))
    (s : devs) : option devs :=
  match listing with
  | None | Some [] => Some s
  | Some (_ :: lines) => online_loop now alloc_ok lines [] [] s
  end.

(** ** Expiry *)

Definition set_v_expire (x : bool) (v : visit_info) : visit_info :=
  mkInfo (appid v) (first_time v) (latest_time v) (action v) x.

(** [check_dev_expire]: the number of devices that expired. *)
Definition dev_gone (now : Z) (n : dev_node) : bool :=
  negb (online n) && (DEV_OFFLINE_TIME <? now - offline_time n).
Definition expire_dev (n : dev_node) : dev_node :=
  set_expire true (set_visit (map (map (set_v_expire true)) (visit_htable n)) (stat n) n).
Definition check_dev_expire (now : Z) (s : devs) : Z * devs :=
  (Z.of_nat (length (List.filter (dev_gone now) (devices s))),
   dev_foreach (fun n => if dev_gone now n then expire_dev n else n) s).

(** The unlinking loop of [flush_dev_expire_node] over one chain; the number
    of users is left as it is. *)
Fixpoint flush_chain {A} (gone : A -> bool) (node : list A) : list A :=
  match node with
  | [] => []
  | n :: next => if gone n then flush_chain gone next else n :: flush_chain gone next
  end.
Definition flush_dev_expire_node (s : devs) : devs :=
  set_devs (map (flush_chain expire) (dev_hash_table s)) s.

Definition visit_gone (now : Z) (v : visit_info) : bool :=
  let total_time := latest_time v - first_time v in
  let interval_time := now - first_time v in
  if (MAX_RECORD_TIME <? interval_time) || (interval_time <? 0) then true
  else (RECORD_REMAIN_TIME <? interval_time) && (total_time <? INVALID_RECORD_TIME).
Definition check_dev_visit_info_expire (now : Z) (s : devs) : devs :=
  dev_foreach (fun n => set_visit
    (map (map (fun v => if visit_gone now v then set_v_expire true v else v)) (visit_htable n))
    (stat n) n) s.
Definition flush_expire_visit_info (s : devs) : devs :=
  dev_foreach (fun n => set_visit (map (flush_chain v_expire) (visit_htable n)) (stat n) n) s.

(** ** The device list *)

(** [%s] or [strcpy] of a field of [n] bytes: one that holds no NUL is read past
    its end. *)
Definition field (n : nat) (s : list Z) : option (list Z) :=
  if (length s <? n)%nat then Some s else None.
Definition or_star (s : list Z) : list Z := if bool_decide (s = []) then [chr "*"] else s.

Definition dev_line (i : nat) (n : dev_node) : option (list Z) :=
  h ← field MAX_HOSTNAME_SIZE (hostname n);
  a ← field MAX_IP_LEN (ip n);
  m ← field MAX_MAC_LEN (mac n);
  Some (pad 4 (dec (Z.of_nat (i + 1))) ++ 32 :: pad 20 m ++ 32 :: pad 20 (or_star a) ++
        32 :: pad 32 (or_star h) ++ 32 :: pad 8 (dec (if online n then 1 else 0)) ++ [10]).

(** The nodes with the number of their bucket, in the order of the loops. *)
Definition numbered (t : list (list dev_node)) : list (nat * dev_node) :=
  concat (imap (fun i b => map (pair i) b) t).

(** The first loop, over the devices that are online, and its [goto EXIT]. *)
Fixpoint dump_online (ns : list (nat * dev_node)) (count : Z) : option (list (list Z) * option Z) :=
  match ns with
  | [] => Some ([], Some count)
  | (i, n) :: ns =>
      l ← (if online n then l ← dev_line i n; Some [l] else Some []);
      let count := if online n then count + 1 else count in
      if MAX_SUPPORT_DEV_NUM <=? count then Some (l, None)
      else '(ls, c) ← dump_online ns count; Some (l ++ ls, c)
  end.
(** The second loop, over the others; [count] stays. *)
Fixpoint dump_offline (ns : list (nat * dev_node)) (count : Z) : option (list (list Z)) :=
  match ns with
  | [] => Some []
  | (i, n) :: ns =>
      l ← (if online n then Some [] else l ← dev_line i n; Some [l]);
      if MAX_SUPPORT_DEV_NUM <=? count then Some l
      else ls ← dump_offline ns count; Some (l ++ ls)
  end.
Definition dump_title : list Z :=
  pad 4 (bytes_of "Id") ++ 32 :: pad 20 (bytes_of "Mac Addr") ++ 32 :: pad 20 (bytes_of "Ip Addr") ++
  32 :: pad 32 (bytes_of "Hostname") ++ 32 :: pad 8 (bytes_of "Online") ++ [10].

(** What the timer handler gets from outside: the time, the files it reads and
    whether it can write the list. *)
Record tick := mkTick {
  now : Z; alloc_ok : bool; leases : option (list (list Z)); listing : option (list (list Z));
  list_file_ok : bool }.

(** [dump_dev_list]: the state and the lines written, if the file opens. *)
Definition dump_dev_list (k : tick) (s : devs) : option (devs * option (list (list Z))) :=
  s ← update_dev_hostname (leases k) (clean_dev_online_status (now k) s);
  s ← update_dev_online_status (now k) (alloc_ok k) (listing k) s;
  if negb (list_file_ok k) then Some (s, None) else
  '(ls, c) ← dump_online (numbered (dev_hash_table s)) 0;
  ls' ← match c with
        | None => Some []
        | Some c => dump_offline (numbered (dev_hash_table s)) c
        end;
  Some (s, Some (dump_title :: ls ++ ls')).

(** [dev_list_timeout_handler] of src/open-app-filter/src/main.c, without the
    switch of the kernel module. *)
Definition dev_list_timeout_handler (k : tick) (s : devs) : option (devs * option (list (list Z))) :=
  '(s, out) ← dump_dev_list k s;
  let s := flush_expire_visit_info (check_dev_visit_info_expire (now k) s) in
  let '(expired, s) := check_dev_expire (now k) s in
  let s := if negb (expired =? 0) then flush_dev_expire_node (flush_expire_visit_info s) else s in
  Some (s, out).

(** ** Reports from the kernel *)

(** The functions of json-c the handler calls. *)
Class JsonC := {
  json : Type;
  json_tokener_parse : list Z -> option json;
  json_object_object_get : option json -> list Z -> option json;
  json_object_get_string : json -> list Z;
  json_object_array_length : json -> nat;
  json_object_array_get_idx : json -> nat -> option json;
  json_object_get_int : option json -> Z;
}.

(** What its documentation says of them, on the text of a value: the parser
    reads the value and stops behind it, a member is found by its name, arrays,
    strings and numbers are read as they are. *)
Class JsonCLaws `{JsonC} := {
  denotes : json -> jval -> Prop;
  parse_law signed_char pretty v rest l :
    v = JObj l -> jval_ok v ->
    exists j, json_tokener_parse (gtext signed_char pretty v 0 ++ rest) = Some j /\ denotes j v;
  get_law j l k :
    denotes j (JObj l) -> NoDup (map fst l) ->
    match list_find (fun kv => fst kv = k) l with
    | Some (_, (_, v)) => exists j', json_object_object_get (Some j) k = Some j' /\ denotes j' v
    | None => json_object_object_get (Some j) k = None
    end;
  string_law j s : denotes j (JStr s) -> json_object_get_string j = s;
  int_law j n : denotes j (JNum n) -> 0 <= n < 2 ^ 31 -> json_object_get_int (Some j) = n;
  length_law j l : denotes j (JArr l) -> json_object_array_length j = length l;
  idx_law j l i v :
    denotes j (JArr l) -> l !! i = Some v ->
    exists j', json_object_array_get_idx j i = Some j' /\ denotes j' v;
}.

Definition add_visit_info_node (head : list visit_info) (node : visit_info) : list visit_info :=
  node :: head.

(** One element of [visit_info] on the node: [stat] is written outside its
    rows when the class or the number is too large, and outside the array
    behind the last row.  A failed allocation is a write through NULL. *)
Definition visit_step (time : Z) (alloc_ok : bool) (app act : Z) (n : dev_node) : option dev_node :=
  let type := Z.quot app 1000 in
  let id := Z.rem app 1000 in
  if (id <=? 0) || (type <=? 0) then Some n else
  let i := (type - 1) * MAX_APP_ID_NUM + (id - 1) in
  total ← stat n @! i;
  st ← wr (stat n) i (u64 (total + REPORT_INTERVAL_SECS));
  let hash := Z.to_nat (hash_appid app) in
  let chain := default [] (visit_htable n !! hash) in
  chain ← match chain with
          | head :: next =>
              if time - latest_time head <? 300
              then Some (mkInfo (appid head) (first_time head) (s32 time) (action head) (v_expire head) :: next)
              else if alloc_ok
              then Some (add_visit_info_node chain
                           (mkInfo app (s32 (time - MIN_VISIT_TIME)) (s32 time) act false))
              else None
          | [] =>
              if alloc_ok
              then Some (add_visit_info_node []
                           (mkInfo app (s32 (time - MIN_VISIT_TIME)) (s32 time) act false))
              else None
          end;
  Some (set_visit (<[hash := chain]> (visit_htable n)) st n).

Section Handler.
Context `{JsonC} (time : Z) (alloc_ok : bool).

Fixpoint visit_loop (visit_array : json) (k i : nat) (n : dev_node) : option dev_node :=
  match k with
  | O => Some n
  | S k =>
      let visit_obj := json_object_array_get_idx visit_array i in
      let appid_obj := json_object_object_get visit_obj (bytes_of "appid") in
      let action_obj := json_object_object_get visit_obj (bytes_of "latest_action") in
      n ← visit_step time alloc_ok (json_object_get_int appid_obj) (json_object_get_int action_obj) n;
      visit_loop visit_array k (S i) n
  end.

(** The handler behind the parser: [root] is the parsed report. *)
Definition handle_report (root : json) (s : devs) : option devs :=
  match json_object_object_get (Some root) (bytes_of "mac") with
  | None => Some s
  | Some mac_obj =>
      let m := json_object_get_string mac_obj in
      let '(node, s) :=
        match find_dev_node m s with
        | Some node => (Some node, s)
        | None => add_dev_node (s32 time) alloc_ok m s
        end in
      match node with
      | None => Some s
      | Some node =>
          let node :=
            match json_object_object_get (Some root) (bytes_of "ip") with
            | Some ip_obj => set_dev_ip (take MAX_IP_LEN (json_object_get_string ip_obj)) node
            | None => node
            end in
          node ← match json_object_object_get (Some root) (bytes_of "visit_info") with
                 | None => Some node
                 | Some visit_array =>
                     visit_loop visit_array (json_object_array_length visit_array) 0 node
                 end;
          Some (dev_write (mac node) (fun _ => node) s)
      end
  end.

(** [appfilter_nl_handler] on the payload of a received message. *)
Definition appfilter_nl_handler (kmsg : list Z) (s : devs) : option devs :=
  magic ← mem32 kmsg 0;
  if negb (magic =? AF_MSG_MAGIC) then Some s else
  len ← mem32 kmsg 4;
  let len := s32 len in
  if (len <=? 0) || (1024 <=? len) then Some s else
  match json_tokener_parse (drop 8 kmsg) with
  | None => Some s
  | Some root => handle_report root s
  end.

End Handler.

(** ** The invariant *)

Definition info_ok (h : nat) (v : visit_info) : Prop :=
  0 < appid v /\ Z.to_nat (hash_appid (appid v)) = h /\ v_expire v = false.

Record dev_ok (n : dev_node) : Prop := {
  do_mac : (length (mac n) <= MAX_MAC_LEN)%nat;
  do_expire : expire n = false;
  do_htable : length (visit_htable n) = MAX_VISIT_HASH_SIZE;
  do_visits h l : visit_htable n !! h = Some l -> Forall (info_ok h) l;
  do_stat : length (stat n) = Z.to_nat (MAX_APP_TYPE * MAX_APP_ID_NUM);
}.

Record devs_wf (s : devs) : Prop := {
  dw_placed : tbl_placed (dev_hash_table s);
  dw_unique : tbl_unique (dev_hash_table s);
  dw_num : Z.of_nat (length (devices s)) <= g_cur_user_num s <= MAX_SUPPORT_USER_NUM;
  dw_nodes : Forall dev_ok (devices s);
}.

Lemma mac_key_idem n : dev_ok n -> mac_key (mac n) = mac n.
Proof. intros []. unfold mac_key. by rewrite take_ge. Qed.

Lemma tbl_update_guard p (f : dev_node -> dev_node) t :
  tbl_update p f t = tbl_update p (fun n => if p n then f n else n) t.
Proof. apply map_ext. intros b. apply map_ext. intros n. by destruct (p n). Qed.

Section Guarded.
Context (p : dev_node -> bool) (f : dev_node -> dev_node).
Context (Hf : forall n, p n = true -> mac (f n) = mac n).

Lemma guard_mac n : mac_of (if p n then f n else n) = mac_of n.
Proof using Hf. destruct (p n) eqn:E; [by apply Hf|done]. Qed.

Lemma update_devs_wf s :
  (forall n, p n = true -> dev_ok n -> dev_ok (f n)) ->
  devs_wf s -> devs_wf (set_devs (tbl_update p f (dev_hash_table s)) s).
Proof using Hf.
  intros Hok [Hp Hu Hn Hd]. rewrite tbl_update_guard.
  split; cbn [dev_hash_table set_devs]; unfold devices in *; cbn [dev_hash_table set_devs g_cur_user_num].
  - apply tbl_update_placed; [apply guard_mac|done].
  - apply tbl_update_unique; [apply guard_mac|done].
  - by rewrite tbl_update_elems, length_map.
  - rewrite tbl_update_elems. apply Forall_map. apply (Forall_imp _ _ _ Hd).
    intros n Hok'. destruct (p n) eqn:E; [|done]. auto.
Qed.

Lemma find_update m s :
  devs_wf s -> find_dev_node m (set_devs (tbl_update p f (dev_hash_table s)) s) =
    (fun n => if p n then f n else n) <$> find_dev_node m s.
Proof using Hf.
  intros [Hp Hu _ _]. rewrite tbl_update_guard. unfold find_dev_node. cbn [dev_hash_table set_devs].
  rewrite !tbl_find_map; [|done|done| |].
  - rewrite tbl_update_map; [|apply guard_mac|done]. destruct (tbl_map _ !! _) as [n|]; simpl; [|done].
    by destruct (p n).
  - apply tbl_update_placed; [apply guard_mac|done].
  - apply tbl_update_unique; [apply guard_mac|done].
Qed.

End Guarded.

Lemma foreach_update f s :
  dev_foreach f s = set_devs (tbl_update (fun _ => true) f (dev_hash_table s)) s.
Proof. done. Qed.

Lemma foreach_wf f s :
  (forall n, mac (f n) = mac n) -> (forall n, dev_ok n -> dev_ok (f n)) ->
  devs_wf s -> devs_wf (dev_foreach f s).
Proof. intros Hm Hok. rewrite foreach_update. apply update_devs_wf; auto. Qed.

Lemma dev_write_wf k f s :
  (forall n, mac n = k -> mac (f n) = k) -> (forall n, mac n = k -> dev_ok n -> dev_ok (f n)) ->
  devs_wf s -> devs_wf (dev_write k f s).
Proof.
  intros Hm Hok. apply update_devs_wf.
  - intros n Hn%bool_decide_eq_true. rewrite Hm; done.
  - intros n Hn%bool_decide_eq_true. auto.
Qed.

Lemma find_write k f m s :
  (forall n, mac n = k -> mac (f n) = k) -> devs_wf s ->
  find_dev_node m (dev_write k f s) =
  (fun n => if bool_decide (mac n = k) then f n else n) <$> find_dev_node m s.
Proof.
  intros Hm. apply find_update. intros n Hn%bool_decide_eq_true. rewrite Hm; done.
Qed.

Lemma find_dev_Some m s n :
  find_dev_node m s = Some n -> n ∈ devices s /\ mac n = mac_key m.
Proof. apply tbl_find_Some. Qed.

Lemma init_devs_wf s : g_cur_user_num s = 0 -> devs_wf (init_dev_node_htable s).
Proof.
  intros Hg. assert (devices (init_dev_node_htable s) = []) as Hn by apply concat_replicate_nil.
  split; [apply tbl_init_placed|apply tbl_init_unique|..]; rewrite Hn; [|constructor].
  cbn [g_cur_user_num init_dev_node_htable set_devs]. rewrite Hg. done.
Qed.

Definition new_dev (now : Z) (m : list Z) : dev_node :=
  mkDev (mac_key m) [] [] true false 0 now (replicate MAX_VISIT_HASH_SIZE [])
    (replicate (Z.to_nat (MAX_APP_TYPE * MAX_APP_ID_NUM)) 0).

Lemma new_dev_ok now m : dev_ok (new_dev now m).
Proof.
  split; cbn [new_dev mac expire visit_htable stat]; try done.
  - unfold mac_key. rewrite length_take. lia.
  - intros h l Hl. apply lookup_replicate in Hl as [-> _]. constructor.
Qed.

Lemma add_dev_node_spec now ok m s :
  add_dev_node now ok m s =
  if (g_cur_user_num s <? MAX_SUPPORT_USER_NUM) && ok
  then (Some (new_dev now m),
        mkDevs (tbl_add (dev_hash_table s) (new_dev now m)) (g_cur_user_num s + 1))
  else (None, s).
Proof.
  unfold add_dev_node, new_dev. destruct (MAX_SUPPORT_USER_NUM <=? g_cur_user_num s) eqn:E.
  - by rewrite (proj2 (Z.ltb_ge _ _)) by lia.
  - rewrite (proj2 (Z.ltb_lt _ _)) by lia. by destruct ok.
Qed.

Lemma add_dev_node_wf now ok m s :
  devs_wf s -> find_dev_node m s = None -> devs_wf (snd (add_dev_node now ok m s)).
Proof.
  intros Hs Hf. rewrite add_dev_node_spec. destruct (_ && _) eqn:E; [|done]. cbn [snd].
  destruct Hs as [Hp Hu Hn Hd]. zify_bool.
  assert (devices (mkDevs (tbl_add (dev_hash_table s) (new_dev now m)) (g_cur_user_num s + 1))
    ≡ₚ new_dev now m :: devices s) as He by (by apply tbl_add_elem).
  split; cbn [dev_hash_table g_cur_user_num].
  - by apply tbl_add_placed.
  - by apply tbl_add_unique.
  - rewrite He. simpl. lia.
  - rewrite He. constructor; [apply new_dev_ok|done].
Qed.

(** *** Growth

    The counter of devices never falls, and at its limit no device is added. *)

Definition macs (s : devs) : list (list Z) := map mac (devices s).
Definition grows (s s' : devs) : Prop :=
  g_cur_user_num s <= g_cur_user_num s' /\
  (MAX_SUPPORT_USER_NUM <= g_cur_user_num s -> macs s' ⊆ macs s).

Lemma grows_refl s : grows s s.
Proof. done. Qed.
Lemma grows_trans s1 s2 s3 : grows s1 s2 -> grows s2 s3 -> grows s1 s3.
Proof.
  intros [H1 H2] [H3 H4]. split; [lia|]. intros Hg. etrans; [apply H4; lia|by apply H2].
Qed.
#[local] Hint Resolve grows_refl : core.

Lemma update_macs p f s :
  (forall n, p n = true -> mac (f n) = mac n) ->
  macs (set_devs (tbl_update p f (dev_hash_table s)) s) = macs s.
Proof.
  intros Hf. unfold macs, devices. cbn [dev_hash_table set_devs]. rewrite tbl_update_elems, map_map.
  apply map_ext. intros n. destruct (p n) eqn:E; auto.
Qed.
Lemma write_grows k f s : (forall n, mac n = k -> mac (f n) = k) -> grows s (dev_write k f s).
Proof.
  intros Hf. split; [done|]. intros _. unfold dev_write. rewrite update_macs; [done|].
  intros n Hn%bool_decide_eq_true. rewrite Hf; done.
Qed.
Lemma foreach_grows f s : (forall n, mac (f n) = mac n) -> grows s (dev_foreach f s).
Proof. intros Hf. split; [done|]. intros _. rewrite foreach_update, update_macs; auto. Qed.
Lemma add_dev_grows now ok m s : grows s (snd (add_dev_node now ok m s)).
Proof.
  rewrite add_dev_node_spec. destruct (_ && _) eqn:E; [|done]. zify_bool.
  split; cbn [snd g_cur_user_num]; lia.
Qed.

(** *** Handlers keep it *)

Lemma set_ip_ok a n : dev_ok n -> dev_ok (set_dev_ip a n).
Proof. by intros []. Qed.
Lemma set_hostname_ok a n : dev_ok n -> dev_ok (set_hostname a n).
Proof. by intros []. Qed.
Lemma set_online_ok o t n : dev_ok n -> dev_ok (set_online o t n).
Proof. by intros []. Qed.
#[local] Hint Resolve set_ip_ok set_hostname_ok set_online_ok : core.

Lemma hostname_loop_wf lines b1 b2 b3 s s' :
  devs_wf s -> hostname_loop lines b1 b2 b3 s = Some s' -> devs_wf s' /\ grows s s'.
Proof.
  revert b1 b2 b3 s. induction lines as [|l lines IH]; intros b1 b2 b3 s Hs H1; cbn [hostname_loop] in H1.
  { by simp_opt. }
  case_match; [by eapply IH|]. simp_opt. destruct x as [|m [|i [|h []]]]; try done.
  apply IH in H1 as [H1 H2].
  - split; [done|]. eapply grows_trans; [|exact H2].
    destruct (find_dev_node m s) as [n|]; [|done]. case_bool_decide; [done|]. by apply write_grows.
  - destruct (find_dev_node m s) as [n|]; [|done]. case_bool_decide; [done|].
    apply dev_write_wf; auto.
Qed.

Lemma online_loop_wf now ok lines b1 b2 s s' :
  devs_wf s -> online_loop now ok lines b1 b2 s = Some s' -> devs_wf s' /\ grows s s'.
Proof.
  revert b1 b2 s. induction lines as [|l lines IH]; intros b1 b2 s Hs H1; cbn [online_loop] in H1.
  { by simp_opt. }
  simp_opt. destruct x as [|m [|i []]]; try done.
  match type of H1 with online_loop _ _ _ _ _ ?s1 = _ => enough (devs_wf s1 /\ grows s s1) as [Hw Hg] end.
  { apply IH in H1 as [? ?]; [|done]. split; [done|]. by eapply grows_trans. }
  case_bool; [done|]. destruct (find_dev_node m s) as [n|] eqn:Ef.
  { split; [apply dev_write_wf; auto|by apply write_grows]. }
  pose proof (add_dev_node_wf now ok m s Hs Ef) as Ha. pose proof (add_dev_grows now ok m s) as Hg.
  destruct (add_dev_node now ok m s) as [[n|] s1]; [|done].
  split; [apply dev_write_wf; auto|]. eapply grows_trans; [exact Hg|]. by apply write_grows.
Qed.

Lemma dump_dev_list_wf k s s' out :
  devs_wf s -> dump_dev_list k s = Some (s', out) -> devs_wf s' /\ grows s s'.
Proof.
  intros Hs H1. unfold dump_dev_list in H1. simp_opt.
  assert (devs_wf x0 /\ grows s x0) as Hx.
  { assert (forall n, mac (if online n then set_online false (now k) n else n) = mac n) as Hm
      by (intros n; by destruct (online n)).
    assert (devs_wf (clean_dev_online_status (now k) s)) as Hc
      by (apply foreach_wf; [done|intros n; destruct (online n); auto|done]).
    assert (grows s (clean_dev_online_status (now k) s)) as Hg by by apply foreach_grows.
    assert (devs_wf x /\ grows s x) as [Hx Hgx].
    { unfold update_dev_hostname in *. destruct (leases k); simp_opt; [|done].
      match goal with Hh : hostname_loop _ _ _ _ _ = _ |- _ => apply hostname_loop_wf in Hh as [? ?]; [|done] end.
      split; [done|]. by eapply grows_trans. }
    unfold update_dev_online_status in *. destruct (listing k) as [[|t ls]|]; simp_opt; try done.
    match goal with Hh : online_loop _ _ _ _ _ _ = _ |- _ => apply online_loop_wf in Hh as [? ?]; [|done] end.
    split; [done|]. by eapply grows_trans. }
  case_match; simp_opt; [done|]. match goal with y : list (list Z) * option Z |- _ => destruct y end.
  by simp_opt.
Qed.

(** *** Expiry *)

Lemma flush_chain_filter {A} (gone : A -> bool) l :
  flush_chain gone l = List.filter (fun x => negb (gone x)) l.
Proof. induction l as [|x l IH]; simpl; [done|]. destruct (gone x); simpl; by rewrite IH. Qed.

(** The records a device keeps. *)
Definition prune (now : Z) (n : dev_node) : dev_node :=
  set_visit (map (List.filter (fun v => negb (visit_gone now v))) (visit_htable n)) (stat n) n.

Definition no_flags (n : dev_node) : Prop :=
  expire n = false /\ Forall (Forall (fun v => v_expire v = false)) (visit_htable n).

Lemma dev_ok_flags n : dev_ok n -> no_flags n.
Proof.
  intros [_ He _ Hv _]. split; [done|]. apply Forall_lookup. intros h l Hl.
  apply (Forall_imp _ _ _ (Hv h l Hl)). by intros v (_ & _ & ?).
Qed.

Lemma set_visit_id n : set_visit (visit_htable n) (stat n) n = n.
Proof. by destruct n. Qed.

Lemma flush_visits_id n : no_flags n -> set_visit (map (flush_chain v_expire) (visit_htable n)) (stat n) n = n.
Proof.
  intros [_ Hv]. rewrite <- (set_visit_id n) at 4. f_equal.
  induction Hv as [|l ls Hl _ IH]; simpl; [done|]. rewrite IH. f_equal.
  induction Hl as [|v l Hv _ IHl]; simpl; [done|]. by rewrite Hv, IHl.
Qed.

Lemma foreach_ext f g s : Forall (fun n => f n = g n) (devices s) -> dev_foreach f s = dev_foreach g s.
Proof.
  unfold dev_foreach, devices. intros H1. f_equal. apply map_ext_in. intros b Hb.
  apply map_ext_in. intros n Hn. rewrite Forall_forall in H1. apply H1.
  apply list_elem_of_In. apply in_concat. eauto.
Qed.
Lemma foreach_compose f g s : dev_foreach f (dev_foreach g s) = dev_foreach (fun n => f (g n)) s.
Proof.
  unfold dev_foreach. cbn [dev_hash_table set_devs g_cur_user_num]. unfold set_devs. f_equal.
  rewrite map_map. apply map_ext. intros b. by rewrite map_map.
Qed.

Lemma check_flush_visits now s :
  devs_wf s -> flush_expire_visit_info (check_dev_visit_info_expire now s) = dev_foreach (prune now) s.
Proof.
  intros Hs. unfold flush_expire_visit_info, check_dev_visit_info_expire. rewrite foreach_compose.
  apply foreach_ext. apply (Forall_imp _ _ _ (dw_nodes s Hs)). intros n [_ Hv]%dev_ok_flags.
  unfold prune. transitivity (set_visit (map (flush_chain v_expire)
    (map (map (fun v => if visit_gone now v then set_v_expire true v else v)) (visit_htable n)))
    (stat n) n); [done|]. f_equal. rewrite map_map.
  induction Hv as [|l ls Hl _ IH]; simpl; [done|]. rewrite IH. f_equal.
  induction Hl as [|v l Hv _ IHl]; simpl; [done|].
  destruct (visit_gone now v); simpl; rewrite ?Hv; simpl; by rewrite IHl.
Qed.

Lemma prune_ok now n : dev_ok n -> dev_ok (prune now n).
Proof.
  intros [H1 H2 H3 H4 H5]. split; try done; cbn [prune visit_htable set_visit].
  - by rewrite length_map.
  - intros h l Hl. rewrite list_lookup_fmap in Hl. apply fmap_Some in Hl as (l' & Hl' & ->).
    specialize (H4 h l' Hl'). rewrite Forall_forall in *. intros v Hv. apply H4.
    apply list_elem_of_In, List.filter_In in Hv as [Hv _]. by apply list_elem_of_In.
Qed.

(** The whole expiry of the timer handler. *)
Definition keep_alive (now : Z) (t : list (list dev_node)) : list (list dev_node) :=
  map (fun b => map (prune now) (List.filter (fun n => negb (dev_gone now n)) b)) t.

Lemma filter_all {A} (p : A -> bool) l : length (List.filter p l) = 0%nat -> Forall (fun x => p x = false) l.
Proof.
  induction l as [|x l IH]; simpl; [constructor|]. destruct (p x) eqn:E; simpl; [done|].
  intros Hl. by constructor; auto.
Qed.

Lemma expire_chain now b :
  Forall dev_ok b ->
  flush_chain expire (map (fun n => set_visit (map (flush_chain v_expire) (visit_htable n)) (stat n) n)
    (map (fun n => if dev_gone now n then expire_dev n else n) b)) =
  List.filter (fun n => negb (dev_gone now n)) b.
Proof.
  induction 1 as [|n b Hn _ IH]; simpl; [done|]. destruct (dev_gone now n) eqn:E; simpl; [done|].
  pose proof (dev_ok_flags n Hn) as Hf. rewrite flush_visits_id by done.
  destruct Hf as [-> _]. by rewrite IH.
Qed.

Lemma expire_devs now s :
  devs_wf s ->
  let '(n, s1) := check_dev_expire now s in
  (if negb (n =? 0) then flush_dev_expire_node (flush_expire_visit_info s1) else s1) =
  set_devs (map (List.filter (fun n => negb (dev_gone now n))) (dev_hash_table s)) s.
Proof.
  intros Hs. unfold check_dev_expire. pose proof (dw_nodes s Hs) as Hn.
  set (k := length _). destruct (negb (Z.of_nat k =? 0)) eqn:E.
  - unfold flush_dev_expire_node, flush_expire_visit_info, dev_foreach, set_devs.
    cbn [dev_hash_table g_cur_user_num]. f_equal. rewrite !map_map. apply map_ext_in. intros b Hb.
    apply expire_chain. unfold devices in Hn. rewrite Forall_forall in *. intros n Hin. apply Hn.
    apply list_elem_of_In, in_concat. exists b. split; [done|by apply list_elem_of_In].
  - assert (k = 0%nat) as Hk by lia. apply filter_all in Hk. unfold dev_foreach. f_equal.
    apply map_ext_in. intros b Hb.
    assert (Forall (fun n => dev_gone now n = false) b) as Hall.
    { rewrite Forall_forall in *. intros n Hin. apply Hk. apply list_elem_of_In, in_concat.
      exists b. split; [done|by apply list_elem_of_In]. }
    clear -Hall. induction Hall as [|n b Hg _ IH]; simpl; [done|]. rewrite Hg. simpl. by rewrite IH.
Qed.

Lemma timer_expires k s s' out :
  devs_wf s -> dev_list_timeout_handler k s = Some (s', out) ->
  exists s1, dump_dev_list k s = Some (s1, out) /\ devs_wf s1 /\ grows s s1 /\
    g_cur_user_num s' = g_cur_user_num s1 /\
    dev_hash_table s' = keep_alive (now k) (dev_hash_table s1).
Proof.
  intros Hs H1. unfold dev_list_timeout_handler in H1. simp_opt.
  match goal with y : devs * _ |- _ => destruct y as [s1 out1] end.
  assert (devs_wf s1 /\ grows s s1) as [Hs1 Hgr] by by eapply dump_dev_list_wf.
  rewrite check_flush_visits in H1 by done.
  assert (devs_wf (dev_foreach (prune (now k)) s1)) as Hp
    by (apply foreach_wf; [done|intros n; apply prune_ok|done]).
  pose proof (expire_devs (now k) _ Hp) as He.
  destruct (check_dev_expire _ _) as [n s2]. rewrite He in H1. simp_opt.
  exists s1. split_and!; [done..|]. cbn [dev_hash_table set_devs dev_foreach].
  unfold keep_alive. rewrite map_map. apply map_ext. intros b.
  induction b as [|d b IH]; simpl; [done|].
  change (dev_gone (now k) (prune (now k) d)) with (dev_gone (now k) d).
  destruct (dev_gone (now k) d); simpl; by rewrite IH.
Qed.

Lemma keep_alive_wf now s1 s' :
  devs_wf s1 -> g_cur_user_num s' = g_cur_user_num s1 ->
  dev_hash_table s' = keep_alive now (dev_hash_table s1) -> devs_wf s'.
Proof.
  intros Hs Hg Ht.
  assert (devs_wf (set_devs (map (List.filter (fun n => negb (dev_gone now n))) (dev_hash_table s1)) s1)) as Hf.
  { destruct Hs as [Hp Hu Hn Hd].
    split; cbn [dev_hash_table set_devs g_cur_user_num]; unfold devices; cbn [dev_hash_table set_devs].
    - by apply tbl_filter_placed.
    - by apply tbl_filter_unique.
    - rewrite concat_map_filter. unfold devices in Hn.
      pose proof (List.filter_length_le (fun n => negb (dev_gone now n)) (concat (dev_hash_table s1))). lia.
    - rewrite concat_map_filter. apply Forall_forall. intros n Hin.
      apply list_elem_of_In, List.filter_In in Hin as [Hin _]. rewrite Forall_forall in Hd.
      apply Hd. by apply list_elem_of_In. }
  apply (foreach_wf (prune now)) in Hf; [|done|intros n; apply prune_ok].
  destruct s' as [t g]. cbn in Hg, Ht. subst. unfold keep_alive.
  unfold dev_foreach, set_devs in Hf. cbn [dev_hash_table g_cur_user_num] in Hf.
  by rewrite map_map in Hf.
Qed.

(** *** Reports *)

Lemma hash_appid_range app : 0 < app -> 0 <= hash_appid app < 63.
Proof.
  intros Ha. unfold hash_appid. change (Z.of_nat MAX_VISIT_HASH_SIZE - 1) with 63.
  rewrite Z.rem_mod_nonneg by lia. apply Z.mod_pos_bound. lia.
Qed.

Lemma quot_pos app : 0 < Z.quot app 1000 -> 0 < app.
Proof. intros Hq. Z.to_euclidean_division_equations. lia. Qed.

Lemma chain_step_ok time (ok : bool) app act chain chain' :
  0 < app -> Forall (info_ok (Z.to_nat (hash_appid app))) chain ->
  match chain with
  | head :: next =>
      if time - latest_time head <? 300
      then Some (mkInfo (appid head) (first_time head) (s32 time) (action head) (v_expire head) :: next)
      else if ok
      then Some (add_visit_info_node chain
                   (mkInfo app (s32 (time - MIN_VISIT_TIME)) (s32 time) act false))
      else None
  | [] =>
      if ok
      then Some (add_visit_info_node []
                   (mkInfo app (s32 (time - MIN_VISIT_TIME)) (s32 time) act false))
      else None
  end = Some chain' -> Forall (info_ok (Z.to_nat (hash_appid app))) chain'.
Proof.
  intros Happ Hc H1.
  assert (info_ok (Z.to_nat (hash_appid app)) (mkInfo app (s32 (time - MIN_VISIT_TIME)) (s32 time) act false))
    as Hnew by done.
  destruct Hc as [|head next Hh Hc].
  { destruct ok; simp_opt. by constructor. }
  destruct (time - latest_time head <? 300); [|destruct ok]; simp_opt;
    (constructor; [done|]); [done|]. by constructor.
Qed.

Lemma visit_step_ok time ok app act n n' :
  dev_ok n -> visit_step time ok app act n = Some n' ->
  dev_ok n' /\ mac n' = mac n /\ ip n' = ip n.
Proof.
  intros Hn H1. unfold visit_step in H1. case_match; simp_opt; [done|].
  assert (0 < app) as Happ by (apply quot_pos; lia).
  destruct Hn as [Hd1 Hd2 Hd3 Hd4 Hd5]. split_and!; [|done..].
  pose proof (hash_appid_range app Happ) as Hr.
  split; try done; cbn [visit_htable set_visit stat].
  - by rewrite length_insert.
  - intros h l Hl. destruct (decide (h = Z.to_nat (hash_appid app))) as [->|Hne].
    + rewrite list_lookup_insert_eq in Hl by (rewrite Hd3; unfold MAX_VISIT_HASH_SIZE; lia).
      injection Hl as <-. eapply chain_step_ok; [done| |done].
      destruct (visit_htable n !! _) as [c|] eqn:Ec; [by eapply Hd4|constructor].
    + rewrite list_lookup_insert_ne in Hl by done. by eapply Hd4.
  - erewrite wr_length by done. done.
Qed.

Section HandlerFacts.
Context `{JsonC}.

Lemma visit_loop_ok time ok arr k i n n' :
  dev_ok n -> visit_loop time ok arr k i n = Some n' ->
  dev_ok n' /\ mac n' = mac n /\ ip n' = ip n.
Proof.
  revert i n. induction k as [|k IH]; intros i n Hn H1; cbn [visit_loop] in H1; simp_opt; [done|].
  match goal with Hx : visit_step _ _ _ _ _ = Some ?x |- _ =>
    destruct (visit_step_ok _ _ _ _ _ _ Hn Hx) as (Hx1 & Hx2 & Hx3);
    destruct (IH _ _ Hx1 H1) as (? & ? & ?) end. split_and!; congruence.
Qed.

(** The handler finds or makes the device of the report and changes no other. *)
Lemma handle_report_wf time ok root s s' :
  devs_wf s -> handle_report time ok root s = Some s' ->
  devs_wf s' /\ grows s s'.
Proof.
  intros Hs H1. unfold handle_report in H1.
  destruct (json_object_object_get _ _) as [mo|]; simp_opt; [|done].
  set (m := json_object_get_string mo) in *.
  assert (exists node s1, (match find_dev_node m s with
     | Some node => (Some node, s) | None => add_dev_node (s32 time) ok m s end) = (node, s1) /\
     devs_wf s1 /\ g_cur_user_num s <= g_cur_user_num s1 /\
     (MAX_SUPPORT_USER_NUM <= g_cur_user_num s -> s1 = s) /\
     (forall n, node = Some n -> dev_ok n)) as (node & s1 & He & Hs1 & Hg & Hsame & Hnode).
  { destruct (find_dev_node m s) as [n|] eqn:Ef.
    - eexists _, _. split_and!; [done|done|lia|done|]. intros n' [= <-].
      apply find_dev_Some in Ef as [Hin _]. pose proof (dw_nodes s Hs) as Hd.
      rewrite Forall_forall in Hd. auto.
    - pose proof (add_dev_node_wf (s32 time) ok m s Hs Ef) as Ha.
      rewrite add_dev_node_spec in *. destruct (_ && _) eqn:E; cbn [snd] in Ha;
        eexists _, _; (split; [done|]); (split; [done|]); cbn [g_cur_user_num]; split_and!;
        try done; try lia. intros n [= <-]. apply new_dev_ok. }
  assert (grows s s1) as Hgr.
  { split; [done|]. intros Hge. by rewrite Hsame. }
  rewrite He in H1. destruct node as [n|]; simp_opt; [|done].
  specialize (Hnode n eq_refl).
  set (n1 := match json_object_object_get (Some root) (bytes_of "ip") with
             | Some ip_obj => set_dev_ip (take MAX_IP_LEN (json_object_get_string ip_obj)) n
             | None => n end) in *.
  assert (dev_ok n1 /\ mac n1 = mac n) as [Hn1 Hm1].
  { unfold n1. destruct (json_object_object_get _ _); [split; [by apply set_ip_ok|done]|done]. }
  assert (dev_ok x /\ mac x = mac n1) as [Hx Hmx].
  { destruct (json_object_object_get _ (bytes_of "visit_info")); simp_opt; [|done].
    match goal with Hv : visit_loop _ _ _ _ _ _ = Some _ |- _ =>
      destruct (visit_loop_ok _ _ _ _ _ _ _ Hn1 Hv) as (? & ? & ?) end. done. }
  split.
  - by apply dev_write_wf.
  - eapply grows_trans; [exact Hgr|]. by apply write_grows.
Qed.

Lemma nl_handler_wf time ok kmsg s s' :
  devs_wf s -> appfilter_nl_handler time ok kmsg s = Some s' ->
  devs_wf s' /\ grows s s'.
Proof.
  intros Hs H1. unfold appfilter_nl_handler in H1. simp_opt. case_match; simp_opt; [by split|].
  case_match; simp_opt; [by split|]. destruct (json_tokener_parse _); simp_opt; [|by split].
  by eapply handle_report_wf.
Qed.

End HandlerFacts.

(** ** Events and the properties of the table *)

(** What can happen to a running daemon: a timer tick or a message from the
    kernel. *)
Inductive dev_step `{JsonC} : devs -> devs -> Prop :=
  | step_timer k s s' out : dev_list_timeout_handler k s = Some (s', out) -> dev_step s s'
  | step_report time alloc_ok kmsg s s' :
      appfilter_nl_handler time alloc_ok kmsg s = Some s' -> dev_step s s'.

Lemma keep_alive_grows now s1 s' :
  g_cur_user_num s' = g_cur_user_num s1 ->
  dev_hash_table s' = keep_alive now (dev_hash_table s1) -> grows s1 s'.
Proof.
  intros Hg Ht. split; [lia|]. intros _. unfold macs, devices. rewrite Ht. unfold keep_alive.
  rewrite <- (map_map (List.filter (fun n => negb (dev_gone now n))) (map (prune now))).
  rewrite concat_map_map, concat_map_filter, map_map.
  intros m (n & -> & Hin)%list_elem_of_fmap. apply list_elem_of_In, List.filter_In in Hin as [Hin _].
  apply list_elem_of_fmap. exists n. split; [done|by apply list_elem_of_In].
Qed.

Lemma dev_step_wf `{JsonC} s s' : devs_wf s -> dev_step s s' -> devs_wf s' /\ grows s s'.
Proof.
  intros Hs Hst. destruct Hst as [k s s' out H1|time ok kmsg s s' H1]; [|by eapply nl_handler_wf].
  destruct (timer_expires _ _ _ _ Hs H1) as (sm & _ & Hm & Hgr & Hg & Ht). split.
  - by eapply keep_alive_wf.
  - eapply grows_trans; [exact Hgr|]. by eapply keep_alive_grows.
Qed.

Lemma dev_steps_wf `{JsonC} s s' : devs_wf s -> rtc dev_step s s' -> devs_wf s' /\ grows s s'.
Proof.
  intros Hs Hst. induction Hst as [s|s s1 s2 H1 _ IH]; [done|].
  destruct (dev_step_wf s s1 Hs H1) as [Hs1 Hg]. destruct (IH Hs1) as [Hs2 Hg2].
  split; [done|]. by eapply grows_trans.
Qed.

(** From the empty table of the daemon's start, any sequence of timer ticks
    and messages, well formed or not, leads to a table in which every device is
    in the bucket of its address, no address occurs twice, at most 64 devices
    are held, every visit record is in the chain of its application and no
    expiry mark is left. *)
Theorem devices_stay_wf `{JsonC} s0 s :
  g_cur_user_num s0 = 0 -> rtc dev_step (init_dev_node_htable s0) s -> devs_wf s.
Proof. intros Hg Hst. eapply dev_steps_wf; [by apply init_devs_wf|done]. Qed.

(** The limit of 64 devices is on the devices ever added: once it is
    reached, no later event adds a device that the table does not hold, although
    devices keep expiring. *)
Theorem device_limit_is_permanent `{JsonC} s s' :
  devs_wf s -> g_cur_user_num s = MAX_SUPPORT_USER_NUM -> rtc dev_step s s' ->
  g_cur_user_num s' = MAX_SUPPORT_USER_NUM /\ macs s' ⊆ macs s.
Proof.
  intros Hs Hg Hst. destruct (dev_steps_wf s s' Hs Hst) as [[_ _ Hn _] [Hle Hm]].
  split; [lia|]. apply Hm. lia.
Qed.

(** The policy of the timer, in seconds. *)
Definition dev_stays (time : Z) (n : dev_node) : Prop :=
  online n = true \/ time - offline_time n <= 259200.
Definition record_stays (time : Z) (v : visit_info) : bool :=
  let age := time - first_time v in
  (0 <=? age) && (age <=? 604800) && ((age <=? 86400) || (300 <=? latest_time v - first_time v)).

Lemma dev_gone_stays time n : dev_gone time n = false <-> dev_stays time n.
Proof.
  unfold dev_gone, dev_stays. change DEV_OFFLINE_TIME with 259200. destruct (online n); simpl.
  - split; [by left|done].
  - rewrite Z.ltb_ge. split; [by right|by intros [|]].
Qed.

Lemma visit_gone_stays time v : negb (visit_gone time v) = record_stays time v.
Proof.
  unfold visit_gone, record_stays. change MAX_RECORD_TIME with 604800.
  change RECORD_REMAIN_TIME with 86400. change INVALID_RECORD_TIME with 300. case_bool; lia.
Qed.

(** A timer tick removes exactly the devices that have been offline for more
    than three days, and from the others exactly the visit records older than
    seven days, in the future, or older than a day and shorter than five
    minutes; nothing else of them changes after the device list is dumped. *)
Theorem timer_tick_expires k s s' out :
  devs_wf s -> dev_list_timeout_handler k s = Some (s', out) ->
  exists s1, dump_dev_list k s = Some (s1, out) /\
    forall n', n' ∈ devices s' <->
      exists n, n ∈ devices s1 /\ dev_stays (now k) n /\
        n' = set_visit (map (List.filter (record_stays (now k))) (visit_htable n)) (stat n) n.
Proof.
  intros Hs H1. destruct (timer_expires _ _ _ _ Hs H1) as (s1 & Hd & _ & _ & _ & Ht).
  exists s1. split; [done|]. intros n'. unfold devices. rewrite Ht. unfold keep_alive.
  rewrite <- (map_map (List.filter (fun n => negb (dev_gone (now k) n))) (map (prune (now k)))).
  rewrite concat_map_map, concat_map_filter, list_elem_of_fmap.
  setoid_rewrite list_elem_of_In. setoid_rewrite List.filter_In. setoid_rewrite negb_true_iff.
  setoid_rewrite dev_gone_stays.
  assert (forall n, prune (now k) n =
    set_visit (map (List.filter (record_stays (now k))) (visit_htable n)) (stat n) n) as Hpr.
  { intros n. unfold prune. f_equal. apply map_ext. intros l. apply List.filter_ext.
    apply visit_gone_stays. }
  split.
  - intros (n & -> & Hin & Hg). exists n. by rewrite <- Hpr.
  - intros (n & Hin & Hg & ->). exists n. by rewrite Hpr.
Qed.

(** ** The listing of the kernel *)

Notation word := (Forall (fun c => isspace c = false)).

Lemma span_word_text w c r : word w -> isspace c = true -> span_word (w ++ c :: r) = (w, c :: r).
Proof. induction 1 as [|x w Hx _ IH]; intros Hc; simpl; [by rewrite Hc|]. by rewrite Hx, IH. Qed.

Lemma scan_word_text k w c r :
  word w -> w <> [] -> isspace c = true ->
  scan_word (replicate k 32 ++ w ++ c :: r) = Some (w, c :: r).
Proof.
  intros Hw Hne Hc. unfold scan_word.
  assert (skip_space (replicate k 32 ++ w ++ c :: r) = w ++ c :: r) as ->.
  { induction k as [|k IH]; [|exact IH]. destruct Hw; [done|]. simpl. by rewrite H. }
  pose proof (span_word_text w c r Hw Hc) as Hs. destruct w; [done|].
  cbn [app] in *. by rewrite Hs.
Qed.

Lemma addr_word w : Forall addr_byte w -> word w.
Proof. intros Hw. apply (Forall_imp _ _ _ Hw). intros c Hc. unfold addr_byte in Hc. unfold isspace. lia. Qed.

Lemma pad_next n w x : pad n w ++ 32 :: x = w ++ 32 :: replicate (n - length w) 32 ++ x.
Proof.
  unfold pad. rewrite <- app_assoc. f_equal.
  generalize (n - length w)%nat. intros k. induction k as [|k IH]; [done|]. simpl. by rewrite IH.
Qed.

Lemma dec_word n : word (dec n) /\ dec n <> [].
Proof.
  assert (forall f z, 0 <= z -> word (digits f z)) as Hd.
  { intros f z Hz. apply (Forall_imp _ _ _ (digits_isdigit f z Hz)). intros c Hc.
    unfold isdigit in Hc. unfold isspace. lia. }
  assert (forall z, digits 20 z <> []) as Hne.
  { intros z. cbn [digits]. case_bool; [done|]. by intros [_ Hn]%app_eq_nil. }
  unfold dec. case_bool; [|by split; [apply Hd; lia|]].
  split; [|done]. constructor; [done|]. apply Hd. lia.
Qed.

Lemma dec_byte_length b : (length (dec (u8 b)) <= 3)%nat.
Proof.
  pose proof (u8_range b) as Hb. unfold dec. rewrite (proj2 (Z.ltb_ge _ _)) by lia.
  cbn [digits]. case_bool; [simpl; lia|]. rewrite length_app. cbn [length].
  assert (0 <= u8 b / 10 < 26) by (split; [apply Z.div_pos; lia|apply Z.div_lt_upper_bound; lia]).
  case_bool; [simpl; lia|]. rewrite length_app. cbn [length].
  assert (0 <= u8 b / 10 / 10 < 3) by (split; [apply Z.div_pos; lia|apply Z.div_lt_upper_bound; lia]).
  rewrite (proj2 (Z.ltb_lt _ 10)) by lia. simpl. lia.
Qed.

Lemma ip_str_length ip : (0 < length (ip_str ip) <= 15)%nat.
Proof.
  unfold ip_str. repeat (rewrite length_app || cbn [length]).
  pose proof (dec_byte_length ip). pose proof (dec_byte_length (Z.shiftr ip 8)).
  pose proof (dec_byte_length (Z.shiftr ip 16)). pose proof (dec_byte_length (Z.shiftr ip 24)). lia.
Qed.

Lemma mac_str_length m : length m = 6%nat -> length (mac_str m) = 17%nat.
Proof. intros Hm. do 7 (destruct m as [|? m]; try done). Qed.

Definition mac_bytes (c : client) : Prop :=
  length (c_mac c) = 6%nat /\ Forall (fun b => 0 <= b < 256) (c_mac c).
Definition key_of (c : client) : list Z := mac_str (c_mac c).

Lemma key_of_key c : mac_bytes c -> mac_key (key_of c) = key_of c.
Proof.
  intros [Hl _]. unfold mac_key, key_of. rewrite take_ge; [done|].
  rewrite mac_str_length by done. unfold MAX_MAC_LEN. lia.
Qed.

(** A line of the listing scans into its address and its IP. *)
Lemma scan_line index c b1 b2 :
  mac_bytes c ->
  scan_after_first (line index c) [(32%nat, b1); (32%nat, b2)] = Some [key_of c; ip_str (c_ip c)].
Proof.
  intros [Hl Hb]. unfold line, scan_after_first. rewrite !pad_next.
  destruct (dec_word index) as [Hd Hdn].
  pose proof (scan_word_text 0 (dec index) 32) as Hw. cbn [replicate app] in Hw.
  rewrite Hw by done. clear Hw. cbn [scan_words].
  pose proof (mac_str_length _ Hl) as Hml. pose proof (ip_str_length (c_ip c)) as Hil.
  pose proof (scan_word_text (S (4 - length (dec index))) (mac_str (c_mac c)) 32) as Hw.
  cbn [replicate app] in Hw. rewrite Hw; clear Hw; [|by apply addr_word, mac_str_addr| |done].
  2: { intros Hn. by rewrite Hn in Hml. }
  rewrite Hml. change (32 <=? 17)%nat with false. cbv iota.
  assert (exists r, pad 20 (ip_str (c_ip c)) ++ [10] = ip_str (c_ip c) ++ 32 :: r) as [r ->].
  { unfold pad. rewrite <- app_assoc. destruct (20 - length _)%nat as [|k] eqn:E; [lia|].
    by eexists. }
  pose proof (scan_word_text (S (20 - 17)) (ip_str (c_ip c)) 32) as Hw.
  cbn [replicate app] in Hw. rewrite Hw; clear Hw; [|by apply addr_word, ip_str_addr| |done].
  2: { intros Hn. rewrite Hn in Hil. simpl in Hil. lia. }
  rewrite (proj2 (Nat.leb_gt _ _)) by lia. done.
Qed.

(** The status of a device as the table has it. *)
Definition status (s : devs) (m : list Z) : option bool := online <$> find_dev_node m s.

Lemma find_add now m m' s :
  devs_wf s -> find_dev_node m s = None ->
  find_dev_node m' (mkDevs (tbl_add (dev_hash_table s) (new_dev now m)) (g_cur_user_num s + 1)) =
  if bool_decide (mac_key m' = mac_key m) then Some (new_dev now m) else find_dev_node m' s.
Proof.
  intros [Hp Hu _ _] Hf. unfold find_dev_node in *. cbn [dev_hash_table].
  rewrite !tbl_find_map; [| |done| |]; [|done|by apply tbl_add_placed|by apply tbl_add_unique].
  rewrite tbl_add_map by done. change (mac_of (new_dev now m)) with (mac_key m).
  case_bool_decide as Hm; [by rewrite Hm, lookup_insert_eq|by rewrite lookup_insert_ne].
Qed.

Lemma status_write k f m s :
  (forall n, mac n = k -> mac (f n) = k /\ online (f n) = true) -> devs_wf s -> mac_key m = m ->
  status (dev_write k f s) m =
  if bool_decide (m = k) then (fun _ => true) <$> find_dev_node m s else status s m.
Proof.
  intros Hf Hs Hm. unfold status. rewrite find_write; [|intros; by apply Hf|done].
  destruct (find_dev_node m s) as [n|] eqn:E; simpl; [|by case_bool_decide].
  apply find_dev_Some in E as [_ E]. rewrite Hm in E. subst m.
  case_bool_decide; [|done]. f_equal. by apply Hf.
Qed.

(** One line of the listing. *)
Lemma online_line now c s m :
  devs_wf s -> mac_bytes c -> mac_key m = m ->
  find_dev_node (key_of c) s <> None \/ g_cur_user_num s < MAX_SUPPORT_USER_NUM ->
  let s' := match find_dev_node (key_of c) s with
    | Some node => dev_write (mac node) (fun n => set_online true (offline_time n) n) s
    | None => match add_dev_node now true (key_of c) s with
              | (None, s) => s
              | (Some node, s) => dev_write (mac node)
                  (fun n => set_online true (offline_time n) (set_dev_ip (ip_str (c_ip c)) n)) s
              end
    end in
  status s' m = if bool_decide (m = key_of c) then Some true else status s m.
Proof.
  intros Hs Hc Hm Hcap s'. pose proof (key_of_key c Hc) as Hk. unfold s'.
  destruct (find_dev_node (key_of c) s) as [n|] eqn:Ef.
  - pose proof (find_dev_Some _ _ _ Ef) as [_ Hn]. rewrite Hn, Hk.
    rewrite status_write by done. case_bool_decide as He; [|done]. subst m. by rewrite Ef.
  - destruct Hcap as [|Hcap]; [done|]. pose proof (add_dev_node_wf now true _ _ Hs Ef) as Hw.
    rewrite add_dev_node_spec, (proj2 (Z.ltb_lt _ _)) in * by done. cbn [andb snd] in *.
    change (mac (new_dev now (key_of c))) with (mac_key (key_of c)). rewrite Hk.
    rewrite status_write by done. unfold status. rewrite find_add by done. rewrite Hm, Hk.
    by case_bool_decide.
Qed.

Lemma online_loop_lines now cs index b1 b2 s :
  devs_wf s -> Forall mac_bytes cs ->
  g_cur_user_num s + Z.of_nat (length cs) <= MAX_SUPPORT_USER_NUM ->
  exists s', online_loop now true (lines_from index cs) b1 b2 s = Some s' /\
    forall m, mac_key m = m ->
      status s' m = if bool_decide (m ∈ map key_of cs) then Some true else status s m.
Proof.
  intros Hs Hcs. revert index b1 b2 s Hs.
  induction Hcs as [|c cs Hc _ IH]; intros index b1 b2 s Hs Hcap; cbn [lines_from online_loop].
  { exists s. split; [done|]. intros m _. by rewrite bool_decide_false by apply not_elem_of_nil. }
  rewrite scan_line by done. cbn [mbind option_bind].
  assert (length (key_of c) = 17%nat) as Hl by (unfold key_of; apply mac_str_length, Hc).
  rewrite Hl. cbn [Nat.ltb Nat.leb]. cbn [length] in Hcap.
  match goal with |- context [online_loop _ _ _ _ _ ?s1] => set (s2 := s1) end.
  assert (devs_wf s2 /\ g_cur_user_num s2 <= g_cur_user_num s + 1) as [Hs2 Hg2].
  { unfold s2. destruct (find_dev_node _ s) eqn:Ef.
    - split; [apply dev_write_wf; auto|simpl; lia].
    - pose proof (add_dev_node_wf now true _ _ Hs Ef) as Hw. rewrite add_dev_node_spec in *.
      destruct (_ && _); cbn [snd] in Hw; [|split; [done|lia]].
      split; [apply dev_write_wf; auto|simpl; lia]. }
  destruct (IH (s32 (index + 1)) (key_of c) (ip_str (c_ip c)) s2 Hs2 ltac:(lia)) as (s' & H1 & H2).
  exists s'. split; [exact H1|]. intros m Hm. rewrite H2 by done.
  pose proof (online_line now c s m Hs Hc Hm ltac:(right; lia)) as Hol. fold s2 in Hol. cbv zeta in Hol.
  rewrite Hol. cbn [map]. clear. repeat case_bool_decide; set_solver.
Qed.

Lemma status_clean now s m :
  devs_wf s -> status (clean_dev_online_status now s) m = (fun _ => false) <$> find_dev_node m s.
Proof.
  intros Hs. unfold status, clean_dev_online_status. rewrite foreach_update, find_update; [|intros n _; by destruct (online n)|done].
  destruct (find_dev_node m s) as [n|]; simpl; [|done]. f_equal. by destruct (online n) eqn:E.
Qed.


(** ** Reports of the kernel *)

(** Applications that have a counter of their own in [stat]. *)
Definition stat_ok (app : Z) : Prop := 1 <= app / 1000 <= 16 /\ 1 <= app mod 1000 <= 128.
#[export] Instance stat_ok_dec app : Decision (stat_ok app).
Proof. unfold stat_ok. apply _. Defined.
Definition stat_slot (app : Z) : Z := (app / 1000 - 1) * MAX_APP_ID_NUM + (app mod 1000 - 1).

Lemma stat_slot_range app : stat_ok app -> 0 <= stat_slot app < 2048.
Proof. unfold stat_ok, stat_slot, MAX_APP_ID_NUM. lia. Qed.

Lemma stat_slot_inj a b : stat_ok a -> stat_ok b -> stat_slot a = stat_slot b -> a = b.
Proof.
  unfold stat_ok, stat_slot, MAX_APP_ID_NUM. intros Ha Hb He.
  pose proof (Z.div_mod a 1000 ltac:(lia)). pose proof (Z.div_mod b 1000 ltac:(lia)). lia.
Qed.

Lemma stat_ok_pos app : stat_ok app -> 0 <= app.
Proof. intros [Ha _]. pose proof (Z.div_mod app 1000 ltac:(lia)). pose proof (Z.mod_pos_bound app 1000). lia. Qed.

(** The total of an application, as the daemon has it. *)
Definition total_time (app : Z) (n : dev_node) : option Z := stat n @! stat_slot app.

Lemma visit_step_total time app act n :
  dev_ok n -> stat_ok app ->
  exists n', visit_step time true app act n = Some n' /\
    forall a, stat_ok a -> total_time a n' =
      if bool_decide (a = app) then (fun t => u64 (t + REPORT_INTERVAL_SECS)) <$> total_time a n
      else total_time a n.
Proof.
  intros Hn Happ. pose proof (stat_ok_pos app Happ) as Hpos. unfold visit_step.
  rewrite Z.quot_div_nonneg, Z.rem_mod_nonneg by lia.
  destruct Happ as [Ht Hi]. rewrite (proj2 (Z.leb_gt _ 0)), (proj2 (Z.leb_gt _ 0)) by lia. cbn [orb].
  fold (stat_slot app). pose proof (stat_slot_range app (conj Ht Hi)) as Hr.
  pose proof (do_stat n Hn) as Hl. change (Z.to_nat _) with 2048%nat in Hl.
  destruct (rd_is_Some (stat n) (stat_slot app) ltac:(lia)) as [t Et]. rewrite Et. cbn [mbind option_bind].
  destruct (wr (stat n) (stat_slot app) (u64 (t + REPORT_INTERVAL_SECS))) as [st|] eqn:Ew.
  2: { rewrite wr_Some in Ew by lia. done. }
  cbn [mbind option_bind].
  match goal with |- context [mbind _ ?c] => assert (exists ch, c = Some ch) as [ch ->] end.
  { repeat case_match; by eexists. }
  cbn [mbind option_bind]. eexists. split; [done|]. intros a Ha. unfold total_time. cbn [stat set_visit].
  rewrite (wr_rd _ _ _ _ _ Ew) by (apply stat_slot_range; done). case_bool_decide as He.
  - subst a. by rewrite Z.eqb_refl, Et.
  - rewrite (proj2 (Z.eqb_neq _ _)); [done|]. intros Hs. by apply stat_slot_inj in Hs.
Qed.

(** A visit is booked on whatever record heads the chain of its hash: when
    that record was touched less than five minutes ago it is extended, also if
    it belongs to another application, and the visit gets no record of its
    own. *)
Theorem visit_extends_head time ok app act n head next :
  dev_ok n -> stat_ok app ->
  visit_htable n !! Z.to_nat (hash_appid app) = Some (head :: next) ->
  time - latest_time head < 300 ->
  exists n', visit_step time ok app act n = Some n' /\
    visit_htable n' = <[Z.to_nat (hash_appid app) :=
      mkInfo (appid head) (first_time head) (s32 time) (action head) (v_expire head) :: next]>
      (visit_htable n).
Proof.
  intros Hn Happ Hc Ht. pose proof (stat_ok_pos app Happ) as Hpos. unfold visit_step.
  rewrite Z.quot_div_nonneg, Z.rem_mod_nonneg by lia. destruct Happ as [H1 H2].
  rewrite (proj2 (Z.leb_gt _ 0)), (proj2 (Z.leb_gt _ 0)) by lia. cbn [orb]. fold (stat_slot app).
  pose proof (stat_slot_range app (conj H1 H2)) as Hr.
  pose proof (do_stat n Hn) as Hl. change (Z.to_nat _) with 2048%nat in Hl.
  destruct (rd_is_Some (stat n) (stat_slot app) ltac:(lia)) as [t Et]. rewrite Et. cbn [mbind option_bind].
  rewrite wr_Some by lia. cbn [mbind option_bind]. rewrite Hc. cbv zeta.
  change (default [] (Some (head :: next))) with (head :: next). cbv iota.
  rewrite (proj2 (Z.ltb_lt _ 300)) by done. by eexists.
Qed.

Fixpoint visit_steps (time : Z) (ok : bool) (vs : list visit) (n : dev_node) : option dev_node :=
  match vs with
  | [] => Some n
  | v :: vs => n ← visit_step time ok (v_app_id v) (v_latest_action v) n; visit_steps time ok vs n
  end.

Lemma visit_steps_total time vs n :
  dev_ok n -> Forall (fun v => stat_ok (v_app_id v)) vs -> NoDup (map v_app_id vs) ->
  exists n', visit_steps time true vs n = Some n' /\ mac n' = mac n /\ ip n' = ip n /\
    forall a, stat_ok a -> total_time a n' =
      if bool_decide (a ∈ map v_app_id vs)
      then (fun t => u64 (t + REPORT_INTERVAL_SECS)) <$> total_time a n else total_time a n.
Proof.
  intros Hn Hvs. revert n Hn. induction Hvs as [|v vs Hv Hvs IH]; intros n Hn Hnd; cbn [visit_steps map].
  { exists n. split_and!; try done. }
  apply NoDup_cons in Hnd as [Hni Hnd].
  destruct (visit_step_total time (v_app_id v) (v_latest_action v) n Hn Hv) as (n1 & E1 & H1).
  destruct (visit_step_ok _ _ _ _ _ _ Hn E1) as (Hn1 & Hm1 & Hi1).
  destruct (IH n1 Hn1 Hnd) as (n' & E2 & Hm2 & Hi2 & H2).
  exists n'. rewrite E1. cbn [mbind option_bind]. split_and!; [done|congruence..|].
  intros a Ha. rewrite H2, H1 by done. clear -Hni. repeat case_bool_decide; try done; set_solver.
Qed.

Lemma mem32_le32 z r : 0 <= z < 2 ^ 32 -> mem32 (le32 z ++ r) 0 = Some z.
Proof.
  intros Hz.
  change (mem32 (le32 z ++ r) 0) with (Some (u8 z + 256 * u8 (Z.shiftr z 8) +
    65536 * u8 (Z.shiftr z 16) + 16777216 * u8 (Z.shiftr z 24))).
  f_equal. unfold u8. rewrite !Z.shiftr_div_pow2 by lia.
  change (2 ^ 8) with 256. change (2 ^ 16) with 65536. change (2 ^ 24) with 16777216.
  Z.to_euclidean_division_equations. lia.
Qed.

Lemma nl_handler_payload `{JsonC} time ok len x s :
  0 < len < 1024 ->
  appfilter_nl_handler time ok (le32 AF_MSG_MAGIC ++ le32 len ++ x) s =
  match json_tokener_parse x with None => Some s | Some root => handle_report time ok root s end.
Proof.
  intros Hl. unfold appfilter_nl_handler. rewrite mem32_le32 by (unfold AF_MSG_MAGIC; lia).
  cbn [mbind option_bind]. rewrite Z.eqb_refl. cbn [negb].
  change (mem32 (le32 AF_MSG_MAGIC ++ le32 len ++ x) 4) with (mem32 (le32 len ++ x) 0).
  rewrite mem32_le32 by lia. cbn [mbind option_bind]. rewrite s32_id by lia.
  by rewrite (proj2 (Z.leb_gt _ 0)), (proj2 (Z.leb_gt 1024 _)) by lia.
Qed.

Lemma report_text_compact signed_char c :
  reportable c -> report_text signed_char c = compact signed_char (report_jval c).
Proof. intros Hc. apply minify_whole; [by apply report_jval_ok|by apply report_jval_minify]. Qed.

Section Reports.
Context `{JsonCLaws}.

Lemma get_member j l k i v :
  denotes j (JObj l) -> NoDup (map fst l) -> l !! i = Some (k, v) ->
  exists j', json_object_object_get (Some j) k = Some j' /\ denotes j' v.
Proof.
  intros Hj Hnd Hi. pose proof (get_law j l k Hj Hnd) as Hg.
  destruct (list_find _ l) as [[i' [k' v']]|] eqn:E.
  - apply list_find_Some in E as (Hi' & Hk & _). cbn in Hk. subst k'.
    assert (i = i') as <-.
    { eapply NoDup_lookup; [exact Hnd| |]; rewrite list_lookup_fmap;
        [by rewrite Hi|by rewrite Hi']. }
    rewrite Hi in Hi'. by injection Hi' as ->.
  - exfalso. apply list_find_None in E. rewrite Forall_lookup in E. by apply (E i (k, v) Hi).
Qed.

Lemma names_nodup (l : list (list Z)) : bool_decide (NoDup l) = true -> NoDup l.
Proof. apply bool_decide_eq_true. Qed.

Lemma visit_loop_steps time ok arr vs k i n :
  denotes arr (JArr (map visit_jval vs)) -> Forall visit_ok vs -> (i + k = length vs)%nat ->
  visit_loop time ok arr k i n = visit_steps time ok (drop i vs) n.
Proof.
  intros Ha Hvs. revert i n. induction k as [|k IH]; intros i n Hk; cbn [visit_loop].
  { by rewrite drop_ge by lia. }
  destruct (lookup_lt_is_Some_2 vs i ltac:(lia)) as [v Hv]. rewrite (drop_S _ _ _ Hv). cbn [visit_steps].
  assert (visit_ok v) as (Hv1 & Hv2 & _) by by eapply (proj1 (Forall_lookup _ _) Hvs).
  destruct (idx_law arr _ i (visit_jval v) Ha) as (vo & -> & Hvo).
  { rewrite list_lookup_fmap. by rewrite Hv. }
  assert (forall nm j x, [(bytes_of "appid", JNum (v_app_id v)); (bytes_of "latest_action", JNum (v_latest_action v));
        (bytes_of "up_bytes", JNum (v_up_bytes v)); (bytes_of "down_bytes", JNum (v_down_bytes v))] !! j = Some (nm, JNum x) ->
      0 <= x < 2 ^ 31 -> json_object_get_int (json_object_object_get (Some vo) nm) = x) as Hget.
  { intros nm j x Hj Hx. destruct (get_member vo _ nm j (JNum x) Hvo) as (o & -> & Ho); [|done|].
    - apply names_nodup. vm_compute. reflexivity.
    - by apply int_law. }
  rewrite (Hget _ 0%nat _ eq_refl Hv1), (Hget _ 1%nat _ eq_refl Hv2).
  destruct (visit_step _ _ _ _ n) as [n1|]; [|done]. apply IH. lia.
Qed.

Lemma used_visits_wf vs : visits_wf vs -> NoDup (map v_app_id (used_visits vs)).
Proof.
  intros (us & k & -> & _ & Hne & Hnd). unfold used_visits. rewrite List.filter_app.
  assert (List.filter used (replicate k visit0) = []) as -> by (induction k; done).
  rewrite app_nil_r.
  assert (List.filter used us = us) as ->; [|done].
  clear Hnd. induction Hne as [|v us Hv _ IH]; simpl; [done|]. unfold used at 1.
  rewrite (proj2 (Z.eqb_neq _ 0) Hv). simpl. by rewrite IH.
Qed.

Lemma report_names : NoDup [bytes_of "mac"; bytes_of "ip"; bytes_of "app_num"; bytes_of "visit_info"].
Proof. apply names_nodup. vm_compute. reflexivity. Qed.

(** The device a report is about. *)
Definition report_dev (time : Z) (c : client) (s : devs) : dev_node * devs :=
  match find_dev_node (key_of c) s with
  | Some n => (n, s)
  | None => let n := new_dev (s32 time) (key_of c) in
            (n, mkDevs (tbl_add (dev_hash_table s) n) (g_cur_user_num s + 1))
  end.

Lemma handle_report_steps time root c s :
  denotes root (report_jval c) -> reportable c ->
  find_dev_node (key_of c) s <> None \/ g_cur_user_num s < MAX_SUPPORT_USER_NUM ->
  let '(n0, s1) := report_dev time c s in
  handle_report time true root s =
  (n ← visit_steps time true (used_visits (Client.visit_info c)) (set_dev_ip (ip_str (c_ip c)) n0);
   Some (dev_write (mac n) (fun _ => n) s1)).
Proof.
  intros Hroot Hc Hcap. unfold handle_report, report_jval in *.
  pose proof (fun i k v Hi => get_member root _ k i v Hroot report_names Hi) as Hget.
  destruct (Hget 0%nat _ _ eq_refl) as (mo & -> & Hmo).
  destruct (Hget 1%nat _ _ eq_refl) as (io & -> & Hio).
  destruct (Hget 3%nat _ _ eq_refl) as (ao & -> & Hao).
  rewrite (string_law mo _ Hmo), (string_law io _ Hio). fold (key_of c).
  rewrite (take_ge (ip_str _)) by (pose proof (ip_str_length (c_ip c)); unfold MAX_IP_LEN; lia).
  assert ((match find_dev_node (key_of c) s with
    | Some node => (Some node, s) | None => add_dev_node (s32 time) true (key_of c) s end) =
    (Some (fst (report_dev time c s)), snd (report_dev time c s))) as ->.
  { unfold report_dev. destruct (find_dev_node _ s) eqn:Ef; [done|]. destruct Hcap as [|Hcap]; [done|].
    by rewrite add_dev_node_spec, (proj2 (Z.ltb_lt _ _) Hcap). }
  destruct (report_dev time c s) as [n0 s1]. cbn [fst snd].
  rewrite (length_law ao _ Hao), length_map.
  destruct Hc as (_ & _ & Hv). rewrite (visit_loop_steps _ _ ao (used_visits (Client.visit_info c)));
    [done|done|by apply used_visits_ok|lia].
Qed.

Lemma report_dev_wf time c s :
  devs_wf s -> mac_bytes c ->
  find_dev_node (key_of c) s <> None \/ g_cur_user_num s < MAX_SUPPORT_USER_NUM ->
  let '(n0, s1) := report_dev time c s in
  devs_wf s1 /\ dev_ok n0 /\ find_dev_node (key_of c) s1 = Some n0 /\ mac n0 = key_of c /\
  forall a, stat_ok a -> total_time a n0 =
    Some (default 0 (n ← find_dev_node (key_of c) s; total_time a n)).
Proof.
  intros Hs Hc Hcap. unfold report_dev. pose proof (key_of_key c Hc) as Hk.
  destruct (find_dev_node (key_of c) s) as [n|] eqn:Ef.
  - pose proof (find_dev_Some _ _ _ Ef) as [Hin Hm].
    assert (dev_ok n) as Hn by (pose proof (dw_nodes s Hs) as Hd; rewrite Forall_forall in Hd; auto).
    split_and!; [done..|congruence|]. intros a Ha. cbn [mbind option_bind]. unfold total_time.
    destruct (rd_is_Some (stat n) (stat_slot a)) as [t ->]; [|done].
    rewrite (do_stat n Hn). apply stat_slot_range in Ha. done.
  - destruct Hcap as [|Hcap]; [done|]. pose proof (add_dev_node_wf (s32 time) true _ _ Hs Ef) as Hw.
    rewrite add_dev_node_spec, (proj2 (Z.ltb_lt _ _) Hcap) in Hw. cbn [andb snd] in Hw.
    split_and!; [done|apply new_dev_ok| |done|].
    + rewrite find_add by done. by rewrite bool_decide_true.
    + intros a Ha%stat_slot_range. unfold total_time, rd. rewrite (proj2 (Z.ltb_ge _ 0)) by lia.
      cbn [stat new_dev]. rewrite lookup_replicate_2; [done|]. change (Z.to_nat (_ * _)) with 2048%nat. lia.
Qed.

(** C2: reports arrive.  The message the kernel module sends for a client that
    is due, whatever bytes follow it in the receive buffer, makes the daemon
    find or add the device with the client's address, set its IP, and add one
    interval to the total time of exactly the applications the client used. *)
Theorem report_reaches_daemon signed_char time c rest s :
  reportable c -> length (c_mac c) = 6%nat -> visits_wf (Client.visit_info c) -> due c = true ->
  Z.of_nat (length (report_text signed_char c)) <= 1016 ->
  Forall (fun v => stat_ok (v_app_id v)) (used_visits (Client.visit_info c)) ->
  devs_wf s ->
  find_dev_node (key_of c) s <> None \/ g_cur_user_num s < MAX_SUPPORT_USER_NUM ->
  exists msg s' n, __af_visit_info_report signed_char true c = Some (drained c, Some msg) /\
    appfilter_nl_handler time true (msg ++ rest) s = Some s' /\
    find_dev_node (key_of c) s' = Some n /\ ip n = ip_str (c_ip c) /\
    forall a, stat_ok a -> total_time a n =
      let old := default 0 (n0 ← find_dev_node (key_of c) s; total_time a n0) in
      Some (if bool_decide (a ∈ map v_app_id (used_visits (Client.visit_info c)))
            then u64 (old + REPORT_INTERVAL_SECS) else old).
Proof.
  intros Hc Hl Hvw Hdue Hlen Happs Hs Hcap.
  assert (mac_bytes c) as Hmb by (split; [done|apply Hc]).
  pose proof (report_dev_wf time c s Hs Hmb Hcap) as Hd.
  pose proof (fun root Hroot => handle_report_steps time root c s Hroot Hc Hcap) as Hh.
  destruct (report_dev time c s) as [n0 s1]. destruct Hd as (Hs1 & Hn0 & Hf1 & Hm0 & Ht0).
  destruct (visit_steps_total time (used_visits (Client.visit_info c))
    (set_dev_ip (ip_str (c_ip c)) n0) ltac:(by apply set_ip_ok) Happs ltac:(by apply used_visits_wf))
    as (n & Hsteps & Hm & Hip & Htot).
  exists (le32 AF_MSG_MAGIC ++ le32 (Z.of_nat (length (report_text signed_char c))) ++
    report_text signed_char c), (dev_write (mac n) (fun _ => n) s1), n.
  split; [by apply report_sent|]. rewrite report_text_compact in * by done.
  destruct (parse_law signed_char false (report_jval c) rest _ eq_refl (report_jval_ok c Hc))
    as (root & Hp & Hroot).
  split_and!.
  - rewrite <- !app_assoc, nl_handler_payload, Hp, (Hh root Hroot), Hsteps; [done|].
    split; [|lia]. unfold report_jval. rewrite text_obj. simpl. lia.
  - rewrite find_write by done. rewrite Hf1. cbn [fmap option_fmap option_map].
    rewrite bool_decide_true; [done|]. by rewrite Hm.
  - by rewrite Hip.
  - intros a Ha. rewrite Htot by done. change (total_time a (set_dev_ip _ n0)) with (total_time a n0).
    rewrite Ht0 by done. by case_bool_decide.
Qed.

End Reports.

(** ** The module's own parser as a JSON library

    An instance of the interface, over the cJSON model, that meets its laws. *)

Section CjsonInstance.
Context `{Klib}.

Definition cj_get (o : option cJSON) (k : list Z) : option cJSON :=
  o ← o; List.find (fun c => bool_decide (string_ c = Some k)) (child o).

#[local] Instance cjson_jsonc : JsonC := {|
  json := cJSON;
  json_tokener_parse t := match cJSON_Parse false 0 t with Some r => r | None => None end;
  json_object_object_get := cj_get;
  json_object_get_string c := default [] (valuestring c);
  json_object_array_length c := length (child c);
  json_object_array_get_idx c i := child c !! i;
  json_object_get_int o := match o with Some c => valueint c | None => 0 end;
|}.

Lemma string_item nm v : string_ (item_of nm v) = nm.
Proof. by destruct v as [|[]| | | |]. Qed.

Lemma cj_get_law nm l k :
  match list_find (fun kv => fst kv = k) l with
  | Some (_, (_, v)) => exists j', cj_get (Some (item_of nm (JObj l))) k = Some j' /\
      exists nm', j' = item_of nm' v
  | None => cj_get (Some (item_of nm (JObj l))) k = None
  end.
Proof.
  unfold cj_get. cbn [mbind option_bind item_of child].
  induction l as [|[k' v] l IH]; [done|]. cbn [map List.find list_find fst snd].
  rewrite string_item. destruct (decide (k' = k)) as [->|Hne].
  - rewrite bool_decide_true by done. eauto.
  - rewrite bool_decide_false by congruence.
    destruct (list_find _ l) as [[i [k2 v2]]|]; exact IH.
Qed.

#[local] Instance cjson_laws : JsonCLaws.
Proof.
  refine {| denotes := fun (j : @json cjson_jsonc) v => exists nm, j = item_of nm v |}.
  - intros sc pretty v rest l -> Hv. exists (item_of None (JObj l)). split; [|by exists None].
    cbn [json_tokener_parse cjson_jsonc]. 
    rewrite (gtext_signed sc false) by done. by rewrite parse_text_obj.
  - intros j l k [nm ->] _. apply cj_get_law.
  - by intros j s [nm ->].
  - by intros j n [nm ->].
  - intros j l [nm ->]. simpl. by rewrite length_map.
  - intros j l i v [nm ->] Hi. simpl. rewrite list_lookup_fmap, Hi. simpl. eauto.
Qed.

End CjsonInstance.

(** ** Witnesses *)

Import KlibRef.
#[local] Existing Instance cjson_jsonc.
#[local] Existing Instance cjson_laws.

Definition devs0 : devs := init_dev_node_htable (mkDevs [] 0).
Definition key_demo : list Z := mac_str mac_demo.

Lemma devs0_wf : devs_wf devs0.
Proof. by apply init_devs_wf. Qed.

Lemma report_reaches_daemon_witness :
  exists msg s' n, __af_visit_info_report false true (client_demo 1001 2) =
      Some (drained (client_demo 1001 2), Some msg) /\
    appfilter_nl_handler 1700000000 true (msg ++ [7; 8; 9]) devs0 = Some s' /\
    find_dev_node key_demo s' = Some n /\
    total_time 1002 n = Some 60 /\ total_time 1003 n = Some 0.
Proof.
  destruct (report_reaches_daemon false 1700000000 (client_demo 1001 2) [7; 8; 9] devs0)
    as (msg & s' & n & H1 & H2 & H3 & _ & H4).
  - apply client_demo_reportable; lia.
  - reflexivity.
  - apply visits_demo_wf; lia.
  - reflexivity.
  - vm_compute. discriminate.
  - apply (bool_decide_unpack _). vm_compute. exact I.
  - exact devs0_wf.
  - right. vm_compute. reflexivity.
  - exists msg, s', n. split; [exact H1|]. split; [exact H2|]. split; [exact H3|].
    split; rewrite H4 by (split; vm_compute; split; discriminate); vm_compute; reflexivity.
Defined.

(** 1001 and 1064 share a chain. *)
Lemma visit_extends_head_witness :
  exists n', visit_step 1100 true 1064 0 (set_visit
      (<[56%nat := [mkInfo 1001 995 1000 0 false]]> (replicate 64 [])) (replicate 2048 0)
      (new_dev 0 key_demo)) = Some n' /\
    visit_htable n' !! 56%nat = Some [mkInfo 1001 995 1100 0 false].
Proof.
  destruct (visit_extends_head 1100 true 1064 0 (set_visit
      (<[56%nat := [mkInfo 1001 995 1000 0 false]]> (replicate 64 [])) (replicate 2048 0)
      (new_dev 0 key_demo)) (mkInfo 1001 995 1000 0 false) []) as (n' & H1 & H2).
  - split; try (vm_compute; reflexivity); [vm_compute; lia|]. intros h l Hl. cbn [visit_htable set_visit] in Hl.
    apply list_lookup_insert_Some in Hl as [(<- & <- & _)|[_ [-> _]%lookup_replicate]]; [|constructor].
    repeat constructor.
  - vm_compute. repeat split; discriminate.
  - reflexivity.
  - vm_compute. reflexivity.
  - exists n'. split; [exact H1|]. rewrite H2. reflexivity.
Defined.

Definition table_demo : list (list client) := table (snd (af_client_hook env_demo packet_demo clients0)).


Definition tick_demo (time : Z) (lines : list (list Z)) : tick :=
  mkTick time true None (Some (title :: lines)) true.
Definition client_n (i : Z) : client := mkClient 0 [0; 0; 0; 0; 0; i] 0 0 0 0 0 [].
(** 64 devices are listed once, and four days later no device is left. *)
Definition after_first : option devs :=
  fst <$> dev_list_timeout_handler
    (tick_demo 1000 (map (fun i => line (Z.of_nat i) (client_n (Z.of_nat i))) (seq 0 64))) devs0.
Definition after_second : option devs := s ← after_first; fst <$> dev_list_timeout_handler (tick_demo 2000 []) s.
Definition after_third : option devs := s ← after_second; fst <$> dev_list_timeout_handler (tick_demo 400000 []) s.

Lemma tick_step k s s' : fst <$> dev_list_timeout_handler k s = Some s' -> dev_step s s'.
Proof.
  intros H1. destruct (dev_list_timeout_handler k s) as [[s1 out]|] eqn:E; [|done].
  injection H1 as <-. by eapply step_timer.
Qed.

Definition sizes_of (o : option devs) : option (nat * Z) :=
  (fun s => (length (devices s), g_cur_user_num s)) <$> o.
Lemma sizes_first : sizes_of after_first = Some (64%nat, 64).
Proof. vm_compute. reflexivity. Qed.
Lemma sizes_third : sizes_of after_third = Some (0%nat, 64).
Proof. vm_compute. reflexivity. Qed.

Lemma sizes_Some o n g : sizes_of o = Some (n, g) -> exists s, o = Some s /\ length (devices s) = n /\ g_cur_user_num s = g.
Proof. destruct o as [s|]; [|done]. intros [= <- <-]. by exists s. Qed.

Lemma after_first_reach s : after_first = Some s -> rtc dev_step devs0 s.
Proof. unfold after_first. intros E. eapply rtc_l; [eapply tick_step; exact E|apply rtc_refl]. Qed.

Lemma after_third_reach s : after_third = Some s -> rtc dev_step devs0 s.
Proof.
  unfold after_third, after_second. intros (s2 & (s1 & E1 & E2)%bind_Some & E3)%bind_Some.
  apply after_first_reach in E1. transitivity s1; [exact E1|].
  eapply rtc_l; [eapply tick_step; exact E2|]. eapply rtc_l; [eapply tick_step; exact E3|].
  apply rtc_refl.
Qed.

Lemma device_limit_is_permanent_witness :
  exists s, after_third = Some s /\ devices s = [] /\ g_cur_user_num s = 64 /\
    forall s', rtc dev_step s s' -> macs s' ⊆ [].
Proof.
  destruct (sizes_Some _ _ _ sizes_third) as (s & E & Hd & Hg). exists s.
  apply nil_length_inv in Hd. split; [exact E|]. split; [exact Hd|]. split; [exact Hg|].
  intros s' Hs'. assert (macs s = []) as <- by (unfold macs; rewrite Hd; reflexivity).
  apply (device_limit_is_permanent s s'); [|exact Hg|exact Hs'].
  apply (dev_steps_wf devs0 s); [exact devs0_wf|apply after_third_reach; exact E].
Defined.

Lemma devices_stay_wf_witness :
  exists s, after_first = Some s /\ length (devices s) = 64%nat /\ devs_wf s.
Proof.
  destruct (sizes_Some _ _ _ sizes_first) as (s & E & Hd & _). exists s.
  split; [exact E|]. split; [exact Hd|].
  apply (devices_stay_wf (mkDevs [] 0) s); [reflexivity|apply after_first_reach; exact E].
Defined.

Lemma second_tick : bool_decide (is_Some (s ← after_first; dev_list_timeout_handler (tick_demo 2000 []) s)) = true.
Proof. vm_compute. reflexivity. Qed.

Lemma timer_tick_expires_witness :
  exists s s1 s' out, after_first = Some s /\ length (devices s) = 64%nat /\
    dev_list_timeout_handler (tick_demo 2000 []) s = Some (s', out) /\
    dump_dev_list (tick_demo 2000 []) s = Some (s1, out) /\
    forall n, n ∈ devices s1 -> dev_stays 2000 n ->
      set_visit (map (List.filter (record_stays 2000)) (visit_htable n)) (stat n) n ∈ devices s'.
Proof.
  destruct (sizes_Some _ _ _ sizes_first) as (s & E & Hl & _).
  assert (devs_wf s) as Hs
    by (apply (dev_steps_wf devs0 s); [exact devs0_wf|apply after_first_reach; exact E]).
  pose proof second_tick as H2. apply bool_decide_eq_true in H2. rewrite E in H2. destruct H2 as [[s' out] E2].
  destruct (timer_tick_expires (tick_demo 2000 []) s s' out Hs E2) as (s1 & Hd & H1).
  exists s, s1, s', out. split; [exact E|]. split; [exact Hl|]. split; [exact E2|].
  split; [exact Hd|]. intros n Hn Hg. apply H1. exists n. split; [exact Hn|]. split; [exact Hg|reflexivity].
Defined.

End Devices.
