(* ===== verification/Schedule.v ===== *)
(** * Schedule: when the daemon switches filtering on

    Models the reading of the time configuration in
    src/open-app-filter/src/appfilter_config.c and [check_appfilter_enable] of
    src/open-app-filter/src/main.c.  The UCI library is an interface; the
    structure comes from [malloc], so every field the code does not write keeps
    the bytes that were there. *)

From S2P Require Import Prelude Libc KUtils Devices.

Import Libc Devices.

#[local] Arguments Z.eqb : simpl never.

Module Schedule.

(** ** The configuration library *)

(** What [uci_lookup_ptr] finds under a key: nothing, an incomplete path, a
    section with its type, an option with its string, or something else. *)
Inductive uci_element :=
  UCI_LOOKUP_ERROR | UCI_INCOMPLETE | UCI_TYPE_SECTION (type : list Z) | UCI_TYPE_OPTION (v : list Z) | UCI_TYPE_OTHER.

Section Config.
Context (uci_lookup_ptr : list Z -> uci_element).

Definition uci_get_int_value (key : list Z) : Z :=
  match uci_lookup_ptr key with UCI_TYPE_OPTION v => atoi v | _ => -1 end.

(** [uci_get_value(ctx, key, output, out_len)]: the code and the output. *)
Definition uci_get_value (key output : list Z) (out_len : nat) : Z * list Z :=
  match uci_lookup_ptr key with
  | UCI_LOOKUP_ERROR | UCI_INCOMPLETE | UCI_TYPE_OTHER => (1, output)
  | UCI_TYPE_SECTION v | UCI_TYPE_OPTION v => (0, take (out_len - 1) v)
  end.

(** ** The time configuration *)

Record af_time := mkTime { hour : Z; min : Z }.
Record af_ctl_time := mkCtl {
  time_mode : Z; start : af_time; end_ : af_time; start2 : af_time; end2 : af_time; days : list Z }.

Definition check_time_valid (t : list Z) : bool :=
  negb ((length t <? 3)%nat || (5 <? length t)%nat || negb (existsb (Z.eqb (chr ":")) t)).

(** [sscanf(s, "%d:%d", &t->hour, &t->min)]. *)
Definition scan_time (s : list Z) (t : af_time) : af_time :=
  match scan_d s with
  | None => t
  | Some (h, r) =>
      match r with
      | c :: r => if c =? chr ":"
                  then match scan_d r with
                       | Some (m, _) => mkTime h m
                       | None => mkTime h (min t)
                       end
                  else mkTime h (min t)
      | [] => mkTime h (min t)
      end
  end.

(** The words [strtok(days_str, " ")] cuts. *)
Fixpoint strtok_words (s w : list Z) : list (list Z) :=
  match s with
  | [] => match w with [] => [] | _ => [rev w] end
  | c :: s =>
      if c =? 32 then match w with [] => strtok_words s [] | _ => rev w :: strtok_words s [] end
      else strtok_words s (c :: w)
  end.

Definition set_day (ds : list Z) (p : list Z) : list Z :=
  let day := atoi p in
  if (0 <=? day) && (day <=? 6) then <[Z.to_nat day := 1]> ds else ds.

(** [load_appfilter_ctl_time_config]: NULL only without a context; [junk] is
    what the allocation holds. *)
Definition load_appfilter_ctl_time_config (ctx_ok : bool) (junk : af_ctl_time) : option af_ctl_time :=
  if negb ctx_ok then None else
  let get k := snd (uci_get_value (bytes_of k) [] 64) in
  let start_time_str := get "appfilter.time.start_time" in
  let end_time_str := get "appfilter.time.end_time" in
  let start_time_str2 := get "appfilter.time.start_time2" in
  let end_time_str2 := get "appfilter.time.end_time2" in
  let days_str := get "appfilter.time.days" in
  let value := uci_get_int_value (bytes_of "appfilter.time.time_mode") in
  let mode := if value <? 0 then 0 else value in
  let '(s1, e1) :=
    if check_time_valid start_time_str && check_time_valid end_time_str
    then (scan_time start_time_str (start junk), scan_time end_time_str (end_ junk))
    else (start junk, end_ junk) in
  let '(s2, e2) :=
    if check_time_valid start_time_str2 && check_time_valid end_time_str2
    then (scan_time start_time_str2 (start2 junk), scan_time end_time_str2 (end2 junk))
    else (start2 junk, end2 junk) in
  Some (mkCtl mode s1 e1 s2 e2 (foldl set_day (days junk) (strtok_words days_str []))).

Definition config_get_appfilter_enable (ctx_ok : bool) : Z :=
  if negb ctx_ok then 0 else
  let enable := uci_get_int_value (bytes_of "appfilter.global.enable") in
  if enable <? 0 then 0 else enable.

(** ** The switch *)

(** [struct tm] as far as it is used. *)
Record tm := mkTm { tm_wday : Z; tm_hour : Z; tm_min : Z }.

Definition mins (t : af_time) : Z := hour t * 60 + min t.

(** [check_appfilter_enable]: what is written to the switch of the module. *)
Definition check_appfilter_enable (ctx_ok ctx_ok' : bool) (junk : af_ctl_time) (t : tm) : option bool :=
  let enable := config_get_appfilter_enable ctx_ok in
  if enable =? 0 then Some false else
  match load_appfilter_ctl_time_config ctx_ok' junk with
  | None => Some false
  | Some af_t =>
      day ← days af_t @! tm_wday t;
      if negb (day =? 1) && (time_mode af_t =? 0) then Some false else
      let cur_mins := tm_hour t * 60 + tm_min t in
      let inside :=
        ((mins (start af_t) <? cur_mins) && (cur_mins <? mins (end_ af_t))) ||
        ((mins (start2 af_t) <? cur_mins) && (cur_mins <? mins (end2 af_t))) in
      Some (if inside then time_mode af_t =? 0 else negb (time_mode af_t =? 0))
  end.

End Config.

(** ** Reading times and days *)

(** A time as the configuration writes it. *)
Definition two (n : Z) : list Z := [48 + n / 10; 48 + n mod 10].
Definition time_text (t : af_time) : list Z := two (hour t) ++ chr ":" :: two (min t).
Definition time_ok (t : af_time) : Prop := 0 <= hour t < 24 /\ 0 <= min t < 60.

Lemma scan_d_two n r :
  0 <= n < 100 -> match r with c :: _ => c < 48 \/ 57 < c | [] => True end ->
  scan_d (two n ++ r) = Some (n, r).
Proof.
  intros Hn Hr. assert (0 <= n / 10 < 10 /\ 0 <= n mod 10 < 10 /\ n = 10 * (n / 10) + n mod 10) as (H1 & H2 & H3)
    by (Z.to_euclidean_division_equations; lia).
  unfold scan_d, two. cbn [app skip_space]. unfold isspace.
  replace (_ || _) with false by lia. cbn [app].
  rewrite (proj2 (Z.eqb_neq _ (chr "-"))), (proj2 (Z.eqb_neq _ (chr "+"))) by (chr_simpl; lia).
  replace ((48 <=? 48 + n / 10) && (48 + n / 10 <=? 57)) with true by lia.
  cbn [digits_prefix]. replace ((48 <=? 48 + n / 10) && (48 + n / 10 <=? 57)) with true by lia.
  cbn [digits_prefix]. replace ((48 <=? 48 + n mod 10) && (48 + n mod 10 <=? 57)) with true by lia.
  replace (10 * (10 * 0 + (48 + n / 10 - 48)) + (48 + n mod 10 - 48)) with n by lia.
  destruct r as [|c r]; [done|]. cbn [digits_prefix].
  by replace ((48 <=? c) && (c <=? 57)) with false by lia.
Qed.

Lemma scan_time_text t t0 : time_ok t -> scan_time (time_text t) t0 = t.
Proof.
  intros [Hh Hm]. unfold scan_time, time_text. rewrite scan_d_two by (chr_simpl; lia).
  rewrite Z.eqb_refl. rewrite <- (app_nil_r (two (min t))), scan_d_two by (done || lia).
  by destruct t.
Qed.

Lemma time_text_valid t : check_time_valid (time_text t) = true.
Proof.
  unfold check_time_valid, time_text. cbn [two app length existsb].
  by rewrite Z.eqb_refl, orb_true_l, !orb_true_r.
Qed.

(** Days as the configuration writes them. *)
Definition days_text (ds : list Z) : list Z := concat (map (fun d => [48 + d; 32]) ds).

Lemma strtok_days ds : Forall (fun d => 0 <= d <= 6) ds -> strtok_words (days_text ds) [] = map (fun d => [48 + d]) ds.
Proof.
  induction 1 as [|d ds Hd _ IH]; [done|]. unfold days_text in *. cbn [map concat app strtok_words].
  rewrite (proj2 (Z.eqb_neq (48 + d) 32)) by lia. rewrite Z.eqb_refl. cbn [rev app]. by rewrite IH.
Qed.

Lemma set_day_digit d ds : 0 <= d <= 6 -> set_day ds [48 + d] = <[Z.to_nat d := 1]> ds.
Proof.
  intros Hd. unfold set_day, atoi, scan_d. cbn [skip_space]. unfold isspace.
  replace (_ || _) with false by lia.
  rewrite (proj2 (Z.eqb_neq _ (chr "-"))), (proj2 (Z.eqb_neq _ (chr "+"))) by (chr_simpl; lia).
  cbn [digits_prefix]. replace ((48 <=? 48 + d) && (48 + d <=? 57)) with true by lia.
  cbn [digits_prefix]. replace (10 * 0 + (48 + d - 48)) with d by lia.
  by replace ((0 <=? d) && (d <=? 6)) with true by lia.
Qed.

Lemma set_days_lookup ds l w :
  Forall (fun d => 0 <= d <= 6) ds -> length l = 7%nat -> 0 <= w <= 6 ->
  foldl set_day l (map (fun d => [48 + d]) ds) @! w =
  if bool_decide (w ∈ ds) then Some 1 else l @! w.
Proof.
  intros Hds. revert l. induction Hds as [|d ds Hd _ IH]; intros l Hl Hw; [done|].
  cbn [map foldl]. rewrite set_day_digit by done. rewrite IH by (rewrite ?length_insert; done).
  unfold rd. rewrite (proj2 (Z.ltb_ge w 0)) by lia.
  destruct (decide (w = d)) as [->|Hne].
  - rewrite list_lookup_insert_eq by lia. rewrite (bool_decide_true (d ∈ d :: ds)) by by left.
    by case_bool_decide.
  - rewrite list_lookup_insert_ne by lia.
    rewrite (bool_decide_ext (w ∈ d :: ds) (w ∈ ds)); [done|]. rewrite elem_of_cons. tauto.
Qed.

(** ** The schedule *)

(** A schedule as the web interface stores it. *)
Record schedule := mkSchedule {
  sc_mode : Z; sc_first : af_time * af_time; sc_second : af_time * af_time; sc_days : list Z }.

Record schedule_ok (c : schedule) : Prop := {
  so_mode : 0 <= sc_mode c <= 9;
  so_first : time_ok (fst (sc_first c)) /\ time_ok (snd (sc_first c));
  so_second : time_ok (fst (sc_second c)) /\ time_ok (snd (sc_second c));
  so_days : Forall (fun d => 0 <= d <= 6) (sc_days c) /\ (length (sc_days c) <= 31)%nat;
}.

(** The configuration library returns the stored schedule. *)
Record stores (uci : list Z -> uci_element) (c : schedule) : Prop := {
  st_enable : uci (bytes_of "appfilter.global.enable") = UCI_TYPE_OPTION (bytes_of "1");
  st_mode : uci (bytes_of "appfilter.time.time_mode") = UCI_TYPE_OPTION [48 + sc_mode c];
  st_start : uci (bytes_of "appfilter.time.start_time") = UCI_TYPE_OPTION (time_text (fst (sc_first c)));
  st_end : uci (bytes_of "appfilter.time.end_time") = UCI_TYPE_OPTION (time_text (snd (sc_first c)));
  st_start2 : uci (bytes_of "appfilter.time.start_time2") = UCI_TYPE_OPTION (time_text (fst (sc_second c)));
  st_end2 : uci (bytes_of "appfilter.time.end_time2") = UCI_TYPE_OPTION (time_text (snd (sc_second c)));
  st_days : uci (bytes_of "appfilter.time.days") = UCI_TYPE_OPTION (days_text (sc_days c));
}.

Definition within (r : af_time * af_time) (now : Z) : bool :=
  (mins (fst r) <? now) && (now <? mins (snd r)).

Lemma atoi_digit d : 0 <= d <= 9 -> atoi [48 + d] = d.
Proof.
  intros Hd. unfold atoi, scan_d. cbn [skip_space]. unfold isspace. replace (_ || _) with false by lia.
  rewrite (proj2 (Z.eqb_neq _ (chr "-"))), (proj2 (Z.eqb_neq _ (chr "+"))) by (chr_simpl; lia).
  cbn [digits_prefix]. replace ((48 <=? 48 + d) && (48 + d <=? 57)) with true by lia.
  cbn [digits_prefix]. lia.
Qed.

Lemma days_text_length ds : length (days_text ds) = (2 * length ds)%nat.
Proof. unfold days_text. induction ds as [|d ds IH]; simpl; [done|]. rewrite IH. lia. Qed.

Lemma load_stored uci c junk :
  schedule_ok c -> stores uci c ->
  load_appfilter_ctl_time_config uci true junk =
  Some (mkCtl (sc_mode c) (fst (sc_first c)) (snd (sc_first c)) (fst (sc_second c)) (snd (sc_second c))
          (foldl set_day (days junk) (map (fun d => [48 + d]) (sc_days c)))).
Proof.
  intros [Hm [Hf1 Hf2] [Hs1 Hs2] [Hd Hdl]] []. unfold load_appfilter_ctl_time_config.
  unfold uci_get_int_value, uci_get_value. cbn [negb].
  rewrite st_mode0, st_start0, st_end0, st_start3, st_end3, st_days0. cbn [snd].
  rewrite !(take_ge (time_text _)) by (simpl; lia).
  rewrite take_ge by (rewrite days_text_length; simpl; lia).
  rewrite !time_text_valid. cbn [andb]. rewrite !scan_time_text by done.
  rewrite atoi_digit by done. rewrite (proj2 (Z.ltb_ge _ 0)) by lia. by rewrite strtok_days.
Qed.

(** With a complete stored schedule, filtering is switched on if and only if
    the time is strictly inside one of the two ranges, on a selected day, in
    mode 0, and outside both ranges, on any day, in the other modes.  The days
    that are not selected must not happen to hold a 1 in the fresh allocation. *)
Theorem schedule_decides uci c junk t :
  schedule_ok c -> stores uci c -> length (days junk) = 7%nat -> 0 <= tm_wday t <= 6 ->
  (tm_wday t ∉ sc_days c -> days junk @! tm_wday t <> Some 1) ->
  let now := tm_hour t * 60 + tm_min t in
  let inside := within (sc_first c) now || within (sc_second c) now in
  check_appfilter_enable uci true true junk t =
  Some (if sc_mode c =? 0 then bool_decide (tm_wday t ∈ sc_days c) && inside else negb inside).
Proof.
  intros Hc Hst Hl Hw Hjunk now inside. unfold check_appfilter_enable, config_get_appfilter_enable.
  cbn [negb]. unfold uci_get_int_value. rewrite (st_enable uci c Hst).
  change (atoi (bytes_of "1")) with 1. change (1 <? 0) with false. change (1 =? 0) with false. cbv iota.
  rewrite (load_stored uci c junk Hc Hst). cbn [days].
  rewrite set_days_lookup by (done || apply (so_days c Hc)).
  fold now. cbn [start end_ start2 end2 time_mode]. unfold inside, within in *.
  case_bool_decide as Hin.
  - cbn [mbind option_bind]. change (1 =? 1) with true. cbn [negb andb].
    destruct (sc_mode c =? 0); [|by destruct (_ || _)]. by destruct (_ || _).
  - specialize (Hjunk Hin). destruct (rd_is_Some (days junk) (tm_wday t) ltac:(lia)) as [d Ed].
    rewrite Ed in *. cbn [mbind option_bind]. rewrite (proj2 (Z.eqb_neq d 1)) by congruence.
    cbn [negb andb]. destruct (sc_mode c =? 0); [done|]. by destruct (_ || _).
Qed.

(** The configuration with one key deleted. *)
Definition without (key : list Z) (uci : list Z -> uci_element) (k : list Z) : uci_element :=
  if bool_decide (k = key) then UCI_LOOKUP_ERROR else uci k.

Lemma without_other key uci k : bool_decide (k = key) = false -> without key uci k = uci k.
Proof. intros Hk. unfold without. by rewrite Hk. Qed.

(** The fields the code does not write decide too.  With the start of the
    second range not configured and a time outside the first range, the switch
    is whatever the second range of the fresh allocation says. *)
Theorem unset_range_is_junk uci c junk t :
  schedule_ok c -> stores uci c -> length (days junk) = 7%nat ->
  tm_wday t ∈ sc_days c -> sc_mode c = 0 ->
  let now := tm_hour t * 60 + tm_min t in
  within (sc_first c) now = false ->
  check_appfilter_enable (without (bytes_of "appfilter.time.start_time2") uci) true true junk t =
  Some (within (start2 junk, end2 junk) now).
Proof.
  intros [Hm [Hf1 Hf2] _ [Hd Hdl]] [] Hl Hw Hmode now Hout.
  assert (0 <= tm_wday t <= 6) as Hw6 by (rewrite Forall_forall in Hd; auto).
  unfold check_appfilter_enable, config_get_appfilter_enable, load_appfilter_ctl_time_config.
  unfold uci_get_int_value, uci_get_value. cbn [negb].
  assert (without (bytes_of "appfilter.time.start_time2") uci (bytes_of "appfilter.time.start_time2") =
    UCI_LOOKUP_ERROR) as -> by (unfold without; by rewrite bool_decide_true).
  rewrite !without_other by (vm_compute; reflexivity).
  rewrite st_enable0, st_mode0, st_start0, st_end0, st_end3, st_days0. cbn [snd].
  change (atoi (bytes_of "1")) with 1. change (1 <? 0) with false. change (1 =? 0) with false. cbv iota.
  rewrite !(take_ge (time_text _)) by (simpl; lia).
  rewrite take_ge by (rewrite days_text_length; simpl; lia).
  rewrite !time_text_valid. change (check_time_valid []) with false. cbn [andb].
  rewrite !scan_time_text by done. rewrite atoi_digit, Hmode by done. change (0 <? 0) with false.
  cbn [days time_mode start end_ start2 end2]. rewrite strtok_days, set_days_lookup by done.
  rewrite bool_decide_true by done. cbn [mbind option_bind]. change (1 =? 1) with true.
  cbn [negb andb]. fold now. unfold within in *. cbn [fst snd]. rewrite Hout. cbn [orb].
  change (0 =? 0) with true. change (1 =? 0) with false. cbv iota. cbn [negb].
  by destruct (mins (start2 junk) <? now), (now <? mins (end2 junk)).
Qed.

(** ** Witnesses *)

Definition schedule_demo : schedule :=
  mkSchedule 0 (mkTime 8 30, mkTime 12 0) (mkTime 14 0, mkTime 18 30) [1; 2; 3; 4; 5].
Definition uci_demo (k : list Z) : uci_element :=
  let c := schedule_demo in
  if bool_decide (k = bytes_of "appfilter.global.enable") then UCI_TYPE_OPTION (bytes_of "1")
  else if bool_decide (k = bytes_of "appfilter.time.time_mode") then UCI_TYPE_OPTION [48]
  else if bool_decide (k = bytes_of "appfilter.time.start_time") then UCI_TYPE_OPTION (bytes_of "08:30")
  else if bool_decide (k = bytes_of "appfilter.time.end_time") then UCI_TYPE_OPTION (bytes_of "12:00")
  else if bool_decide (k = bytes_of "appfilter.time.start_time2") then UCI_TYPE_OPTION (bytes_of "14:00")
  else if bool_decide (k = bytes_of "appfilter.time.end_time2") then UCI_TYPE_OPTION (bytes_of "18:30")
  else if bool_decide (k = bytes_of "appfilter.time.days") then UCI_TYPE_OPTION (bytes_of "1 2 3 4 5 ")
  else UCI_LOOKUP_ERROR.

Lemma schedule_demo_ok : schedule_ok schedule_demo.
Proof.
  assert (forall h m, 0 <= h < 24 -> 0 <= m < 60 -> time_ok (mkTime h m)) as Ht by done.
  split; [cbn; lia|split; apply Ht; lia..|]. split; [|cbn; lia].
  apply (bool_decide_unpack _). vm_compute. exact I.
Qed.
Lemma uci_demo_stores : stores uci_demo schedule_demo.
Proof. split; vm_compute; reflexivity. Qed.

Definition junk_demo (d : Z) : af_ctl_time :=
  mkCtl 7 (mkTime 7 7) (mkTime 7 7) (mkTime 0 0) (mkTime d 0) (replicate 7 7).

Lemma schedule_decides_witness :
  check_appfilter_enable uci_demo true true (junk_demo 0) (mkTm 3 9 15) = Some true /\
  check_appfilter_enable uci_demo true true (junk_demo 0) (mkTm 6 9 15) = Some false.
Proof.
  split.
  - rewrite (schedule_decides uci_demo schedule_demo (junk_demo 0) (mkTm 3 9 15));
      [vm_compute; reflexivity|exact schedule_demo_ok|exact uci_demo_stores|reflexivity|cbn; lia|].
    intros _. vm_compute. discriminate.
  - rewrite (schedule_decides uci_demo schedule_demo (junk_demo 0) (mkTm 6 9 15));
      [vm_compute; reflexivity|exact schedule_demo_ok|exact uci_demo_stores|reflexivity|cbn; lia|].
    intros _. vm_compute. discriminate.
Defined.

(** The same configuration and time, two contents of the allocation. *)
Lemma unset_range_is_junk_witness :
  let uci := without (bytes_of "appfilter.time.start_time2") uci_demo in
  check_appfilter_enable uci true true (junk_demo 0) (mkTm 3 20 0) = Some false /\
  check_appfilter_enable uci true true (junk_demo 23) (mkTm 3 20 0) = Some true.
Proof.
  split.
  - rewrite (unset_range_is_junk uci_demo schedule_demo (junk_demo 0) (mkTm 3 20 0));
      [reflexivity|exact schedule_demo_ok|exact uci_demo_stores|reflexivity| |reflexivity|reflexivity].
    apply (bool_decide_unpack _). vm_compute. exact I.
  - rewrite (unset_range_is_junk uci_demo schedule_demo (junk_demo 23) (mkTm 3 20 0));
      [reflexivity|exact schedule_demo_ok|exact uci_demo_stores|reflexivity| |reflexivity|reflexivity].
    apply (bool_decide_unpack _). vm_compute. exact I.
Defined.

End Schedule.
