(* ===== verification/Names.v ===== *)
(** * Names: the tables of application and class names of the daemon

    Models [init_app_name_table], [get_app_name_by_id] and
    [init_app_class_name_table] of src/open-app-filter/src/appfilter_config.c.  The
    files are their bytes; a name is the list of its bytes before the NUL; the
    contents of a variable before its first assignment are a parameter. *)

From S2P Require Import Prelude Libc Devices.

Import Libc Devices.

#[local] Arguments Z.eqb : simpl never.

Module Names.

Definition MAX_SUPPORT_APP_NUM : nat := 1024.
Definition MAX_CLASS_NAME_LEN : nat := 32.

Record app_name_info := mkName { id : Z; name : list Z }.

(** The first [g_app_count] entries of the table, which are all that is read, the
    class names and their number. *)
Record names := mkNames {
  app_name_table : list app_name_info; CLASS_NAME_TABLE : list (list Z); g_cur_class_num : Z }.

Definition names0 : names := mkNames [] (replicate (Z.to_nat MAX_APP_TYPE) []) 0.

(** [get_app_name_by_id]. *)
Fixpoint find_name (i : Z) (t : list app_name_info) : list Z :=
  match t with
  | [] => []
  | e :: t => if i =? id e then name e else find_name i t
  end.
Definition get_app_name_by_id (i : Z) (ns : names) : list Z := find_name i (app_name_table ns).

(** [sscanf(buf, "%d %s", &n, word)] with a word of 64 bytes. *)
Definition scan_id_name (buf : list Z) (n : Z) (word : list Z) : option (Z * list Z) :=
  match scan_d buf with
  | None => Some (n, word)
  | Some (n, rest) =>
      match scan_word rest with
      | None => Some (n, word)
      | Some (w, _) => if (length w <? 64)%nat then Some (n, w) else None
      end
  end.

(** The bytes before the first colon, if there is one. *)
Fixpoint before_colon (s : list Z) : option (list Z) :=
  match s with
  | [] => None
  | c :: s => if c =? chr ":" then Some [] else cons c <$> before_colon s
  end.

Section Tables.
(** What [app_id] of the [i]th entry and [class_id] held before they were set. *)
Context (junk : nat -> Z).

(** A line of the feature file: copied up to the colon into 128 bytes, which must
    keep a NUL. *)
Definition name_line (l : list Z) (t : list app_name_info) : option (list app_name_info) :=
  l ← cstr (l ++ [0]);
  if existsb (Z.eqb (chr "#")) l then Some t else
  if (length l <? 10)%nat then Some t else
  match before_colon l with
  | None => Some t
  | Some app_info_buf =>
      if (127 <? length app_info_buf)%nat then None else
      '(app_id, app_name) ← scan_id_name app_info_buf (junk (length t)) [];
      if (MAX_SUPPORT_APP_NUM <=? length t)%nat then None else
      Some (t ++ [mkName app_id app_name])
  end.

Fixpoint name_lines (ls : list (list Z)) (t : list app_name_info) : option (list app_name_info) :=
  match ls with
  | [] => Some t
  | l :: ls => t ← name_line l t; name_lines ls t
  end.

Definition init_app_name_table (file : option (list Z)) (ns : names) : option names :=
  match file with
  | None => Some ns
  | Some f =>
      t ← name_lines (fgets_all 2048 f) (app_name_table ns);
      Some (mkNames t (CLASS_NAME_TABLE ns) (g_cur_class_num ns))
  end.

(** A line of the class file; number and name stay where [sscanf] stops early. *)
Definition class_line (l : list Z) (class_id : Z) (class_name : list Z) (t : list (list Z)) :
    option (Z * list Z * list (list Z)) :=
  l ← cstr (l ++ [0]);
  '(class_id, class_name) ← scan_id_name l class_id class_name;
  if (class_id <? 1) || (Z.of_nat (length t) <? class_id) then None else
  if (MAX_CLASS_NAME_LEN <=? length class_name)%nat then None else
  Some (class_id, class_name, <[Z.to_nat (class_id - 1) := class_name]> t).

Fixpoint class_lines (ls : list (list Z)) (class_id : Z) (class_name : list Z) (t : list (list Z)) (n : Z) :
    option (list (list Z) * Z) :=
  match ls with
  | [] => Some (t, n)
  | l :: ls =>
      '(class_id, class_name, t) ← class_line l class_id class_name t;
      class_lines ls class_id class_name t (n + 1)
  end.

Definition init_app_class_name_table (file : option (list Z)) (ns : names) : option names :=
  match file with
  | None => Some ns
  | Some f =>
      '(t, n) ← class_lines (fgets_all 2048 f) (junk 0) [] (CLASS_NAME_TABLE ns) (g_cur_class_num ns);
      Some (mkNames (app_name_table ns) t n)
  end.
End Tables.

(** ** Files that name applications and classes *)

(** A line of the feature file: a number, a name, a colon and the features; or one
    the daemon has no use for. *)
Inductive line_text :=
| App (ds nm features : list Z)
| Other (l : list Z).

Definition print_line (l : line_text) : list Z :=
  match l with
  | App ds nm features => ds ++ [32] ++ nm ++ [58] ++ features
  | Other l => l
  end.
Definition print_lines (ls : list line_text) : list Z := concat (map (fun l => print_line l ++ [10]) ls).

Definition plain_byte (c : Z) : Prop := c <> 0 /\ c <> 10 /\ c <> 35.
Definition digit_byte (c : Z) : Prop := 48 <= c < 58.
Definition word_byte (c : Z) : Prop := plain_byte c /\ c <> 58 /\ Libc.isspace c = false.

(** The number a run of digits writes. *)
Definition value (ds : list Z) : Z := fst (digits_prefix ds 0).

Definition line_ok (l : line_text) : Prop :=
  match l with
  | App ds nm features =>
      ds <> [] /\ Forall digit_byte ds /\ nm <> [] /\ Forall word_byte nm /\ Forall plain_byte features /\
      value ds < 2 ^ 31 /\ (length nm < 64)%nat /\ (length ds + length nm < 127)%nat /\ (9 <= length (print_line l) < 2046)%nat
  | Other l =>
      Forall (fun c => c <> 0 /\ c <> 10) l /\ (length l < 2046)%nat /\
      (In 35 l \/ (length l < 9)%nat \/ ~ In 58 l)
  end.

Definition entries (ls : list line_text) : list app_name_info :=
  omap (fun l => match l with App ds nm _ => Some (mkName (value ds) nm) | Other _ => None end) ls.

(** A property of every byte of a printed line. *)
Ltac bytes := repeat (apply Forall_app; split);
  first [ by apply Forall_nil
        | apply Forall_singleton; unfold plain_byte; lia
        | eapply Forall_imp; [eassumption|]; unfold word_byte, plain_byte, digit_byte; cbn; intros; lia ].

Lemma cstr_line l : Forall (fun c => c <> 0) l -> cstr (l ++ [0]) = Some l.
Proof. apply cstr_app. Qed.

Lemma digits_prefix_app ds r : forall n, Forall digit_byte ds -> match r with c :: _ => c < 48 \/ 57 < c | [] => True end ->
  digits_prefix (ds ++ r) n = (fst (digits_prefix ds n), r).
Proof.
  induction ds as [|d ds IH]; intros n Hd Hr; cbn [app digits_prefix].
  - destruct r as [|c r]; [done|]. cbn [digits_prefix]. destruct (Z.leb_spec 48 c), (Z.leb_spec c 57); try done; lia.
  - apply Forall_cons in Hd as [Hd Hds]. unfold digit_byte in Hd. rewrite (proj2 (Z.leb_le 48 d)), (proj2 (Z.leb_le d 57)) by lia. by apply IH.
Qed.

Lemma digit_not_blank d : digit_byte d -> Libc.isspace d = false.
Proof. unfold digit_byte, Libc.isspace. intros. repeat destruct (Z.eqb_spec _ _), (Z.leb_spec _ _); try done; try lia; repeat destruct (Z.leb_spec _ _); try done; lia. Qed.

Lemma scan_d_word ds r : ds <> [] -> Forall digit_byte ds -> match r with c :: _ => c < 48 \/ 57 < c | [] => True end ->
  scan_d (ds ++ r) = Some (value ds, r).
Proof.
  intros Hn Hd Hr. destruct ds as [|d ds]; [done|]. pose proof Hd as [Hd1 _]%Forall_cons.
  unfold scan_d. cbn [app skip_space]. rewrite digit_not_blank by done. cbv zeta. unfold digit_byte in Hd1.
  rewrite (proj2 (Z.eqb_neq d (chr "-"))), (proj2 (Z.eqb_neq d (chr "+"))) by (change (chr "-") with 45; change (chr "+") with 43; lia).
  rewrite (proj2 (Z.leb_le 48 d)), (proj2 (Z.leb_le d 57)) by lia. cbn [andb].
  change (d :: ds ++ r) with ((d :: ds) ++ r). by rewrite digits_prefix_app.
Qed.

(** What follows a word. *)
Definition after_word (r : list Z) : Prop := match r with c :: _ => Libc.isspace c = true | [] => True end.

Lemma span_word_all w r : Forall (fun c => Libc.isspace c = false) w -> after_word r -> span_word (w ++ r) = (w, r).
Proof.
  intros Hw Hr. induction Hw as [|c w Hc _ IH]; cbn [app].
  - destruct r as [|c r]; [done|]. cbn [span_word]. cbn in Hr. by rewrite Hr.
  - cbn [span_word]. by rewrite Hc, IH.
Qed.

Lemma scan_word_blank w r : w <> [] -> Forall (fun c => Libc.isspace c = false) w -> after_word r -> scan_word (32 :: w ++ r) = Some (w, r).
Proof.
  intros Hn Hw Hr. unfold scan_word. cbn [skip_space]. change (Libc.isspace 32) with true. cbv iota.
  destruct w as [|c w]; [done|]. pose proof Hw as [Hc _]%Forall_cons. cbn [app skip_space]. rewrite Hc.
  change (c :: w ++ r) with ((c :: w) ++ r). by rewrite span_word_all.
Qed.

Lemma scan_id_name_printed ds nm r n word : ds <> [] -> Forall digit_byte ds -> nm <> [] -> Forall (fun c => Libc.isspace c = false) nm ->
  (length nm < 64)%nat -> after_word r -> scan_id_name (ds ++ [32] ++ nm ++ r) n word = Some (value ds, nm).
Proof.
  intros. unfold scan_id_name. cbn [app]. rewrite scan_d_word by (done || lia). rewrite scan_word_blank by done.
  by rewrite (proj2 (Nat.ltb_lt _ _)).
Qed.

Lemma before_colon_app a b : Forall (fun c => c <> 58) a -> before_colon (a ++ 58 :: b) = Some a.
Proof.
  induction 1 as [|c a Hc _ IH]; cbn [app before_colon]; [done|]. change (chr ":") with 58. rewrite (proj2 (Z.eqb_neq _ _)) by done. by rewrite IH.
Qed.
Lemma before_colon_none l : ~ In 58 l -> before_colon l = None.
Proof.
  induction l as [|c l IH]; intros Hn; cbn [before_colon]; [done|]. change (chr ":") with 58.
  rewrite (proj2 (Z.eqb_neq _ _)) by (intros ->; apply Hn; by left). rewrite IH; [done|]. intros ?. apply Hn. by right.
Qed.

Lemma no_byte c l : Forall (fun x => x <> c) l -> existsb (Z.eqb c) l = false.
Proof. induction 1 as [|x l Hx _ IH]; cbn [existsb]; [done|]. by rewrite IH, (proj2 (Z.eqb_neq c x)) by congruence. Qed.

Lemma name_line_app junk ds nm features t : line_ok (App ds nm features) -> (length t < MAX_SUPPORT_APP_NUM)%nat ->
  name_line junk (print_line (App ds nm features) ++ [10]) t = Some (t ++ [mkName (value ds) nm]).
Proof.
  intros (Hd1 & Hd & Hn1 & Hn & Hf & _ & Hl & Hl2 & Hlen) Ht. cbn [print_line] in *. unfold name_line.
  assert (Hdp : Forall plain_byte ds) by (eapply Forall_imp; [exact Hd|]; unfold digit_byte, plain_byte; cbn; lia).
  assert (Hnp : Forall plain_byte nm) by (eapply Forall_imp; [exact Hn|]; by intros c [? _]).
  assert (Hall : Forall (fun c => c <> 0 /\ c <> 35) ((ds ++ [32] ++ nm ++ [58] ++ features) ++ [10])).
  { bytes. }
  rewrite cstr_line by (eapply Forall_imp; [exact Hall|]; by intros ? []). cbn [mbind option_bind].
  rewrite no_byte by (eapply Forall_imp; [exact Hall|]; by intros ? []).
  rewrite length_app, (proj2 (Nat.ltb_ge _ _)) by (cbn [length]; lia).
  assert (before_colon ((ds ++ [32] ++ nm ++ [58] ++ features) ++ [10]) = Some (ds ++ [32] ++ nm)) as ->.
  { replace ((ds ++ [32] ++ nm ++ [58] ++ features) ++ [10]) with ((ds ++ [32] ++ nm) ++ 58 :: (features ++ [10])) by list_assoc.
    apply before_colon_app. clear Hdp Hnp. bytes. }
  rewrite (proj2 (Nat.ltb_ge _ _)) by (rewrite !length_app; cbn [length]; lia).
  rewrite <- (app_nil_r nm) at 1. rewrite scan_id_name_printed; try done; [|eapply Forall_imp; [exact Hn|]; by intros c (_ & _ & ?)].
  cbn [mbind option_bind]. by rewrite (proj2 (Nat.leb_gt _ _)).
Qed.

Lemma name_line_other junk l t : line_ok (Other l) -> name_line junk (l ++ [10]) t = Some t.
Proof.
  intros (Hl & Hlen & Hcase). unfold name_line. rewrite cstr_line.
  2: { apply Forall_app. split; [|by repeat constructor]. eapply Forall_imp; [exact Hl|]. by intros ? []. }
  cbn [mbind option_bind]. destruct (existsb _ _) eqn:E; [done|]. rewrite length_app. cbn [length].
  destruct (Nat.ltb_spec (length l + 1) 10); [done|].
  destruct Hcase as [Hi|[Hs|Hn]]; [| lia|].
  - assert (existsb (Z.eqb (chr "#")) (l ++ [10]) = true); [|congruence]. apply existsb_exists. exists 35. split; [|done]. apply in_or_app. by left.
  - rewrite before_colon_none; [done|]. intros [?|[?|[]]]%in_app_or; done.
Qed.

Lemma no_newline l : line_ok l -> Forall (fun c => c <> 10) (print_line l) /\ (length (print_line l) < 2046)%nat.
Proof.
  destruct l as [ds nm features|l].
  - intros (_ & Hd & _ & Hn & Hf & _ & _ & _ & Hlen). split; [|lia]. cbn [print_line].
    bytes.
  - intros (Hl & ? & _). split; [|done]. eapply Forall_imp; [exact Hl|]. by intros ? [].
Qed.

Lemma name_lines_printed junk ls : forall t, Forall line_ok ls -> (length t + length (entries ls) <= MAX_SUPPORT_APP_NUM)%nat ->
  name_lines junk (fgets_all 2048 (print_lines ls)) t = Some (t ++ entries ls).
Proof.
  induction ls as [|l ls IH]; intros t Hok Ht; [by rewrite app_nil_r|].
  apply Forall_cons in Hok as [Hl Hls]. pose proof (no_newline l Hl) as [Hn Hlen].
  unfold print_lines. cbn [map concat]. rewrite fgets_line by (done || lia). cbn [name_lines]. fold (print_lines ls).
  destruct l as [ds nm features|l]; cbn [entries omap list_omap length] in *; fold (entries ls) in *.
  - rewrite name_line_app by (done || lia). cbn [mbind option_bind]. rewrite IH by (rewrite ?length_app; cbn [length]; done || lia). list_assoc.
  - cbn [print_line]. rewrite name_line_other by done. cbn [mbind option_bind]. by rewrite IH.
Qed.

(** ** Class files *)

Definition class_ok (c : list Z * list Z) : Prop :=
  let '(ds, nm) := c in
  ds <> [] /\ Forall digit_byte ds /\ nm <> [] /\ Forall word_byte nm /\ 1 <= value ds <= MAX_APP_TYPE /\
  (length nm < 32)%nat /\ (length ds < 1000)%nat.
Definition print_class (c : list Z * list Z) : list Z := fst c ++ [32] ++ snd c.
Definition print_classes (cs : list (list Z * list Z)) : list Z := concat (map (fun c => print_class c ++ [10]) cs).
Definition set_class (t : list (list Z)) (c : list Z * list Z) : list (list Z) := <[Z.to_nat (value (fst c) - 1) := snd c]> t.

Lemma class_line_printed c n w t : class_ok c -> Z.of_nat (length t) = MAX_APP_TYPE ->
  class_line (print_class c ++ [10]) n w t = Some (value (fst c), snd c, set_class t c).
Proof.
  destruct c as [ds nm]. intros (Hd1 & Hd & Hn1 & Hn & Hv & Hl & _) Ht. unfold class_line, print_class. cbn [fst snd].
  rewrite cstr_line by bytes. cbn [mbind option_bind].
  replace ((ds ++ [32] ++ nm) ++ [10]) with (ds ++ [32] ++ nm ++ [10]) by list_assoc.
  rewrite scan_id_name_printed; try done; [|eapply Forall_imp; [exact Hn|]; by intros c (_ & _ & ?)|lia].
  cbn [mbind option_bind]. rewrite Ht, (proj2 (Z.ltb_ge _ _)), (proj2 (Z.ltb_ge _ _)) by lia. cbn [orb].
  by rewrite (proj2 (Nat.leb_gt _ _)).
Qed.

Lemma class_lines_printed cs : forall n w t k, Forall class_ok cs -> Z.of_nat (length t) = MAX_APP_TYPE ->
  class_lines (fgets_all 2048 (print_classes cs)) n w t k = Some (foldl set_class t cs, k + Z.of_nat (length cs)).
Proof.
  induction cs as [|c cs IH]; intros n w t k Hok Ht; [by rewrite Z.add_0_r|].
  apply Forall_cons in Hok as [Hc Hcs]. unfold print_classes. cbn [map concat]. rewrite fgets_line.
  2: { destruct c as [ds nm]. destruct Hc as (_ & Hd & _ & Hn & _). unfold print_class. cbn [fst snd]. bytes. }
  2: { destruct c as [ds nm]. destruct Hc as (_ & _ & _ & _ & _ & ? & ?). unfold print_class. cbn [fst snd]. rewrite !length_app. cbn [length]. lia. }
  cbn [class_lines]. rewrite class_line_printed by done. cbn [mbind option_bind]. fold (print_classes cs).
  rewrite IH; [|done|by unfold set_class; rewrite length_insert]. cbn [foldl length]. by replace (k + 1 + Z.of_nat (length cs)) with (k + Z.of_nat (S (length cs))) by lia.
Qed.

(** ** What the tables answer *)

Lemma find_name_filter i t : find_name i t = match filter (fun e => id e = i) t with e :: _ => name e | [] => [] end.
Proof.
  induction t as [|e t IH]; [done|]. cbn [find_name]. destruct (Z.eqb_spec i (id e)) as [->|?].
  - by rewrite filter_cons_True.
  - by rewrite filter_cons_False by done.
Qed.

(** After a feature file and a class file within the sizes of the buffers were
    read, an application is given the name of the first line with its number, an
    unknown one the empty name; comments, short lines and lines without a colon
    name nothing; a class has the name of the last line with its number. *)
Theorem names_read junk ls cs ns :
  Forall line_ok ls -> (length (app_name_table ns) + length (entries ls) <= MAX_SUPPORT_APP_NUM)%nat ->
  Forall class_ok cs -> Z.of_nat (length (CLASS_NAME_TABLE ns)) = MAX_APP_TYPE ->
  exists ns1 ns2, init_app_name_table junk (Some (print_lines ls)) ns = Some ns1 /\
    init_app_class_name_table junk (Some (print_classes cs)) ns1 = Some ns2 /\
    (forall i, get_app_name_by_id i ns2
      = match filter (fun e => id e = i) (app_name_table ns ++ entries ls) with e :: _ => name e | [] => [] end) /\
    CLASS_NAME_TABLE ns2 = foldl set_class (CLASS_NAME_TABLE ns) cs /\
    g_cur_class_num ns2 = g_cur_class_num ns + Z.of_nat (length cs).
Proof.
  intros Hls Hlen Hcs Ht. unfold init_app_name_table. rewrite name_lines_printed by done. cbn [mbind option_bind].
  eexists _, _. split; [done|]. unfold init_app_class_name_table. cbn [CLASS_NAME_TABLE app_name_table g_cur_class_num].
  rewrite class_lines_printed by done. cbn [mbind option_bind]. split; [done|]. split; [|done]. intros i. apply find_name_filter.
Qed.

Lemma names_read_witness :
  let ls := [Other (bytes_of "# chat:"); App (bytes_of "1001") (bytes_of "qq") (bytes_of "[tcp;;443;;;]"); Other (bytes_of "1 a:")] in
  let cs := [(bytes_of "1", bytes_of "chat"); (bytes_of "2", bytes_of "game")] in
  exists ns1 ns2, init_app_name_table (fun _ => 7) (Some (print_lines ls)) names0 = Some ns1 /\
    init_app_class_name_table (fun _ => 7) (Some (print_classes cs)) ns1 = Some ns2 /\
    get_app_name_by_id 1001 ns2 = bytes_of "qq" /\ get_app_name_by_id 1 ns2 = [] /\ g_cur_class_num ns2 = 2.
Proof.
  intros ls cs. destruct (names_read (fun _ => 7) ls cs names0) as (ns1 & ns2 & H1 & H2 & Hg & _ & Hn).
  - apply Forall_cons. split; [|apply Forall_cons; split; [|apply Forall_singleton]].
    + split; [repeat constructor; discriminate|]. split; [vm_compute; lia|]. left. by left.
    + split; [discriminate|]. split; [repeat constructor; discriminate|]. split; [discriminate|].
      split; [repeat constructor; discriminate|]. split; [repeat constructor; discriminate|]. split_and!; vm_compute; reflexivity || lia.
    + split; [repeat constructor; discriminate|]. split; [vm_compute; lia|]. right. left. vm_compute. lia.
  - vm_compute. lia.
  - repeat constructor; try discriminate; vm_compute; reflexivity || lia.
  - done.
  - exists ns1, ns2. split; [exact H1|]. split; [exact H2|]. rewrite !Hg. split; [reflexivity|]. split; [reflexivity|exact Hn].
Defined.

End Names.
