(* ===== verification/Ubus.v ===== *)
(** * Ubus: what the daemon answers over ubus

    Models src/open-app-filter/src/appfilter_ubus.c: the four methods, the
    aggregation behind them and the look-up of host names in the lease file.  The
    request comes through json-c ([JsonC] of Devices.v), replies are built by the
    functions of json-c and of libubox, which are the classes [JsonBuild] and
    [Blob]; [qsort] is the class [Qsort].  A reply of [None] is no reply; memory
    that is overrun makes the whole result [None]. *)

From Stdlib Require Import Sorted.
From S2P Require Import Prelude Libc MacTable Devices Names.

Import Libc MacTable Devices Names.

#[local] Arguments Z.eqb : simpl never.
#[local] Arguments Z.ltb : simpl never.

Module Ubus.

Definition MAX_APP_STAT_NUM : nat := 8.
Definition MAX_STAT_APP_NUM : nat := 128.

(** ** Libraries *)

(** Building JSON values. *)
Class JsonBuild := {
  value : Type;
  json_object_new_object : value;
  json_object_new_array : value;
  json_object_new_string : list Z -> value;
  json_object_new_int : Z -> value;
  json_object_object_add : value -> list Z -> value -> value;
  json_object_array_add : value -> value -> value }.

(** Building messages: what is added to a buffer, nested tables and arrays closed
    where they end. *)
Class Blob := {
  blob : Type;
  blob_buf_init : blob;
  blobmsg_add_string : blob -> list Z -> list Z -> blob;
  blobmsg_add_u32 : blob -> list Z -> Z -> blob;
  blobmsg_array : blob -> list Z -> (blob -> option blob) -> option blob;
  blobmsg_table : blob -> (blob -> option blob) -> option blob }.

(** ** Visit times *)

Record app_visit_info := mkApp { app_id : Z; total_time : Z }.
Definition no_app : app_visit_info := mkApp 0 0.
Definition stat_info : Type := Z * list app_visit_info.

(** The number of the application that slot [k] of the statistics belongs to. *)
Definition slot_id (k : nat) : Z := (Z.of_nat k / MAX_APP_ID_NUM + 1) * 1000 + Z.of_nat k mod MAX_APP_ID_NUM + 1.

(** The first of the entries that is below [min]. *)
Fixpoint first_below (min : Z) (l : list app_visit_info) (s : nat) : option nat :=
  match l with
  | [] => None
  | e :: l => if u64 (total_time e) <? min then Some s else first_below min l (S s)
  end.

(** A turn of the loops of [update_app_visit_time_list]; the array keeps [int]s,
    which are compared as [unsigned long long]. *)
Definition visit_time_step (st : nat * list app_visit_info) (slot : nat * Z) : nat * list app_visit_info :=
  let '(num, l) := st in
  let '(k, time) := slot in
  if time =? 0 then st else
  let min := u64 (total_time (default no_app (l !! 0%nat))) in
  let min_index := if (num <? MAX_APP_STAT_NUM)%nat then num else default 0%nat (first_below min l 0) in
  (S num, if u64 (total_time (default no_app (l !! min_index))) <? time
          then <[min_index := mkApp (slot_id k) (s32 time)]> l else l).

(** The slots of the statistics with what they hold, in the order of the loops. *)
Definition slots (n : dev_node) : list (nat * Z) := imap (fun k t => (k, t)) (stat n).

(** [update_app_visit_time_list]: [num] and [visit_list]. *)
Definition update_app_visit_time_list (m : list Z) (s : devs) : nat * list app_visit_info :=
  match find_dev_node m s with
  | None => (0%nat, replicate MAX_APP_STAT_NUM no_app)
  | Some node =>
      let '(num, l) := foldl visit_time_step (0%nat, replicate MAX_APP_STAT_NUM no_app) (slots node) in
      (Nat.min num MAX_APP_STAT_NUM, l)
  end.

(** [visit_time[i] += node->stat[i][j].total_time], an [int]. *)
Definition class_step (t : list Z) (slot : nat * Z) : list Z :=
  let '(k, time) := slot in
  if time =? 0 then t else
  let i := Z.to_nat (Z.of_nat k / MAX_APP_ID_NUM) in
  alter (fun x => s32 (u64 (x + time))) i t.

Definition update_app_class_visit_time_list (m : list Z) (s : devs) : list Z :=
  let visit_time := replicate (Z.to_nat MAX_APP_TYPE) 0 in
  match find_dev_node m s with
  | None => visit_time
  | Some node => foldl class_step visit_time (slots node)
  end.

(** ** The five applications used longest *)

Definition visit_time_compare (a b : app_visit_info) : Z := if total_time a <? total_time b then 1 else -1.

Class Qsort := qsort : (app_visit_info -> app_visit_info -> Z) -> list app_visit_info -> list app_visit_info.

(** What the standard says of [qsort]: the elements stay, and they are in order if
    the comparison is a strict order of them. *)
Class QsortLaws `{Qsort} := {
  qsort_perm cmp l : qsort cmp l ≡ₚ l;
  qsort_sorted cmp l :
    NoDup l -> (forall a b, a ∈ l -> b ∈ l -> a <> b -> cmp a b <> 0 /\ (cmp a b < 0 <-> 0 < cmp b a)) ->
    (forall a b c, a ∈ l -> b ∈ l -> c ∈ l -> a <> b -> b <> c -> a <> c -> cmp a b < 0 -> cmp b c < 0 -> cmp a c < 0) ->
    StronglySorted (fun a b => cmp a b < 0) (qsort cmp l) }.

(** The applications with some time. *)
Definition used (n : dev_node) : list app_visit_info :=
  omap (fun '(k, t) => if t =? 0 then None else Some (mkApp (slot_id k) t)) (slots n).

(** [update_top5_app]: the array has 128 entries. *)
Definition update_top5_app `{Qsort} (n : dev_node) : option (list app_visit_info) :=
  let l := used n in
  if (MAX_STAT_APP_NUM <? length l)%nat then None else
  Some (take 5 (qsort visit_time_compare l ++ replicate (MAX_STAT_APP_NUM - length l) no_app)).

(** ** Host names *)

(** The loop of [get_hostname_by_mac] over the lines of the lease file; the buffer
    of the caller has [size] bytes. *)
Fixpoint lease_loop (lines : list (list Z)) (m hostname : list Z) (size : nat) : option (list Z) :=
  match lines with
  | [] => Some hostname
  | l :: lines =>
      ws ← match scan_word l with
           | None => Some ([], [])
           | Some (_, r) =>
               match scan_word r with
               | None => Some ([], [])
               | Some (mac_buf, r) =>
                   if (32 <=? length mac_buf)%nat then None else
                   match scan_word r with
                   | None => Some (mac_buf, [])
                   | Some (_, r) =>
                       match scan_word r with
                       | None => Some (mac_buf, [])
                       | Some (w, _) => if (128 <=? length w)%nat then None else Some (mac_buf, w)
                       end
                   end
               end
           end;
      let '(mac_buf, hostname_buf) := ws in
      if bool_decide (m = mac_buf)
      then if (size <=? length hostname_buf)%nat then None else lease_loop lines m hostname_buf size
      else lease_loop lines m hostname size
  end.
Definition get_hostname_by_mac (leases : option (list (list Z))) (m : list Z) (size : nat) : option (list Z) :=
  match leases with None => Some [] | Some lines => lease_loop lines m [] size end.

Section Replies.
Context `{JsonC} `{JsonBuild} `{Blob} `{Qsort} (ns : names) (leases : option (list (list Z))).

(** [json_object_object_add] of several members, in order. *)
Definition with_members (o : value) (kvs : list (string * value)) : value :=
  foldl (fun o '(k, v) => json_object_object_add o (bytes_of k) v) o kvs.

(** ** The methods *)

(** The array of the applications: up to the first entry without a number. *)
Fixpoint app_array (l : list app_visit_info) (a : value) : value :=
  match l with
  | [] => a
  | e :: l =>
      if app_id e =? 0 then a else
      app_array l (json_object_array_add a
        (with_members json_object_new_object
          [("id"%string, json_object_new_int (app_id e)); ("name"%string, json_object_new_string (get_app_name_by_id (app_id e) ns))]))
  end.

(** The object of a device; the buffer for the host name has 128 bytes in the loop
    over the devices that are online and 32 in the other. *)
Definition dev_object (n : dev_node) : option value :=
  top5_app_list ← update_top5_app n;
  let apps := app_array top5_app_list json_object_new_array in
  m ← field MAX_MAC_LEN (mac n);
  hostname ← get_hostname_by_mac leases m (if online n then 128 else 32);
  a ← field MAX_IP_LEN (ip n);
  Some (with_members json_object_new_object
    [("applist"%string, apps); ("mac"%string, json_object_new_string m); ("ip"%string, json_object_new_string a);
     ("online"%string, json_object_new_int (if online n then 1 else 0)); ("hostname"%string, json_object_new_string hostname);
     ("latest_app"%string, json_object_new_string (bytes_of "test"))]).

(** A loop over the devices with this status: the array, the count and whether the
    end was jumped to. *)
Fixpoint dev_loop (on : bool) (l : list dev_node) (dev_array : value) (count : Z) : option (value * Z * bool) :=
  match l with
  | [] => Some (dev_array, count, false)
  | n :: l =>
      if negb (Bool.eqb (online n) on) then dev_loop on l dev_array count else
      o ← dev_object n;
      let dev_array := json_object_array_add dev_array o in
      let count := count + 1 in
      if MAX_SUPPORT_DEV_NUM <=? count then Some (dev_array, count, true) else dev_loop on l dev_array count
  end.

Definition appfilter_handle_dev_list (s : devs) : option value :=
  '(dev_array, count, stop) ← dev_loop true (devices s) json_object_new_array 0;
  '(dev_array, _, _) ← (if stop : bool then Some (dev_array, count, true) else dev_loop false (devices s) dev_array count);
  Some (with_members json_object_new_object [("devlist"%string, dev_array)]).

(** The string under "mac" in a request, which is given as its JSON text. *)
Definition request_mac (msg : list Z) : option (list Z) :=
  json_object_get_string <$> json_object_object_get (json_tokener_parse msg) (bytes_of "mac").

(** The array is filled behind its being added to the reply, which holds it. *)
Definition appfilter_handle_visit_time (msg : option (list Z)) (s : devs) : option value :=
  msg ← msg;
  m ← request_mac msg;
  let '(num, visit_list) := update_app_visit_time_list m s in
  let app_info_array :=
    foldl (fun a e => json_object_array_add a
             (with_members json_object_new_object
               [("app_id"%string, json_object_new_string (get_app_name_by_id (app_id e) ns));
                ("visit_time"%string, json_object_new_int (total_time e))]))
      json_object_new_array (take num visit_list) in
  Some (with_members json_object_new_object [("app_list"%string, app_info_array)]).

(** Class [i], as long as there are classes. *)
Fixpoint class_array (l : list (list Z * Z)) (i : Z) (a : value) : value :=
  match l with
  | [] => a
  | (cname, t) :: l =>
      if g_cur_class_num ns <=? i then a else
      class_array l (i + 1) (json_object_array_add a
        (with_members json_object_new_object
          [("type"%string, json_object_new_int i); ("name"%string, json_object_new_string cname);
           ("visit_time"%string, json_object_new_int t)]))
  end.

Definition handle_app_class_visit_time (msg : option (list Z)) (s : devs) : option value :=
  msg ← msg;
  m ← request_mac msg;
  let times := update_app_class_visit_time_list m s in
  Some (with_members json_object_new_object
    [("class_list"%string, class_array (zip (CLASS_NAME_TABLE ns) times) 0 json_object_new_array)]).

(** The table of a visit. *)
Definition visit_table (b : blob) (v : visit_info) : option blob :=
  blobmsg_table b (fun b =>
    let b := blobmsg_add_string b (bytes_of "appname") (bytes_of "unknown") in
    let b := blobmsg_add_u32 b (bytes_of "appid") (appid v) in
    let b := blobmsg_add_u32 b (bytes_of "latest_action") (action v) in
    let b := blobmsg_add_u32 b (bytes_of "first_time") (first_time v) in
    Some (blobmsg_add_u32 b (bytes_of "latest_time") (latest_time v))).

Fixpoint each {A} (f : blob -> A -> option blob) (b : blob) (l : list A) : option blob :=
  match l with [] => Some b | x :: l => b ← f b x; each f b l end.

Definition dev_table (b : blob) (n : dev_node) : option blob :=
  blobmsg_table b (fun b =>
    let b := blobmsg_add_string b (bytes_of "hostname") (bytes_of "unknown") in
    m ← field MAX_MAC_LEN (mac n);
    let b := blobmsg_add_string b (bytes_of "mac") m in
    a ← field MAX_IP_LEN (ip n);
    let b := blobmsg_add_string b (bytes_of "ip") a in
    blobmsg_array b (bytes_of "visit_info") (fun b => each visit_table b (concat (visit_htable n)))).

(** [ubus_dump_visit_list]: of all devices, or of the ones with this MAC. *)
Definition ubus_dump_visit_list (b : blob) (m : option (list Z)) (s : devs) : option blob :=
  blobmsg_array b (bytes_of "dev_list") (fun b =>
    each (fun b n =>
            match m with
            | Some m => k ← field MAX_MAC_LEN (mac n); if bool_decide (m = k) then dev_table b n else Some b
            | None => dev_table b n
            end) b (devices s)).

(** The reply, if there is one. *)
Definition appfilter_handle_visit_list (msg : option (list Z)) (s : devs) : option (option blob) :=
  match msg with
  | None => Some None
  | Some msg => Some <$> ubus_dump_visit_list blob_buf_init (request_mac msg) s
  end.
End Replies.

(** ** Visit times *)

Definition time_ok (t : Z) : Prop := 0 <= t < 2 ^ 31.

Definition used_of (l : list (nat * Z)) : list app_visit_info :=
  omap (fun '(k, t) => if t =? 0 then None else Some (mkApp (slot_id k) t)) l.

Lemma used_of_app a b : used_of (a ++ b) = used_of a ++ used_of b.
Proof. apply omap_app. Qed.

Lemma used_time_ok l : Forall (fun s => time_ok (snd s)) l -> Forall (fun e => 0 < total_time e < 2 ^ 31) (used_of l).
Proof.
  induction 1 as [|[k t] l Ht _ IH]; [constructor|]. unfold used_of. cbn [omap list_omap]. fold (used_of l). cbn in Ht. unfold time_ok in Ht.
  destruct (Z.eqb_spec t 0); [done|]. constructor; [cbn; lia|done].
Qed.

Lemma first_below_lt min l : forall s i, first_below min l s = Some i -> (s <= i < s + length l)%nat.
Proof.
  induction l as [|e l IH]; intros s i Hf; cbn [first_below] in Hf; [done|]. cbn [length].
  destruct (_ <? min); [injection Hf as <-; lia|]. apply IH in Hf. lia.
Qed.

(** What the array holds of the applications so far: all of them while there is
    room; then some of them, each of the others outweighed by one that is kept. *)
Definition ranked (u : list app_visit_info) (st : nat * list app_visit_info) : Prop :=
  let '(num, l) := st in
  num = length u /\ length l = MAX_APP_STAT_NUM /\
  if (num <=? MAX_APP_STAT_NUM)%nat then l = u ++ replicate (MAX_APP_STAT_NUM - num) no_app
  else exists rest, u ≡ₚ l ++ rest /\ Forall (fun r => exists e, e ∈ l /\ total_time r <= total_time e) rest.

Lemma total_u64 t : time_ok t -> u64 t = t.
Proof. unfold time_ok. intros. apply u64_id. lia. Qed.

Lemma ranked_kept u num l : ranked u (num, l) -> (MAX_APP_STAT_NUM <= num)%nat ->
  exists rest, u ≡ₚ l ++ rest /\ Forall (fun r => exists e, e ∈ l /\ total_time r <= total_time e) rest.
Proof.
  intros (Hn & Hl & Hr) Hm. destruct (Nat.leb_spec num MAX_APP_STAT_NUM).
  - exists []. assert (MAX_APP_STAT_NUM - num = 0)%nat as E by lia. rewrite E, app_nil_r in Hr. subst l. by rewrite app_nil_r.
  - done.
Qed.

Lemma ranked_step u st k t : ranked u st -> Forall (fun e => 0 < total_time e < 2 ^ 31) u -> time_ok t ->
  ranked (u ++ used_of [(k, t)]) (visit_time_step st (k, t)).
Proof.
  destruct st as [num l]. intros Hr Hu Ht. unfold visit_time_step, used_of. cbn [omap list_omap].
  destruct (Z.eqb_spec t 0) as [->|Hz]; [by rewrite app_nil_r|]. unfold time_ok in Ht.
  set (e := mkApp (slot_id k) (s32 t)). replace (mkApp (slot_id k) t) with e by (unfold e; f_equal; apply s32_id; lia).
  assert (total_time e = t) as He by (cbn; apply s32_id; lia).
  destruct (Nat.ltb_spec num MAX_APP_STAT_NUM) as [Hlt|Hge].
  - destruct Hr as (Hn & Hl & Hr). rewrite (proj2 (Nat.leb_le _ _)) in Hr by lia.
    replace (MAX_APP_STAT_NUM - num)%nat with (S (MAX_APP_STAT_NUM - S num)) in Hr by lia. cbn [replicate] in Hr.
    assert (l !! num = Some no_app) as Hno by (rewrite Hr, Hn; by rewrite list_lookup_middle).
    rewrite Hno. change (u64 (total_time (default no_app (Some no_app)))) with 0. rewrite (proj2 (Z.ltb_lt _ _)) by lia.
    unfold ranked. rewrite length_app, length_insert. cbn [length]. split; [lia|]. split; [done|].
    rewrite (proj2 (Nat.leb_le _ _)) by lia. rewrite Hr, Hn, insert_app_r_alt, Nat.sub_diag by lia. cbn [insert list_insert].
    rewrite <- app_assoc. by rewrite Nat.add_1_r || done.
  - destruct (ranked_kept _ _ _ Hr Hge) as (rest & Hp & Hrest). destruct Hr as (Hn & Hl & _).
    set (i := default 0%nat (first_below _ l 0)).
    assert (i < length l)%nat as Hi.
    { unfold i. destruct (first_below _ l 0) eqn:E; cbn; [apply first_below_lt in E; lia|]. rewrite Hl. unfold MAX_APP_STAT_NUM. lia. }
    destruct (lookup_lt_is_Some_2 _ _ Hi) as [x Hx]. rewrite Hx. change (default no_app (Some x)) with x.
    assert (0 < total_time x < 2 ^ 31) as Hxt.
    { rewrite Forall_forall in Hu. apply Hu. rewrite Hp. apply elem_of_app. left. by eapply list_elem_of_lookup_2. }
    rewrite u64_id by lia. unfold ranked. rewrite length_app. cbn [length]. split; [lia|]. split; [by destruct (_ <? t); rewrite ?length_insert|].
    rewrite (proj2 (Nat.leb_gt _ _)) by lia. destruct (Z.ltb_spec (total_time x) t) as [Hlt|Hle].
    + exists (x :: rest). rewrite <- (take_drop_middle _ _ _ Hx) in Hp |- *. rewrite insert_app_r_alt by (rewrite length_take; lia).
      rewrite length_take, Nat.min_l, Nat.sub_diag by lia. cbn [insert list_insert]. split.
      { rewrite Hp. solve_Permutation. }
      constructor; [exists e; split; [set_solver|lia]|]. eapply Forall_imp; [exact Hrest|]. intros r (w & Hw & Hle).
      rewrite <- (take_drop_middle _ _ _ Hx) in Hw. apply elem_of_app in Hw as [Hw|Hw]; [exists w; split; [set_solver|done]|].
      apply elem_of_cons in Hw as [->|Hw]; [exists e; split; [set_solver|lia]|exists w; split; [set_solver|done]].
    + exists (e :: rest). split; [rewrite Hp; solve_Permutation|]. constructor; [|done]. exists x. split; [by eapply list_elem_of_lookup_2|lia].
Qed.

Lemma ranked_all l : forall u st, ranked u st -> Forall (fun e => 0 < total_time e < 2 ^ 31) u -> Forall (fun s => time_ok (snd s)) l ->
  ranked (u ++ used_of l) (foldl visit_time_step st l).
Proof.
  induction l as [|[k t] l IH]; intros u st Hr Hu Hl; cbn [foldl]; [by rewrite app_nil_r|].
  apply Forall_cons in Hl as [Ht Hl]. change ((k, t) :: l) with ([(k, t)] ++ l). rewrite used_of_app, app_assoc. apply IH; [|..|done].
  - by apply ranked_step.
  - apply Forall_app. split; [done|]. apply used_time_ok. by constructor.
Qed.

Lemma slots_time_ok n : Forall time_ok (stat n) -> Forall (fun s => time_ok (snd s)) (slots n).
Proof.
  intros Hs. apply Forall_lookup. intros i [k t] Hi. unfold slots in Hi. rewrite list_lookup_imap in Hi.
  destruct (stat n !! i) as [x|] eqn:E; [|done]. injection Hi as <- <-. cbn. rewrite Forall_lookup in Hs. by eapply Hs.
Qed.

(** C33: the times the daemon answers for a device are times of applications used on
    it, of each at most once and of eight at most; all are there if there are no
    more than eight, in the order of their numbers, and in any case one that was
    used longest. *)
Theorem visit_times_listed m s node :
  find_dev_node m s = Some node -> Forall time_ok (stat node) ->
  let u := used node in
  let '(num, l) := update_app_visit_time_list m s in
  num = Nat.min (length u) MAX_APP_STAT_NUM /\
  ((length u <= MAX_APP_STAT_NUM)%nat -> take num l = u) /\
  exists rest, u ≡ₚ take num l ++ rest /\ Forall (fun r => exists e, e ∈ take num l /\ total_time r <= total_time e) rest.
Proof.
  intros Hf Ht u. unfold update_app_visit_time_list. rewrite Hf.
  pose proof (ranked_all (slots node) [] (0%nat, replicate MAX_APP_STAT_NUM no_app) ltac:(done) ltac:(constructor) (slots_time_ok _ Ht)) as Hr.
  cbn [app] in Hr. change (used_of (slots node)) with u in Hr. destruct (foldl _ _ _) as [num l].
  pose proof Hr as (Hn & Hl & Hc). split; [by rewrite Hn|]. destruct (Nat.leb_spec num MAX_APP_STAT_NUM).
  - assert (take (num `min` MAX_APP_STAT_NUM) l = u) as E by (rewrite Nat.min_l, Hc, Hn by done; apply take_app_length).
    rewrite E. split; [done|]. exists []. by rewrite app_nil_r.
  - split; [intros; lia|]. rewrite take_ge by lia. done.
Qed.

(** A longer time can be dropped for a shorter one: the entry that is given up is
    the first below the first. *)
Definition node_with (ts : list Z) : dev_node :=
  mkDev (bytes_of "m") [] [] true false 0 0 [] (ts ++ replicate (2048 - length ts) 0).
Lemma longer_time_dropped :
  foldl visit_time_step (0%nat, replicate MAX_APP_STAT_NUM no_app) (slots (node_with [50; 40; 10; 10; 10; 10; 10; 10; 45]))
  = (9%nat, [mkApp 1001 50; mkApp 1009 45] ++ map (fun i => mkApp i 10) [1003; 1004; 1005; 1006; 1007; 1008]).
Proof. vm_compute. reflexivity. Qed.

(** ** Times of the classes *)

Definition row (i : nat) (st : list Z) : list Z := take 128 (drop (128 * i) st).
Definition zsum (l : list Z) : Z := foldr Z.add 0 l.

Lemma s32_step x t : 0 <= t -> s32 (u64 (s32 x + t)) = s32 (x + t).
Proof.
  intros Ht. unfold s32, sgn, u64. change (32 - 1) with 31.
  assert (forall z, (z mod 2 ^ 64) mod 2 ^ 32 = z mod 2 ^ 32) as Hm.
  { intros z. rewrite <- Znumtheory.Zmod_div_mod; [done|lia|lia|]. by exists (2 ^ 32). }
  cbv zeta. rewrite Hm.
  assert ((((if x mod 2 ^ 32 <? 2 ^ 31 then x mod 2 ^ 32 else x mod 2 ^ 32 - 2 ^ 32) + t) mod 2 ^ 32) = (x + t) mod 2 ^ 32) as ->; [|done].
  destruct (_ <? _).
  - by rewrite Zplus_mod_idemp_l.
  - replace (x mod 2 ^ 32 - 2 ^ 32 + t) with (x mod 2 ^ 32 + t + (-1) * 2 ^ 32) by lia. rewrite Z.mod_add by lia. by rewrite Zplus_mod_idemp_l.
Qed.

Lemma class_fold_row k0 l : forall t i x, Forall (fun v => 0 <= v) l -> t !! i = Some (s32 x) ->
  (forall j, (j < length l)%nat -> Z.to_nat (Z.of_nat (k0 + j) / MAX_APP_ID_NUM) = i) ->
  foldl class_step t (imap (fun j v => ((k0 + j)%nat, v)) l) = <[i := s32 (x + zsum l)]> t.
Proof.
  revert k0. induction l as [|v l IH]; intros k0 t i x Hl Ht Hk; cbn [imap foldl zsum foldr].
  - rewrite Z.add_0_r. by rewrite list_insert_id.
  - apply Forall_cons in Hl as [Hv Hl]. cbn [imap foldl].
    assert (class_step t ((k0 + 0)%nat, v) = <[i := s32 (x + v)]> t) as ->.
    { unfold class_step. destruct (Z.eqb_spec v 0) as [->|_]; [by rewrite Z.add_0_r, list_insert_id|].
      rewrite (Hk 0%nat) by (cbn; lia). apply list_eq. intros j. destruct (decide (i = j)) as [<-|Hj].
      - rewrite list_lookup_alter, decide_True, Ht, list_lookup_insert_eq by (done || by eapply lookup_lt_Some). cbn. f_equal. by apply s32_step.
      - by rewrite list_lookup_alter, decide_False, list_lookup_insert_ne by done. }
    assert (imap ((fun j v => ((k0 + j)%nat, v)) ∘ S) l = imap (fun j v => ((S k0 + j)%nat, v)) l) as ->.
    { apply imap_ext. intros j y _. cbn. f_equal. lia. }
    rewrite (IH (S k0) _ i (x + v)); [|done| |].
    + rewrite list_insert_insert_eq. fold (zsum l). by rewrite Z.add_assoc.
    + apply list_lookup_insert_eq. by eapply lookup_lt_Some.
    + intros j Hj. rewrite <- (Hk (S j)) by (cbn; lia). do 3 f_equal. lia.
Qed.

Lemma class_fold_rows n : forall r a l, length a = r -> length l = (128 * n)%nat -> Forall (fun v => 0 <= v) l ->
  foldl class_step (a ++ replicate n 0) (imap (fun j v => ((128 * r + j)%nat, v)) l)
  = a ++ map (fun i => s32 (zsum (row i l))) (seq 0 n).
Proof.
  induction n as [|n IH]; intros r a l Ha Hn Hl; [destruct l; [done|cbn in Hn; lia]|].
  rewrite <- (take_drop 128 l) at 1. rewrite imap_app, foldl_app.
  pose proof Hl as Hl'. rewrite <- (take_drop 128 l) in Hl'. apply Forall_app in Hl' as [Hl1 Hl2].
  assert (length (take 128 l) = 128%nat) as Ht by (rewrite length_take; lia).
  rewrite (class_fold_row (128 * r) (take 128 l) _ r 0); [|done| |].
  2: { cbn [replicate]. by rewrite list_lookup_middle. }
  2: { intros j Hj. rewrite Ht in Hj. unfold MAX_APP_ID_NUM. apply Nat2Z.inj. rewrite Z2Nat.id by (apply Z.div_pos; lia).
       symmetry. apply (Z.div_unique _ _ _ (Z.of_nat j)); lia. }
  cbn [replicate]. rewrite insert_app_r_alt, <- Ha, Nat.sub_diag by lia. cbn [insert list_insert].
  change (s32 (0 + zsum (take 128 l)) :: replicate n 0) with ([s32 (0 + zsum (take 128 l))] ++ replicate n 0). rewrite app_assoc.
  replace (imap _ (drop 128 l)) with (imap (fun j v => ((128 * S r + j)%nat, v)) (drop 128 l)).
  2: { apply imap_ext. intros j v _. cbn. f_equal. rewrite Ht. lia. }
  rewrite IH; [|rewrite length_app; cbn; lia|rewrite length_drop; lia|done].
  rewrite <- app_assoc. f_equal. cbn [seq map app]. f_equal. rewrite <- seq_shift, map_map. apply map_ext. intros i. unfold row.
  rewrite drop_drop. do 5 f_equal. lia.
Qed.

(** The time of a class is the sum of the times of its applications, as an [int]. *)
Lemma class_times m s node : find_dev_node m s = Some node -> length (stat node) = 2048%nat -> Forall (fun v => 0 <= v) (stat node) ->
  update_app_class_visit_time_list m s = map (fun i => s32 (zsum (row i (stat node)))) (seq 0 16).
Proof.
  intros Hf Hn Hl. unfold update_app_class_visit_time_list. rewrite Hf. exact (class_fold_rows 16 0 [] (stat node) eq_refl Hn Hl).
Qed.

(** ** The longest *)

Lemma used_all n : used n = used_of (slots n).
Proof. done. Qed.

Lemma NoDup_times (u : list app_visit_info) : NoDup (map total_time u) -> NoDup u.
Proof. apply NoDup_fmap_1. Qed.

Lemma times_differ u a b : NoDup (map total_time u) -> a ∈ u -> b ∈ u -> a <> b -> total_time a <> total_time b.
Proof.
  intros Hu [i Ha]%list_elem_of_lookup_1 [j Hb]%list_elem_of_lookup_1 Hab Ht. apply Hab.
  assert (i = j) as ->; [|congruence]. eapply (NoDup_lookup (map total_time u) i j (total_time a)); [done| |]; rewrite list_lookup_fmap.
  - by rewrite Ha.
  - by rewrite Hb, Ht.
Qed.

(** With times that differ, the five applications a device is listed with are
    the five used longest, the longest first, and entries without a number where
    there are less than five; with more than 128 applications the array of the
    function is overrun. *)
Theorem top5_longest `{QsortLaws} n :
  NoDup (map total_time (used n)) ->
  if (128 <? length (used n))%nat then update_top5_app n = None
  else exists l, l ≡ₚ used n /\ StronglySorted (fun a b => total_time b < total_time a) l /\
    update_top5_app n = Some (take 5 (l ++ replicate (128 - length (used n)) no_app)).
Proof.
  intros Hd. unfold update_top5_app. change MAX_STAT_APP_NUM with 128%nat. destruct (_ <? _)%nat; [done|].
  exists (qsort visit_time_compare (used n)). split; [apply qsort_perm|]. split; [|done].
  assert (Hc : forall a b, a ∈ used n -> b ∈ used n -> a <> b -> visit_time_compare a b < 0 <-> total_time b < total_time a).
  { intros a b Ha Hb Hab. pose proof (times_differ _ _ _ Hd Ha Hb Hab). unfold visit_time_compare. destruct (Z.ltb_spec (total_time a) (total_time b)); lia. }
  assert (StronglySorted (fun a b => visit_time_compare a b < 0) (qsort visit_time_compare (used n))) as Hs.
  { apply qsort_sorted; [by apply NoDup_times| |].
    - intros a b Ha Hb Hab. rewrite Hc by done. pose proof (times_differ _ _ _ Hd Ha Hb Hab). unfold visit_time_compare.
      destruct (Z.ltb_spec (total_time b) (total_time a)), (Z.ltb_spec (total_time a) (total_time b)); lia.
    - intros a b c Ha Hb Hc' Hab Hbc Hac. rewrite !Hc by done. lia. }
  pose proof (qsort_perm visit_time_compare (used n)) as Hp.
  assert (NoDup (qsort visit_time_compare (used n))) as Hn by (rewrite Hp; by apply NoDup_times).
  assert (Hsub : Forall (fun a => a ∈ used n) (qsort visit_time_compare (used n))).
  { apply Forall_forall. intros a Ha. by rewrite <- Hp. }
  clear Hp. revert Hs Hn Hsub. generalize (qsort visit_time_compare (used n)) as l. induction l as [|a l IH]; intros Hs Hn Hsub; constructor.
  - apply StronglySorted_inv in Hs as [Hs _]. apply NoDup_cons in Hn as [_ Hn]. apply Forall_cons in Hsub as [_ Hsub]. by apply IH.
  - apply StronglySorted_inv in Hs as [_ Hs]. apply NoDup_cons in Hn as [Hna _]. apply Forall_cons in Hsub as [Ha Hsub].
    apply List.Forall_forall. intros b Hb%list_elem_of_In. rewrite Forall_forall in Hs, Hsub. apply Hc; [done|by apply Hsub|by intros ->|]. by apply Hs.
Qed.

(** ** The list of devices *)

Section DeviceList.
Context `{JsonC} `{JsonBuild} `{Qsort} (ns : names) (leases : option (list (list Z))).
Notation dev_object := (dev_object ns leases).
Notation dev_loop := (dev_loop ns leases).
Notation appfilter_handle_dev_list := (appfilter_handle_dev_list ns leases).

Lemma dev_loop_spec on l : forall a c, 0 <= c < 64 ->
  let ds := take (Z.to_nat (64 - c)) (filter (fun n => online n = on) l) in
  dev_loop on l a c
  = (fun os => (foldl json_object_array_add a os, c + Z.of_nat (length ds), bool_decide (64 <= c + Z.of_nat (length ds)))) <$> mapM dev_object ds.
Proof.
  induction l as [|n l IH]; intros a c Hc ds; subst ds; cbn [Ubus.dev_loop].
  - cbn. rewrite take_nil. cbn. rewrite Z.add_0_r, bool_decide_eq_false_2 by lia. done.
  - destruct (Bool.eqb (online n) on) eqn:E; cbn [negb].
    + apply Bool.eqb_prop in E. rewrite filter_cons_True by done.
      replace (Z.to_nat (64 - c)) with (S (Z.to_nat (64 - (c + 1)))) by lia. cbn [take mapM length].
      destruct (dev_object n) as [o|]; cbn [mbind option_bind fmap option_fmap option_map]; [|done].
      change MAX_SUPPORT_DEV_NUM with 64. destruct (Z.leb_spec 64 (c + 1)) as [Hle|Hlt].
      * assert (c = 63) as -> by lia. cbn [Z.to_nat take mapM length]. cbn. by rewrite bool_decide_eq_true_2 by lia.
      * rewrite IH by lia. destruct (mapM dev_object _) as [os|]; cbn [mbind option_bind fmap option_fmap option_map]; [|done].
        cbn [foldl length]. match goal with |- context [length (take ?a ?b)] => generalize (length (take a b)) end. intros k.
        by replace (c + 1 + Z.of_nat k) with (c + Z.of_nat (S k)) by lia.
    + apply Bool.eqb_false_iff in E. rewrite filter_cons_False by done. by apply IH.
Qed.

Lemma mapM_appended {A B} (f : A -> option B) a b :
  mapM f (a ++ b) = (xs ← mapM f a; ys ← mapM f b; Some (xs ++ ys)).
Proof.
  induction a as [|x a IH]; cbn [app mapM mbind option_bind].
  - by destruct (mapM f b).
  - destruct (f x); cbn [mbind option_bind]; [|done]. rewrite IH. destruct (mapM f a); cbn [mbind option_bind]; [|done].
    by destruct (mapM f b).
Qed.

(** C32: the reply to dev_list holds the devices that are online and then the others,
    each group in the order of the table and each device once, up to 64 in all,
    with what [dev_object] says of each; nothing else. *)
Theorem dev_list_complete s :
  appfilter_handle_dev_list s
  = (fun os => with_members json_object_new_object [("devlist"%string, foldl json_object_array_add json_object_new_array os)])
    <$> mapM dev_object (take 64 (filter (fun n => online n = true) (devices s) ++ filter (fun n => online n = false) (devices s))).
Proof.
  unfold Ubus.appfilter_handle_dev_list. rewrite dev_loop_spec by lia. change (Z.to_nat (64 - 0)) with 64%nat.
  set (p := filter (fun n => online n = true) (devices s)). set (q := filter (fun n => online n = false) (devices s)).
  rewrite take_app, mapM_appended. destruct (mapM dev_object (take 64 p)) as [os|] eqn:E; cbn [mbind option_bind fmap option_fmap option_map]; [|done].
  rewrite length_take. case_bool_decide as Hb.
  - replace (64 - length p)%nat with 0%nat by lia. change (mapM dev_object (take 0 q)) with (Some (@nil value)). cbn [mbind option_bind fmap option_fmap option_map]. by rewrite app_nil_r.
  - rewrite dev_loop_spec by lia. replace (Z.to_nat (64 - (0 + Z.of_nat (64 `min` length p)))) with (64 - length p)%nat by lia.
    fold q. destruct (mapM dev_object (take (64 - length p) q)) as [os'|]; cbn [mbind option_bind fmap option_fmap option_map]; [|done].
    by rewrite foldl_app.
Qed.
End DeviceList.

(** ** Concrete sorting and devices *)

Fixpoint insert_by (cmp : app_visit_info -> app_visit_info -> Z) (x : app_visit_info) (l : list app_visit_info) : list app_visit_info :=
  match l with
  | [] => [x]
  | y :: l => if cmp x y <? 0 then x :: y :: l else y :: insert_by cmp x l
  end.
#[export] Instance insertion_sort : Qsort := fun cmp => foldr (insert_by cmp) [].

Lemma insert_by_perm cmp x l : insert_by cmp x l ≡ₚ x :: l.
Proof. induction l as [|y l IH]; cbn [insert_by]; [done|]. destruct (_ <? _); [done|]. rewrite IH. solve_Permutation. Qed.

Lemma insertion_perm cmp l : insertion_sort cmp l ≡ₚ l.
Proof. induction l as [|x l IH]; [done|]. cbn. rewrite insert_by_perm. by rewrite IH. Qed.

Lemma insert_by_sorted (cmp : app_visit_info -> app_visit_info -> Z) x l :
  StronglySorted (fun a b => cmp a b < 0) l ->
  Forall (fun y => cmp x y < 0 \/ cmp y x < 0) l ->
  (forall a b, a ∈ l -> b ∈ l -> a <> b -> cmp x a < 0 -> cmp a b < 0 -> cmp x b < 0) -> NoDup l ->
  StronglySorted (fun a b => cmp a b < 0) (insert_by cmp x l).
Proof.
  induction l as [|y l IH]; intros Hs Hx Ht Hn; cbn [insert_by]; [by repeat constructor|].
  apply StronglySorted_inv in Hs as [Hs Hy]. apply Forall_cons in Hx as [Hxy Hx]. apply NoDup_cons in Hn as [Hyl Hn].
  destruct (Z.ltb_spec (cmp x y) 0) as [Hlt|Hge].
  - constructor; [by constructor|]. constructor; [done|]. apply List.Forall_forall. intros b Hb%list_elem_of_In.
    apply (Ht y b); [set_solver|set_solver|by intros ->|done|]. rewrite Forall_forall in Hy. by apply Hy.
  - constructor.
    + apply IH; [done|done| |done]. intros a b Ha Hb. apply Ht; set_solver.
    + apply List.Forall_forall. intros b Hb%list_elem_of_In. rewrite insert_by_perm in Hb. apply elem_of_cons in Hb as [->|Hb]; [lia|].
      rewrite Forall_forall in Hy. by apply Hy.
Qed.

#[export] Instance insertion_sort_laws : QsortLaws.
Proof.
  split; [exact insertion_perm|]. intros cmp l. induction l as [|x l IH]; intros Hn Hc Ht; [constructor|].
  apply NoDup_cons in Hn as [Hx Hn]. change (qsort cmp (x :: l)) with (insert_by cmp x (qsort cmp l)).
  assert (Hp : qsort cmp l ≡ₚ l) by apply insertion_perm. apply insert_by_sorted.
  - apply IH; [done|intros; apply Hc; set_solver|]. intros a b c Ha Hb Hc'. apply Ht; set_solver.
  - apply Forall_forall. intros y Hy. rewrite Hp in Hy. destruct (Hc x y); [set_solver..|by intros ->|]. destruct (Hc y x); [set_solver..|by intros ->|]. lia.
  - intros a b Ha Hb Hab. rewrite Hp in Ha, Hb. apply Ht; set_solver.
  - by rewrite Hp.
Defined.

Lemma top5_longest_witness :
  exists l, l ≡ₚ used (node_with [3; 0; 9; 1; 4; 7; 6]) /\ StronglySorted (fun a b => total_time b < total_time a) l /\
    update_top5_app (node_with [3; 0; 9; 1; 4; 7; 6]) = Some (take 5 (l ++ replicate (128 - 6) no_app)).
Proof.
  pose proof (top5_longest (node_with [3; 0; 9; 1; 4; 7; 6])) as H.
  assert (length (used (node_with [3; 0; 9; 1; 4; 7; 6])) = 6%nat) as E by (vm_compute; reflexivity).
  rewrite E in H. apply H. refine (bool_decide_unpack _ _). vm_compute. exact I.
Defined.

Definition devs_with (n : dev_node) : devs := mkDevs (tbl_add (replicate 64 []) n) 1.

Lemma visit_times_listed_witness :
  let n := node_with [3; 0; 9; 1] in
  let '(num, l) := update_app_visit_time_list (bytes_of "m") (devs_with n) in
  num = 3%nat /\ take num l = [mkApp 1001 3; mkApp 1003 9; mkApp 1004 1].
Proof.
  intros n. pose proof (visit_times_listed (bytes_of "m") (devs_with n) n) as H. cbv zeta in H.
  assert (used n = [mkApp 1001 3; mkApp 1003 9; mkApp 1004 1]) as E by (vm_compute; reflexivity). rewrite E in H.
  destruct (update_app_visit_time_list _ _) as [num l]. destruct H as (H1 & H2 & _).
  - vm_compute. reflexivity.
  - refine (bool_decide_unpack _ _). vm_compute. exact I.
  - split; [exact H1|]. apply H2. cbn. unfold MAX_APP_STAT_NUM. lia.
Defined.

End Ubus.
