(* ===== verification/Lmo.v ===== *)
(** * Lmo: translation catalogues

    Models tools/po2lmo/src/template_lmo.c of luci-app-autorepeater (the file is
    the same under tools/lmotool): the hash of a string, opening an archive,
    looking a key up and the list of loaded catalogues with the active one.  A
    catalogue object lives at an address; the chain of catalogues and the active
    pointer hold addresses, and a freed catalogue is no longer in the store. *)

From stdpp Require Import sorting.
From S2P Require Import Prelude Libc.

Import Libc.

Module Lmo.

(** ** Hashing *)

Section Hash.
Context (signed_char : bool).
Notation cval := (cval signed_char).

Definition sfh_get16 (d : list Z) (p : Z) : option Z :=
  hi ← d @! (p + 1); lo ← d @! p; Some (u32 (Z.shiftl hi 8) + lo).

(** The loop over groups of four bytes: the pointer and the hash. *)
Fixpoint sfh_loop (len : nat) (data : list Z) (p hash : Z) : option (Z * Z) :=
  match len with
  | O => Some (p, hash)
  | S len =>
      w ← sfh_get16 data p;
      let hash := u32 (hash + w) in
      w ← sfh_get16 data (p + 2);
      let tmp := Z.lxor (u32 (Z.shiftl w 11)) hash in
      let hash := Z.lxor (u32 (Z.shiftl hash 16)) tmp in
      sfh_loop len data (p + 4) (u32 (hash + Z.shiftr hash 11))
  end.

(** [switch (rem)]. *)
Definition sfh_tail (rem : Z) (data : list Z) (p hash : Z) : option Z :=
  if rem =? 3 then
    w ← sfh_get16 data p;
    let hash := u32 (hash + w) in
    let hash := Z.lxor hash (u32 (Z.shiftl hash 16)) in
    c ← data @! (p + 2);
    let hash := Z.lxor hash (u32 (Z.shiftl (cval c) 18)) in
    Some (u32 (hash + Z.shiftr hash 11))
  else if rem =? 2 then
    w ← sfh_get16 data p;
    let hash := u32 (hash + w) in
    let hash := Z.lxor hash (u32 (Z.shiftl hash 11)) in
    Some (u32 (hash + Z.shiftr hash 17))
  else if rem =? 1 then
    c ← data @! p;
    let hash := u32 (hash + cval c) in
    let hash := Z.lxor hash (u32 (Z.shiftl hash 10)) in
    Some (u32 (hash + Z.shiftr hash 1))
  else Some hash.

Definition avalanche (hash : Z) : Z :=
  let hash := Z.lxor hash (u32 (Z.shiftl hash 3)) in
  let hash := u32 (hash + Z.shiftr hash 5) in
  let hash := Z.lxor hash (u32 (Z.shiftl hash 4)) in
  let hash := u32 (hash + Z.shiftr hash 17) in
  let hash := Z.lxor hash (u32 (Z.shiftl hash 25)) in
  u32 (hash + Z.shiftr hash 6).

Definition sfh_hash (data : option (list Z)) (len : Z) : option Z :=
  match data with
  | None => Some 0
  | Some data =>
      if len <=? 0 then Some 0 else
      ph ← sfh_loop (Z.to_nat (Z.shiftr len 2)) data 0 (u32 len);
      let '(p, hash) := ph : Z * Z in
      hash ← sfh_tail (Z.land len 3) data p hash;
      Some (avalanche hash)
  end.

(** The buffer of [lmo_canon_hash] as the bytes written to it, [ptr] being
    behind the last one: a byte more must fit. *)
Definition RES_SIZE : Z := 4096.
Definition push (res : list Z) (c : Z) : option (list Z) :=
  if Z.of_nat (length res) <? RES_SIZE then Some (res ++ [c]) else None.

Fixpoint canon_loop (n : nat) (str : list Z) (off prev : Z) (res : list Z) : option (list Z) :=
  match n with
  | O => Some res
  | S n =>
      c ← str @! off;
      res ← (if isspace c then if isspace prev then Some res else push res 32
             else push res c);
      canon_loop n str (off + 1) c res
  end.

(** [if ((ptr > res) && isspace( *(ptr-1))) ptr--;] *)
Definition drop_trailing (res : list Z) : list Z :=
  match last res with
  | Some c => if isspace c then take (length res - 1) res else res
  | None => res
  end.

Definition lmo_canon_hash (str : option (list Z)) (len : Z) : option Z :=
  match str with
  | None => Some 0
  | Some str =>
      if RES_SIZE <=? u64 len then Some 0 else
      res ← canon_loop (Z.to_nat len) str 0 32 [];
      let res := drop_trailing res in
      sfh_hash (Some res) (Z.of_nat (length res))
  end.

(** ** Archives *)

Record lmo_entry := mkEntry { key_id : Z; val_id : Z; offset : Z; len_ : Z }.

(** [index] is where the index starts in the mapping; [end] has no reader. *)
Record lmo_archive := mkArchive { ar_length : Z; size : Z; index : Z; mmap : list Z }.

Definition ENTRY_SIZE : Z := 16.

(** [file] holds the bytes of the file, [None] when it cannot be inspected or
    opened; [malloc_ok] and [mmap_ok] say whether these calls succeed, a mapping
    of no bytes never does.  The result is [None] when the four bytes read last
    are not in the mapping. *)
Definition lmo_open (malloc_ok mmap_ok : bool) (file : option (list Z)) : option (option lmo_archive) :=
  match file with
  | None => Some None
  | Some bytes =>
      if negb malloc_ok then Some None else
      let size := u32 (Z.of_nat (length bytes)) in
      if negb mmap_ok || (size =? 0) then Some None else
      let map := take (Z.to_nat size) bytes in
      idx_offset ← ntohl_at map (size - 4);
      if size <=? idx_offset then Some None else
      Some (Some (mkArchive (s32 (u64 (size - idx_offset - 4) / ENTRY_SIZE)) size idx_offset map))
  end.

(** The loop with the bounds [l] and [r]; an interval of fewer than [2^n]
    entries is used up in [n] turns, so 33 is enough for every 32-bit bound. *)
Definition FIND_FUEL : nat := 33.

Fixpoint find_loop (fuel : nat) (ar : lmo_archive) (hash l r : Z) : option (option Z) :=
  match fuel with
  | O => None
  | S fuel =>
      let m := u32 (l + u32 (r - l) / 2) in
      if r <? l then Some None else
      k ← ntohl_at (mmap ar) (index ar + ENTRY_SIZE * m);
      if k =? hash then Some (Some m) else
      if hash <? k then
        if m =? 0 then Some None else find_loop fuel ar hash l (u32 (m - 1))
      else find_loop fuel ar hash (u32 (m + 1)) r
  end.

(** The number of the entry found. *)
Definition lmo_find_entry (ar : lmo_archive) (hash : Z) : option (option Z) :=
  find_loop FIND_FUEL ar hash 0 (u32 (ar_length ar - 1)).

(** ** Catalogues *)

Record lmo_catalog := mkCatalog { lang : list Z; archives : list lmo_archive }.

(** The store of catalogue objects, the chain from [_lmo_catalogs] on, and the
    active one. *)
Record lmo_state := mkState {
  store : gmap nat lmo_catalog;
  _lmo_catalogs : list nat;
  _lmo_active_catalog : option nat }.

Definition LANG_SIZE : nat := 6.

(** The first catalogue of a chain for a language; [None] when the chain leads
    to a freed object. *)
Fixpoint find_lang (h : gmap nat lmo_catalog) (chain : list nat) (l : list Z) : option (option nat) :=
  match chain with
  | [] => Some None
  | a :: chain =>
      cat ← h !! a;
      if strncmp_eq LANG_SIZE (lang cat) l then Some (Some a) else find_lang h chain l
  end.

Definition lmo_change_catalog (l : list Z) (s : lmo_state) : option (Z * lmo_state) :=
  c ← find_lang (store s) (_lmo_catalogs s) l;
  match c with
  | Some a => Some (0, mkState (store s) (_lmo_catalogs s) (Some a))
  | None => Some (-1, s)
  end.

(** What the functions need of the system: the names in a directory, [None] when
    it cannot be opened; the bytes of a file; the pattern match of the C
    library. *)
Record system := mkSystem {
  opendir : list Z -> option (list (list Z));
  file_at : list Z -> option (list Z);
  fnmatch : list Z -> list Z -> bool;
  malloc_ok : bool;
  mmap_ok : bool }.

Definition PATTERN_SIZE : nat := 16.
Definition PATH_MAX : nat := 4096.

Definition lang_pattern (l : list Z) : list Z :=
  snprintf_s PATTERN_SIZE (bytes_of "*." ++ l ++ bytes_of ".lmo").

(** [while ((de = readdir(dh)) != NULL)]: the archives, the last one opened
    first. *)
Fixpoint load_loop (sys : system) (pattern dir : list Z) (names : list (list Z))
    (ars : list lmo_archive) : option (list lmo_archive) :=
  match names with
  | [] => Some ars
  | d_name :: names =>
      if fnmatch sys pattern d_name then
        let path := snprintf_s PATH_MAX (dir ++ chr "/" :: d_name) in
        ar ← lmo_open (malloc_ok sys) (mmap_ok sys) (file_at sys path);
        load_loop sys pattern dir names (match ar with Some ar => ar :: ars | None => ars end)
      else load_loop sys pattern dir names ars
  end.

(** [addr] is the address [malloc] gives for the catalogue, [None] when it
    fails; [dir] is [None] for a null pointer. *)
Definition lmo_load_catalog (sys : system) (addr : option nat) (l : list Z)
    (dir : option (list Z)) (s : lmo_state) : option (Z * lmo_state) :=
  rs ← lmo_change_catalog l s;
  let '(rc, s) := rs : Z * lmo_state in
  if rc =? 0 then Some (0, s) else
  match dir with
  | None => Some (-1, s)
  | Some dir =>
      match opendir sys dir, addr with
      | Some names, Some a =>
          ars ← load_loop sys (lang_pattern l) dir names [];
          Some (0, mkState (<[a := mkCatalog (snprintf_s LANG_SIZE l) ars]> (store s))
                           (a :: _lmo_catalogs s)
                           (match _lmo_active_catalog s with Some c => Some c | None => Some a end))
      | _, _ => Some (-1, s)
      end
  end.

Fixpoint unlink (a : nat) (chain : list nat) : list nat :=
  match chain with
  | [] => []
  | b :: chain => if bool_decide (a = b) then chain else b :: unlink a chain
  end.

(** The catalogue leaves the chain and is freed with its archives; the active
    pointer is left as it was. *)
Definition lmo_close_catalog (l : list Z) (s : lmo_state) : option lmo_state :=
  c ← find_lang (store s) (_lmo_catalogs s) l;
  match c with
  | Some a => Some (mkState (delete a (store s)) (unlink a (_lmo_catalogs s))
                            (_lmo_active_catalog s))
  | None => Some s
  end.

(** The archives of the active catalogue in turn: where the text starts and how
    long it is. *)
Fixpoint translate_loop (ars : list lmo_archive) (hash : Z) : option (Z * option (lmo_archive * Z * Z)) :=
  match ars with
  | [] => Some (-1, None)
  | ar :: ars =>
      e ← lmo_find_entry ar hash;
      match e with
      | Some m =>
          off ← ntohl_at (mmap ar) (index ar + ENTRY_SIZE * m + 8);
          len ← ntohl_at (mmap ar) (index ar + ENTRY_SIZE * m + 12);
          Some (0, Some (ar, off, s32 len))
      | None => translate_loop ars hash
      end
  end.

(** The code, and [*out] as an offset in the mapping of an archive with
    [*outlen]. *)
Definition lmo_translate (key : option (list Z)) (keylen : Z) (s : lmo_state)
    : option (Z * option (lmo_archive * Z * Z)) :=
  match key, _lmo_active_catalog s with
  | Some _, Some a =>
      hash ← lmo_canon_hash key keylen;
      cat ← store s !! a;
      translate_loop (archives cat) hash
  | _, _ => Some (-2, None)
  end.

End Hash.

(** ** The hash is defined on every string *)

Lemma rd_app_in a b i : 0 <= i < Z.of_nat (length a) -> (a ++ b) @! i = a @! i.
Proof. apply rd_app_l. Qed.

Section HashFacts.
Context (signed_char : bool).
Notation sfh_hash := (sfh_hash signed_char).
Notation sfh_tail := (sfh_tail signed_char).

Lemma sfh_get16_app a b p :
  0 <= p -> p + 2 <= Z.of_nat (length a) -> sfh_get16 (a ++ b) p = sfh_get16 a p.
Proof. intros. unfold sfh_get16. by rewrite !rd_app_in by lia. Qed.

Lemma sfh_get16_some a p : 0 <= p -> p + 2 <= Z.of_nat (length a) -> is_Some (sfh_get16 a p).
Proof.
  intros. unfold sfh_get16.
  destruct (rd_is_Some a (p + 1)) as [hi ->]; [lia|]. simpl.
  destruct (rd_is_Some a p) as [lo ->]; [lia|]. eauto.
Qed.

Lemma sfh_loop_app n a b p h :
  0 <= p -> p + 4 * Z.of_nat n <= Z.of_nat (length a) ->
  sfh_loop n (a ++ b) p h = sfh_loop n a p h.
Proof.
  revert p h. induction n as [|n IH]; intros p h Hp Hn; [done|]. cbn [sfh_loop].
  rewrite !sfh_get16_app by lia.
  destruct (sfh_get16 a p); [|done]. simpl.
  destruct (sfh_get16 a (p + 2)); [|done]. simpl. apply IH; lia.
Qed.

Lemma sfh_loop_some n a p h :
  0 <= p -> p + 4 * Z.of_nat n <= Z.of_nat (length a) ->
  exists h', sfh_loop n a p h = Some (p + 4 * Z.of_nat n, h').
Proof.
  revert p h. induction n as [|n IH]; intros p h Hp Hn.
  { exists h. simpl. do 2 f_equal. lia. }
  cbn [sfh_loop].
  destruct (sfh_get16_some a p) as [w ->]; [lia..|]. simpl.
  destruct (sfh_get16_some a (p + 2)) as [w' ->]; [lia..|]. simpl.
  edestruct (IH (p + 4)) as [h' Hh]; [lia..|]. rewrite Hh. exists h'. do 2 f_equal. lia.
Qed.

Lemma sfh_tail_app rem a b p h :
  0 <= p -> 0 <= rem -> p + rem <= Z.of_nat (length a) ->
  sfh_tail rem (a ++ b) p h = sfh_tail rem a p h.
Proof.
  intros. unfold Lmo.sfh_tail.
  repeat case_bool; rewrite ?sfh_get16_app, ?rd_app_in by lia; done.
Qed.

Lemma sfh_tail_some rem a p h :
  0 <= p -> 0 <= rem -> p + rem <= Z.of_nat (length a) -> is_Some (sfh_tail rem a p h).
Proof.
  intros. unfold Lmo.sfh_tail. repeat case_bool; subst; [| | |eauto].
  - destruct (sfh_get16_some a p) as [w ->]; [lia..|]. simpl.
    destruct (rd_is_Some a (p + 2)) as [c ->]; [lia|]. simpl. eauto.
  - destruct (sfh_get16_some a p) as [w ->]; [lia..|]. simpl. eauto.
  - destruct (rd_is_Some a p) as [c ->]; [lia|]. simpl. eauto.
Qed.

(** The groups and the rest make up the string. *)
Lemma len_split len :
  0 <= len -> 4 * Z.of_nat (Z.to_nat (Z.shiftr len 2)) + Z.land len 3 = len /\ 0 <= Z.land len 3.
Proof.
  intros. change 3 with (Z.ones 2). rewrite Z.land_ones, Z.shiftr_div_pow2 by lia.
  change (2 ^ 2) with 4. rewrite Z2Nat.id by (apply Z.div_pos; lia).
  pose proof (Z.mod_pos_bound len 4). pose proof (Z.div_mod len 4). lia.
Qed.

(** Only the first [len] bytes matter. *)
Lemma sfh_hash_app a b : sfh_hash (Some (a ++ b)) (Z.of_nat (length a)) = sfh_hash (Some a) (Z.of_nat (length a)).
Proof.
  unfold Lmo.sfh_hash. case_bool; [done|].
  destruct (len_split (Z.of_nat (length a))) as [Hs Hr]; [lia|].
  rewrite sfh_loop_app by lia.
  edestruct (sfh_loop_some (Z.to_nat (Z.shiftr (Z.of_nat (length a)) 2)) a 0) as [h' Hh]; [lia..|].
  rewrite Hh. simpl. by rewrite sfh_tail_app by lia.
Qed.

Lemma sfh_hash_some a : is_Some (sfh_hash (Some a) (Z.of_nat (length a))).
Proof.
  unfold Lmo.sfh_hash. case_bool; [eauto|].
  destruct (len_split (Z.of_nat (length a))) as [Hs Hr]; [lia|].
  edestruct (sfh_loop_some (Z.to_nat (Z.shiftr (Z.of_nat (length a)) 2)) a 0) as [h' Hh]; [lia..|].
  rewrite Hh. simpl.
  match goal with |- context [sfh_tail ?r a ?p ?h] =>
    destruct (sfh_tail_some r a p h) as [x ->]; [lia..|] end.
  simpl. eauto.
Qed.

Lemma sfh_hash_range data len h : sfh_hash data len = Some h -> 0 <= h < 2 ^ 32.
Proof.
  unfold Lmo.sfh_hash. destruct data as [a|]; [|intros; simp_opt; lia].
  case_bool; [intros; simp_opt; lia|]. intros H. simp_opt. case_match. simp_opt.
  apply u32_range.
Qed.

(** The hash of a string given by its bytes. *)
Definition shash (s : list Z) : Z := default 0 (sfh_hash (Some s) (Z.of_nat (length s))).

Lemma shash_eq s rest : sfh_hash (Some (s ++ rest)) (Z.of_nat (length s)) = Some (shash s).
Proof. rewrite sfh_hash_app. unfold shash. by destruct (sfh_hash_some s) as [h ->]. Qed.

Lemma shash_range s : 0 <= shash s < 2 ^ 32.
Proof. apply (sfh_hash_range (Some (s ++ [])) (Z.of_nat (length s))). apply shash_eq. Qed.

End HashFacts.

(** ** Canonical form of a key

    The words of a string, and the words joined by single blanks: what the hash
    of a key depends on. *)

Fixpoint words_from (w : list Z) (s : list Z) : list (list Z) :=
  match s with
  | [] => match w with [] => [] | _ => [w] end
  | c :: s =>
      if isspace c then match w with [] => words_from [] s | _ => w :: words_from [] s end
      else words_from (w ++ [c]) s
  end.
Definition words (s : list Z) : list (list Z) := words_from [] s.

Fixpoint unwords (ws : list (list Z)) : list Z :=
  match ws with
  | [] => []
  | [w] => w
  | w :: ws => w ++ 32 :: unwords ws
  end.

(** What the loop appends to the buffer. *)
Fixpoint squeeze (prev : Z) (s : list Z) : list Z :=
  match s with
  | [] => []
  | c :: s =>
      (if isspace c then if isspace prev then [] else [32] else [c]) ++ squeeze c s
  end.

Lemma length_squeeze prev s : (length (squeeze prev s) <= length s)%nat.
Proof.
  revert prev. induction s as [|c s IH]; intros prev; simpl; [lia|].
  rewrite length_app. specialize (IH c). repeat case_match; simpl; lia.
Qed.

Lemma canon_loop_squeeze pre s rest prev res :
  Z.of_nat (length res + length s) < RES_SIZE ->
  canon_loop (length s) (pre ++ s ++ rest) (Z.of_nat (length pre)) prev res
  = Some (res ++ squeeze prev s).
Proof.
  revert pre prev res. induction s as [|c s IH]; intros pre prev res Hl; cbn [canon_loop squeeze length app].
  { by rewrite app_nil_r. }
  cbn [length] in Hl. rewrite rd_app_mid by done. cbn [mbind option_bind].
  assert (Z.of_nat (length res) <? RES_SIZE = true) as Hp by (apply Z.ltb_lt; lia).
  assert (forall prev res', (length res' <= S (length res))%nat ->
    canon_loop (length s) (pre ++ c :: s ++ rest) (Z.of_nat (length pre) + 1) prev res'
    = Some (res' ++ squeeze prev s)) as Hrec.
  { intros prev' res' Hr.
    replace (pre ++ c :: s ++ rest) with ((pre ++ [c]) ++ s ++ rest) by list_assoc.
    replace (Z.of_nat (length pre) + 1) with (Z.of_nat (length (pre ++ [c])))
      by (rewrite length_app; simpl; lia).
    apply IH. lia. }
  unfold push. rewrite Hp.
  destruct (isspace c); [destruct (isspace prev)|]; cbn [mbind option_bind];
    rewrite Hrec by (rewrite ?length_app; simpl; lia); list_assoc.
Qed.

Lemma drop_trailing_snoc a c : drop_trailing (a ++ [c]) = if isspace c then a else a ++ [c].
Proof.
  unfold drop_trailing. rewrite last_snoc, length_app. simpl.
  by rewrite Nat.add_sub, take_app_length.
Qed.

Lemma drop_trailing_app a b : b <> [] -> drop_trailing (a ++ b) = a ++ drop_trailing b.
Proof.
  intros Hb. destruct (exists_last Hb) as (b' & c & ->).
  rewrite app_assoc, !drop_trailing_snoc. destruct (isspace c); list_assoc.
Qed.

Lemma drop_trailing_word a c : isspace c = false -> drop_trailing (a ++ [c]) = a ++ [c].
Proof. intros Hc. by rewrite drop_trailing_snoc, Hc. Qed.

Lemma drop_trailing_space a : drop_trailing (a ++ [32]) = a.
Proof. by rewrite drop_trailing_snoc. Qed.

(** A loop that starts behind a blank writes nothing exactly when no word is
    left. *)
Lemma squeeze_nil s prev : isspace prev = true -> (squeeze prev s = [] <-> words s = []).
Proof.
  unfold words. revert prev. induction s as [|c s IH]; intros prev Hp; simpl; [done|].
  destruct (isspace c) eqn:Hc; simpl.
  - rewrite Hp. simpl. by apply IH.
  - split; [done|]. intros H. exfalso. clear -H.
    assert (forall w s, w <> [] -> words_from w s <> []) as Hw; [|by apply (Hw [c] s)].
    clear. intros w s. revert w. induction s as [|c s IH]; intros w Hw; simpl.
    + by destruct w.
    + destruct (isspace c); [by destruct w|]. apply IH. by destruct w.
Qed.

Lemma squeeze_words s :
  (forall prev, isspace prev = true -> drop_trailing (squeeze prev s) = unwords (words s)) /\
  (forall w prev, isspace prev = false -> drop_trailing (w ++ prev :: squeeze prev s)
                  = unwords (words_from (w ++ [prev]) s)).
Proof.
  unfold words. induction s as [|c s [IHs IHw]]; (split; [intros prev Hp|intros w prev Hp]); simpl.
  - done.
  - rewrite drop_trailing_word by done. by destruct (w ++ [prev]) eqn:E; [destruct w|].
  - destruct (isspace c) eqn:Hc; simpl.
    + rewrite Hp. simpl. by apply IHs.
    + by apply (IHw [] c).
  - destruct (isspace c) eqn:Hc; simpl.
    + rewrite Hp. simpl.
      destruct (w ++ [prev]) as [|x wp] eqn:Ew; [by destruct w|]. rewrite <- Ew. clear x wp Ew.
      destruct (decide (squeeze c s = [])) as [Hn|Hn].
      * rewrite Hn. apply (squeeze_nil s c Hc) in Hn. unfold words in Hn. rewrite Hn.
        replace (w ++ [prev; 32]) with ((w ++ [prev]) ++ [32]) by list_assoc.
        apply drop_trailing_space.
      * replace (w ++ prev :: 32 :: squeeze c s) with (((w ++ [prev]) ++ [32]) ++ squeeze c s) by list_assoc.
        rewrite drop_trailing_app, IHs by done.
        rewrite (squeeze_nil s c Hc) in Hn. unfold words in Hn.
        destruct (words_from [] s) as [|w' ws]; [done|]. simpl. list_assoc.
    + replace (w ++ prev :: c :: squeeze c s) with ((w ++ [prev]) ++ c :: squeeze c s) by list_assoc.
      by apply IHw.
Qed.

(** The hash of a key is that of its words joined by single blanks. *)
Lemma canon_hash_words sc s rest :
  Z.of_nat (length s) < RES_SIZE ->
  lmo_canon_hash sc (Some (s ++ rest)) (Z.of_nat (length s)) = Some (shash sc (unwords (words s))).
Proof.
  intros Hl. unfold lmo_canon_hash. unfold RES_SIZE in *. rewrite u64_id by lia.
  case_bool; [lia|]. rewrite Nat2Z.id.
  pose proof (canon_loop_squeeze [] s rest 32 []) as Hc.
  change (Z.of_nat (length [])) with 0 in Hc. cbn [length app] in Hc. rewrite Hc by (unfold RES_SIZE; lia).
  cbn [mbind option_bind].
  rewrite (proj1 (squeeze_words s)) by done.
  pose proof (shash_eq sc (unwords (words s)) []) as H. by rewrite app_nil_r in H.
Qed.

(** ** Archives as files *)

Definition entry_bytes (e : lmo_entry) : list Z :=
  htonl_bytes (key_id e) ++ htonl_bytes (val_id e) ++ htonl_bytes (offset e) ++ htonl_bytes (len_ e).
Definition index_bytes (es : list lmo_entry) : list Z := concat (map entry_bytes es).

(** The file of an archive: the texts, the index and where it starts. *)
Definition archive_bytes (texts : list Z) (es : list lmo_entry) : list Z :=
  texts ++ index_bytes es ++ htonl_bytes (Z.of_nat (length texts)).

Definition entry_wf (e : lmo_entry) : Prop :=
  0 <= key_id e < 2 ^ 32 /\ 0 <= val_id e < 2 ^ 32 /\
  0 <= offset e < 2 ^ 32 /\ 0 <= len_ e < 2 ^ 32.

Lemma length_entry_bytes e : length (entry_bytes e) = 16%nat.
Proof. unfold entry_bytes. by rewrite !length_app, !length_be_bytes. Qed.

Lemma length_index_bytes es : length (index_bytes es) = (16 * length es)%nat.
Proof.
  unfold index_bytes. induction es as [|e es IH]; [done|].
  cbn [map concat length]. rewrite length_app, length_entry_bytes, IH. lia.
Qed.

(** The archive in memory that [lmo_open] makes of such a file. *)
Definition opened (texts : list Z) (es : list lmo_entry) : lmo_archive :=
  mkArchive (Z.of_nat (length es)) (Z.of_nat (length (archive_bytes texts es)))
            (Z.of_nat (length texts)) (archive_bytes texts es).

Lemma length_archive_bytes texts es :
  length (archive_bytes texts es) = (length texts + 16 * length es + 4)%nat.
Proof.
  unfold archive_bytes. rewrite !length_app, length_index_bytes, length_be_bytes. lia.
Qed.

Lemma lmo_open_bytes texts es :
  Z.of_nat (length (archive_bytes texts es)) < 2 ^ 32 ->
  lmo_open true true (Some (archive_bytes texts es)) = Some (Some (opened texts es)).
Proof.
  intros Hl. unfold lmo_open. cbn [negb orb].
  rewrite u32_id by lia. pose proof (length_archive_bytes texts es) as Hn.
  rewrite (proj2 (Z.eqb_neq (Z.of_nat (length (archive_bytes texts es))) 0)) by lia.
  rewrite Nat2Z.id, firstn_all.
  assert (ntohl_at (archive_bytes texts es) (Z.of_nat (length (archive_bytes texts es)) - 4)
          = Some (Z.of_nat (length texts))) as ->.
  { replace (archive_bytes texts es)
      with ((texts ++ index_bytes es) ++ htonl_bytes (Z.of_nat (length texts)) ++ []) at 1
      by (unfold archive_bytes; rewrite app_nil_r; list_assoc).
    apply ntohl_htonl; [rewrite length_app, length_index_bytes; lia|lia]. }
  cbn [mbind option_bind]. case_bool; [lia|]. unfold opened. do 3 f_equal.
  unfold ENTRY_SIZE. rewrite u64_id by lia. rewrite s32_id.
  - rewrite Hn. symmetry. apply (Z.div_unique _ _ _ 0); lia.
  - split; [|apply Z.div_lt_upper_bound; lia].
    transitivity 0; [lia|apply Z.div_pos; lia].
Qed.

(** A field of an entry of an opened archive. *)
Lemma index_split es m e :
  es !! m = Some e ->
  exists a b, index_bytes es = a ++ entry_bytes e ++ b /\ length a = (16 * m)%nat.
Proof.
  intros Hm. exists (index_bytes (take m es)), (index_bytes (drop (S m) es)).
  assert (m < length es)%nat by (by eapply lookup_lt_Some).
  rewrite length_index_bytes, length_take. split; [|lia].
  rewrite <- (take_drop_middle es m e) at 1 by done.
  unfold index_bytes. rewrite map_app, concat_app. done.
Qed.

Lemma opened_fields texts es m e :
  es !! m = Some e -> entry_wf e ->
  let ar := opened texts es in
  let p := index ar + ENTRY_SIZE * Z.of_nat m in
  ntohl_at (mmap ar) p = Some (key_id e) /\
  ntohl_at (mmap ar) (p + 8) = Some (offset e) /\
  ntohl_at (mmap ar) (p + 12) = Some (len_ e).
Proof.
  intros Hm (Hk & Hv & Ho & Hl) ar p.
  destruct (index_split es m e Hm) as (a & b & Hi & Ha).
  subst p ar. unfold opened, ENTRY_SIZE. cbn [mmap index]. unfold archive_bytes. rewrite Hi. unfold entry_bytes.
  set (T := htonl_bytes (Z.of_nat (length texts))). clearbody T.
  split_and!.
  - replace (texts ++ _) with ((texts ++ a) ++ htonl_bytes (key_id e) ++
      (htonl_bytes (val_id e) ++ htonl_bytes (offset e) ++ htonl_bytes (len_ e) ++ b ++ T)) by list_assoc.
    apply ntohl_htonl; [|done]. rewrite length_app. lia.
  - replace (texts ++ _) with ((texts ++ a ++ htonl_bytes (key_id e) ++ htonl_bytes (val_id e)) ++
      htonl_bytes (offset e) ++ (htonl_bytes (len_ e) ++ b ++ T)) by list_assoc.
    apply ntohl_htonl; [|done]. rewrite !length_app, !length_be_bytes. lia.
  - replace (texts ++ _) with ((texts ++ a ++ htonl_bytes (key_id e) ++ htonl_bytes (val_id e) ++
      htonl_bytes (offset e)) ++ htonl_bytes (len_ e) ++ (b ++ T)) by list_assoc.
    apply ntohl_htonl; [|done]. rewrite !length_app, !length_be_bytes. lia.
Qed.

(** ** The search

    [find_loop] over an abstract array of keys: entry [m] has key [key m]. *)

Lemma half_spec d : 2 * (d / 2) <= d < 2 * (d / 2) + 2.
Proof. pose proof (Z.div_mod d 2). pose proof (Z.mod_pos_bound d 2). lia. Qed.

Section Search.
Context (ar : lmo_archive) (n : Z) (key : Z -> Z) (hash : Z).
Context (n_range : 0 < n < 2 ^ 31).
Context (keys_read : forall m, 0 <= m < n -> ntohl_at (mmap ar) (index ar + ENTRY_SIZE * m) = Some (key m)).

Lemma find_loop_S fuel l r :
  find_loop (S fuel) ar hash l r =
  (let m := u32 (l + u32 (r - l) / 2) in
   if r <? l then Some None else
   k ← ntohl_at (mmap ar) (index ar + ENTRY_SIZE * m);
   if k =? hash then Some (Some m) else
   if hash <? k then if m =? 0 then Some None else find_loop fuel ar hash l (u32 (m - 1))
   else find_loop fuel ar hash (u32 (m + 1)) r).
Proof. done. Qed.

(** With bounds inside the array the loop returns, with an entry of the key or
    without one. *)
Lemma find_loop_returns fuel l r :
  0 <= l -> -1 <= r < n -> l <= r + 1 -> r - l + 1 < 2 ^ Z.of_nat fuel ->
  (l = 0 -> 0 <= r) ->
  exists res, find_loop (S fuel) ar hash l r = Some res /\
    forall m, res = Some m -> 0 <= m < n /\ key m = hash.
Proof.
  revert l r. induction fuel as [|fuel IH]; intros l r Hl Hr Hlr Hf H0.
  { change (2 ^ Z.of_nat 0) with 1 in Hf. cbn [find_loop].
    rewrite (proj2 (Z.ltb_lt r l)) by lia.
    exists None. by split. }
  rewrite find_loop_S. cbv zeta. case_bool; [by exists None|].
  rewrite Nat2Z.inj_succ, Z.pow_succ_r in Hf by lia.
  rewrite (u32_id (r - l)) by lia.
  pose proof (half_spec (r - l)) as Hh. set (h := (r - l) / 2) in *. clearbody h.
  rewrite (u32_id (l + h)) by lia. rewrite keys_read by lia. cbn [mbind option_bind].
  case_bool.
  { eexists. split; [done|]. intros m [= <-]. split; [lia|done]. }
  case_bool.
  - case_bool; [by exists None|]. rewrite (u32_id (l + h - 1)) by lia. apply IH; lia.
  - rewrite (u32_id (l + h + 1)) by lia. apply IH; lia.
Qed.

(** On keys in ascending order an entry that exists is found. *)
Context (sorted : forall i j, 0 <= i <= j -> j < n -> key i <= key j).

Lemma find_loop_finds fuel l r m :
  0 <= l <= m -> m <= r < n -> key m = hash -> r - l + 1 < 2 ^ Z.of_nat fuel ->
  exists m', find_loop (S fuel) ar hash l r = Some (Some m').
Proof.
  revert l r. induction fuel as [|fuel IH]; intros l r Hl Hr Hk Hf.
  { change (2 ^ Z.of_nat 0) with 1 in Hf. lia. }
  rewrite find_loop_S. cbv zeta. case_bool; [lia|].
  rewrite Nat2Z.inj_succ, Z.pow_succ_r in Hf by lia.
  rewrite (u32_id (r - l)) by lia.
  pose proof (half_spec (r - l)) as Hh. set (h := (r - l) / 2) in *. clearbody h.
  rewrite (u32_id (l + h)) by lia. rewrite keys_read by lia. cbn [mbind option_bind].
  case_bool; [by eauto|].
  case_bool.
  - assert (m < l + h) by (destruct (decide (m < l + h)); [done|];
      pose proof (sorted (l + h) m); lia).
    case_bool; [lia|]. rewrite (u32_id (l + h - 1)) by lia. apply IH; lia.
  - assert (l + h < m) by (destruct (decide (l + h < m)); [done|];
      pose proof (sorted m (l + h)); lia).
    rewrite (u32_id (l + h + 1)) by lia. apply IH; lia.
Qed.

End Search.

(** ** The search in an archive *)

Definition ascending (es : list lmo_entry) : Prop :=
  StronglySorted (fun a b => key_id a <= key_id b) es.

Lemma ascending_lookup es i j a b :
  ascending es -> (i <= j)%nat -> es !! i = Some a -> es !! j = Some b -> key_id a <= key_id b.
Proof.
  intros Hs. revert i j. induction Hs as [|e es Hs IH Hall]; intros [|i] [|j] Hij Ha Hb;
    simpl in *; simplify_eq; try lia.
  - rewrite Forall_lookup in Hall. by eapply Hall.
  - eapply (IH i j); [lia|done..].
Qed.

Definition key_at (es : list lmo_entry) (m : Z) : Z :=
  default 0 (key_id <$> es !! Z.to_nat m).

Lemma opened_key texts es m :
  Forall entry_wf es -> 0 <= m < Z.of_nat (length es) ->
  ntohl_at (mmap (opened texts es)) (index (opened texts es) + ENTRY_SIZE * m) = Some (key_at es m).
Proof.
  intros Hwf Hm. unfold key_at.
  destruct (lookup_lt_is_Some_2 es (Z.to_nat m)) as [e He]; [lia|].
  rewrite He. rewrite Forall_lookup in Hwf.
  destruct (opened_fields texts es _ e He) as (Hk & _); [by eapply Hwf|].
  rewrite Z2Nat.id in Hk by lia. by rewrite Hk.
Qed.

Lemma find_entry_returns texts es hash :
  Forall entry_wf es -> ascending es -> es <> [] -> Z.of_nat (length es) < 2 ^ 31 ->
  exists res, lmo_find_entry (opened texts es) hash = Some res /\
    match res with
    | Some m => exists e, es !! Z.to_nat m = Some e /\ key_id e = hash /\ 0 <= m
    | None => hash ∉ map key_id es
    end.
Proof.
  intros Hwf Hs Hne Hl.
  assert (0 < length es)%nat as Hn by (destruct es; simpl; [done|lia]).
  set (n := Z.of_nat (length es)) in *.
  assert (forall m, 0 <= m < n -> exists e, es !! Z.to_nat m = Some e /\ key_at es m = key_id e) as Hat.
  { intros m Hm. destruct (lookup_lt_is_Some_2 es (Z.to_nat m)) as [e He]; [lia|].
    exists e. unfold key_at. by rewrite He. }
  unfold lmo_find_entry. cbn [ar_length opened]. fold n. rewrite u32_id by lia.
  assert (n - 1 - 0 + 1 < 2 ^ Z.of_nat 32) as Hf by (change (2 ^ Z.of_nat 32) with (2 ^ 32); lia).
  pose proof (find_loop_returns (opened texts es) n (key_at es) hash ltac:(lia)
    (fun m Hm => opened_key texts es m Hwf Hm) 32 0 (n - 1)) as Hret.
  destruct Hret as (res & Hres & Hfound); [lia..|].
  exists res. split; [exact Hres|]. destruct res as [m|].
  - destruct (Hfound m eq_refl) as [Hm Hk]. destruct (Hat m Hm) as (e & He & Hke).
    exists e. split_and!; [done|congruence|lia].
  - intros (e & Hk & Hin)%list_elem_of_fmap. apply list_elem_of_lookup in Hin as [i Hi].
    assert (i < length es)%nat by (by eapply lookup_lt_Some).
    destruct (find_loop_finds (opened texts es) n (key_at es) hash ltac:(lia)
      (fun m Hm => opened_key texts es m Hwf Hm)) with (fuel := 32%nat) (l := 0) (r := n - 1) (m := Z.of_nat i)
      as [m' Hm']; [|lia|lia| |lia|].
    + intros a b Ha Hb.
      destruct (Hat a ltac:(lia)) as (x & Hx & ->). destruct (Hat b ltac:(lia)) as (y & Hy & ->).
      eapply (ascending_lookup es (Z.to_nat a) (Z.to_nat b)); [done|lia|done|done].
    + unfold key_at. by rewrite Nat2Z.id, Hi.
    + unfold FIND_FUEL in Hres. congruence.
Qed.

(** In an archive whose index is in ascending order of the keys the binary
    search returns: an entry of the key when there is one, nothing otherwise. *)
Theorem find_entry_correct texts es hash :
  Forall entry_wf es -> ascending es -> es <> [] -> Z.of_nat (length es) < 2 ^ 31 ->
  exists res, lmo_find_entry (opened texts es) hash = Some res /\
    match res with
    | Some m => exists e, es !! Z.to_nat m = Some e /\ key_id e = hash /\ 0 <= m
    | None => hash ∉ map key_id es
    end.
Proof. apply find_entry_returns. Qed.

Definition archive_example : lmo_archive :=
  opened (bytes_of "okno") [mkEntry 7 1 0 2; mkEntry 9 2 2 2].

Lemma find_entry_correct_witness :
  Forall entry_wf [mkEntry 7 1 0 2; mkEntry 9 2 2 2] /\
  (exists res, lmo_find_entry archive_example 9 = Some res /\
    match res with
    | Some m => exists e, [mkEntry 7 1 0 2; mkEntry 9 2 2 2] !! Z.to_nat m = Some e /\ key_id e = 9 /\ 0 <= m
    | None => 9 ∉ map key_id [mkEntry 7 1 0 2; mkEntry 9 2 2 2]
    end).
Proof.
  assert (Forall entry_wf [mkEntry 7 1 0 2; mkEntry 9 2 2 2]) as Hwf
    by (repeat constructor; simpl; lia).
  split; [exact Hwf|].
  apply (find_entry_correct (bytes_of "okno") [mkEntry 7 1 0 2; mkEntry 9 2 2 2] 9 Hwf).
  - repeat constructor; simpl; lia.
  - done.
  - simpl; lia.
Defined.

(** *** Files that are not archives *)

Lemma ntohl_inside buf i :
  0 <= i -> i + 4 <= Z.of_nat (length buf) -> is_Some (ntohl_at buf i).
Proof. intros. unfold ld_be. rewrite mread_in by lia. eauto. Qed.

(** whatever a file of at least four bytes holds, opening it reads inside
    the mapping, and so does every search in an archive whose index has room for
    an entry; what the search returns is a number of the index. *)
Theorem opened_search_inside bytes hash :
  4 <= Z.of_nat (length bytes) < 2 ^ 32 -> Forall (fun b => 0 <= b < 256) bytes ->
  exists res, lmo_open true true (Some bytes) = Some res /\
    forall ar, res = Some ar -> index ar + 20 <= size ar ->
      exists found, lmo_find_entry ar hash = Some found /\
        forall m, found = Some m ->
          0 <= m < ar_length ar /\ index ar + ENTRY_SIZE * (m + 1) <= Z.of_nat (length (mmap ar)).
Proof.
  intros Hl Hb. unfold lmo_open. cbn [negb orb]. rewrite u32_id by lia.
  rewrite (proj2 (Z.eqb_neq _ 0)) by lia. rewrite Nat2Z.id, firstn_all.
  destruct (ntohl_inside bytes (Z.of_nat (length bytes) - 4)) as [idx Hidx]; [lia..|].
  rewrite Hidx. cbn [mbind option_bind].
  case_bool; [eexists; split; [done|]; by intros|].
  eexists. split; [done|]. intros ar [= <-]. cbn [index size ar_length mmap]. intros Hroom.
  assert (0 <= idx) as Hi0.
  { unfold ld_be in Hidx. destruct (mread bytes _ 4) as [l|] eqn:El; simplify_eq/=.
    apply mread_spec in El as (_ & _ & ->).
    apply be_val_range. apply Forall_take. by apply Forall_drop. }
  set (n := Z.of_nat (length bytes)) in *.
  unfold lmo_find_entry. cbn [ar_length]. unfold ENTRY_SIZE.
  rewrite u64_id by lia. set (k := (n - idx - 4) / 16).
  assert (16 * k <= n - idx - 4 < 16 * k + 16) as Hk.
  { pose proof (Z.div_mod (n - idx - 4) 16). pose proof (Z.mod_pos_bound (n - idx - 4) 16). unfold k. lia. }
  clearbody k. rewrite s32_id by lia. rewrite u32_id by lia.
  set (ar := mkArchive _ _ _ _).
  destruct (find_loop_returns ar k
    (fun m => default 0 (ntohl_at bytes (idx + 16 * m))) hash ltac:(lia)) with
    (fuel := 32%nat) (l := 0) (r := k - 1) as (res & Hres & Hfound); [|lia..|change (2 ^ Z.of_nat 32) with (2 ^ 32); lia|lia|].
  - intros m Hm. cbn [mmap index ar]. unfold ENTRY_SIZE.
    by destruct (ntohl_inside bytes (idx + 16 * m)) as [v ->]; [lia..|].
  - exists res. split; [exact Hres|]. intros m Hm. destruct (Hfound m Hm). lia.
Qed.

Lemma opened_search_inside_witness :
  4 <= Z.of_nat (length (mmap archive_example)) < 2 ^ 32 /\
  exists res, lmo_open true true (Some (mmap archive_example)) = Some res.
Proof.
  split; [vm_compute; intuition congruence|].
  destruct (opened_search_inside (mmap archive_example) 5) as (res & Hres & _).
  - vm_compute; intuition congruence.
  - vm_compute. repeat constructor; congruence.
  - exists res. exact Hres.
Defined.

(** ** Catalogues *)

(** Every catalogue of the chain, and the active one, is in the store, and a
    language fits its buffer. *)
Record lmo_wf (s : lmo_state) : Prop := mkLmoWf {
  wf_store : Forall (fun a => is_Some (store s !! a)) (_lmo_catalogs s);
  wf_nodup : NoDup (_lmo_catalogs s);
  wf_active : forall a, _lmo_active_catalog s = Some a -> a ∈ _lmo_catalogs s;
  wf_lang : forall a cat, store s !! a = Some cat -> (length (lang cat) < LANG_SIZE)%nat }.

Lemma find_lang_spec h chain l :
  Forall (fun a => is_Some (h !! a)) chain ->
  exists res, find_lang h chain l = Some res /\
    match res with
    | Some a => a ∈ chain /\ exists cat, h !! a = Some cat /\ strncmp_eq LANG_SIZE (lang cat) l = true
    | None => forall a cat, a ∈ chain -> h !! a = Some cat -> strncmp_eq LANG_SIZE (lang cat) l = false
    end.
Proof.
  induction 1 as [|a chain [cat Ha] _ (res & Hr & IH)]; simpl.
  { exists None. split; [done|]. by intros a cat Hin%elem_of_nil. }
  rewrite Ha. simpl. destruct (strncmp_eq _ _ l) eqn:E.
  - exists (Some a). split; [done|]. split; [left|eauto].
  - exists res. split; [done|]. destruct res as [b|].
    + destruct IH as [Hin IH]. split; [by right|done].
    + intros b cat' [->|Hin]%elem_of_cons Hb; [congruence|by eapply IH].
Qed.

Lemma change_catalog_wf l s :
  lmo_wf s -> exists rc s', lmo_change_catalog l s = Some (rc, s') /\ lmo_wf s' /\
    store s' = store s /\ _lmo_catalogs s' = _lmo_catalogs s.
Proof.
  intros Hs. unfold lmo_change_catalog.
  destruct (find_lang_spec (store s) (_lmo_catalogs s) l (wf_store s Hs)) as (res & Hr & Hres).
  rewrite Hr. destruct res as [a|]; simpl; [|by eauto 6].
  do 2 eexists. split_and!; [done| |done|done].
  destruct Hs. constructor; try done. simpl. intros b [= <-]. by destruct Hres.
Qed.

Lemma load_catalog_wf sys a l dir s rc s' :
  lmo_wf s -> store s !! a = None ->
  lmo_load_catalog sys (Some a) l dir s = Some (rc, s') -> lmo_wf s'.
Proof.
  intros Hs Ha H. unfold lmo_load_catalog in H.
  destruct (change_catalog_wf l s Hs) as (c & s1 & Hc & Hs1 & Hst & Hch).
  rewrite Hc in H. simpl in H. rewrite <- Hst in Ha. clear Hc Hs Hst Hch s.
  destruct (c =? 0); simplify_eq; [done|].
  destruct dir as [dir|]; [|by simplify_eq].
  destruct (opendir sys dir) as [names|]; [|by simplify_eq].
  simp_opt. destruct Hs1 as [Hsto Hnd Hact Hlang].
  assert (a ∉ _lmo_catalogs s1) as Hni.
  { intros Hin. rewrite Forall_forall in Hsto. destruct (Hsto a Hin). congruence. }
  constructor; simpl.
  - constructor; [by rewrite lookup_insert_eq|].
    apply (Forall_imp _ _ _ Hsto). intros b [cat Hb].
    rewrite lookup_insert_ne by congruence. eauto.
  - by constructor.
  - intros b Hb. destruct (_lmo_active_catalog s1) as [c'|] eqn:E; simplify_eq; [right|left]. by apply Hact.
  - intros b cat [[<- <-]|[Hne Hb]]%lookup_insert_Some; [|by eapply Hlang].
    simpl. unfold snprintf_s, LANG_SIZE. rewrite length_take. lia.
Qed.

(** A language of six bytes or more differs from every string that fits the
    buffer, so its catalogue is never found again. *)
Lemma long_language_differs l k :
  Forall (fun c => c <> 0) l -> (LANG_SIZE <= length l)%nat -> (length k < LANG_SIZE)%nat ->
  strncmp_eq LANG_SIZE k l = false.
Proof.
  unfold LANG_SIZE. intros Hl Hn Hk. apply bool_decide_eq_false. intros H.
  assert ((k ++ [0]) !! length k = (l ++ [0]) !! length k) as Hat.
  { rewrite <- (lookup_take_lt (k ++ [0]) 6), H, lookup_take_lt by lia. done. }
  rewrite lookup_app_r, Nat.sub_diag in Hat by lia. simpl in Hat.
  rewrite lookup_app_l in Hat by lia.
  rewrite Forall_lookup in Hl. by eapply Hl.
Qed.

(** Closing the catalogue that is in use frees it and leaves the active
    pointer on it, so the next translation reads a freed object. *)
Theorem close_leaves_active_dangling sc s l a key :
  lmo_wf s -> _lmo_active_catalog s = Some a ->
  find_lang (store s) (_lmo_catalogs s) l = Some (Some a) ->
  exists s', lmo_close_catalog l s = Some s' /\ _lmo_active_catalog s' = Some a /\
    store s' !! a = None /\
    lmo_translate sc (Some key) (Z.of_nat (length key)) s' = None.
Proof.
  intros Hs Ha Hl. eexists. unfold lmo_close_catalog. rewrite Hl. simpl.
  split_and!; [done|done|by apply lookup_delete_eq|].
  unfold lmo_translate. cbn [_lmo_active_catalog store]. rewrite Ha.
  match goal with |- ?x ≫= _ = None => destruct x end; [|done].
  cbn [mbind option_bind]. by rewrite lookup_delete_eq.
Qed.

Definition catalog_example : lmo_state :=
  mkState {[ 1%nat := mkCatalog (bytes_of "de") [archive_example] ]} [1%nat] (Some 1%nat).

Lemma catalog_example_wf : lmo_wf catalog_example.
Proof.
  constructor; simpl.
  - constructor; [|done]. by rewrite lookup_singleton_eq.
  - repeat constructor. set_solver.
  - intros a [= <-]. left.
  - intros a cat [<- <-]%lookup_singleton_Some. simpl. unfold LANG_SIZE. lia.
Qed.

Lemma close_leaves_active_dangling_witness :
  lmo_wf catalog_example /\
  exists s', lmo_close_catalog (bytes_of "de") catalog_example = Some s' /\
    lmo_translate true (Some (bytes_of "yes")) 3 s' = None.
Proof.
  split; [exact catalog_example_wf|].
  destruct (close_leaves_active_dangling true catalog_example (bytes_of "de") 1 (bytes_of "yes"))
    as (s' & Hs & _ & _ & Ht).
  - exact catalog_example_wf.
  - done.
  - vm_compute. done.
  - exists s'. split; [exact Hs|exact Ht].
Defined.

(** Looking a key up when the first archive has it. *)
Lemma translate_loop_hit ar ars hash i off len :
  lmo_find_entry ar hash = Some (Some i) ->
  ntohl_at (mmap ar) (index ar + ENTRY_SIZE * i + 8) = Some off ->
  ntohl_at (mmap ar) (index ar + ENTRY_SIZE * i + 12) = Some len ->
  translate_loop (ar :: ars) hash = Some (0, Some (ar, off, s32 len)).
Proof.
  intros Hf Ho Hl. cbn [translate_loop]. rewrite Hf. cbn [mbind option_bind].
  rewrite Ho. cbn [mbind option_bind]. by rewrite Hl.
Qed.

Lemma lmo_translate_active sc key keylen h c a hash cat :
  lmo_canon_hash sc (Some key) keylen = Some hash -> h !! a = Some cat ->
  lmo_translate sc (Some key) keylen (mkState h c (Some a)) = translate_loop (archives cat) hash.
Proof.
  intros Hh Hc. unfold lmo_translate. cbn [_lmo_active_catalog store].
  rewrite Hh. cbn [mbind option_bind]. by rewrite Hc.
Qed.

End Lmo.
