(* ===== verification/Po2lmo.v ===== *)
(** * Po2lmo: writing translation catalogues

    Models tools/po2lmo/src/po2lmo.c of luci-app-autorepeater: from the bytes of
    a .po file to the bytes of an archive.  The four line buffers are objects of
    4096 bytes; [fgets] is the list of the chunks it returns.  [qsort] is a class
    with its documented behaviour, since it leaves the order of equal keys
    open; stdpp's merge sort is an instance. *)

From stdpp Require Import sorting.
From S2P Require Import Prelude Libc Lmo.

Import Libc Lmo.

Module Po2lmo.

Definition BUF : nat := 4096.
Definition QUOTE : Z := 34.
Definition BACKSLASH : Z := 92.

(** ** Quoted strings *)

(** The loop of [extract_string] over the rest [s] of the line, [pos] being
    where it starts: [off] and the destination. *)
Fixpoint extract_loop (s : list Z) (pos len : Z) (esc : bool) (off : Z) (dest : list Z)
    : option (Z * list Z) :=
  match s with
  | [] => Some (off, dest)
  | c :: s =>
      if len <=? pos then Some (off, dest) else
      if (off =? -1) && (c =? QUOTE) then extract_loop s (pos + 1) len esc (pos + 1) dest
      else if 0 <=? off then
        if esc then
          let off := if (c =? QUOTE) || (c =? BACKSLASH) then off + 1 else off in
          dest ← wr dest (pos - off) c;
          extract_loop s (pos + 1) len false off dest
        else if c =? BACKSLASH then
          dest ← wr dest (pos - off) c;
          extract_loop s (pos + 1) len true off dest
        else if negb (c =? QUOTE) then
          dest ← wr dest (pos - off) c;
          extract_loop s (pos + 1) len esc off dest
        else dest ← wr dest (pos - off) 0; Some (off, dest)
      else extract_loop s (pos + 1) len esc off dest
  end.

(** The number returned and the destination. *)
Definition extract_string (src dest : list Z) (len : Z) : option (Z * list Z) :=
  s ← cstr src;
  r ← extract_loop s 0 len false (-1) dest;
  let '(off, dest) := r : Z * list Z in
  if -1 <? off then n ← strlen dest; Some (n, dest) else Some (-1, dest).

(** ** The index *)

Definition cmp_index (a b : lmo_entry) : Z :=
  let x := key_id a in
  let y := key_id b in
  if x <? y then -1 else if y <? x then 1 else 0.

Definition cmp_le (a b : lmo_entry) : Prop := cmp_index a b <= 0.
#[export] Instance cmp_le_dec : RelDecision cmp_le := fun a b => decide (cmp_index a b <= 0).

Class Qsort := qsort : list lmo_entry -> list lmo_entry.
Class QsortLaws `{Qsort} := {
  qsort_perm l : qsort l ≡ₚ l;
  qsort_sorted l : StronglySorted cmp_le (qsort l) }.

Definition print_uint32 (x : Z) (out : list Z) : list Z := out ++ htonl_bytes x.

Definition print_entry (out : list Z) (e : lmo_entry) : list Z :=
  print_uint32 (len_ e) (print_uint32 (offset e) (print_uint32 (val_id e) (print_uint32 (key_id e) out))).

Definition print_index `{Qsort} (array : list lmo_entry) (out : list Z) : list Z :=
  foldl print_entry out (qsort array).

(** ** The main loop *)

(** The variables of [main]; [n_entries] is the length of [array], [out] what
    was written to the output. *)
Record po := mkPo {
  key : list Z; val : list Z; tmp : list Z;
  state : Z; po_offset : Z; array : list lmo_entry; out : list Z }.

Definition set_key k s := mkPo k (val s) (tmp s) (state s) (po_offset s) (array s) (out s).
Definition set_val v s := mkPo (key s) v (tmp s) (state s) (po_offset s) (array s) (out s).
Definition set_tmp t s := mkPo (key s) (val s) t (state s) (po_offset s) (array s) (out s).
Definition set_state n s := mkPo (key s) (val s) (tmp s) n (po_offset s) (array s) (out s).

(** [strstr(line, p) == line]. *)
Definition starts_with (line : list Z) (p : list Z) : bool :=
  bool_decide (take (length p) line = p).

Definition MSGID : list Z := bytes_of "msgid " ++ [QUOTE].
Definition MSGSTR : list Z := bytes_of "msgstr " ++ [QUOTE].

(** What a run of a piece of [main] ends in: it goes on, or [die] ends the
    program with what was written so far. *)
Inductive flow (A : Type) := Go (a : A) | Die (out : list Z).
Arguments Go {A} _.
Arguments Die {A} _.

(** The chain of tests on [state] for one line. *)
Definition po_state (line : list Z) (s : po) : option (flow po) :=
  l ← cstr line;
  if (state s =? 0) && starts_with l MSGID then
    r ← extract_string line (key s) (Z.of_nat BUF);
    let '(n, k) := r : Z * list Z in
    if n =? -1 then Some (Die (out s))
    else if n =? 0 then Some (Go (set_state 1 (set_key k s)))
    else Some (Go (set_state 2 (set_key k s)))
  else if (state s =? 1) || (state s =? 2) then
    if starts_with l MSGSTR || (state s =? 2) then
      r ← extract_string line (val s) (Z.of_nat BUF);
      let '(n, v) := r : Z * list Z in
      Some (Go (set_state (if n =? -1 then 4 else 3) (set_val v s)))
    else
      r ← extract_string line (tmp s) (Z.of_nat BUF);
      let '(n, t) := r : Z * list Z in
      if n =? -1 then Some (Go (set_state 2 (set_tmp t s)))
      else k ← strcat (key s) t; Some (Go (set_key k (set_tmp t s)))
  else if state s =? 3 then
    r ← extract_string line (tmp s) (Z.of_nat BUF);
    let '(n, t) := r : Z * list Z in
    if n =? -1 then Some (Go (set_state 4 (set_tmp t s)))
    else v ← strcat (val s) t; Some (Go (set_val v (set_tmp t s)))
  else Some (Go s).

Section Main.
Context (signed_char : bool).

(** [if( strlen(key) > 0 && strlen(val) > 0 )]: the text is padded to a multiple
    of four with the bytes behind it; a signed overflow of [offset] is
    undefined. *)
Definition po_emit (s : po) : option po :=
  kl ← strlen (key s); vl ← strlen (val s);
  if (0 <? kl) && (0 <? vl) then
    kid ← sfh_hash signed_char (Some (key s)) kl;
    vid ← sfh_hash signed_char (Some (val s)) vl;
    if kid =? vid then Some s else
    let e := mkEntry kid vid (u32 (po_offset s)) (u32 vl) in
    let length := vl + (4 - vl mod 4) mod 4 in
    text ← mread (val s) 0 length;
    if po_offset s + length <? 2 ^ 31 then
      Some (mkPo (key s) (val s) (tmp s) (state s) (po_offset s + length)
                 (array s ++ [e]) (out s ++ text))
    else None
  else Some s.

(** [if( state == 4 )]. *)
Definition po_finish (s : po) : option po :=
  if state s =? 4 then
    s ← po_emit s;
    Some (set_state 0 (set_val (replicate BUF 0) (set_key (replicate BUF 0) s)))
  else Some s.

(** One turn of the loop. *)
Definition po_line (line : list Z) (s : po) : option (flow po) :=
  f ← po_state line s;
  match f with
  | Go s => s ← po_finish s; Some (Go s)
  | Die o => Some (Die o)
  end.

(** The turns for the chunks; the line buffer was cleared before each. *)
Fixpoint po_chunks (ls : list (list Z)) (s : po) : option (flow po) :=
  match ls with
  | [] => Some (Go s)
  | l :: ls =>
      f ← po_line (cbuf BUF l) s;
      match f with Go s => po_chunks ls s | Die o => Some (Die o) end
  end.

(** [(state >= 2 && feof(in))]: turns on a cleared line. *)
Fixpoint po_eof (fuel : nat) (s : po) : option (flow po) :=
  if state s <? 2 then Some (Go s) else
  match fuel with
  | O => None
  | S fuel =>
      f ← po_line (replicate BUF 0) s;
      match f with Go s => po_eof fuel s | Die o => Some (Die o) end
  end.

Definition EOF_FUEL : nat := 2.

Definition po_loop (content : list Z) (s : po) : option (flow po) :=
  f ← po_chunks (fgets_all BUF content) s;
  match f with Go s => po_eof EOF_FUEL s | Die o => Some (Die o) end.

Context `{Qsort}.

(** The output file, [None] when it is removed, or what it holds when the
    program died. *)
Inductive outcome := Written (file : option (list Z)) | Died (partial : list Z).

(** The index, the end of the texts and the end of the program. *)
Definition po_end (f : flow po) : outcome :=
  match f with
  | Die o => Died o
  | Go s =>
      let o := print_index (array s) (out s) in
      if 0 <? po_offset s then Written (Some (print_uint32 (po_offset s) o)) else Written None
  end.

(** [tmp0]: what the uninitialised [tmp] holds. *)
Definition po_init (tmp0 : list Z) : po :=
  mkPo (replicate BUF 0) (replicate BUF 0) tmp0 0 0 [] [].

Definition po2lmo (tmp0 content : list Z) : option outcome :=
  f ← po_loop content (po_init tmp0); Some (po_end f).

End Main.

(** ** Sorting *)

Lemma cmp_le_spec a b : cmp_le a b <-> key_id a <= key_id b.
Proof. unfold cmp_le, cmp_index. case_bool; [lia|]. case_bool; lia. Qed.

#[export] Instance cmp_le_trans : Transitive cmp_le.
Proof. intros a b c. rewrite !cmp_le_spec. lia. Qed.
#[export] Instance cmp_le_total : Total cmp_le.
Proof. intros a b. rewrite !cmp_le_spec. lia. Qed.

(** A merge sort meets the contract of [qsort]. *)
Module QsortRef.
#[export] Instance ref_qsort : Qsort := merge_sort cmp_le.
#[export] Instance ref_qsort_laws : QsortLaws.
Proof. constructor; intros l; [apply merge_sort_Permutation|apply (StronglySorted_merge_sort _)]. Qed.
End QsortRef.

(** ** Quoted strings are decoded

    The meaning of the bytes between two quotes: a backslash keeps its place
    unless a quote or a backslash follows; [None] when an unescaped quote or the
    end comes too early. *)
Fixpoint unquote (esc : bool) (raw : list Z) : option (list Z) :=
  match raw with
  | [] => if esc then None else Some []
  | c :: raw =>
      if esc then
        s ← unquote false raw;
        Some (if (c =? QUOTE) || (c =? BACKSLASH) then c :: s else BACKSLASH :: c :: s)
      else if c =? BACKSLASH then unquote true raw
      else if c =? QUOTE then None
      else s ← unquote false raw; Some (c :: s)
  end.

Lemma wr_at w rest i c :
  i = Z.of_nat (length w) -> (0 < length rest)%nat ->
  wr (w ++ rest) i c = Some (w ++ c :: drop 1 rest).
Proof.
  intros -> Hr. rewrite wr_Some by (rewrite length_app; lia).
  rewrite Nat2Z.id. destruct rest as [|x rest]; [simpl in Hr; lia|].
  by rewrite insert_app_r_alt, Nat.sub_diag by lia.
Qed.

Lemma unquote_length esc raw s :
  unquote esc raw = Some s -> (length s <= length raw + (if esc then 1 else 0))%nat.
Proof.
  revert esc s. induction raw as [|c raw IH]; intros esc s H; cbn [unquote] in H.
  { destruct esc; simplify_eq. simpl; lia. }
  destruct esc.
  - simp_opt. match goal with E : unquote false raw = Some _ |- _ => apply IH in E end.
    case_match; simpl in *; lia.
  - destruct (c =? BACKSLASH); [apply IH in H; simpl in *; lia|].
    destruct (c =? QUOTE); [done|]. simp_opt.
    match goal with E : unquote false raw = Some _ |- _ => apply IH in E end. simpl in *; lia.
Qed.

(** Inside the quotes the loop writes the decoded bytes; when a backslash is
    pending it has been written already. *)
Lemma extract_loop_quoted raw esc s post pos len off w rest :
  unquote esc raw = Some s ->
  0 <= off -> pos + Z.of_nat (length raw) < len -> (length s < length rest)%nat ->
  pos - off = Z.of_nat (length w) + (if esc then 1 else 0) ->
  (esc = true -> exists rest', rest = BACKSLASH :: rest') ->
  exists off', 0 <= off' /\
  extract_loop (raw ++ QUOTE :: post) pos len esc off (w ++ rest)
  = Some (off', w ++ s ++ 0 :: drop (S (length s)) rest).
Proof.
  revert esc s pos off w rest. induction raw as [|c raw IH]; intros esc s pos off w rest Hu Ho Hp Hs Hw He.
  { destruct esc; [done|]. simpl in Hu. simplify_eq. cbn [app extract_loop length] in *.
    rewrite (proj2 (Z.leb_gt len pos)) by lia.
    rewrite (proj2 (Z.eqb_neq off (-1))) by lia. cbn [andb].
    rewrite (proj2 (Z.leb_le 0 off)) by lia.
    change (QUOTE =? BACKSLASH) with false. change (negb (QUOTE =? QUOTE)) with false. cbv iota.
    rewrite wr_at by lia. exists off. split; [lia|done]. }
  cbn [app extract_loop length] in *. rewrite Nat2Z.inj_succ in Hp.
  rewrite (proj2 (Z.leb_gt len pos)) by lia.
  rewrite (proj2 (Z.eqb_neq off (-1))) by lia. cbn [andb].
  rewrite (proj2 (Z.leb_le 0 off)) by lia.
  destruct esc.
  - destruct (He eq_refl) as [rest' ->]. cbn [unquote] in Hu. simp_opt.
    match goal with E : unquote false raw = Some ?x |- _ => rename x into t; rename E into Ht end.
    destruct ((c =? QUOTE) || (c =? BACKSLASH)) eqn:Ec; simplify_eq.
    + rewrite wr_at by lia. cbn [mbind option_bind drop]. rewrite drop_0. cbn [length] in *.
      replace (w ++ c :: rest') with ((w ++ [c]) ++ rest') by list_assoc.
      destruct (IH false t (pos + 1) (off + 1) (w ++ [c]) rest') as (off' & H0 & ->);
        [done|lia|lia|lia|rewrite length_app; simpl; lia|done|].
      exists off'. split; [done|]. f_equal. f_equal. list_assoc.
    + replace (w ++ BACKSLASH :: rest') with ((w ++ [BACKSLASH]) ++ rest') by list_assoc.
      cbn [length] in Hs.
      rewrite wr_at by (rewrite ?length_app; simpl; lia). cbn [mbind option_bind].
      replace ((w ++ [BACKSLASH]) ++ c :: drop 1 rest') with ((w ++ [BACKSLASH; c]) ++ drop 1 rest') by list_assoc.
      destruct (IH false t (pos + 1) off (w ++ [BACKSLASH; c]) (drop 1 rest')) as (off' & H0 & ->);
        [done|lia|lia|rewrite length_drop; lia|rewrite length_app; simpl; lia|done|].
      exists off'. split; [done|]. f_equal. f_equal. rewrite drop_drop. cbn [length drop Nat.add]. list_assoc.
  - cbn [unquote] in Hu. destruct (c =? BACKSLASH) eqn:Eb.
    + rewrite wr_at by lia. cbn [mbind option_bind].
      apply Z.eqb_eq in Eb as ->.
      pose proof (unquote_length _ _ _ Hu) as Hul.
      destruct (IH true s (pos + 1) off w (BACKSLASH :: drop 1 rest)) as (off' & H0 & ->);
        [done|lia|lia|simpl; rewrite length_drop; lia|lia|eauto|].
      exists off'. split; [done|]. f_equal. f_equal. cbn [drop]. by rewrite drop_drop.
    + destruct (c =? QUOTE) eqn:Eq; [done|]. simp_opt. cbn [negb].
      match goal with E : unquote false raw = Some ?x |- _ => rename x into t; rename E into Ht end.
      cbn [length] in *. rewrite wr_at by lia. cbn [mbind option_bind].
      replace (w ++ c :: drop 1 rest) with ((w ++ [c]) ++ drop 1 rest) by list_assoc.
      destruct (IH false t (pos + 1) off (w ++ [c]) (drop 1 rest)) as (off' & H0 & ->);
        [done|lia|lia|rewrite length_drop; lia|rewrite length_app; simpl; lia|done|].
      exists off'. split; [done|]. f_equal. f_equal. rewrite drop_drop. list_assoc.
Qed.

Notation no_quote := (Forall (fun c => c <> QUOTE)).
Notation nonzero := (Forall (fun c => c <> 0)).

Lemma extract_loop_prefix pre s pos len dest :
  no_quote pre -> pos + Z.of_nat (length pre) < len ->
  extract_loop (pre ++ QUOTE :: s) pos len false (-1) dest
  = extract_loop s (pos + Z.of_nat (length pre) + 1) len false (pos + Z.of_nat (length pre) + 1) dest.
Proof.
  intros Hq. revert pos. induction Hq as [|c pre Hc _ IH]; intros pos Hp; cbn [app extract_loop length] in *.
  - rewrite (proj2 (Z.leb_gt len pos)) by lia. by rewrite Z.add_0_r.
  - rewrite (proj2 (Z.leb_gt len pos)) by lia.
    rewrite (proj2 (Z.eqb_neq c QUOTE)), andb_false_r by done. cbn [Z.leb Z.compare].
    rewrite IH by lia. f_equal; lia.
Qed.

Lemma extract_loop_none s pos len dest :
  no_quote s -> extract_loop s pos len false (-1) dest = Some (-1, dest).
Proof.
  intros Hq. revert pos. induction Hq as [|c s Hc _ IH]; intros pos; cbn [extract_loop]; [done|].
  case_bool; [done|].
  rewrite (proj2 (Z.eqb_neq c QUOTE)), andb_false_r by done. apply IH.
Qed.

Lemma unquote_nonzero esc raw s : nonzero raw -> unquote esc raw = Some s -> nonzero s.
Proof.
  intros Hr. revert esc s. induction Hr as [|c raw Hc _ IH]; intros esc s H; cbn [unquote] in H.
  { destruct esc; by simplify_eq. }
  destruct esc.
  - simp_opt. match goal with E : unquote false raw = Some _ |- _ => apply IH in E end.
    case_match; repeat constructor; done.
  - destruct (c =? BACKSLASH); [by eapply IH|]. destruct (c =? QUOTE); [done|]. simp_opt.
    match goal with E : unquote false raw = Some _ |- _ => apply IH in E end. by constructor.
Qed.

(** What [extract_string] does on a line with a quoted string: the number of
    decoded bytes, and the bytes with a NUL at the start of the destination. *)
Lemma extract_string_quoted pre raw post s dest :
  let line := pre ++ QUOTE :: raw ++ QUOTE :: post in
  no_quote pre -> nonzero line -> (length line < BUF)%nat -> length dest = BUF ->
  unquote false raw = Some s ->
  extract_string (cbuf BUF line) dest (Z.of_nat BUF)
  = Some (Z.of_nat (length s), s ++ 0 :: drop (S (length s)) dest).
Proof.
  intros line Hpre Hnz Hlen Hdest Hu. unfold extract_string.
  rewrite cstr_cbuf by done. cbn [mbind option_bind]. subst line.
  rewrite !length_app in Hlen. cbn [length] in Hlen. rewrite length_app in Hlen.
  pose proof (unquote_length _ _ _ Hu) as Hul. cbn [length] in Hlen, Hul. cbv iota in Hul.
  rewrite extract_loop_prefix by (done || lia).
  destruct (extract_loop_quoted raw false s post (0 + Z.of_nat (length pre) + 1) (Z.of_nat BUF)
    (0 + Z.of_nat (length pre) + 1) [] dest) as (off' & H0 & Hx); [done|lia|lia|lia|simpl; lia|done|].
  cbn [app] in Hx. rewrite Hx. cbn [mbind option_bind].
  rewrite (proj2 (Z.ltb_lt (-1) off')) by lia.
  unfold strlen. rewrite cstr_app; [done|].
  eapply (unquote_nonzero false raw); [|done].
  apply Forall_app in Hnz as [_ Hnz]. apply Forall_cons in Hnz as [_ Hnz].
  by apply Forall_app in Hnz as [Hnz _].
Qed.

Lemma extract_string_none s dest :
  no_quote s -> nonzero s -> (length s < BUF)%nat ->
  extract_string (cbuf BUF s) dest (Z.of_nat BUF) = Some (-1, dest).
Proof.
  intros Hq Hnz Hl. unfold extract_string. rewrite cstr_cbuf by done. cbn [mbind option_bind].
  by rewrite extract_loop_none.
Qed.

(** Over a cleared buffer the destination is the decoded string, zero padded. *)
Lemma zeros_write s : (length s < BUF)%nat ->
  s ++ 0 :: drop (S (length s)) (replicate BUF 0) = cbuf BUF s.
Proof.
  intros Hs. rewrite drop_replicate. unfold cbuf. f_equal.
  by replace (BUF - length s)%nat with (S (BUF - S (length s))) by lia.
Qed.

Lemma strcat_cbuf k t src :
  nonzero k -> cstr src = Some t -> (length k + length t < BUF)%nat ->
  strcat (cbuf BUF k) src = Some (cbuf BUF (k ++ t)).
Proof.
  intros Hk Ht Hl. unfold strcat. rewrite cstr_cbuf by (done || lia). rewrite Ht. cbn [mbind option_bind].
  rewrite mwrite_in by (rewrite ?length_cbuf, ?length_app by lia; simpl; lia).
  f_equal. rewrite Nat2Z.id. unfold cbuf.
  rewrite take_app_length, !length_app. cbn [length].
  rewrite drop_app_ge by lia. rewrite drop_replicate, <- !app_assoc. do 2 f_equal.
  replace (BUF - (length k + length t))%nat with (S (BUF - length k - S (length t))) by lia.
  cbn [app replicate]. do 2 f_equal. lia.
Qed.

(** ** Messages as text

    A message of a .po file: comment lines, the pieces of the key, the pieces of
    the text and an empty line.  The pieces are the bytes between the quotes. *)

Record msg := mkMsg {
  comments : list (list Z);
  id_head : list Z; id_tail : list (list Z);
  str_head : list Z; str_tail : list (list Z) }.

Definition quoted (raw : list Z) : list Z := QUOTE :: raw ++ [QUOTE; 10].

Definition msg_lines (m : msg) : list (list Z) :=
  map (fun c => c ++ [10]) (comments m) ++
  (bytes_of "msgid " ++ quoted (id_head m)) :: map quoted (id_tail m) ++
  (bytes_of "msgstr " ++ quoted (str_head m)) :: map quoted (str_tail m) ++ [[10]].

Definition po_text (ms : list msg) : list Z := concat (concat (map msg_lines ms)).

Definition decode (raw : list Z) : list Z := default [] (unquote false raw).
Definition msg_key (m : msg) : list Z := decode (id_head m) ++ concat (map decode (id_tail m)).
Definition msg_val (m : msg) : list Z := decode (str_head m) ++ concat (map decode (str_tail m)).

(** A line without its line feed fits [fgets] with it. *)
Definition line_ok (l : list Z) : Prop :=
  nonzero l /\ Forall (fun c => c <> 10) l /\ (length l + 20 <= BUF)%nat.
Definition piece_ok (raw : list Z) : Prop := line_ok raw /\ is_Some (unquote false raw).
Definition comment_ok (c : list Z) : Prop := line_ok c /\ starts_with (c ++ [10]) MSGID = false.

(** A key of several pieces begins with an empty one; key and text fit their
    buffers. *)
Definition msg_ok (m : msg) : Prop :=
  Forall comment_ok (comments m) /\
  piece_ok (id_head m) /\ Forall piece_ok (id_tail m) /\
  piece_ok (str_head m) /\ Forall piece_ok (str_tail m) /\
  (id_tail m = [] \/ decode (id_head m) = []) /\
  (length (msg_key m) < BUF)%nat /\ (length (msg_val m) < BUF)%nat.

(** *** The lines come back from [fgets] *)

(** A text line: its bytes and a line feed. *)
Definition text_line (l : list Z) : Prop :=
  exists b, l = b ++ [10] /\ nonzero b /\ Forall (fun c => c <> 10) b /\ (length b + 1 < BUF)%nat.

Lemma fgets_lines ls : Forall text_line ls -> fgets_all BUF (concat ls) = ls.
Proof.
  induction 1 as [|l ls (b & -> & _ & Hb & Hn) _ IH]; [done|].
  cbn [concat]. rewrite fgets_line by done. by rewrite IH.
Qed.

Lemma quoted_line pre raw :
  nonzero pre -> Forall (fun c => c <> 10) pre -> (length pre <= 10)%nat -> line_ok raw ->
  text_line (pre ++ quoted raw).
Proof.
  intros Hp0 Hp Hl (H0 & Hnl & Hr). exists (pre ++ QUOTE :: raw ++ [QUOTE]). unfold quoted, QUOTE.
  split_and!.
  - list_assoc.
  - apply Forall_app; split; [done|]. constructor; [done|]. apply Forall_app; split; [done|]. by repeat constructor.
  - apply Forall_app; split; [done|]. constructor; [done|]. apply Forall_app; split; [done|]. by repeat constructor.
  - rewrite length_app. cbn [length]. rewrite length_app. cbn [length]. lia.
Qed.

Lemma msg_lines_text m : msg_ok m -> Forall text_line (msg_lines m).
Proof.
  intros (Hc & [Hih _] & Hit & [Hsh _] & Hst & _). unfold msg_lines.
  assert (forall l, Forall piece_ok l -> Forall text_line (map quoted l)) as Htail.
  { intros l Hl. apply Forall_map. apply (Forall_imp _ _ _ Hl). intros raw [Hraw _].
    apply (quoted_line [] raw); [done|done|simpl; lia|done]. }
  apply Forall_app; split.
  { apply Forall_map. apply (Forall_imp _ _ _ Hc). intros c [(H0 & Hnl & Hl) _].
    exists c. split_and!; [done|done|done|lia]. }
  assert (forall p raw, p = bytes_of "msgid " \/ p = bytes_of "msgstr " -> line_ok raw ->
    text_line (p ++ quoted raw)) as Hhead.
  { intros p raw [-> | ->] Hr; (apply quoted_line; [by repeat constructor|by repeat constructor|simpl; lia|done]). }
  constructor; [apply Hhead; auto|]. apply Forall_app; split; [by apply Htail|].
  constructor; [apply Hhead; auto|]. apply Forall_app; split; [by apply Htail|].
  constructor; [|done]. exists []. split_and!; [done|done|done|]. unfold BUF; simpl; lia.
Qed.

Lemma fgets_po_text ms : Forall msg_ok ms -> fgets_all BUF (po_text ms) = concat (map msg_lines ms).
Proof.
  intros Hms. apply fgets_lines. induction Hms as [|m ms Hm _ IH]; [done|].
  apply Forall_app; split; [by apply msg_lines_text|done].
Qed.

(** *** One line in each state *)

Section Lines.
Context (signed_char : bool).
Notation po_line := (po_line signed_char).
Notation po_chunks := (po_chunks signed_char).

(** The program between two lines: buffers that hold strings. *)
Definition po_at (k v t : list Z) (n off : Z) (arr : list lmo_entry) (o : list Z) : po :=
  mkPo (cbuf BUF k) (cbuf BUF v) t n off arr o.

Lemma po_finish_id s : state s <> 4 -> po_finish signed_char s = Some s.
Proof. intros H. unfold po_finish. by rewrite (proj2 (Z.eqb_neq _ _)). Qed.

Lemma decode_some raw : is_Some (unquote false raw) -> unquote false raw = Some (decode raw).
Proof. unfold decode. by intros [s ->]. Qed.

Lemma decode_nonzero raw : nonzero raw -> nonzero (decode raw).
Proof.
  intros Hr. unfold decode. destruct (unquote false raw) eqn:E; [|done]. by eapply unquote_nonzero.
Qed.

(** A line [pre"raw"] as the functions read it. *)
Lemma extract_line pre raw dest :
  no_quote pre -> nonzero pre -> (length pre <= 10)%nat -> piece_ok raw -> length dest = BUF ->
  extract_string (cbuf BUF (pre ++ quoted raw)) dest (Z.of_nat BUF)
  = Some (Z.of_nat (length (decode raw)), decode raw ++ 0 :: drop (S (length (decode raw))) dest).
Proof.
  intros Hq Hp Hl [(H0 & Hnl & Hr) Hu] Hd. unfold quoted.
  apply (extract_string_quoted pre raw [10]); [done| | |done|by apply decode_some].
  - apply Forall_app; split; [done|]. unfold QUOTE. constructor; [done|].
    apply Forall_app; split; [done|by repeat constructor].
  - rewrite length_app. cbn [length]. rewrite length_app. cbn [length]. lia.
Qed.

Lemma quoted_cstr pre raw :
  nonzero pre -> (length pre <= 10)%nat -> piece_ok raw ->
  cstr (cbuf BUF (pre ++ quoted raw)) = Some (pre ++ quoted raw).
Proof.
  intros Hp Hl [(H0 & Hnl & Hr) Hu]. unfold quoted, QUOTE. apply cstr_cbuf.
  - apply Forall_app; split; [done|]. constructor; [done|].
    apply Forall_app; split; [done|by repeat constructor].
  - rewrite length_app. cbn [length]. rewrite length_app. cbn [length]. lia.
Qed.

Lemma tail_extract raw dest :
  piece_ok raw -> length dest = BUF ->
  extract_string (cbuf BUF (quoted raw)) dest (Z.of_nat BUF)
  = Some (Z.of_nat (length (decode raw)), decode raw ++ 0 :: drop (S (length (decode raw))) dest).
Proof. intros. apply (extract_line []); done || (simpl; lia). Qed.

Lemma tail_cstr raw : piece_ok raw -> cstr (cbuf BUF (quoted raw)) = Some (quoted raw).
Proof. intros. apply (quoted_cstr []); done || (simpl; lia). Qed.

Lemma id_prefix raw : starts_with (bytes_of "msgid " ++ quoted raw) MSGID = true.
Proof. by apply bool_decide_eq_true. Qed.
Lemma str_prefix raw : starts_with (bytes_of "msgstr " ++ quoted raw) MSGSTR = true.
Proof. by apply bool_decide_eq_true. Qed.
Lemma tail_prefix raw : starts_with (quoted raw) MSGSTR = false.
Proof. by apply bool_decide_eq_false. Qed.

(** The decoded string at the start of an object is what is read back. *)
Lemma cstr_decode raw rest : line_ok raw -> cstr (decode raw ++ 0 :: rest) = Some (decode raw).
Proof. intros (H0 & _). apply cstr_app. by apply decode_nonzero. Qed.

Lemma decode_fits raw : piece_ok raw -> (length (decode raw) < BUF)%nat.
Proof. intros [(_ & _ & Hl) Hu]. apply decode_some, unquote_length in Hu. lia. Qed.

Lemma decoded_length raw t :
  piece_ok raw -> length t = BUF ->
  length (decode raw ++ 0 :: drop (S (length (decode raw))) t) = BUF.
Proof.
  intros Hr%decode_fits Ht. rewrite length_app. cbn [length]. rewrite length_drop. lia.
Qed.

Lemma comment_line c v t off arr o :
  comment_ok c ->
  po_line (cbuf BUF (c ++ [10])) (po_at [] v t 0 off arr o) = Some (Go (po_at [] v t 0 off arr o)).
Proof.
  intros [(H0 & Hnl & Hl) Hs]. unfold Po2lmo.po_line, po_state.
  rewrite cstr_cbuf; [|apply Forall_app; split; [done|by repeat constructor]|rewrite length_app; simpl; lia].
  cbn [mbind option_bind state po_at]. rewrite Hs. cbn [andb orb Z.eqb mbind option_bind].
  by rewrite po_finish_id by done.
Qed.

Lemma id_head_line raw t off arr o :
  piece_ok raw ->
  po_line (cbuf BUF (bytes_of "msgid " ++ quoted raw)) (po_at [] [] t 0 off arr o)
  = Some (Go (po_at (decode raw) [] t (if bool_decide (decode raw = []) then 1 else 2) off arr o)).
Proof.
  intros Hr. unfold Po2lmo.po_line, po_state.
  rewrite quoted_cstr by (done || (by repeat constructor) || (simpl; lia)).
  cbn [mbind option_bind state po_at]. rewrite id_prefix. cbn [andb Z.eqb key].
  rewrite extract_line by (done || (by repeat constructor) || (simpl; lia)).
  cbn [mbind option_bind]. change (cbuf BUF []) with (replicate BUF 0).
  pose proof (decode_fits raw Hr) as Hl.
  rewrite zeros_write by done.
  rewrite (proj2 (Z.eqb_neq _ (-1))) by lia.
  destruct (decode raw) as [|c d] eqn:E.
  - change (Z.of_nat (length []) =? 0) with true. cbn [mbind option_bind].
    by rewrite po_finish_id by done.
  - rewrite (proj2 (Z.eqb_neq _ 0)) by (simpl; lia). cbn [mbind option_bind].
    by rewrite po_finish_id by done.
Qed.

Lemma id_tail_line k raw t off arr o :
  piece_ok raw -> nonzero k -> length t = BUF -> (length k + length (decode raw) < BUF)%nat ->
  exists t', length t' = BUF /\
  po_line (cbuf BUF (quoted raw)) (po_at k [] t 1 off arr o)
  = Some (Go (po_at (k ++ decode raw) [] t' 1 off arr o)).
Proof.
  intros Hr Hk Ht Hl. eexists. split; [|unfold Po2lmo.po_line, po_state].
  2: { rewrite tail_cstr by done.
    cbn [mbind option_bind state po_at andb orb Z.eqb Pos.eqb]. rewrite tail_prefix. cbn [orb tmp po_at].
    rewrite tail_extract by done. cbn [mbind option_bind].
    rewrite (proj2 (Z.eqb_neq _ (-1))) by lia. cbn [key po_at].
    erewrite strcat_cbuf; [|done|by apply cstr_decode, Hr|done].
    cbn [mbind option_bind]. rewrite po_finish_id by done. done. }
  by apply decoded_length.
Qed.

Lemma str_head_line k raw t n off arr o :
  n = 1 \/ n = 2 -> piece_ok raw ->
  po_line (cbuf BUF (bytes_of "msgstr " ++ quoted raw)) (po_at k [] t n off arr o)
  = Some (Go (po_at k (decode raw) t 3 off arr o)).
Proof.
  intros Hn Hr. unfold Po2lmo.po_line, po_state.
  rewrite quoted_cstr by (done || (by repeat constructor) || (simpl; lia)).
  cbn [mbind option_bind state po_at]. rewrite str_prefix. cbn [orb].
  replace (n =? 0) with false by lia. cbn [andb].
  replace ((n =? 1) || (n =? 2)) with true by lia. cbn [val].
  rewrite extract_line by (done || (by repeat constructor) || (simpl; lia)).
  cbn [mbind option_bind]. change (cbuf BUF []) with (replicate BUF 0).
  pose proof (decode_fits raw Hr) as Hl.
  rewrite zeros_write by done.
  rewrite (proj2 (Z.eqb_neq _ (-1))) by lia.
  by rewrite po_finish_id by done.
Qed.

Lemma str_tail_line k v raw t off arr o :
  piece_ok raw -> nonzero v -> length t = BUF -> (length v + length (decode raw) < BUF)%nat ->
  exists t', length t' = BUF /\
  po_line (cbuf BUF (quoted raw)) (po_at k v t 3 off arr o)
  = Some (Go (po_at k (v ++ decode raw) t' 3 off arr o)).
Proof.
  intros Hr Hk Ht Hl. eexists. split; [|unfold Po2lmo.po_line, po_state].
  2: { rewrite tail_cstr by done.
    cbn [mbind option_bind state po_at andb orb Z.eqb Pos.eqb]. cbn [tmp po_at].
    rewrite tail_extract by done. cbn [mbind option_bind].
    rewrite (proj2 (Z.eqb_neq _ (-1))) by lia. cbn [val po_at].
    erewrite strcat_cbuf; [|done|by apply cstr_decode, Hr|done].
    cbn [mbind option_bind]. rewrite po_finish_id by done. done. }
  by apply decoded_length.
Qed.

(** *** A message *)

(** Whether a message gets an entry, its padded text, and its entry at [off]. *)
Definition emits (m : msg) : bool :=
  negb (bool_decide (msg_key m = [])) && negb (bool_decide (msg_val m = [])) &&
  negb (shash signed_char (msg_key m) =? shash signed_char (msg_val m)).
Definition padding (v : list Z) : Z := (4 - Z.of_nat (length v) mod 4) mod 4.
Definition pad (v : list Z) : list Z := v ++ replicate (Z.to_nat (padding v)) 0.
Definition text_of (m : msg) : list Z := if emits m then pad (msg_val m) else [].
Definition entry_of (off : Z) (m : msg) : list lmo_entry :=
  if emits m then [mkEntry (shash signed_char (msg_key m)) (shash signed_char (msg_val m)) off
                           (Z.of_nat (length (msg_val m)))] else [].

Lemma padding_range v : 0 <= padding v < 4.
Proof. apply Z.mod_pos_bound. lia. Qed.

Lemma padding_fits v : (length v < BUF)%nat -> Z.of_nat (length v) + padding v <= Z.of_nat BUF.
Proof.
  intros Hv. unfold padding.
  pose proof (Z.div_mod (Z.of_nat (length v)) 4). pose proof (Z.mod_pos_bound (Z.of_nat (length v)) 4).
  set (r := Z.of_nat (length v) mod 4) in *. set (q := Z.of_nat (length v) / 4) in *.
  destruct (decide (r = 0)) as [-> |].
  - change ((4 - 0) mod 4) with 0. lia.
  - rewrite Z.mod_small by lia. unfold BUF in *. lia.
Qed.

(** The end of a message: its text is written and its entry recorded. *)
Lemma emit_message k v t off arr o m :
  msg_key m = k -> msg_val m = v -> nonzero k -> nonzero v ->
  (length k < BUF)%nat -> (length v < BUF)%nat ->
  0 <= off -> off + Z.of_nat (length (text_of m)) < 2 ^ 31 ->
  po_finish signed_char (po_at k v t 4 off arr o)
  = Some (po_at [] [] t 0 (off + Z.of_nat (length (text_of m))) (arr ++ entry_of off m) (o ++ text_of m)).
Proof.
  intros Hk Hv Hkn Hvn Hkl Hvl Ho Hoff. unfold po_finish. cbn [state po_at Z.eqb Pos.eqb].
  unfold po_emit. cbn [key val po_at]. unfold strlen.
  rewrite !cstr_cbuf by done. cbn [mbind option_bind].
  unfold text_of, entry_of, emits in *. rewrite Hk, Hv in *.
  assert (forall l : list Z, (0 <? Z.of_nat (length l)) = negb (bool_decide (l = []))) as Hne.
  { intros [|x l]; [done|]. simpl. done. }
  rewrite !Hne. destruct (negb (bool_decide (k = [])) && negb (bool_decide (v = []))) eqn:Ene; cbn [andb] in *.
  2: { cbn [mbind option_bind length Z.of_nat]. rewrite Z.add_0_r, !app_nil_r. done. }
  assert (forall l, sfh_hash signed_char (Some (cbuf BUF l)) (Z.of_nat (length l))
                    = Some (shash signed_char l)) as Hh by (intros; apply shash_eq).
  rewrite !Hh. cbn [mbind option_bind].
  destruct (shash signed_char k =? shash signed_char v) eqn:Eh; cbn [negb] in *.
  { cbn [mbind option_bind length Z.of_nat]. rewrite Z.add_0_r, !app_nil_r. done. }
  pose proof (padding_range v) as Hp. pose proof (padding_fits v Hvl) as Hpf.
  fold (padding v).
  assert (mread (cbuf BUF v) 0 (Z.of_nat (length v) + padding v) = Some (pad v)) as ->.
  { replace (cbuf BUF v) with ([] ++ pad v ++ replicate (BUF - length v - Z.to_nat (padding v)) 0).
    - apply mread_app; [done|unfold pad; rewrite length_app, length_replicate; lia|unfold BUF in *; lia].
    - unfold pad, cbuf. cbn [app]. rewrite <- app_assoc, <- replicate_add. do 2 f_equal. lia. }
  cbn [mbind option_bind po_offset array out tmp state po_at].
  assert (Z.of_nat (length (pad v)) = Z.of_nat (length v) + padding v) as Hpl.
  { unfold pad. rewrite length_app, length_replicate. lia. }
  rewrite Hpl in *. rewrite (proj2 (Z.ltb_lt _ _)) by lia.
  cbn [mbind option_bind array out tmp]. rewrite (u32_id off) by lia.
  rewrite (u32_id (Z.of_nat (length v))) by (unfold BUF in *; lia). done.
Qed.

Lemma one_lt_BUF : (length [10] < BUF)%nat.
Proof. unfold BUF. simpl length. lia. Qed.

Lemma blank_line k v t off arr o m :
  msg_key m = k -> msg_val m = v -> nonzero k -> nonzero v ->
  (length k < BUF)%nat -> (length v < BUF)%nat ->
  0 <= off -> off + Z.of_nat (length (text_of m)) < 2 ^ 31 ->
  po_line (cbuf BUF [10]) (po_at k v t 3 off arr o)
  = Some (Go (po_at [] [] t 0 (off + Z.of_nat (length (text_of m))) (arr ++ entry_of off m) (o ++ text_of m))).
Proof.
  intros. unfold Po2lmo.po_line, po_state.
  rewrite cstr_cbuf; [|by repeat constructor|exact one_lt_BUF].
  cbn [mbind option_bind state po_at andb orb Z.eqb Pos.eqb].
  rewrite extract_string_none; [|by repeat constructor|by repeat constructor|exact one_lt_BUF].
  cbn [mbind option_bind]. change (-1 =? -1) with true. cbn [mbind option_bind].
  change (set_state 4 (set_tmp _ _)) with (po_at k v t 4 off arr o).
  erewrite emit_message by done. done.
Qed.

Lemma po_chunks_app a b s :
  po_chunks (a ++ b) s =
  (f ← po_chunks a s; match f with Go s => po_chunks b s | Die o => Some (Die o) end).
Proof.
  revert s. induction a as [|l a IH]; intros s; [done|]. cbn [app Po2lmo.po_chunks].
  destruct (po_line (cbuf BUF l) s) as [[s'|o]|]; cbn [mbind option_bind]; auto.
Qed.

Lemma comments_run cs v t off arr o :
  Forall comment_ok cs ->
  po_chunks (map (fun c => c ++ [10]) cs) (po_at [] v t 0 off arr o) = Some (Go (po_at [] v t 0 off arr o)).
Proof.
  induction 1 as [|c cs Hc _ IH]; [done|]. cbn [map Po2lmo.po_chunks].
  rewrite comment_line by done. cbn [mbind option_bind]. exact IH.
Qed.

(** Continuation lines of a key and of a text are appended to it. *)
Lemma id_tail_run rs k t off arr o :
  Forall piece_ok rs -> nonzero k -> length t = BUF ->
  (length (k ++ concat (map decode rs)) < BUF)%nat ->
  exists t', length t' = BUF /\
  po_chunks (map quoted rs) (po_at k [] t 1 off arr o)
  = Some (Go (po_at (k ++ concat (map decode rs)) [] t' 1 off arr o)).
Proof.
  intros Hrs. revert k t. induction Hrs as [|raw rs Hr _ IH]; intros k t Hk Ht Hl; cbn [map concat] in *.
  { exists t. by rewrite app_nil_r. }
  rewrite app_assoc in *. rewrite !length_app in Hl.
  destruct (id_tail_line k raw t off arr o) as (t1 & Ht1 & H1); [done..|lia|].
  destruct (IH (k ++ decode raw) t1) as (t2 & Ht2 & H2);
    [apply Forall_app; split; [done|apply decode_nonzero, Hr]|done|rewrite !length_app; lia|].
  exists t2. split; [done|]. cbn [Po2lmo.po_chunks]. rewrite H1. cbn [mbind option_bind]. by rewrite H2.
Qed.

Lemma str_tail_run rs k v t off arr o :
  Forall piece_ok rs -> nonzero v -> length t = BUF ->
  (length (v ++ concat (map decode rs)) < BUF)%nat ->
  exists t', length t' = BUF /\
  po_chunks (map quoted rs) (po_at k v t 3 off arr o)
  = Some (Go (po_at k (v ++ concat (map decode rs)) t' 3 off arr o)).
Proof.
  intros Hrs. revert v t. induction Hrs as [|raw rs Hr _ IH]; intros v t Hv Ht Hl; cbn [map concat] in *.
  { exists t. by rewrite app_nil_r. }
  rewrite app_assoc in *. rewrite !length_app in Hl.
  destruct (str_tail_line k v raw t off arr o) as (t1 & Ht1 & H1); [done..|lia|].
  destruct (IH (v ++ decode raw) t1) as (t2 & Ht2 & H2);
    [apply Forall_app; split; [done|apply decode_nonzero, Hr]|done|rewrite !length_app; lia|].
  exists t2. split; [done|]. cbn [Po2lmo.po_chunks]. rewrite H1. cbn [mbind option_bind]. by rewrite H2.
Qed.

Lemma concat_decode_nonzero rs : Forall piece_ok rs -> nonzero (concat (map decode rs)).
Proof.
  induction 1 as [|raw rs Hr _ IH]; [done|]. apply Forall_app; split; [apply decode_nonzero, Hr|done].
Qed.

Lemma msg_nonzero m : msg_ok m -> nonzero (msg_key m) /\ nonzero (msg_val m).
Proof.
  intros (_ & Hih & Hit & Hsh & Hst & _). unfold msg_key, msg_val.
  split; apply Forall_app; split; (apply decode_nonzero; by destruct Hih as [[]], Hsh as [[]]) || by apply concat_decode_nonzero.
Qed.

(** A message is read from the first state back to it. *)
Lemma msg_run m t off arr o :
  msg_ok m -> length t = BUF -> 0 <= off -> off + Z.of_nat (length (text_of m)) < 2 ^ 31 ->
  exists t', length t' = BUF /\
  po_chunks (msg_lines m) (po_at [] [] t 0 off arr o)
  = Some (Go (po_at [] [] t' 0 (off + Z.of_nat (length (text_of m))) (arr ++ entry_of off m) (o ++ text_of m))).
Proof.
  intros Hm Ht Ho Hoff. destruct (msg_nonzero m Hm) as [Hkn Hvn].
  destruct Hm as (Hc & Hih & Hit & Hsh & Hst & Hkey & Hkl & Hvl).
  unfold msg_lines. rewrite po_chunks_app, comments_run by done. cbn [mbind option_bind].
  cbn [Po2lmo.po_chunks]. rewrite id_head_line by done. cbn [mbind option_bind].
  rewrite po_chunks_app.
  assert (exists t1 n, length t1 = BUF /\ (n = 1 \/ n = 2) /\
    po_chunks (map quoted (id_tail m)) (po_at (decode (id_head m)) [] t
      (if bool_decide (decode (id_head m) = []) then 1 else 2) off arr o)
    = Some (Go (po_at (msg_key m) [] t1 n off arr o))) as (t1 & n & Ht1 & Hn & ->).
  { unfold msg_key in *. case_bool_decide as Hd.
    - destruct (id_tail_run (id_tail m) (decode (id_head m)) t off arr o) as (t1 & Ht1 & H1);
        [done|by rewrite Hd|done|done|]. eauto 10.
    - destruct Hkey as [Hn|]; [|done]. rewrite Hn. simpl. rewrite app_nil_r. eauto 10. }
  cbn [mbind option_bind Po2lmo.po_chunks]. rewrite str_head_line by done. cbn [mbind option_bind].
  rewrite po_chunks_app.
  destruct (str_tail_run (str_tail m) (msg_key m) (decode (str_head m)) t1 off arr o) as (t2 & Ht2 & ->);
    [done|apply decode_nonzero, Hsh|done|exact Hvl|].
  cbn [mbind option_bind Po2lmo.po_chunks]. fold (msg_val m).
  rewrite (blank_line _ _ _ _ _ _ m) by done. exists t2. split; [done|]. done.
Qed.

(** The texts and entries of a list of messages, from offset [off] on. *)
Fixpoint texts_of (ms : list msg) : list Z :=
  match ms with [] => [] | m :: ms => text_of m ++ texts_of ms end.
Fixpoint entries_of (off : Z) (ms : list msg) : list lmo_entry :=
  match ms with
  | [] => []
  | m :: ms => entry_of off m ++ entries_of (off + Z.of_nat (length (text_of m))) ms
  end.

Lemma msgs_run ms t off arr o :
  Forall msg_ok ms -> length t = BUF -> 0 <= off -> off + Z.of_nat (length (texts_of ms)) < 2 ^ 31 ->
  exists t', length t' = BUF /\
  po_chunks (concat (map msg_lines ms)) (po_at [] [] t 0 off arr o)
  = Some (Go (po_at [] [] t' 0 (off + Z.of_nat (length (texts_of ms)))
                    (arr ++ entries_of off ms) (o ++ texts_of ms))).
Proof.
  intros Hms. revert t off arr o. induction Hms as [|m ms Hm _ IH]; intros t off arr o Ht Ho Hoff;
    cbn [map concat texts_of entries_of] in *.
  { exists t. rewrite !app_nil_r. cbn [length Z.of_nat]. by rewrite Z.add_0_r. }
  rewrite length_app in Hoff.
  destruct (msg_run m t off arr o Hm Ht Ho) as (t1 & Ht1 & H1); [lia|].
  destruct (IH t1 (off + Z.of_nat (length (text_of m))) (arr ++ entry_of off m) (o ++ text_of m))
    as (t2 & Ht2 & H2); [done|lia|lia|].
  exists t2. split; [done|]. rewrite po_chunks_app, H1. cbn [mbind option_bind]. rewrite H2.
  do 3 f_equal; rewrite ?app_assoc; [|done|done]. rewrite length_app. lia.
Qed.

(** The loop over a printed file. *)
Lemma po_loop_text ms t off arr o :
  Forall msg_ok ms -> length t = BUF -> 0 <= off -> off + Z.of_nat (length (texts_of ms)) < 2 ^ 31 ->
  exists t',
  po_loop signed_char (po_text ms) (po_at [] [] t 0 off arr o)
  = Some (Go (po_at [] [] t' 0 (off + Z.of_nat (length (texts_of ms)))
                    (arr ++ entries_of off ms) (o ++ texts_of ms))).
Proof.
  intros Hms Ht Ho Hoff. destruct (msgs_run ms t off arr o Hms Ht Ho Hoff) as (t' & _ & Hr).
  exists t'. unfold po_loop. rewrite fgets_po_text by done. rewrite Hr. done.
Qed.

End Lines.

(** ** From messages to an archive *)

Lemma print_index_bytes `{Qsort} arr o : print_index arr o = o ++ index_bytes (qsort arr).
Proof.
  unfold print_index, index_bytes. revert o. induction (qsort arr) as [|e es IH]; intros o; cbn [foldl map concat].
  - by rewrite app_nil_r.
  - rewrite IH. unfold print_entry, print_uint32, entry_bytes. list_assoc.
Qed.

Section Archive.
Context (signed_char : bool) `{QsortLaws}.
Notation emits := (emits signed_char).
Notation text_of := (text_of signed_char).
Notation texts_of := (texts_of signed_char).
Notation entries_of := (entries_of signed_char).
Notation shash := (shash signed_char).

Lemma emits_text m : emits m = true -> text_of m = pad (msg_val m) /\ msg_val m <> [].
Proof.
  unfold Po2lmo.text_of. intros Hm. rewrite Hm. split; [done|]. intros Hv.
  unfold Po2lmo.emits in Hm. rewrite Hv, andb_false_r in Hm. done.
Qed.

(** Each entry has at least four bytes of text. *)
Lemma entries_count off ms : (4 * length (entries_of off ms) <= length (texts_of ms))%nat.
Proof.
  revert off. induction ms as [|m ms IH]; intros off; cbn [Po2lmo.entries_of Po2lmo.texts_of]; [done|].
  rewrite !length_app. specialize (IH (off + Z.of_nat (length (text_of m)))).
  set (es := entries_of _ ms) in *. clearbody es.
  destruct (emits m) eqn:Em.
  - destruct (emits_text m Em) as [Ht Hv]. unfold Po2lmo.entry_of. rewrite Em, Ht in *. cbn [length].
    unfold pad. rewrite length_app, length_replicate.
    destruct (msg_val m) as [|c v] eqn:E; [done|].
    assert (4 <= Z.of_nat (length (c :: v)) + padding (c :: v)); [|lia].
    unfold padding. set (n := Z.of_nat (length (c :: v))). assert (1 <= n) by (subst n; simpl; lia).
    destruct (decide (4 <= n)); [pose proof (Z.mod_pos_bound (4 - n mod 4) 4); lia|].
    rewrite (Z.mod_small n 4), Z.mod_small by lia. lia.
  - unfold Po2lmo.entry_of, Po2lmo.text_of in *. rewrite Em in *. cbn [length] in *. lia.
Qed.

(** What an entry says: the key of a message and where its text lies. *)
Lemma entries_spec ms A B e :
  e ∈ entries_of (Z.of_nat (length A)) ms -> Forall msg_ok ms ->
  exists m, m ∈ ms /\ emits m = true /\ key_id e = shash (msg_key m) /\ val_id e = shash (msg_val m) /\
    Z.of_nat (length A) <= offset e <= Z.of_nat (length A + length (texts_of ms)) /\
    len_ e = Z.of_nat (length (msg_val m)) /\
    mread (A ++ texts_of ms ++ B) (offset e) (len_ e) = Some (msg_val m).
Proof.
  revert A. induction ms as [|m ms IH]; intros A He Hms; cbn [Po2lmo.entries_of Po2lmo.texts_of] in *.
  { by apply elem_of_nil in He. }
  apply Forall_cons in Hms as [Hm Hms]. rewrite length_app.
  apply elem_of_app in He as [He|He].
  - exists m. unfold Po2lmo.entry_of in He. destruct (emits m) eqn:Em; [|by apply elem_of_nil in He].
    apply list_elem_of_singleton in He as ->. cbn [key_id val_id offset len_].
    split_and!; [by left|done|done|done|lia|lia|done|].
    destruct (emits_text m Em) as [-> _]. unfold pad.
    replace (A ++ _) with (A ++ msg_val m ++ (replicate (Z.to_nat (padding (msg_val m))) 0 ++ texts_of ms ++ B))
      by list_assoc.
    destruct Hm as (_ & _ & _ & _ & _ & _ & _ & Hv). apply mread_app; [done|done|unfold BUF in Hv; lia].
  - replace (Z.of_nat (length A) + Z.of_nat (length (text_of m))) with (Z.of_nat (length (A ++ text_of m))) in He
      by (rewrite length_app; lia).
    destruct (IH _ He Hms) as (m' & Hin & Hem & Hk & Hvi & Ho & Hl & Hr).
    exists m'. rewrite length_app in Ho. split_and!; [by right|done|done|done|lia|lia|done|].
    rewrite <- Hr. f_equal. list_assoc.
Qed.

Lemma entries_have ms off m :
  m ∈ ms -> emits m = true -> exists e, e ∈ entries_of off ms /\ key_id e = shash (msg_key m).
Proof.
  intros Hm Hem. revert off. induction ms as [|m' ms IH]; intros off; [by apply elem_of_nil in Hm|].
  cbn [Po2lmo.entries_of]. apply elem_of_cons in Hm as [->|Hm].
  - unfold Po2lmo.entry_of. rewrite Hem. eexists. split; [apply elem_of_app; left; by left|done].
  - destruct (IH Hm (off + Z.of_nat (length (text_of m')))) as (e & He & Hk).
    exists e. split; [apply elem_of_app; by right|done].
Qed.

Lemma entries_wf ms :
  Forall msg_ok ms -> Z.of_nat (length (texts_of ms)) < 2 ^ 31 ->
  Forall entry_wf (entries_of 0 ms).
Proof.
  intros Hms Ht. apply Forall_forall. intros e He.
  destruct (entries_spec ms [] [] e He Hms) as (m & Hin & _ & Hk & Hv & Ho & Hl & _).
  rewrite Forall_forall in Hms. destruct (Hms m Hin) as (_ & _ & _ & _ & _ & _ & _ & Hvl).
  unfold BUF in Hvl. simpl in Ho. unfold entry_wf.
  rewrite Hk, Hv. pose proof (shash_range signed_char (msg_key m)). pose proof (shash_range signed_char (msg_val m)).
  lia.
Qed.

Lemma qsort_ascending es : ascending (qsort es).
Proof.
  unfold ascending. induction (qsort_sorted es) as [|e l _ IH Hall]; constructor; [done|].
  apply (Forall_imp _ _ _ Hall). intros b Hb. by apply cmp_le_spec.
Qed.

(** The archive the program writes for a printed file. *)
Lemma po2lmo_archive ms tmp0 :
  Forall msg_ok ms -> length tmp0 = BUF -> Z.of_nat (length (texts_of ms)) < 2 ^ 31 ->
  entries_of 0 ms <> [] ->
  po2lmo signed_char tmp0 (po_text ms)
  = Some (Written (Some (archive_bytes (texts_of ms) (qsort (entries_of 0 ms))))).
Proof.
  intros Hms Ht Hl Hne. unfold po2lmo.
  destruct (po_loop_text signed_char ms tmp0 0 [] []) as (t' & Hr); [done|done|lia|lia|].
  change (po_init tmp0) with (po_at [] [] tmp0 0 0 [] []). rewrite Hr. cbn [mbind option_bind].
  unfold po_end. cbn [array out po_offset po_at app]. rewrite print_index_bytes.
  pose proof (entries_count 0 ms) as Hc.
  destruct (entries_of 0 ms) as [|e es] eqn:E; [done|]. cbn [length] in Hc.
  rewrite (proj2 (Z.ltb_lt _ _)) by lia.
  unfold print_uint32, archive_bytes. rewrite Z.add_0_l. by rewrite <- app_assoc.
Qed.

(** ** From messages to translations *)

(** The only file in the directory that matches the pattern of a language. *)
Definition one_archive (sys : system) (l dir name : list Z) : Prop :=
  Lmo.malloc_ok sys = true /\ Lmo.mmap_ok sys = true /\
  exists names, opendir sys dir = Some names /\
    filter (fun n => fnmatch sys (lang_pattern l) n = true) names = [name].

Lemma load_loop_one sys pat dir names name ars ar :
  filter (fun n => fnmatch sys pat n = true) names = [name] ->
  lmo_open (Lmo.malloc_ok sys) (Lmo.mmap_ok sys)
    (file_at sys (snprintf_s PATH_MAX (dir ++ chr "/" :: name))) = Some (Some ar) ->
  load_loop sys pat dir names ars = Some (ar :: ars).
Proof.
  intros Hf Ho.
  assert (forall l ars, filter (fun n => fnmatch sys pat n = true) l = [] ->
    load_loop sys pat dir l ars = Some ars) as Hnil.
  { induction l as [|n l IH]; intros a Hl; [done|]. cbn [load_loop]. rewrite filter_cons in Hl.
    destruct (fnmatch sys pat n); simpl in Hl; [done|]. by apply IH. }
  induction names as [|n names IH]; [done|]. cbn [load_loop].
  rewrite filter_cons in Hf. destruct (fnmatch sys pat n); simpl in Hf.
  - injection Hf as -> Hf. rewrite Ho. simpl. by apply Hnil.
  - by apply IH.
Qed.

(** Loading the first catalogue, when one archive matches. *)
Lemma load_one sys a l dir name ar :
  one_archive sys l dir name ->
  lmo_open (Lmo.malloc_ok sys) (Lmo.mmap_ok sys)
    (file_at sys (snprintf_s PATH_MAX (dir ++ chr "/" :: name))) = Some (Some ar) ->
  lmo_load_catalog sys (Some a) l (Some dir) (mkState ∅ [] None)
  = Some (0, mkState (<[a := mkCatalog (snprintf_s LANG_SIZE l) [ar]]> ∅) [a] (Some a)).
Proof.
  intros (_ & _ & names & Hdir & Hnames) Hopen.
  unfold lmo_load_catalog, lmo_change_catalog. cbn [store _lmo_catalogs find_lang mbind option_bind].
  change (-1 =? 0) with false. cbv iota. rewrite Hdir.
  rewrite (load_loop_one _ _ _ _ _ _ _ Hnames Hopen). done.
Qed.

(** Looking a key up in a catalogue of one archive. *)
Lemma translate_one a lng texts es k m i e :
  unwords (words k) = msg_key m -> Z.of_nat (length k) < RES_SIZE ->
  lmo_find_entry (opened texts es) (shash (msg_key m)) = Some (Some i) ->
  0 <= i -> es !! Z.to_nat i = Some e -> entry_wf e -> len_ e < 2 ^ 31 ->
  lmo_translate signed_char (Some k) (Z.of_nat (length k))
    (mkState (<[a := mkCatalog lng [opened texts es]]> ∅) [a] (Some a))
  = Some (0, Some (opened texts es, offset e, len_ e)).
Proof.
  intros Hk Hkl Hres Hi He Hwf Hl.
  pose proof (canon_hash_words signed_char k [] Hkl) as Hcan. rewrite app_nil_r, Hk in Hcan.
  erewrite lmo_translate_active; [|exact Hcan|apply lookup_insert_eq]. cbn [archives].
  destruct (opened_fields texts es _ e He Hwf) as (_ & Hoff & Hlen').
  rewrite Z2Nat.id in * by lia. destruct Hwf as (_ & _ & _ & ?).
  rewrite (translate_loop_hit _ _ _ _ _ _ Hres Hoff Hlen'). by rewrite s32_id by lia.
Qed.

(** An archive with the texts of messages and an ascending index of their
    entries translates. *)
Lemma loaded_translates ms es sys a l dir name m k :
  Forall msg_ok ms -> Z.of_nat (length (texts_of ms)) < 2 ^ 29 ->
  es ≡ₚ entries_of 0 ms -> ascending es ->
  m ∈ ms -> emits m = true ->
  (forall m', m' ∈ ms -> emits m' = true -> shash (msg_key m') = shash (msg_key m) -> msg_val m' = msg_val m) ->
  unwords (words k) = msg_key m -> Z.of_nat (length k) < RES_SIZE ->
  one_archive sys l dir name ->
  file_at sys (snprintf_s PATH_MAX (dir ++ chr "/" :: name)) = Some (archive_bytes (texts_of ms) es) ->
  exists s ar off,
    lmo_load_catalog sys (Some a) l (Some dir) (mkState ∅ [] None) = Some (0, s) /\
    lmo_translate signed_char (Some k) (Z.of_nat (length k)) s
    = Some (0, Some (ar, off, Z.of_nat (length (msg_val m)))) /\
    mread (mmap ar) off (Z.of_nat (length (msg_val m))) = Some (msg_val m).
Proof.
  intros Hms Hlen Hperm Hasc Hin Hem Huniq Hk Hkl Hone Hfile.
  destruct (entries_have ms 0 m Hin Hem) as (e0 & He0 & Hke0).
  pose proof (entries_count 0 ms) as Hc. pose proof (Permutation_length Hperm) as Hpl.
  assert (Forall entry_wf es) as Hwf by (rewrite Hperm; apply entries_wf; [done|lia]).
  assert (lmo_open (Lmo.malloc_ok sys) (Lmo.mmap_ok sys)
    (file_at sys (snprintf_s PATH_MAX (dir ++ chr "/" :: name))) = Some (Some (opened (texts_of ms) es))) as Hopen.
  { destruct Hone as (-> & -> & _). rewrite Hfile. apply lmo_open_bytes. rewrite length_archive_bytes. lia. }
  destruct (find_entry_returns (texts_of ms) es (shash (msg_key m))) as (res & Hres & Hspec);
    [done|done|by intros ->; rewrite <- Hperm in He0; apply elem_of_nil in He0|lia|].
  destruct res as [i|].
  2: { exfalso. apply Hspec. rewrite <- Hke0. apply list_elem_of_fmap. exists e0. split; [done|]. by rewrite Hperm. }
  destruct Hspec as (e & He & Hke & Hi).
  assert (e ∈ entries_of 0 ms) as Hees by (rewrite <- Hperm; by eapply list_elem_of_lookup_2).
  destruct (entries_spec ms [] (index_bytes es ++ htonl_bytes (Z.of_nat (length (texts_of ms)))) e Hees Hms)
    as (m' & Hin' & Hem' & Hk' & _ & Ho & Hl' & Hrd).
  rewrite (Huniq m' Hin' Hem') in * by congruence.
  rewrite Forall_forall in Hms. destruct (Hms m Hin) as (_ & _ & _ & _ & _ & _ & _ & Hvl).
  rewrite Forall_lookup in Hwf. unfold BUF in Hvl. rewrite <- Hl' in *.
  eexists. exists (opened (texts_of ms) es), (offset e).
  split; [by eapply load_one|]. split; [|exact Hrd].
  eapply translate_one; [done|done|exact Hres|done|exact He|by eapply Hwf|lia].
Qed.


End Archive.

Section Example.
Import QsortRef.

(** A file with a comment, a key in two pieces, an escaped quote, and a key whose
    spelling at the lookup differs in blanks. *)
Definition msg1 : msg :=
  mkMsg [bytes_of "# menu"] (bytes_of "Save all") [] (bytes_of "Guardar ") [bytes_of "todo"].
Definition msg2 : msg :=
  mkMsg [] [] [bytes_of "a "; [BACKSLASH; QUOTE]] [] [[BACKSLASH; BACKSLASH] ++ bytes_of "b"].
Definition po_example : list Z := po_text [msg1; msg2].
Definition file_example : list Z :=
  match po2lmo true (replicate BUF 7) po_example with
  | Some (Written (Some f)) => f
  | _ => []
  end.
Definition sys_example : system :=
  mkSystem (fun _ => Some [bytes_of "README"; bytes_of "x.es.lmo"])
           (fun p => if bool_decide (p = bytes_of "/i/x.es.lmo") then Some file_example else None)
           (fun pat n => bool_decide (n = bytes_of "x.es.lmo")) true true.

Definition line_check (l : list Z) : bool :=
  forallb (fun c => negb (c =? 0) && negb (c =? 10)) l && (length l + 20 <=? 4096)%nat.
Definition piece_check (raw : list Z) : bool :=
  line_check raw && match unquote false raw with Some _ => true | None => false end.
Definition msg_check (m : msg) : bool :=
  forallb (fun c => line_check c && negb (starts_with (c ++ [10]) MSGID)) (comments m) &&
  piece_check (id_head m) && forallb piece_check (id_tail m) &&
  piece_check (str_head m) && forallb piece_check (str_tail m) &&
  match id_tail m, decode (id_head m) with _ :: _, _ :: _ => false | _, _ => true end &&
  (length (msg_key m) <? 4096)%nat && (length (msg_val m) <? 4096)%nat.

Lemma line_check_ok l : line_check l = true -> line_ok l.
Proof.
  intros [H Hl]%andb_true_iff. apply Nat.leb_le in Hl. rewrite forallb_forall in H.
  split_and!; [| |exact Hl]; apply List.Forall_forall; intros c Hc%H; lia.
Qed.

Lemma piece_check_ok raw : piece_check raw = true -> piece_ok raw.
Proof.
  intros [H Hu]%andb_true_iff. split; [by apply line_check_ok|]. by destruct (unquote false raw).
Qed.

Lemma forallb_ok {A} (f : A -> bool) (P : A -> Prop) l :
  (forall x, f x = true -> P x) -> forallb f l = true -> Forall P l.
Proof. intros HP H. rewrite forallb_forall in H. apply List.Forall_forall. auto. Qed.

Lemma msg_check_ok m : msg_check m = true -> msg_ok m.
Proof.
  unfold msg_check. intros [[[[[[[Hc Hih]%andb_true_iff Hit]%andb_true_iff Hsh]%andb_true_iff
    Hst]%andb_true_iff Hor]%andb_true_iff Hk]%andb_true_iff Hv]%andb_true_iff.
  apply Nat.ltb_lt in Hk, Hv. split_and!; [|by apply piece_check_ok| |by apply piece_check_ok| | |done|done].
  - eapply forallb_ok; [|exact Hc]. intros c [Hl Hs]%andb_true_iff.
    split; [by apply line_check_ok|by apply negb_true_iff].
  - eapply forallb_ok; [|exact Hit]. apply piece_check_ok.
  - eapply forallb_ok; [|exact Hst]. apply piece_check_ok.
  - destruct (id_tail m); [by left|]. right. by destruct (decode (id_head m)).
Qed.

Lemma examples_ok : Forall msg_ok [msg1; msg2].
Proof. apply (forallb_ok msg_check); [exact msg_check_ok|vm_compute; reflexivity]. Qed.


End Example.

End Po2lmo.
