(* ===== verification/Lmotool.v ===== *)
(** * Lmotool: printing and extending a catalogue

    Models tools/lmotool/src/lmotool.c of luci-app-autorepeater.  With one
    argument the program prints the messages of an archive; with three it copies
    the archive, reads a .po file with the loop of po2lmo (the same text in both
    programs) and writes the extended archive. *)

From stdpp Require Import sorting.
From S2P Require Import Prelude Libc Lmo Po2lmo.

Import Libc Lmo Po2lmo.

Module Lmotool.

(** ** Printing an archive *)

(** [printf] of [%.*s]: bytes up to a NUL, at most [n] of them; a negative count
    is no limit. *)
Fixpoint take_text (n : nat) (buf : list Z) : option (list Z) :=
  match n with
  | O => Some []
  | S n =>
      match buf with
      | [] => None
      | c :: buf => if c =? 0 then Some [] else t ← take_text n buf; Some (c :: t)
      end
  end.
Definition print_text (map : list Z) (off n : Z) : option (list Z) :=
  if (off <? 0) || (Z.of_nat (length map) <? off) then None else
  take_text (if s32 n <? 0 then S (length map) else Z.to_nat n) (drop (Z.to_nat off) map).

Definition print_message (ar : lmo_archive) (l : Z) : option (list Z) :=
  key_id ← ntohl_at (mmap ar) (index ar + ENTRY_SIZE * l);
  len ← ntohl_at (mmap ar) (index ar + ENTRY_SIZE * l + 12);
  off ← ntohl_at (mmap ar) (index ar + ENTRY_SIZE * l + 8);
  text ← print_text (mmap ar) off len;
  Some (bytes_of "key_id " ++ QUOTE :: dec key_id ++ [QUOTE; 10] ++
        bytes_of "msgstr " ++ QUOTE :: text ++ [QUOTE; 10; 10]).

(** [while( l <= r )], for [n] turns. *)
Fixpoint list_loop (n : nat) (ar : lmo_archive) (l : Z) : option (list Z) :=
  match n with
  | O => Some []
  | S n => m ← print_message ar l; ms ← list_loop n ar (l + 1); Some (m ++ ms)
  end.

(** The number of turns from 0 to [r = tar->length - 1]. *)
Definition turns (ar : lmo_archive) : nat := S (Z.to_nat (u32 (ar_length ar - 1))).

Definition header : list Z :=
  bytes_of "msgid " ++ [QUOTE; QUOTE; 10] ++ bytes_of "msgstr " ++ QUOTE ::
  bytes_of "Content-Type: text/plain; charset=UTF-8\n" ++ [QUOTE; 10; 10].

(** An archive opened by name is the only one of its list. *)
Definition lmotool_list (ar : lmo_archive) : option (list Z) :=
  ms ← list_loop (turns ar) ar 0; Some (header ++ ms).

(** ** Extending an archive *)

(** The entries are copied from entry [v] of the index on; the sum of the padded
    lengths is a signed addition. *)
Fixpoint copy_loop (n : nat) (ar : lmo_archive) (v sum : Z) : option (list lmo_entry * Z) :=
  match n with
  | O => Some ([], sum)
  | S n =>
      let p := index ar + ENTRY_SIZE * v in
      key_id ← ntohl_at (mmap ar) p;
      val_id ← ntohl_at (mmap ar) (p + 4);
      off ← ntohl_at (mmap ar) (p + 8);
      len ← ntohl_at (mmap ar) (p + 12);
      let length := s32 len in
      let padded := length + Z.rem (4 - Z.rem length 4) 4 in
      if (- 2 ^ 31 <=? sum + padded) && (sum + padded <? 2 ^ 31) then
        r ← copy_loop n ar (v + 1) (sum + padded);
        let '(es, sum) := r : list lmo_entry * Z in
        Some (mkEntry key_id val_id off len :: es, sum)
      else None
  end.

Section Append.
Context (signed_char : bool) `{Qsort}.

(** [l0]: what the uninitialised [l] holds when [ventry] is set; [tmp0]: what
    the uninitialised [tmp] holds; [content]: the bytes of the .po file.  An
    array of a negative number of entries cannot be allocated. *)
Definition lmotool_append (l0 : Z) (tmp0 : list Z) (ar : lmo_archive) (content : list Z) : option outcome :=
  if ar_length ar <? 0 then Some (Died []) else
  r ← copy_loop (turns ar) ar l0 0;
  let '(array, offset) := r : list lmo_entry * Z in
  texts ← mread (mmap ar) 0 offset;
  if offset =? 0 then Some (Died []) else
  f ← po_loop signed_char content
        (mkPo (replicate BUF 0) (replicate BUF 0) tmp0 0 offset array texts);
  Some (po_end f).

End Append.

(** ** Extending what po2lmo wrote *)

Section AppendFacts.
Context (signed_char : bool) `{QsortLaws}.
Notation texts_of := (texts_of signed_char).
Notation entries_of := (entries_of signed_char).
Notation emits := (emits signed_char).
Notation shash := (shash signed_char).

Definition padded_len (e : lmo_entry) : Z := len_ e + (4 - len_ e mod 4) mod 4.

Lemma rem_padding n : 0 <= n -> Z.rem (4 - Z.rem n 4) 4 = (4 - n mod 4) mod 4.
Proof.
  intros Hn. rewrite (Z.rem_mod_nonneg n 4) by lia. pose proof (Z.mod_pos_bound n 4).
  by rewrite Z.rem_mod_nonneg by lia.
Qed.

Lemma val_field texts es m e :
  es !! m = Some e -> entry_wf e ->
  ntohl_at (mmap (opened texts es)) (index (opened texts es) + ENTRY_SIZE * Z.of_nat m + 4) = Some (val_id e).
Proof.
  intros Hm (Hk & Hv & Ho & Hl). destruct (index_split es m e Hm) as (a & b & Hi & Ha).
  unfold opened, ENTRY_SIZE. cbn [mmap index]. unfold archive_bytes. rewrite Hi. unfold entry_bytes.
  set (T := htonl_bytes (Z.of_nat (length texts))). clearbody T.
  replace (texts ++ _) with ((texts ++ a ++ htonl_bytes (key_id e)) ++ htonl_bytes (val_id e) ++
    (htonl_bytes (offset e) ++ htonl_bytes (len_ e) ++ b ++ T)) by list_assoc.
  apply ntohl_htonl; [|done]. rewrite !length_app, !length_be_bytes. lia.
Qed.

Lemma fold_padded l a : foldr (fun e s => padded_len e + s) a l = foldr (fun e s => padded_len e + s) 0 l + a.
Proof. induction l as [|e l IH]; simpl; lia. Qed.

(** Copying from entry [v] on gives the entries and the sum of their padded
    lengths. *)
Lemma copy_loop_opened texts es v sum :
  Forall entry_wf es -> Forall (fun e => len_ e < 2 ^ 31) es -> (v <= length es)%nat -> 0 <= sum ->
  sum + foldr (fun e s => padded_len e + s) 0 (drop v es) < 2 ^ 31 ->
  copy_loop (length es - v) (opened texts es) (Z.of_nat v) sum
  = Some (drop v es, sum + foldr (fun e s => padded_len e + s) 0 (drop v es)).
Proof.
  intros Hwf Hlen. remember (length es - v)%nat as n eqn:En. revert v sum En.
  induction n as [|n IH]; intros v sum En Hv Hs Hsum.
  { rewrite drop_ge by lia. simpl. by rewrite Z.add_0_r. }
  destruct (lookup_lt_is_Some_2 es v) as [e He]; [lia|].
  pose proof (drop_S es e v He) as Hd. rewrite Hd in *. cbn [foldr] in *.
  rewrite Forall_lookup in Hwf, Hlen. pose proof (Hwf _ _ He) as Hwe. pose proof (Hlen _ _ He) as Hle.
  destruct (opened_fields texts es v e He Hwe) as (Hk & Ho & Hl).
  cbn [copy_loop]. rewrite Hk. cbn [mbind option_bind]. rewrite (val_field texts es v e He Hwe).
  cbn [mbind option_bind]. rewrite Ho. cbn [mbind option_bind]. rewrite Hl. cbn [mbind option_bind].
  destruct Hwe as (_ & _ & _ & Hl0 & _). rewrite s32_id, rem_padding by lia. fold (padded_len e).
  assert (forall l, Forall (fun e => 0 <= len_ e) l -> 0 <= foldr (fun e s => padded_len e + s) 0 l) as Hpos.
  { induction 1 as [|x l Hx _ IHl]; simpl; [lia|].
    unfold padded_len at 1. pose proof (Z.mod_pos_bound (4 - len_ x mod 4) 4). lia. }
  specialize (Hpos (drop (S v) es)).
  assert (0 <= foldr (fun e s => padded_len e + s) 0 (drop (S v) es)) as Hp.
  { apply Hpos, Forall_drop, Forall_lookup. intros i x Hx. by destruct (Hwf _ _ Hx) as (_ & _ & _ & ? & _). }
  assert (0 <= padded_len e).
  { unfold padded_len. pose proof (Z.mod_pos_bound (4 - len_ e mod 4) 4). lia. }
  rewrite (proj2 (Z.leb_le (- 2 ^ 31) (sum + padded_len e))), (proj2 (Z.ltb_lt (sum + padded_len e) (2 ^ 31))) by lia.
  cbn [andb]. replace (Z.of_nat v + 1) with (Z.of_nat (S v)) by lia.
  rewrite IH by lia. cbn [mbind option_bind]. destruct e. f_equal. f_equal. lia.
Qed.

(** The padded lengths of the entries add up to the texts. *)
Lemma entries_padded ms off :
  foldr (fun e s => padded_len e + s) 0 (entries_of off ms) = Z.of_nat (length (texts_of ms)).
Proof.
  revert off. induction ms as [|m ms IH]; intros off; [done|].
  cbn [Po2lmo.entries_of Po2lmo.texts_of]. rewrite length_app, foldr_app, IH, fold_padded.
  unfold entry_of, text_of. destruct (emits m); cbn [foldr]; [|simpl; lia].
  unfold padded_len. cbn [len_]. unfold pad. rewrite length_app, length_replicate.
  pose proof (padding_range (msg_val m)) as Hp. fold (padding (msg_val m)). lia.
Qed.

Lemma padded_perm l1 l2 :
  l1 ≡ₚ l2 -> foldr (fun e s => padded_len e + s) 0 l1 = foldr (fun e s => padded_len e + s) 0 l2.
Proof. induction 1; simpl; lia. Qed.

Lemma texts_app ms1 ms2 : texts_of (ms1 ++ ms2) = texts_of ms1 ++ texts_of ms2.
Proof. induction ms1 as [|m ms1 IH]; [done|]. cbn [app Po2lmo.texts_of]. rewrite IH. list_assoc. Qed.

Lemma entries_app off ms1 ms2 :
  entries_of off (ms1 ++ ms2)
  = entries_of off ms1 ++ entries_of (off + Z.of_nat (length (texts_of ms1))) ms2.
Proof.
  revert off. induction ms1 as [|m ms1 IH]; intros off; cbn [app Po2lmo.entries_of Po2lmo.texts_of].
  { simpl. by rewrite Z.add_0_r. }
  rewrite IH, length_app, <- app_assoc. do 3 f_equal. lia.
Qed.

(** Extending the archive of some messages by others: the texts of all, and an
    ascending index of all entries. *)
Lemma append_archive ms1 ms2 tmp :
  Forall msg_ok (ms1 ++ ms2) -> length tmp = BUF ->
  Z.of_nat (length (texts_of (ms1 ++ ms2))) < 2 ^ 29 -> entries_of 0 ms1 <> [] ->
  exists es, es ≡ₚ entries_of 0 (ms1 ++ ms2) /\ ascending es /\
    lmotool_append signed_char 0 tmp (opened (texts_of ms1) (qsort (entries_of 0 ms1))) (po_text ms2)
    = Some (Written (Some (archive_bytes (texts_of (ms1 ++ ms2)) es))).
Proof.
  intros Hms Htmp Hlen Hne. apply Forall_app in Hms as [Hms1 Hms2].
  rewrite texts_app, length_app in Hlen.
  set (es1 := qsort (entries_of 0 ms1)). set (off := Z.of_nat (length (texts_of ms1))).
  pose proof (qsort_perm (entries_of 0 ms1)) as Hperm. fold es1 in Hperm.
  pose proof (entries_count signed_char 0 ms1) as Hc. pose proof (Permutation_length Hperm) as Hpl.
  assert (0 < length es1)%nat as Hn by (rewrite Hpl; destruct (entries_of 0 ms1); simpl; [done|lia]).
  exists (qsort (es1 ++ entries_of off ms2)). split; [|split; [apply qsort_ascending|]].
  { rewrite qsort_perm, entries_app, Hperm. done. }
  assert (Forall entry_wf es1) as Hwf by (rewrite Hperm; apply entries_wf; [done|lia]).
  assert (Forall (fun e => len_ e < 2 ^ 31) es1) as Hl31.
  { rewrite Hperm. apply Forall_forall. intros e He.
    destruct (entries_spec signed_char ms1 [] [] e He Hms1) as (m & Hin & _ & _ & _ & _ & -> & _).
    rewrite Forall_forall in Hms1. destruct (Hms1 m Hin) as (_ & _ & _ & _ & _ & _ & _ & Hv).
    unfold BUF in Hv. lia. }
  assert (foldr (fun e s => padded_len e + s) 0 es1 = off) as Hsum
    by (rewrite (padded_perm _ _ Hperm); apply entries_padded).
  assert (copy_loop (turns (opened (texts_of ms1) es1)) (opened (texts_of ms1) es1) 0 0 = Some (es1, off)) as Hcopy.
  { unfold turns. cbn [ar_length opened]. rewrite u32_id by lia.
    replace (S (Z.to_nat (Z.of_nat (length es1) - 1))) with (length es1 - 0)%nat by lia.
    pose proof (copy_loop_opened (texts_of ms1) es1 0 0 Hwf Hl31) as Hcp.
    rewrite drop_0, Hsum in Hcp. apply Hcp; lia. }
  assert (0 < off) as Hoff by (subst off; lia).
  unfold lmotool_append. cbn [ar_length opened]. rewrite (proj2 (Z.ltb_ge _ _)) by lia.
  fold (opened (texts_of ms1) es1). rewrite Hcopy. cbn [mbind option_bind].
  assert (mread (mmap (opened (texts_of ms1) es1)) 0 off = Some (texts_of ms1)) as Hrd
    by (apply mread_prefix; [done|lia]).
  rewrite Hrd. cbn [mbind option_bind].
  rewrite (proj2 (Z.eqb_neq off 0)) by lia.
  change (mkPo _ _ _ _ _ _ _) with (po_at [] [] tmp 0 off es1 (texts_of ms1)).
  destruct (po_loop_text signed_char ms2 tmp off es1 (texts_of ms1)) as (t' & Hr); [done|done|lia|lia|].
  rewrite Hr. cbn [mbind option_bind]. unfold po_end. cbn [array out po_offset po_at].
  rewrite print_index_bytes, (proj2 (Z.ltb_lt _ _)) by lia.
  unfold print_uint32, archive_bytes. rewrite texts_app, length_app, Nat2Z.inj_add. do 3 f_equal. list_assoc.
Qed.

(** A catalogue extended by lmotool translates the messages it held and the
    new ones, when the entry pointer starts at the first entry ([l] is read
    before it is set). *)
Theorem append_translates ms1 ms2 tmp1 tmp2 sys a l dir name m k :
  Forall msg_ok (ms1 ++ ms2) -> length tmp1 = BUF -> length tmp2 = BUF ->
  Z.of_nat (length (texts_of (ms1 ++ ms2))) < 2 ^ 29 -> existsb emits ms1 = true ->
  m ∈ ms1 ++ ms2 -> emits m = true ->
  (forall m', m' ∈ ms1 ++ ms2 -> emits m' = true ->
     shash (msg_key m') = shash (msg_key m) -> msg_val m' = msg_val m) ->
  unwords (words k) = msg_key m -> Z.of_nat (length k) < RES_SIZE ->
  one_archive sys l dir name ->
  exists file1 ar1 file2,
    po2lmo signed_char tmp1 (po_text ms1) = Some (Written (Some file1)) /\
    lmo_open true true (Some file1) = Some (Some ar1) /\
    lmotool_append signed_char 0 tmp2 ar1 (po_text ms2) = Some (Written (Some file2)) /\
    (file_at sys (snprintf_s PATH_MAX (dir ++ chr "/" :: name)) = Some file2 ->
     exists s ar off,
       lmo_load_catalog sys (Some a) l (Some dir) (mkState ∅ [] None) = Some (0, s) /\
       lmo_translate signed_char (Some k) (Z.of_nat (length k)) s
       = Some (0, Some (ar, off, Z.of_nat (length (msg_val m)))) /\
       mread (mmap ar) off (Z.of_nat (length (msg_val m))) = Some (msg_val m)).
Proof.
  intros Hms Ht1 Ht2 Hlen Hex Hin Hem Huniq Hk Hkl Hone.
  apply existsb_exists in Hex as (m0 & Hin0 & Hem0). apply list_elem_of_In in Hin0.
  destruct (entries_have signed_char ms1 0 m0 Hin0 Hem0) as (e0 & He0 & _).
  assert (entries_of 0 ms1 <> []) as Hne by (intros E; rewrite E in He0; by apply elem_of_nil in He0).
  destruct (append_archive ms1 ms2 tmp2 Hms Ht2 Hlen Hne) as (es & Hperm & Hasc & Happ).
  pose proof Hlen as Hlen1. rewrite texts_app, length_app in Hlen1.
  pose proof (entries_count signed_char 0 ms1) as Hc.
  pose proof (Permutation_length (qsort_perm (entries_of 0 ms1))) as Hpl.
  eexists _, (opened (texts_of ms1) (qsort (entries_of 0 ms1))), _. split_and!.
  - apply po2lmo_archive; [by apply Forall_app in Hms as [? _]|done|lia|done].
  - apply lmo_open_bytes. rewrite length_archive_bytes. lia.
  - exact Happ.
  - intros Hfile. by apply (loaded_translates signed_char (ms1 ++ ms2) es sys a l dir name m k).
Qed.

End AppendFacts.

Section Example.
Import QsortRef.

Definition appended : list Z :=
  match po2lmo true (replicate BUF 7) (po_text [msg1]) with
  | Some (Written (Some f)) =>
      match lmo_open true true (Some f) with
      | Some (Some ar) =>
          match lmotool_append true 0 (replicate BUF 9) ar (po_text [msg2]) with
          | Some (Written (Some g)) => g
          | _ => []
          end
      | _ => []
      end
  | _ => []
  end.
Definition appended_system : system :=
  mkSystem (fun _ => Some [bytes_of "x.es.lmo"])
           (fun p => if bool_decide (p = bytes_of "/i/x.es.lmo") then Some appended else None)
           (fun pat n => bool_decide (n = bytes_of "x.es.lmo")) true true.

Lemma append_translates_witness :
  Forall msg_ok ([msg1] ++ [msg2]) /\
  exists s ar off,
    lmo_load_catalog appended_system (Some 0%nat) (bytes_of "es") (Some (bytes_of "/i")) (mkState ∅ [] None)
    = Some (0, s) /\
    lmo_translate true (Some (bytes_of "Save all")) 8 s = Some (0, Some (ar, off, 12)) /\
    mread (mmap ar) off 12 = Some (bytes_of "Guardar todo").
Proof.
  split; [exact examples_ok|].
  destruct (append_translates true [msg1] [msg2] (replicate BUF 7) (replicate BUF 9) appended_system 0
    (bytes_of "es") (bytes_of "/i") (bytes_of "x.es.lmo") msg1 (bytes_of "Save all"))
    as (file1 & ar1 & file2 & Hpo & Hopen & Happ & Hload).
  - exact examples_ok.
  - apply length_replicate.
  - apply length_replicate.
  - vm_compute. reflexivity.
  - vm_compute. reflexivity.
  - left.
  - vm_compute. reflexivity.
  - intros m' Hm' _ Hh. apply elem_of_cons in Hm' as [->|Hm'].
    + reflexivity.
    + apply list_elem_of_singleton in Hm' as ->. vm_compute in Hh. discriminate Hh.
  - vm_compute. reflexivity.
  - vm_compute. reflexivity.
  - split; [reflexivity|]. split; [reflexivity|]. exists [bytes_of "x.es.lmo"]. split; vm_compute; reflexivity.
  - apply Hload. unfold appended_system, appended. cbn [file_at].
    rewrite Hpo, Hopen, Happ. vm_compute. reflexivity.
Defined.

End Example.

End Lmotool.
