(* ===== verification/Crc.v ===== *)
(** * Crc: the checksums of shadowsocksr-libev

    Models src/server/crc32.c of shadowsocksr-libev: CRC-32 by a table that is
    filled at start, and Adler-32 in blocks that keep its sums inside 32 bits.
    The table is a global array: the functions take it as an argument. *)

From S2P Require Import Prelude Libc.

Import Libc.

Module Crc.

Definition POLY : Z := 3988292384.          (* 0xedb88320 *)
Definition ONES : Z := 4294967295.          (* 0xFFFFFFFF *)

(** ** CRC-32 *)

Definition zero_table : list Z := replicate 256 0.

(** The loop over [j]. *)
Definition crc_bit (c : Z) : Z :=
  if Z.odd c then Z.lxor POLY (Z.shiftr c 1) else Z.shiftr c 1.
Fixpoint crc_bits (j : nat) (c : Z) : Z :=
  match j with O => c | S j => crc_bits j (crc_bit c) end.

Definition init_crc32_table (table : list Z) : option (list Z) :=
  t0 ← table @! 0;
  if t0 =? 0 then Some (map (fun i => crc_bits 8 (Z.of_nat i)) (seq 0 256)) else Some table.

(** [table[(crc ^ b) & 0xff] ^ (crc >> 8)]. *)
Definition crc_step (table : list Z) (crc b : Z) : option Z :=
  t ← table @! (Z.land (Z.lxor crc b) 255);
  Some (Z.lxor t (Z.shiftr crc 8)).

Fixpoint crc_loop (table : list Z) (crc : Z) (bytes : list Z) : option Z :=
  match bytes with
  | [] => Some crc
  | b :: bytes => crc ← crc_step table crc b; crc_loop table crc bytes
  end.

Definition crc32 (table buffer : list Z) (size : Z) : option Z :=
  bytes ← mread buffer 0 (u32 size);
  crc ← crc_loop table ONES bytes;
  Some (Z.lxor crc ONES).

(** A word stored in little-endian order. *)
Definition le_bytes (v : Z) : list Z :=
  [u8 v; u8 (Z.shiftr v 8); u8 (Z.shiftr v 16); u8 (Z.shiftr v 24)].

Definition fillcrc32to (table buffer : list Z) (size : Z) (outbuffer : list Z) : option (list Z) :=
  crc ← crc32 table buffer size;
  mwrite outbuffer 0 (le_bytes crc).

(** The checksum goes behind the first [size - 4] bytes and is not inverted. *)
Definition fillcrc32 (table buffer : list Z) (size : Z) : option (list Z) :=
  let size := u32 (size - 4) in
  bytes ← mread buffer 0 size;
  crc ← crc_loop table ONES bytes;
  mwrite buffer size (le_bytes crc).

(** ** Adler-32 *)

Definition BASE : Z := 65521.
Definition NMAX : Z := 5552.

Fixpoint adler_loop (bytes : list Z) (a b : Z) : Z * Z :=
  match bytes with
  | [] => (a, b)
  | c :: bytes => let a := u32 (a + c) in adler_loop bytes a (u32 (b + a))
  end.

Definition adler32_short (bytes : list Z) (a b : Z) : Z * Z :=
  let '(a, b) := adler_loop bytes a b in (a mod BASE, b mod BASE).

(** The blocks of [NMAX] bytes, then the rest; [fuel] bounds their number. *)
Fixpoint adler_blocks (fuel : nat) (bytes : list Z) (a b : Z) : Z * Z :=
  match fuel with
  | O => adler32_short bytes a b
  | S fuel =>
      if NMAX <=? Z.of_nat (length bytes) then
        let '(a, b) := adler32_short (take (Z.to_nat NMAX) bytes) a b in
        adler_blocks fuel (drop (Z.to_nat NMAX) bytes) a b
      else adler32_short bytes a b
  end.

Definition adler32 (buffer : list Z) (size : Z) : option Z :=
  bytes ← mread buffer 0 (u32 size);
  let '(a, b) := adler_blocks (length bytes) bytes 1 0 in
  Some (u32 (u32 (Z.shiftl b 16) + a)).

Definition filladler32 (buffer : list Z) (size : Z) : option (list Z) :=
  let size := u32 (size - 4) in
  checksum ← adler32 buffer size;
  mwrite buffer size (le_bytes checksum).

Definition checkadler32 (buffer : list Z) (size : Z) : option bool :=
  let size := u32 (size - 4) in
  checksum ← adler32 buffer size;
  b3 ← buffer @! (size + 3); b2 ← buffer @! (size + 2);
  b1 ← buffer @! (size + 1); b0 ← buffer @! size;
  Some (checksum =? Z.lor (Z.lor (Z.lor (u32 (Z.shiftl b3 24)) (Z.shiftl b2 16)) (Z.shiftl b1 8)) b0).

(** ** The table against the bitwise definition *)

(** The CRC of the standard: every bit of the message goes through [crc_bit]. *)
Fixpoint crc_ref_loop (crc : Z) (bytes : list Z) : Z :=
  match bytes with
  | [] => crc
  | b :: bytes => crc_ref_loop (crc_bits 8 (Z.lxor crc b)) bytes
  end.
Definition crc32_ref (bytes : list Z) : Z := Z.lxor (crc_ref_loop ONES bytes) ONES.

Definition crc_table : list Z := map (fun i => crc_bits 8 (Z.of_nat i)) (seq 0 256).

Lemma init_zero_table : init_crc32_table zero_table = Some crc_table.
Proof. reflexivity. Qed.

Lemma table_0 : crc_table @! 0 = Some 0.
Proof. reflexivity. Qed.

Lemma init_again : init_crc32_table crc_table = Some crc_table.
Proof. reflexivity. Qed.

Lemma crc_table_lookup i : 0 <= i < 256 -> crc_table @! i = Some (crc_bits 8 i).
Proof.
  intros Hi. rewrite rd_Some. split; [lia|]. unfold crc_table.
  rewrite list_lookup_fmap, lookup_seq_lt by lia.
  cbn [fmap option_fmap option_map]. by replace (Z.of_nat (0 + Z.to_nat i)) with i by lia.
Qed.

(** The upper bits pass through the bit steps unchanged. *)
Lemma crc_bit_upper h n l :
  crc_bit (Z.lxor (Z.shiftl h (Z.of_nat (S n))) l) = Z.lxor (Z.shiftl h (Z.of_nat n)) (crc_bit l).
Proof.
  unfold crc_bit.
  assert (Z.odd (Z.lxor (Z.shiftl h (Z.of_nat (S n))) l) = Z.odd l) as ->.
  { rewrite <- !Z.bit0_odd, Z.lxor_spec, Z.shiftl_spec_low by lia. by rewrite xorb_false_l. }
  rewrite Z.shiftr_lxor.
  assert (Z.shiftr (Z.shiftl h (Z.of_nat (S n))) 1 = Z.shiftl h (Z.of_nat n)) as ->.
  { rewrite Z.shiftr_shiftl_l by lia. f_equal. lia. }
  destruct (Z.odd l); [|done].
  by rewrite <- !Z.lxor_assoc, (Z.lxor_comm POLY).
Qed.

Lemma crc_bits_upper n h l : crc_bits n (Z.lxor (Z.shiftl h (Z.of_nat n)) l) = Z.lxor h (crc_bits n l).
Proof.
  revert l. induction n as [|n IH]; intros l; cbn [crc_bits].
  - by rewrite Z.shiftl_0_r.
  - by rewrite crc_bit_upper, IH.
Qed.

Lemma split_low x : x = Z.lxor (Z.shiftl (Z.shiftr x 8) 8) (Z.land x 255).
Proof.
  apply Z.bits_inj'. intros i Hi. change 255 with (Z.ones 8).
  rewrite Z.lxor_spec, Z.land_spec. destruct (decide (i < 8)).
  - rewrite Z.shiftl_spec_low, Z.ones_spec_low, andb_true_r, xorb_false_l by lia. done.
  - rewrite Z.shiftl_spec, Z.shiftr_spec, Z.ones_spec_high, andb_false_r, xorb_false_r by lia. f_equal. lia.
Qed.

Lemma land_byte x : 0 <= Z.land x 255 < 256.
Proof. change 255 with (Z.ones 8). rewrite Z.land_ones by lia. apply Z.mod_pos_bound. lia. Qed.

Lemma byte_shiftr b : 0 <= b < 256 -> Z.shiftr b 8 = 0.
Proof. intros. rewrite Z.shiftr_div_pow2 by lia. by apply Z.div_small. Qed.

(** One table step is eight bit steps. *)
Lemma crc_step_ref crc b :
  0 <= b < 256 -> crc_step crc_table crc b = Some (crc_bits 8 (Z.lxor crc b)).
Proof.
  intros Hb. unfold crc_step. rewrite crc_table_lookup by apply land_byte.
  cbn [mbind option_bind]. f_equal.
  rewrite (split_low (Z.lxor crc b)) at 2. rewrite (crc_bits_upper 8), Z.lxor_comm.
  rewrite Z.shiftr_lxor, (byte_shiftr b), Z.lxor_0_r by done. done.
Qed.

Lemma crc_loop_ref crc bytes :
  Forall (fun b => 0 <= b < 256) bytes -> crc_loop crc_table crc bytes = Some (crc_ref_loop crc bytes).
Proof.
  intros Hb. revert crc. induction Hb as [|b bytes Hb _ IH]; intros crc; cbn [crc_loop crc_ref_loop]; [done|].
  rewrite crc_step_ref by done. cbn [mbind option_bind]. apply IH.
Qed.

(** With the table the start-up code fills, the table-driven CRC is the
    bitwise CRC-32, and filling the table again changes nothing. *)
Theorem crc32_is_bitwise bytes rest :
  Forall (fun b => 0 <= b < 256) bytes -> Z.of_nat (length bytes) < 2 ^ 32 ->
  exists table, init_crc32_table zero_table = Some table /\ init_crc32_table table = Some table /\
    crc32 table (bytes ++ rest) (Z.of_nat (length bytes)) = Some (crc32_ref bytes).
Proof.
  intros Hb Hl. exists crc_table. split; [exact init_zero_table|]. split; [exact init_again|].
  unfold crc32. rewrite u32_id by lia. rewrite mread_prefix by lia. cbn [mbind option_bind].
  rewrite crc_loop_ref by done. done.
Qed.

(** The check value of the standard: the CRC of the digits 1 to 9. *)
Lemma crc32_is_bitwise_witness :
  Forall (fun b => 0 <= b < 256) (bytes_of "123456789") /\
  exists table, init_crc32_table zero_table = Some table /\ crc32 table (bytes_of "123456789") 9 = Some 3421780262.
Proof.
  split; [vm_compute; repeat constructor; congruence|].
  destruct (crc32_is_bitwise (bytes_of "123456789") []) as (table & Hi & _ & Hc).
  - vm_compute; repeat constructor; congruence.
  - vm_compute. reflexivity.
  - exists table. split; [exact Hi|]. vm_compute in Hc. exact Hc.
Defined.

(** ** Bursts of errors *)

Lemma lxor_range n a b : 0 <= n -> 0 <= a < 2 ^ n -> 0 <= b < 2 ^ n -> 0 <= Z.lxor a b < 2 ^ n.
Proof.
  intros Hn Ha Hb.
  assert (Z.lxor a b = Z.lxor a b mod 2 ^ n) as ->; [|apply Z.mod_pos_bound; lia].
  rewrite <- (Z.mod_small a (2 ^ n)) at 1 by done. rewrite <- (Z.mod_small b (2 ^ n)) at 1 by done.
  apply Z.bits_inj'. intros i Hi. rewrite Z.lxor_spec. destruct (decide (i < n)).
  - by rewrite !Z.mod_pow2_bits_low, Z.lxor_spec by lia.
  - by rewrite !Z.mod_pow2_bits_high by lia.
Qed.

Lemma shiftr_range a k n : 0 <= k -> 0 <= a < 2 ^ n -> 0 <= Z.shiftr a k < 2 ^ n.
Proof.
  intros Hk Ha. rewrite Z.shiftr_div_pow2 by lia. split; [apply Z.div_pos; lia|].
  apply Z.div_lt_upper_bound; [lia|]. pose proof (Z.pow_pos_nonneg 2 k). nia.
Qed.

Lemma crc_bit_range c : 0 <= c < 2 ^ 32 -> 0 <= crc_bit c < 2 ^ 32.
Proof.
  intros Hc. unfold crc_bit. pose proof (shiftr_range c 1 32 ltac:(lia) Hc).
  destruct (Z.odd c); [|done]. apply lxor_range; [lia|unfold POLY; lia|done].
Qed.

Lemma crc_bits_range n c : 0 <= c < 2 ^ 32 -> 0 <= crc_bits n c < 2 ^ 32.
Proof. revert c. induction n; intros c Hc; cbn [crc_bits]; auto using crc_bit_range. Qed.

(** A bit step can be undone: the top bit of the result tells which branch was
    taken. *)
Lemma crc_bit_inj c d : 0 <= c < 2 ^ 32 -> 0 <= d < 2 ^ 32 -> crc_bit c = crc_bit d -> c = d.
Proof.
  intros Hc Hd H.
  assert (forall x, 0 <= x < 2 ^ 32 -> Z.testbit (crc_bit x) 31 = Z.odd x) as Htop.
  { intros x Hx. unfold crc_bit.
    assert (Z.testbit (Z.shiftr x 1) 31 = false) as Hz.
    { rewrite Z.shiftr_spec by lia. destruct (decide (x = 0)) as [->|]; [done|].
      apply Z.bits_above_log2; [lia|]. apply Z.log2_lt_pow2; lia. }
    destruct (Z.odd x); [by rewrite Z.lxor_spec, Hz|done]. }
  assert (Z.odd c = Z.odd d) as Ho by (rewrite <- !Htop, H; done).
  assert (Z.shiftr c 1 = Z.shiftr d 1) as Hs.
  { unfold crc_bit in H. rewrite Ho in H. destruct (Z.odd d); [|done].
    apply (f_equal (Z.lxor POLY)) in H. by rewrite <- !Z.lxor_assoc, Z.lxor_nilpotent, !Z.lxor_0_l in H. }
  rewrite !Z.shiftr_div_pow2 in Hs by lia. change (2 ^ 1) with 2 in Hs.
  rewrite (Z.div_mod c 2), (Z.div_mod d 2), Hs, !Zmod_odd, Ho by lia. done.
Qed.

Lemma crc_bits_inj n c d : 0 <= c < 2 ^ 32 -> 0 <= d < 2 ^ 32 -> crc_bits n c = crc_bits n d -> c = d.
Proof.
  revert c d. induction n as [|n IH]; intros c d Hc Hd H; cbn [crc_bits] in H; [done|].
  apply crc_bit_inj; [done..|]. apply IH; auto using crc_bit_range.
Qed.

(** The message as one number, first byte lowest: the loop divides it. *)
Fixpoint le_val (bytes : list Z) : Z :=
  match bytes with [] => 0 | b :: bytes => Z.lxor (Z.shiftl (le_val bytes) 8) b end.

Lemma crc_bits_add n m c : crc_bits (n + m) c = crc_bits m (crc_bits n c).
Proof. revert c. induction n as [|n IH]; intros c; cbn [Nat.add crc_bits]; auto. Qed.

Lemma crc_ref_word s bytes :
  crc_ref_loop s bytes = crc_bits (8 * length bytes) (Z.lxor s (le_val bytes)).
Proof.
  revert s. induction bytes as [|b bytes IH]; intros s; cbn [crc_ref_loop le_val length].
  { by rewrite Z.lxor_0_r. }
  rewrite IH. replace (8 * S (length bytes))%nat with (8 + 8 * length bytes)%nat by lia.
  rewrite crc_bits_add. f_equal.
  rewrite (Z.lxor_comm (Z.shiftl _ _) b), <- Z.lxor_assoc, (Z.lxor_comm _ (Z.shiftl _ _)).
  by rewrite (crc_bits_upper 8), Z.lxor_comm.
Qed.

Lemma le_val_range bytes :
  Forall (fun b => 0 <= b < 256) bytes -> 0 <= le_val bytes < 2 ^ (8 * Z.of_nat (length bytes)).
Proof.
  induction 1 as [|b bytes Hb _ IH]; [done|]. cbn [le_val length].
  rewrite Nat2Z.inj_succ. replace (8 * Z.succ (Z.of_nat (length bytes))) with (8 * Z.of_nat (length bytes) + 8) by lia.
  apply lxor_range; [lia| |].
  - rewrite Z.shiftl_mul_pow2, Z.pow_add_r by lia. nia.
  - rewrite Z.pow_add_r by lia. pose proof (Z.pow_pos_nonneg 2 (8 * Z.of_nat (length bytes))). nia.
Qed.

Lemma le_val_inj x y :
  Forall (fun b => 0 <= b < 256) x -> Forall (fun b => 0 <= b < 256) y ->
  length x = length y -> le_val x = le_val y -> x = y.
Proof.
  intros Hx. revert y. induction Hx as [|a x Ha _ IH]; intros [|b y] Hy Hl He; try done.
  apply Forall_cons in Hy as [Hb Hy]. cbn [le_val] in He.
  assert (forall c v, 0 <= c < 256 -> Z.shiftr (Z.lxor (Z.shiftl v 8) c) 8 = v) as Hhi.
  { intros c v Hc. by rewrite Z.shiftr_lxor, (byte_shiftr c), Z.lxor_0_r, Z.shiftr_shiftl_l, Z.shiftl_0_r by lia. }
  assert (le_val x = le_val y) as Hv by (rewrite <- (Hhi a (le_val x)), He by done; by apply Hhi).
  rewrite Hv in He. apply (f_equal (Z.lxor (Z.shiftl (le_val y) 8))) in He.
  rewrite <- !Z.lxor_assoc, Z.lxor_nilpotent, !Z.lxor_0_l in He. subst b.
  f_equal. apply IH; [done|by injection Hl|done].
Qed.

Lemma crc_ref_app s x y : crc_ref_loop s (x ++ y) = crc_ref_loop (crc_ref_loop s x) y.
Proof. revert s. induction x as [|b x IH]; intros s; cbn [app crc_ref_loop]; auto. Qed.

Lemma crc_ref_range s x :
  Forall (fun b => 0 <= b < 256) x -> 0 <= s < 2 ^ 32 -> 0 <= crc_ref_loop s x < 2 ^ 32.
Proof.
  intros Hx. revert s. induction Hx as [|b x Hb _ IH]; intros s Hs; [done|].
  cbn [crc_ref_loop]. apply IH, crc_bits_range, lxor_range; lia.
Qed.

(** Different states stay different over the same bytes. *)
Lemma crc_ref_inj s t y :
  Forall (fun b => 0 <= b < 256) y -> 0 <= s < 2 ^ 32 -> 0 <= t < 2 ^ 32 ->
  crc_ref_loop s y = crc_ref_loop t y -> s = t.
Proof.
  intros Hy. revert s t. induction Hy as [|b y Hb _ IH]; intros s t Hs Ht H; [done|].
  cbn [crc_ref_loop] in H.
  apply IH in H; [|apply crc_bits_range, lxor_range; lia..].
  apply crc_bits_inj in H; [|apply lxor_range; lia..].
  apply (f_equal (fun z => Z.lxor z b)) in H.
  by rewrite !Z.lxor_assoc, Z.lxor_nilpotent, !Z.lxor_0_r in H.
Qed.

Lemma crc_burst p w w' q :
  Forall (fun b => 0 <= b < 256) (p ++ w ++ q) -> Forall (fun b => 0 <= b < 256) w' ->
  length w = length w' -> (length w <= 4)%nat -> w <> w' ->
  Z.of_nat (length (p ++ w ++ q)) < 2 ^ 32 ->
  crc32 crc_table (p ++ w ++ q) (Z.of_nat (length (p ++ w ++ q)))
  <> crc32 crc_table (p ++ w' ++ q) (Z.of_nat (length (p ++ w' ++ q))).
Proof.
  intros Hb Hw' Hl H4 Hne Hlen H.
  assert (length (p ++ w' ++ q) = length (p ++ w ++ q)) as Hll by (rewrite !length_app; lia).
  apply Forall_app in Hb as [Hp Hb]. apply Forall_app in Hb as [Hw Hq].
  unfold crc32 in H. rewrite Hll, u32_id in H by lia.
  rewrite !(mread_in _ 0), !Nat2Z.id, !drop_0 in H by lia.
  rewrite <- Hll in H at 2. rewrite !firstn_all in H. cbn [mbind option_bind] in H.
  rewrite !crc_loop_ref in H by (repeat (apply Forall_app; split); done).
  cbn [mbind option_bind] in H. injection H as H.
  apply (f_equal (fun z => Z.lxor z ONES)) in H.
  rewrite !Z.lxor_assoc, Z.lxor_nilpotent, !Z.lxor_0_r in H.
  assert (0 <= ONES < 2 ^ 32) as Ho by (unfold ONES; lia).
  rewrite !crc_ref_app in H. pose proof (crc_ref_range _ p Hp Ho) as Hs.
  apply crc_ref_inj in H; [|done|by apply crc_ref_range..].
  set (c := crc_ref_loop ONES p) in *. clearbody c.
  rewrite !crc_ref_word in H. rewrite <- Hl in H.
  assert (2 ^ (8 * Z.of_nat (length w)) <= 2 ^ 32) as H32 by (apply Z.pow_le_mono_r; lia).
  pose proof (le_val_range w Hw) as Hv. pose proof (le_val_range w' Hw') as Hv'. rewrite <- Hl in Hv'.
  apply crc_bits_inj in H; [|apply lxor_range; lia..].
  apply (f_equal (Z.lxor c)) in H.
  rewrite <- !Z.lxor_assoc, Z.lxor_nilpotent, !Z.lxor_0_l in H.
  by apply Hne, le_val_inj.
Qed.

(** A change confined to four consecutive bytes always changes the CRC. *)
Theorem crc32_detects_burst p w w' q :
  Forall (fun b => 0 <= b < 256) (p ++ w ++ q) -> Forall (fun b => 0 <= b < 256) w' ->
  length w = length w' -> (length w <= 4)%nat -> w <> w' ->
  Z.of_nat (length (p ++ w ++ q)) < 2 ^ 32 ->
  crc32 crc_table (p ++ w ++ q) (Z.of_nat (length (p ++ w ++ q)))
  <> crc32 crc_table (p ++ w' ++ q) (Z.of_nat (length (p ++ w' ++ q))).
Proof. apply crc_burst. Qed.

Lemma crc32_detects_burst_witness :
  [1; 2] <> [1; 3] /\
  crc32 crc_table ([7] ++ [1; 2] ++ [9]) 4 <> crc32 crc_table ([7] ++ [1; 3] ++ [9]) 4.
Proof.
  split; [done|]. apply (crc32_detects_burst [7] [1; 2] [1; 3] [9]);
    [repeat constructor; lia|repeat constructor; lia|done|simpl; lia|done|simpl; lia].
Defined.

Lemma crc_total buf n :
  Forall (fun b => 0 <= b < 256) buf -> 0 <= n <= Z.of_nat (length buf) -> n < 2 ^ 32 ->
  exists c, crc32 crc_table buf n = Some c /\ 0 <= c < 2 ^ 32.
Proof.
  intros Hb Hn H32. unfold crc32. rewrite u32_id by lia. rewrite mread_in by lia. cbn [mbind option_bind].
  rewrite crc_loop_ref by (apply Forall_take; by rewrite drop_0). cbn [mbind option_bind].
  eexists. split; [done|]. apply lxor_range; [lia| |unfold ONES; lia].
  apply crc_ref_range; [apply Forall_take; by rewrite drop_0|unfold ONES; lia].
Qed.

(** ** The residue *)

Lemma crc_step_low c : crc_step crc_table c (u8 c) = Some (Z.shiftr c 8).
Proof.
  unfold crc_step, u8. change 255 with (Z.ones 8).
  rewrite <- (Z.land_ones c 8) by lia.
  assert (Z.land (Z.lxor c (Z.land c (Z.ones 8))) (Z.ones 8) = 0) as ->; [|done].
  apply Z.bits_inj'. intros i Hi. rewrite Z.land_spec, Z.lxor_spec, Z.land_spec, Z.bits_0.
  by destruct (Z.testbit c i), (Z.testbit (Z.ones 8) i).
Qed.

(** Feeding a CRC state its own bytes ends in zero. *)
Lemma crc_loop_residue c : 0 <= c < 2 ^ 32 -> crc_loop crc_table c (le_bytes c) = Some 0.
Proof.
  intros Hc. unfold le_bytes. cbn [crc_loop].
  rewrite crc_step_low. cbn [mbind option_bind]. rewrite crc_step_low. cbn [mbind option_bind].
  rewrite Z.shiftr_shiftr by lia. rewrite crc_step_low. cbn [mbind option_bind].
  rewrite Z.shiftr_shiftr by lia. rewrite crc_step_low. cbn [mbind option_bind].
  rewrite Z.shiftr_shiftr by lia. f_equal.
  rewrite Z.shiftr_div_pow2 by lia. by apply Z.div_small.
Qed.

Lemma crc_loop_app t c x y :
  crc_loop t c (x ++ y) = (c' ← crc_loop t c x; crc_loop t c' y).
Proof.
  revert c. induction x as [|b x IH]; intros c; [done|]. cbn [app crc_loop].
  destruct (crc_step t c b); [|done]. cbn [mbind option_bind]. apply IH.
Qed.

Lemma le_bytes_range v : Forall (fun b => 0 <= b < 256) (le_bytes v).
Proof. unfold le_bytes. repeat constructor; auto with cint; apply u8_range. Qed.

(** What [fillcrc32] leaves in a buffer of which the last four bytes are free. *)
Lemma fillcrc32_spec body tail rest :
  Forall (fun b => 0 <= b < 256) body -> length tail = 4%nat -> Z.of_nat (length body) + 4 < 2 ^ 32 ->
  fillcrc32 crc_table (body ++ tail ++ rest) (Z.of_nat (length body) + 4)
  = Some (body ++ le_bytes (crc_ref_loop ONES body) ++ rest).
Proof.
  intros Hb Ht Hl. unfold fillcrc32. rewrite u32_id by lia.
  replace (Z.of_nat (length body) + 4 - 4) with (Z.of_nat (length body)) by lia.
  rewrite mread_prefix by lia. cbn [mbind option_bind]. rewrite crc_loop_ref by done. cbn [mbind option_bind].
  rewrite mwrite_in by (rewrite ?length_app; simpl; lia). f_equal.
  rewrite Nat2Z.id, take_app_length, drop_app_ge by lia. do 2 f_equal.
  cbn [length le_bytes]. replace (length body + 4 - length body)%nat with (length tail) by lia.
  apply drop_app_length.
Qed.

(** ... and that the receiver's check accepts it. *)
Lemma crc32_of_filled body rest :
  Forall (fun b => 0 <= b < 256) body -> Z.of_nat (length body) + 4 < 2 ^ 32 ->
  crc32 crc_table (body ++ le_bytes (crc_ref_loop ONES body) ++ rest) (Z.of_nat (length body) + 4) = Some ONES.
Proof.
  intros Hb Hl. unfold crc32. rewrite u32_id by lia. rewrite app_assoc.
  rewrite mread_prefix by (rewrite ?length_app; simpl; lia). cbn [mbind option_bind].
  rewrite crc_loop_app, crc_loop_ref by done. cbn [mbind option_bind].
  rewrite crc_loop_residue; [done|]. apply crc_ref_range; [done|unfold ONES; lia].
Qed.

(** ** Adler-32 stays inside its width *)

(** The sums without reduction. *)
Fixpoint adler_sums (bytes : list Z) (a b : Z) : Z * Z :=
  match bytes with
  | [] => (a, b)
  | c :: bytes => adler_sums bytes (a + c) (b + (a + c))
  end.

Lemma adler_loop_sums bytes a b n :
  Forall (fun c => 0 <= c < 256) bytes -> Z.of_nat (length bytes) <= n ->
  0 <= a -> 0 <= b -> a + 255 * n < 2 ^ 32 ->
  2 * b + 2 * n * a + 255 * n * (n + 1) < 2 ^ 33 ->
  adler_loop bytes a b = adler_sums bytes a b.
Proof.
  intros Hb. revert a b n. induction Hb as [|c bytes Hc _ IH]; intros a b n Hl Ha Hbb H1 H2; [done|].
  cbn [adler_loop adler_sums length] in *. rewrite Nat2Z.inj_succ in Hl.
  rewrite (u32_id (a + c)) by nia. rewrite u32_id by nia.
  apply (IH _ _ (n - 1)); nia.
Qed.

Lemma adler_sums_mod bytes a b a' b' :
  a mod BASE = a' mod BASE -> b mod BASE = b' mod BASE ->
  fst (adler_sums bytes a b) mod BASE = fst (adler_sums bytes a' b') mod BASE /\
  snd (adler_sums bytes a b) mod BASE = snd (adler_sums bytes a' b') mod BASE.
Proof.
  revert a b a' b'. induction bytes as [|c bytes IH]; intros a b a' b' Ha Hb; [done|].
  cbn [adler_sums].
  assert ((a + c) mod BASE = (a' + c) mod BASE) as Hac
    by (rewrite (Zplus_mod a), Ha, <- Zplus_mod; done).
  apply IH; [done|]. rewrite (Zplus_mod b), Hb, Hac, <- Zplus_mod. done.
Qed.

Lemma adler_sums_app x y a b :
  adler_sums (x ++ y) a b = adler_sums y (fst (adler_sums x a b)) (snd (adler_sums x a b)).
Proof. revert a b. induction x as [|c x IH]; intros a b; [done|]. cbn [app adler_sums]. apply IH. Qed.

Lemma adler_short_sums bytes a b :
  Forall (fun c => 0 <= c < 256) bytes -> Z.of_nat (length bytes) <= NMAX ->
  0 <= a < BASE -> 0 <= b < BASE ->
  adler32_short bytes a b
  = (fst (adler_sums bytes a b) mod BASE, snd (adler_sums bytes a b) mod BASE).
Proof.
  unfold NMAX, BASE. intros Hb Hl Ha Hbb. unfold adler32_short, BASE.
  rewrite (adler_loop_sums bytes a b 5552) by (done || lia).
  by destruct (adler_sums bytes a b).
Qed.

Lemma adler_blocks_sums fuel bytes a b :
  Forall (fun c => 0 <= c < 256) bytes -> (length bytes <= fuel)%nat ->
  0 <= a < BASE -> 0 <= b < BASE ->
  adler_blocks fuel bytes a b
  = (fst (adler_sums bytes a b) mod BASE, snd (adler_sums bytes a b) mod BASE).
Proof.
  revert bytes a b. induction fuel as [|fuel IH]; intros bytes a b Hb Hf Ha Hbb; cbn [adler_blocks].
  { apply adler_short_sums; [done|unfold NMAX; lia|done|done]. }
  destruct (NMAX <=? Z.of_nat (length bytes)) eqn:E; zify_bool.
  2: { apply adler_short_sums; [done|lia|done|done]. }
  unfold NMAX in *.
  rewrite adler_short_sums; [|by apply Forall_take|rewrite length_take; unfold NMAX; lia|done|done].
  rewrite IH; [|by apply Forall_drop|rewrite length_drop; lia|apply Z.mod_pos_bound; unfold BASE; lia..].
  pose proof (adler_sums_app (take (Z.to_nat 5552) bytes) (drop (Z.to_nat 5552) bytes) a b) as Happ.
  rewrite take_drop in Happ. rewrite Happ.
  set (A := fst (adler_sums (take _ bytes) a b)). set (B := snd (adler_sums (take _ bytes) a b)).
  destruct (adler_sums_mod (drop (Z.to_nat 5552) bytes) (A mod BASE) (B mod BASE) A B) as [H1 H2];
    [by rewrite Zmod_mod..|]. by rewrite H1, H2.
Qed.

(** The checksum of the definition: both sums modulo 65521. *)
Definition adler32_ref (bytes : list Z) : Z :=
  let '(a, b) := adler_sums bytes 1 0 in (b mod BASE) * 2 ^ 16 + a mod BASE.

Lemma adler32_sums bytes rest :
  Forall (fun c => 0 <= c < 256) bytes -> Z.of_nat (length bytes) < 2 ^ 32 ->
  adler32 (bytes ++ rest) (Z.of_nat (length bytes)) = Some (adler32_ref bytes).
Proof.
  intros Hb Hl. unfold adler32. rewrite u32_id by lia. rewrite mread_prefix by lia.
  cbn [mbind option_bind]. rewrite adler_blocks_sums by (done || unfold BASE; lia).
  unfold adler32_ref. destruct (adler_sums bytes 1 0) as [a b]. cbn [fst snd].
  pose proof (Z.mod_pos_bound a BASE ltac:(unfold BASE; lia)) as Ha.
  pose proof (Z.mod_pos_bound b BASE ltac:(unfold BASE; lia)) as Hbb.
  unfold BASE in *. rewrite Z.shiftl_mul_pow2 by lia.
  rewrite (u32_id (b mod 65521 * 2 ^ 16)) by lia. by rewrite u32_id by lia.
Qed.

(** Adler-32 in blocks is the checksum of the definition for every length: in
    a block of [NMAX] bytes no sum reaches [2^32]. *)
Theorem adler32_is_reference bytes rest :
  Forall (fun c => 0 <= c < 256) bytes -> Z.of_nat (length bytes) < 2 ^ 32 ->
  adler32 (bytes ++ rest) (Z.of_nat (length bytes)) = Some (adler32_ref bytes).
Proof. apply adler32_sums. Qed.

Lemma adler32_is_reference_witness :
  Forall (fun c => 0 <= c < 256) (bytes_of "Wikipedia") /\
  adler32 (bytes_of "Wikipedia") 9 = Some (adler32_ref (bytes_of "Wikipedia")) /\
  adler32_ref (bytes_of "Wikipedia") = 300286872.
Proof.
  assert (Forall (fun c => 0 <= c < 256) (bytes_of "Wikipedia")) as Hb
    by (vm_compute; repeat constructor; congruence).
  split; [exact Hb|]. split; [|vm_compute; reflexivity].
  apply (adler32_is_reference (bytes_of "Wikipedia") []); [exact Hb|vm_compute; reflexivity].
Defined.

(** ** Filling and checking *)

Lemma u8_testbit v i : Z.testbit (u8 v) i = (i <? 8) && Z.testbit v i.
Proof.
  unfold u8. destruct (i <? 8) eqn:E; zify_bool.
  - by rewrite Z.mod_pow2_bits_low by lia.
  - by rewrite Z.mod_pow2_bits_high by lia.
Qed.

(** The four bytes of a word put together again. *)
Lemma le_word v :
  0 <= v < 2 ^ 32 ->
  Z.lor (Z.lor (Z.lor (u32 (Z.shiftl (u8 (Z.shiftr v 24)) 24)) (Z.shiftl (u8 (Z.shiftr v 16)) 16))
               (Z.shiftl (u8 (Z.shiftr v 8)) 8)) (u8 v) = v.
Proof.
  intros Hv.
  rewrite u32_id by (rewrite Z.shiftl_mul_pow2 by lia; pose proof (u8_range (Z.shiftr v 24)); lia).
  apply Z.bits_inj'. intros i Hi. rewrite !Z.lor_spec, !Z.shiftl_spec, !u8_testbit by lia.
  destruct (decide (i < 32)).
  2: { rewrite (Z.bits_above_log2 v i); [|lia|].
    - repeat match goal with |- context [?x <? 8] => rewrite (proj2 (Z.ltb_ge x 8)) by lia || destruct (x <? 8) eqn:?; zify_bool end; try lia; done.
    - destruct (decide (v = 0)) as [->|]; [simpl; lia|].
      pose proof (proj1 (Z.log2_lt_pow2 v 32 ltac:(lia)) ltac:(lia)). lia. }
  assert (forall k, 0 <= k -> (i - k <? 8) && Z.testbit (Z.shiftr v k) (i - k) =
    (k <=? i) && (i <? k + 8) && Z.testbit v i) as Hb.
  { intros k Hk. destruct (decide (k <= i)).
    - rewrite Z.shiftr_spec by lia. replace (i - k + k) with i by lia.
      rewrite (proj2 (Z.leb_le k i)) by done. cbn [andb]. f_equal.
      destruct (i - k <? 8) eqn:E1, (i <? k + 8) eqn:E2; zify_bool; lia || done.
    - rewrite (Z.testbit_neg_r _ (i - k)), andb_false_r by lia.
      by rewrite (proj2 (Z.leb_gt k i)) by lia. }
  rewrite !Hb by lia. destruct (Z.testbit v i); [|by rewrite !andb_false_r].
  rewrite !andb_true_r.
  destruct (24 <=? i) eqn:E1, (i <? 24 + 8) eqn:E2, (16 <=? i) eqn:E3, (i <? 16 + 8) eqn:E4,
    (8 <=? i) eqn:E5, (i <? 8 + 8) eqn:E6, (i <? 8) eqn:E7; zify_bool; try lia; done.
Qed.

Lemma adler32_ref_range bytes : 0 <= adler32_ref bytes < 2 ^ 32.
Proof.
  unfold adler32_ref. destruct (adler_sums bytes 1 0) as [a b]. unfold BASE.
  pose proof (Z.mod_pos_bound a 65521). pose proof (Z.mod_pos_bound b 65521). lia.
Qed.

Lemma filladler32_spec body tail rest :
  Forall (fun b => 0 <= b < 256) body -> length tail = 4%nat -> Z.of_nat (length body) + 4 < 2 ^ 32 ->
  filladler32 (body ++ tail ++ rest) (Z.of_nat (length body) + 4)
  = Some (body ++ le_bytes (adler32_ref body) ++ rest).
Proof.
  intros Hb Ht Hl. unfold filladler32. rewrite u32_id by lia.
  replace (Z.of_nat (length body) + 4 - 4) with (Z.of_nat (length body)) by lia.
  assert (adler32 (body ++ tail ++ rest) (Z.of_nat (length body)) = Some (adler32_ref body)) as ->
    by (apply adler32_sums; [done|lia]).
  cbn [mbind option_bind].
  rewrite mwrite_in by (rewrite ?length_app; simpl; lia). f_equal.
  rewrite Nat2Z.id, take_app_length, drop_app_ge by lia. do 2 f_equal.
  cbn [length le_bytes]. replace (length body + 4 - length body)%nat with (length tail) by lia.
  apply drop_app_length.
Qed.

Lemma checkadler32_of_filled body rest :
  Forall (fun b => 0 <= b < 256) body -> Z.of_nat (length body) + 4 < 2 ^ 32 ->
  checkadler32 (body ++ le_bytes (adler32_ref body) ++ rest) (Z.of_nat (length body) + 4) = Some true.
Proof.
  intros Hb Hl. unfold checkadler32. rewrite u32_id by lia.
  replace (Z.of_nat (length body) + 4 - 4) with (Z.of_nat (length body)) by lia.
  assert (adler32 (body ++ le_bytes (adler32_ref body) ++ rest) (Z.of_nat (length body))
          = Some (adler32_ref body)) as ->
    by (apply adler32_sums; [done|lia]).
  cbn [mbind option_bind].
  assert (forall (k : nat) (b : Z), le_bytes (adler32_ref body) !! k = Some b ->
    (body ++ le_bytes (adler32_ref body) ++ rest) @! (Z.of_nat (length body) + Z.of_nat k) = Some b) as Hrd.
  { intros k b Hk. rewrite rd_app_r by lia.
    replace (Z.of_nat (length body) + Z.of_nat k - Z.of_nat (length body)) with (Z.of_nat k) by lia.
    rewrite rd_nat. rewrite lookup_app_l; [done|]. by eapply lookup_lt_Some. }
  pose proof (Hrd 3%nat _ eq_refl) as H3. pose proof (Hrd 2%nat _ eq_refl) as H2.
  pose proof (Hrd 1%nat _ eq_refl) as H1. pose proof (Hrd 0%nat _ eq_refl) as H0.
  change (Z.of_nat 3) with 3 in H3. change (Z.of_nat 2) with 2 in H2.
  change (Z.of_nat 1) with 1 in H1. change (Z.of_nat 0) with 0 in H0. rewrite Z.add_0_r in H0.
  rewrite H3, H2, H1, H0.
  cbn [mbind option_bind]. rewrite le_word by apply adler32_ref_range. by rewrite Z.eqb_refl.
Qed.

End Crc.
