(* ===== verification/Base64.v ===== *)
(** * Base64: encoding of keys in shadowsocksr-libev

    Models src/server/base64.c of shadowsocksr-libev.  Both loops go over the
    input byte by byte and choose what to do by the position modulo three or
    four; the decoder adds the parts of a byte to what it stored before, and must
    not store the start of a byte that the padding says is not there. *)

From S2P Require Import Prelude Libc.

Import Libc.

Module Base64.

Definition base64en : list Z :=
  bytes_of "ABCDEFGHIJKLMNOPQRSTUVWXYZabcdefghijklmnopqrstuvwxyz0123456789+/".
Definition BASE64_PAD : Z := 61.
Definition BASE64DE_FIRST : Z := 43.
Definition BASE64DE_LAST : Z := 122.

Definition base64de : list Z :=
  replicate 43 (-1) ++ [62; -1; -1; -1; 63] ++
  [52; 53; 54; 55; 56; 57; 58; 59; 60; 61] ++ replicate 7 (-1) ++
  map Z.of_nat (seq 0 26) ++ replicate 6 (-1) ++ map Z.of_nat (seq 26 26).

Inductive status := BASE64_OK | BASE64_INVALID.

(** ** Encoding *)

Definition put (out : list Z) (j v : Z) : option (list Z) := e ← base64en @! v; wr out j e.

(** The body of the loop at [i]. *)
Definition encode_step (inp : list Z) (i j : Z) (out : list Z) : option (Z * list Z) :=
  let s := i mod 3 in
  x ← inp @! i;
  if s =? 0 then out ← put out j (Z.land (Z.shiftr x 2) 63); Some (j + 1, out)
  else
    y ← inp @! (i - 1);
    if s =? 1 then
      out ← put out j (Z.shiftl (Z.land y 3) 4 + Z.land (Z.shiftr x 4) 15); Some (j + 1, out)
    else
      out ← put out j (Z.shiftl (Z.land y 15) 2 + Z.land (Z.shiftr x 6) 3);
      out ← put out (j + 1) (Z.land x 63); Some (j + 2, out).

(** The [n] last rounds, the next one at [i]. *)
Fixpoint encode_loop (n : nat) (inp : list Z) (i j : Z) (out : list Z) : option (Z * list Z) :=
  match n with
  | O => Some (j, out)
  | S n =>
      r ← encode_step inp i j out;
      let '(j, out) := r : Z * list Z in encode_loop n inp (i + 1) j out
  end.

(** What follows the loop. *)
Definition encode_pad (inp : list Z) (inlen j : Z) (out : list Z) : option (list Z) :=
  let i := u32 (inlen - 1) in
  if i mod 3 =? 0 then
    x ← inp @! i;
    out ← put out j (Z.shiftl (Z.land x 3) 4);
    out ← wr out (j + 1) BASE64_PAD;
    wr out (j + 2) BASE64_PAD
  else if i mod 3 =? 1 then
    x ← inp @! i;
    out ← put out j (Z.shiftl (Z.land x 15) 2);
    wr out (j + 1) BASE64_PAD
  else Some out.

Definition base64_encode (inp : list Z) (inlen : Z) (out : list Z) : option (list Z) :=
  r ← encode_loop (Z.to_nat inlen) inp 0 0 out;
  let '(j, out) := r : Z * list Z in encode_pad inp inlen j out.

(** ** Decoding *)

(** [out[j] += v]. *)
Definition add (out : list Z) (j v : Z) : option (list Z) := x ← out @! j; wr out j (u8 (x + v)).

(** The value of a character; [None]: not in the alphabet. *)
Definition decode_char (c : Z) : option Z :=
  if (c <? BASE64DE_FIRST) || (BASE64DE_LAST <? c) then None else
  v ← base64de @! c; if v =? -1 then None else Some v.

(** [i < (inlen - k) || in[inlen - (k - 1)] != '=']. *)
Definition not_padded (inp : list Z) (inlen i k : Z) : option bool :=
  if i <? u32 (inlen - k) then Some true
  else y ← inp @! u32 (inlen - (k - 1)); Some (negb (y =? BASE64_PAD)).

Fixpoint decode_loop (n : nat) (inp : list Z) (inlen i j : Z) (out : list Z) : option (status * list Z) :=
  match n with
  | O => Some (BASE64_OK, out)
  | S n =>
      x ← inp @! i;
      if x =? BASE64_PAD then Some (BASE64_OK, out) else
      match decode_char x with
      | None => Some (BASE64_INVALID, out)
      | Some c =>
          let s := i mod 4 in
          if s =? 0 then
            out ← wr out j (Z.land (Z.shiftl c 2) 255); decode_loop n inp inlen (i + 1) j out
          else if s =? 1 then
            out ← add out j (Z.land (Z.shiftr c 4) 3);
            more ← not_padded inp inlen i 3;
            out ← (if more : bool then wr out (j + 1) (Z.shiftl (Z.land c 15) 4) else Some out);
            decode_loop n inp inlen (i + 1) (j + 1) out
          else if s =? 2 then
            out ← add out j (Z.land (Z.shiftr c 2) 15);
            more ← not_padded inp inlen i 2;
            out ← (if more : bool then wr out (j + 1) (Z.shiftl (Z.land c 3) 6) else Some out);
            decode_loop n inp inlen (i + 1) (j + 1) out
          else
            out ← add out j c; decode_loop n inp inlen (i + 1) (j + 1) out
      end
  end.

Definition base64_decode (inp : list Z) (inlen : Z) (out : list Z) : option (status * list Z) :=
  decode_loop (Z.to_nat inlen) inp inlen 0 0 out.

(** ** The encoding by groups *)

(** The character of a value. *)
Definition ch (v : Z) : Z := nth (Z.to_nat v) base64en 0.

Fixpoint b64 (x : list Z) : list Z :=
  match x with
  | [] => []
  | [a] => [ch (a / 4); ch (a mod 4 * 16); BASE64_PAD; BASE64_PAD]
  | [a; b] => [ch (a / 4); ch (a mod 4 * 16 + b / 16); ch (b mod 16 * 4); BASE64_PAD]
  | a :: b :: c :: x =>
      ch (a / 4) :: ch (a mod 4 * 16 + b / 16) :: ch (b mod 16 * 4 + c / 64) :: ch (c mod 64) :: b64 x
  end.

Lemma ch_spec v : 0 <= v < 64 -> base64en @! v = Some (ch v).
Proof.
  intros Hv. rewrite rd_Some. split; [lia|]. unfold ch.
  destruct (lookup_lt_is_Some_2 base64en (Z.to_nat v)) as [x Hx]; [change (length base64en) with 64%nat; lia|].
  by rewrite nth_lookup, Hx.
Qed.

Lemma ch_decode v : 0 <= v < 64 -> decode_char (ch v) = Some v /\ ch v <> BASE64_PAD.
Proof.
  intros Hv.
  assert (forallb (fun v => match decode_char (ch v) with Some w => w =? v | None => false end && negb (ch v =? BASE64_PAD))
    (map Z.of_nat (seq 0 64)) = true) as H by reflexivity.
  rewrite forallb_forall in H. specialize (H v).
  assert (In v (map Z.of_nat (seq 0 64))) as Hin.
  { apply in_map_iff. exists (Z.to_nat v). split; [lia|]. apply in_seq. lia. }
  apply H in Hin. apply andb_true_iff in Hin as [H1 H2]. zify_bool.
  destruct (decode_char (ch v)); [|done]. zify_bool. split; [f_equal; lia|lia].
Qed.

Lemma put_app a x c j v :
  j = Z.of_nat (length a) -> 0 <= v < 64 -> put (a ++ x :: c) j v = Some (a ++ ch v :: c).
Proof. intros -> Hv. unfold put. rewrite ch_spec by done. cbn [mbind option_bind]. by apply wr_app. Qed.

(** The bit operations of the source as arithmetic. *)
Lemma bits_of_byte a :
  0 <= a < 256 ->
  Z.land (Z.shiftr a 2) 63 = a / 4 /\ Z.shiftl (Z.land a 3) 4 = a mod 4 * 16 /\
  Z.land (Z.shiftr a 4) 15 = a / 16 /\ Z.shiftl (Z.land a 15) 2 = a mod 16 * 4 /\
  Z.land (Z.shiftr a 6) 3 = a / 64 /\ Z.land a 63 = a mod 64.
Proof.
  intros Ha. change 63 with (Z.ones 6). change 3 with (Z.ones 2). change 15 with (Z.ones 4).
  rewrite !Z.land_ones, !Z.shiftr_div_pow2, !Z.shiftl_mul_pow2 by lia.
  change (2 ^ 2) with 4. change (2 ^ 4) with 16. change (2 ^ 6) with 64.
  split_and!; try done; apply Z.mod_small; split; (apply Z.div_pos || apply Z.div_lt_upper_bound); lia.
Qed.

(** One, two and three steps from a position that is a multiple of three. *)
Section Groups.
Context (inp : list Z) (i : Z) (Hi : i mod 3 = 0).

Lemma next_mod : (i + 1) mod 3 = 1 /\ (i + 1 + 1) mod 3 = 2.
Proof using Hi. rewrite (Z.add_mod i 1), Hi by lia. rewrite <- Z.add_assoc, (Z.add_mod i 2), Hi by lia. done. Qed.

Lemma step_0 a x p r j :
  inp @! i = Some a -> 0 <= a < 256 -> j = Z.of_nat (length p) ->
  encode_step inp i j (p ++ x :: r) = Some (j + 1, p ++ ch (a / 4) :: r).
Proof using Hi.
  intros Ha Hr Hj. destruct (bits_of_byte a Hr) as (E & _). unfold encode_step.
  rewrite Ha, Hi. cbn [mbind option_bind]. change (0 =? 0) with true. cbv iota.
  rewrite E, (put_app p) by (done || (split; [apply Z.div_pos|apply Z.div_lt_upper_bound]; lia)). done.
Qed.

Lemma step_1 a b x p r j :
  inp @! i = Some a -> inp @! (i + 1) = Some b -> 0 <= a < 256 -> 0 <= b < 256 -> j = Z.of_nat (length p) ->
  encode_step inp (i + 1) j (p ++ x :: r) = Some (j + 1, p ++ ch (a mod 4 * 16 + b / 16) :: r).
Proof using Hi.
  intros Ha Hb Hra Hrb Hj. destruct (bits_of_byte a Hra) as (_ & E1 & _).
  destruct (bits_of_byte b Hrb) as (_ & _ & E2 & _). unfold encode_step.
  rewrite (proj1 next_mod), Hb. cbn [mbind option_bind]. change (1 =? 0) with false. cbv iota.
  replace (i + 1 - 1) with i by lia. rewrite Ha. cbn [mbind option_bind]. change (1 =? 1) with true. cbv iota.
  rewrite E1, E2, (put_app p); [done|done|].
  pose proof (Z.mod_pos_bound a 4 ltac:(lia)). pose proof (Z.div_pos b 16). pose proof (Z.div_lt_upper_bound b 16 16). lia.
Qed.

Lemma step_2 b c x y p r j :
  inp @! (i + 1) = Some b -> inp @! (i + 1 + 1) = Some c -> 0 <= b < 256 -> 0 <= c < 256 -> j = Z.of_nat (length p) ->
  encode_step inp (i + 1 + 1) j (p ++ x :: y :: r)
  = Some (j + 2, p ++ ch (b mod 16 * 4 + c / 64) :: ch (c mod 64) :: r).
Proof using Hi.
  intros Hb Hc Hrb Hrc Hj. destruct (bits_of_byte b Hrb) as (_ & _ & _ & E1 & _).
  destruct (bits_of_byte c Hrc) as (_ & _ & _ & _ & E2 & E3). unfold encode_step.
  rewrite (proj2 next_mod), Hc. cbn [mbind option_bind]. change (2 =? 0) with false. cbv iota.
  replace (i + 1 + 1 - 1) with (i + 1) by lia. rewrite Hb. cbn [mbind option_bind]. change (2 =? 1) with false. cbv iota.
  pose proof (Z.mod_pos_bound b 16 ltac:(lia)). pose proof (Z.mod_pos_bound c 64 ltac:(lia)).
  pose proof (Z.div_pos c 64). pose proof (Z.div_lt_upper_bound c 64 4).
  rewrite E1, E2, E3, (put_app p) by (done || lia). cbn [mbind option_bind].
  replace (p ++ ch (b mod 16 * 4 + c / 64) :: y :: r) with ((p ++ [ch (b mod 16 * 4 + c / 64)]) ++ y :: r) by list_assoc.
  rewrite put_app by (rewrite ?length_app; cbn [length]; lia). cbn [mbind option_bind].
  do 2 f_equal. list_assoc.
Qed.

End Groups.

(** The encoding of the rest of the input, which starts at a multiple of three. *)
Definition encode_from (pre rest p room : list Z) : option (list Z) :=
  let inp := pre ++ rest in
  r ← encode_loop (length rest) inp (Z.of_nat (length pre)) (Z.of_nat (length p)) (p ++ room);
  let '(j, out) := r : Z * list Z in encode_pad inp (Z.of_nat (length inp)) j out.

Ltac pos := rewrite ?length_app; cbn [length]; lia.

Section Rest.
Context (pre p r : list Z) (Hmod : Z.of_nat (length pre) mod 3 = 0).
Context (x0 x1 x2 x3 : Z).

Lemma encode_1 a :
  0 <= a < 256 -> Z.of_nat (length pre) + 1 < 2 ^ 32 ->
  encode_from pre [a] p (x0 :: x1 :: x2 :: x3 :: r) = Some (p ++ b64 [a] ++ r).
Proof using Hmod.
  intros Ha H32. unfold encode_from. cbn [length encode_loop].
  assert ((pre ++ [a]) @! Z.of_nat (length pre) = Some a) as Ra by by apply rd_app_mid.
  rewrite (step_0 _ _ Hmod a) by done. cbn [mbind option_bind].
  unfold encode_pad. rewrite u32_id by pos.
  replace (Z.of_nat (length (pre ++ [a])) - 1) with (Z.of_nat (length pre)) by pos.
  rewrite Hmod, Ra. change (0 =? 0) with true. cbn [mbind option_bind].
  rewrite (proj1 (proj2 (bits_of_byte a Ha))). pose proof (Z.mod_pos_bound a 4 ltac:(lia)). cbn [b64].
  set (y1 := ch (a / 4)). set (y2 := ch (a mod 4 * 16)).
  replace (p ++ y1 :: x1 :: x2 :: x3 :: r) with ((p ++ [y1]) ++ x1 :: x2 :: x3 :: r) by list_assoc.
  rewrite put_app by pos. fold y2. cbn [mbind option_bind].
  replace ((p ++ [y1]) ++ y2 :: x2 :: x3 :: r) with ((p ++ [y1; y2]) ++ x2 :: x3 :: r) by list_assoc.
  rewrite wr_app by pos. cbn [mbind option_bind].
  replace ((p ++ [y1; y2]) ++ BASE64_PAD :: x3 :: r) with ((p ++ [y1; y2; BASE64_PAD]) ++ x3 :: r) by list_assoc.
  rewrite wr_app by pos. f_equal. list_assoc.
Qed.

Lemma encode_2 a b :
  0 <= a < 256 -> 0 <= b < 256 -> Z.of_nat (length pre) + 2 < 2 ^ 32 ->
  encode_from pre [a; b] p (x0 :: x1 :: x2 :: x3 :: r) = Some (p ++ b64 [a; b] ++ r).
Proof using Hmod.
  intros Ha Hb H32. unfold encode_from. cbn [length encode_loop].
  assert ((pre ++ [a; b]) @! Z.of_nat (length pre) = Some a) as Ra by by apply rd_app_mid.
  assert ((pre ++ [a; b]) @! (Z.of_nat (length pre) + 1) = Some b) as Rb.
  { replace (pre ++ [a; b]) with ((pre ++ [a]) ++ [b]) by list_assoc. apply rd_app_mid. pos. }
  rewrite (step_0 _ _ Hmod a) by done. cbn [mbind option_bind b64]. set (y1 := ch (a / 4)).
  replace (p ++ y1 :: x1 :: x2 :: x3 :: r) with ((p ++ [y1]) ++ x1 :: x2 :: x3 :: r) by list_assoc.
  rewrite (step_1 _ _ Hmod a b) by (done || pos). cbn [mbind option_bind].
  unfold encode_pad. rewrite u32_id by pos.
  replace (Z.of_nat (length (pre ++ [a; b])) - 1) with (Z.of_nat (length pre) + 1) by pos.
  rewrite (proj1 (next_mod _ Hmod)), Rb. change (1 =? 0) with false. change (1 =? 1) with true. cbn [mbind option_bind].
  rewrite (proj1 (proj2 (proj2 (proj2 (bits_of_byte b Hb))))). pose proof (Z.mod_pos_bound b 16 ltac:(lia)).
  set (y2 := ch (a mod 4 * 16 + b / 16)). set (y3 := ch (b mod 16 * 4)).
  replace ((p ++ [y1]) ++ y2 :: x2 :: x3 :: r) with ((p ++ [y1; y2]) ++ x2 :: x3 :: r) by list_assoc.
  rewrite put_app by pos. fold y3. cbn [mbind option_bind].
  replace ((p ++ [y1; y2]) ++ y3 :: x3 :: r) with ((p ++ [y1; y2; y3]) ++ x3 :: r) by list_assoc.
  rewrite wr_app by pos. f_equal. list_assoc.
Qed.

(** A whole group, before more input or at the end. *)
Lemma encode_3 a b c rest :
  0 <= a < 256 -> 0 <= b < 256 -> 0 <= c < 256 ->
  encode_from pre (a :: b :: c :: rest) p (x0 :: x1 :: x2 :: x3 :: r)
  = encode_from (pre ++ [a; b; c]) rest
      (p ++ [ch (a / 4); ch (a mod 4 * 16 + b / 16); ch (b mod 16 * 4 + c / 64); ch (c mod 64)]) r.
Proof using Hmod.
  intros Ha Hb Hc. unfold encode_from. cbn [length encode_loop].
  assert ((pre ++ a :: b :: c :: rest) @! Z.of_nat (length pre) = Some a) as Ra by by apply rd_app_mid.
  assert ((pre ++ a :: b :: c :: rest) @! (Z.of_nat (length pre) + 1) = Some b) as Rb.
  { replace (pre ++ a :: b :: c :: rest) with ((pre ++ [a]) ++ b :: c :: rest) by list_assoc. apply rd_app_mid. pos. }
  assert ((pre ++ a :: b :: c :: rest) @! (Z.of_nat (length pre) + 1 + 1) = Some c) as Rc.
  { replace (pre ++ a :: b :: c :: rest) with ((pre ++ [a; b]) ++ c :: rest) by list_assoc. apply rd_app_mid. pos. }
  rewrite (step_0 _ _ Hmod a) by done. cbn [mbind option_bind]. set (y1 := ch (a / 4)).
  replace (p ++ y1 :: x1 :: x2 :: x3 :: r) with ((p ++ [y1]) ++ x1 :: x2 :: x3 :: r) by list_assoc.
  rewrite (step_1 _ _ Hmod a b) by (done || pos). cbn [mbind option_bind]. set (y2 := ch (a mod 4 * 16 + b / 16)).
  replace ((p ++ [y1]) ++ y2 :: x2 :: x3 :: r) with ((p ++ [y1; y2]) ++ x2 :: x3 :: r) by list_assoc.
  rewrite (step_2 _ _ Hmod b c) by (done || pos). cbn [mbind option_bind].
  set (y3 := ch (b mod 16 * 4 + c / 64)). set (y4 := ch (c mod 64)).
  replace ((pre ++ [a; b; c]) ++ rest) with (pre ++ a :: b :: c :: rest) by list_assoc.
  replace (Z.of_nat (length (pre ++ [a; b; c]))) with (Z.of_nat (length pre) + 1 + 1 + 1) by pos.
  replace (Z.of_nat (length (p ++ [y1; y2; y3; y4]))) with (Z.of_nat (length p) + 1 + 1 + 2) by pos.
  by replace ((p ++ [y1; y2; y3; y4]) ++ r) with ((p ++ [y1; y2]) ++ y3 :: y4 :: r) by list_assoc.
Qed.

End Rest.

Lemma encode_rest n rest pre p room :
  (length rest <= n)%nat -> is_bytes rest -> Z.of_nat (length pre) mod 3 = 0 ->
  0 < Z.of_nat (length (pre ++ rest)) < 2 ^ 32 -> (length (b64 rest) <= length room)%nat ->
  encode_from pre rest p room = Some (p ++ b64 rest ++ drop (length (b64 rest)) room).
Proof.
  revert rest pre p room. induction n as [|n IH]; intros rest pre p room Hn Hb Hmod H32 Hroom.
  all: destruct rest as [|a rest]; [|try (simpl in Hn; lia)].
  1,2: unfold encode_from, encode_pad; rewrite app_nil_r in *; cbn [length encode_loop mbind option_bind b64 drop app];
    rewrite u32_id by lia;
    assert ((Z.of_nat (length pre) - 1) mod 3 = 2) as ->
      by (rewrite Zminus_mod, Hmod by lia; done); done.
  assert (4 <= length room)%nat as H4 by (destruct rest as [|b [|c rest]]; cbn [b64 length] in Hroom; lia).
  destruct (split_block room 4 H4) as (q & r & -> & Hq).
  destruct q as [|x0 [|x1 [|x2 [|x3 [|]]]]]; try done. cbn [app] in *.
  rewrite length_app in H32. cbn [length] in H32, Hroom, Hn.
  apply Forall_cons in Hb as [Ha Hb]. destruct rest as [|b rest]; [rewrite encode_1 by (done || lia); done|].
  apply Forall_cons in Hb as [Hb Hrest].
  destruct rest as [|c rest]; [rewrite encode_2 by (done || (cbn [length] in H32; lia)); done|].
  apply Forall_cons in Hrest as [Hc Hrest]. cbn [b64 length] in *. rewrite encode_3, IH; try done.
  - f_equal. cbn [drop]. list_assoc.
  - lia.
  - rewrite length_app, Nat2Z.inj_add, Z.add_mod, Hmod by lia. done.
  - rewrite !length_app. cbn [length]. lia.
  - lia.
Qed.

(** ** Decoding a group *)

Lemma bits_of_value v :
  0 <= v < 64 ->
  Z.land (Z.shiftl v 2) 255 = v * 4 /\ Z.land (Z.shiftr v 4) 3 = v / 16 /\
  Z.shiftl (Z.land v 15) 4 = v mod 16 * 16 /\ Z.land (Z.shiftr v 2) 15 = v / 4 /\
  Z.shiftl (Z.land v 3) 6 = v mod 4 * 64.
Proof.
  intros Hv. change 255 with (Z.ones 8). change 3 with (Z.ones 2). change 15 with (Z.ones 4).
  rewrite !Z.land_ones, !Z.shiftr_div_pow2, !Z.shiftl_mul_pow2 by lia.
  change (2 ^ 2) with 4. change (2 ^ 4) with 16. change (2 ^ 6) with 64. change (2 ^ 8) with 256.
  split_and!; try done; apply Z.mod_small; try lia; split; (apply Z.div_pos || apply Z.div_lt_upper_bound); lia.
Qed.

Lemma add_app p x r j v : j = Z.of_nat (length p) -> add (p ++ x :: r) j v = Some (p ++ u8 (x + v) :: r).
Proof. intros ->. unfold add. rewrite rd_app_mid by done. cbn [mbind option_bind]. by apply wr_app. Qed.

Section Decode.
Context (inp : list Z) (inlen i : Z) (n : nat) (v : Z) (p r : list Z) (j : Z).
Context (Hv : 0 <= v < 64) (Hi : inp @! i = Some (ch v)) (Hj : j = Z.of_nat (length p)).

Lemma decode_0 x :
  i mod 4 = 0 ->
  decode_loop (S n) inp inlen i j (p ++ x :: r) = decode_loop n inp inlen (i + 1) j (p ++ v * 4 :: r).
Proof using Hv Hi Hj.
  intros Hm. destruct (ch_decode v Hv) as [Hd Hp]. destruct (bits_of_value v Hv) as (E & _).
  cbn [decode_loop]. rewrite Hi. cbn [mbind option_bind]. rewrite (proj2 (Z.eqb_neq _ _) Hp), Hd, Hm.
  change (0 =? 0) with true. cbv iota. rewrite E, wr_app by done. done.
Qed.

Lemma decode_1 x y (more : bool) :
  i mod 4 = 1 -> not_padded inp inlen i 3 = Some more ->
  decode_loop (S n) inp inlen i j (p ++ x :: y :: r)
  = decode_loop n inp inlen (i + 1) (j + 1) (p ++ u8 (x + v / 16) :: (if more then v mod 16 * 16 else y) :: r).
Proof using Hv Hi Hj.
  intros Hm Hmore. destruct (ch_decode v Hv) as [Hd Hp]. destruct (bits_of_value v Hv) as (_ & E1 & E2 & _).
  cbn [decode_loop]. rewrite Hi. cbn [mbind option_bind]. rewrite (proj2 (Z.eqb_neq _ _) Hp), Hd, Hm.
  change (1 =? 0) with false. change (1 =? 1) with true. cbv iota.
  rewrite E1, E2, add_app by done. cbn [mbind option_bind]. rewrite Hmore. cbn [mbind option_bind].
  destruct more; [|done].
  replace (p ++ u8 (x + v / 16) :: y :: r) with ((p ++ [u8 (x + v / 16)]) ++ y :: r) by list_assoc.
  rewrite wr_app by (rewrite ?length_app; cbn [length]; lia). cbn [mbind option_bind]. f_equal. list_assoc.
Qed.

(** At the end of the buffer nothing may be stored. *)
Lemma decode_1_end x :
  i mod 4 = 1 -> not_padded inp inlen i 3 = Some false ->
  decode_loop (S n) inp inlen i j (p ++ x :: r)
  = decode_loop n inp inlen (i + 1) (j + 1) (p ++ u8 (x + v / 16) :: r).
Proof using Hv Hi Hj.
  intros Hm Hmore. destruct (ch_decode v Hv) as [Hd Hp]. destruct (bits_of_value v Hv) as (_ & E1 & _).
  cbn [decode_loop]. rewrite Hi. cbn [mbind option_bind]. rewrite (proj2 (Z.eqb_neq _ _) Hp), Hd, Hm.
  change (1 =? 0) with false. change (1 =? 1) with true. cbv iota.
  rewrite E1, add_app by done. cbn [mbind option_bind]. by rewrite Hmore.
Qed.

Lemma decode_2 x y :
  i mod 4 = 2 -> not_padded inp inlen i 2 = Some true ->
  decode_loop (S n) inp inlen i j (p ++ x :: y :: r)
  = decode_loop n inp inlen (i + 1) (j + 1) (p ++ u8 (x + v / 4) :: v mod 4 * 64 :: r).
Proof using Hv Hi Hj.
  intros Hm Hmore. destruct (ch_decode v Hv) as [Hd Hp]. destruct (bits_of_value v Hv) as (_ & _ & _ & E1 & E2).
  cbn [decode_loop]. rewrite Hi. cbn [mbind option_bind]. rewrite (proj2 (Z.eqb_neq _ _) Hp), Hd, Hm.
  change (2 =? 0) with false. change (2 =? 1) with false. change (2 =? 2) with true. cbv iota.
  rewrite E1, E2, add_app by done. cbn [mbind option_bind]. rewrite Hmore. cbn [mbind option_bind].
  replace (p ++ u8 (x + v / 4) :: y :: r) with ((p ++ [u8 (x + v / 4)]) ++ y :: r) by list_assoc.
  rewrite wr_app by (rewrite ?length_app; cbn [length]; lia). cbn [mbind option_bind]. f_equal. list_assoc.
Qed.

Lemma decode_2_end x :
  i mod 4 = 2 -> not_padded inp inlen i 2 = Some false ->
  decode_loop (S n) inp inlen i j (p ++ x :: r)
  = decode_loop n inp inlen (i + 1) (j + 1) (p ++ u8 (x + v / 4) :: r).
Proof using Hv Hi Hj.
  intros Hm Hmore. destruct (ch_decode v Hv) as [Hd Hp]. destruct (bits_of_value v Hv) as (_ & _ & _ & E1 & _).
  cbn [decode_loop]. rewrite Hi. cbn [mbind option_bind]. rewrite (proj2 (Z.eqb_neq _ _) Hp), Hd, Hm.
  change (2 =? 0) with false. change (2 =? 1) with false. change (2 =? 2) with true. cbv iota.
  rewrite E1, add_app by done. cbn [mbind option_bind]. by rewrite Hmore.
Qed.

Lemma decode_3 x :
  i mod 4 = 3 ->
  decode_loop (S n) inp inlen i j (p ++ x :: r) = decode_loop n inp inlen (i + 1) (j + 1) (p ++ u8 (x + v) :: r).
Proof using Hv Hi Hj.
  intros Hm. destruct (ch_decode v Hv) as [Hd Hp].
  cbn [decode_loop]. rewrite Hi. cbn [mbind option_bind]. rewrite (proj2 (Z.eqb_neq _ _) Hp), Hd, Hm.
  change (3 =? 0) with false. change (3 =? 1) with false. change (3 =? 2) with false. cbv iota.
  rewrite add_app by done. done.
Qed.

End Decode.

(** The padding ends the loop. *)
Lemma decode_pad n inp inlen i j out :
  inp @! i = Some BASE64_PAD -> decode_loop (S n) inp inlen i j out = Some (BASE64_OK, out).
Proof. intros Hi. cbn [decode_loop]. by rewrite Hi. Qed.

Lemma b64_size x : (exists k, length (b64 x) = 4 * k /\ length x <= 3 * k < length x + 3)%nat.
Proof.
  assert (forall n x, (length x <= n)%nat ->
    (exists k, length (b64 x) = 4 * k /\ length x <= 3 * k < length x + 3)%nat) as H.
  { clear x. induction n as [|n IH]; intros [|a [|b [|c x]]] Hn; cbn [b64 length] in *; try lia;
      try (exists 0%nat; simpl; lia); try (exists 1%nat; simpl; lia).
    destruct (IH x) as (k & Hk & Hx); [lia|]. exists (S k). lia. }
  exact (H (length x) x (le_n _)).
Qed.

(** The four characters of a group and whether the next byte is there. *)
Section Group.
Context (pre rest : list Z) (c0 c1 c2 c3 : Z).
Notation inp := (pre ++ c0 :: c1 :: c2 :: c3 :: rest).
Notation i := (Z.of_nat (length pre)).
Notation len := (Z.of_nat (length inp)).

Lemma group_chars :
  inp @! i = Some c0 /\ inp @! (i + 1) = Some c1 /\ inp @! (i + 1 + 1) = Some c2 /\
  inp @! (i + 1 + 1 + 1) = Some c3.
Proof using Type.
  split; [by apply rd_app_mid|]. split_and!.
  - replace inp with ((pre ++ [c0]) ++ c1 :: c2 :: c3 :: rest) by list_assoc. apply rd_app_mid. pos.
  - replace inp with ((pre ++ [c0; c1]) ++ c2 :: c3 :: rest) by list_assoc. apply rd_app_mid. pos.
  - replace inp with ((pre ++ [c0; c1; c2]) ++ c3 :: rest) by list_assoc. apply rd_app_mid. pos.
Qed.

Lemma group_mods : i mod 4 = 0 -> (i + 1) mod 4 = 1 /\ (i + 1 + 1) mod 4 = 2 /\ (i + 1 + 1 + 1) mod 4 = 3.
Proof using Type.
  intros Hi. rewrite <- !Z.add_assoc, !(Z.add_mod i), Hi by lia. done.
Qed.

Context (Hr : (length rest mod 4 = 0)%nat) (H32 : len < 2 ^ 32).

Lemma group_more k :
  2 <= k <= 3 -> rest <> [] -> not_padded inp len (i + 4 - k) k = Some true.
Proof using H32 Hr.
  intros Hk Hne. unfold not_padded.
  assert (4 <= length rest)%nat.
  { pose proof (Nat.div_mod (length rest) 4). destruct rest; [done|]. cbn [length] in *. lia. }
  assert (len = i + 4 + Z.of_nat (length rest)) as Hlen by pos.
  rewrite u32_id by lia. by rewrite (proj2 (Z.ltb_lt _ _)) by lia.
Qed.

Lemma group_next_1 :
  not_padded inp len (i + 1) 3 = Some (negb (bool_decide (rest = []) && (c2 =? BASE64_PAD))).
Proof using H32 Hr.
  case_bool_decide as E; [|replace (i + 1) with (i + 4 - 3) by lia; rewrite group_more by (done || lia); done].
  assert (len = i + 4) as Hlen by (rewrite E; pos). unfold not_padded.
  rewrite !u32_id by lia. rewrite (proj2 (Z.ltb_ge _ _)) by lia.
  replace (len - (3 - 1)) with (i + 1 + 1) by lia. by rewrite (proj1 (proj2 (proj2 group_chars))).
Qed.

Lemma group_next_2 :
  not_padded inp len (i + 1 + 1) 2 = Some (negb (bool_decide (rest = []) && (c3 =? BASE64_PAD))).
Proof using H32 Hr.
  case_bool_decide as E; [|replace (i + 1 + 1) with (i + 4 - 2) by lia; rewrite group_more by (done || lia); done].
  assert (len = i + 4) as Hlen by (rewrite E; pos). unfold not_padded.
  rewrite !u32_id by lia. rewrite (proj2 (Z.ltb_ge _ _)) by lia.
  replace (len - (2 - 1)) with (i + 1 + 1 + 1) by lia. by rewrite (proj2 (proj2 (proj2 group_chars))).
Qed.

End Group.

Lemma ch_not_pad v : 0 <= v < 64 -> (ch v =? BASE64_PAD) = false.
Proof. intros Hv. apply Z.eqb_neq, ch_decode, Hv. Qed.

(** The values of the characters of a group, and the bytes they make. *)
Lemma quarter a : 0 <= a < 256 -> 0 <= a / 4 < 64 /\ u8 (a / 4 * 4 + a mod 4) = a.
Proof.
  intros Ha. pose proof (Z.div_mod a 4 ltac:(lia)). split; [|rewrite u8_id; lia].
  split; [apply Z.div_pos|apply Z.div_lt_upper_bound]; lia.
Qed.

Lemma middle a b :
  0 <= b < 256 -> 0 <= a mod 4 * 16 + b / 16 < 64 /\ (a mod 4 * 16 + b / 16) / 16 = a mod 4 /\
  (a mod 4 * 16 + b / 16) mod 16 = b / 16 /\ u8 (b / 16 * 16 + b mod 16) = b.
Proof.
  intros Hb. pose proof (Z.mod_pos_bound a 4 ltac:(lia)). pose proof (Z.div_pos b 16).
  pose proof (Z.div_lt_upper_bound b 16 16). pose proof (Z.div_mod b 16 ltac:(lia)).
  split_and!; [lia|lia| | |rewrite u8_id; lia].
  - rewrite Z.add_comm, Z.div_add, Z.div_small by lia. lia.
  - rewrite Z.add_comm, Z.mod_add, Z.mod_small by lia. lia.
Qed.

Lemma third b c :
  0 <= c < 256 -> 0 <= b mod 16 * 4 + c / 64 < 64 /\ (b mod 16 * 4 + c / 64) / 4 = b mod 16 /\
  (b mod 16 * 4 + c / 64) mod 4 = c / 64 /\ u8 (c / 64 * 64 + c mod 64) = c.
Proof.
  intros Hc. pose proof (Z.mod_pos_bound b 16 ltac:(lia)). pose proof (Z.div_pos c 64).
  pose proof (Z.div_lt_upper_bound c 64 4). pose proof (Z.div_mod c 64 ltac:(lia)).
  split_and!; [lia|lia| | |rewrite u8_id; lia].
  - rewrite Z.add_comm, Z.div_add, Z.div_small by lia. lia.
  - rewrite Z.add_comm, Z.mod_add, Z.mod_small by lia. lia.
Qed.

(** Decoding what is left of the encoding. *)
Definition decode_from (pre x p room : list Z) : option (status * list Z) :=
  let inp := pre ++ b64 x in
  decode_loop (length (b64 x)) inp (Z.of_nat (length inp)) (Z.of_nat (length pre)) (Z.of_nat (length p)) (p ++ room).

Section DecodeRest.
Context (pre p r : list Z) (Hmod : Z.of_nat (length pre) mod 4 = 0).

Lemma decode_of_1 a x0 :
  0 <= a < 256 -> Z.of_nat (length pre) + 4 < 2 ^ 32 ->
  decode_from pre [a] p (x0 :: r) = Some (BASE64_OK, p ++ a :: r).
Proof using Hmod.
  intros Ha H32. unfold decode_from. destruct (quarter a Ha) as [Q1 Q2]. destruct (group_mods pre Hmod) as (M1 & _).
  destruct (middle a 0 ltac:(lia)) as (V1 & V2 & _). change (0 / 16) with 0 in *. rewrite Z.add_0_r in *.
  destruct (group_chars pre [] (ch (a / 4)) (ch (a mod 4 * 16)) BASE64_PAD BASE64_PAD) as (R0 & R1 & R2 & _).
  pose proof (group_next_1 pre [] (ch (a / 4)) (ch (a mod 4 * 16)) BASE64_PAD BASE64_PAD eq_refl ltac:(pos)) as N1.
  cbn [b64 length].
  rewrite (decode_0 _ _ _ _ (a / 4)), (decode_1_end _ _ _ _ (a mod 4 * 16)), decode_pad by done.
  by rewrite V2, Q2.
Qed.

Lemma decode_of_2 a b x0 x1 :
  0 <= a < 256 -> 0 <= b < 256 -> Z.of_nat (length pre) + 4 < 2 ^ 32 ->
  decode_from pre [a; b] p (x0 :: x1 :: r) = Some (BASE64_OK, p ++ a :: b :: r).
Proof using Hmod.
  intros Ha Hb H32. unfold decode_from. destruct (quarter a Ha) as [Q1 Q2].
  destruct (group_mods pre Hmod) as (M1 & M2 & _).
  destruct (middle a b Hb) as (V1 & V2 & V3 & V4).
  destruct (third b 0 ltac:(lia)) as (W1 & W2 & _). change (0 / 64) with 0 in *. rewrite Z.add_0_r in *.
  set (c0 := ch (a / 4)) in *. set (c1 := ch (a mod 4 * 16 + b / 16)) in *. set (c2 := ch (b mod 16 * 4)) in *.
  destruct (group_chars pre [] c0 c1 c2 BASE64_PAD) as (R0 & R1 & R2 & R3).
  pose proof (group_next_1 pre [] c0 c1 c2 BASE64_PAD eq_refl ltac:(pos)) as N1.
  pose proof (group_next_2 pre [] c0 c1 c2 BASE64_PAD eq_refl ltac:(pos)) as N2.
  assert ((c2 =? BASE64_PAD) = false) as P2 by (by apply ch_not_pad). rewrite P2, andb_false_r in N1.
  cbn [b64 length]. fold c0 c1 c2.
  rewrite (decode_0 _ _ _ _ (a / 4)), (decode_1 _ _ _ _ (a mod 4 * 16 + b / 16) _ _ _ V1 R1 eq_refl _ _ true)
    by done.
  rewrite V2, V3, Q2.
  replace (p ++ a :: b / 16 * 16 :: r) with ((p ++ [a]) ++ b / 16 * 16 :: r) by list_assoc.
  rewrite (decode_2_end _ _ _ _ (b mod 16 * 4)), decode_pad by (done || pos).
  rewrite W2, V4. do 2 f_equal. list_assoc.
Qed.

Lemma decode_of_3 a b c x x0 x1 x2 :
  0 <= a < 256 -> 0 <= b < 256 -> 0 <= c < 256 -> Z.of_nat (length pre) + 4 + Z.of_nat (length (b64 x)) < 2 ^ 32 ->
  decode_from pre (a :: b :: c :: x) p (x0 :: x1 :: x2 :: r)
  = decode_from (pre ++ [ch (a / 4); ch (a mod 4 * 16 + b / 16); ch (b mod 16 * 4 + c / 64); ch (c mod 64)]) x
      (p ++ [a; b; c]) r.
Proof using Hmod.
  intros Ha Hb Hc H32. unfold decode_from. destruct (quarter a Ha) as [Q1 Q2].
  destruct (group_mods pre Hmod) as (M1 & M2 & M3).
  destruct (middle a b Hb) as (V1 & V2 & V3 & V4). destruct (third b c Hc) as (W1 & W2 & W3 & W4).
  pose proof (Z.mod_pos_bound c 64 ltac:(lia)) as U1.
  set (c0 := ch (a / 4)) in *. set (c1 := ch (a mod 4 * 16 + b / 16)) in *.
  set (c2 := ch (b mod 16 * 4 + c / 64)) in *. set (c3 := ch (c mod 64)) in *.
  assert (length (b64 x) mod 4 = 0)%nat as Hx.
  { destruct (b64_size x) as (k & -> & _). rewrite Nat.mul_comm. apply Nat.Div0.mod_mul. }
  destruct (group_chars pre (b64 x) c0 c1 c2 c3) as (R0 & R1 & R2 & R3).
  pose proof (group_next_1 pre (b64 x) c0 c1 c2 c3 Hx ltac:(pos)) as N1.
  pose proof (group_next_2 pre (b64 x) c0 c1 c2 c3 Hx ltac:(pos)) as N2.
  assert ((c2 =? BASE64_PAD) = false) as P2 by (by apply ch_not_pad). rewrite P2, andb_false_r in N1.
  assert ((c3 =? BASE64_PAD) = false) as P3 by (by apply ch_not_pad). rewrite P3, andb_false_r in N2.
  cbn [b64 length]. fold c0 c1 c2 c3.
  rewrite (decode_0 _ _ _ _ (a / 4)), (decode_1 _ _ _ _ (a mod 4 * 16 + b / 16) _ _ _ V1 R1 eq_refl _ _ true)
    by done.
  rewrite V2, V3, Q2.
  replace (p ++ a :: b / 16 * 16 :: x2 :: r) with ((p ++ [a]) ++ b / 16 * 16 :: x2 :: r) by list_assoc.
  rewrite (decode_2 _ _ _ _ (b mod 16 * 4 + c / 64)) by (done || pos).
  rewrite W2, W3, V4.
  replace ((p ++ [a]) ++ b :: c / 64 * 64 :: r) with ((p ++ [a; b]) ++ c / 64 * 64 :: r) by list_assoc.
  rewrite (decode_3 _ _ _ _ (c mod 64)) by (done || pos).
  rewrite W4.
  replace ((pre ++ [c0; c1; c2; c3]) ++ b64 x) with (pre ++ c0 :: c1 :: c2 :: c3 :: b64 x) by list_assoc.
  replace ((p ++ [a; b; c]) ++ r) with ((p ++ [a; b]) ++ c :: r) by list_assoc.
  f_equal; pos.
Qed.

End DecodeRest.

Lemma decode_rest n x pre p room :
  (length x <= n)%nat -> is_bytes x -> Z.of_nat (length pre) mod 4 = 0 ->
  Z.of_nat (length pre) + Z.of_nat (length (b64 x)) < 2 ^ 32 -> (length x <= length room)%nat ->
  decode_from pre x p room = Some (BASE64_OK, p ++ x ++ drop (length x) room).
Proof.
  revert x pre p room. induction n as [|n IH]; intros x pre p room Hn Hb Hmod H32 Hroom.
  all: destruct x as [|a x]; [done|try (simpl in Hn; lia)].
  apply Forall_cons in Hb as [Ha Hb]. destruct room as [|x0 room]; [simpl in Hroom; lia|].
  destruct x as [|b x]; [by apply decode_of_1|]. apply Forall_cons in Hb as [Hb Hx].
  destruct room as [|x1 room]; [simpl in Hroom; lia|]. destruct x as [|c x]; [by apply decode_of_2|].
  apply Forall_cons in Hx as [Hc Hx]. destruct room as [|x2 room]; [simpl in Hroom; lia|].
  cbn [b64 length] in *. rewrite decode_of_3, IH; try done; try lia.
  - do 2 f_equal. cbn [drop]. list_assoc.
  - rewrite length_app, Nat2Z.inj_add, Z.add_mod, Hmod by lia. done.
  - rewrite length_app. cbn [length]. lia.
Qed.

Lemma base64_encode_spec x out :
  is_bytes x -> x <> [] -> (length (b64 x) <= length out)%nat -> Z.of_nat (length x) < 2 ^ 32 ->
  base64_encode x (Z.of_nat (length x)) out = Some (b64 x ++ drop (length (b64 x)) out).
Proof.
  intros Hb Hne Ho H32. unfold base64_encode. rewrite Nat2Z.id.
  apply (encode_rest (length x) x [] [] out); [done|done|done| |done].
  destruct x; [done|]. cbn [app length] in *. lia.
Qed.

(** What [base64_encode] writes [base64_decode] reads back, for every input
    that is not empty: the output is padded to a multiple of four characters and
    at most a third longer, and neither call touches memory behind the bytes it
    produces. *)
Theorem base64_roundtrip x out1 out2 :
  is_bytes x -> x <> [] -> (length (b64 x) <= length out1)%nat -> (length x <= length out2)%nat ->
  Z.of_nat (length (b64 x)) < 2 ^ 32 ->
  base64_encode x (Z.of_nat (length x)) out1 = Some (b64 x ++ drop (length (b64 x)) out1) /\
  base64_decode (b64 x) (Z.of_nat (length (b64 x))) out2 = Some (BASE64_OK, x ++ drop (length x) out2) /\
  (exists k, length (b64 x) = 4 * k /\ length x <= 3 * k < length x + 3)%nat.
Proof.
  intros Hb Hne H1 H2 H32.
  pose proof (b64_size x) as Hsize. split_and!; [| |done].
  - apply base64_encode_spec; [done..|]. destruct Hsize as (k & Hk & Hx). lia.
  - unfold base64_decode. rewrite Nat2Z.id. by apply (decode_rest (length x) x [] [] out2).
Qed.

Lemma base64_roundtrip_witness :
  base64_decode (b64 (bytes_of "pingo")) 8 (replicate 6 0) = Some (BASE64_OK, bytes_of "pingo" ++ [0]) /\
  b64 (bytes_of "pingo") = bytes_of "cGluZ28=".
Proof.
  split; [|reflexivity].
  assert (is_bytes (bytes_of "pingo")) as Hb by (vm_compute; repeat constructor; congruence).
  apply (base64_roundtrip (bytes_of "pingo") (replicate 8 0) (replicate 6 0) Hb);
    [discriminate|vm_compute; lia|vm_compute; lia|vm_compute; reflexivity].
Defined.

End Base64.
