(* ===== verification/Framing.v ===== *)
(** * Framing: the stream plugins of shadowsocksr-libev

    The protocol plugins of src/server/verify.c and src/server/auth.c all cut
    the stream into frames on one side and collect frames from a receive buffer
    on the other, with the same two loops around a packing and a parsing step of
    their own.  The loops are modelled once, over the classes [Framing] and
    [Packing]; a plugin is an instance.  What a plugin promises about its frames
    is the class [FramingLaws], from which delivery under every segmentation of
    the stream follows. *)

From S2P Require Import Prelude Libc.

Import Libc.

Module Framing.

(** ** Receiving *)

(** What the body of the receiving loop decides on the bytes in the buffer: to
    wait for more, to give the stream up, or to take a frame of [len] bytes with
    its data. *)
Inductive verdict (St : Type) := Wait | Bad | Took (len : Z) (data : list Z) (s : St).
Arguments Wait {St}.
Arguments Bad {St}.
Arguments Took {St} _ _ _.

(** [St]: what the receiver keeps besides the buffer.  The loop runs while the
    buffer holds more than [min_size] bytes. *)
Class Framing (St : Type) := {
  min_size : Z;
  parse : St -> list Z -> option (verdict St) }.

Definition RECV_SIZE : Z := 16384.

(** The result of a call: the number returned, and the caller's buffer with its
    capacity. *)
Record result := mkResult { ret : Z; plaindata : list Z; capacity : Z }.

(** [if ( *capacity < len) realloc(..., *capacity = len * 2)], then the copy. *)
Definition give_back (out : list Z) (cap : Z) : result :=
  let len := Z.of_nat (length out) in
  mkResult len out (if cap <? len then len * 2 else cap).

Section Receive.
Context {St : Type} `{Framing St}.

(** [room] is the size of [out_buffer]: a copy that does not fit is an
    overflow. *)
Fixpoint recv_loop (fuel : nat) (room : Z) (s : St) (recv out : list Z)
    : option (bool * list Z * list Z * St) :=
  match fuel with
  | O => None
  | S fuel =>
      if Z.of_nat (length recv) <=? min_size then Some (false, recv, out, s) else
      v ← parse s recv;
      match v with
      | Wait => Some (false, recv, out, s)
      | Bad => Some (true, [], out, s)
      | Took len data s =>
          if Z.of_nat (length out + length data) <=? room
          then recv_loop fuel room s (drop (Z.to_nat len) recv) (out ++ data) else None
      end
  end.

(** [..._post_decrypt]: the result, the bytes left in the receive buffer and the
    receiver's state. *)
Definition post_decrypt (s : St) (recv data : list Z) (cap : Z) : option (result * list Z * St) :=
  if RECV_SIZE <? Z.of_nat (length recv + length data)
  then Some (mkResult (-1) data cap, recv, s) else
  let recv := recv ++ data in
  r ← recv_loop (S (length recv)) (Z.of_nat (length recv)) s recv [];
  let '(error, recv, out, s) := r : bool * list Z * list Z * St in
  if error then Some (mkResult (-1) data cap, recv, s) else Some (give_back out cap, recv, s).

(** The first pass over a fresh segment that is refused, or whose parse is
    undefined. *)
Lemma post_decrypt_first s g cap :
  min_size < Z.of_nat (length g) <= RECV_SIZE ->
  (forall v, parse s g = Some v -> v = Bad) ->
  post_decrypt s [] g cap = (v ← parse s g; Some (mkResult (-1) g cap, [], s)).
Proof.
  intros Hg Hv. unfold post_decrypt. cbn [length Nat.add app].
  rewrite (proj2 (Z.ltb_ge RECV_SIZE _)) by lia. cbn [recv_loop].
  rewrite (proj2 (Z.leb_gt _ _)) by lia.
  destruct (parse s g) as [v|]; [|done]. by rewrite (Hv v eq_refl).
Qed.

(** The segments of a stream in turn: all data delivered, [None] when a call
    fails. *)
Fixpoint feed (cap : Z) (s : St) (recv : list Z) (segs : list (list Z)) : option (list Z * list Z * St) :=
  match segs with
  | [] => Some ([], recv, s)
  | seg :: segs =>
      r ← post_decrypt s recv seg cap;
      let '(res, recv, s) := r : result * list Z * St in
      if ret res <? 0 then None else
      r ← feed cap s recv segs;
      let '(out, recv, s) := r : list Z * list Z * St in
      Some (plaindata res ++ out, recv, s)
  end.

End Receive.

(** ** Sending *)

(** [pack]: one frame written to the start of the free part of the output
    buffer: the buffer, the size of the frame and the sender's state. *)
Class Packing (T : Type) := pack : T -> list Z -> list Z -> option (list Z * Z * T).

Definition PACK_UNIT : nat := 2000.

Section Send.
Context {T : Type} `{Packing T}.

(** The pieces of the data in turn; [out] is what is before [buffer], [room] the
    output buffer from there on. *)
Fixpoint pack_loop (fuel : nat) (t : T) (data room out : list Z) : option (list Z * T) :=
  match fuel with
  | O => None
  | S fuel =>
      if (PACK_UNIT <? length data)%nat then
        r ← pack t (take PACK_UNIT data) room;
        let '(room, size, t) := r : list Z * Z * T in
        pack_loop fuel t (drop PACK_UNIT data) (drop (Z.to_nat size) room) (out ++ take (Z.to_nat size) room)
      else if (0 <? length data)%nat then
        r ← pack t data room;
        let '(room, size, t) := r : list Z * Z * T in
        Some (out ++ take (Z.to_nat size) room, t)
      else Some (out, t)
  end.

Definition pack_all (t : T) (data room out : list Z) : option (list Z * T) :=
  pack_loop (S (length data)) t data room out.

(** [..._pre_encrypt] of a plugin without a header: the output buffer is fresh
    memory of [datalength * 2 + slack] bytes. *)
Definition pre_encrypt (malloc : Z -> list Z) (slack : Z) (t : T) (data : list Z) (cap : Z)
    : option (result * T) :=
  r ← pack_all t data (malloc (Z.of_nat (length data) * 2 + slack)) [];
  let '(out, t) := r : list Z * T in
  Some (give_back out cap, t).

(** Several calls: everything that goes to the wire. *)
Fixpoint send_all (malloc : Z -> list Z) (slack cap : Z) (t : T) (msgs : list (list Z))
    : option (list Z * T) :=
  match msgs with
  | [] => Some ([], t)
  | m :: msgs =>
      r ← pre_encrypt malloc slack t m cap;
      let '(res, t) := r : result * T in
      r ← send_all malloc slack cap t msgs;
      let '(out, t) := r : list Z * T in
      Some (plaindata res ++ out, t)
  end.

End Send.

(** ** The first packet of a client

    [pack_auth]: the head of the data with the plugin's header; it may change the
    data all connections share ([G]) besides the sender's. *)
Section Client.
Context {G T : Type} `{Packing T}.
Context (pack_auth : G -> T -> list Z -> list Z -> option (list Z * Z * G * T)).
Context (get_head : list Z -> option Z).

Record client := mkClient { has_sent_header : bool; g_data : G; sender : T }.

(** What is left of the data and the room after the header, what was written, and
    the client. *)
Definition pack_head (c : client) (data room : list Z) : option (list Z * list Z * list Z * client) :=
  let datalength := Z.of_nat (length data) in
  if (0 <? datalength) && negb (has_sent_header c) then
    head_size ← get_head data;
    let head_size := if datalength <? head_size then datalength else head_size in
    head ← mread data 0 head_size;
    r ← pack_auth (g_data c) (sender c) head room;
    let '(room, pack_len, g, t) := r : list Z * Z * G * T in
    Some (drop (Z.to_nat head_size) data, drop (Z.to_nat pack_len) room, take (Z.to_nat pack_len) room,
          mkClient true g t)
  else Some (data, room, [], c).

(** Lengths are the C [int]s; they stay in range for data below 2^30 bytes less the
    slack, and a caller's buffer holds a few kilobytes. *)
Definition client_pre_encrypt (malloc : Z -> list Z) (slack : Z) (c : client) (data : list Z) (cap : Z)
    : option (result * client) :=
  r ← pack_head c data (malloc (Z.of_nat (length data) * 2 + slack));
  let '(data, room, out, c) := r : list Z * list Z * list Z * client in
  r ← pack_all (sender c) data room out;
  let '(out, t) := r : list Z * T in
  Some (give_back out cap, mkClient (has_sent_header c) (g_data c) t).

Fixpoint client_send_all (malloc : Z -> list Z) (slack cap : Z) (c : client) (msgs : list (list Z))
    : option (list Z * client) :=
  match msgs with
  | [] => Some ([], c)
  | m :: msgs =>
      r ← client_pre_encrypt malloc slack c m cap;
      let '(res, c) := r : result * client in
      r ← client_send_all malloc slack cap c msgs;
      let '(out, c) := r : list Z * client in
      Some (plaindata res ++ out, c)
  end.

(** After the header the client is a plain sender. *)
Lemma client_sent malloc slack cap g t msgs :
  client_send_all malloc slack cap (mkClient true g t) msgs
  = (r ← send_all malloc slack cap t msgs; let '(out, t) := r : list Z * T in Some (out, mkClient true g t)).
Proof.
  revert t. induction msgs as [|m msgs IH]; intros t; [done|]. cbn [client_send_all send_all].
  unfold client_pre_encrypt, pack_head, pre_encrypt. cbn [has_sent_header negb sender g_data].
  rewrite andb_false_r. cbn [mbind option_bind sender has_sent_header g_data].
  destruct (pack_all t m _ []) as [[out t']|]; [|done]. cbn [mbind option_bind]. rewrite IH.
  by destruct (send_all malloc slack cap t' msgs) as [[out' t'']|].
Qed.

End Client.
Arguments mkClient {G T}.
Arguments client : clear implicits.
Arguments has_sent_header {G T}.
Arguments g_data {G T}.
Arguments sender {G T}.

(** ** What a plugin promises

    [frame_of s f d s']: in state [s] the receiver takes the frame [f] with the
    data [d] and goes to [s']. *)

Class FramingLaws (St : Type) `{Framing St} := {
  frame_of : St -> list Z -> list Z -> St -> Prop;
  min_size_nonneg : 0 <= min_size;
  frame_size s f d s' : frame_of s f d s' ->
    min_size < Z.of_nat (length f) < 8192 /\ (length d <= length f)%nat;
  parse_frame s f d s' rest : frame_of s f d s' ->
    parse s (f ++ rest) = Some (Took (Z.of_nat (length f)) d s');
  parse_partial s f d s' p q : frame_of s f d s' -> f = p ++ q -> q <> [] ->
    min_size < Z.of_nat (length p) -> parse s p = Some Wait }.

Section Delivery.
Context {St : Type} `{FramingLaws St}.

(** Frames in a row, with their data. *)
Inductive frames : St -> list (list Z * list Z) -> St -> Prop :=
  | frames_nil s : frames s [] s
  | frames_cons s f d s' fs s'' : frame_of s f d s' -> frames s' fs s'' -> frames s ((f, d) :: fs) s''.

(** The bytes of an incomplete frame. *)
Definition partial (s : St) (p : list Z) : Prop :=
  p = [] \/ exists f d s' q, frame_of s f d s' /\ f = p ++ q /\ q <> [].

Notation bytes fs := (concat (map fst fs)).
Notation datas fs := (concat (map snd fs)).

Lemma partial_size s p : partial s p -> Z.of_nat (length p) < 8192.
Proof.
  intros [->|(f & d & s' & q & Hf & -> & Hq)]; [simpl; lia|].
  apply frame_size in Hf as [Hf _]. rewrite length_app in Hf. lia.
Qed.

(** On frames and an incomplete one the loop takes the frames and stops. *)
Lemma recv_loop_frames s fs s' p out room fuel :
  frames s fs s' -> partial s' p ->
  Z.of_nat (length out + length (bytes fs ++ p)) <= room ->
  (length (bytes fs ++ p) < fuel)%nat ->
  recv_loop fuel room s (bytes fs ++ p) out = Some (false, p, out ++ datas fs, s').
Proof.
  intros Hfs Hp. revert out fuel. induction Hfs as [s|s f d s1 fs s2 Hf _ IH]; intros out [|fuel] Hroom Hfuel;
    try lia; cbn [map concat fst snd app] in *.
  - cbn [recv_loop]. rewrite app_nil_r. case_bool; [done|].
    destruct Hp as [->|(f & d & s' & q & Hf & Hpq & Hq)].
    { pose proof min_size_nonneg. simpl in *. lia. }
    by rewrite (parse_partial s f d s' p q).
  - pose proof (frame_size _ _ _ _ Hf) as [Hsize Hd]. rewrite <- app_assoc in *.
    rewrite length_app in Hroom, Hfuel. cbn [recv_loop].
    rewrite (proj2 (Z.leb_gt _ _)) by (rewrite length_app; lia).
    rewrite (parse_frame _ _ _ _ _ Hf). cbn [mbind option_bind].
    rewrite (proj2 (Z.leb_le _ _)) by lia.
    rewrite Nat2Z.id, drop_app_length, IH; [by rewrite <- app_assoc|done| |].
    + rewrite length_app. lia.
    + pose proof min_size_nonneg. lia.
Qed.

(** Any prefix of frames and an incomplete one is frames and an incomplete
    one. *)
Lemma split_frames s fs s' p x y :
  frames s fs s' -> partial s' p -> x ++ y = bytes fs ++ p ->
  exists fs1 s1 fs2 p1, fs = fs1 ++ fs2 /\ frames s fs1 s1 /\ frames s1 fs2 s' /\
    x = bytes fs1 ++ p1 /\ p1 ++ y = bytes fs2 ++ p /\ partial s1 p1.
Proof.
  intros Hfs Hp. revert x. induction Hfs as [s|s f d s1 fs s2 Hf Hfs IH]; intros x Hx; cbn [map concat fst app] in *.
  - exists [], s, [], x. split_and!; try done; [constructor..|].
    destruct (decide (x = [])) as [|Hne]; [by left|]. right.
    destruct Hp as [->|(f & d & s' & q & Hf & -> & Hq)]; [by apply app_eq_nil in Hx as [? _]|].
    exists (p ++ q), d, s', (y ++ q). split_and!; [done|by rewrite app_assoc, Hx|].
    by intros [_ ?]%app_eq_nil.
  - destruct (decide (length x < length f)%nat) as [Hlt|Hge].
    + exists [], s, ((f, d) :: fs), x. split_and!; [done|constructor|by econstructor|done|done|].
      right. exists f, d, s1, (drop (length x) f). split_and!; [done| |].
      * apply (f_equal (take (length x))) in Hx. rewrite take_app_length in Hx.
        rewrite <- app_assoc, take_app_le in Hx by lia. rewrite Hx at 1. by rewrite take_drop.
      * intros Hnil%(f_equal length). rewrite length_drop in Hnil. simpl in Hnil. lia.
    + rewrite <- app_assoc in Hx.
      assert (x = f ++ drop (length f) x) as Hfx.
      { apply (f_equal (take (length f))) in Hx. rewrite take_app_length, take_app_le in Hx by lia.
        rewrite <- Hx at 1. by rewrite take_drop. }
      set (x' := drop (length f) x) in *. clearbody x'. subst x.
      rewrite <- app_assoc in Hx. apply app_inv_head in Hx.
      destruct (IH Hp x' Hx) as (fs1 & sm & fs2 & p1 & -> & H1 & H2 & -> & H4 & H5).
      exists ((f, d) :: fs1), sm, fs2, p1. split_and!; [done|by econstructor|done| |done|done].
      cbn [map concat fst]. by rewrite app_assoc.
Qed.

Lemma frames_datas s fs s' : frames s fs s' -> (length (datas fs) <= length (bytes fs))%nat.
Proof.
  induction 1 as [|s f d s1 fs s2 Hf _ IH]; [done|]. cbn [map concat fst snd]. rewrite !length_app.
  apply frame_size in Hf as [_ Hf]. lia.
Qed.

(** One call on the next segment. *)
Lemma post_decrypt_frames s fs s' p recv seg cap :
  frames s fs s' -> partial s' p -> recv ++ seg = bytes fs ++ p ->
  Z.of_nat (length recv) < 8192 -> Z.of_nat (length seg) <= 8192 ->
  post_decrypt s recv seg cap = Some (give_back (datas fs) cap, p, s').
Proof.
  intros Hfs Hp Heq Hr Hs. unfold post_decrypt, RECV_SIZE.
  rewrite (proj2 (Z.ltb_ge _ _)) by lia. rewrite Heq.
  rewrite (recv_loop_frames s fs s' p []); [done|done|done|simpl; lia|lia].
Qed.

(** Delivery: however a stream of frames with an incomplete one at its end is cut
    into segments of at most 8192 bytes, the receiver has delivered the data of
    exactly the complete frames, and holds the bytes of the incomplete one. *)
Lemma stream_delivery s fs s' p segs recv cap :
  frames s fs s' -> partial s' p -> partial s recv ->
  recv ++ concat segs = bytes fs ++ p -> Forall (fun seg => Z.of_nat (length seg) <= 8192) segs ->
  feed cap s recv segs = Some (datas fs, p, s').
Proof.
  intros Hfs Hp. revert s fs recv Hfs. induction segs as [|seg segs IH]; intros s fs recv Hfs Hrecv Heq Hsegs;
    cbn [concat feed] in *.
  - rewrite app_nil_r in Heq. subst recv. destruct Hfs as [s|s f d s1 fs s2 Hf Hfs]; [done|].
    exfalso. cbn [map concat fst] in Hrecv.
    pose proof (frame_size _ _ _ _ Hf) as [Hsize _]. pose proof min_size_nonneg.
    destruct Hrecv as [Hnil|(f' & d' & s'' & q & Hf' & Hq & Hne)].
    { apply app_eq_nil in Hnil as [Hnil _]. apply app_eq_nil in Hnil as [-> _]. simpl in *. lia. }
    pose proof (parse_frame _ _ _ _ (concat (map fst fs) ++ p) Hf) as Htook.
    rewrite <- app_assoc in Hq.
    rewrite (parse_partial s f' d' s'' (f ++ concat (map fst fs) ++ p) q Hf') in Htook; [done| |done|].
    + by rewrite Hq, <- !app_assoc.
    + rewrite length_app. lia.
  - apply Forall_cons in Hsegs as [Hseg Hsegs]. rewrite app_assoc in Heq.
    destruct (split_frames s fs s' p (recv ++ seg) (concat segs) Hfs Hp Heq)
      as (fs1 & s1 & fs2 & p1 & -> & Hfs1 & Hfs2 & Hx & Hy & Hp1).
    rewrite (post_decrypt_frames s fs1 s1 p1); [|done|done|done|by eapply partial_size|done].
    cbn [mbind option_bind]. unfold give_back at 1. cbn [ret].
    rewrite (proj2 (Z.ltb_ge _ _)) by lia.
    rewrite (IH s1 fs2 p1) by done. cbn [mbind option_bind give_back plaindata].
    by rewrite map_app, concat_app.
Qed.

Lemma frames_app s fs s1 gs s2 : frames s fs s1 -> frames s1 gs s2 -> frames s (fs ++ gs) s2.
Proof. induction 1; intros Hg; [done|]. cbn [app]. econstructor; eauto. Qed.

End Delivery.

(** ** What a sender promises

    [agrees t s]: a sender in state [t] writes what a receiver in state [s]
    expects.  A frame takes at most twice its data and [pack_slack] bytes, a
    frame of a whole unit no slack, so the output buffer is large enough. *)

Class PackingLaws (St T : Type) `{FramingLaws St} `{Packing T} := {
  agrees : T -> St -> Prop;
  pack_slack : Z;
  pack_frame t s data room :
    agrees t s -> is_bytes data -> is_bytes room -> (0 < length data <= PACK_UNIT)%nat ->
    2 * Z.of_nat (length data) + pack_slack <= Z.of_nat (length room) \/
      (length data = PACK_UNIT /\ 2 * Z.of_nat (length data) <= Z.of_nat (length room)) ->
    exists f t' s',
      pack t data room = Some (f ++ drop (length f) room, Z.of_nat (length f), t') /\
      frame_of s f data s' /\ agrees t' s' /\
      Z.of_nat (length f) <= 2 * Z.of_nat (length data) + pack_slack /\
      (length data = PACK_UNIT -> Z.of_nat (length f) <= 2 * Z.of_nat (length data)) }.

(** Fresh memory: any bytes, as many as asked for. *)
Class MallocLaws (malloc : Z -> list Z) := {
  malloc_length n : length (malloc n) = Z.to_nat n;
  malloc_bytes n : is_bytes (malloc n) }.

Section Transport.
Context {St T : Type} {F : Framing St} {FL : FramingLaws St} {P : Packing T} {PL : PackingLaws St T}.

Lemma pack_loop_frames fuel t s data room out :
  agrees t s -> is_bytes data -> is_bytes room ->
  2 * Z.of_nat (length data) + pack_slack <= Z.of_nat (length room) -> (length data < fuel)%nat ->
  exists fs t' s', pack_loop fuel t data room out = Some (out ++ concat (map fst fs), t') /\
    frames s fs s' /\ agrees t' s' /\ concat (map snd fs) = data.
Proof.
  revert t s data room out. induction fuel as [|fuel IH]; intros t s data room out Ha Hd Hr Hroom Hf; [lia|].
  cbn [pack_loop]. destruct (PACK_UNIT <? length data)%nat eqn:E.
  - apply Nat.ltb_lt in E.
    assert (length (take PACK_UNIT data) = PACK_UNIT) as Hl by (rewrite length_take; lia).
    destruct (pack_frame t s (take PACK_UNIT data) room Ha) as (f & t1 & s1 & Hp & Hfr & Ha1 & _ & Hlen);
      [by apply Forall_take|done|rewrite Hl; unfold PACK_UNIT; lia|rewrite Hl; unfold PACK_UNIT in *; lia|].
    rewrite Hp. cbn [mbind option_bind]. rewrite Nat2Z.id, take_app_length, drop_app_length.
    specialize (Hlen Hl). rewrite Hl in Hlen.
    destruct (IH t1 s1 (drop PACK_UNIT data) (drop (length f) room) (out ++ f))
      as (fs & t2 & s2 & Hrec & Hfs & Ha2 & Hdata); [done|by apply Forall_drop|by apply Forall_drop| | |].
    + rewrite !length_drop. unfold PACK_UNIT in *. lia.
    + rewrite length_drop. unfold PACK_UNIT in *. lia.
    + exists ((f, take PACK_UNIT data) :: fs), t2, s2. split_and!; [|by econstructor|done|].
      * rewrite Hrec. cbn [map concat fst]. by rewrite <- app_assoc.
      * cbn [map concat snd]. by rewrite Hdata, take_drop.
  - apply Nat.ltb_ge in E. destruct (0 <? length data)%nat eqn:E0.
    + apply Nat.ltb_lt in E0.
      destruct (pack_frame t s data room Ha) as (f & t1 & s1 & Hp & Hfr & Ha1 & _ & _); [done|done|lia|by left|].
      rewrite Hp. cbn [mbind option_bind]. rewrite Nat2Z.id, take_app_length.
      exists [(f, data)], t1, s1. split_and!; [|by repeat econstructor|done|].
      * cbn [map concat fst]. by rewrite app_nil_r.
      * cbn [map concat snd]. by rewrite app_nil_r.
    + apply Nat.ltb_ge in E0. destruct data; [|simpl in E0; lia].
      exists [], t, s. split_and!; [by rewrite app_nil_r|constructor|done|done].
Qed.

Context (malloc : Z -> list Z) `{!MallocLaws malloc}.

Lemma pre_encrypt_frames slack t s data cap :
  agrees t s -> is_bytes data -> 0 <= pack_slack <= slack ->
  exists fs t' s', pre_encrypt malloc slack t data cap = Some (give_back (concat (map fst fs)) cap, t') /\
    frames s fs s' /\ agrees t' s' /\ concat (map snd fs) = data.
Proof.
  intros Ha Hd Hs. unfold pre_encrypt, pack_all.
  destruct (pack_loop_frames (S (length data)) t s data (malloc (Z.of_nat (length data) * 2 + slack)) [])
    as (fs & t' & s' & Hp & Hfs & Ha' & Hdata); [done|done|apply malloc_bytes|rewrite malloc_length; lia|lia|].
  rewrite Hp. eauto 10.
Qed.

Lemma send_all_frames slack cap t s msgs :
  agrees t s -> Forall is_bytes msgs -> 0 <= pack_slack <= slack ->
  exists fs t' s', send_all malloc slack cap t msgs = Some (concat (map fst fs), t') /\
    frames s fs s' /\ agrees t' s' /\ concat (map snd fs) = concat msgs.
Proof.
  intros Ha Hm Hs. revert t s Ha. induction Hm as [|m msgs Hm _ IH]; intros t s Ha; cbn [send_all].
  { exists [], t, s. split_and!; [done|constructor|done|done]. }
  destruct (pre_encrypt_frames slack t s m cap Ha Hm Hs) as (fs & t1 & s1 & Hp & Hfs & Ha1 & Hd).
  destruct (IH t1 s1 Ha1) as (gs & t2 & s2 & Hq & Hgs & Ha2 & Hd2).
  rewrite Hp. cbn [mbind option_bind give_back plaindata]. rewrite Hq. cbn [mbind option_bind].
  exists (fs ++ gs), t2, s2. rewrite !map_app, !concat_app, Hd, Hd2.
  split_and!; [done|by eapply frames_app|done|done].
Qed.

(** Transport: what is sent in any number of calls is received in any
    segmentation. *)
Lemma transport slack scap rcap t s msgs segs :
  agrees t s -> Forall is_bytes msgs -> 0 <= pack_slack <= slack ->
  Forall (fun seg => Z.of_nat (length seg) <= 8192) segs ->
  exists wire t' s', send_all malloc slack scap t msgs = Some (wire, t') /\ agrees t' s' /\
    (concat segs = wire -> feed rcap s [] segs = Some (concat msgs, [], s')).
Proof.
  intros Ha Hm Hs Hsegs. destruct (send_all_frames slack scap t s msgs Ha Hm Hs)
    as (fs & t' & s' & Hsend & Hfs & Ha' & Hd).
  exists (concat (map fst fs)), t', s'. split_and!; [done|done|]. intros Hc. rewrite <- Hd.
  apply stream_delivery; [done|by left|by left|by rewrite Hc, app_nil_r|done].
Qed.

(** With a header in front.  [auth t head f t']: the packet [f] is the header for
    [head]. *)
Section WithHeader.
Context {G : Type} (pack_auth : G -> T -> list Z -> list Z -> option (list Z * Z * G * T)).
Context (get_head : list Z -> option Z) (auth_slack max_head : Z).
Context (auth : G -> T -> list Z -> list Z -> G -> T -> Prop).

Definition auth_spec (g : G) (t : T) : Prop :=
  forall head room, is_bytes head -> is_bytes room -> Z.of_nat (length head) <= max_head ->
    Z.of_nat (length head) + auth_slack <= Z.of_nat (length room) ->
    exists f g' t', pack_auth g t head room = Some (f ++ drop (length f) room, Z.of_nat (length f), g', t') /\
      auth g t head f g' t' /\ Z.of_nat (length f) <= Z.of_nat (length head) + auth_slack.

(** The first message that is not empty: its head goes into the header, the rest
    and all further messages into frames. *)
Lemma client_transport slack scap rcap g t s m msgs segs head_size :
  auth_spec g t -> (forall head f g' t', auth g t head f g' t' -> agrees t' s) -> m <> [] -> is_bytes m -> Forall is_bytes msgs ->
  get_head m = Some head_size -> 0 <= head_size <= max_head -> Z.of_nat (length m) < 2 ^ 62 ->
  0 <= pack_slack -> 0 <= auth_slack -> pack_slack + auth_slack <= slack ->
  Forall (fun seg => Z.of_nat (length seg) <= 8192) segs ->
  let n := Z.to_nat (head_size `min` Z.of_nat (length m)) in
  exists f g1 t1 wire t' s',
    auth g t (take n m) f g1 t1 /\ agrees t' s' /\
    client_send_all pack_auth get_head malloc slack scap (mkClient false g t) (m :: msgs)
      = Some (f ++ wire, mkClient true g1 t') /\
    (concat segs = wire -> feed rcap s [] segs = Some (drop n m ++ concat msgs, [], s')).
Proof.
  intros Hauth Hagr Hne Hm Hmsgs Hget Hh Hm62 Hps Has Hslack Hsegs n.
  assert (n <= length m)%nat as Hn by (unfold n; lia).
  set (room := malloc (Z.of_nat (length m) * 2 + slack)).
  assert (Z.of_nat (length room) = Z.of_nat (length m) * 2 + slack) as Hroom
    by (unfold room; rewrite malloc_length; lia).
  destruct (Hauth (take n m) room) as (f & g1 & t1 & Hp & Ha & Hf); [by apply Forall_take|apply malloc_bytes|..].
  1,2: rewrite length_take; unfold n; lia.
  rewrite length_take in Hf.
  pose proof (Hagr _ _ _ _ Ha) as Hs.
  destruct (pack_loop_frames (S (length (drop n m))) t1 s (drop n m) (drop (length f) room) f)
    as (fs & t2 & s2 & Hloop & Hfs & Ha2 & Hd); [done|by apply Forall_drop|apply Forall_drop, malloc_bytes| |lia|].
  { rewrite !length_drop. lia. }
  destruct (send_all_frames slack scap t2 s2 msgs Ha2 Hmsgs ltac:(lia)) as (gs & t3 & s3 & Hsend & Hgs & Ha3 & Hd3).
  exists f, g1, t1, (concat (map fst fs) ++ concat (map fst gs)), t3, s3. split_and!; [done|done| |].
  - cbn [client_send_all]. unfold client_pre_encrypt, pack_head. fold room.
    cbn [has_sent_header g_data sender negb]. destruct m as [|b m']; [done|].
    rewrite (proj2 (Z.ltb_lt 0 _)) by (cbn [length]; lia). cbn [andb]. rewrite Hget. cbn [mbind option_bind].
    set (hs := if Z.of_nat (length (b :: m')) <? head_size then Z.of_nat (length (b :: m')) else head_size).
    assert (Z.to_nat hs = n /\ 0 <= hs <= Z.of_nat (length (b :: m'))) as [Hhs Hhr].
    { unfold hs, n. case_bool; lia. }
    rewrite mread_in by lia. rewrite Hhs. cbn [drop mbind option_bind].
    change (Z.to_nat 0) with 0%nat. cbn [drop]. rewrite Hp. cbn [mbind option_bind sender has_sent_header g_data].
    rewrite Nat2Z.id, take_app_length, drop_app_length. unfold pack_all. rewrite Hloop. cbn [mbind option_bind].
    unfold give_back at 1. cbn [plaindata]. rewrite client_sent, Hsend. cbn [mbind option_bind].
    unfold give_back. cbn [plaindata]. by rewrite <- app_assoc.
  - intros Hc. rewrite <- Hd, <- Hd3, <- concat_app, <- map_app.
    apply stream_delivery; [by eapply frames_app|by left|by left| |done].
    by rewrite Hc, app_nil_r, map_app, concat_app.
Qed.
End WithHeader.

End Transport.

End Framing.
