(* ===== verification/Verify.v ===== *)
(** * Verify: the random numbers and the verify_simple plugin

    Models src/server/obfsutil.c and src/server/verify.c of shadowsocksr-libev.
    A frame holds its size, the length of a filling, the filling, the data and a
    CRC-32 that makes the CRC of the whole frame all ones.  The filling is never
    written: it is what the fresh output buffer held. *)

From S2P Require Import Prelude Libc Crc Framing.

Import Libc Crc Framing.

(** ** src/server/obfsutil.c *)
Module Obfsutil.

(** Where the address of a request ends; [plaindata] is a plain [char] array. *)
Definition get_head_size (signed_char : bool) (plaindata : option (list Z)) (size def_size : Z) : option Z :=
  match plaindata with
  | None => Some def_size
  | Some d =>
      if size <? 2 then Some def_size else
      b0 ← d @! 0;
      let head_type := Z.land (cval signed_char b0) 7 in
      if head_type =? 1 then Some 7
      else if head_type =? 4 then Some 19
      else if head_type =? 3 then b1 ← d @! 1; Some (4 + cval signed_char b1)
      else Some def_size
  end.

(** [shift128plus_s]. *)
Definition rng : Type := Z * Z.

Definition init_shift128plus (now : Z) : rng :=
  let seed := u32 now in (Z.lor seed 4294967296, Z.lor (u64 (Z.shiftl seed 32)) 1).

Definition xorshift128plus (s : rng) : Z * rng :=
  let '(x, y) := s in
  let x := Z.lxor x (u64 (Z.shiftl x 23)) in
  let x := Z.lxor x (Z.shiftr x 17) in
  let x := Z.lxor x (Z.lxor y (Z.shiftr y 26)) in
  (u64 (x + y), (y, x)).

End Obfsutil.

Import Obfsutil.

(** ** src/server/verify.c *)
Module Verify.

Section Verify.
Context (crc32_table : list Z).

(** The free part of the output buffer starts with [outdata]. *)
Definition verify_simple_pack_data (r : rng) (data outdata : list Z) : option (list Z * Z * rng) :=
  let datalength := Z.of_nat (length data) in
  let '(x, r) := xorshift128plus r in
  let rand_len := u8 (Z.land x 15 + 1) in
  let out_size := rand_len + datalength + 6 in
  outdata ← wr outdata 0 (u8 (Z.shiftr out_size 8));
  outdata ← wr outdata 1 (u8 out_size);
  outdata ← wr outdata 2 rand_len;
  outdata ← mwrite outdata (rand_len + 2) data;
  outdata ← fillcrc32 crc32_table outdata out_size;
  Some (outdata, out_size, r).

(** The body of the receiving loop. *)
Definition verify_simple_parse {St} (s : St) (recv_buffer : list Z) : option (verdict St) :=
  b0 ← recv_buffer @! 0;
  b1 ← recv_buffer @! 1;
  let length := Z.lor (Z.shiftl b0 8) b1 in
  if (8192 <=? length) || (length <? 7) then Some Bad else
  if Z.of_nat (List.length recv_buffer) <? length then Some Wait else
  crc ← crc32 crc32_table recv_buffer length;
  if negb (s32 crc =? -1) then Some Bad else
  b2 ← recv_buffer @! 2;
  let data_size := length - b2 - 6 in
  data ← mread recv_buffer (2 + b2) data_size;
  Some (Took length data s).

(** The local data of the plugin is its receive buffer. *)
Inductive verify_simple_local_data := VerifyLocal.

#[export] Instance verify_simple_framing : Framing verify_simple_local_data :=
  { min_size := 2; parse := verify_simple_parse }.
#[export] Instance verify_simple_packing : Packing rng := verify_simple_pack_data.

(** Both directions have the same text. *)
Definition VERIFY_SLACK : Z := 32.
Definition verify_simple_client_pre_encrypt (malloc : Z -> list Z) := pre_encrypt (T := rng) malloc VERIFY_SLACK.
Definition verify_simple_server_pre_encrypt (malloc : Z -> list Z) := pre_encrypt (T := rng) malloc VERIFY_SLACK.
Definition verify_simple_client_post_decrypt := post_decrypt (St := verify_simple_local_data).
Definition verify_simple_server_post_decrypt := post_decrypt (St := verify_simple_local_data).

End Verify.

(** ** Frames with a CRC *)

(** A frame of data [d]: its size, the length of the filling, the filling, the
    data, and the state of the CRC over all that. *)
Definition crc_body (rand_len : Z) (filling d : list Z) : list Z :=
  let size := rand_len + Z.of_nat (length d) + 6 in
  [u8 (Z.shiftr size 8); u8 size; rand_len] ++ filling ++ d.

Definition crc_frame (f d : list Z) : Prop :=
  exists rand_len filling,
    f = crc_body rand_len filling d ++ le_bytes (crc_ref_loop ONES (crc_body rand_len filling d)) /\
    Z.of_nat (length filling) + 1 = rand_len /\ rand_len < 256 /\
    rand_len + Z.of_nat (length d) + 6 < 8192 /\ is_bytes filling /\ is_bytes d.

Lemma two_bytes n : 0 <= n < 65536 -> Z.lor (Z.shiftl (u8 (Z.shiftr n 8)) 8) (u8 n) = n.
Proof.
  intros Hn. unfold u8. rewrite Z.shiftr_div_pow2 by lia.
  change (2 ^ 8) with 256. rewrite (Z.mod_small (n / 256)) by (pose proof (Z.div_mod n 256); pose proof (Z.mod_pos_bound n 256); lia).
  rewrite Z.lor_comm, <- Z.lxor_lor, <- Z.add_nocarry_lxor.
  - rewrite Z.shiftl_mul_pow2 by lia. pose proof (Z.div_mod n 256). lia.
  - apply Z.bits_inj'. intros i Hi. rewrite Z.land_spec, Z.bits_0. change 256 with (2 ^ 8).
    destruct (decide (i < 8)); [rewrite Z.shiftl_spec_low by lia; apply andb_false_r|].
    by rewrite Z.mod_pow2_bits_high by lia.
  - apply Z.bits_inj'. intros i Hi. rewrite Z.land_spec, Z.bits_0. change 256 with (2 ^ 8).
    destruct (decide (i < 8)); [rewrite Z.shiftl_spec_low by lia; apply andb_false_r|].
    by rewrite Z.mod_pow2_bits_high by lia.
Qed.

Lemma crc_frame_length f d :
  crc_frame f d -> exists rl, Z.of_nat (length f) = rl + Z.of_nat (length d) + 6 /\ 1 <= rl < 256 /\
    Z.of_nat (length f) < 8192.
Proof.
  intros (rl & filling & -> & Hl & Hr & Hs & _). exists rl. unfold crc_body.
  rewrite !length_app. cbn [length le_bytes]. lia.
Qed.

Lemma crc_body_bytes rl filling d :
  0 <= rl < 256 -> is_bytes filling -> is_bytes d -> is_bytes (crc_body rl filling d).
Proof.
  intros. unfold crc_body. repeat (apply Forall_cons; split; [auto using u8_range|]).
  by apply Forall_app.
Qed.

Section Frames.
Context {St : Type} (s : St).

Lemma crc_parse_frame f d rest :
  crc_frame f d -> verify_simple_parse crc_table s (f ++ rest) = Some (Took (Z.of_nat (length f)) d s).
Proof.
  intros Hf. destruct (crc_frame_length f d Hf) as (rl & Hlen & Hrl & Hmax).
  destruct Hf as (rl' & filling & Hf & Hfl & _ & _ & Hfb & Hdb).
  assert (rl' = rl) as ->.
  { rewrite Hf in Hlen. unfold crc_body in Hlen. rewrite !length_app in Hlen. cbn [length le_bytes] in Hlen. lia. }
  assert (is_bytes (crc_body rl filling d)) as Hbody by (apply crc_body_bytes; [lia|done|done]).
  assert (Z.of_nat (length (crc_body rl filling d)) + 4 = Z.of_nat (length f)) as Hbl.
  { rewrite Hf, length_app. cbn [length le_bytes]. lia. }
  assert (crc32 crc_table (f ++ rest) (Z.of_nat (length f)) = Some ONES) as Hcrc.
  { rewrite <- Hbl, Hf, <- app_assoc. apply crc32_of_filled; [done|lia]. }
  unfold verify_simple_parse. set (tail := le_bytes _ ) in Hf.
  assert (f ++ rest = u8 (Z.shiftr (Z.of_nat (length f)) 8) :: u8 (Z.of_nat (length f)) :: rl ::
          filling ++ d ++ tail ++ rest) as Hbuf.
  { rewrite Hf at 1. unfold crc_body. rewrite <- Hlen. list_assoc. }
  assert ((f ++ rest) @! 0 = Some (u8 (Z.shiftr (Z.of_nat (length f)) 8)) /\
          (f ++ rest) @! 1 = Some (u8 (Z.of_nat (length f))) /\ (f ++ rest) @! 2 = Some rl) as (H0 & H1 & H2)
    by (rewrite Hbuf; done).
  rewrite H0. cbn [mbind option_bind]. rewrite H1. cbn [mbind option_bind]. rewrite two_bytes by lia.
  rewrite (proj2 (Z.leb_gt 8192 _)), (proj2 (Z.ltb_ge _ 7)) by lia. cbn [orb].
  rewrite (proj2 (Z.ltb_ge (Z.of_nat (length (f ++ rest))) _)) by (rewrite length_app; lia).
  rewrite Hcrc. cbn [mbind option_bind]. change (s32 ONES =? -1) with true. cbn [negb].
  rewrite H2. cbn [mbind option_bind].
  assert (mread (f ++ rest) (2 + rl) (Z.of_nat (length f) - rl - 6) = Some d) as ->; [|done].
  rewrite Hbuf. rewrite <- (mread_app ([u8 (Z.shiftr (Z.of_nat (length f)) 8); u8 (Z.of_nat (length f)); rl] ++ filling)
    d (tail ++ rest) (2 + rl) (Z.of_nat (length f) - rl - 6)); [f_equal; list_assoc| |lia|lia].
  rewrite length_app. cbn [length]. lia.
Qed.

Lemma crc_parse_partial f d p q :
  crc_frame f d -> f = p ++ q -> q <> [] -> 2 < Z.of_nat (length p) ->
  verify_simple_parse crc_table s p = Some Wait.
Proof.
  intros Hf Hpq Hq Hp. destruct (crc_frame_length f d Hf) as (rl & Hlen & Hrl & Hmax).
  destruct Hf as (rl' & filling & Hf & Hfl & _).
  assert (rl' = rl) as ->.
  { rewrite Hf in Hlen. unfold crc_body in Hlen. rewrite !length_app in Hlen. cbn [length le_bytes] in Hlen. lia. }
  destruct p as [|b0 [|b1 p]]; [simpl in Hp; lia..|].
  assert (b0 = u8 (Z.shiftr (Z.of_nat (length f)) 8) /\ b1 = u8 (Z.of_nat (length f))) as [-> ->].
  { rewrite Hlen. rewrite Hpq in Hf. unfold crc_body in Hf. cbn [app] in Hf. by simplify_eq. }
  assert (0 < length q)%nat by (destruct q; [done|simpl; lia]).
  unfold verify_simple_parse.
  assert (forall a b (l : list Z), (a :: b :: l) @! 0 = Some a /\ (a :: b :: l) @! 1 = Some b) as Hrd by done.
  edestruct Hrd as [H0 H1]. rewrite H0. cbn [mbind option_bind]. rewrite H1. cbn [mbind option_bind].
  rewrite two_bytes by lia.
  rewrite (proj2 (Z.leb_gt 8192 _)), (proj2 (Z.ltb_ge _ 7)) by lia. cbn [orb].
  rewrite (proj2 (Z.ltb_lt _ _)); [done|].
  pose proof (f_equal length Hpq) as Hlq. rewrite length_app in Hlq. cbn [length] in *. lia.
Qed.

End Frames.

(** A masked number is at most the mask. *)
Lemma land_mask x m : 0 <= m -> 0 <= Z.land x m <= m.
Proof.
  intros Hm. split; [apply Z.land_nonneg; by right|].
  assert (Z.land x m + Z.ldiff m x = m) as Hs.
  { rewrite Z.add_nocarry_lxor; apply Z.bits_inj'; intros i Hi;
      rewrite ?Z.lxor_spec, ?Z.land_spec, ?Z.ldiff_spec, ?Z.bits_0;
      destruct (Z.testbit x i), (Z.testbit m i); reflexivity. }
  assert (0 <= Z.ldiff m x) by (apply Z.ldiff_nonneg; by left). lia.
Qed.

Lemma xorshift_low r m : 0 <= m -> 0 <= Z.land (fst (xorshift128plus r)) m <= m.
Proof. apply land_mask. Qed.

(** What packing writes, on a room that is large enough. *)
Lemma crc_pack r data room :
  is_bytes data -> is_bytes room -> (0 < length data <= PACK_UNIT)%nat ->
  Z.of_nat (length data) + 22 <= Z.of_nat (length room) ->
  exists f r', verify_simple_pack_data crc_table r data room
    = Some (f ++ drop (length f) room, Z.of_nat (length f), r') /\
    crc_frame f data /\ Z.of_nat (length f) <= Z.of_nat (length data) + 22.
Proof.
  intros Hd Hr Hl Hroom. unfold verify_simple_pack_data.
  pose proof (xorshift_low r 15 ltac:(lia)) as Hx. destruct (xorshift128plus r) as [x r']. cbn [fst] in Hx.
  rewrite (u8_id (Z.land x 15 + 1)) by lia. set (rl := Z.land x 15 + 1).
  assert (1 <= rl <= 16) as Hrl by (unfold rl; lia). clearbody rl.
  unfold PACK_UNIT in *. set (size := rl + Z.of_nat (length data) + 6).
  destruct room as [|a0 [|a1 [|a2 room]]]; [simpl in Hroom; lia..|]. cbn [length] in Hroom.
  destruct (split_block room (Z.to_nat (rl - 1))) as (filling & room1 & -> & Hfl); [lia|].
  rewrite length_app in Hroom.
  destruct (split_block room1 (length data)) as (dd & room2 & -> & Hdd); [lia|]. rewrite length_app in Hroom.
  destruct (split_block room2 4) as (tail & rest & -> & Ht); [lia|].
  set (body := crc_body rl filling data).
  assert (is_bytes filling) as Hfb.
  { do 3 (apply Forall_cons in Hr as [_ Hr]). by apply Forall_app in Hr as [Hr _]. }
  assert (is_bytes body) as Hbb by (apply crc_body_bytes; [lia|done|done]).
  assert (size = Z.of_nat (length body) + 4) as Hsize.
  { unfold size, body, crc_body. rewrite !length_app. cbn [length]. lia. }
  exists (body ++ le_bytes (crc_ref_loop ONES body)), r'. split_and!.
  - do 3 (rewrite wr_Some by (rewrite ?length_insert; cbn [length]; lia); cbn [mbind option_bind]).
    change (Z.to_nat 0) with 0%nat. change (Z.to_nat 1) with 1%nat. change (Z.to_nat 2) with 2%nat.
    cbn [insert list_insert].
    replace (u8 (Z.shiftr size 8) :: u8 size :: rl :: filling ++ dd ++ tail ++ rest)
      with (([u8 (Z.shiftr size 8); u8 size; rl] ++ filling) ++ dd ++ (tail ++ rest)) by list_assoc.
    rewrite mwrite_app by (rewrite ?length_app; cbn [length]; lia). cbn [mbind option_bind].
    replace ((([u8 (Z.shiftr size 8); u8 size; rl] ++ filling) ++ data ++ tail ++ rest))
      with (body ++ tail ++ rest) by (unfold body, crc_body, size; list_assoc).
    rewrite Hsize, fillcrc32_spec by (done || lia). cbn [mbind option_bind].
    do 3 f_equal; [|rewrite length_app; simpl; lia].
    rewrite <- app_assoc. do 2 f_equal.
    replace (a0 :: a1 :: a2 :: filling ++ dd ++ tail ++ rest)
      with (([a0; a1; a2] ++ filling ++ dd ++ tail) ++ rest) by list_assoc.
    symmetry. replace (length (body ++ le_bytes (crc_ref_loop ONES body)))
      with (length ([a0; a1; a2] ++ filling ++ dd ++ tail)); [apply drop_app_length|].
    unfold body, crc_body. rewrite !length_app. cbn [length le_bytes]. lia.
  - exists rl, filling. split_and!; [done|lia|lia|lia|done|done].
  - rewrite length_app. cbn [length le_bytes]. lia.
Qed.

(** ** The plugin *)

#[export] Program Instance verify_simple_laws :
    @FramingLaws verify_simple_local_data (verify_simple_framing crc_table) :=
  {| frame_of _ f d _ := crc_frame f d |}.
Next Obligation. simpl. lia. Qed.
Next Obligation.
  intros ? f d ? Hf. destruct (crc_frame_length f d Hf) as (rl & Hl & Hr & Hmax). simpl. lia.
Qed.
Next Obligation. intros [] f d [] rest Hf. by apply crc_parse_frame. Qed.
Next Obligation. intros s f d ? p q Hf Hpq Hq Hp. exact (crc_parse_partial s f d p q Hf Hpq Hq Hp). Qed.

#[export] Program Instance verify_simple_packing_laws :
    @PackingLaws verify_simple_local_data rng (verify_simple_framing crc_table) _
                 (verify_simple_packing crc_table) :=
  {| agrees _ _ := True; pack_slack := 22 |}.
Next Obligation.
  intros r s data room _ Hd Hr Hl Hroom. unfold PACK_UNIT in *.
  destruct (crc_pack r data room) as (f & r' & Hp & Hf & Hlen); [done|done|done|lia|].
  exists f, r', s. split_and!; [exact Hp|exact Hf|done|lia|lia].
Qed.

(** What verify_simple sends, in any number of calls and with any random
    numbers, the other side receives in any segmentation of the stream: all of
    it, in order, and nothing is left in its buffer. *)
Theorem verify_simple_transport malloc scap rcap r msgs segs :
  MallocLaws malloc -> Forall is_bytes msgs ->
  Forall (fun seg => Z.of_nat (length seg) <= 8192) segs ->
  exists wire r',
    @send_all _ (verify_simple_packing crc_table) malloc VERIFY_SLACK scap r msgs = Some (wire, r') /\
    (concat segs = wire ->
     @feed _ (verify_simple_framing crc_table) rcap VerifyLocal [] segs = Some (concat msgs, [], VerifyLocal)).
Proof.
  intros Hm Hmsgs Hsegs.
  destruct (transport (F := verify_simple_framing crc_table) (P := verify_simple_packing crc_table)
    malloc VERIFY_SLACK scap rcap r VerifyLocal msgs segs) as (wire & r' & s' & H1 & _ & H2);
    [done|done|unfold VERIFY_SLACK; simpl; lia|done|].
  exists wire, r'. split; [exact H1|]. destruct s'. exact H2.
Qed.

Lemma malloc_example : MallocLaws (fun n => replicate (Z.to_nat n) 170).
Proof. split; intros n; [apply length_replicate|apply Forall_replicate; lia]. Qed.

(** Two messages, received byte by byte. *)
Definition wire_example : list Z :=
  match @send_all _ (verify_simple_packing crc_table) (fun n => replicate (Z.to_nat n) 170) VERIFY_SLACK 64
          (init_shift128plus 5) [bytes_of "hello "; bytes_of "world"] with
  | Some (wire, _) => wire
  | None => []
  end.

Lemma verify_simple_transport_witness :
  MallocLaws (fun n => replicate (Z.to_nat n) 170) /\
  @feed _ (verify_simple_framing crc_table) 64 VerifyLocal [] (map (fun b => [b]) wire_example)
  = Some (bytes_of "hello world", [], VerifyLocal).
Proof.
  split; [exact malloc_example|].
  destruct (verify_simple_transport (fun n => replicate (Z.to_nat n) 170) 64 64 (init_shift128plus 5)
    [bytes_of "hello "; bytes_of "world"] (map (fun b => [b]) wire_example)) as (wire & r' & H1 & H2).
  - exact malloc_example.
  - vm_compute. repeat constructor; congruence.
  - apply Forall_map. apply Forall_forall. intros b _. simpl. lia.
  - apply H2. unfold wire_example. rewrite H1.
    clear. induction wire as [|b wire IH]; simpl; [reflexivity|by rewrite IH].
Defined.

(** The frame of two letters with a filling of one. *)
Definition wire_frame : list Z :=
  crc_body 1 [] (bytes_of "hi") ++ le_bytes (crc_ref_loop ONES (crc_body 1 [] (bytes_of "hi"))).

(** a frame in which at most four neighbouring bytes behind the size were
    changed is refused: the call fails and the buffer is emptied. *)
Theorem verify_simple_refuses_burst f d p w w' q cap :
  crc_frame f d -> f = p ++ w ++ q -> (2 <= length p)%nat -> is_bytes w' ->
  length w' = length w -> (length w <= 4)%nat -> w <> w' ->
  @post_decrypt _ (verify_simple_framing crc_table) VerifyLocal [] (p ++ w' ++ q) cap
  = Some (mkResult (-1) (p ++ w' ++ q) cap, [], VerifyLocal).
Proof.
  intros Hf Hpq Hp Hw' Hl H4 Hne.
  destruct (crc_frame_length f d Hf) as (rl & Hlen & Hrl & Hmax).
  pose proof (f_equal length Hpq) as Hlf. rewrite !length_app in Hlf.
  assert (is_bytes f /\ crc32 crc_table f (Z.of_nat (length f)) = Some ONES /\
    f @! 0 = Some (u8 (Z.shiftr (Z.of_nat (length f)) 8)) /\ f @! 1 = Some (u8 (Z.of_nat (length f))))
    as (Hfb & Hcrc & H0 & H1).
  { destruct Hf as (rl' & filling & Hf & Hfl & Hr & Hs & Hfb & Hdb).
    assert (is_bytes (crc_body rl' filling d)) as Hbody by (apply crc_body_bytes; [lia|done|done]).
    assert (Z.of_nat (length (crc_body rl' filling d)) + 4 = Z.of_nat (length f)) as Hbl
      by (rewrite Hf, length_app; cbn [length le_bytes]; lia).
    assert (Z.of_nat (length f) = rl' + Z.of_nat (length d) + 6) as Hfs.
    { rewrite <- Hbl. unfold crc_body. rewrite !length_app. cbn [length]. lia. }
    split_and!.
    - rewrite Hf. apply Forall_app; split; [done|apply le_bytes_range].
    - rewrite <- Hbl, Hf. pose proof (crc32_of_filled (crc_body rl' filling d) [] Hbody) as Hc.
      rewrite app_nil_r in Hc. apply Hc. lia.
    - rewrite Hfs, Hf. done.
    - rewrite Hfs, Hf. done. }
  set (g := p ++ w' ++ q). assert (length g = length f) as Hg by (unfold g; rewrite !length_app; lia).
  assert (forall i, 0 <= i < 2 -> g @! i = f @! i) as Hhead
    by (intros i Hi; unfold g; rewrite Hpq, !rd_app_l by lia; done).
  assert (@parse _ (verify_simple_framing crc_table) VerifyLocal g = Some Bad) as Hbad.
  2: { rewrite post_decrypt_first; [by rewrite Hbad|unfold RECV_SIZE; simpl; lia|congruence]. }
  cbn [parse verify_simple_framing].
  unfold verify_simple_parse. rewrite (Hhead 0), (Hhead 1), H0 by lia. cbn [mbind option_bind]. rewrite H1.
  cbn [mbind option_bind]. rewrite two_bytes by lia.
  rewrite (proj2 (Z.leb_gt 8192 _)), (proj2 (Z.ltb_ge _ 7)) by lia. cbn [orb].
  rewrite (proj2 (Z.ltb_ge _ _)) by lia.
  rewrite Hpq in Hfb. apply Forall_app in Hfb as [Hpb Hfb]. apply Forall_app in Hfb as [Hwb Hqb].
  destruct (crc_total g (Z.of_nat (length f))) as (c & Hc & Hcr);
    [unfold g; repeat (apply Forall_app; split); done|lia|lia|].
  rewrite Hc. cbn [mbind option_bind].
  destruct (decide (c = ONES)) as [->|Hco].
  - exfalso. apply (crc_burst p w w' q); [by repeat (apply Forall_app; split)|done|done|done|done| |].
    + rewrite <- Hpq. lia.
    + rewrite <- Hpq. fold g. rewrite Hg, Hc. exact Hcrc.
  - destruct (s32 c =? -1) eqn:E; [|done]. zify_bool. exfalso. apply Hco. unfold s32, sgn, ONES in *.
    rewrite Z.mod_small in E by lia. destruct (c <? 2 ^ (32 - 1)) eqn:E2; zify_bool; lia.
Qed.

(** A frame with a valid CRC whose filling is longer than the frame makes the
    receiver copy a negative number of bytes: the CRC needs no key, so the peer
    can crash the program. *)
Theorem verify_simple_forged_filling x b2 cap :
  is_bytes x -> 0 <= b2 < 256 -> Z.of_nat (length x) + 7 < b2 + 6 ->
  let size := Z.of_nat (length x) + 7 in
  let body := [u8 (Z.shiftr size 8); u8 size; b2] ++ x in
  @post_decrypt _ (verify_simple_framing crc_table) VerifyLocal []
    (body ++ le_bytes (crc_ref_loop ONES body)) cap = None.
Proof.
  intros Hx Hb2 Hlt size body.
  assert (7 <= size < 262) as Hsz by (unfold size; lia).
  assert (is_bytes body) as Hbody by (unfold body; repeat (apply Forall_cons; split; [auto using u8_range|]); done).
  assert (Z.of_nat (length body) + 4 = size) as Hbl by (unfold body, size; rewrite length_app; cbn [length]; lia).
  set (f := body ++ le_bytes (crc_ref_loop ONES body)).
  assert (Z.of_nat (length f) = size) as Hf by (unfold f; rewrite length_app; cbn [length le_bytes]; lia).
  assert (@parse _ (verify_simple_framing crc_table) VerifyLocal f = None) as Hnone.
  2: { rewrite post_decrypt_first; [by fold f; rewrite Hnone|fold f; unfold RECV_SIZE; cbn [min_size verify_simple_framing]; lia|fold f; congruence]. }
  cbn [parse verify_simple_framing].
  assert (f @! 0 = Some (u8 (Z.shiftr size 8)) /\ f @! 1 = Some (u8 size) /\ f @! 2 = Some b2) as (H0 & H1 & H2) by done.
  unfold verify_simple_parse. rewrite H0. cbn [mbind option_bind]. rewrite H1. cbn [mbind option_bind].
  rewrite two_bytes by lia.
  rewrite (proj2 (Z.leb_gt 8192 _)), (proj2 (Z.ltb_ge _ 7)) by lia. cbn [orb].
  rewrite (proj2 (Z.ltb_ge _ _)) by lia.
  pose proof (crc32_of_filled body [] Hbody) as Hc. rewrite app_nil_r, Hbl in Hc. fold f in Hc.
  rewrite Hc by lia. cbn [mbind option_bind]. change (s32 ONES =? -1) with true. cbn [negb].
  rewrite H2. cbn [mbind option_bind]. by rewrite mread_negative by (unfold size; lia).
Qed.

Lemma verify_simple_forged_filling_witness :
  @post_decrypt _ (verify_simple_framing crc_table) VerifyLocal []
    ([0; 7; 200] ++ le_bytes (crc_ref_loop ONES [0; 7; 200])) 64 = None.
Proof. apply (verify_simple_forged_filling [] 200 64); [constructor|lia|reflexivity]. Defined.

Lemma verify_simple_refuses_burst_witness :
  crc_frame wire_frame (bytes_of "hi") /\
  @post_decrypt _ (verify_simple_framing crc_table) VerifyLocal []
    (take 3 wire_frame ++ [105] ++ drop 4 wire_frame) 64
  = Some (mkResult (-1) (take 3 wire_frame ++ [105] ++ drop 4 wire_frame) 64, [], VerifyLocal).
Proof.
  assert (crc_frame wire_frame (bytes_of "hi")) as Hf.
  { exists 1, []. split_and!; [reflexivity|reflexivity|lia|reflexivity|constructor|].
    vm_compute. repeat constructor; congruence. }
  split; [exact Hf|].
  apply (verify_simple_refuses_burst wire_frame (bytes_of "hi") (take 3 wire_frame) [104] [105] (drop 4 wire_frame) 64 Hf).
  - reflexivity.
  - cbn; lia.
  - repeat constructor; lia.
  - reflexivity.
  - simpl; lia.
  - congruence.
Defined.

End Verify.
