(* ===== verification/Auth.v ===== *)
(** * Auth: the authenticating plugins of shadowsocksr-libev

    Models src/server/auth.c of shadowsocksr-libev: the plugins auth_simple,
    auth_sha1, auth_sha1_v2, auth_sha1_v4 and auth_aes128.  The first packet of a
    connection starts with a header that names the client; then come frames that
    differ from plugin to plugin in their checksum and in how the length of the
    filling is written.  The MACs and ciphers belong to a cryptographic library
    and are parameters. *)

From S2P Require Import Prelude Libc Crc Framing Verify.

Import Libc Crc Framing Obfsutil Verify.

Module Auth.

Notation OBFS_HMAC_SHA1_LEN := 10.

(** ** Shared pieces *)

Record auth_simple_global_data := mkGlobal { local_client_id : list Z; connection_id : Z }.

(** What a call gets from outside: the time, and the random bytes of a new client
    and a new connection number. *)
Record surroundings := mkSurr { now : Z; rand_id : list Z; rand_connection : Z }.

(** [memintcopy_lt]: the value is converted to 32 bits. *)
Definition memintcopy_lt (mem : list Z) (i val : Z) : option (list Z) := mwrite mem i (le_bytes (u32 val)).

(** [++global->connection_id] and the new identity when it ran out. *)
Definition next_connection (e : surroundings) (g : auth_simple_global_data) : auth_simple_global_data :=
  let id := u32 (connection_id g + 1) in
  if 4278190080 <? id then mkGlobal (rand_id e) (Z.land (rand_connection e) 16777215)
  else mkGlobal (local_client_id g) id.

(** The sizes of a filling in the plugins that hide the length of small
    packets. *)
Definition long_filling (r : rng) (datalength : Z) : Z * rng :=
  if 1300 <? datalength then (1, r)
  else if 400 <? datalength then let '(x, r) := xorshift128plus r in (Z.land x 127 + 1, r)
  else let '(x, r) := xorshift128plus r in (Z.land x 1023 + 1, r).

(** The length of a filling at [i]: one byte, or 255 and two bytes. *)
Definition put_filling (outdata : list Z) (i rand_len : Z) : option (list Z) :=
  if rand_len <? 128 then wr outdata i rand_len
  else
    outdata ← wr outdata i 255;
    outdata ← wr outdata (i + 1) (u8 (Z.shiftr rand_len 8));
    wr outdata (i + 2) (u8 rand_len).

(** ... and its inverse on the receiving side. *)
Definition get_filling (recv_buffer : list Z) (i : Z) : option Z :=
  pos ← recv_buffer @! i;
  if pos <? 255 then Some pos
  else hi ← recv_buffer @! (i + 1); lo ← recv_buffer @! (i + 2); Some (Z.lor (Z.shiftl hi 8) lo).

Section Plugins.
Context (crc32_table : list Z).

(** ** The frames of each plugin *)

(** auth_simple has the frames of verify_simple. *)
Definition auth_simple_pack_data := verify_simple_pack_data crc32_table.

Definition auth_sha1_pack_data (r : rng) (data outdata : list Z) : option (list Z * Z * rng) :=
  let datalength := Z.of_nat (length data) in
  let '(x, r) := xorshift128plus r in
  let rand_len := u8 (Z.land x 15 + 1) in
  let out_size := rand_len + datalength + 6 in
  outdata ← wr outdata 0 (u8 (Z.shiftr out_size 8));
  outdata ← wr outdata 1 (u8 out_size);
  outdata ← wr outdata 2 rand_len;
  outdata ← mwrite outdata (rand_len + 2) data;
  outdata ← filladler32 outdata out_size;
  Some (outdata, out_size, r).

Definition auth_sha1_v2_pack_data (r : rng) (data outdata : list Z) : option (list Z * Z * rng) :=
  let datalength := Z.of_nat (length data) in
  let '(rand_len, r) := long_filling r datalength in
  let out_size := rand_len + datalength + 6 in
  outdata ← wr outdata 0 (u8 (Z.shiftr out_size 8));
  outdata ← wr outdata 1 (u8 out_size);
  outdata ← put_filling outdata 2 rand_len;
  outdata ← mwrite outdata (rand_len + 2) data;
  outdata ← filladler32 outdata out_size;
  Some (outdata, out_size, r).

Definition auth_sha1_v4_pack_data (r : rng) (data outdata : list Z) : option (list Z * Z * rng) :=
  let datalength := Z.of_nat (length data) in
  let '(rand_len, r) := long_filling r datalength in
  let out_size := rand_len + datalength + 8 in
  outdata ← wr outdata 0 (u8 (Z.shiftr out_size 8));
  outdata ← wr outdata 1 (u8 out_size);
  crc_val ← crc32 crc32_table outdata 2;
  outdata ← wr outdata 2 (u8 crc_val);
  outdata ← wr outdata 3 (u8 (Z.shiftr crc_val 8));
  outdata ← put_filling outdata 4 rand_len;
  outdata ← mwrite outdata (rand_len + 4) data;
  outdata ← filladler32 outdata out_size;
  Some (outdata, out_size, r).

(** The bodies of the receiving loops. *)
Definition frame_length (recv_buffer : list Z) : option Z :=
  b0 ← recv_buffer @! 0; b1 ← recv_buffer @! 1; Some (Z.lor (Z.shiftl b0 8) b1).

Definition auth_sha1_parse {St} (s : St) (recv_buffer : list Z) : option (verdict St) :=
  length ← frame_length recv_buffer;
  if (8192 <=? length) || (length <? 7) then Some Bad else
  if Z.of_nat (List.length recv_buffer) <? length then Some Wait else
  ok ← checkadler32 recv_buffer length;
  if negb ok then Some Bad else
  b2 ← recv_buffer @! 2;
  let pos := b2 + 2 in
  data ← mread recv_buffer pos (length - pos - 4);
  Some (Took length data s).

Definition auth_sha1_v2_parse {St} (s : St) (recv_buffer : list Z) : option (verdict St) :=
  length ← frame_length recv_buffer;
  if (8192 <=? length) || (length <? 7) then Some Bad else
  if Z.of_nat (List.length recv_buffer) <? length then Some Wait else
  ok ← checkadler32 recv_buffer length;
  if negb ok then Some Bad else
  filling ← get_filling recv_buffer 2;
  let pos := filling + 2 in
  data ← mread recv_buffer pos (length - pos - 4);
  Some (Took length data s).

Definition auth_sha1_v4_parse {St} (s : St) (recv_buffer : list Z) : option (verdict St) :=
  crc_val ← crc32 crc32_table recv_buffer 2;
  b3 ← recv_buffer @! 3; b2 ← recv_buffer @! 2;
  if negb (Z.lor (Z.shiftl b3 8) b2 =? Z.land crc_val 65535) then Some Bad else
  length ← frame_length recv_buffer;
  if (8192 <=? length) || (length <? 7) then Some Bad else
  if Z.of_nat (List.length recv_buffer) <? length then Some Wait else
  ok ← checkadler32 recv_buffer length;
  if negb ok then Some Bad else
  filling ← get_filling recv_buffer 4;
  let pos := filling + 4 in
  data ← mread recv_buffer pos (length - pos - 4);
  Some (Took length data s).

End Plugins.

(** ** The packets that open a connection *)

(** The server's settings: the initialisation vector, the key and the parameter of
    the protocol. *)
Record server_info := mkServer { param : option (list Z); iv : list Z; key : list Z }.

Section Headers.
Context (crc32_table : list Z) (e : surroundings).
(** HMAC-SHA1 of the library, and the globals of the encryption. *)
Context (sha1_hmac : list Z -> list Z -> list Z) (enc_iv_len : Z) (enc_key : list Z).

Definition ss_sha1_hmac (msg iv : list Z) : option (list Z) :=
  iv ← mread iv 0 enc_iv_len; Some (sha1_hmac (iv ++ enc_key) msg).

(** The MAC behind the first [out_size - 10] bytes. *)
Definition seal (server : server_info) (outdata : list Z) (out_size : Z) : option (list Z) :=
  msg ← mread outdata 0 (out_size - OBFS_HMAC_SHA1_LEN);
  hash ← ss_sha1_hmac msg (iv server);
  mwrite outdata (out_size - OBFS_HMAC_SHA1_LEN) (take (Z.to_nat OBFS_HMAC_SHA1_LEN) hash).

(** The time, half the client's identity and the connection's number. *)
Definition stamp (g : auth_simple_global_data) (outdata : list Z) (i : Z) : option (list Z) :=
  outdata ← memintcopy_lt outdata i (now e);
  id ← mread (local_client_id g) 0 4;
  outdata ← mwrite outdata (i + 4) id;
  memintcopy_lt outdata (i + 8) (connection_id g).

Definition auth_simple_pack_auth_data (g : auth_simple_global_data) (r : rng) (data outdata : list Z)
    : option (list Z * Z * auth_simple_global_data * rng) :=
  let datalength := Z.of_nat (length data) in
  let '(x, r) := xorshift128plus r in
  let rand_len := u8 (Z.land x 15 + 1) in
  let out_size := rand_len + datalength + 6 + 12 in
  outdata ← wr outdata 0 (u8 (Z.shiftr out_size 8));
  outdata ← wr outdata 1 (u8 out_size);
  outdata ← wr outdata 2 rand_len;
  let g := next_connection e g in
  outdata ← stamp g outdata (rand_len + 2);
  outdata ← mwrite outdata (rand_len + 2 + 12) data;
  outdata ← fillcrc32 crc32_table outdata out_size;
  Some (outdata, out_size, g, r).

Definition auth_sha1_pack_auth_data (server : server_info) (g : auth_simple_global_data) (r : rng)
    (data outdata : list Z) : option (list Z * Z * auth_simple_global_data * rng) :=
  let datalength := Z.of_nat (length data) in
  let '(x, r) := xorshift128plus r in
  let rand_len := u8 (Z.land x 127 + 1) in
  let data_offset := rand_len + 4 + 2 in
  let out_size := data_offset + datalength + 12 + OBFS_HMAC_SHA1_LEN in
  outdata ← fillcrc32to crc32_table (key server) (Z.of_nat (length (key server))) outdata;
  outdata ← wr outdata 4 (u8 (Z.shiftr out_size 8));
  outdata ← wr outdata 5 (u8 out_size);
  outdata ← wr outdata 6 rand_len;
  let g := next_connection e g in
  outdata ← stamp g outdata data_offset;
  outdata ← mwrite outdata (data_offset + 12) data;
  outdata ← seal server outdata out_size;
  Some (outdata, out_size, g, r).

Definition auth_sha1_v2_pack_auth_data (server : server_info) (g : auth_simple_global_data) (r : rng)
    (data outdata : list Z) : option (list Z * Z * auth_simple_global_data * rng) :=
  let datalength := Z.of_nat (length data) in
  let '(rand_len, r) := long_filling r datalength in
  let data_offset := rand_len + 4 + 2 in
  let out_size := data_offset + datalength + 12 + OBFS_HMAC_SHA1_LEN in
  let crc_salt := bytes_of "auth_sha1_v2" ++ key server in
  outdata ← fillcrc32to crc32_table crc_salt (Z.of_nat (length crc_salt)) outdata;
  outdata ← wr outdata 4 (u8 (Z.shiftr out_size 8));
  outdata ← wr outdata 5 (u8 out_size);
  outdata ← put_filling outdata 6 rand_len;
  let g := next_connection e g in
  id ← mread (local_client_id g) 0 8;
  outdata ← mwrite outdata data_offset id;
  outdata ← memintcopy_lt outdata (data_offset + 8) (connection_id g);
  outdata ← mwrite outdata (data_offset + 12) data;
  outdata ← seal server outdata out_size;
  Some (outdata, out_size, g, r).

Definition auth_sha1_v4_pack_auth_data (server : server_info) (g : auth_simple_global_data) (r : rng)
    (data outdata : list Z) : option (list Z * Z * auth_simple_global_data * rng) :=
  let datalength := Z.of_nat (length data) in
  let '(rand_len, r) := long_filling r datalength in
  let data_offset := rand_len + 4 + 2 in
  let out_size := data_offset + datalength + 12 + OBFS_HMAC_SHA1_LEN in
  outdata ← wr outdata 0 (u8 (Z.shiftr out_size 8));
  outdata ← wr outdata 1 (u8 out_size);
  let crc_salt := [u8 (Z.shiftr out_size 8); u8 out_size] ++ bytes_of "auth_sha1_v4" ++ key server in
  tail ← fillcrc32to crc32_table crc_salt (Z.of_nat (length crc_salt)) (drop 2 outdata);
  let outdata := take 2 outdata ++ tail in
  outdata ← put_filling outdata 6 rand_len;
  let g := next_connection e g in
  outdata ← stamp g outdata data_offset;
  outdata ← mwrite outdata (data_offset + 12) data;
  outdata ← seal server outdata out_size;
  Some (outdata, out_size, g, r).

End Headers.

(** ** The plugins with a checksum

    Their receivers keep nothing but the receive buffer. *)
Inductive plugin := auth_simple | auth_sha1 | auth_sha1_v2 | auth_sha1_v4.
Inductive no_local_data := NoLocal.

Section Checksummed.
Context (crc32_table : list Z).

#[export] Instance plugin_framing (pl : plugin) : Framing no_local_data := {
  min_size := match pl with auth_sha1_v4 => 4 | _ => 2 end;
  parse := match pl with
           | auth_simple => verify_simple_parse crc32_table
           | auth_sha1 => auth_sha1_parse
           | auth_sha1_v2 => auth_sha1_v2_parse
           | auth_sha1_v4 => auth_sha1_v4_parse crc32_table
           end }.

#[export] Instance plugin_packing (pl : plugin) : Packing rng :=
  match pl with
  | auth_simple => auth_simple_pack_data crc32_table
  | auth_sha1 => auth_sha1_pack_data
  | auth_sha1_v2 => auth_sha1_v2_pack_data
  | auth_sha1_v4 => auth_sha1_v4_pack_data crc32_table
  end.

Definition auth_simple_client_post_decrypt := @post_decrypt _ (plugin_framing auth_simple).
Definition auth_sha1_client_post_decrypt := @post_decrypt _ (plugin_framing auth_sha1).
Definition auth_sha1_v2_client_post_decrypt := @post_decrypt _ (plugin_framing auth_sha1_v2).
Definition auth_sha1_v4_client_post_decrypt := @post_decrypt _ (plugin_framing auth_sha1_v4).

(** The four senders: the header for the address at the head of the first data
    (30 bytes when there is none), then frames. *)
Context (e : surroundings) (sha1_hmac : list Z -> list Z -> list Z) (enc_iv_len : Z) (enc_key : list Z).
Context (server : server_info) (signed_char : bool).

Definition get_head (plaindata : list Z) : option Z :=
  get_head_size signed_char (Some plaindata) (Z.of_nat (length plaindata)) 30.

Definition pack_auth_data (pl : plugin) : auth_simple_global_data -> rng -> list Z -> list Z ->
    option (list Z * Z * auth_simple_global_data * rng) :=
  match pl with
  | auth_simple => auth_simple_pack_auth_data crc32_table e
  | auth_sha1 => auth_sha1_pack_auth_data crc32_table e sha1_hmac enc_iv_len enc_key server
  | auth_sha1_v2 => auth_sha1_v2_pack_auth_data crc32_table e sha1_hmac enc_iv_len enc_key server
  | auth_sha1_v4 => auth_sha1_v4_pack_auth_data crc32_table e sha1_hmac enc_iv_len enc_key server
  end.

Definition slack_of (pl : plugin) : Z :=
  match pl with auth_simple => 64 | auth_sha1 => 256 | _ => 4096 end.

Definition plugin_pre_encrypt (pl : plugin) (malloc : Z -> list Z) :=
  @client_pre_encrypt _ _ (plugin_packing pl) (pack_auth_data pl) get_head malloc (slack_of pl).
Definition auth_simple_client_pre_encrypt := plugin_pre_encrypt auth_simple.
Definition auth_sha1_client_pre_encrypt := plugin_pre_encrypt auth_sha1.
Definition auth_sha1_v2_client_pre_encrypt := plugin_pre_encrypt auth_sha1_v2.
Definition auth_sha1_v4_client_pre_encrypt := plugin_pre_encrypt auth_sha1_v4.

End Checksummed.

(** ** Frames with an Adler-32 *)

Definition field (rl : Z) : list Z :=
  if rl <? 128 then [rl] else [255; u8 (Z.shiftr rl 8); u8 rl].

Lemma field_length rl : length (field rl) = (if rl <? 128 then 1%nat else 3%nat).
Proof. unfold field. by destruct (rl <? 128). Qed.

Lemma field_bytes rl : 0 <= rl -> is_bytes (field rl).
Proof.
  intros. unfold field. case_bool; repeat constructor; try lia; apply u8_range.
Qed.

Lemma get_field a rl b :
  0 <= rl < 65536 -> get_filling (a ++ field rl ++ b) (Z.of_nat (length a)) = Some rl.
Proof.
  intros Hrl. unfold get_filling, field. destruct (rl <? 128) eqn:E; zify_bool; cbn [app].
  - rewrite (rd_app_mid a rl b _ eq_refl). cbn [mbind option_bind]. by rewrite (proj2 (Z.ltb_lt rl 255)) by lia.
  - rewrite (rd_app_mid a 255 _ _ eq_refl). cbn [mbind option_bind]. change (255 <? 255) with false. cbv iota.
    rewrite (rd_app_r a _ (Z.of_nat (length a) + 1)), (rd_app_r a _ (Z.of_nat (length a) + 2)) by lia.
    replace (Z.of_nat (length a) + 1 - Z.of_nat (length a)) with 1 by lia.
    replace (Z.of_nat (length a) + 2 - Z.of_nat (length a)) with 2 by lia.
    match goal with |- context [(?x :: ?y :: ?z :: ?l) @! 1] =>
      change ((x :: y :: z :: l) @! 1) with (Some y); change ((x :: y :: z :: l) @! 2) with (Some z) end.
    cbn [mbind option_bind].
    by rewrite two_bytes by lia.
Qed.

Lemma put_field a b c rl :
  length b = length (field rl) -> 0 <= rl ->
  put_filling (a ++ b ++ c) (Z.of_nat (length a)) rl = Some (a ++ field rl ++ c).
Proof.
  intros Hb Hrl. rewrite field_length in Hb. unfold put_filling, field.
  destruct (rl <? 128).
  - destruct b as [|x [|]]; try done. cbn [app]. by rewrite wr_app by done.
  - destruct b as [|x [|y [|z [|]]]]; try done. cbn [app].
    rewrite wr_app by done. cbn [mbind option_bind].
    replace (a ++ 255 :: y :: z :: c) with ((a ++ [255]) ++ y :: z :: c) by list_assoc.
    rewrite wr_app by (rewrite length_app; cbn [length]; lia). cbn [mbind option_bind].
    replace ((a ++ [255]) ++ u8 (Z.shiftr rl 8) :: z :: c)
      with ((a ++ [255; u8 (Z.shiftr rl 8)]) ++ z :: c) by list_assoc.
    rewrite wr_app by (rewrite length_app; cbn [length]; lia). f_equal. list_assoc.
Qed.

(** The body of a frame: what stands before the length of the filling (it depends
    on the size), that length, the filling and the data. *)
Section AdlerFrames.
Context (pre : Z -> list Z) (npre : nat).
Context (pre_length : forall size, length (pre size) = npre).
Context (pre_bytes : forall size, is_bytes (pre size)).
Context (pre_size : forall size, exists r, pre size = u8 (Z.shiftr size 8) :: u8 size :: r).

Definition fsize (rl : Z) (d : list Z) : Z := Z.of_nat npre + rl + Z.of_nat (length d) + 4.
Definition adler_body (rl : Z) (filling d : list Z) : list Z :=
  pre (fsize rl d) ++ field rl ++ filling ++ d.
Definition adler_frame (f d : list Z) : Prop :=
  exists rl filling,
    f = adler_body rl filling d ++ le_bytes (adler32_ref (adler_body rl filling d)) /\
    Z.of_nat (length (field rl) + length filling) = rl /\ fsize rl d < 8192 /\
    is_bytes filling /\ is_bytes d.

Lemma npre_pos : (2 <= npre)%nat.
Proof using pre_length pre_size.
  destruct (pre_size 0) as [r Hr]. rewrite <- (pre_length 0), Hr. simpl. lia.
Qed.

Lemma adler_body_bytes rl filling d :
  0 <= rl -> is_bytes filling -> is_bytes d -> is_bytes (adler_body rl filling d).
Proof using pre_bytes.
  intros. apply Forall_app; split; [apply pre_bytes|]. apply Forall_app; split; [by apply field_bytes|].
  by apply Forall_app.
Qed.

Lemma adler_frame_facts f d rest :
  adler_frame f d -> exists rl,
    Z.of_nat (length f) = fsize rl d /\ 1 <= rl /\ fsize rl d < 8192 /\
    frame_length (f ++ rest) = Some (fsize rl d) /\
    checkadler32 (f ++ rest) (fsize rl d) = Some true /\
    get_filling (f ++ rest) (Z.of_nat npre) = Some rl /\
    mread (f ++ rest) (rl + Z.of_nat npre) (fsize rl d - (rl + Z.of_nat npre) - 4) = Some d.
Proof using pre_length pre_bytes pre_size.
  intros (rl & filling & Hf & Hl & Hs & Hfb & Hdb). pose proof npre_pos as Hn.
  assert (1 <= rl) as H1 by (rewrite field_length in Hl; destruct (rl <? 128); lia).
  assert (is_bytes (adler_body rl filling d)) as Hb.
  { apply adler_body_bytes; [lia|done|done]. }
  assert (Z.of_nat (length (adler_body rl filling d)) + 4 = fsize rl d) as Hbl.
  { unfold adler_body, fsize. rewrite !length_app, pre_length. lia. }
  exists rl. split_and!.
  - rewrite Hf, length_app. cbn [length le_bytes]. lia.
  - done.
  - done.
  - rewrite Hf. unfold adler_body. destruct (pre_size (fsize rl d)) as [r ->].
    cbn [app]. unfold frame_length.
    match goal with |- context [(?a :: ?b :: ?l) @! 0] => change ((a :: b :: l) @! 0) with (Some a) end.
    cbn [mbind option_bind].
    match goal with |- context [(?a :: ?b :: ?l) @! 1] => change ((a :: b :: l) @! 1) with (Some b) end.
    cbn [mbind option_bind]. rewrite two_bytes; [done|]. unfold fsize in *. lia.
  - rewrite Hf, <- app_assoc, <- Hbl. apply checkadler32_of_filled; [done|lia].
  - rewrite Hf. unfold adler_body. rewrite <- !app_assoc, <- (pre_length (fsize rl d)).
    apply get_field. unfold fsize in *. lia.
  - rewrite Hf. unfold adler_body.
    replace (((pre (fsize rl d) ++ field rl ++ filling ++ d) ++ _) ++ rest)
      with ((pre (fsize rl d) ++ field rl ++ filling) ++ d ++
            (le_bytes (adler32_ref (pre (fsize rl d) ++ field rl ++ filling ++ d)) ++ rest)) by list_assoc.
    apply mread_app; [rewrite !length_app, pre_length; lia|unfold fsize; lia|unfold fsize in *; lia].
Qed.

(** The bytes before the filling survive in every piece that is long enough. *)
Lemma adler_frame_prefix f d p q :
  adler_frame f d -> f = p ++ q -> (npre <= length p)%nat -> exists rl r,
    Z.of_nat (length f) = fsize rl d /\ p = pre (fsize rl d) ++ r.
Proof using pre_length pre_bytes pre_size.
  intros Hf Hpq Hp. destruct (adler_frame_facts f d [] Hf) as (rl0 & Hlen & _).
  destruct Hf as (rl & filling & Hf & Hl & Hs & Hfb & Hdb).
  assert (Z.of_nat (length f) = fsize rl d) as Hfl.
  { rewrite Hf. unfold adler_body, fsize. rewrite !length_app, pre_length. cbn [length le_bytes]. lia. }
  exists rl, (drop npre p). split; [done|].
  rewrite Hpq in Hf. unfold adler_body in Hf. rewrite <- !app_assoc in Hf.
  apply (f_equal (take npre)) in Hf. rewrite take_app_le in Hf by lia.
  rewrite <- (pre_length (fsize rl d)) in Hf at 2. rewrite take_app_length in Hf.
  rewrite <- Hf at 1. by rewrite take_drop.
Qed.

(** The end of packing: the data and the checksum. *)
Lemma finish_adler rl filling data dd tail rest :
  length dd = length data -> length tail = 4%nat ->
  Z.of_nat (length (field rl) + length filling) = rl -> fsize rl data < 8192 ->
  is_bytes filling -> is_bytes data ->
  (out ← mwrite (pre (fsize rl data) ++ field rl ++ filling ++ dd ++ tail ++ rest) (rl + Z.of_nat npre) data;
   filladler32 out (fsize rl data))
  = Some ((adler_body rl filling data ++ le_bytes (adler32_ref (adler_body rl filling data))) ++ rest).
Proof using pre_length pre_bytes pre_size.
  intros Hdd Ht Hl Hs Hfb Hdb.
  assert (1 <= rl) as H1 by (rewrite field_length in Hl; destruct (rl <? 128); lia).
  replace (pre (fsize rl data) ++ field rl ++ filling ++ dd ++ tail ++ rest)
    with ((pre (fsize rl data) ++ field rl ++ filling) ++ dd ++ (tail ++ rest)) by list_assoc.
  rewrite mwrite_app by (rewrite ?length_app, ?pre_length; lia). cbn [mbind option_bind].
  replace ((pre (fsize rl data) ++ field rl ++ filling) ++ data ++ tail ++ rest)
    with (adler_body rl filling data ++ tail ++ rest) by (unfold adler_body; list_assoc).
  assert (Z.of_nat (length (adler_body rl filling data)) + 4 = fsize rl data) as Hbl.
  { unfold adler_body, fsize. rewrite !length_app, pre_length. lia. }
  rewrite <- Hbl, filladler32_spec; [by rewrite <- app_assoc| |done|lia].
  apply adler_body_bytes; [lia|done|done].
Qed.

End AdlerFrames.

(** What packing puts in front of the filling, and in it. *)
Lemma adler_room npre rl (data room : list Z) :
  (length (field rl) <= Z.to_nat rl)%nat -> 0 <= rl ->
  Z.of_nat npre + rl + Z.of_nat (length data) + 4 <= Z.of_nat (length room) -> is_bytes room ->
  exists a b filling dd tail rest, room = a ++ b ++ filling ++ dd ++ tail ++ rest /\
    length a = npre /\ length b = length (field rl) /\
    Z.of_nat (length (field rl) + length filling) = rl /\ length dd = length data /\
    length tail = 4%nat /\ is_bytes filling.
Proof.
  intros Hf Hrl Hroom Hb.
  destruct (split_block room npre) as (a & r1 & -> & Ha); [lia|]. rewrite length_app in Hroom.
  destruct (split_block r1 (length (field rl))) as (b & r2 & -> & Hbl); [lia|]. rewrite length_app in Hroom.
  destruct (split_block r2 (Z.to_nat rl - length (field rl))) as (c & r3 & -> & Hc); [lia|]. rewrite length_app in Hroom.
  destruct (split_block r3 (length data)) as (dd & r4 & -> & Hd); [lia|]. rewrite length_app in Hroom.
  destruct (split_block r4 4) as (tail & rest & -> & Ht); [lia|].
  exists a, b, c, dd, tail, rest. split_and!; try done; [lia|].
  repeat (apply Forall_app in Hb as [? Hb]). done.
Qed.

Lemma field_fits rl : 1 <= rl -> (length (field rl) <= Z.to_nat rl)%nat.
Proof. intros. rewrite field_length. case_bool; lia. Qed.

Definition pre2 (size : Z) : list Z := [u8 (Z.shiftr size 8); u8 size].
Definition pre4 (size : Z) : list Z :=
  pre2 size ++ [u8 (crc32_ref (pre2 size)); u8 (Z.shiftr (crc32_ref (pre2 size)) 8)].

Lemma pre2_length size : length (pre2 size) = 2%nat.
Proof. done. Qed.
Lemma pre2_bytes size : is_bytes (pre2 size).
Proof. repeat constructor; apply u8_range. Qed.
Lemma pre2_size size : exists r, pre2 size = u8 (Z.shiftr size 8) :: u8 size :: r.
Proof. by exists []. Qed.
Lemma pre4_length size : length (pre4 size) = 4%nat.
Proof. done. Qed.
Lemma pre4_bytes size : is_bytes (pre4 size).
Proof. unfold pre4. apply Forall_app; split; [apply pre2_bytes|]. repeat constructor; apply u8_range. Qed.
Lemma pre4_size size : exists r, pre4 size = u8 (Z.shiftr size 8) :: u8 size :: r.
Proof. unfold pre4, pre2. cbn [app]. eauto. Qed.

(** The CRC of the first two bytes. *)
Lemma crc_pre2 size rest : crc32 crc_table (pre2 size ++ rest) 2 = Some (crc32_ref (pre2 size)).
Proof.
  unfold crc32. change (u32 2) with 2. rewrite mread_prefix; [|reflexivity|lia]. cbn [mbind option_bind].
  rewrite crc_loop_ref by apply pre2_bytes. cbn [mbind option_bind]. unfold crc32_ref. reflexivity.
Qed.

Lemma crc_half c : Z.lor (Z.shiftl (u8 (Z.shiftr c 8)) 8) (u8 c) = Z.land c 65535.
Proof.
  change 65535 with (Z.ones 16). rewrite Z.land_ones by lia.
  assert (0 <= c mod 2 ^ 16 < 65536) as Hc by (apply Z.mod_pos_bound; lia).
  rewrite <- (two_bytes (c mod 2 ^ 16) Hc) at 1. unfold u8. rewrite !Z.shiftr_div_pow2 by lia.
  change (2 ^ 16) with (256 * 256). change (2 ^ 8) with 256.
  rewrite Z.rem_mul_r by lia.
  pose proof (Z.mod_pos_bound c 256 ltac:(lia)) as Hm. pose proof (Z.mod_pos_bound (c / 256) 256 ltac:(lia)) as Hd.
  replace (c mod 256 + 256 * ((c / 256) mod 256)) with (c mod 256 + ((c / 256) mod 256) * 256) by lia.
  rewrite Z.div_add, (Z.div_small (c mod 256)), Z.add_0_l, Z.mod_mod by lia.
  by rewrite Z.mod_add, Z.mod_mod by lia.
Qed.

Lemma pre4_head size rest :
  crc32 crc_table (pre4 size ++ rest) 2 = Some (crc32_ref (pre2 size)) /\
  (pre4 size ++ rest) @! 3 = Some (u8 (Z.shiftr (crc32_ref (pre2 size)) 8)) /\
  (pre4 size ++ rest) @! 2 = Some (u8 (crc32_ref (pre2 size))) /\
  (pre4 size ++ rest) @! 1 = Some (u8 size) /\ (pre4 size ++ rest) @! 0 = Some (u8 (Z.shiftr size 8)).
Proof.
  split; [unfold pre4; rewrite <- app_assoc; apply crc_pre2|].
  unfold pre4. generalize (crc32_ref (pre2 size)). intros c. unfold pre2. done.
Qed.

(** *** Receiving *)

Section Receiving.
Context {St : Type} (s : St).
Notation frame2 := (adler_frame pre2 2).
Notation frame4 := (adler_frame pre4 4).

Lemma sha1_v2_took f d rest :
  frame2 f d -> auth_sha1_v2_parse s (f ++ rest) = Some (Took (Z.of_nat (length f)) d s).
Proof.
  intros Hf. destruct (adler_frame_facts pre2 2 pre2_length pre2_bytes pre2_size f d rest Hf)
    as (rl & Hl & Hrl & Hs & H1 & H2 & H3 & H4).
  unfold auth_sha1_v2_parse. rewrite H1. cbn [mbind option_bind].
  rewrite (proj2 (Z.leb_gt 8192 _)), (proj2 (Z.ltb_ge _ 7)) by (unfold fsize in *; lia). cbn [orb].
  rewrite (proj2 (Z.ltb_ge _ _)) by (rewrite length_app; lia).
  rewrite H2. cbn [mbind option_bind negb]. change 2 with (Z.of_nat 2). rewrite H3. cbn [mbind option_bind].
  rewrite H4. by rewrite Hl.
Qed.

Lemma sha1_v2_wait f d p q :
  frame2 f d -> f = p ++ q -> q <> [] -> 2 < Z.of_nat (length p) -> auth_sha1_v2_parse s p = Some Wait.
Proof.
  intros Hf Hpq Hq Hp. destruct (adler_frame_prefix pre2 2 pre2_length pre2_bytes pre2_size f d p q Hf Hpq)
    as (rl & r & Hl & ->); [lia|].
  destruct (adler_frame_facts pre2 2 pre2_length pre2_bytes pre2_size f d [] Hf) as (rl' & Hl' & Hrl & Hs & _).
  unfold auth_sha1_v2_parse, frame_length.
  change ((pre2 (fsize 2 rl d) ++ r) @! 0) with (Some (u8 (Z.shiftr (fsize 2 rl d) 8))). cbn [mbind option_bind].
  change ((pre2 (fsize 2 rl d) ++ r) @! 1) with (Some (u8 (fsize 2 rl d))). cbn [mbind option_bind].
  rewrite two_bytes by (unfold fsize in *; lia).
  rewrite (proj2 (Z.leb_gt 8192 _)), (proj2 (Z.ltb_ge _ 7)) by (unfold fsize in *; lia). cbn [orb].
  rewrite (proj2 (Z.ltb_lt _ _)); [done|]. apply (f_equal length) in Hpq.
  rewrite !length_app in Hpq. rewrite !length_app. destruct q; [done|]. cbn [length] in *. lia.
Qed.

(** auth_sha1 reads the length of the filling from one byte. *)
Lemma sha1_parse_v2 buf b2 :
  buf @! 2 = Some b2 -> b2 < 255 -> auth_sha1_parse s buf = auth_sha1_v2_parse s buf.
Proof.
  intros H2 Hb. unfold auth_sha1_parse, auth_sha1_v2_parse, get_filling. rewrite H2. cbn [mbind option_bind].
  by rewrite (proj2 (Z.ltb_lt b2 255)) by lia.
Qed.

Lemma sha1_v4_took f d rest :
  frame4 f d -> auth_sha1_v4_parse crc_table s (f ++ rest) = Some (Took (Z.of_nat (length f)) d s).
Proof.
  intros Hf. destruct (adler_frame_facts pre4 4 pre4_length pre4_bytes pre4_size f d rest Hf)
    as (rl & Hl & Hrl & Hs & H1 & H2 & H3 & H4).
  destruct (adler_frame_prefix pre4 4 pre4_length pre4_bytes pre4_size f d f [] Hf) as (rl' & r & Hl' & Hp);
    [by rewrite app_nil_r|unfold fsize in *; lia|].
  pose proof (pre4_head (fsize 4 rl' d) (r ++ rest)) as (Hc & H3' & H2' & _). rewrite app_assoc, <- Hp in Hc, H3', H2'.
  unfold auth_sha1_v4_parse. rewrite Hc. cbn [mbind option_bind]. rewrite H3'. cbn [mbind option_bind].
  rewrite H2'. cbn [mbind option_bind]. rewrite crc_half, Z.eqb_refl. cbn [negb].
  rewrite H1. cbn [mbind option_bind].
  rewrite (proj2 (Z.leb_gt 8192 _)), (proj2 (Z.ltb_ge _ 7)) by (unfold fsize in *; lia). cbn [orb].
  rewrite (proj2 (Z.ltb_ge _ _)) by (rewrite length_app; lia).
  rewrite H2. cbn [mbind option_bind negb]. change (Z.of_nat 4) with 4 in *. rewrite H3. cbn [mbind option_bind].
  rewrite H4. by rewrite Hl.
Qed.

Lemma sha1_v4_wait f d p q :
  frame4 f d -> f = p ++ q -> q <> [] -> 4 < Z.of_nat (length p) -> auth_sha1_v4_parse crc_table s p = Some Wait.
Proof.
  intros Hf Hpq Hq Hp. destruct (adler_frame_prefix pre4 4 pre4_length pre4_bytes pre4_size f d p q Hf Hpq)
    as (rl & r & Hl & Hpre); [lia|].
  destruct (adler_frame_facts pre4 4 pre4_length pre4_bytes pre4_size f d [] Hf) as (rl' & Hl' & Hrl & Hs & _).
  destruct (pre4_head (fsize 4 rl d) r) as (Hc & H3 & H2 & H1 & H0). rewrite <- Hpre in Hc, H3, H2, H1, H0.
  unfold auth_sha1_v4_parse, frame_length. rewrite Hc. cbn [mbind option_bind]. rewrite H3. cbn [mbind option_bind].
  rewrite H2. cbn [mbind option_bind]. rewrite crc_half, Z.eqb_refl. cbn [negb].
  rewrite H0. cbn [mbind option_bind]. rewrite H1. cbn [mbind option_bind].
  rewrite two_bytes by (unfold fsize in *; lia).
  rewrite (proj2 (Z.leb_gt 8192 _)), (proj2 (Z.ltb_ge _ 7)) by (unfold fsize in *; lia). cbn [orb].
  rewrite (proj2 (Z.ltb_lt _ _)); [done|]. apply (f_equal length) in Hpq.
  rewrite !length_app in Hpq. destruct q; [done|]. cbn [length] in *. lia.
Qed.

End Receiving.

(** *** Sending *)

(** Both sides of a computation that succeeds, step by step. *)
Ltac walk H :=
  repeat (match type of H with mbind _ ?o = _ => destruct o; [|done] end; cbn [mbind option_bind] in * ).

Lemma wr_0 x l v : wr (x :: l) 0 v = Some (v :: l).
Proof. by apply (wr_app [] x l). Qed.
Lemma wr_1 a x l v : wr (a :: x :: l) 1 v = Some (a :: v :: l).
Proof. by apply (wr_app [a] x l). Qed.
Lemma wr_2 a b x l v : wr (a :: b :: x :: l) 2 v = Some (a :: b :: v :: l).
Proof. by apply (wr_app [a; b] x l). Qed.
Lemma wr_3 a b c x l v : wr (a :: b :: c :: x :: l) 3 v = Some (a :: b :: c :: v :: l).
Proof. by apply (wr_app [a; b; c] x l). Qed.

(** The size and the length of the filling into the room, then the data and the
    checksum. *)
Lemma sha1_v2_put rl (data room : list Z) :
  1 <= rl -> is_bytes data -> is_bytes room -> fsize 2 rl data < 8192 ->
  fsize 2 rl data <= Z.of_nat (length room) ->
  exists f, adler_frame pre2 2 f data /\ Z.of_nat (length f) = fsize 2 rl data /\
    (f @! 2 = if rl <? 128 then Some rl else Some 255) /\
    (outdata ← wr room 0 (u8 (Z.shiftr (fsize 2 rl data) 8));
     outdata ← wr outdata 1 (u8 (fsize 2 rl data));
     outdata ← put_filling outdata 2 rl;
     outdata ← mwrite outdata (rl + 2) data;
     filladler32 outdata (fsize 2 rl data)) = Some (f ++ drop (length f) room).
Proof.
  intros Hrl Hd Hr Hs Hroom.
  destruct (adler_room 2 rl data room (field_fits rl Hrl)) as (a & b & filling & dd & tail & rest & -> & Ha & Hb & Hl & Hdd & Ht & Hfb);
    [lia|unfold fsize in *; lia|done|].
  destruct a as [|a0 [|a1 [|]]]; try done.
  set (f := adler_body pre2 2 rl filling data ++ le_bytes (adler32_ref (adler_body pre2 2 rl filling data))).
  assert (Z.of_nat (length f) = fsize 2 rl data) as Hf.
  { unfold f, adler_body, fsize. rewrite !length_app. cbn [length pre2 le_bytes]. lia. }
  exists f. split_and!; [by exists rl, filling|done| |].
  - unfold f, adler_body, field. by destruct (rl <? 128).
  - cbn [app]. rewrite wr_0. cbn [mbind option_bind]. rewrite wr_1. cbn [mbind option_bind].
    pose proof (put_field (pre2 (fsize 2 rl data)) b (filling ++ dd ++ tail ++ rest) rl Hb ltac:(lia)) as Hput.
    unfold pre2 in Hput at 1. cbn [app] in Hput. change (Z.of_nat (length (pre2 (fsize 2 rl data)))) with 2 in Hput.
    rewrite Hput. cbn [mbind option_bind].
    change 2 with (Z.of_nat 2) at 1. rewrite (finish_adler pre2 2 pre2_length pre2_bytes pre2_size) by done.
    do 2 f_equal. replace (a0 :: a1 :: b ++ filling ++ dd ++ tail ++ rest)
      with ((a0 :: a1 :: b ++ filling ++ dd ++ tail) ++ rest) by list_assoc.
    replace (length f) with (length (a0 :: a1 :: b ++ filling ++ dd ++ tail)); [by rewrite drop_app_length|].
    cbn [length]. rewrite !length_app. unfold fsize in Hf. lia.
Qed.

Lemma sha1_v4_put rl (data room : list Z) :
  1 <= rl -> is_bytes data -> is_bytes room -> fsize 4 rl data < 8192 ->
  fsize 4 rl data <= Z.of_nat (length room) ->
  exists f, adler_frame pre4 4 f data /\ Z.of_nat (length f) = fsize 4 rl data /\
    (outdata ← wr room 0 (u8 (Z.shiftr (fsize 4 rl data) 8));
     outdata ← wr outdata 1 (u8 (fsize 4 rl data));
     crc_val ← crc32 crc_table outdata 2;
     outdata ← wr outdata 2 (u8 crc_val);
     outdata ← wr outdata 3 (u8 (Z.shiftr crc_val 8));
     outdata ← put_filling outdata 4 rl;
     outdata ← mwrite outdata (rl + 4) data;
     filladler32 outdata (fsize 4 rl data)) = Some (f ++ drop (length f) room).
Proof.
  intros Hrl Hd Hr Hs Hroom.
  destruct (adler_room 4 rl data room (field_fits rl Hrl)) as (a & b & filling & dd & tail & rest & -> & Ha & Hb & Hl & Hdd & Ht & Hfb);
    [lia|unfold fsize in *; lia|done|].
  destruct a as [|a0 [|a1 [|a2 [|a3 [|]]]]]; try done.
  set (size := fsize 4 rl data) in *.
  set (f := adler_body pre4 4 rl filling data ++ le_bytes (adler32_ref (adler_body pre4 4 rl filling data))).
  assert (Z.of_nat (length f) = size) as Hf.
  { unfold f, adler_body, size, fsize. rewrite !length_app, pre4_length. cbn [length le_bytes]. lia. }
  exists f. split_and!; [by exists rl, filling|done|].
  cbn [app]. rewrite wr_0. cbn [mbind option_bind]. rewrite wr_1. cbn [mbind option_bind].
  pose proof (crc_pre2 size (a2 :: a3 :: b ++ filling ++ dd ++ tail ++ rest)) as Hc. cbn [app] in Hc.
  unfold pre2 in Hc at 1. cbn [app] in Hc. rewrite Hc. cbn [mbind option_bind].
  rewrite wr_2. cbn [mbind option_bind]. rewrite wr_3. cbn [mbind option_bind].
  pose proof (put_field (pre4 size) b (filling ++ dd ++ tail ++ rest) rl Hb ltac:(lia)) as Hput.
  rewrite pre4_length in Hput. change (Z.of_nat 4) with 4 in Hput.
  unfold pre4 in Hput at 1. unfold pre2 in Hput at 1. cbn [app] in Hput. rewrite Hput. cbn [mbind option_bind].
  pose proof (finish_adler pre4 4 pre4_length pre4_bytes pre4_size rl filling data dd tail rest Hdd Ht Hl Hs Hfb Hd) as Hfin.
  change (Z.of_nat 4) with 4 in Hfin. fold size in Hfin. rewrite Hfin.
  do 2 f_equal. replace (a0 :: a1 :: a2 :: a3 :: b ++ filling ++ dd ++ tail ++ rest)
    with ((a0 :: a1 :: a2 :: a3 :: b ++ filling ++ dd ++ tail) ++ rest) by list_assoc.
  replace (length f) with (length (a0 :: a1 :: a2 :: a3 :: b ++ filling ++ dd ++ tail)); [by rewrite drop_app_length|].
  cbn [length]. rewrite !length_app. unfold size, fsize in Hf. lia.
Qed.

(** The size of a filling of a long frame, and of one of a whole unit. *)
Lemma long_filling_range r n :
  1 <= fst (long_filling r n) <= 1024 /\ (1300 < n -> fst (long_filling r n) = 1).
Proof.
  unfold long_filling. case_bool; [simpl; lia|].
  pose proof (xorshift_low r 127 ltac:(lia)). pose proof (xorshift_low r 1023 ltac:(lia)).
  destruct (xorshift128plus r) as [x r']. cbn [fst] in *. case_bool; cbn [fst]; lia.
Qed.

Lemma sha1_pack r data room :
  is_bytes data -> is_bytes room -> (0 < length data <= PACK_UNIT)%nat ->
  Z.of_nat (length data) + 22 <= Z.of_nat (length room) ->
  exists f r', auth_sha1_pack_data r data room = Some (f ++ drop (length f) room, Z.of_nat (length f), r') /\
    adler_frame pre2 2 f data /\ (exists b2, f @! 2 = Some b2 /\ b2 < 255) /\
    Z.of_nat (length f) <= Z.of_nat (length data) + 22.
Proof.
  intros Hd Hr Hl Hroom. unfold auth_sha1_pack_data.
  pose proof (xorshift_low r 15 ltac:(lia)) as Hx. destruct (xorshift128plus r) as [x r']. cbn [fst] in Hx.
  rewrite (u8_id (Z.land x 15 + 1)) by lia. set (rl := Z.land x 15 + 1).
  assert (1 <= rl <= 16) as Hrl by (unfold rl; lia). clearbody rl. unfold PACK_UNIT in *.
  destruct (sha1_v2_put rl data room) as (f & Hf & Hlen & H2 & Hput); [lia|done|done|unfold fsize; lia|unfold fsize; lia|].
  replace (rl + Z.of_nat (length data) + 6) with (fsize 2 rl data) by (unfold fsize; lia).
  rewrite (proj2 (Z.ltb_lt rl 128)) in H2 by lia.
  exists f, r'. split_and!; [|done|exists rl; split; [done|lia]|unfold fsize in *; lia].
  unfold put_filling in Hput. rewrite (proj2 (Z.ltb_lt rl 128)) in Hput by lia.
  walk Hput.
  rewrite Hput, Hlen. done.
Qed.

Lemma sha1_v2_pack r data room :
  is_bytes data -> is_bytes room -> (0 < length data <= PACK_UNIT)%nat ->
  Z.of_nat (length data) + 6 + fst (long_filling r (Z.of_nat (length data))) <= Z.of_nat (length room) ->
  exists f r', auth_sha1_v2_pack_data r data room = Some (f ++ drop (length f) room, Z.of_nat (length f), r') /\
    adler_frame pre2 2 f data /\
    Z.of_nat (length f) = Z.of_nat (length data) + 6 + fst (long_filling r (Z.of_nat (length data))).
Proof.
  intros Hd Hr Hl Hroom. unfold auth_sha1_v2_pack_data. unfold PACK_UNIT in *.
  pose proof (long_filling_range r (Z.of_nat (length data))) as [Hrl _].
  destruct (long_filling _ _) as [rl r']. cbn [fst] in *.
  destruct (sha1_v2_put rl data room) as (f & Hf & Hlen & _ & Hput); [lia|done|done|unfold fsize; lia|unfold fsize; lia|].
  replace (rl + Z.of_nat (length data) + 6) with (fsize 2 rl data) by (unfold fsize; lia).
  exists f, r'. split_and!; [|done|unfold fsize in *; lia].
  walk Hput.
  rewrite Hput, Hlen. done.
Qed.

Lemma sha1_v4_pack r data room :
  is_bytes data -> is_bytes room -> (0 < length data <= PACK_UNIT)%nat ->
  Z.of_nat (length data) + 8 + fst (long_filling r (Z.of_nat (length data))) <= Z.of_nat (length room) ->
  exists f r', auth_sha1_v4_pack_data crc_table r data room = Some (f ++ drop (length f) room, Z.of_nat (length f), r') /\
    adler_frame pre4 4 f data /\
    Z.of_nat (length f) = Z.of_nat (length data) + 8 + fst (long_filling r (Z.of_nat (length data))).
Proof.
  intros Hd Hr Hl Hroom. unfold auth_sha1_v4_pack_data. unfold PACK_UNIT in *.
  pose proof (long_filling_range r (Z.of_nat (length data))) as [Hrl _].
  destruct (long_filling _ _) as [rl r']. cbn [fst] in *.
  destruct (sha1_v4_put rl data room) as (f & Hf & Hlen & Hput); [lia|done|done|unfold fsize; lia|unfold fsize; lia|].
  replace (rl + Z.of_nat (length data) + 8) with (fsize 4 rl data) by (unfold fsize; lia).
  exists f, r'. split_and!; [|done|unfold fsize in *; lia].
  walk Hput.
  walk Hput.
  rewrite Hput, Hlen. done.
Qed.

(** *** The plugins *)

Lemma adler_frame_size pre npre f d :
  (forall size, length (pre size) = npre) -> (forall size, is_bytes (pre size)) ->
  (forall size, exists r, pre size = u8 (Z.shiftr size 8) :: u8 size :: r) ->
  adler_frame pre npre f d ->
  Z.of_nat npre < Z.of_nat (length f) < 8192 /\ (length d <= length f)%nat.
Proof.
  intros H1 H2 H3 Hf. destruct (adler_frame_facts pre npre H1 H2 H3 f d [] Hf) as (rl & Hl & Hr & Hs & _).
  unfold fsize in *. lia.
Qed.

(** The frames of each plugin. *)
Definition frame_of_plugin (pl : plugin) (f d : list Z) : Prop :=
  match pl with
  | auth_simple => crc_frame f d
  | auth_sha1 => adler_frame pre2 2 f d /\ exists b2, f @! 2 = Some b2 /\ b2 < 255
  | auth_sha1_v2 => adler_frame pre2 2 f d
  | auth_sha1_v4 => adler_frame pre4 4 f d
  end.

#[export] Program Instance plugin_laws pl : @FramingLaws no_local_data (plugin_framing crc_table pl) :=
  {| frame_of _ f d _ := frame_of_plugin pl f d |}.
Next Obligation. intros []; simpl; lia. Qed.
Next Obligation.
  intros [] ? f d ? Hf; cbn [frame_of_plugin] in Hf; cbn [min_size plugin_framing].
  - destruct (crc_frame_length f d Hf) as (rl & Hl & Hr & Hmax). lia.
  - destruct Hf as [Hf _]. exact (adler_frame_size pre2 2 f d pre2_length pre2_bytes pre2_size Hf).
  - exact (adler_frame_size pre2 2 f d pre2_length pre2_bytes pre2_size Hf).
  - exact (adler_frame_size pre4 4 f d pre4_length pre4_bytes pre4_size Hf).
Qed.
Next Obligation.
  intros [] [] f d [] rest Hf; cbn [frame_of_plugin] in Hf; cbn [parse plugin_framing].
  - by apply crc_parse_frame.
  - destruct Hf as (Hf & b2 & H2 & Hb). rewrite (sha1_parse_v2 _ _ b2); [by apply sha1_v2_took| |done].
    rewrite rd_app_l; [done|]. destruct (adler_frame_size pre2 2 f d pre2_length pre2_bytes pre2_size Hf). lia.
  - by apply sha1_v2_took.
  - by apply sha1_v4_took.
Qed.
Next Obligation.
  intros [] s f d ? p q Hf Hpq Hq Hp; cbn [frame_of_plugin] in Hf; cbn [parse plugin_framing min_size] in *.
  - exact (crc_parse_partial s f d p q Hf Hpq Hq Hp).
  - destruct Hf as (Hf & b2 & H2 & Hb).
    rewrite (sha1_parse_v2 _ _ b2); [exact (sha1_v2_wait s f d p q Hf Hpq Hq Hp)| |done].
    rewrite Hpq, rd_app_l in H2 by lia. done.
  - exact (sha1_v2_wait s f d p q Hf Hpq Hq Hp).
  - exact (sha1_v4_wait s f d p q Hf Hpq Hq Hp).
Qed.

Definition slack_of_frame (pl : plugin) : Z :=
  match pl with auth_sha1_v2 => 1030 | auth_sha1_v4 => 1032 | _ => 22 end.

#[export] Program Instance plugin_packing_laws pl :
    @PackingLaws no_local_data rng (plugin_framing crc_table pl) _ (plugin_packing crc_table pl) :=
  {| agrees _ _ := True; pack_slack := slack_of_frame pl |}.
Next Obligation.
  intros pl r s data room _ Hd Hr Hl Hroom. unfold PACK_UNIT in *.
  pose proof (long_filling_range r (Z.of_nat (length data))) as [Hrl Hone].
  destruct pl; cbn [slack_of_frame] in *.
  - destruct (crc_pack r data room) as (f & r' & Hp & Hf & Hlen); [done|done|done|lia|].
    exists f, r', s. split; [exact Hp|]. split; [exact Hf|]. split; [done|lia].
  - destruct (sha1_pack r data room) as (f & r' & Hp & Hf & H2 & Hlen); [done|done|done|lia|].
    exists f, r', s. split; [exact Hp|]. split; [exact (conj Hf H2)|]. split; [done|lia].
  - destruct (sha1_v2_pack r data room) as (f & r' & Hp & Hf & Hlen); [done|done|done|lia|].
    exists f, r', s. split; [exact Hp|]. split; [exact Hf|]. split; [done|lia].
  - destruct (sha1_v4_pack r data room) as (f & r' & Hp & Hf & Hlen); [done|done|done|lia|].
    exists f, r', s. split; [exact Hp|]. split; [exact Hf|]. split; [done|lia].
Qed.

(** *** Headers *)

Section HeaderLaws.
Context (e : surroundings) (sha1_hmac : list Z -> list Z -> list Z) (enc_iv_len : Z) (enc_key : list Z).
Context (server : server_info).

(** What the caller promises: a MAC of twenty bytes, an initialisation vector of
    the cipher's size, a key of bytes. *)
Class ServerLaws := {
  sha1_length k m : length (sha1_hmac k m) = 20%nat;
  iv_size : 0 <= enc_iv_len <= Z.of_nat (length (iv server)) /\ enc_iv_len < 2 ^ 31;
  key_bytes : is_bytes (key server);
  key_size : Z.of_nat (length (key server)) < 2 ^ 31 }.

(** Identities have eight bytes. *)
Definition identity (id : list Z) : Prop := length id = 8%nat /\ is_bytes id.
Definition wf_global (g : auth_simple_global_data) : Prop :=
  identity (local_client_id g) /\ 0 <= connection_id g <= 4278190080.

Definition mac (msg : list Z) : list Z := sha1_hmac (take (Z.to_nat enc_iv_len) (iv server) ++ enc_key) msg.

(** What the packet carries in front of the data. *)
Definition stamp_bytes (g : auth_simple_global_data) : list Z :=
  le_bytes (u32 (now e)) ++ take 4 (local_client_id g) ++ le_bytes (u32 (connection_id g)).
Definition stamp_bytes_v2 (g : auth_simple_global_data) : list Z :=
  local_client_id g ++ le_bytes (u32 (connection_id g)).

(** A packet with a MAC: what stands before the filling, the length of the filling,
    the filling, the payload. *)
Definition hsize (rl : Z) (payload : list Z) : Z := rl + 6 + Z.of_nat (length payload) + 10.
Definition header_body (pre fld : Z -> list Z) (rl : Z) (filling payload : list Z) : list Z :=
  pre (hsize rl payload) ++ fld rl ++ filling ++ payload.
Definition sealed (pre fld : Z -> list Z) (payload f : list Z) : Prop :=
  exists rl filling, f = header_body pre fld rl filling payload ++ take 10 (mac (header_body pre fld rl filling payload)) /\
    Z.of_nat (length (fld rl) + length filling) = rl /\ 1 <= rl <= 1024.

Definition pre_sha1 (salt : string) (size : Z) : list Z :=
  le_bytes (crc32_ref (bytes_of salt ++ key server)) ++ pre2 size.
Definition pre_sha1_v4 (size : Z) : list Z :=
  pre2 size ++ le_bytes (crc32_ref (pre2 size ++ bytes_of "auth_sha1_v4" ++ key server)).

(** The header of each plugin for the head of the data. *)
Definition header_of (pl : plugin) (g' : auth_simple_global_data) (head f : list Z) : Prop :=
  match pl with
  | auth_simple => crc_frame f (stamp_bytes g' ++ head)
  | auth_sha1 => sealed (pre_sha1 "") (fun rl => [rl]) (stamp_bytes g' ++ head) f
  | auth_sha1_v2 => sealed (pre_sha1 "auth_sha1_v2") field (stamp_bytes_v2 g' ++ head) f
  | auth_sha1_v4 => sealed pre_sha1_v4 field (stamp_bytes g' ++ head) f
  end.

Lemma next_connection_wf g :
  identity (rand_id e) -> wf_global g -> wf_global (next_connection e g).
Proof using Type.
  intros Hid [Hg Hc]. unfold next_connection. rewrite u32_id by lia.
  destruct (4278190080 <? connection_id g + 1) eqn:E; zify_bool; split; cbn [local_client_id connection_id]; try done; [|lia].
  change 16777215 with (Z.ones 24). rewrite Z.land_ones by lia.
  pose proof (Z.mod_pos_bound (rand_connection e) (2 ^ 24)). lia.
Qed.

Lemma stamp_bytes_length g : identity (local_client_id g) -> length (stamp_bytes g) = 12%nat.
Proof using Type.
  intros [Hl _]. unfold stamp_bytes. rewrite !length_app, length_take. cbn [length le_bytes]. lia.
Qed.

Lemma stamp_app g p x q i :
  identity (local_client_id g) -> i = Z.of_nat (length p) -> length x = 12%nat ->
  stamp e g (p ++ x ++ q) i = Some (p ++ stamp_bytes g ++ q).
Proof using Type.
  intros [Hid _] -> Hx. unfold stamp, memintcopy_lt.
  do 12 (destruct x as [|? x]; try done). destruct x; [|done].
  match goal with |- context [p ++ [?a; ?b; ?c; ?d; ?a1; ?b1; ?c1; ?d1; ?a2; ?b2; ?c2; ?d2] ++ q] =>
    replace (p ++ [a; b; c; d; a1; b1; c1; d1; a2; b2; c2; d2] ++ q)
      with (p ++ [a; b; c; d] ++ ([a1; b1; c1; d1] ++ [a2; b2; c2; d2] ++ q)) by done;
    set (x1 := [a1; b1; c1; d1]); set (x2 := [a2; b2; c2; d2]) end.
  rewrite mwrite_app by done. cbn [mbind option_bind].
  assert (length (take 4 (local_client_id g)) = 4%nat) as H4 by (rewrite length_take; lia).
  rewrite mread_in by lia. change (Z.to_nat 0) with 0%nat. change (Z.to_nat 4) with 4%nat. rewrite drop_0. cbn [mbind option_bind].
  rewrite (app_assoc p). rewrite mwrite_app; [|rewrite length_app; cbn [length le_bytes]; lia|done]. cbn [mbind option_bind].
  rewrite (app_assoc (p ++ _)). rewrite mwrite_app; [|rewrite !length_app, H4; cbn [length le_bytes]; lia|done].
  unfold stamp_bytes. f_equal. list_assoc.
Qed.

Context {SL : ServerLaws}.

Lemma mac_length m : length (take 10 (mac m)) = 10%nat.
Proof using SL. unfold mac. rewrite length_take, sha1_length. done. Qed.

Lemma seal_app body x rest size :
  size = Z.of_nat (length body) + 10 -> Z.of_nat (length body) < 2 ^ 63 -> length x = 10%nat ->
  seal sha1_hmac enc_iv_len enc_key server (body ++ x ++ rest) size = Some (body ++ take 10 (mac body) ++ rest).
Proof using SL.
  intros -> Hb Hx. unfold seal, ss_sha1_hmac. replace (Z.of_nat (length body) + 10 - 10) with (Z.of_nat (length body)) by lia.
  rewrite mread_prefix by lia. cbn [mbind option_bind].
  destruct iv_size as [[Hi1 Hi2] Hi3]. rewrite mread_in by lia. change (Z.to_nat 0) with 0%nat. rewrite drop_0.
  cbn [mbind option_bind]. rewrite mwrite_app; [done|lia|]. rewrite length_take, sha1_length. done.
Qed.

(** The part after the filling, when the payload has a block of twelve bytes in
    front of the data: stated for any way to write that block. *)
Lemma seal_payload (pre fld : Z -> list Z) rl (filling x dd m rest payload data : list Z) size :
  Z.of_nat (length (fld rl) + length filling) = rl -> length (pre (hsize rl (payload ++ data))) = 6%nat ->
  length payload = 12%nat -> length x = 12%nat -> length dd = length data -> length m = 10%nat ->
  Z.of_nat (length data) < 2 ^ 31 -> 0 <= rl <= 1024 -> size = hsize rl (payload ++ data) ->
  (outdata ← mwrite (pre (hsize rl (payload ++ data)) ++ fld rl ++ filling ++ payload ++ dd ++ m ++ rest)
               (rl + 4 + 2 + 12) data;
   seal sha1_hmac enc_iv_len enc_key server outdata size)
  = Some ((header_body pre fld rl filling (payload ++ data) ++
           take 10 (mac (header_body pre fld rl filling (payload ++ data)))) ++ rest).
Proof using SL.
  intros Hl Hp H12 Hx Hdd Hm Hdata Hrl ->.
  set (pr := pre (hsize rl (payload ++ data))) in *.
  replace (pr ++ fld rl ++ filling ++ payload ++ dd ++ m ++ rest)
    with ((pr ++ fld rl ++ filling ++ payload) ++ dd ++ (m ++ rest)) by list_assoc.
  rewrite mwrite_app; [|rewrite !length_app; lia|done]. cbn [mbind option_bind].
  replace ((pr ++ fld rl ++ filling ++ payload) ++ data ++ m ++ rest)
    with (header_body pre fld rl filling (payload ++ data) ++ m ++ rest)
    by (unfold header_body; fold pr; list_assoc).
  assert (hsize rl (payload ++ data) = Z.of_nat (length (header_body pre fld rl filling (payload ++ data))) + 10) as ->.
  { unfold header_body. fold pr. unfold hsize. rewrite !length_app. lia. }
  rewrite seal_app; [by rewrite <- app_assoc|done| |done].
  unfold header_body. fold pr. rewrite !length_app. lia.
Qed.

Lemma crc32_of b : is_bytes b -> Z.of_nat (length b) < 2 ^ 32 ->
  crc32 crc_table b (Z.of_nat (length b)) = Some (crc32_ref b).
Proof using Type.
  intros Hb Hl. unfold crc32. rewrite u32_id by lia. rewrite mread_in, drop_0, Nat2Z.id, firstn_all by lia.
  cbn [mbind option_bind]. rewrite crc_loop_ref by done. cbn [mbind option_bind]. unfold crc32_ref. reflexivity.
Qed.

Lemma bytes_of_range str : is_bytes (bytes_of str).
Proof using Type.
  induction str as [|c str IH]; [constructor|]. cbn [bytes_of]. constructor; [|done].
  pose proof (Ascii.nat_ascii_bounded c). lia.
Qed.

Lemma salted_key_crc salt :
  Z.of_nat (length (bytes_of salt)) < 100 ->
  crc32 crc_table (bytes_of salt ++ key server) (Z.of_nat (length (bytes_of salt ++ key server)))
  = Some (crc32_ref (bytes_of salt ++ key server)).
Proof using SL.
  intros Hs. apply crc32_of.
  - apply Forall_app. split; [apply bytes_of_range|apply key_bytes].
  - rewrite length_app. pose proof key_size. lia.
Qed.

(** The first six bytes: the CRC of the key and the size. *)
Lemma put_pre_sha1 salt size (a q : list Z) :
  Z.of_nat (length (bytes_of salt)) < 100 -> length a = 6%nat ->
  (outdata ← fillcrc32to crc_table (bytes_of salt ++ key server)
               (Z.of_nat (length (bytes_of salt ++ key server))) (a ++ q);
   outdata ← wr outdata 4 (u8 (Z.shiftr size 8)); wr outdata 5 (u8 size))
  = Some (pre_sha1 salt size ++ q).
Proof using SL.
  intros Hs Ha. unfold fillcrc32to. rewrite salted_key_crc by done. cbn [mbind option_bind].
  do 6 (destruct a as [|? a]; try done). destruct a; [|done].
  unfold pre_sha1. generalize (crc32_ref (bytes_of salt ++ key server)). intros c.
  match goal with |- context [[?z0; ?z1; ?z2; ?z3; ?z4; ?z5] ++ q] =>
    replace ([z0; z1; z2; z3; z4; z5] ++ q) with ([] ++ [z0; z1; z2; z3] ++ (z4 :: z5 :: q)) by done end.
  rewrite mwrite_app by done. cbn [mbind option_bind app].
  match goal with |- context [wr (le_bytes c ++ ?y :: ?z :: q) 4 _] =>
    rewrite (wr_app (le_bytes c) y (z :: q)) by done; cbn [mbind option_bind];
    replace (le_bytes c ++ u8 (Z.shiftr size 8) :: z :: q)
      with ((le_bytes c ++ [u8 (Z.shiftr size 8)]) ++ z :: q) by list_assoc;
    rewrite wr_app by (rewrite length_app; done) end.
  f_equal; unfold pre2; list_assoc.
Qed.

Lemma put_pre_sha1_v4 size (a q : list Z) :
  length a = 6%nat ->
  (outdata ← wr (a ++ q) 0 (u8 (Z.shiftr size 8));
   outdata ← wr outdata 1 (u8 size);
   let crc_salt := [u8 (Z.shiftr size 8); u8 size] ++ bytes_of "auth_sha1_v4" ++ key server in
   tail ← fillcrc32to crc_table crc_salt (Z.of_nat (length crc_salt)) (drop 2 outdata);
   Some (take 2 outdata ++ tail))
  = Some (pre_sha1_v4 size ++ q).
Proof using SL.
  intros Ha. do 6 (destruct a as [|? a]; try done). destruct a; [|done]. cbn [app].
  rewrite wr_0. cbn [mbind option_bind]. rewrite wr_1. cbn [mbind option_bind].
  unfold fillcrc32to. rewrite crc32_of.
  - cbn [mbind option_bind]. unfold pre_sha1_v4, pre2. cbn [drop take app].
    generalize (crc32_ref (u8 (Z.shiftr size 8) :: u8 size :: bytes_of "auth_sha1_v4" ++ key server)). intros c.
    match goal with |- context [mwrite (?y1 :: ?y2 :: ?y3 :: ?y4 :: q) 0 _] =>
      change (y1 :: y2 :: y3 :: y4 :: q) with ([] ++ [y1; y2; y3; y4] ++ q) end.
    by rewrite mwrite_app by done.
  - repeat (apply Forall_cons; split; [apply u8_range|]). apply Forall_app. split; [apply bytes_of_range|apply key_bytes].
  - cbn [app length]. rewrite length_app. pose proof key_size. change (length (bytes_of "auth_sha1_v4")) with 12%nat. lia.
Qed.

(** The pieces of a room for a header with a filling of [rl] bytes. *)
Lemma header_room rl nf (data room : list Z) :
  (nf <= Z.to_nat rl)%nat -> 0 <= rl ->
  rl + 28 + Z.of_nat (length data) <= Z.of_nat (length room) ->
  exists a b filling x dd m rest, room = a ++ b ++ filling ++ x ++ dd ++ m ++ rest /\
    length a = 6%nat /\ length b = nf /\ Z.of_nat (nf + length filling) = rl /\
    length x = 12%nat /\ length dd = length data /\ length m = 10%nat.
Proof using Type.
  intros Hf Hrl Hroom.
  destruct (split_block room 6) as (a & r1 & -> & Ha); [lia|]. rewrite length_app in Hroom.
  destruct (split_block r1 nf) as (b & r2 & -> & Hb); [lia|]. rewrite length_app in Hroom.
  destruct (split_block r2 (Z.to_nat rl - nf)) as (c & r3 & -> & Hc); [lia|]. rewrite length_app in Hroom.
  destruct (split_block r3 12) as (x & r4 & -> & Hx); [lia|]. rewrite length_app in Hroom.
  destruct (split_block r4 (length data)) as (dd & r5 & -> & Hd); [lia|]. rewrite length_app in Hroom.
  destruct (split_block r5 10) as (m & rest & -> & Hm); [lia|].
  exists a, b, c, x, dd, m, rest. split_and!; try done; lia.
Qed.

Lemma stamp_bytes_range g : identity (local_client_id g) -> is_bytes (stamp_bytes g).
Proof using Type.
  intros [_ Hb]. unfold stamp_bytes. apply Forall_app. split; [apply le_bytes_range|].
  apply Forall_app. split; [by apply Forall_take|apply le_bytes_range].
Qed.

(** What each plugin writes in front of the data: the header, within the room. *)
Definition header_slack (pl : plugin) : Z :=
  match pl with auth_simple => 34 | auth_sha1 => 156 | _ => 1052 end.

Notation packs pl g r head room := (exists f r',
  pack_auth_data crc_table e sha1_hmac enc_iv_len enc_key server pl g r head room
    = Some (f ++ drop (length f) room, Z.of_nat (length f), next_connection e g, r') /\
  header_of pl (next_connection e g) head f /\
  Z.of_nat (length f) <= Z.of_nat (length head) + header_slack pl).

Lemma simple_header g r head room :
  identity (rand_id e) -> wf_global g -> is_bytes head -> is_bytes room -> Z.of_nat (length head) <= 2000 ->
  Z.of_nat (length head) + 34 <= Z.of_nat (length room) -> packs auth_simple g r head room.
Proof using Type.
  intros He Hg Hd Hr Hl Hroom. cbn [pack_auth_data header_of header_slack]. unfold auth_simple_pack_auth_data.
  pose proof (next_connection_wf g He Hg) as [Hid _]. set (g' := next_connection e g) in *.
  pose proof (xorshift_low r 15 ltac:(lia)) as Hx. destruct (xorshift128plus r) as [x r']. cbn [fst] in Hx.
  rewrite (u8_id (Z.land x 15 + 1)) by lia. set (rl := Z.land x 15 + 1).
  assert (1 <= rl <= 16) as Hrl by (unfold rl; lia). clearbody rl.
  pose proof (stamp_bytes_length g' Hid) as H12.
  assert (length (stamp_bytes g' ++ head) = (12 + length head)%nat) as Hpl by (rewrite length_app; lia).
  set (size := rl + Z.of_nat (length head) + 6 + 12).
  destruct room as [|a0 [|a1 [|a2 room]]]; [simpl in Hroom; lia..|]. cbn [length] in Hroom.
  destruct (split_block room (Z.to_nat (rl - 1))) as (filling & r1 & -> & Hfl); [lia|]. rewrite length_app in Hroom.
  destruct (split_block r1 12) as (z & r2 & -> & Hz); [lia|]. rewrite length_app in Hroom.
  destruct (split_block r2 (length head)) as (dd & r3 & -> & Hdd); [lia|]. rewrite length_app in Hroom.
  destruct (split_block r3 4) as (tail & rest & -> & Ht); [lia|].
  assert (is_bytes filling) as Hfb.
  { do 3 (apply Forall_cons in Hr as [_ Hr]). by apply Forall_app in Hr as [Hr _]. }
  assert (is_bytes (stamp_bytes g' ++ head)) as Hpb by (apply Forall_app; split; [by apply stamp_bytes_range|done]).
  set (body := crc_body rl filling (stamp_bytes g' ++ head)).
  assert (is_bytes body) as Hbb by (apply crc_body_bytes; [lia|done|done]).
  assert (size = Z.of_nat (length body) + 4) as Hsize.
  { unfold size, body, crc_body. rewrite !length_app. cbn [length]. lia. }
  exists (body ++ le_bytes (crc_ref_loop ONES body)), r'. split_and!.
  - rewrite wr_0. cbn [mbind option_bind]. rewrite wr_1. cbn [mbind option_bind]. rewrite wr_2. cbn [mbind option_bind].
    replace (u8 (Z.shiftr size 8) :: u8 size :: rl :: filling ++ z ++ dd ++ tail ++ rest)
      with (([u8 (Z.shiftr size 8); u8 size; rl] ++ filling) ++ z ++ (dd ++ tail ++ rest)) by list_assoc.
    rewrite stamp_app by (done || (rewrite length_app; cbn [length]; lia)). cbn [mbind option_bind].
    rewrite (app_assoc (_ ++ filling)). rewrite mwrite_app; [|rewrite !length_app; cbn [length]; lia|done]. cbn [mbind option_bind].
    replace (((([u8 (Z.shiftr size 8); u8 size; rl] ++ filling) ++ stamp_bytes g') ++ head ++ tail ++ rest))
      with (body ++ tail ++ rest).
    2: { unfold body, crc_body. rewrite Hpl. replace (rl + Z.of_nat (12 + length head) + 6) with size by (unfold size; lia). list_assoc. }
    rewrite Hsize, fillcrc32_spec by (done || lia). cbn [mbind option_bind].
    replace (Z.of_nat (length body) + 4) with (Z.of_nat (length (body ++ le_bytes (crc_ref_loop ONES body))))
      by (rewrite length_app; simpl; lia).
    do 4 f_equal. rewrite <- app_assoc. do 2 f_equal.
    rewrite <- (drop_app_length ([a0; a1; a2] ++ filling ++ z ++ dd ++ tail) rest) at 1.
    f_equal; [|list_assoc]. rewrite !length_app. unfold size in Hsize. cbn [length le_bytes]. lia.
  - exists rl, filling. rewrite Hpl. split_and!; [done|lia|lia|lia|done|done].
  - rewrite length_app. cbn [length le_bytes]. unfold size in *. lia.
Qed.

(** A sealed packet has the length its size field says. *)
Lemma sealed_length (pre fld : Z -> list Z) rl filling payload :
  (forall z, length (pre z) = 6%nat) -> Z.of_nat (length (fld rl) + length filling) = rl ->
  Z.of_nat (length (header_body pre fld rl filling payload ++ take 10 (mac (header_body pre fld rl filling payload))))
  = hsize rl payload.
Proof using SL.
  intros Hp Hl. rewrite length_app, mac_length. unfold header_body. rewrite !length_app, Hp. unfold hsize. lia.
Qed.

(** What is behind a sealed packet is not touched. *)
Lemma sealed_drop (body a b filling x dd m rest : list Z) :
  length (body ++ take 10 (mac body)) = length (a ++ b ++ filling ++ x ++ dd ++ m) ->
  drop (length (body ++ take 10 (mac body))) (a ++ b ++ filling ++ x ++ dd ++ m ++ rest) = rest.
Proof using Type.
  intros ->. rewrite <- (drop_app_length (a ++ b ++ filling ++ x ++ dd ++ m) rest) at 2. f_equal. list_assoc.
Qed.

Lemma sha1_header g r head room :
  identity (rand_id e) -> wf_global g -> Z.of_nat (length head) <= 2000 ->
  Z.of_nat (length head) + 156 <= Z.of_nat (length room) -> packs auth_sha1 g r head room.
Proof using SL.
  intros He Hg Hl Hroom. cbn [pack_auth_data header_of header_slack]. unfold auth_sha1_pack_auth_data.
  pose proof (next_connection_wf g He Hg) as [Hid _]. set (g' := next_connection e g) in *.
  pose proof (xorshift_low r 127 ltac:(lia)) as Hx. destruct (xorshift128plus r) as [x0 r']. cbn [fst] in Hx.
  rewrite (u8_id (Z.land x0 127 + 1)) by lia. set (rl := Z.land x0 127 + 1).
  assert (1 <= rl <= 128) as Hrl by (unfold rl; lia). clearbody rl.
  destruct (header_room rl 1 head room) as (a & b & filling & x & dd & m & rest & -> & Ha & Hb & Hfl & Hx12 & Hdd & Hm); [lia..|].
  destruct b as [|b0 [|]]; try done.
  pose proof (stamp_bytes_length g' Hid) as H12.
  set (payload := stamp_bytes g' ++ head).
  assert (length payload = (12 + length head)%nat) as Hpl by (unfold payload; rewrite length_app; lia).
  replace (rl + 4 + 2 + Z.of_nat (length head) + 12 + 10) with (hsize rl payload) by (unfold hsize; lia).
  set (size := hsize rl payload).
  set (fld := fun rl : Z => [rl]).
  set (body := header_body (pre_sha1 "") fld rl filling payload).
  pose proof (sealed_length (pre_sha1 "") fld rl filling payload ltac:(done) Hfl) as Hlen. fold body size in Hlen.
  exists (body ++ take 10 (mac body)), r'. split_and!; [|exists rl, filling; split_and!; [done|done|lia|lia]|].
  - pose proof (put_pre_sha1 "" size a ([b0] ++ filling ++ x ++ dd ++ m ++ rest) ltac:(done) Ha) as Hpre.
    cbn [bytes_of app] in Hpre. cbn [app].
    destruct (fillcrc32to crc_table (key server) _ _) as [o1|]; [|done]. cbn [mbind option_bind] in *.
    destruct (wr o1 4 _) as [o2|]; [|done]. cbn [mbind option_bind] in *. rewrite Hpre. cbn [mbind option_bind].
    rewrite (wr_app (pre_sha1 "" size)) by done. cbn [mbind option_bind].
    replace (pre_sha1 "" size ++ rl :: filling ++ x ++ dd ++ m ++ rest)
      with ((pre_sha1 "" size ++ fld rl ++ filling) ++ x ++ (dd ++ m ++ rest)) by (unfold fld; list_assoc).
    rewrite stamp_app; [|done| |done].
    2: { rewrite !length_app. change (length (pre_sha1 "" size)) with 6%nat. unfold fld. cbn [length]. lia. }
    cbn [mbind option_bind].
    replace ((pre_sha1 "" size ++ fld rl ++ filling) ++ stamp_bytes g' ++ dd ++ m ++ rest)
      with (pre_sha1 "" size ++ fld rl ++ filling ++ stamp_bytes g' ++ dd ++ m ++ rest) by list_assoc.
    pose proof (seal_payload (pre_sha1 "") fld rl filling x dd m rest (stamp_bytes g') head size Hfl
      ltac:(done) H12 Hx12 Hdd Hm ltac:(lia) ltac:(lia) eq_refl) as Hseal.
    fold payload size body in Hseal.
    destruct (mwrite _ (rl + 4 + 2 + 12) head) as [o3|]; [|done]. cbn [mbind option_bind] in *.
    rewrite Hseal. cbn [mbind option_bind]. rewrite Hlen. do 4 f_equal.
    pose proof (sealed_drop body a [b0] filling x dd m rest) as Hdrop. cbn [app] in Hdrop. rewrite Hdrop; [done|].
    apply Nat2Z.inj. rewrite Hlen, !length_app. cbn [length]. rewrite !length_app. unfold size, hsize. lia.
  - rewrite Hlen. unfold size, hsize. lia.
Qed.

(** From the length of the filling on: auth_sha1_v4 and auth_sha1_v2. *)
Lemma put_field_6 (pre : Z -> list Z) size (b q : list Z) rl :
  (forall z, length (pre z) = 6%nat) -> length b = length (field rl) -> 0 <= rl ->
  put_filling (pre size ++ b ++ q) 6 rl = Some (pre size ++ field rl ++ q).
Proof using Type.
  intros Hp Hb Hrl. pose proof (put_field (pre size) b q rl Hb Hrl) as H. rewrite Hp in H. exact H.
Qed.

Lemma finish_v4 (pre : Z -> list Z) rl (b filling x dd m rest head : list Z) g :
  (forall z, length (pre z) = 6%nat) -> length b = length (field rl) ->
  Z.of_nat (length (field rl) + length filling) = rl -> 0 <= rl <= 1024 -> identity (local_client_id g) ->
  length x = 12%nat -> length dd = length head -> length m = 10%nat -> Z.of_nat (length head) < 2 ^ 31 ->
  let payload := stamp_bytes g ++ head in
  (outdata ← put_filling (pre (hsize rl payload) ++ b ++ filling ++ x ++ dd ++ m ++ rest) 6 rl;
   outdata ← stamp e g outdata (rl + 4 + 2);
   outdata ← mwrite outdata (rl + 4 + 2 + 12) head;
   seal sha1_hmac enc_iv_len enc_key server outdata (hsize rl payload))
  = Some ((header_body pre field rl filling payload ++ take 10 (mac (header_body pre field rl filling payload))) ++ rest).
Proof using SL.
  intros Hp Hb Hfl Hrl Hid Hx Hdd Hm Hh payload. rewrite put_field_6 by (done || lia). cbn [mbind option_bind].
  rewrite (app_assoc (field rl)), (app_assoc (pre _)).
  rewrite stamp_app; [|done|rewrite !length_app, Hp; lia|done]. cbn [mbind option_bind].
  pose proof (seal_payload pre field rl filling x dd m rest (stamp_bytes g) head _ Hfl (Hp _)
    (stamp_bytes_length g Hid) Hx Hdd Hm Hh Hrl eq_refl) as Hseal.
  rewrite <- !app_assoc in Hseal. rewrite <- !app_assoc. exact Hseal.
Qed.

Lemma finish_v2 (pre : Z -> list Z) rl (b filling x dd m rest head : list Z) g :
  (forall z, length (pre z) = 6%nat) -> length b = length (field rl) ->
  Z.of_nat (length (field rl) + length filling) = rl -> 0 <= rl <= 1024 -> identity (local_client_id g) ->
  length x = 12%nat -> length dd = length head -> length m = 10%nat -> Z.of_nat (length head) < 2 ^ 31 ->
  let payload := stamp_bytes_v2 g ++ head in
  (outdata ← put_filling (pre (hsize rl payload) ++ b ++ filling ++ x ++ dd ++ m ++ rest) 6 rl;
   id ← mread (local_client_id g) 0 8;
   outdata ← mwrite outdata (rl + 4 + 2) id;
   outdata ← memintcopy_lt outdata (rl + 4 + 2 + 8) (connection_id g);
   outdata ← mwrite outdata (rl + 4 + 2 + 12) head;
   seal sha1_hmac enc_iv_len enc_key server outdata (hsize rl payload))
  = Some ((header_body pre field rl filling payload ++ take 10 (mac (header_body pre field rl filling payload))) ++ rest).
Proof using SL.
  intros Hp Hb Hfl Hrl [Hid _] Hx Hdd Hm Hh payload. rewrite put_field_6 by (done || lia). cbn [mbind option_bind].
  rewrite mread_in by lia. change (Z.to_nat 0) with 0%nat. change (Z.to_nat 8) with 8%nat.
  rewrite drop_0, take_ge by lia. cbn [mbind option_bind].
  destruct (split_block x 8) as (x1 & x2 & -> & Hx1); [lia|]. rewrite length_app in Hx. unfold memintcopy_lt.
  rewrite (app_assoc (field rl)), (app_assoc (pre _)), <- (app_assoc x1).
  rewrite mwrite_app; [|rewrite !length_app, Hp; lia|lia]. cbn [mbind option_bind].
  rewrite (app_assoc _ (local_client_id g)).
  rewrite mwrite_app; [|rewrite !length_app, Hp; lia|cbn [length le_bytes]; lia]. cbn [mbind option_bind].
  assert (length (stamp_bytes_v2 g) = 12%nat) as H12
    by (unfold stamp_bytes_v2; rewrite length_app; cbn [length le_bytes]; lia).
  pose proof (seal_payload pre field rl filling (x1 ++ x2) dd m rest (stamp_bytes_v2 g) head _ Hfl (Hp _)
    H12 ltac:(rewrite length_app; lia) Hdd Hm Hh Hrl eq_refl) as Hseal.
  unfold stamp_bytes_v2 in Hseal, payload. rewrite <- !app_assoc in Hseal. unfold payload.
  rewrite <- !app_assoc. exact Hseal.
Qed.

Lemma sha1_v4_header g r head room :
  identity (rand_id e) -> wf_global g -> Z.of_nat (length head) <= 2000 ->
  Z.of_nat (length head) + 1052 <= Z.of_nat (length room) -> packs auth_sha1_v4 g r head room.
Proof using SL.
  intros He Hg Hl Hroom. cbn [pack_auth_data header_of header_slack]. unfold auth_sha1_v4_pack_auth_data.
  pose proof (next_connection_wf g He Hg) as [Hid _]. set (g' := next_connection e g) in *.
  pose proof (long_filling_range r (Z.of_nat (length head))) as [Hrl _].
  destruct (long_filling _ _) as [rl r']. cbn [fst] in *.
  destruct (header_room rl (length (field rl)) head room (field_fits rl ltac:(lia)))
    as (a & b & filling & x & dd & m & rest & -> & Ha & Hb & Hfl & Hx12 & Hdd & Hm); [lia..|].
  pose proof (stamp_bytes_length g' Hid) as H12.
  set (payload := stamp_bytes g' ++ head).
  assert (length payload = (12 + length head)%nat) as Hpl by (unfold payload; rewrite length_app; lia).
  replace (rl + 4 + 2 + Z.of_nat (length head) + 12 + 10) with (hsize rl payload) by (unfold hsize; lia).
  set (size := hsize rl payload).
  set (body := header_body pre_sha1_v4 field rl filling payload).
  pose proof (sealed_length pre_sha1_v4 field rl filling payload ltac:(done) Hfl) as Hlen. fold body size in Hlen.
  exists (body ++ take 10 (mac body)), r'. split_and!; [|exists rl, filling; split_and!; [done|done|lia|lia]|].
  - pose proof (put_pre_sha1_v4 size a (b ++ filling ++ x ++ dd ++ m ++ rest) Ha) as Hpre.
    destruct (wr (a ++ _) 0 _) as [o1|]; [|done]. cbn [mbind option_bind] in *.
    destruct (wr o1 1 _) as [o2|]; [|done]. cbn [mbind option_bind] in *.
    destruct (fillcrc32to _ _ _ _) as [o3|]; [|done]. cbn [mbind option_bind] in *.
    apply (f_equal (default [])) in Hpre. unfold default, id in Hpre. rewrite Hpre.
    pose proof (finish_v4 pre_sha1_v4 rl b filling x dd m rest head g' ltac:(done) Hb Hfl ltac:(lia) Hid Hx12 Hdd Hm ltac:(lia)) as Hfin.
    cbv zeta in Hfin. fold payload size body in Hfin. walk Hfin. rewrite Hfin. cbn [mbind option_bind]. rewrite Hlen. do 4 f_equal.
    rewrite sealed_drop; [done|].
    apply Nat2Z.inj. rewrite Hlen, !length_app. unfold size, hsize. lia.
  - rewrite Hlen. unfold size, hsize. lia.
Qed.

Lemma sha1_v2_header g r head room :
  identity (rand_id e) -> wf_global g -> Z.of_nat (length head) <= 2000 ->
  Z.of_nat (length head) + 1052 <= Z.of_nat (length room) -> packs auth_sha1_v2 g r head room.
Proof using SL.
  intros He Hg Hl Hroom. cbn [pack_auth_data header_of header_slack]. unfold auth_sha1_v2_pack_auth_data.
  pose proof (next_connection_wf g He Hg) as [Hid _]. set (g' := next_connection e g) in *.
  pose proof (long_filling_range r (Z.of_nat (length head))) as [Hrl _].
  destruct (long_filling _ _) as [rl r']. cbn [fst] in *.
  destruct (header_room rl (length (field rl)) head room (field_fits rl ltac:(lia)))
    as (a & b & filling & x & dd & m & rest & -> & Ha & Hb & Hfl & Hx12 & Hdd & Hm); [lia..|].
  set (payload := stamp_bytes_v2 g' ++ head).
  assert (length payload = (12 + length head)%nat) as Hpl.
  { destruct Hid as [Hid _]. unfold payload, stamp_bytes_v2. rewrite !length_app. cbn [length le_bytes]. lia. }
  replace (rl + 4 + 2 + Z.of_nat (length head) + 12 + 10) with (hsize rl payload) by (unfold hsize; lia).
  set (size := hsize rl payload).
  set (pre := pre_sha1 "auth_sha1_v2").
  set (body := header_body pre field rl filling payload).
  pose proof (sealed_length pre field rl filling payload ltac:(done) Hfl) as Hlen. fold body size in Hlen.
  exists (body ++ take 10 (mac body)), r'. split_and!; [|exists rl, filling; split_and!; [done|done|lia|lia]|].
  - pose proof (put_pre_sha1 "auth_sha1_v2" size a (b ++ filling ++ x ++ dd ++ m ++ rest) ltac:(done) Ha) as Hpre.
    destruct (fillcrc32to _ _ _ _) as [o1|]; [|done]. cbn [mbind option_bind] in *.
    destruct (wr o1 4 _) as [o2|]; [|done]. cbn [mbind option_bind] in *. rewrite Hpre. fold pre. cbn [mbind option_bind].
    pose proof (finish_v2 pre rl b filling x dd m rest head g' ltac:(done) Hb Hfl ltac:(lia) Hid Hx12 Hdd Hm ltac:(lia)) as Hfin.
    cbv zeta in Hfin. fold payload size body in Hfin. walk Hfin. rewrite Hfin. cbn [mbind option_bind]. rewrite Hlen. do 4 f_equal.
    rewrite sealed_drop; [done|].
    apply Nat2Z.inj. rewrite Hlen, !length_app. unfold size, hsize. lia.
  - rewrite Hlen. unfold size, hsize. lia.
Qed.

(** Every plugin keeps what a header promises, for heads of up to 2000 bytes. *)
Lemma header_spec pl g r :
  identity (rand_id e) -> wf_global g ->
  auth_spec (pack_auth_data crc_table e sha1_hmac enc_iv_len enc_key server pl) (header_slack pl) 2000
    (fun g _ head f g' _ => g' = next_connection e g /\ header_of pl g' head f) g r.
Proof using SL.
  intros He Hg head room Hh Hr Hl Hroom.
  assert (packs pl g r head room) as (f & r' & Hp & Hf & Hlen).
  { destruct pl; cbn [header_slack] in Hroom.
    - by apply simple_header.
    - by apply sha1_header.
    - by apply sha1_v2_header.
    - by apply sha1_v4_header. }
  exists f, (next_connection e g), r'. by split_and!.
Qed.

Lemma slacks pl : slack_of_frame pl + header_slack pl <= slack_of pl.
Proof using Type. by destruct pl. Qed.

(** C11: what a client of auth_simple, auth_sha1, auth_sha1_v2 or auth_sha1_v4 sends
    is a header packet that carries the time or the identity, the connection's
    number and the head of the first message, with the CRC or the MAC and the
    sizes the plugin prescribes, and after it frames that the receiving side of
    the same plugin turns back into the rest of the messages, in any segmentation
    of the stream; the client's connection counter has advanced by one. *)
Theorem auth_client_stream pl signed_char malloc scap rcap g r m msgs segs head_size :
  MallocLaws malloc -> identity (rand_id e) -> wf_global g ->
  m <> [] -> is_bytes m -> Z.of_nat (length m) < 2 ^ 62 -> Forall is_bytes msgs ->
  get_head signed_char m = Some head_size -> 0 <= head_size <= 2000 ->
  Forall (fun seg => Z.of_nat (length seg) <= 8192) segs ->
  let n := Z.to_nat (head_size `min` Z.of_nat (length m)) in
  exists f wire r',
    header_of pl (next_connection e g) (take n m) f /\
    @client_send_all _ _ (plugin_packing crc_table pl)
      (pack_auth_data crc_table e sha1_hmac enc_iv_len enc_key server pl) (get_head signed_char)
      malloc (slack_of pl) scap (mkClient false g r) (m :: msgs)
    = Some (f ++ wire, mkClient true (next_connection e g) r') /\
    (concat segs = wire ->
     @feed _ (plugin_framing crc_table pl) rcap NoLocal [] segs = Some (drop n m ++ concat msgs, [], NoLocal)).
Proof using SL.
  intros Hm He Hg Hne Hb H62 Hmsgs Hget Hh Hsegs n. pose proof (slacks pl) as Hsl.
  destruct (client_transport (F := plugin_framing crc_table pl) (P := plugin_packing crc_table pl)
    malloc (pack_auth_data crc_table e sha1_hmac enc_iv_len enc_key server pl) (get_head signed_char)
    (header_slack pl) 2000 (fun g _ head f g' _ => g' = next_connection e g /\ header_of pl g' head f)
    (slack_of pl) scap rcap g r NoLocal m msgs segs head_size)
    as (f & g1 & t1 & wire & t' & s' & [-> Hf] & _ & Hsend & Hfeed); try done.
  - by apply header_spec.
  - by destruct pl.
  - by destruct pl.
  - exists f, wire, t'. split_and!; [exact Hf|exact Hsend|]. destruct s'. exact Hfeed.
Qed.

End HeaderLaws.

(** A server, a client and a request for an IPv4 address with some data. *)
Definition server_example : server_info := mkServer None (replicate 16 7) (bytes_of "secret").
Definition global_example : auth_simple_global_data := mkGlobal [1; 2; 3; 4; 5; 6; 7; 8] 41.
Definition surroundings_example : surroundings := mkSurr 1500000000 [9; 9; 9; 9; 9; 9; 9; 9] 5.
Definition request_example : list Z := [1; 127; 0; 0; 1; 0; 80] ++ bytes_of "GET /".

Lemma auth_client_stream_witness :
  get_head true request_example = Some 7 /\
  exists f wire r',
    header_of surroundings_example (fun _ _ => replicate 20 0) 16 [] server_example auth_sha1_v4
      (mkGlobal [1; 2; 3; 4; 5; 6; 7; 8] 42) [1; 127; 0; 0; 1; 0; 80] f /\
    @client_send_all _ _ (plugin_packing crc_table auth_sha1_v4)
      (pack_auth_data crc_table surroundings_example (fun _ _ => replicate 20 0) 16 [] server_example auth_sha1_v4)
      (get_head true) (fun n => replicate (Z.to_nat n) 170) 4096 64
      (mkClient false global_example (init_shift128plus 5)) [request_example]
    = Some (f ++ wire, mkClient true (mkGlobal [1; 2; 3; 4; 5; 6; 7; 8] 42) r').
Proof.
  split; [reflexivity|].
  assert (is_bytes request_example) as Hb by (vm_compute; repeat constructor; congruence).
  destruct (auth_client_stream surroundings_example (fun _ _ => replicate 20 0) 16 [] server_example
    (SL := ltac:(split; [reflexivity|split; [split|]; simpl; lia|vm_compute; repeat constructor; congruence|simpl; lia]))
    auth_sha1_v4 true (fun n => replicate (Z.to_nat n) 170) 64 64 global_example (init_shift128plus 5) request_example [] [] 7)
    as (f & wire & r' & Hf & Hs & _).
  - exact malloc_example.
  - split; [reflexivity|repeat constructor; lia].
  - split; [split; [reflexivity|repeat constructor; lia]|simpl; lia].
  - discriminate.
  - exact Hb.
  - simpl. lia.
  - constructor.
  - reflexivity.
  - lia.
  - constructor.
  - exists f, wire, r'. split; [exact Hf|exact Hs].
Defined.

(** On a target whose plain [char] is signed, a first message for a host name
    of 128 to 251 bytes makes every one of these plugins copy a negative number of
    bytes. *)
Theorem auth_long_host_name pl e sha1_hmac enc_iv_len enc_key server malloc slack cap g r len rest :
  128 <= len < 252 -> Z.of_nat (length rest) < 2 ^ 62 ->
  @client_pre_encrypt _ _ (plugin_packing crc_table pl)
    (pack_auth_data crc_table e sha1_hmac enc_iv_len enc_key server pl) (get_head true)
    malloc slack (mkClient false g r) (3 :: len :: rest) cap = None.
Proof.
  intros Hlen Hrest. unfold client_pre_encrypt, pack_head. cbn [has_sent_header negb].
  rewrite (proj2 (Z.ltb_lt 0 _)) by (cbn [length]; lia). cbn [andb].
  assert (get_head true (3 :: len :: rest) = Some (len - 252)) as ->.
  { unfold get_head, get_head_size. rewrite (proj2 (Z.ltb_ge _ 2)) by (cbn [length]; lia).
    change ((3 :: len :: rest) @! 0) with (Some 3). change ((3 :: len :: rest) @! 1) with (Some len).
    cbn [mbind option_bind]. change (Z.land (cval true 3) 7) with 3. change (3 =? 1) with false.
    change (3 =? 4) with false. change (3 =? 3) with true. cbv iota. f_equal.
    unfold cval, s8, sgn. rewrite Z.mod_small by lia. rewrite (proj2 (Z.ltb_ge _ _)) by (simpl; lia). lia. }
  cbn [mbind option_bind]. rewrite (proj2 (Z.ltb_ge _ _)) by (cbn [length]; lia).
  rewrite mread_negative by (cbn [length]; lia). done.
Qed.

Lemma auth_long_host_name_witness :
  @client_pre_encrypt _ _ (plugin_packing crc_table auth_sha1)
    (pack_auth_data crc_table surroundings_example (fun _ _ => replicate 20 0) 16 [] server_example auth_sha1)
    (get_head true) (fun n => replicate (Z.to_nat n) 170) 256
    (mkClient false global_example (init_shift128plus 5)) (3 :: 200 :: replicate 202 97) 4096 = None.
Proof. apply (auth_long_host_name auth_sha1); [lia|simpl; lia]. Defined.

End Auth.
