(* ===== verification/AuthAes.v ===== *)
(** * AuthAes: auth_aes128 of shadowsocksr-libev

    Models the last part of src/server/auth.c, the plugins auth_aes128_md5 and
    auth_aes128_sha1, with what they use of encrypt.c.  Every packet has two MACs
    and is numbered, and the number is part of the key, so the two sides must keep
    step; the first packet names the user, under a key derived from the user's
    password.  The MAC, the hash functions and the block cipher belong to a
    cryptographic library and are parameters. *)

From S2P Require Import Prelude Libc Base64 Crc Framing Verify Auth.

Import Libc Base64 Crc Framing Obfsutil Verify Auth.

Module AuthAes.

(** ** Frames

    [hmac key msg] is the MAC; packets are numbered, and the number is part of the
    key. *)
Section Aes128.
Context (hmac : list Z -> list Z -> list Z) (malloc : Z -> list Z).

(** [key]: the user's key and the number of the packet. *)
Definition packet_key (ukey : list Z) (key_len id : Z) : option (list Z) :=
  key ← mwrite (malloc key_len) 0 ukey; memintcopy_lt key (key_len - 4) id.

(** The part of the local data that sending uses, and the random numbers;
    [rand_bytes id n]: the random bytes for packet [id]. *)
Record aes_sender := mkSender { pack_rng : rng; pack_id : Z; uid : list Z; user_key : option (list Z) }.
Context (rand_bytes : Z -> Z -> list Z).

Definition aes_filling (r : rng) (id datalength : Z) : Z * rng :=
  if 1200 <? datalength then (1, r) else
  let '(x, r) := xorshift128plus r in
  if 4 <? id then (Z.land x 32 + 1, r)
  else if 900 <? datalength then (Z.land x 128 + 1, r)
  else (Z.land x 512 + 1, r).

(** The filling's length, low byte first. *)
Definition put_filling_le (outdata : list Z) (i rand_len : Z) : option (list Z) :=
  if rand_len <? 128 then wr outdata i rand_len
  else
    outdata ← wr outdata i 255;
    outdata ← wr outdata (i + 1) (u8 rand_len);
    wr outdata (i + 2) (u8 (Z.shiftr rand_len 8)).

Definition auth_aes128_sha1_pack_data (t : aes_sender) (data outdata : list Z)
    : option (list Z * Z * aes_sender) :=
  let datalength := Z.of_nat (length data) in
  let '(rand_len, r) := aes_filling (pack_rng t) (pack_id t) datalength in
  let out_size := rand_len + datalength + 8 in
  outdata ← mwrite outdata (rand_len + 4) data;
  outdata ← wr outdata 0 (u8 out_size);
  outdata ← wr outdata 1 (u8 (Z.shiftr out_size 8));
  let ukey := default [] (user_key t) in
  let key_len := u8 (Z.of_nat (length ukey) + 4) in
  key ← packet_key ukey key_len (pack_id t);
  outdata ← mwrite outdata 4 (rand_bytes (pack_id t) rand_len);
  m2 ← mread outdata 0 2;
  outdata ← mwrite outdata 2 (take 2 (hmac key m2));
  outdata ← put_filling_le outdata 4 rand_len;
  let t := mkSender r (u32 (pack_id t + 1)) (uid t) (user_key t) in
  m ← mread outdata 0 (out_size - 4);
  outdata ← mwrite outdata (out_size - 4) (take 4 (hmac key m));
  Some (outdata, out_size, t).

(** [recv_id] is the state of the receiver. *)
Definition auth_aes128_sha1_parse (ukey : list Z) (recv_id : Z) (recv_buffer : list Z) : option (verdict Z) :=
  key ← packet_key ukey (Z.of_nat (length ukey) + 4) recv_id;
  m2 ← mread recv_buffer 0 2;
  h2 ← mread recv_buffer 2 2;
  if negb (bool_decide (take 2 (hmac key m2) = h2)) then Some Bad else
  b1 ← recv_buffer @! 1; b0 ← recv_buffer @! 0;
  let length := Z.shiftl b1 8 + b0 in
  if (8192 <=? length) || (length <? 8) then Some Bad else
  if Z.of_nat (List.length recv_buffer) <? length then Some Wait else
  m ← mread recv_buffer 0 (length - 4);
  h4 ← mread recv_buffer (length - 4) 4;
  if negb (bool_decide (take 4 (hmac key m) = h4)) then Some Bad else
  let recv_id := u32 (recv_id + 1) in
  p ← recv_buffer @! 4;
  filling ← (if p <? 255 then Some p
             else hi ← recv_buffer @! 6; lo ← recv_buffer @! 5; Some (Z.lor (Z.shiftl hi 8) lo));
  let pos := filling + 4 in
  data ← mread recv_buffer pos (length - pos - 4);
  Some (Took length data recv_id).

End Aes128.

#[export] Instance auth_aes128_framing hmac ukey malloc : Framing Z :=
  { min_size := 4; parse := auth_aes128_sha1_parse hmac malloc ukey }.

#[export] Instance auth_aes128_packing hmac malloc rand_bytes : Packing aes_sender :=
  auth_aes128_sha1_pack_data hmac malloc rand_bytes.

Definition auth_aes128_sha1_client_post_decrypt hmac ukey malloc :=
  @post_decrypt _ (auth_aes128_framing hmac ukey malloc).

(** ** The packet that opens a connection *)

(** What a call gets from outside: the time and the random bytes, those for the
    identity of a user without a password, for a filling and for the first byte. *)
Record aes_surroundings := mkAesSurr {
  surr : surroundings; rand_uid : list Z; rand_fill : Z -> list Z; rand_first : Z }.

(** [strtol(s, NULL, 10)] on a memory object: [None] when the number runs to its
    end. *)
Fixpoint strtol_digits (buf : list Z) (acc : Z) : option Z :=
  match buf with
  | [] => None
  | c :: buf => if (48 <=? c) && (c <=? 57) then strtol_digits buf (acc * 10 + (c - 48)) else Some acc
  end.
Fixpoint strtol (long_max : Z) (buf : list Z) : option Z :=
  match buf with
  | [] => None
  | c :: rest =>
      if isspace c then strtol long_max rest
      else if c =? chr "-" then n ← strtol_digits rest 0; Some (Z.max (- n) (- long_max - 1))
      else if c =? chr "+" then n ← strtol_digits rest 0; Some (Z.min n long_max)
      else n ← strtol_digits buf 0; Some (Z.min n long_max)
  end.

(** What is before and behind the first [':']: [strchr]. *)
Fixpoint split_colon (s : list Z) : option (list Z * list Z) :=
  match s with
  | [] => None
  | c :: s =>
      if c =? chr ":" then Some ([], s)
      else r ← split_colon s; let '(a, b) := r : list Z * list Z in Some (c :: a, b)
  end.

Section Opening.
Context (hmac : list Z -> list Z -> list Z).
(** The hash of the plugin with its length, the name that salts the key, MD5, and
    AES in CBC mode: key, initialisation vector, data. *)
Context (hash : list Z -> list Z) (hash_len : Z) (salt : list Z).
Context (md5 : list Z -> list Z) (aes_cbc : list Z -> list Z -> list Z -> list Z).
Context (long_max : Z) (server : server_info).

(** [enc_md5] over what was hashed so far and the password; [i] bytes of the key
    are there.  [result] is an object of 128 bytes, the key one of [md_size]. *)
Fixpoint bytes_to_key_loop (fuel : nat) (pass result md : list Z) (i md_size : Z) : option (list Z) :=
  match fuel with
  | O => None
  | S fuel =>
      if i <? md_size then
        if (16 + Z.of_nat (length pass) <=? 128) && (i + 16 <=? md_size) then
          let result := take 16 (md5 (result ++ pass)) in
          bytes_to_key_loop fuel pass result (md ++ result) (i + 16) md_size
        else None
      else Some md
  end.
Definition bytes_to_key_with_size (pass : list Z) (md_size : Z) : option (list Z) :=
  let result := take 16 (md5 pass) in
  bytes_to_key_loop (S (Z.to_nat md_size)) pass result result 16 md_size.

Definition ss_aes_128_cbc (encrypt key : list Z) : list Z := take 16 (aes_cbc key (replicate 16 0) encrypt).

(** The user's number and key from the parameter ["uid:password"], or random
    and the server's key. *)
Definition init_user_key (e : aes_surroundings) (t : aes_sender) : option (list Z * list Z) :=
  match user_key t with
  | Some k => Some (uid t, k)
  | None =>
      let otherwise := Some (rand_uid e, key server) in
      match param server with
      | Some ((_ :: _) as param) =>
          match split_colon param with
          | Some (u, p) =>
              if (16 <? Z.of_nat (length u)) || (128 <=? Z.of_nat (length p)) then None else
              uid_long ← strtol long_max (u ++ replicate (16 - length u) 0);
              Some (le_bytes (u32 uid_long), take (Z.to_nat hash_len) (hash p))
          | None => otherwise
          end
      | _ => otherwise
      end
  end.

(** The key that encrypts the first packet: from the user's key in base 64 and
    the salt. *)
Definition encrypt_key (ukey : list Z) : option (list Z) :=
  base64 ← base64_encode ukey (Z.of_nat (length ukey)) (replicate 256 0);
  let base64_len := (Z.of_nat (length ukey) + 2) / 3 * 4 in
  base64 ← mwrite base64 base64_len salt;
  pass ← mread base64 0 (base64_len + Z.of_nat (length salt));
  bytes_to_key_with_size pass 16.

Definition auth_aes128_sha1_pack_auth_data (e : aes_surroundings) (g : auth_simple_global_data) (t : aes_sender)
    (data outdata : list Z) : option (list Z * Z * auth_simple_global_data * aes_sender) :=
  let datalength := Z.of_nat (length data) in
  let '(x, r) := xorshift128plus (pack_rng t) in
  let rand_len := if 400 <? datalength then Z.land x 512 else Z.land x 1024 in
  let data_offset := rand_len + 16 + 4 + 4 + 7 in
  let out_size := data_offset + datalength + 4 in
  let key := iv server ++ key server in
  let key := take (Z.to_nat (u8 (Z.of_nat (length key)))) key in
  outdata ← mwrite outdata (data_offset - rand_len) (rand_fill e rand_len);
  let g := next_connection (surr e) g in
  id ← mread (local_client_id g) 0 4;
  let encrypt := le_bytes (u32 (now (surr e))) ++ id ++ le_bytes (u32 (connection_id g)) ++
                 [u8 out_size; u8 (Z.shiftr out_size 8); u8 rand_len; u8 (Z.shiftr rand_len 8)] in
  u ← init_user_key e t;
  let '(uid, ukey) := u : list Z * list Z in
  enc_key ← encrypt_key ukey;
  let encrypt := take 4 uid ++ ss_aes_128_cbc encrypt enc_key in
  let encrypt := encrypt ++ take 4 (hmac key encrypt) in
  outdata ← wr outdata 0 (rand_first e);
  outdata ← mwrite outdata 1 (take 6 (hmac key [rand_first e]));
  outdata ← mwrite outdata 7 encrypt;
  outdata ← mwrite outdata data_offset data;
  m ← mread outdata 0 (out_size - 4);
  outdata ← mwrite outdata (out_size - 4) (take 4 (hmac ukey m));
  Some (outdata, out_size, g, mkSender r (pack_id t) uid (Some ukey)).

Definition aes_get_head (plaindata : list Z) : option Z := Some 1200.

Definition auth_aes128_sha1_client_pre_encrypt (e : aes_surroundings) (malloc : Z -> list Z)
    (rand_bytes : Z -> Z -> list Z) :=
  @client_pre_encrypt _ _ (auth_aes128_packing hmac malloc rand_bytes)
    (auth_aes128_sha1_pack_auth_data e) aes_get_head malloc 4096.

(** ** Datagrams *)

Definition auth_aes128_sha1_client_udp_pre_encrypt (e : aes_surroundings) (t : aes_sender) (data : list Z) (cap : Z)
    : option (result * aes_sender) :=
  u ← init_user_key e t;
  let '(uid, ukey) := u : list Z * list Z in
  let out := data ++ take 4 uid in
  Some (give_back (out ++ take 4 (hmac ukey out)) cap, mkSender (pack_rng t) (pack_id t) uid (Some ukey)).

(** The length returned; the data stay where they are. *)
Definition auth_aes128_sha1_client_udp_post_decrypt (data : list Z) : Z :=
  let datalength := Z.of_nat (length data) in
  if datalength <=? 4 then 0 else
  let body := take (Z.to_nat (datalength - 4)) data in
  if bool_decide (take 4 (hmac (key server) body) = drop (Z.to_nat (datalength - 4)) data)
  then datalength - 4 else 0.

End Opening.

(** ** Frames with a MAC: auth_aes128 *)

(** What the MAC, the random source and memory are trusted with. *)
Class MacLaws (hmac : list Z -> list Z -> list Z) := {
  hmac_length key m : (16 <= length (hmac key m))%nat }.
Class RandLaws (rand_bytes : Z -> Z -> list Z) := {
  rand_length id n : length (rand_bytes id n) = Z.to_nat n }.

Definition field_le (rl : Z) : list Z :=
  if rl <? 128 then [rl] else [255; u8 rl; u8 (Z.shiftr rl 8)].

Lemma field_le_length rl : length (field_le rl) = length (field rl).
Proof. unfold field_le, field. by destruct (rl <? 128). Qed.

Lemma put_field_le a b c rl :
  length b = length (field_le rl) ->
  put_filling_le (a ++ b ++ c) (Z.of_nat (length a)) rl = Some (a ++ field_le rl ++ c).
Proof.
  intros Hb. unfold put_filling_le, field_le in *. destruct (rl <? 128).
  - destruct b as [|x [|]]; try done. cbn [app]. by rewrite wr_app by done.
  - destruct b as [|x [|y [|z [|]]]]; try done. cbn [app].
    rewrite wr_app by done. cbn [mbind option_bind].
    replace (a ++ 255 :: y :: z :: c) with ((a ++ [255]) ++ y :: z :: c) by list_assoc.
    rewrite wr_app by (rewrite length_app; cbn [length]; lia). cbn [mbind option_bind].
    replace ((a ++ [255]) ++ u8 rl :: z :: c) with ((a ++ [255; u8 rl]) ++ z :: c) by list_assoc.
    rewrite wr_app by (rewrite length_app; cbn [length]; lia). f_equal. list_assoc.
Qed.

Lemma two_bytes_add n : 0 <= n < 65536 -> Z.shiftl (u8 (Z.shiftr n 8)) 8 + u8 n = n.
Proof.
  intros Hn. unfold u8. rewrite Z.shiftr_div_pow2, Z.shiftl_mul_pow2 by lia. change (2 ^ 8) with 256.
  pose proof (Z.div_mod n 256). rewrite (Z.mod_small (n / 256)); [lia|].
  pose proof (Z.mod_pos_bound n 256). lia.
Qed.

Section Aes128Laws.
Context (hmac : list Z -> list Z -> list Z) `{!MacLaws hmac} (ukey : list Z).
Context (malloc : Z -> list Z) `{!MallocLaws malloc}.
Context (rand_bytes : Z -> Z -> list Z) `{!RandLaws rand_bytes}.

Definition key_of (id : Z) : list Z := ukey ++ le_bytes id.

Lemma packet_key_spec id :
  0 <= id < 2 ^ 32 -> packet_key malloc ukey (Z.of_nat (length ukey) + 4) id = Some (key_of id).
Proof using MallocLaws0.
  intros Hid. unfold packet_key, memintcopy_lt. rewrite u32_id by done.
  destruct (split_block (malloc (Z.of_nat (length ukey) + 4)) (length ukey)) as (a & b & Hm & Ha).
  { rewrite malloc_length. lia. }
  assert (length b = 4%nat) as Hb.
  { apply (f_equal length) in Hm. rewrite malloc_length, length_app in Hm. lia. }
  rewrite Hm. rewrite (mwrite_app [] a b) by (cbn [length]; lia). cbn [mbind option_bind app].
  rewrite <- (app_nil_r b). rewrite (mwrite_app ukey b []) by (cbn [length le_bytes]; lia).
  by rewrite app_nil_r.
Qed.

(** The bytes of a frame before its MAC. *)
Definition aes_size (rl : Z) (d : list Z) : Z := rl + Z.of_nat (length d) + 8.
Definition aes_body (id rl : Z) (filling d : list Z) : list Z :=
  let size := [u8 (aes_size rl d); u8 (Z.shiftr (aes_size rl d) 8)] in
  size ++ take 2 (hmac (key_of id) size) ++ field_le rl ++ filling ++ d.
Definition aes_frame (id : Z) (f d : list Z) : Prop :=
  exists rl filling,
    f = aes_body id rl filling d ++ take 4 (hmac (key_of id) (aes_body id rl filling d)) /\
    Z.of_nat (length (field_le rl) + length filling) = rl /\ aes_size rl d < 8192.

Lemma aes_body_length id rl filling d :
  Z.of_nat (length (field_le rl) + length filling) = rl ->
  Z.of_nat (length (aes_body id rl filling d)) = aes_size rl d - 4.
Proof using MacLaws0.
  intros Hl. unfold aes_body, aes_size. rewrite !length_app, length_take.
  pose proof (hmac_length (key_of id) [u8 (aes_size rl d); u8 (Z.shiftr (aes_size rl d) 8)]).
  cbn [length]. unfold aes_size in *. lia.
Qed.

Lemma aes_frame_length id f d :
  aes_frame id f d -> exists rl, Z.of_nat (length f) = aes_size rl d /\ 1 <= rl /\ aes_size rl d < 8192.
Proof using MacLaws0.
  intros (rl & filling & -> & Hl & Hs). exists rl.
  rewrite length_app, length_take, Nat2Z.inj_add, (aes_body_length id rl filling d Hl).
  pose proof (hmac_length (key_of id) (aes_body id rl filling d)).
  rewrite field_le_length, field_length in Hl. destruct (rl <? 128); lia.
Qed.

Notation aes_parse := (auth_aes128_sha1_parse hmac malloc ukey).

(** What the receiver reads off a frame, and off a piece of one that has its
    first four bytes. *)
Lemma aes_head id f d p q :
  aes_frame id f d -> f = p ++ q -> 4 < Z.of_nat (length p) -> exists rl,
    Z.of_nat (length f) = aes_size rl d /\ 1 <= rl /\ aes_size rl d < 8192 /\
    mread p 0 2 = Some [u8 (aes_size rl d); u8 (Z.shiftr (aes_size rl d) 8)] /\
    mread p 2 2 = Some (take 2 (hmac (key_of id) [u8 (aes_size rl d); u8 (Z.shiftr (aes_size rl d) 8)])) /\
    p @! 0 = Some (u8 (aes_size rl d)) /\ p @! 1 = Some (u8 (Z.shiftr (aes_size rl d) 8)).
Proof using MacLaws0.
  intros Hf Hpq Hp. destruct (aes_frame_length id f d Hf) as (rl0 & Hl0 & Hr0 & Hs0).
  destruct Hf as (rl & filling & Hf & Hl & Hs). exists rl.
  pose proof (hmac_length (key_of id) [u8 (aes_size rl d); u8 (Z.shiftr (aes_size rl d) 8)]) as Hh.
  set (size := [u8 (aes_size rl d); u8 (Z.shiftr (aes_size rl d) 8)]) in *.
  assert (rl = rl0) as <-.
  { pose proof (f_equal length Hf) as Hfl. rewrite length_app, length_take in Hfl.
    pose proof (hmac_length (key_of id) (aes_body id rl filling d)).
    pose proof (aes_body_length id rl filling d Hl). unfold aes_size in *. lia. }
  assert (exists r, p = size ++ take 2 (hmac (key_of id) size) ++ r) as [r ->].
  { exists (drop 4 p). rewrite app_assoc.
    assert (length (size ++ take 2 (hmac (key_of id) size)) = 4%nat) as H4
      by (rewrite length_app, length_take; cbn [length size]; lia).
    rewrite Hpq in Hf. unfold aes_body in Hf. fold size in Hf.
    apply (f_equal (take 4)) in Hf. rewrite take_app_le in Hf by lia.
    rewrite <- !app_assoc, (app_assoc size), <- H4, take_app_length in Hf.
    rewrite <- Hf at 1. rewrite H4. by rewrite take_drop. }
  split_and!; try done.
  - by apply mread_prefix.
  - apply mread_app; [done| |lia]. rewrite length_take. lia.
Qed.

Lemma aes_took id f d rest :
  0 <= id < 2 ^ 32 -> aes_frame id f d ->
  aes_parse id (f ++ rest) = Some (Took (Z.of_nat (length f)) d (u32 (id + 1))).
Proof using MacLaws0 MallocLaws0.
  intros Hid Hf. assert (exists p, p = f ++ rest) as [p Hp] by eauto. rewrite <- Hp.
  assert (4 < Z.of_nat (length f)) as H4.
  { destruct (aes_frame_length id f d Hf) as (? & ? & ? & ?). unfold aes_size in *. lia. }
  destruct (aes_head id f d f [] Hf ltac:(by rewrite app_nil_r) H4) as (rl & Hlen & Hr & Hs & H1 & H2 & H3 & H5).
  destruct Hf as (rl0 & filling & Hf & Hl & Hs0).
  set (body := aes_body id rl0 filling d) in *.
  pose proof (aes_body_length id rl0 filling d Hl) as Hbl. fold body in Hbl.
  pose proof (hmac_length (key_of id) body) as Hmac.
  assert (rl0 = rl) as ->.
  { apply (f_equal length) in Hf. rewrite length_app, length_take in Hf. unfold aes_size in *. lia. }
  assert (mread p 0 2 = mread f 0 2 /\ mread p 2 2 = mread f 2 2 /\ p @! 0 = f @! 0 /\ p @! 1 = f @! 1)
    as (E1 & E2 & E3 & E4).
  { rewrite Hp. split_and!; try (by rewrite rd_app_l by lia).
    all: rewrite !mread_in by (rewrite ?length_app; lia); f_equal;
      rewrite drop_app_le, take_app_le; [done| |]; rewrite ?length_drop; lia. }
  rewrite <- E1 in H1. rewrite <- E2 in H2. rewrite <- E3 in H3. rewrite <- E4 in H5. clear E1 E2 E3 E4.
  unfold auth_aes128_sha1_parse. rewrite packet_key_spec by done. cbn [mbind option_bind].
  rewrite H1. cbn [mbind option_bind]. rewrite H2. cbn [mbind option_bind].
  rewrite bool_decide_true by done. cbn [negb]. rewrite H5. cbn [mbind option_bind]. rewrite H3. cbn [mbind option_bind].
  rewrite two_bytes_add by (unfold aes_size in *; lia).
  rewrite (proj2 (Z.leb_gt 8192 _)), (proj2 (Z.ltb_ge _ 8)) by (unfold aes_size in *; lia). cbn [orb].
  rewrite (proj2 (Z.ltb_ge _ _)) by (rewrite Hp, length_app; lia).
  assert (p = body ++ take 4 (hmac (key_of id) body) ++ rest) as Hpb by (rewrite Hp, Hf; list_assoc).
  rewrite Hpb. rewrite mread_prefix by lia. cbn [mbind option_bind].
  rewrite mread_app by (rewrite ?length_take; lia). cbn [mbind option_bind].
  rewrite bool_decide_true by done. cbn [negb]. rewrite <- Hpb.
  assert (exists a, p = a ++ field_le rl ++ filling ++ d ++ (take 4 (hmac (key_of id) body) ++ rest) /\ length a = 4%nat)
    as (a & Ha & Hal).
  { eexists ([_; _] ++ take 2 (hmac (key_of id) [u8 (aes_size rl d); u8 (Z.shiftr (aes_size rl d) 8)])). split.
    - rewrite Hpb. unfold body, aes_body. list_assoc.
    - rewrite length_app, length_take. cbn [length].
      pose proof (hmac_length (key_of id) [u8 (aes_size rl d); u8 (Z.shiftr (aes_size rl d) 8)]). lia. }
  assert (mread p (rl + 4) (aes_size rl d - (rl + 4) - 4) = Some d) as Hd.
  { rewrite Ha. rewrite !app_assoc. rewrite <- (app_assoc _ d), <- (app_assoc _ (_ ++ _)).
    rewrite <- !app_assoc. rewrite (app_assoc a), (app_assoc (a ++ field_le rl)).
    apply mread_app; [rewrite !length_app; lia|unfold aes_size; lia|unfold aes_size in *; lia]. }
  unfold field_le in *. destruct (rl <? 128) eqn:E; zify_bool.
  - assert (p @! 4 = Some rl) as -> by (rewrite Ha; apply rd_app_mid; lia).
    cbn [mbind option_bind]. rewrite (proj2 (Z.ltb_lt rl 255)) by lia. cbn [mbind option_bind].
    rewrite Hd, Hlen. done.
  - assert (p @! 4 = Some 255 /\ p @! 5 = Some (u8 rl) /\ p @! 6 = Some (u8 (Z.shiftr rl 8))) as (-> & -> & ->).
    { rewrite Ha. do 5 (destruct a as [|? a]; try done). }
    cbn [mbind option_bind]. change (255 <? 255) with false. cbn [mbind option_bind].
    rewrite two_bytes by (unfold aes_size in *; lia). rewrite Hd, Hlen. done.
Qed.

Lemma aes_wait id f d p q :
  0 <= id < 2 ^ 32 -> aes_frame id f d -> f = p ++ q -> q <> [] -> 4 < Z.of_nat (length p) ->
  aes_parse id p = Some Wait.
Proof using MacLaws0 MallocLaws0.
  intros Hid Hf Hpq Hq Hp. destruct (aes_head id f d p q Hf Hpq Hp) as (rl & Hlen & Hr & Hs & H1 & H2 & H3 & H5).
  unfold auth_aes128_sha1_parse. rewrite packet_key_spec by done. cbn [mbind option_bind].
  rewrite H1. cbn [mbind option_bind]. rewrite H2. cbn [mbind option_bind].
  rewrite bool_decide_true by done. cbn [negb]. rewrite H5. cbn [mbind option_bind]. rewrite H3. cbn [mbind option_bind].
  rewrite two_bytes_add by (unfold aes_size in *; lia).
  rewrite (proj2 (Z.leb_gt 8192 _)), (proj2 (Z.ltb_ge _ 8)) by (unfold aes_size in *; lia). cbn [orb].
  rewrite (proj2 (Z.ltb_lt _ _)); [done|]. apply (f_equal length) in Hpq. rewrite length_app in Hpq.
  destruct q; [done|]. cbn [length] in Hpq. lia.
Qed.

Lemma aes_filling_range r id n :
  1 <= fst (aes_filling r id n) <= 513 /\ (1200 < n -> fst (aes_filling r id n) = 1).
Proof using Type.
  unfold aes_filling. case_bool; [simpl; lia|].
  pose proof (xorshift_low r 32 ltac:(lia)). pose proof (xorshift_low r 128 ltac:(lia)).
  pose proof (xorshift_low r 512 ltac:(lia)).
  destruct (xorshift128plus r) as [x r']. cbn [fst] in *. repeat case_bool; cbn [fst]; lia.
Qed.

Lemma aes_pack t data room :
  user_key t = Some ukey -> (length ukey < 252)%nat -> 0 <= pack_id t < 2 ^ 32 -> (0 < length data <= PACK_UNIT)%nat ->
  Z.of_nat (length data) + 8 + fst (aes_filling (pack_rng t) (pack_id t) (Z.of_nat (length data)))
    <= Z.of_nat (length room) ->
  exists f r', auth_aes128_sha1_pack_data hmac malloc rand_bytes t data room
    = Some (f ++ drop (length f) room, Z.of_nat (length f), mkSender r' (u32 (pack_id t + 1)) (uid t) (Some ukey)) /\
    aes_frame (pack_id t) f data /\
    Z.of_nat (length f) = Z.of_nat (length data) + 8 + fst (aes_filling (pack_rng t) (pack_id t) (Z.of_nat (length data))).
Proof using MacLaws0 MallocLaws0 RandLaws0.
  intros Hut Huk Hid Hl Hroom. unfold auth_aes128_sha1_pack_data. rewrite Hut. change (default [] (Some ukey)) with ukey. unfold PACK_UNIT in *.
  pose proof (aes_filling_range (pack_rng t) (pack_id t) (Z.of_nat (length data))) as [Hrl _].
  destruct (aes_filling _ _ _) as [rl r']. cbn [fst] in *.
  set (rnd := rand_bytes (pack_id t) rl).
  assert (length rnd = Z.to_nat rl) as Hrnd by apply rand_length.
  destruct (split_block rnd (length (field_le rl))) as (b0 & filling & Hrb & Hb0).
  { rewrite Hrnd, field_le_length. apply field_fits. lia. }
  assert (Z.of_nat (length (field_le rl) + length filling) = rl) as Hfl.
  { rewrite Hrb, length_app in Hrnd. lia. }
  destruct (split_block room 4) as (a & r1 & -> & Ha); [lia|]. rewrite length_app in Hroom.
  destruct (split_block r1 (Z.to_nat rl)) as (b & r2 & -> & Hb); [lia|]. rewrite length_app in Hroom.
  destruct (split_block r2 (length data)) as (dd & r3 & -> & Hd); [lia|]. rewrite length_app in Hroom.
  destruct (split_block r3 4) as (tail & rest & -> & Ht); [lia|].
  destruct a as [|a0 [|a1 [|a2 [|a3 [|]]]]]; try done.
  set (size := aes_size rl data). set (key := key_of (pack_id t)).
  set (body := aes_body (pack_id t) rl filling data).
  assert (Z.of_nat (length body) = size - 4) as Hbl by (apply aes_body_length; done).
  pose proof (hmac_length key body) as Hmac.
  pose proof (hmac_length key [u8 size; u8 (Z.shiftr size 8)]) as Hm2.
  set (h2 := take 2 (hmac key [u8 size; u8 (Z.shiftr size 8)])).
  assert (length h2 = 2%nat) as Hh2 by (unfold h2; rewrite length_take; lia).
  change (rl + Z.of_nat (length data) + 8) with size.
  replace (([a0; a1; a2; a3] ++ b ++ dd ++ tail ++ rest))
    with (([a0; a1; a2; a3] ++ b) ++ dd ++ (tail ++ rest)) by list_assoc.
  rewrite mwrite_app by (rewrite ?length_app; cbn [length]; lia). cbn [mbind option_bind app].
  rewrite wr_0. cbn [mbind option_bind]. rewrite wr_1. cbn [mbind option_bind].
  rewrite (u8_id (Z.of_nat (length ukey) + 4)), packet_key_spec by (done || lia). cbn [mbind option_bind].
  replace (u8 size :: u8 (Z.shiftr size 8) :: a2 :: a3 :: b ++ data ++ tail ++ rest)
    with ([u8 size; u8 (Z.shiftr size 8); a2; a3] ++ b ++ (data ++ tail ++ rest)) by done.
  fold rnd. rewrite mwrite_app by (rewrite ?Hrnd; cbn [length]; lia). cbn [mbind option_bind].
  replace ([u8 size; u8 (Z.shiftr size 8); a2; a3] ++ rnd ++ data ++ tail ++ rest)
    with ([u8 size; u8 (Z.shiftr size 8)] ++ [a2; a3] ++ (rnd ++ data ++ tail ++ rest)) by done.
  rewrite mread_prefix by done. cbn [mbind option_bind]. fold key. fold h2.
  rewrite mwrite_app by (rewrite ?Hh2; done). cbn [mbind option_bind].
  replace ([u8 size; u8 (Z.shiftr size 8)] ++ h2 ++ rnd ++ data ++ tail ++ rest)
    with (([u8 size; u8 (Z.shiftr size 8)] ++ h2) ++ b0 ++ (filling ++ data ++ tail ++ rest))
    by (rewrite Hrb; list_assoc).
  assert (Z.of_nat (length ([u8 size; u8 (Z.shiftr size 8)] ++ h2)) = 4) as H4
    by (rewrite length_app, Hh2; done).
  pose proof (put_field_le ([u8 size; u8 (Z.shiftr size 8)] ++ h2) b0 (filling ++ data ++ tail ++ rest) rl Hb0) as Hput.
  rewrite H4 in Hput. rewrite Hput. cbn [mbind option_bind].
  replace ((([u8 size; u8 (Z.shiftr size 8)] ++ h2) ++ field_le rl ++ filling ++ data ++ tail ++ rest))
    with (body ++ tail ++ rest) by (unfold body, aes_body; fold size key h2; list_assoc).
  rewrite mread_prefix by (unfold size, aes_size in *; lia). cbn [mbind option_bind].
  rewrite mwrite_app by (rewrite ?length_take; lia). cbn [mbind option_bind].
  exists (body ++ take 4 (hmac key body)), r'. split_and!.
  - assert (length (body ++ take 4 (hmac key body)) = length ([a0; a1; a2; a3] ++ b ++ dd ++ tail)) as Hlen.
    { rewrite !length_app, length_take. cbn [length]. unfold size, aes_size in *. lia. }
    do 3 f_equal.
    + rewrite <- app_assoc. do 2 f_equal. rewrite Hlen.
      rewrite <- (drop_app_length ([a0; a1; a2; a3] ++ b ++ dd ++ tail) rest) at 1. f_equal. list_assoc.
    + rewrite Hlen, !length_app. cbn [length]. unfold size, aes_size. lia.
  - exists rl, filling. split_and!; [done|done|]. fold size. unfold size, aes_size. lia.
  - rewrite length_app, length_take. unfold size, aes_size in *. lia.
Qed.

#[export] Program Instance auth_aes128_laws :
    @FramingLaws Z (auth_aes128_framing hmac ukey malloc) :=
  {| frame_of id f d id' := 0 <= id < 2 ^ 32 /\ aes_frame id f d /\ id' = u32 (id + 1) |}.
Next Obligation. simpl. lia. Qed.
Next Obligation.
  intros id f d ? (Hid & Hf & _). destruct (aes_frame_length id f d Hf) as (rl & Hl & Hr & Hs).
  unfold aes_size in *. simpl. lia.
Qed.
Next Obligation. intros id f d ? rest (Hid & Hf & ->). by apply aes_took. Qed.
Next Obligation. intros id f d ? p q (Hid & Hf & _) Hpq Hq Hp. exact (aes_wait id f d p q Hid Hf Hpq Hq Hp). Qed.

(** The numbers of the packets keep step on both sides. *)
#[export] Program Instance auth_aes128_packing_laws `{!TCEq (length ukey <? 252)%nat true} :
    @PackingLaws Z aes_sender (auth_aes128_framing hmac ukey malloc) _
                 (auth_aes128_packing hmac malloc rand_bytes) :=
  {| agrees t s := user_key t = Some ukey /\ pack_id t = s /\ 0 <= s < 2 ^ 32; pack_slack := 521 |}.
Next Obligation.
  intros Hk t s data room (Hut & <- & Hid) Hd Hr Hl Hroom. apply TCEq_eq, Nat.ltb_lt in Hk. unfold PACK_UNIT in *.
  pose proof (aes_filling_range (pack_rng t) (pack_id t) (Z.of_nat (length data))) as [Hrl Hone].
  destruct (aes_pack t data room Hut Hk) as (f & r' & Hp & Hf & Hlen); [done|done|lia|].
  exists f, (mkSender r' (u32 (pack_id t + 1)) (uid t) (Some ukey)), (u32 (pack_id t + 1)).
  split; [exact Hp|]. split; [exact (conj Hid (conj Hf eq_refl))|]. split; [split_and!; [done|done|apply u32_range..]|lia].
Qed.

End Aes128Laws.

(** ** The first packet and the stream *)

Section OpeningLaws.
Context (hmac : list Z -> list Z -> list Z) `{!MacLaws hmac} (hash : list Z -> list Z) (hash_len : Z) (salt : list Z).
Context (md5 : list Z -> list Z) (aes_cbc : list Z -> list Z -> list Z -> list Z) (long_max : Z) (server : server_info).
Context (malloc : Z -> list Z) `{!MallocLaws malloc} (rand_bytes : Z -> Z -> list Z) `{!RandLaws rand_bytes}.
Context (e : aes_surroundings) (ukey uid' : list Z).

(** The cipher gives a block for a block; the random bytes are as many as asked
    for; the user's key and number are those of [init_user_key]. *)
Class OpeningPromises := {
  aes_block k iv b : (16 <= length b)%nat -> (16 <= length (aes_cbc k iv b))%nat;
  salt_size : (length salt <= 20)%nat;
  fill_size n : length (rand_fill e n) = Z.to_nat n;
  uid_size : length uid' = 4%nat;
  ukey_bytes : is_bytes ukey;
  ukey_size : (0 < length ukey <= 64)%nat;
  opening_id : identity (rand_id (surr e)) }.
Context {OP : OpeningPromises}.

Lemma encrypt_key_spec : encrypt_key salt md5 ukey = Some (take 16 (md5 (b64 ukey ++ salt))).
Proof using OP.
  unfold encrypt_key. pose proof ukey_size as Hk. pose proof salt_size as Hs.
  destruct (b64_size ukey) as (k & Hb & Hx).
  assert ((Z.of_nat (length ukey) + 2) / 3 = Z.of_nat k) as Hdiv.
  { symmetry. apply (Z.div_unique_pos _ _ _ (Z.of_nat (length ukey) + 2 - 3 * Z.of_nat k)); lia. }
  rewrite base64_encode_spec;
    [|exact ukey_bytes|destruct ukey; [simpl in Hk; lia|done]|rewrite length_replicate; lia|lia].
  cbn [mbind option_bind]. rewrite Hdiv.
  destruct (split_block (drop (length (b64 ukey)) (replicate 256 0)) (length salt)) as (a & r & Har & Ha).
  { rewrite length_drop, length_replicate. lia. }
  rewrite Har. rewrite mwrite_app by lia. cbn [mbind option_bind].
  rewrite app_assoc, mread_prefix by (rewrite ?length_app; lia). cbn [mbind option_bind].
  reflexivity.
Qed.

Definition opening_key : list Z :=
  let key := iv server ++ key server in take (Z.to_nat (u8 (Z.of_nat (length key)))) key.

(** The first packet for [head]: a byte with its MAC; the user's number and the
    encrypted time, identity, connection number and sizes with theirs; a filling,
    the data, and the MAC of it all under the user's key. *)
Definition opening_secret (g' : auth_simple_global_data) (out_size rand_len : Z) : list Z :=
  le_bytes (u32 (now (surr e))) ++ take 4 (local_client_id g') ++ le_bytes (u32 (connection_id g')) ++
  [u8 out_size; u8 (Z.shiftr out_size 8); u8 rand_len; u8 (Z.shiftr rand_len 8)].
Definition opening_user (g' : auth_simple_global_data) (out_size rand_len : Z) : list Z :=
  let c := uid' ++ ss_aes_128_cbc aes_cbc (opening_secret g' out_size rand_len) (take 16 (md5 (b64 ukey ++ salt))) in
  c ++ take 4 (hmac opening_key c).
Definition opening_body (g' : auth_simple_global_data) (rand_len : Z) (head : list Z) : list Z :=
  let out_size := rand_len + 35 + Z.of_nat (length head) in
  [rand_first e] ++ take 6 (hmac opening_key [rand_first e]) ++ opening_user g' out_size rand_len ++
  rand_fill e rand_len ++ head.
Definition opening (g' : auth_simple_global_data) (head f : list Z) : Prop :=
  exists rand_len, 0 <= rand_len <= 1024 /\
    f = opening_body g' rand_len head ++ take 4 (hmac ukey (opening_body g' rand_len head)).

Lemma opening_user_length g' n rl : identity (local_client_id g') -> length (opening_user g' n rl) = 24%nat.
Proof using OP MacLaws0.
  intros [Hid _]. unfold opening_user, ss_aes_128_cbc. rewrite !length_app, !length_take.
  pose proof (hmac_length opening_key (uid' ++ take 16 (aes_cbc (take 16 (md5 (b64 ukey ++ salt))) (replicate 16 0) (opening_secret g' n rl)))).
  pose proof (aes_block (take 16 (md5 (b64 ukey ++ salt))) (replicate 16 0) (opening_secret g' n rl)) as Ha.
  assert (length (opening_secret g' n rl) = 16%nat) as Hs.
  { unfold opening_secret. rewrite !length_app, length_take. cbn [length le_bytes]. lia. }
  rewrite Hs in Ha. pose proof uid_size. lia.
Qed.

Lemma opening_body_length g' rl head :
  identity (local_client_id g') -> 0 <= rl ->
  Z.of_nat (length (opening_body g' rl head)) = rl + 31 + Z.of_nat (length head).
Proof using OP MacLaws0.
  intros Hid Hrl. unfold opening_body. rewrite !length_app, length_take, (opening_user_length g') by done.
  rewrite fill_size. pose proof (hmac_length opening_key [rand_first e]). cbn [length]. lia.
Qed.

(** The blocks of a room for the first packet. *)
Lemma opening_room rl (data room : list Z) :
  0 <= rl -> rl + 35 + Z.of_nat (length data) <= Z.of_nat (length room) ->
  exists a0 m6 c fill dd m4 rest, room = [a0] ++ m6 ++ c ++ fill ++ dd ++ m4 ++ rest /\
    length m6 = 6%nat /\ length c = 24%nat /\ length fill = Z.to_nat rl /\
    length dd = length data /\ length m4 = 4%nat.
Proof using Type.
  intros Hrl Hroom. destruct room as [|a0 room]; [simpl in Hroom; lia|]. cbn [length] in Hroom.
  destruct (split_block room 6) as (m6 & r1 & -> & H6); [lia|]. rewrite length_app in Hroom.
  destruct (split_block r1 24) as (c & r2 & -> & Hc); [lia|]. rewrite length_app in Hroom.
  destruct (split_block r2 (Z.to_nat rl)) as (fill & r3 & -> & Hf); [lia|]. rewrite length_app in Hroom.
  destruct (split_block r3 (length data)) as (dd & r4 & -> & Hd); [lia|]. rewrite length_app in Hroom.
  destruct (split_block r4 4) as (m4 & rest & -> & Hm); [lia|].
  exists a0, m6, c, fill, dd, m4, rest. by split_and!.
Qed.

Lemma opening_pack g t head room :
  init_user_key hash hash_len long_max server e t = Some (uid', ukey) -> wf_global g ->
  Z.of_nat (length head) <= 1200 -> Z.of_nat (length head) + 1059 <= Z.of_nat (length room) ->
  exists f r',
    auth_aes128_sha1_pack_auth_data hmac hash hash_len salt md5 aes_cbc long_max server e g t head room
    = Some (f ++ drop (length f) room, Z.of_nat (length f), next_connection (surr e) g,
            mkSender r' (pack_id t) uid' (Some ukey)) /\
    opening (next_connection (surr e) g) head f /\
    Z.of_nat (length f) <= Z.of_nat (length head) + 1059.
Proof using MacLaws0 OP.
  intros Hinit Hg Hl Hroom. unfold auth_aes128_sha1_pack_auth_data.
  pose proof (next_connection_wf (surr e) g opening_id Hg) as [Hid _]. set (g' := next_connection (surr e) g) in *.
  pose proof (xorshift_low (pack_rng t) 512 ltac:(lia)) as H512.
  pose proof (xorshift_low (pack_rng t) 1024 ltac:(lia)) as H1024.
  destruct (xorshift128plus (pack_rng t)) as [x r']. cbn [fst] in *.
  assert (exists rl, rl = (if 400 <? Z.of_nat (length head) then Z.land x 512 else Z.land x 1024) /\ 0 <= rl <= 1024)
    as (rl & <- & Hrl) by (eexists; split; [done|case_bool; lia]).
  destruct (opening_room rl head room) as (a0 & m6 & c & fill & dd & m4 & rest & -> & H6 & Hc & Hf & Hd & H4); [lia..|].
  destruct Hid as [Hid8 Hidb]. assert (identity (local_client_id g')) as Hid by by split.
  assert (rl + 16 + 4 + 4 + 7 = rl + 31) as -> by lia.
  assert (rl + 31 + Z.of_nat (length head) + 4 = rl + 35 + Z.of_nat (length head)) as -> by lia.
  set (size := rl + 35 + Z.of_nat (length head)).
  fold opening_key. set (h6 := take 6 (hmac opening_key [rand_first e])).
  assert (length h6 = 6%nat) as Hh6.
  { unfold h6. rewrite length_take. pose proof (hmac_length opening_key [rand_first e]). lia. }
  set (body := opening_body g' rl head).
  pose proof (opening_body_length g' rl head Hid ltac:(lia)) as Hbl. fold body in Hbl.
  pose proof (opening_user_length g' size rl Hid) as Hul. pose proof (fill_size rl) as Hfs.
  replace ([a0] ++ m6 ++ c ++ fill ++ dd ++ m4 ++ rest)
    with (([a0] ++ m6 ++ c) ++ fill ++ (dd ++ m4 ++ rest)) by list_assoc.
  rewrite mwrite_app; [|rewrite !length_app; cbn [length]; lia|lia]. cbn [mbind option_bind].
  rewrite mread_in by lia. change (Z.to_nat 0) with 0%nat. change (Z.to_nat 4) with 4%nat. rewrite drop_0.
  cbn [mbind option_bind]. fold (opening_secret g' size rl). rewrite Hinit. cbn [mbind option_bind].
  rewrite encrypt_key_spec. cbn [mbind option_bind].
  rewrite (take_ge uid') by (rewrite uid_size; lia). cbn [app].
  rewrite wr_0. cbn [mbind option_bind]. fold h6.
  fold (opening_user g' size rl).
  replace (rand_first e :: (m6 ++ c) ++ rand_fill e rl ++ dd ++ m4 ++ rest)
    with ([rand_first e] ++ m6 ++ (c ++ rand_fill e rl ++ dd ++ m4 ++ rest)) by list_assoc.
  rewrite mwrite_app by (done || lia). cbn [mbind option_bind].
  rewrite (app_assoc [_]). rewrite mwrite_app; [|rewrite length_app, Hh6; done|lia]. cbn [mbind option_bind].
  replace (([rand_first e] ++ h6) ++ opening_user g' size rl ++ rand_fill e rl ++ dd ++ m4 ++ rest)
    with ((([rand_first e] ++ h6) ++ opening_user g' size rl ++ rand_fill e rl) ++ dd ++ (m4 ++ rest)) by list_assoc.
  rewrite mwrite_app; [|rewrite !length_app, Hh6, Hul, Hfs; cbn [length]; lia|done]. cbn [mbind option_bind].
  replace ((([rand_first e] ++ h6) ++ opening_user g' size rl ++ rand_fill e rl) ++ head ++ m4 ++ rest)
    with (body ++ m4 ++ rest) by (unfold body, opening_body; fold size h6; list_assoc).
  rewrite mread_prefix by (unfold size; lia). cbn [mbind option_bind].
  pose proof (hmac_length ukey body) as Hhb.
  rewrite mwrite_app by (rewrite ?length_take; unfold size; lia). cbn [mbind option_bind].
  assert (Z.of_nat (length (body ++ take 4 (hmac ukey body))) = size) as Hlen.
  { rewrite length_app, length_take. unfold size. lia. }
  exists (body ++ take 4 (hmac ukey body)), r'. split_and!; [|by exists rl|rewrite Hlen; unfold size; lia].
  rewrite Hlen. do 4 f_equal. rewrite <- app_assoc. do 2 f_equal.
  replace (length (body ++ take 4 (hmac ukey body))) with (length ([a0] ++ m6 ++ c ++ fill ++ dd ++ m4)).
  - rewrite <- (drop_app_length ([a0] ++ m6 ++ c ++ fill ++ dd ++ m4) rest) at 1. f_equal. list_assoc.
  - apply Nat2Z.inj. rewrite Hlen, !length_app. unfold size. cbn [length]. lia.
Qed.

(** Datagrams: data, the user's number, and the MAC of both. *)
Lemma udp_sent t data cap :
  init_user_key hash hash_len long_max server e t = Some (uid', ukey) ->
  auth_aes128_sha1_client_udp_pre_encrypt hmac hash hash_len long_max server e t data cap
  = Some (give_back (data ++ uid' ++ take 4 (hmac ukey (data ++ uid'))) cap,
          mkSender (pack_rng t) (pack_id t) uid' (Some ukey)).
Proof using OP.
  intros Hinit. unfold auth_aes128_sha1_client_udp_pre_encrypt. rewrite Hinit. cbn [mbind option_bind].
  rewrite (take_ge uid') by (rewrite uid_size; lia). by rewrite <- app_assoc.
Qed.

(** A datagram is accepted when its last four bytes are the MAC of the others. *)
Lemma udp_accepts body tag :
  length tag = 4%nat ->
  auth_aes128_sha1_client_udp_post_decrypt hmac server (body ++ tag)
  = (if bool_decide (body <> [] /\ take 4 (hmac (key server) body) = tag) then Z.of_nat (length body) else 0).
Proof using Type.
  intros Ht. unfold auth_aes128_sha1_client_udp_post_decrypt. rewrite length_app, Ht.
  destruct body as [|b body].
  - change (Z.of_nat (length [] + 4) <=? 4) with true. cbv iota zeta. rewrite bool_decide_false by (intros [Hn _]; by apply Hn). reflexivity.
  - rewrite (proj2 (Z.leb_gt _ _)) by (cbn [length]; lia).
    replace (Z.of_nat (length (b :: body) + 4) - 4) with (Z.of_nat (length (b :: body))) by lia.
    rewrite Nat2Z.id, take_app_length, drop_app_length.
    rewrite (bool_decide_ext (b :: body <> [] /\ take 4 (hmac (key server) (b :: body)) = tag)
      (take 4 (hmac (key server) (b :: body)) = tag)) by (split; [by intros [_ ?]|by split]).
    done.
Qed.

(** A datagram of auth_aes128 is the data, the user's number and four bytes of
    a MAC; the receiver, which uses the server's key, takes a datagram exactly when
    something is in front of the last four bytes and they are its MAC, and it
    leaves the sender's number behind the data; so a user without a password is
    understood by the same program. *)
Theorem auth_aes128_udp t data cap :
  init_user_key hash hash_len long_max server e t = Some (uid', ukey) ->
  exists datagram, length datagram = (length data + 8)%nat /\
    auth_aes128_sha1_client_udp_pre_encrypt hmac hash hash_len long_max server e t data cap
    = Some (give_back datagram cap, mkSender (pack_rng t) (pack_id t) uid' (Some ukey)) /\
    (param server = None -> user_key t = None -> uid' = rand_uid e /\
       auth_aes128_sha1_client_udp_post_decrypt hmac server datagram = Z.of_nat (length data) + 4) /\
    forall body tag, length tag = 4%nat ->
      auth_aes128_sha1_client_udp_post_decrypt hmac server (body ++ tag)
      = (if bool_decide (body <> [] /\ take 4 (hmac (key server) body) = tag) then Z.of_nat (length body) else 0).
Proof using MacLaws0 OP.
  intros Hinit. exists ((data ++ uid') ++ take 4 (hmac ukey (data ++ uid'))).
  pose proof uid_size as Hu.
  assert (length (take 4 (hmac ukey (data ++ uid'))) = 4%nat) as H4.
  { rewrite length_take. pose proof (hmac_length ukey (data ++ uid')). lia. }
  split_and!.
  - rewrite !length_app, H4. lia.
  - rewrite <- app_assoc. by apply udp_sent.
  - intros Hparam Hkey. unfold init_user_key in Hinit. rewrite Hkey, Hparam in Hinit. injection Hinit as <- <-.
    split; [done|]. rewrite udp_accepts by done. rewrite bool_decide_true; [rewrite length_app; lia|].
    split; [|done]. intros Hnil%(f_equal length). rewrite length_app in Hnil. cbn [length] in Hnil. lia.
  - intros body tag. apply udp_accepts.
Qed.

(** C22: what a client of auth_aes128 sends is the first packet, with the user's
    number, the encrypted time, connection number and sizes, the head of the first
    message and the MACs, and after it numbered frames.  A receiver that has the
    user's key and expects the client's packet number turns them back into the
    rest of the messages, in any segmentation of the stream. *)
Theorem auth_aes128_client_stream scap rcap g t m msgs segs :
  init_user_key hash hash_len long_max server e t = Some (uid', ukey) ->
  wf_global g -> 0 <= pack_id t < 2 ^ 32 ->
  m <> [] -> is_bytes m -> Z.of_nat (length m) < 2 ^ 62 -> Forall is_bytes msgs ->
  Forall (fun seg => Z.of_nat (length seg) <= 8192) segs ->
  let n := Z.to_nat (1200 `min` Z.of_nat (length m)) in
  exists f wire t' id',
    opening (next_connection (surr e) g) (take n m) f /\
    @client_send_all _ _ (auth_aes128_packing hmac malloc rand_bytes)
      (auth_aes128_sha1_pack_auth_data hmac hash hash_len salt md5 aes_cbc long_max server e) aes_get_head
      malloc 4096 scap (mkClient false g t) (m :: msgs)
    = Some (f ++ wire, mkClient true (next_connection (surr e) g) t') /\ pack_id t' = id' /\
    (concat segs = wire ->
     @feed _ (auth_aes128_framing hmac ukey malloc) rcap (pack_id t) [] segs
     = Some (drop n m ++ concat msgs, [], id')).
Proof using MacLaws0 MallocLaws0 RandLaws0 OP.
  intros Hinit Hg Hid Hne Hb H62 Hmsgs Hsegs n.
  assert (TCEq (length ukey <? 252)%nat true) as Hk.
  { apply TCEq_eq, Nat.ltb_lt. pose proof ukey_size. lia. }
  destruct (client_transport (F := auth_aes128_framing hmac ukey malloc) (P := auth_aes128_packing hmac malloc rand_bytes)
    (PL := auth_aes128_packing_laws hmac ukey malloc rand_bytes) malloc
    (auth_aes128_sha1_pack_auth_data hmac hash hash_len salt md5 aes_cbc long_max server e) aes_get_head
    1059 1200 (fun _ _ head f g' t' => g' = next_connection (surr e) g /\ opening g' head f /\
      user_key t' = Some ukey /\ pack_id t' = pack_id t)
    4096 scap rcap g t (pack_id t) m msgs segs 1200)
    as (f & g1 & t1 & wire & t' & s' & (-> & Hf & _) & (_ & Hs & _) & Hsend & Hfeed); try done.
  - intros head room _ _ Hl Hroom. destruct (opening_pack g t head room Hinit Hg Hl) as (f & r' & Hp & Hf & Hlen); [lia|].
    exists f, (next_connection (surr e) g), (mkSender r' (pack_id t) uid' (Some ukey)). by split_and!.
  - intros head f g' t' (_ & _ & Hu & Hp). cbn [agrees auth_aes128_packing_laws]. by rewrite Hp.
  - exists f, wire, t', s'. split_and!; [exact Hf|exact Hsend|exact Hs|exact Hfeed].
Qed.

End OpeningLaws.

(** A server with the user 7 and a password. *)
Definition server_7 : server_info := mkServer (Some (bytes_of "7:pw")) (replicate 16 7) (bytes_of "secret").
Definition aes_surroundings_example : aes_surroundings :=
  mkAesSurr surroundings_example [1; 1; 1; 1] (fun n => replicate (Z.to_nat n) 85) 33.
Definition sender_example : aes_sender := mkSender (init_shift128plus 5) 1 [] None.

#[local] Instance mac_example : MacLaws (fun _ m => replicate 15 (Z.of_nat (length m)) ++ [0]).
Proof. split. intros. simpl. lia. Qed.
#[local] Instance rand_example : RandLaws (fun _ n => replicate (Z.to_nat n) 85).
Proof. split. intros. apply length_replicate. Qed.

Lemma opening_promises_example ukey uid' :
  length uid' = 4%nat -> is_bytes ukey -> (0 < length ukey <= 64)%nat ->
  OpeningPromises (bytes_of "auth_aes128_sha1") (fun _ _ b => b) aes_surroundings_example ukey uid'.
Proof.
  intros. split; try done; [simpl; lia|intros n; apply length_replicate|].
  split; [reflexivity|repeat constructor; lia].
Qed.

Lemma auth_aes128_client_stream_witness :
  init_user_key (fun _ => replicate 20 3) 20 9223372036854775807 server_7 aes_surroundings_example sender_example
  = Some ([7; 0; 0; 0], replicate 20 3) /\
  exists f wire t',
    @client_send_all _ _ (auth_aes128_packing (fun _ m => replicate 15 (Z.of_nat (length m)) ++ [0])
        (fun n => replicate (Z.to_nat n) 170) (fun _ n => replicate (Z.to_nat n) 85))
      (auth_aes128_sha1_pack_auth_data (fun _ m => replicate 15 (Z.of_nat (length m)) ++ [0]) (fun _ => replicate 20 3) 20
        (bytes_of "auth_aes128_sha1") (fun _ => replicate 16 9) (fun _ _ b => b) 9223372036854775807 server_7
        aes_surroundings_example) aes_get_head (fun n => replicate (Z.to_nat n) 170) 4096 64
      (mkClient false global_example sender_example) [request_example; bytes_of "more"]
    = Some (f ++ wire, mkClient true (mkGlobal [1; 2; 3; 4; 5; 6; 7; 8] 42) t').
Proof.
  assert (init_user_key (fun _ => replicate 20 3) 20 9223372036854775807 server_7 aes_surroundings_example sender_example
    = Some ([7; 0; 0; 0], replicate 20 3)) as Hinit by (vm_compute; reflexivity).
  split; [exact Hinit|].
  assert (is_bytes request_example) as Hb by (vm_compute; repeat constructor; congruence).
  destruct (@auth_aes128_client_stream (fun _ m => replicate 15 (Z.of_nat (length m)) ++ [0]) mac_example
    (fun _ => replicate 20 3) 20 (bytes_of "auth_aes128_sha1") (fun _ => replicate 16 9) (fun _ _ b => b)
    9223372036854775807 server_7 (fun n => replicate (Z.to_nat n) 170) malloc_example
    (fun _ n => replicate (Z.to_nat n) 85) rand_example aes_surroundings_example (replicate 20 3) [7; 0; 0; 0]
    (opening_promises_example (replicate 20 3) [7; 0; 0; 0] eq_refl ltac:(repeat constructor; lia) ltac:(simpl; lia))
    64 64 global_example sender_example request_example [bytes_of "more"] [] Hinit)
    as (f & wire & t' & id' & _ & Hs & _).
  - split; [split; [reflexivity|repeat constructor; lia]|simpl; lia].
  - simpl; lia.
  - discriminate.
  - exact Hb.
  - simpl; lia.
  - repeat constructor; lia.
  - constructor.
  - exists f, wire, t'. exact Hs.
Defined.

Lemma auth_aes128_udp_witness :
  auth_aes128_sha1_client_udp_post_decrypt (fun _ m => replicate 15 (Z.of_nat (length m)) ++ [0]) server_example
    (bytes_of "query" ++ [1; 1; 1; 1] ++ [9; 9; 9; 9]) = 9.
Proof.
  destruct (@auth_aes128_udp (fun _ m => replicate 15 (Z.of_nat (length m)) ++ [0]) mac_example
    (fun _ => replicate 20 3) 20 (bytes_of "auth_aes128_sha1") (fun _ _ b => b)
    9223372036854775807 server_example aes_surroundings_example (bytes_of "secret") [1; 1; 1; 1]
    (opening_promises_example (bytes_of "secret") [1; 1; 1; 1] eq_refl
       ltac:(vm_compute; repeat constructor; congruence) ltac:(simpl; lia))
    sender_example (bytes_of "query") 64 eq_refl) as (d & _ & _ & _ & H).
  rewrite (app_assoc (bytes_of "query")). rewrite H by reflexivity. reflexivity.
Defined.

End AuthAes.
