(* ===== verification/Cache.v ===== *)
(** * Cache: the cache of shadowsocksr-libev and its clients

    Models src/server/cache.c of shadowsocksr-libev and the two uses the server
    makes of it: the block list of acl.c, which counts the failures of a peer, and
    the memory of initialisation vectors in encrypt.c, which refuses replayed
    connections.  A cache is a uthash table: its entries in the order in which they
    were added, and a lookup by key.  A lookup moves its entry to the end, an
    insertion into a full cache drops the entry at the head, so the order is the
    order of last use.

    Which of several entries with the same key uthash finds depends on its
    buckets, so the lookup is the class [HashFind] with the laws [HashFindLaws]. *)

From S2P Require Import Prelude Libc.

Import Libc.

Module Cache.

(** [free_cb] or [free] of what is dropped: keys with their data.  [ev_tstamp] is
    counted in its own ticks. *)
Record cache_entry (D : Type) := mkEntry { ekey : list Z; data : option D; ts : Z }.
Arguments mkEntry {D}.
Arguments ekey {D}.
Arguments data {D}.
Arguments ts {D}.

Record cache (D : Type) := mkCache { max_entries : Z; entries : list (cache_entry D) }.
Arguments mkCache {D}.
Arguments max_entries {D}.
Arguments entries {D}.

(** [HASH_FIND]: the position of an entry with the key. *)
Class HashFind (D : Type) := hash_find : list (cache_entry D) -> list Z -> option nat.
Class HashFindLaws (D : Type) `{HashFind D} := {
  hash_find_some es k i : hash_find es k = Some i -> exists e, es !! i = Some e /\ ekey e = k;
  hash_find_none es k : hash_find es k = None -> Forall (fun e => ekey e <> k) es }.

(** The first one. *)
#[export] Instance first_find D : HashFind D := fun es k => fst <$> list_find (fun e => ekey e = k) es.
#[export] Instance first_find_laws D : HashFindLaws D.
Proof.
  split; intros es k; unfold hash_find, first_find.
  - intros i Hi. destruct (list_find _ es) as [[j e]|] eqn:E; [|done]. simpl in Hi. simplify_eq.
    apply list_find_Some in E as (? & ? & _). eauto.
  - intros Hn. destruct (list_find _ es) eqn:E; [done|]. by apply list_find_None in E.
Qed.

Inductive error := OK | EINVAL | ENOMEM.

Section Cache.
Context {D : Type} `{HashFind D}.

(** What freeing an entry gives back: its data, if it has some. *)
Definition drop_entry (e : cache_entry D) : list (list Z * D) :=
  match data e with Some d => [(ekey e, d)] | None => [] end.

Definition cache_create (malloc_ok : bool) (capacity : Z) : error * option (cache D) :=
  if malloc_ok then (OK, Some (mkCache capacity [])) else (ENOMEM, None).

(** The cache is gone; the data that were freed. *)
Definition cache_delete (c : option (cache D)) (keep_data : bool) : error * list (list Z * D) :=
  match c with
  | None => (EINVAL, [])
  | Some c => (OK, if keep_data then [] else concat (map drop_entry (entries c)))
  end.

(** [HASH_ITER] with deletion. *)
Fixpoint clear_loop (age now : Z) (es : list (cache_entry D)) : list (cache_entry D) * list (list Z * D) :=
  match es with
  | [] => ([], [])
  | e :: es =>
      let '(es, freed) := clear_loop age now es in
      if age <? now - ts e then (es, drop_entry e ++ freed) else (e :: es, freed)
  end.

Definition cache_clear (c : option (cache D)) (age now : Z) : error * option (cache D) * list (list Z * D) :=
  match c with
  | None => (EINVAL, None, [])
  | Some c =>
      let '(es, freed) := clear_loop age now (entries c) in
      (OK, Some (mkCache (max_entries c) es), freed)
  end.

Definition cache_remove (c : option (cache D)) (key : option (list Z))
    : error * option (cache D) * list (list Z * D) :=
  match c, key with
  | Some c, Some key =>
      match hash_find (entries c) key with
      | Some i => (OK, Some (mkCache (max_entries c) (delete i (entries c))),
                   match entries c !! i with Some tmp => drop_entry tmp | None => [] end)
      | None => (OK, Some c, [])
      end
  | _, _ => (EINVAL, c, [])
  end.

(** [HASH_DELETE], the new time, [HASH_ADD_KEYPTR]. *)
Definition touch (es : list (cache_entry D)) (i : nat) (now : Z) : list (cache_entry D) :=
  match es !! i with
  | Some tmp => delete i es ++ [mkEntry (ekey tmp) (data tmp) now]
  | None => es
  end.

(** [result]: what is stored through the pointer. *)
Definition cache_lookup (c : option (cache D)) (key : option (list Z)) (now : Z)
    : error * option (cache D) * option D :=
  match c, key with
  | Some c, Some key =>
      match hash_find (entries c) key with
      | Some i => (OK, Some (mkCache (max_entries c) (touch (entries c) i now)),
                   tmp ← entries c !! i; data tmp)
      | None => (OK, Some c, None)
      end
  | _, _ => (EINVAL, c, None)
  end.

Definition cache_key_exist (c : option (cache D)) (key : option (list Z)) (now : Z) : option (cache D) * bool :=
  match c, key with
  | Some c, Some key =>
      match hash_find (entries c) key with
      | Some i => (Some (mkCache (max_entries c) (touch (entries c) i now)), true)
      | None => (Some c, false)
      end
  | _, _ => (c, false)
  end.

Definition cache_insert (malloc_ok : bool) (c : option (cache D)) (key : list Z) (d : option D) (now : Z)
    : error * option (cache D) * list (list Z * D) :=
  match c with
  | None => (EINVAL, None, [])
  | Some c =>
      if malloc_ok then
        let es := entries c ++ [mkEntry key d now] in
        if max_entries c <=? Z.of_nat (length es) then
          match es with
          | entry :: es => (OK, Some (mkCache (max_entries c) es), drop_entry entry)
          | [] => (OK, Some (mkCache (max_entries c) es), [])
          end
        else (OK, Some (mkCache (max_entries c) es), [])
      else (ENOMEM, Some c, [])
  end.

End Cache.

(** ** src/server/acl.c: the block list *)

Definition MAX_TRIES : Z := 64.

(** [*count += err_level] through the pointer the lookup gave, to the entry that
    the lookup moved to the end. *)
Definition add_count (err_level : Z) (c : cache Z) : cache Z :=
  mkCache (max_entries c)
    (match last (entries c) with
     | Some e => removelast (entries c) ++ [mkEntry (ekey e) ((fun n => s32 (n + err_level)) <$> data e) (ts e)]
     | None => entries c
     end).

Section BlockList.
Context `{HashFind Z}.

Definition init_block_list (malloc_ok : bool) : option (cache Z) := snd (cache_create malloc_ok 256).

Definition remove_from_block_list (block_list : option (cache Z)) (addr : list Z) : option (cache Z) :=
  snd (fst (cache_remove block_list (Some addr))).

Definition clear_block_list (block_list : option (cache Z)) (now : Z) : option (cache Z) :=
  snd (fst (cache_clear block_list 3600 now)).

Definition check_block_list (block_list : option (cache Z)) (addr : list Z) (now : Z) : option (cache Z) * bool :=
  let '(block_list, found) := cache_key_exist block_list (Some addr) now in
  if found : bool then
    let '(_, block_list, count) := cache_lookup block_list (Some addr) now in
    (block_list, match count with Some n => MAX_TRIES <? n | None => false end)
  else (block_list, false).

Definition update_block_list (block_list : option (cache Z)) (addr : list Z) (err_level now : Z)
    : option (cache Z) * bool :=
  let '(block_list, found) := cache_key_exist block_list (Some addr) now in
  if found : bool then
    let '(_, block_list, count) := cache_lookup block_list (Some addr) now in
    match count with
    | Some n => if MAX_TRIES <? n then (block_list, true) else (add_count err_level <$> block_list, false)
    | None => (block_list, false)
    end
  else if 0 <? err_level then (snd (fst (cache_insert true block_list addr (Some 1) now)), false)
  else (block_list, false).

End BlockList.

(** ** src/server/encrypt.c: the vectors that were seen *)

(** The part of [ss_decrypt] that looks at the vector of a new connection: the
    cache and whether the connection is refused. *)
Definition check_iv `{HashFind unit} (iv_cache : option (cache unit)) (iv : list Z) (now : Z)
    : option (cache unit) * bool :=
  let '(iv_cache, found) := cache_key_exist iv_cache (Some iv) now in
  if found : bool then (iv_cache, true) else (snd (fst (cache_insert true iv_cache iv None now)), false).

(** ** Sequences of calls

    What clients do with a cache that exists.  They insert a key only when it is
    not there. *)
Section Runs.
Context {D : Type} `{HashFindLaws D}.

Inductive call :=
  | Lookup (k : list Z) (now : Z) | KeyExist (k : list Z) (now : Z)
  | Insert (k : list Z) (d : option D) (now : Z) | Remove (k : list Z) | Clear (age now : Z).

Definition exec (op : call) (c : cache D) : option (cache D) * list (list Z * D) :=
  match op with
  | Lookup k now => (snd (fst (cache_lookup (Some c) (Some k) now)), [])
  | KeyExist k now => (fst (cache_key_exist (Some c) (Some k) now), [])
  | Insert k d now => let '(_, c, freed) := cache_insert true (Some c) k d now in (c, freed)
  | Remove k => let '(_, c, freed) := cache_remove (Some c) (Some k) in (c, freed)
  | Clear age now => let '(_, c, freed) := cache_clear (Some c) age now in (c, freed)
  end.

Notation keys es := (map ekey es).
Definition held (c : cache D) : list (list Z * D) := concat (map drop_entry (entries c)).
Definition inserted (op : call) : list (list Z * D) :=
  match op with Insert k (Some d) _ => [(k, d)] | _ => [] end.
Definition absent (op : call) (c : cache D) : Prop :=
  match op with Insert k _ _ => k ∉ keys (entries c) | _ => True end.

(** Calls in a row, with what was inserted and what was freed. *)
Inductive runs : cache D -> list call -> list (list Z * D) -> cache D -> Prop :=
  | runs_nil c : runs c [] [] c
  | runs_cons c op c1 freed ops freed2 c2 :
      absent op c -> exec op c = (Some c1, freed) -> runs c1 ops freed2 c2 ->
      runs c (op :: ops) (freed ++ freed2) c2.

Definition cache_wf (c : cache D) : Prop :=
  NoDup (keys (entries c)) /\ Z.of_nat (length (entries c)) < Z.max 1 (max_entries c).

(** A key that is there is found, and its entry splits the list. *)
Lemma find_split (es : list (cache_entry D)) k i :
  hash_find es k = Some i -> exists pre e post, es = pre ++ e :: post /\ length pre = i /\ ekey e = k.
Proof.
  intros (e & He & Hk)%hash_find_some. exists (take i es), e, (drop (S i) es).
  split_and!; [by rewrite take_drop_middle|rewrite length_take; apply lookup_lt_Some in He; lia|done].
Qed.

Lemma find_here (pre post : list (cache_entry D)) (e : cache_entry D) :
  NoDup (keys (pre ++ e :: post)) -> hash_find (pre ++ e :: post) (ekey e) = Some (length pre).
Proof.
  intros Hnd. destruct (hash_find _ _) as [i|] eqn:E.
  - apply hash_find_some in E as (e' & He & Hk).
    assert (keys (pre ++ e :: post) !! i = Some (ekey e)) as H1 by (rewrite list_lookup_fmap, He, <- Hk; done).
    assert (keys (pre ++ e :: post) !! length pre = Some (ekey e)) as H2.
    { rewrite list_lookup_fmap, list_lookup_middle by done. done. }
    f_equal. by eapply NoDup_lookup.
  - apply hash_find_none in E. apply Forall_app in E as [_ E]. by apply Forall_cons in E as [E _].
Qed.

Lemma find_absent (es : list (cache_entry D)) k : k ∉ keys es -> hash_find es k = None.
Proof.
  intros Hn. destruct (hash_find es k) as [i|] eqn:E; [|done].
  apply find_split in E as (pre & e & post & -> & _ & <-). exfalso. apply Hn.
  rewrite map_app. apply elem_of_app. right. by left.
Qed.

Lemma touch_split (pre post : list (cache_entry D)) (e : cache_entry D) now :
  touch (pre ++ e :: post) (length pre) now = pre ++ post ++ [mkEntry (ekey e) (data e) now].
Proof.
  unfold touch. rewrite list_lookup_middle by done. by rewrite delete_middle, <- app_assoc.
Qed.

Lemma clear_loop_spec age now (es : list (cache_entry D)) :
  let '(es', freed) := clear_loop age now es in
  es' = filter (fun e => ~ age < now - ts e) es /\
  concat (map drop_entry es') ++ freed ≡ₚ concat (map drop_entry es).
Proof.
  induction es as [|e es IH]; [done|]. cbn [clear_loop]. destruct (clear_loop age now es) as [es' freed].
  destruct IH as [-> IH]. rewrite filter_cons. destruct (age <? now - ts e) eqn:E; zify_bool.
  - rewrite decide_False by lia. split; [done|]. cbn [map concat]. rewrite <- IH. solve_Permutation.
  - rewrite decide_True by lia. split; [done|]. cbn [map concat]. rewrite <- IH. solve_Permutation.
Qed.

(** Every call keeps account of the data, and keeps the cache well formed. *)
Lemma exec_accounts op c c' freed :
  exec op c = (Some c', freed) -> held c' ++ freed ≡ₚ inserted op ++ held c.
Proof.
  destruct c as [m es]. unfold held. destruct op as [k now|k now|k d now|k|age now]; cbn [exec inserted].
  - cbn [cache_lookup entries]. destruct (hash_find es k) as [i|] eqn:E; cbn [snd fst]; intros [= <- <-]; [|by rewrite app_nil_r].
    apply find_split in E as (pre & e & post & -> & <- & _). cbn [entries]. rewrite touch_split, !map_app, !concat_app.
    cbn [map concat]. unfold drop_entry at 3. cbn [data]. fold (drop_entry e). solve_Permutation.
  - cbn [cache_key_exist entries]. destruct (hash_find es k) as [i|] eqn:E; cbn [fst]; intros [= <- <-]; [|by rewrite app_nil_r].
    apply find_split in E as (pre & e & post & -> & <- & _). cbn [entries]. rewrite touch_split, !map_app, !concat_app.
    cbn [map concat]. unfold drop_entry at 3. cbn [data]. fold (drop_entry e). solve_Permutation.
  - unfold cache_insert. cbn [entries max_entries].
    assert (concat (map drop_entry (es ++ [mkEntry k d now])) ≡ₚ inserted (Insert k d now) ++ concat (map drop_entry es)) as Hp.
    { rewrite map_app, concat_app. cbn [map concat]. rewrite app_nil_r. unfold drop_entry at 2. cbn [data ekey].
      destruct d; cbn [inserted]; solve_Permutation. }
    cbn [inserted] in Hp. destruct (m <=? _); [|intros [= <- <-]; by rewrite app_nil_r].
    destruct (es ++ [mkEntry k d now]) as [|e0 es0]; intros [= <- <-]; cbn [entries]; [by rewrite app_nil_r|].
    rewrite <- Hp. cbn [map concat]. solve_Permutation.
  - cbn [cache_remove entries]. destruct (hash_find es k) as [i|] eqn:E; intros [= <- <-]; [|by rewrite app_nil_r].
    apply find_split in E as (pre & e & post & -> & <- & _). cbn [entries].
    rewrite delete_middle, list_lookup_middle, !map_app, !concat_app by done. cbn [map concat]. solve_Permutation.
  - cbn [cache_clear entries]. pose proof (clear_loop_spec age now es) as Hc.
    destruct (clear_loop age now es) as [es' fr]. intros [= <- <-]. apply Hc.
Qed.

Lemma keys_touch (pre post : list (cache_entry D)) (e : cache_entry D) now :
  keys (touch (pre ++ e :: post) (length pre) now) ≡ₚ keys (pre ++ e :: post).
Proof. rewrite touch_split, !map_app. cbn [map ekey]. solve_Permutation. Qed.

(** What an insertion leaves: everything, or everything but the oldest entry. *)
Lemma cache_insert_cases (c c' : cache D) k d now freed :
  cache_insert true (Some c) k d now = (OK, Some c', freed) ->
  max_entries c' = max_entries c /\
  (entries c' = entries c ++ [mkEntry k d now] /\
   (Z.of_nat (S (length (entries c))) < max_entries c) \/
   exists e, entries c ++ [mkEntry k d now] = e :: entries c' /\ max_entries c <= Z.of_nat (S (length (entries c)))).
Proof.
  unfold cache_insert. rewrite length_app, Nat.add_1_r. case_bool.
  - destruct (entries c ++ _) as [|e es] eqn:Ees; intros [= <- <-]; [by destruct (entries c)|].
    split; [done|]. right. exists e. split; [done|lia].
  - intros [= <- <-]. split; [done|]. left. split; [done|lia].
Qed.

Lemma exec_wf op c c' freed :
  cache_wf c -> absent op c -> exec op c = (Some c', freed) -> cache_wf c' /\ max_entries c' = max_entries c.
Proof.
  unfold cache_wf. intros [Hnd Hlen] Hab He.
  assert (forall es' : list (cache_entry D), keys es' ≡ₚ keys (entries c) ->
    NoDup (keys es') /\ Z.of_nat (length es') < Z.max 1 (max_entries c)) as Hp.
  { intros es' Hp. rewrite Hp. split; [done|]. apply Permutation_length in Hp. rewrite !length_map in Hp. lia. }
  destruct op as [k now|k now|k d now|k|age now]; cbn [exec absent] in *.
  3: { destruct (cache_insert _ _ _ _ _) as [[err o] fr] eqn:Ei. simplify_eq.
       assert (err = OK) as -> by (revert Ei; unfold cache_insert; repeat case_match; intros; simplify_eq; done).
       assert (NoDup (keys (entries c ++ [mkEntry k d now]))) as Hnd'.
       { rewrite map_app. apply NoDup_app. split_and!; [done|set_solver|apply NoDup_singleton]. }
       apply cache_insert_cases in Ei as (Hm & [[-> Hl]|(e & Ee & Hl)]); rewrite Hm.
       - rewrite length_app, Nat.add_1_r. split_and!; [done|lia|done].
       - rewrite Ee in Hnd'. apply NoDup_cons in Hnd' as [_ Hnd']. apply (f_equal length) in Ee.
         rewrite length_app, Nat.add_1_r in Ee. cbn [length] in Ee. split_and!; [done|lia|done]. }
  all: revert He; cbn [cache_lookup cache_key_exist cache_remove cache_clear].
  1-3: destruct (hash_find (entries c) k) as [i|] eqn:Ei; intros [= <- <-]; cbn [entries max_entries];
    [apply find_split in Ei as (pre & e & post & Es & <- & _); rewrite Es in *|by split].
  1-2: split; [apply Hp, keys_touch|done].
  - rewrite delete_middle. rewrite map_app in *. cbn [map] in Hnd. apply NoDup_app in Hnd as (? & ? & [? ?]%NoDup_cons).
    rewrite length_app in *. cbn [length] in Hlen. split_and!; [|lia|done].
    apply NoDup_app. split_and!; [done|set_solver|done].
  - pose proof (clear_loop_spec age now (entries c)) as Hc. destruct (clear_loop age now (entries c)) as [es' fr].
    destruct Hc as [-> _]. intros [= <- <-]. cbn [entries max_entries].
    pose proof (sublist_filter (fun e : cache_entry D => ~ age < now - ts e) (entries c)) as Hsub. split_and!; [|apply sublist_length in Hsub; lia|done].
    eapply sublist_NoDup; [exact Hnd|]. by apply fmap_sublist.
Qed.

Lemma runs_wf c ops freed c' : cache_wf c -> runs c ops freed c' -> cache_wf c' /\ max_entries c' = max_entries c.
Proof.
  intros Hwf Hr. induction Hr as [|c op c1 fr ops fr2 c2 Hab He Hr IH]; [done|].
  apply exec_wf in He as [Hwf1 Hm]; [|done..]. rewrite <- Hm. by apply IH.
Qed.

(** The entry of [k] with data [d] is there, and what was used after it is in [K]. *)
Definition kept (K : list (list Z)) (k : list Z) (d : option D) (c : cache D) : Prop :=
  exists pre t post, entries c = pre ++ mkEntry k d t :: post /\ keys post ⊆ K.

(** Calls that use keys of [K], or look [k] up. *)
Definition uses (K : list (list Z)) (k : list Z) (op : call) : Prop :=
  match op with
  | Lookup k' _ | KeyExist k' _ => k' = k \/ k' ∈ K
  | Insert k' _ _ => k' ∈ K
  | Remove _ | Clear _ _ => False
  end.

Lemma split_unique (pre post pre' post' : list (cache_entry D)) (e e' : cache_entry D) :
  NoDup (keys (pre ++ e :: post)) -> pre ++ e :: post = pre' ++ e' :: post' -> ekey e = ekey e' ->
  pre = pre' /\ e = e' /\ post = post'.
Proof.
  intros Hnd Heq Hk. pose proof (find_here _ _ _ Hnd) as H1. rewrite Heq in Hnd, H1.
  pose proof (find_here _ _ _ Hnd) as H2. rewrite Hk, H2 in H1. injection H1 as Hl.
  apply app_inj_1 in Heq as [-> ?]; [|done]. by simplify_eq.
Qed.

Lemma touch_kept K k d m (es : list (cache_entry D)) i k' now :
  NoDup (keys es) -> kept K k d (mkCache m es) -> hash_find es k' = Some i -> k' = k \/ k' ∈ K ->
  kept K k d (mkCache m (touch es i now)).
Proof.
  intros Hnd (pre & t & post & Hes & Hpost) Hf Hk. cbn [entries] in Hes. subst es.
  apply find_split in Hf as (pre' & e & post' & Es & <- & He). rewrite Es, touch_split. unfold kept. cbn [entries].
  destruct (decide (k' = k)) as [->|Hne].
  - apply split_unique in Es as (-> & <- & ->); [|done..].
    exists (pre' ++ post'), now, []. split; [by rewrite <- app_assoc|set_solver].
  - destruct Hk as [|Hk]; [done|]. apply app_eq_inv in Es as [(mid & -> & Es)|(mid & -> & Es)]; destruct mid as [|x mid];
      cbn [app] in Es; simplify_eq/=; try done.
    + exists (pre' ++ mid), t, (post ++ [mkEntry (ekey x) (data x) now]).
      split; [by rewrite <- !app_assoc|]. rewrite map_app. set_solver.
    + exists pre, t, (mid ++ post' ++ [mkEntry (ekey e) (data e) now]).
      split; [by rewrite <- !app_assoc|]. revert Hpost. rewrite !map_app. cbn [map]. set_solver.
Qed.

Lemma exec_kept K k d op c c' freed :
  cache_wf c -> Z.of_nat (length K) + 1 < max_entries c -> kept K k d c -> uses K k op -> absent op c ->
  exec op c = (Some c', freed) -> kept K k d c'.
Proof.
  intros [Hnd _] HK Hkept Hu Hab He. destruct c as [m es]. cbn [entries max_entries] in *.
  destruct op as [k' now|k' now|k' d' now|k'|age now]; cbn [exec uses absent] in *; try done.
  1-2: revert He; cbn [cache_lookup cache_key_exist entries]; destruct (hash_find es k') as [i|] eqn:Ei;
    intros [= <- <-]; [by eapply touch_kept|done].
  destruct (cache_insert _ _ _ _ _) as [[err o] fr] eqn:Ei. simplify_eq.
  assert (err = OK) as -> by (revert Ei; unfold cache_insert; repeat case_match; intros; simplify_eq; done).
  destruct Hkept as (pre & t & post & Hes & Hpost). cbn [entries] in Hes. subst es.
  assert (keys (post ++ [mkEntry k' d' now]) ⊆ K) as Hpost' by (rewrite map_app; cbn [map ekey]; set_solver).
  apply cache_insert_cases in Ei as (_ & [[Hes _]|(x & Hes & Hlen)]); cbn [entries max_entries] in *;
    rewrite <- app_assoc in Hes; cbn [app] in Hes.
  - exists pre, t, (post ++ [mkEntry k' d' now]). by split.
  - destruct pre as [|y pre]; cbn [app] in *; simplify_eq; [|by exists pre, t, (post ++ [mkEntry k' d' now])].
    apply NoDup_cons in Hnd as [_ Hnd].
    assert (NoDup (keys (post ++ [mkEntry k' d' now]))) as Hnd'.
    { rewrite map_app. apply NoDup_app. split_and!; [done|set_solver|apply NoDup_singleton]. }
    pose proof (submseteq_length _ _ (NoDup_submseteq _ K Hnd' ltac:(set_solver))) as Hl.
    rewrite length_map, length_app in Hl. cbn [length] in *. lia.
Qed.

Lemma runs_kept K k d c ops freed c' :
  cache_wf c -> Z.of_nat (length K) + 1 < max_entries c -> kept K k d c -> Forall (uses K k) ops ->
  runs c ops freed c' -> kept K k d c'.
Proof.
  intros Hwf HK Hk Hu Hr. revert Hwf HK Hk Hu. induction Hr as [|c op c1 fr ops fr2 c2 Hab He Hr IH]; [done|].
  intros Hwf HK Hk [Hu Hus]%Forall_cons. destruct (exec_wf _ _ _ _ Hwf Hab He) as [Hwf1 Hm].
  apply IH; [done|by rewrite Hm|by apply (exec_kept K k d op c c1 fr)|done].
Qed.

(** An entry that is kept is found, and gives its data. *)
Lemma kept_found K k d c now :
  cache_wf c -> kept K k d c ->
  (exists c', cache_lookup (Some c) (Some k) now = (OK, Some c', d)) /\
  (exists c', cache_key_exist (Some c) (Some k) now = (Some c', true)).
Proof.
  intros [Hnd _] (pre & t & post & Hes & _). unfold cache_lookup, cache_key_exist. rewrite Hes in *.
  pose proof (find_here pre post (mkEntry k d t) Hnd) as Hf. cbn [ekey] in Hf. rewrite Hf, list_lookup_middle by done.
  split; eauto.
Qed.

(** The cache accounts for its data and keeps its shape: from a new cache,
    whatever sequence of lookups, insertions of absent keys, removals and clearings
    is made, what is held together with what was freed is exactly what was
    inserted, no key is there twice, and fewer than the capacity of entries are
    there. *)
Theorem cache_accounts capacity c0 ops freed c :
  cache_create true capacity = (OK, Some c0) -> runs c0 ops freed c ->
  held c ++ freed ≡ₚ concat (map inserted ops) /\
  NoDup (map ekey (entries c)) /\ Z.of_nat (length (entries c)) < Z.max 1 capacity.
Proof.
  intros [= <-] Hr. assert (cache_wf (mkCache capacity [])) as Hwf by (split; [constructor|cbn; lia]).
  pose proof (runs_wf _ _ _ _ Hwf Hr) as [[Hnd Hlen] Hm]. rewrite Hm in Hlen. split; [|by split]. clear Hwf Hnd Hlen Hm.
  enough (forall c0 : cache D, runs c0 ops freed c -> held c ++ freed ≡ₚ concat (map inserted ops) ++ held c0) as Hg.
  { rewrite (Hg _ Hr). by rewrite app_nil_r. }
  clear Hr. intros c0 Hr. induction Hr as [|c op c1 fr ops fr2 c2 _ He _ IH]; [by rewrite app_nil_r|].
  apply exec_accounts in He. cbn [map concat].
  transitivity ((held c2 ++ fr2) ++ fr); [solve_Permutation|]. rewrite IH.
  transitivity (concat (map inserted ops) ++ (held c1 ++ fr)); [solve_Permutation|]. rewrite He. solve_Permutation.
Qed.

(** The cache drops what was not used for longest: a key that was inserted is
    found with its data as long as fewer than the capacity less one other keys
    were inserted or looked up since, however many calls were made. *)
Theorem recent_key_found K k d now now' c c1 freed ops freed2 c2 :
  cache_wf c -> Z.of_nat (length K) + 1 < max_entries c -> k ∉ map ekey (entries c) ->
  cache_insert true (Some c) k d now = (OK, Some c1, freed) ->
  runs c1 ops freed2 c2 -> Forall (uses K k) ops ->
  exists c3, cache_lookup (Some c2) (Some k) now' = (OK, Some c3, d).
Proof.
  intros Hwf HK Hk Hi Hr Hops.
  assert (exec (Insert k d now) c = (Some c1, freed)) as He by (cbn [exec]; by rewrite Hi).
  destruct (exec_wf (Insert k d now) _ _ _ Hwf Hk He) as [Hwf1 Hm].
  assert (kept K k d c1) as Hk1.
  { apply cache_insert_cases in Hi as (_ & [[Hes _]|(e & Hes & Hl)]).
    - exists (entries c), now, []. split; [done|set_solver].
    - destruct (entries c) as [|x es] eqn:Ec; cbn [app length] in *; simplify_eq; [lia|].
      exists es, now, []. split; [done|set_solver]. }
  rewrite <- Hm in HK. destruct (runs_wf _ _ _ _ Hwf1 Hr) as [Hwf2 _].
  apply (runs_kept K k d _ ops freed2 c2) in Hk1; [|done..]. apply (kept_found K k d c2 now' Hwf2 Hk1).
Qed.

End Runs.

(** ** Replayed vectors *)

Section Replay.
Context `{HashFindLaws unit}.

(** New connections in a row: which are refused. *)
Fixpoint check_ivs (iv_cache : option (cache unit)) (ivs : list (list Z * Z)) : option (cache unit) * list bool :=
  match ivs with
  | [] => (iv_cache, [])
  | (iv, now) :: ivs =>
      let '(iv_cache, refused) := check_iv iv_cache iv now in
      let '(iv_cache, rs) := check_ivs iv_cache ivs in
      (iv_cache, refused :: rs)
  end.

Definition iv_wf (c : cache unit) : Prop :=
  cache_wf c /\ max_entries c = 256 /\ Forall (fun e => data e = None) (entries c).

Lemma touch_keys (es : list (cache_entry unit)) i k now :
  hash_find es k = Some i ->
  exists pre e post, es = pre ++ e :: post /\ ekey e = k /\
    touch es i now = (pre ++ post) ++ [mkEntry (ekey e) (data e) now].
Proof.
  intros (pre & e & post & -> & <- & He)%find_split. exists pre, e, post.
  split_and!; [done..|]. by rewrite touch_split, app_assoc.
Qed.

(** One connection: refused exactly when the vector is in the cache; it is the last
    entry then, and what was kept stays. *)
Lemma check_iv_spec (c : cache unit) iv now :
  iv_wf c ->
  exists c', check_iv (Some c) iv now = (Some c', bool_decide (iv ∈ map ekey (entries c))) /\ iv_wf c' /\
    map ekey (entries c') ⊆ iv :: map ekey (entries c) /\ kept [] iv None c' /\
    (forall K k, Z.of_nat (length K) < 255 -> iv = k \/ iv ∈ K -> kept K k None c -> kept K k None c').
Proof.
  intros (Hwf & Hm & Hdata). unfold check_iv, cache_key_exist. destruct (hash_find (entries c) iv) as [i|] eqn:Ei.
  - set (c' := mkCache (max_entries c) (touch (entries c) i now)). exists c'.
    assert (exec (KeyExist iv now) c = (Some c', [])) as He by (cbn; by rewrite Ei).
    destruct (exec_wf (KeyExist iv now) _ _ _ Hwf I He) as [Hwf' Hm'].
    apply touch_keys with (now := now) in Ei as (pre & e & post & Es & Hk & Ht).
    assert (entries c' = (pre ++ post) ++ [mkEntry (ekey e) (data e) now]) as Hes by exact Ht.
    rewrite Es in Hdata. apply Forall_app in Hdata as [Hd1 [Hd Hd2]%Forall_cons]. split_and!.
    + rewrite bool_decide_eq_true_2; [done|]. rewrite Es, map_app, <- Hk. set_solver.
    + split_and!; [done|by rewrite Hm'|]. rewrite Hes, !Forall_app. by repeat constructor.
    + rewrite Hes, Es, !map_app. cbn [map ekey]. set_solver.
    + exists (pre ++ post), now, []. rewrite Hes, Hk, Hd. split; [done|set_solver].
    + intros K k HK Hu Hkept. apply (exec_kept K k None (KeyExist iv now) c c' []); [done|lia|done|done|done|done].
  - pose proof (hash_find_none _ _ Ei) as Hn.
    assert (iv ∉ map ekey (entries c)) as Hni.
    { intros (e & -> & He)%list_elem_of_fmap. rewrite Forall_forall in Hn. by apply (Hn e). }
    destruct (cache_insert true (Some c) iv None now) as [[err o] fr] eqn:Eo.
    assert (exists c', err = OK /\ o = Some c') as (c' & -> & ->)
      by (revert Eo; unfold cache_insert; repeat case_match; intros; simplify_eq; eauto).
    assert (exec (Insert iv None now) c = (Some c', fr)) as He by (cbn [exec]; by rewrite Eo).
    destruct (exec_wf (Insert iv None now) _ _ _ Hwf Hni He) as [Hwf' Hm'].
    apply cache_insert_cases in Eo as (_ & Hes). exists c'.
    assert (exists drop es, drop ++ es = entries c /\ entries c' = es ++ [mkEntry iv None now]) as (drop & es & Hd & Hes').
    { destruct Hes as [[Hes _]|(e & Hes & Hl)]; [by exists [], (entries c)|].
      destruct (entries c) as [|x es]; cbn [app length] in *; [lia|]. exists [x], es. by simplify_eq. }
    split_and!.
    + by rewrite bool_decide_eq_false_2.
    + split_and!; [done|by rewrite Hm'|]. rewrite Hes', Forall_app. rewrite <- Hd, Forall_app in Hdata.
      split; [apply Hdata|by repeat constructor].
    + rewrite Hes', <- Hd, !map_app. cbn [map ekey]. set_solver.
    + exists es, now, []. split; [done|set_solver].
    + intros K k HK Hu Hkept.
      apply (exec_kept K k None (Insert iv None now) c c' fr); [done|lia|done| |done|done].
      destruct Hu as [->|Hu]; [|done]. destruct Hkept as (p & t & q & Heq & _). exfalso. apply Hni.
      rewrite Heq, map_app. set_solver.
Qed.

(** Connections in a row. *)
Lemma check_ivs_spec ivs : forall (c : cache unit) K,
  iv_wf c -> Z.of_nat (length K) < 255 ->
  exists c' rs, check_ivs (Some c) ivs = (Some c', rs) /\ length rs = length ivs /\ iv_wf c' /\
    map ekey (entries c') ⊆ map fst ivs ++ map ekey (entries c) /\
    (forall k, map fst ivs ⊆ k :: K -> kept K k None c -> kept K k None c').
Proof.
  induction ivs as [|[iv now] ivs IH]; intros c K Hwf HK; cbn [check_ivs].
  - exists c, []. split_and!; [done|done|done|set_solver|done].
  - destruct (check_iv_spec c iv now Hwf) as (c1 & -> & Hwf1 & Hks & _ & Hk).
    destruct (IH c1 K Hwf1 HK) as (c2 & rs & -> & Hl & Hwf2 & Hks2 & Hk2).
    eexists c2, (_ :: rs). cbn [map fst length]. split_and!; [done|by rewrite Hl|done|clear -Hks Hks2; set_solver|].
    intros k Hsub Hc. apply Hk2; [set_solver|]. apply Hk; [done|set_solver|done].
Qed.

Lemma check_ivs_app c ivs ivs2 :
  check_ivs c (ivs ++ ivs2) =
  let '(c1, rs) := check_ivs c ivs in let '(c2, rs2) := check_ivs c1 ivs2 in (c2, rs ++ rs2).
Proof.
  revert c. induction ivs as [|[iv now] ivs IH]; intros c; cbn [app check_ivs].
  - by destruct (check_ivs c ivs2).
  - destruct (check_iv c iv now) as [c1 r]. rewrite IH. destruct (check_ivs c1 ivs) as [c2 rs].
    by destruct (check_ivs c2 ivs2).
Qed.

(** A connection is refused as a replay exactly as meant: a vector that was
    never seen is accepted, and a vector that was seen is refused as long as fewer
    than 255 other vectors came since. *)
Theorem replay_refused seen iv now later now' K :
  map fst later ⊆ iv :: K -> Z.of_nat (length K) < 255 ->
  exists rs1 r rs2 c,
    check_ivs (snd (cache_create true 256)) (seen ++ (iv, now) :: later) = (Some c, rs1 ++ r :: rs2) /\
    length rs1 = length seen /\
    (iv ∉ map fst seen -> r = false) /\
    snd (check_iv (Some c) iv now') = true.
Proof.
  intros HK Hlen. assert (iv_wf (mkCache 256 [])) as Hwf by (split; [split; [constructor|cbn; lia]|by repeat constructor]).
  cbn [cache_create snd]. rewrite check_ivs_app.
  destruct (check_ivs_spec seen _ [] Hwf ltac:(done)) as (c1 & rs1 & -> & Hl1 & Hwf1 & Hks & _). cbn [check_ivs].
  destruct (check_iv_spec c1 iv now Hwf1) as (c2 & -> & Hwf2 & _ & Hk & _).
  destruct (check_ivs_spec later c2 K Hwf2 Hlen) as (c3 & rs2 & -> & _ & Hwf3 & _ & Hk3).
  eexists rs1, _, rs2, c3. split_and!; [done|done| |].
  - intros Hni. apply bool_decide_eq_false_2. cbn [entries map] in Hks. set_solver.
  - assert (kept K iv None c3) as Hk'.
    { apply Hk3; [done|]. destruct Hk as (p & t & q & Hes & Hq). exists p, t, q. split; [done|set_solver]. }
    destruct (check_iv_spec c3 iv now' Hwf3) as (c4 & -> & _). apply bool_decide_eq_true_2.
    destruct Hk' as (p & t & q & -> & _). rewrite map_app. set_solver.
Qed.

End Replay.

(** ** The counts of the block list *)

Section Counts.
Context `{HashFindLaws Z}.

Inductive bl_op :=
  | Check_addr (addr : list Z) (now : Z) | Update_addr (addr : list Z) (err_level now : Z)
  | Remove_addr (addr : list Z).

Definition bl_addr (op : bl_op) : list Z :=
  match op with Check_addr a _ | Update_addr a _ _ | Remove_addr a => a end.

Definition bl_do (bl : option (cache Z)) (op : bl_op) : option (cache Z) * bool :=
  match op with
  | Check_addr a now => check_block_list bl a now
  | Update_addr a l now => update_block_list bl a l now
  | Remove_addr a => (remove_from_block_list bl a, false)
  end.

(** What the block list means: a count for each address. *)
Definition count_do (m : gmap (list Z) Z) (op : bl_op) : gmap (list Z) Z * bool :=
  match op with
  | Check_addr a _ => (m, match m !! a with Some n => 64 <? n | None => false end)
  | Update_addr a l _ =>
      match m !! a with
      | Some n => if 64 <? n then (m, true) else (<[a := n + l]> m, false)
      | None => if 0 <? l then (<[a := 1]> m, false) else (m, false)
      end
  | Remove_addr a => (delete a m, false)
  end.

Fixpoint do_all {S} (f : S -> bl_op -> S * bool) (s : S) (ops : list bl_op) : list bool :=
  match ops with [] => [] | op :: ops => snd (f s op) :: do_all f (fst (f s op)) ops end.

(** A level that a report can have without wrapping the count. *)
Definition level_ok (op : bl_op) : Prop :=
  match op with Update_addr _ l _ => 0 <= l < 2 ^ 31 - 64 | _ => True end.

Record counts (K : list (list Z)) (es : list (cache_entry Z)) (m : gmap (list Z) Z) : Prop := {
  counts_nodup : NoDup (map ekey es);
  counts_keys : map ekey es ⊆ K;
  counts_data : Forall (fun e => exists n, data e = Some n /\ m !! ekey e = Some n /\ 0 <= n < 2 ^ 31) es;
  counts_dom a n : m !! a = Some n -> a ∈ map ekey es }.

Lemma counts_perm K es es' m :
  counts K es m -> map (fun e => (ekey e, data e)) es' ≡ₚ map (fun e => (ekey e, data e)) es -> counts K es' m.
Proof.
  intros [Hnd Hk Hd Hdom] Hp. assert (map ekey es' ≡ₚ map ekey es) as Hp'.
  { apply (Permutation_map fst) in Hp. by rewrite !map_map in Hp. }
  split; [by rewrite Hp'| intros a; rewrite Hp'; apply Hk| |intros a n Ha; rewrite Hp'; by eapply Hdom].
  rewrite Forall_forall in *. intros e He.
  assert ((ekey e, data e) ∈ map (fun e => (ekey e, data e)) es) as Hin.
  { rewrite <- Hp. apply list_elem_of_fmap. by exists e. }
  apply list_elem_of_fmap in Hin as (e2 & [= -> ->] & He2). by apply Hd.
Qed.

(** An address that is found twice in a row is moved to the end, with its count. *)
Lemma exist_lookup (pre post : list (cache_entry Z)) e mx now :
  NoDup (map ekey (pre ++ e :: post)) ->
  exists c1, cache_key_exist (Some (mkCache mx (pre ++ e :: post))) (Some (ekey e)) now = (Some c1, true) /\
    cache_lookup (Some c1) (Some (ekey e)) now =
      (OK, Some (mkCache mx ((pre ++ post) ++ [mkEntry (ekey e) (data e) now])), data e).
Proof.
  intros Hnd. unfold cache_key_exist. cbn [entries max_entries]. rewrite find_here by done. eexists. split; [done|].
  rewrite touch_split. unfold cache_lookup. cbn [entries max_entries]. rewrite app_assoc.
  assert (NoDup (map ekey ((pre ++ post) ++ [mkEntry (ekey e) (data e) now]))) as Hnd'.
  { rewrite <- app_assoc, <- touch_split, keys_touch. done. }
  pose proof (find_here _ _ _ Hnd') as Hf. cbn [ekey] in Hf. rewrite Hf, touch_split, list_lookup_middle by done.
  by rewrite app_nil_l.
Qed.

Lemma not_found (es : list (cache_entry Z)) mx a now :
  a ∉ map ekey es -> cache_key_exist (Some (mkCache mx es)) (Some a) now = (Some (mkCache mx es), false).
Proof. intros Hn. unfold cache_key_exist. cbn [entries]. by rewrite find_absent. Qed.

Lemma counts_absent K es m a : counts K es m -> m !! a = None -> a ∉ map ekey es.
Proof.
  intros Hc Ha (e & -> & He)%list_elem_of_fmap. destruct Hc as [_ _ Hd _]. rewrite Forall_forall in Hd.
  destruct (Hd e He) as (n & _ & Hm & _). congruence.
Qed.

Lemma counts_present K es m a n :
  counts K es m -> m !! a = Some n ->
  exists pre e post, es = pre ++ e :: post /\ ekey e = a /\ data e = Some n /\ 0 <= n < 2 ^ 31.
Proof.
  intros Hc Ha. pose proof (counts_dom _ _ _ Hc a n Ha) as (e & -> & He)%list_elem_of_fmap.
  pose proof (counts_data _ _ _ Hc) as Hd. rewrite Forall_forall in Hd. destruct (Hd e He) as (n' & Hn' & Hm & Hb).
  assert (n' = n) as -> by congruence. apply list_elem_of_split in He as (pre & post & ->). by exists pre, e, post.
Qed.

Lemma counts_insert K es m a n t :
  counts K es m -> a ∈ K -> a ∉ map ekey es -> 0 <= n < 2 ^ 31 ->
  counts K (es ++ [mkEntry a (Some n) t]) (<[a := n]> m).
Proof.
  intros [Hnd Hk Hd Hdom] Ha Hna Hn. split.
  - rewrite map_app. apply NoDup_app. split_and!; [done|set_solver|apply NoDup_singleton].
  - rewrite map_app. cbn [map ekey]. set_solver.
  - apply Forall_app. split.
    + rewrite Forall_forall in *. intros e He. rewrite lookup_insert_ne; [by apply Hd|].
      intros ->. apply Hna. apply list_elem_of_fmap. by exists e.
    + apply Forall_singleton. exists n. cbn [data ekey]. by rewrite lookup_insert_eq.
  - intros b k Hb. rewrite map_app. cbn [map ekey]. destruct (decide (a = b)) as [->|Hne]; [set_solver|].
    rewrite lookup_insert_ne in Hb by done. apply Hdom in Hb. set_solver.
Qed.

Lemma counts_delete K pre e post m :
  counts K (pre ++ e :: post) m -> counts K (pre ++ post) (delete (ekey e) m).
Proof.
  intros [Hnd Hk Hd Hdom]. rewrite map_app in *. cbn [map] in *.
  apply NoDup_app in Hnd as (Hn1 & Hn2 & [Hn3 Hn4]%NoDup_cons).
  apply Forall_app in Hd as [Hd1 [_ Hd2]%Forall_cons].
  assert (ekey e ∉ map ekey (pre ++ post)) as Hni by (rewrite map_app; set_solver).
  split; rewrite ?map_app.
  - apply NoDup_app. split_and!; [done|set_solver|done].
  - set_solver.
  - rewrite Forall_forall. intros x Hx. rewrite lookup_delete_ne.
    + assert (Forall (fun e => exists n, data e = Some n /\ m !! ekey e = Some n /\ 0 <= n < 2 ^ 31) (pre ++ post)) as Hf
        by (apply Forall_app; by split).
      rewrite Forall_forall in Hf. by apply Hf.
    + intros He. apply Hni. rewrite He. apply list_elem_of_fmap. by exists x.
  - intros b k [Hne Hb]%lookup_delete_Some. apply Hdom in Hb. set_solver.
Qed.

Lemma counts_touch K pre e post m t :
  counts K (pre ++ e :: post) m -> counts K ((pre ++ post) ++ [mkEntry (ekey e) (data e) t]) m.
Proof.
  intros Hc. eapply counts_perm; [exact Hc|]. rewrite !map_app. cbn [map ekey data]. solve_Permutation.
Qed.

(** One operation of the block list is one operation on the counts. *)
Lemma bl_do_counts K es m op :
  counts K es m -> Z.of_nat (length K) < 256 -> bl_addr op ∈ K -> level_ok op ->
  exists es', bl_do (Some (mkCache 256 es)) op = (Some (mkCache 256 es'), snd (count_do m op)) /\
    counts K es' (fst (count_do m op)).
Proof.
  intros Hc HK Ha Hl. destruct (m !! bl_addr op) as [n|] eqn:Hm.
  - destruct (counts_present _ _ _ _ _ Hc Hm) as (pre & e & post & -> & He & Hd & Hn).
    destruct op as [a now|a l now|a]; cbn [bl_addr bl_do count_do fst snd] in *; subst a; rewrite ?Hm.
    1-2: unfold check_block_list, update_block_list;
      destruct (exist_lookup pre post e 256 now (counts_nodup _ _ _ Hc)) as (c1 & -> & ->); rewrite Hd.
    + eexists. split; [done|]. rewrite <- Hd. by apply counts_touch.
    + destruct (64 <? n) eqn:En; zify_bool; unfold MAX_TRIES.
      * rewrite (proj2 (Z.ltb_lt _ _) En). eexists. split; [done|]. rewrite <- Hd. by apply counts_touch.
      * rewrite (proj2 (Z.ltb_ge _ _) En). cbn [fmap option_fmap option_map fst snd]. unfold add_count. cbn [entries max_entries].
        rewrite last_snoc, removelast_last. cbn [data ekey ts fmap option_fmap option_map].
        eexists. split; [done|]. rewrite s32_id by (cbn [level_ok] in Hl; lia).
        assert (<[ekey e := n + l]> m = <[ekey e := n + l]> (delete (ekey e) m)) as -> by (by rewrite insert_delete_eq).
        apply counts_insert; [by apply counts_delete|done| |cbn [level_ok] in Hl; lia].
        pose proof (counts_nodup _ _ _ Hc) as Hnd. rewrite map_app in *. cbn [map] in Hnd.
        apply NoDup_app in Hnd as (_ & Hnd & [? _]%NoDup_cons). set_solver.
    + unfold remove_from_block_list, cache_remove. cbn [entries max_entries].
      rewrite find_here, delete_middle by apply Hc. eexists. split; [done|]. by apply counts_delete.
  - pose proof (counts_absent _ _ _ _ Hc Hm) as Hni.
    destruct op as [a now|a l now|a]; cbn [bl_addr bl_do count_do fst snd] in *; rewrite ?Hm.
    1-2: unfold check_block_list, update_block_list; rewrite not_found by done.
    + by exists es.
    + case_bool; [|by exists es]. cbn [fst snd].
      assert (counts K (es ++ [mkEntry a (Some 1) now]) (<[a := 1]> m)) as Hc' by (apply counts_insert; [done..|lia]).
      pose proof (submseteq_length _ _ (NoDup_submseteq _ K (counts_nodup _ _ _ Hc') (counts_keys _ _ _ Hc'))) as Hlen.
      rewrite length_map in Hlen. unfold cache_insert. cbn [entries max_entries].
      rewrite (proj2 (Z.leb_gt _ _)) by lia. eexists. by split.
    + unfold remove_from_block_list, cache_remove. cbn [entries]. rewrite find_absent by done. exists es.
      split; [done|]. by rewrite delete_id.
Qed.

(** The block list is a counter for each peer: as long as at most 255 addresses
    are reported, checked or removed, every answer - whether a peer is refused,
    whether a report finds it blocked already - is the answer of a map from the
    addresses to their counts, in which the first failure counts 1 whatever its
    level, later ones their level until the count is over 64, and a removal
    forgets the peer. *)
Theorem block_list_counts K bl ops :
  init_block_list true = Some bl -> Z.of_nat (length K) < 256 ->
  Forall (fun op => bl_addr op ∈ K /\ level_ok op) ops ->
  do_all bl_do (Some bl) ops = do_all count_do ∅ ops.
Proof.
  intros [= <-] HK Hops.
  assert (counts K [] ∅) as Hc by (split; [constructor|set_solver|constructor|done]).
  generalize dependent Hc. generalize (@nil (cache_entry Z)) as es. generalize (∅ : gmap (list Z) Z) as m.
  induction Hops as [|op ops [Ha Hl] _ IH]; intros m es Hc; [done|]. cbn [do_all].
  destruct (bl_do_counts K es m op Hc HK Ha Hl) as (es' & -> & Hc'). cbn [fst snd]. by rewrite (IH _ _ Hc').
Qed.

End Counts.

Lemma cache_accounts_witness :
  let c0 := mkCache 2 [] in
  exists c, runs c0 [Insert [1] (Some 10) 0; Insert [2] (Some 20) 1] [([1], 10)] c /\
    held c ++ [([1], 10)] ≡ₚ [([1], 10); ([2], 20)].
Proof.
  exists (mkCache 2 [mkEntry [2] (Some 20) 1]).
  assert (runs (mkCache 2 []) [Insert [1] (Some 10) 0; Insert [2] (Some 20) 1] [([1], 10)]
            (mkCache 2 [mkEntry [2] (Some 20) 1])) as Hr.
  { apply (runs_cons _ _ (mkCache 2 [mkEntry [1] (Some 10) 0]) [] _ [([1], 10)]); [set_solver|reflexivity|].
    apply (runs_cons _ _ (mkCache 2 [mkEntry [2] (Some 20) 1]) [([1], 10)] _ []); [set_solver|reflexivity|constructor]. }
  split; [exact Hr|]. exact (proj1 (cache_accounts 2 (mkCache 2 []) _ _ _ eq_refl Hr)).
Defined.

Lemma recent_key_found_witness :
  let c := mkCache 3 [mkEntry [9] (Some 90) 0; mkEntry [8] (Some 80) 1] in
  exists c3, cache_lookup (Some (mkCache 3 [mkEntry [1] (Some 10) 2; mkEntry [7] None 3])) (Some [1]) 4 = (OK, Some c3, Some 10).
Proof.
  intros c.
  apply (recent_key_found [[7]] [1] (Some 10) 2 4 c (mkCache 3 [mkEntry [8] (Some 80) 1; mkEntry [1] (Some 10) 2])
           [([9], 90)] [Insert [7] None 3] [([8], 80)] (mkCache 3 [mkEntry [1] (Some 10) 2; mkEntry [7] None 3])).
  - split; [|reflexivity]. apply (bool_decide_unpack _). reflexivity.
  - reflexivity.
  - apply (bool_decide_unpack _). reflexivity.
  - reflexivity.
  - apply (runs_cons _ _ (mkCache 3 [mkEntry [1] (Some 10) 2; mkEntry [7] None 3]) [([8], 80)] _ []);
      [apply (bool_decide_unpack _); reflexivity|reflexivity|constructor].
  - repeat constructor.
Defined.

Lemma replay_refused_witness :
  snd (check_iv (fst (check_ivs (snd (cache_create true 256)) [([1; 2], 0); ([3; 4], 1)])) [1; 2] 5) = true.
Proof.
  destruct (replay_refused [] [1; 2] 0 [([3; 4], 1)] 5 [[3; 4]] ltac:(set_solver) ltac:(done))
    as (rs1 & r & rs2 & c & E & _ & _ & Hr).
  cbn [app] in E. rewrite E. exact Hr.
Defined.

Lemma block_list_counts_witness :
  do_all bl_do (Some (mkCache 256 []))
    [Update_addr [1] 33 0; Update_addr [1] 33 1; Check_addr [1] 2; Update_addr [1] 33 3; Check_addr [1] 4; Remove_addr [1]; Check_addr [1] 5]
  = [false; false; false; false; true; false; false].
Proof.
  etransitivity; [apply (block_list_counts [[1]]); [reflexivity|reflexivity|]|vm_compute; reflexivity].
  repeat (apply Forall_cons; split; [split; [apply (bool_decide_unpack _); reflexivity|cbn; lia]|]). constructor.
Defined.

End Cache.
