(* ===== verification/Ota.v ===== *)
(** * Ota: one-time authentication in shadowsocksr-libev

    Models [ss_onetimeauth], [ss_onetimeauth_verify], [ss_gen_hash] and
    [ss_check_hash] of src/server/encrypt.c with the buffers they work on.  A
    request header is followed by a MAC of ten bytes; each packet behind it is a
    chunk: its length in two bytes, a MAC of ten, the data.  The receiver collects
    a chunk byte by byte across calls and moves the data of each chunk that is
    complete to the front of the caller's buffer, in place.

    HMAC-SHA1 and [realloc] are parameters; [HmacLaws] says how long a hash is,
    [ReallocLaws] that [realloc] keeps what was there. *)

From S2P Require Import Prelude Libc.

Import Libc.

Module Ota.

Definition ONETIMEAUTH_BYTES : Z := 10.
Definition CLEN_BYTES : Z := 2.
Definition AUTH_BYTES : Z := ONETIMEAUTH_BYTES + CLEN_BYTES.

(** [buffer_t]: the object [array] points to, whose length is [capacity], and
    [len]. *)
Record buffer_t := mkBuf { array : list Z; len : Z }.

(** [chunk_t]. *)
Record chunk_t := mkChunk { idx : Z; ck_len : Z; counter : Z; ck_buf : buffer_t }.

Class ReallocLaws (realloc : list Z -> Z -> list Z) := {
  realloc_length a n : Z.of_nat (length a) <= n -> Z.of_nat (length (realloc a n)) = n;
  realloc_prefix a n : Z.of_nat (length a) <= n -> a `prefix_of` realloc a n }.
Class HmacLaws (hmac : list Z -> list Z -> list Z) := {
  hmac_length k m : length (hmac k m) = 20%nat;
  hmac_bytes k m : is_bytes (hmac k m) }.

(** [ret |= _s1[i] ^ _s2[i]] over two blocks of the same length, then [!!ret]. *)
Fixpoint memcmp_bits (ret : Z) (s1 s2 : list Z) : Z :=
  match s1, s2 with
  | a :: s1, b :: s2 => memcmp_bits (Z.lor ret (Z.lxor a b)) s1 s2
  | _, _ => ret
  end.
Definition safe_memcmp (s1 s2 : list Z) : Z := if memcmp_bits 0 s1 s2 =? 0 then 0 else 1.

Section Ota.
Context (realloc : list Z -> Z -> list Z) (hmac : list Z -> list Z -> list Z).
(** The globals of the encryption; [iv] is the object the callers pass, the one of
    the connection. *)
Context (enc_iv_len : Z) (enc_key : list Z) (iv : list Z).

Definition brealloc (b : buffer_t) (n capacity : Z) : buffer_t :=
  let real_capacity := Z.max n capacity in
  if Z.of_nat (length (array b)) <? real_capacity then mkBuf (realloc (array b) real_capacity) (len b) else b.

(** ** The header *)

Definition ss_onetimeauth (buf : buffer_t) (capacity : Z) : option buffer_t :=
  iv ← mread iv 0 enc_iv_len;
  let buf := brealloc buf (ONETIMEAUTH_BYTES + len buf) capacity in
  msg ← mread (array buf) 0 (len buf);
  hash ← mread (hmac (iv ++ enc_key) msg) 0 ONETIMEAUTH_BYTES;
  a ← mwrite (array buf) (len buf) hash;
  Some (mkBuf a (len buf + ONETIMEAUTH_BYTES)).

(** The length is a [size_t]: a buffer shorter than a MAC gives a huge one. *)
Definition ss_onetimeauth_verify (buf : buffer_t) : option Z :=
  iv ← mread iv 0 enc_iv_len;
  let n := u64 (len buf - ONETIMEAUTH_BYTES) in
  msg ← mread (array buf) 0 n;
  hash ← mread (hmac (iv ++ enc_key) msg) 0 ONETIMEAUTH_BYTES;
  mac ← mread (array buf) n ONETIMEAUTH_BYTES;
  Some (safe_memcmp mac hash).

(** ** Chunks *)

(** The MAC of a chunk under its number. *)
Definition chunk_mac (counter : Z) (data : list Z) : option (list Z) :=
  iv ← mread iv 0 enc_iv_len;
  mread (hmac (iv ++ htonl_bytes counter) data) 0 ONETIMEAUTH_BYTES.

Definition ss_gen_hash (buf : buffer_t) (counter capacity : Z) : option (buffer_t * Z) :=
  let blen := len buf in
  let buf := brealloc buf (AUTH_BYTES + blen) capacity in
  data ← mread (array buf) 0 blen;
  hash ← chunk_mac counter data;
  a ← mwrite (array buf) AUTH_BYTES data;
  a ← mwrite a CLEN_BYTES hash;
  a ← mwrite a 0 (be_bytes 2 (u16 blen));
  Some (mkBuf a (blen + AUTH_BYTES), u32 (counter + 1)).

(** [if (cidx == CLEN_BYTES)]: the length of the chunk, and room for it. *)
Definition chunk_length (cidx capacity : Z) (chunk : chunk_t) : option chunk_t :=
  if cidx =? CLEN_BYTES then
    clen ← ld_be 2 (array (ck_buf chunk)) 0;
    Some (mkChunk (idx chunk) clen (counter chunk) (brealloc (ck_buf chunk) (clen + AUTH_BYTES) capacity))
  else Some chunk.

(** The loop, [n] turns before its end: [None] inside is [return 0]. *)
Fixpoint check_loop (n : nat) (j k cidx capacity : Z) (a : list Z) (chunk : chunk_t)
    : option (option (Z * Z * list Z * chunk_t)) :=
  match n with
  | O => Some (Some (j, cidx, a, chunk))
  | S n =>
      x ← a @! k;
      b ← wr (array (ck_buf chunk)) cidx x;
      let cidx := u32 (cidx + 1) in
      let k := k + 1 in
      chunk ← chunk_length cidx capacity (mkChunk (idx chunk) (ck_len chunk) (counter chunk) (mkBuf b (len (ck_buf chunk))));
      if cidx =? u32 (ck_len chunk + AUTH_BYTES) then
        data ← mread (array (ck_buf chunk)) AUTH_BYTES (ck_len chunk);
        hash ← chunk_mac (counter chunk) data;
        mac ← mread (array (ck_buf chunk)) CLEN_BYTES ONETIMEAUTH_BYTES;
        if negb (safe_memcmp hash mac =? 0) then Some None else
        rest ← mread a k (Z.of_nat n);
        a ← mwrite a (j + ck_len chunk) rest;
        a ← mwrite a j data;
        let j := j + ck_len chunk in
        check_loop n j j 0 capacity a
          (mkChunk (idx chunk) (ck_len chunk) (u32 (counter chunk + 1)) (ck_buf chunk))
      else check_loop n j k cidx capacity a chunk
  end.

(** The number returned with the buffer and the chunk. *)
Definition ss_check_hash (buf : buffer_t) (chunk : chunk_t) (capacity : Z) : option (Z * buffer_t * chunk_t) :=
  let blen := len buf in
  let chunk := mkChunk (idx chunk) (ck_len chunk) (counter chunk)
                 (brealloc (ck_buf chunk) (ck_len chunk + blen) capacity) in
  let buf := brealloc buf (ck_len chunk + blen) capacity in
  r ← check_loop (Z.to_nat blen) 0 0 (idx chunk) capacity (array buf) chunk;
  Some (match r with
        | Some (j, cidx, a, chunk) =>
            (1, mkBuf a j, mkChunk cidx (ck_len chunk) (counter chunk) (ck_buf chunk))
        | None => (0, buf, chunk)
        end).

(** Packets sent in a row, each in a buffer of its own: the bytes on the wire. *)
Fixpoint send_chunks (bufs : list buffer_t) (counter capacity : Z) : option (list Z) :=
  match bufs with
  | [] => Some []
  | b :: bufs =>
      '(b, counter) ← ss_gen_hash b counter capacity;
      sent ← mread (array b) 0 (len b);
      rest ← send_chunks bufs counter capacity;
      Some (sent ++ rest)
  end.

(** Segments received in a row: what is passed on, [None] inside when a call
    refuses. *)
Fixpoint recv_chunks (chunk : chunk_t) (bufs : list buffer_t) (capacity : Z) : option (option (list Z)) :=
  match bufs with
  | [] => Some (Some [])
  | b :: bufs =>
      '(r, b, chunk) ← ss_check_hash b chunk capacity;
      if r =? 0 then Some None else
      out ← mread (array b) 0 (len b);
      rest ← recv_chunks chunk bufs capacity;
      Some (option_map (app out) rest)
  end.

(** ** What the receiver does, byte by byte

    The bytes of the open chunk and the number of the next one. *)
Definition feed_byte (s : list Z * Z) (x : Z) : option (list Z * (list Z * Z)) :=
  let '(cb, c) := s in
  let cb := cb ++ [x] in
  if (2 <=? length cb)%nat && (Z.of_nat (length cb) =? be_val (take 2 cb) + 12) then
    if bool_decide (chunk_mac c (drop 12 cb) = Some (take 10 (drop 2 cb)))
    then Some (drop 12 cb, ([], u32 (c + 1))) else None
  else Some ([], (cb, c)).

Fixpoint feed (s : list Z * Z) (xs : list Z) : option (list Z * (list Z * Z)) :=
  match xs with
  | [] => Some ([], s)
  | x :: xs => '(o, s) ← feed_byte s x; '(o2, s) ← feed s xs; Some (o ++ o2, s)
  end.

(** A chunk as it is sent. *)
Definition chunk_of (c : Z) (data : list Z) : list Z :=
  be_bytes 2 (Z.of_nat (length data)) ++ default [] (chunk_mac c data) ++ data.

(** The connection's vector is as long as the cipher says. *)
Class IvFits := { iv_fits : 0 <= enc_iv_len <= Z.of_nat (length iv); iv_small : enc_iv_len < 2 ^ 31 }.

(** ** The receiver refines the byte machine *)

Context {RL : ReallocLaws realloc} {HL : HmacLaws hmac}.
Context {IV : IvFits}.

Lemma chunk_mac_Some c data :
  exists m, chunk_mac c data = Some m /\ length m = 10%nat.
Proof using HL IV.
  pose proof iv_fits. pose proof iv_small.
  unfold chunk_mac, ONETIMEAUTH_BYTES. rewrite mread_in by lia. cbn [mbind option_bind].
  rewrite mread_in by (rewrite ?hmac_length; lia). eexists. split; [done|].
  rewrite length_take, drop_0, hmac_length. done.
Qed.

Lemma memcmp_bits_0 ret s1 s2 :
  length s1 = length s2 -> memcmp_bits ret s1 s2 = 0 <-> ret = 0 /\ s1 = s2.
Proof.
  revert ret s2. induction s1 as [|a s1 IH]; intros ret [|b s2] Hl; cbn [memcmp_bits]; try done; [naive_solver|].
  rewrite IH by (cbn in Hl; lia). rewrite Z.lor_eq_0_iff. split.
  - intros [[-> Hx%Z.lxor_eq] ->]. by subst.
  - intros [-> [= -> ->]]. by rewrite Z.lxor_nilpotent.
Qed.

Lemma safe_memcmp_0 s1 s2 : length s1 = length s2 -> (safe_memcmp s1 s2 =? 0) = bool_decide (s1 = s2).
Proof.
  intros Hl. pose proof (memcmp_bits_0 0 s1 s2 Hl) as Hm. unfold safe_memcmp.
  destruct (Z.eqb_spec (memcmp_bits 0 s1 s2) 0) as [E|E]; case_bool_decide; naive_solver.
Qed.

Lemma brealloc_spec b n cap :
  array b `prefix_of` array (brealloc b n cap) /\ Z.max n cap <= Z.of_nat (length (array (brealloc b n cap))) /\
  len (brealloc b n cap) = len b.
Proof using RL.
  unfold brealloc. case_bool; cbn [array len].
  - split_and!; [by apply realloc_prefix; lia|rewrite realloc_length by lia; lia|done].
  - split_and!; [done|lia|done].
Qed.

(** The bytes [cb] of a chunk are in its buffer; the second part says it is not
    complete. *)
Definition gathers (cb : list Z) (c : Z) (ck : chunk_t) : Prop :=
  counter ck = c /\ 0 <= ck_len ck < 65536 /\ is_bytes cb /\ cb `prefix_of` array (ck_buf ck) /\
  2 <= Z.of_nat (length (array (ck_buf ck))) /\
  ((length cb < 2)%nat \/
   ck_len ck = be_val (take 2 cb) /\ Z.of_nat (length cb) <= ck_len ck + 12 <= Z.of_nat (length (array (ck_buf ck)))).
Definition collects (cb : list Z) (c : Z) (ck : chunk_t) : Prop :=
  gathers cb c ck /\ ((length cb < 2)%nat \/ Z.of_nat (length cb) < ck_len ck + 12).

Lemma wr_prefix cb a x :
  cb `prefix_of` a -> (length cb < length a)%nat ->
  exists a', wr a (Z.of_nat (length cb)) x = Some a' /\ (cb ++ [x]) `prefix_of` a' /\ length a' = length a.
Proof.
  intros [r ->] Hl. rewrite length_app in Hl. destruct r as [|y r]; [cbn in Hl; lia|].
  rewrite wr_app by done. eexists. split; [done|]. split; [exists r; by rewrite <- app_assoc|by rewrite !length_app].
Qed.

(** One byte goes into the buffer. *)
Lemma gather_turn cb c ck x cap :
  collects cb c ck -> 0 <= x < 256 -> 2 <= cap ->
  exists b ck', wr (array (ck_buf ck)) (Z.of_nat (length cb)) x = Some b /\
    chunk_length (Z.of_nat (length cb) + 1) cap (mkChunk (idx ck) (ck_len ck) (counter ck) (mkBuf b (len (ck_buf ck)))) = Some ck' /\
    gathers (cb ++ [x]) c ck'.
Proof using RL.
  intros [(Hc & Hlen & Hb & Hpre & H2 & Hopen) Hlt] Hx Hcap.
  assert (length cb < length (array (ck_buf ck)))%nat as Hroom by (destruct Hlt, Hopen; lia).
  destruct (wr_prefix cb _ x Hpre Hroom) as (b & Hw & Hpre' & Hl). exists b. rewrite Hw.
  assert (is_bytes (cb ++ [x])) as Hb' by (apply Forall_app; split; [done|by constructor]).
  unfold chunk_length, AUTH_BYTES, ONETIMEAUTH_BYTES, CLEN_BYTES. case_bool.
  - destruct cb as [|y [|z cb]]; cbn [length] in E; try lia. cbn [app] in *.
    destruct Hpre' as [r ->]. cbn [array ck_buf].
    assert (ld_be 2 ([y; x] ++ r) 0 = Some (be_val [y; x])) as -> by (unfold ld_be; by rewrite mread_prefix by (cbn; lia)).
    cbn [mbind option_bind]. eexists. split_and!; [done|done|].
    destruct (brealloc_spec (mkBuf ([y; x] ++ r) (len (ck_buf ck))) (be_val [y; x] + (10 + 2)) cap) as (Hp & Hm & _).
    pose proof (be_val_range [y; x] Hb') as Hr. cbn [length] in Hr. change (256 ^ Z.of_nat 2) with 65536 in Hr.
    split_and!; cbn [counter ck_len ck_buf array]; [done|lia|lia|done|etransitivity; [|exact Hp]; by exists r|lia|].
    right. cbn [take]. split; [done|]. cbn [length]. lia.
  - eexists. split_and!; [done|done|]. split_and!; cbn [counter ck_len ck_buf array]; [done|lia|lia|done|done|lia|].
    rewrite length_app. cbn [length]. destruct Hlt as [Hlt|Hlt]; [left; lia|]. destruct Hopen as [?|[Hv ?]]; [left; lia|].
    destruct (decide (length cb < 2)%nat); [left; lia|].
    right. rewrite take_app_le by lia. split; [done|]. rewrite Hl. lia.
Qed.

Lemma feed_byte_partial cb c x :
  ((length cb < 1)%nat \/ Z.of_nat (S (length cb)) <> be_val (take 2 (cb ++ [x])) + 12) ->
  feed_byte (cb, c) x = Some ([], (cb ++ [x], c)).
Proof.
  intros Hn. unfold feed_byte. rewrite length_app, Nat.add_1_r.
  destruct ((2 <=? S (length cb))%nat && _) eqn:E; [|done]. zify_bool. apply Nat.leb_le in H. destruct Hn; lia.
Qed.

(** Moving what is left behind the data of a chunk. *)
Lemma place_chunk out rest inp data :
  (length data + length inp <= length rest)%nat ->
  (a ← mwrite (out ++ rest) (Z.of_nat (length out) + Z.of_nat (length data)) inp; mwrite a (Z.of_nat (length out)) data) =
  Some (out ++ data ++ inp ++ drop (length data + length inp) rest).
Proof.
  intros Hl. destruct (split_block rest (length data)) as (r1 & r2 & -> & H1); [lia|].
  destruct (split_block r2 (length inp)) as (r3 & r4 & -> & H3); [rewrite length_app in Hl; lia|].
  replace (out ++ r1 ++ r3 ++ r4) with ((out ++ r1) ++ r3 ++ r4) by list_assoc.
  rewrite mwrite_app by (rewrite ?length_app; lia). cbn [mbind option_bind].
  replace ((out ++ r1) ++ inp ++ r4) with (out ++ r1 ++ inp ++ r4) by list_assoc.
  rewrite mwrite_app by lia. do 4 f_equal.
  rewrite app_assoc, drop_app_ge by (rewrite length_app; lia).
  by rewrite length_app, H1, H3, Nat.sub_diag.
Qed.

(** The byte machine at a byte: the chunk goes on, or it is complete and its MAC is
    looked at. *)
Lemma feed_byte_complete cb c x :
  (2 <= length (cb ++ [x]))%nat -> Z.of_nat (length (cb ++ [x])) = be_val (take 2 (cb ++ [x])) + 12 ->
  feed_byte (cb, c) x =
    if bool_decide (chunk_mac c (drop 12 (cb ++ [x])) = Some (take 10 (drop 2 (cb ++ [x]))))
    then Some (drop 12 (cb ++ [x]), ([], u32 (c + 1))) else None.
Proof. intros H2 Hl. unfold feed_byte. by rewrite (proj2 (Nat.leb_le _ _) H2), (proj2 (Z.eqb_eq _ _) Hl). Qed.

(** A complete chunk in its buffer: the data and the MAC the code reads. *)
Lemma complete_reads cb c ck :
  gathers cb c ck -> (2 <= length cb)%nat -> Z.of_nat (length cb) = ck_len ck + 12 ->
  mread (array (ck_buf ck)) AUTH_BYTES (ck_len ck) = Some (drop 12 cb) /\
  mread (array (ck_buf ck)) CLEN_BYTES ONETIMEAUTH_BYTES = Some (take 10 (drop 2 cb)) /\
  ck_len ck = be_val (take 2 cb).
Proof.
  intros (_ & Hr & _ & [r Hp] & _ & Hopen) H2 Hl. destruct Hopen as [?|[Hv _]]; [lia|].
  unfold AUTH_BYTES, CLEN_BYTES, ONETIMEAUTH_BYTES. rewrite Hp. split_and!; [| |done].
  - rewrite <- (take_drop 12 cb) at 1. rewrite <- app_assoc. apply mread_app; rewrite ?length_take, ?length_drop; lia.
  - rewrite <- (take_drop 2 cb) at 1. rewrite <- (take_drop 10 (drop 2 cb)) at 1.
    rewrite <- !app_assoc. apply mread_app; rewrite ?length_take, ?length_drop; lia.
Qed.

Definition fed (out : list Z) (r : option (list Z * (list Z * Z))) (n : nat)
    (res : option (option (Z * Z * list Z * chunk_t))) : Prop :=
  match r with
  | None => res = Some None
  | Some (o, (cb, c)) =>
      exists a ck, res = Some (Some (Z.of_nat (length (out ++ o)), Z.of_nat (length cb), a, ck)) /\
        (out ++ o) `prefix_of` a /\ length a = n /\ collects cb c ck
  end.

Lemma fed_app out d r n res :
  fed (out ++ d) r n res -> fed out ('(o2, s) ← r; Some (d ++ o2, s)) n res.
Proof. unfold fed. destruct r as [[o2 [cb c]]|]; cbn [mbind option_bind]; [|done]. by rewrite <- app_assoc. Qed.

(** The steps behind a complete chunk with the right MAC. *)
Lemma chunk_done (out gap : list Z) (x : Z) (input post data : list Z) (T : Type) :
  Z.of_nat (length input) < 2 ^ 31 -> (length data <= S (length gap + length post))%nat ->
  exists post' : list Z, length (out ++ gap ++ (x :: input) ++ post) = length ((out ++ data) ++ [] ++ input ++ post') /\
    forall (f : list Z -> option T),
    (rest ← mread (out ++ gap ++ (x :: input) ++ post) (Z.of_nat (length (out ++ gap)) + 1) (Z.of_nat (length input));
     a ← mwrite (out ++ gap ++ (x :: input) ++ post) (Z.of_nat (length out) + Z.of_nat (length data)) rest;
     a ← mwrite a (Z.of_nat (length out)) data; f a) = f ((out ++ data) ++ [] ++ input ++ post').
Proof.
  intros Hil Hd. set (post' := drop (length data + length input) (gap ++ (x :: input) ++ post)). exists post'. split.
  { unfold post'. rewrite !length_app, !length_drop, !length_app. cbn [length]. lia. }
  intros f. assert (mread (out ++ gap ++ (x :: input) ++ post) (Z.of_nat (length (out ++ gap)) + 1) (Z.of_nat (length input)) = Some input) as ->.
  { replace (out ++ gap ++ (x :: input) ++ post) with ((out ++ gap ++ [x]) ++ input ++ post) by list_assoc.
    apply mread_app; [rewrite !length_app; cbn [length]; lia|done|lia]. }
  cbn [mbind option_bind].
  pose proof (place_chunk out (gap ++ (x :: input) ++ post) input data) as Hplace.
  specialize (Hplace ltac:(rewrite !length_app; cbn [length]; lia)).
  destruct (mwrite (out ++ gap ++ _) _ input) as [a1|]; cbn [mbind option_bind] in *; [|done].
  rewrite Hplace. cbn [mbind option_bind]. fold post'. by rewrite <- app_assoc.
Qed.

Lemma check_loop_feed cap input : forall out gap post cb c ck,
  2 <= cap -> collects cb c ck -> is_bytes input ->
  (length cb <= length gap + length post + 12)%nat ->
  Z.of_nat (length (out ++ gap ++ input ++ post)) < 2 ^ 31 ->
  fed out (feed (cb, c) input) (length (out ++ gap ++ input ++ post))
    (check_loop (length input) (Z.of_nat (length out)) (Z.of_nat (length (out ++ gap))) (Z.of_nat (length cb)) cap
       (out ++ gap ++ input ++ post) ck).
Proof.
  induction input as [|x input IH]; intros out gap post cb c ck Hcap Hck Hin Hroom Hsmall; cbn [length feed check_loop].
  - exists (out ++ gap ++ post), ck. rewrite !app_nil_r. split_and!; [done|by eexists|done|done].
  - apply Forall_cons in Hin as [Hx Hin].
    assert (Z.of_nat (length input) < 2 ^ 31) as Hil by (rewrite !length_app in Hsmall; cbn [length] in Hsmall; lia).
    replace (out ++ gap ++ (x :: input) ++ post) with ((out ++ gap) ++ x :: input ++ post) at 2 by list_assoc.
    rewrite rd_app_mid by done. cbn [mbind option_bind].
    destruct (gather_turn cb c ck x cap Hck Hx Hcap) as (b & ck' & -> & Hlen & Hg). cbn [mbind option_bind].
    assert (Z.of_nat (length cb) < 65536 + 12) as Hsm.
    { destruct Hck as [(_ & ? & _) [?|?]]; lia. }
    rewrite u32_id by lia. rewrite Hlen. cbn [mbind option_bind].
    assert (length (cb ++ [x]) = S (length cb)) as Hl1 by (rewrite length_app; cbn; lia).
    assert (0 <= ck_len ck' < 65536 /\ counter ck' = c) as [Hcl Hcc] by (split; apply Hg).
    unfold AUTH_BYTES at 1, ONETIMEAUTH_BYTES at 1, CLEN_BYTES at 1. rewrite u32_id by lia.
    destruct (Z.of_nat (length cb) + 1 =? ck_len ck' + (10 + 2)) eqn:E; zify_bool.
    + destruct (complete_reads (cb ++ [x]) c ck' Hg) as (Hd & Hm & Hv); [lia|lia|].
      rewrite Hd, Hm. cbn [mbind option_bind]. rewrite feed_byte_complete by lia. rewrite Hcc.
      destruct (chunk_mac_Some c (drop 12 (cb ++ [x]))) as (m & Hmac & Hml). rewrite Hmac. cbn [mbind option_bind].
      rewrite safe_memcmp_0 by (rewrite length_take, length_drop; lia).
      rewrite (bool_decide_ext (Some m = _) (m = take 10 (drop 2 (cb ++ [x])))) by naive_solver.
      case_bool_decide; cbn [negb mbind option_bind]; [|done].
      assert (Z.of_nat (length (drop 12 (cb ++ [x]))) = ck_len ck') as Hdl by (rewrite length_drop; lia).
      destruct (chunk_done out gap x input post (drop 12 (cb ++ [x])) (option (Z * Z * list Z * chunk_t)))
        as (post' & Hlen' & Hdone); [done|rewrite length_drop; lia|]. rewrite Hdl in Hdone. rewrite Hdone, Hlen'.
      apply (fed_app _ _ (feed ([], u32 (c + 1)) input)).
      replace (Z.of_nat (length out) + ck_len ck') with (Z.of_nat (length ((out ++ drop 12 (cb ++ [x])) ++ [])))
        by (rewrite app_nil_r, length_app; lia).
      replace (Z.of_nat (length ((out ++ drop 12 (cb ++ [x])) ++ []))) with (Z.of_nat (length (out ++ drop 12 (cb ++ [x])))) at 1
        by (by rewrite app_nil_r).
      apply IH; [done| |done|cbn; lia|by rewrite <- Hlen'].
      split; [|left; cbn; lia]. split_and!; cbn [counter ck_len ck_buf]; [done|lia|lia|done|apply prefix_nil|apply Hg|left; cbn; lia].
    + rewrite feed_byte_partial; [cbn [mbind option_bind]|].
      2: { destruct Hg as (_ & _ & _ & _ & _ & [?|[? ?]]); [left; lia|right; lia]. }
      apply (fed_app _ [] (feed (cb ++ [x], c) input)). rewrite app_nil_r.
      replace (out ++ gap ++ (x :: input) ++ post) with (out ++ (gap ++ [x]) ++ input ++ post) by list_assoc.
      replace (Z.of_nat (length (out ++ gap)) + 1) with (Z.of_nat (length (out ++ gap ++ [x])))
        by (rewrite !length_app; cbn [length]; lia).
      replace (Z.of_nat (length cb) + 1) with (Z.of_nat (length (cb ++ [x]))) by lia.
      apply IH; [done| |done|rewrite !length_app; cbn [length]; lia|].
      * split; [done|]. destruct Hg as (_ & _ & _ & _ & _ & [?|[? ?]]); [by left|right; lia].
      * rewrite !length_app in *. cbn [length] in *. lia.
Qed.

(** ** A call *)

(** The buffer holds [data]. *)
Definition holds (b : buffer_t) (data : list Z) : Prop :=
  len b = Z.of_nat (length data) /\ data `prefix_of` array b /\ Z.of_nat (length (array b)) < 2 ^ 30.
(** The receiver is where the byte machine is; at first its chunk has no memory. *)
Definition receiver_at (s : list Z * Z) (ck : chunk_t) : Prop :=
  idx ck = Z.of_nat (length (fst s)) /\
  (collects (fst s) (snd s) ck \/ fst s = [] /\ counter ck = snd s /\ 0 <= ck_len ck < 65536).

Lemma brealloc_length b n cap :
  Z.of_nat (length (array (brealloc b n cap))) = Z.max (Z.of_nat (length (array b))) (Z.max n cap).
Proof using RL. unfold brealloc. case_bool; cbn [array]; [rewrite realloc_length by lia|]; lia. Qed.

Lemma collects_grow cb c ck n cap i :
  receiver_at (cb, c) ck -> 2 <= cap -> collects cb c (mkChunk i (ck_len ck) (counter ck) (brealloc (ck_buf ck) n cap)).
Proof using RL.
  intros [_ [Hc|(Hnil & Hc & Hl)]] Hcap; cbn [fst snd] in *.
  2: { subst cb. split; [|left; cbn; lia]. pose proof (brealloc_length (ck_buf ck) n cap).
       split_and!; cbn [counter ck_len ck_buf]; [done|lia|lia|done|apply prefix_nil|lia|left; cbn; lia]. }
  destruct Hc as [(H1 & H2 & H3 & H4 & H5 & H6) H7]. destruct (brealloc_spec (ck_buf ck) n cap) as (Hp & _ & _).
  pose proof (brealloc_length (ck_buf ck) n cap) as Hl. split; [|done].
  split_and!; cbn [counter ck_len ck_buf]; [done|lia|lia|done|by etransitivity|lia|].
  destruct H6 as [|[? ?]]; [by left|right]. split; [done|lia].
Qed.

(** A call is the byte machine on the bytes of the buffer. *)
Lemma check_hash_feed buf chunk cap s input :
  receiver_at s chunk -> holds buf input -> is_bytes input -> 2 <= cap < 2 ^ 30 ->
  exists r b' ck', ss_check_hash buf chunk cap = Some (r, b', ck') /\
    match feed s input with
    | None => r = 0
    | Some (o, s') => r = 1 /\ len b' = Z.of_nat (length o) /\ o `prefix_of` array b' /\
        Z.of_nat (length o) < 2 ^ 31 /\ receiver_at s' ck' /\
        Z.of_nat (length (array buf)) <= Z.of_nat (length (array b')) <=
          Z.max (Z.of_nat (length (array buf))) (Z.max (65536 + Z.of_nat (length input)) cap)
    end.
Proof using RL HL IV.
  intros Hck (Hlen & Hpre & Hsmall) Hin Hcap. destruct s as [cb c]. pose proof (proj1 Hck) as Hidx. cbn [fst snd] in Hidx.
  unfold ss_check_hash. rewrite Hlen, Nat2Z.id, Hidx.
  cbn [ck_len ck_buf idx counter]. set (buf' := brealloc buf _ cap).
  set (ck1 := mkChunk _ _ _ (brealloc (ck_buf chunk) _ cap)).
  pose proof (collects_grow cb c chunk (ck_len chunk + Z.of_nat (length input)) cap (Z.of_nat (length cb)) Hck ltac:(lia)) as Hck1.
  fold ck1 in Hck1. destruct (brealloc_spec buf (ck_len chunk + Z.of_nat (length input)) cap) as (Hp & Hm & _).
  pose proof (brealloc_length buf (ck_len chunk + Z.of_nat (length input)) cap) as Hl. fold buf' in Hp, Hm, Hl.
  destruct Hpre as [r0 Hr0]. destruct Hp as [r1 Hr1]. rewrite Hr0, <- app_assoc in Hr1.
  pose proof (check_loop_feed cap input [] [] (r0 ++ r1) cb c ck1 ltac:(lia) Hck1 Hin) as Hloop.
  cbn [app] in Hloop. rewrite <- Hr1 in Hloop.
  assert (0 <= ck_len chunk < 65536) as Hcl by apply Hck1.
  assert (length input <= length (array buf))%nat as Hi by (rewrite Hr0, length_app; lia).
  specialize (Hloop ltac:(apply (f_equal length) in Hr1; rewrite length_app in Hr1; cbn [length]; destruct Hck1 as [_ [?|Hlt]]; [lia|cbn [ck1 ck_len] in Hlt; lia]) ltac:(lia)).
  change (Z.of_nat (length (@nil Z))) with 0 in Hloop.
  unfold fed in Hloop. destruct (feed (cb, c) input) as [[o [cb' c']]|].
  - destruct Hloop as (a & ck' & -> & Hpo & Hla & Hc'). cbn [mbind option_bind app] in *. eexists _, _, _. split; [done|].
    pose proof (prefix_length _ _ Hpo).
    split_and!; [done|done|done|lia| |cbn [array]; lia|cbn [array]; lia].
    split; [done|]. left. destruct Hc' as [(?&?&?&?&?&?) ?]. by split_and!.
  - rewrite Hloop. cbn [mbind option_bind]. eauto.
Qed.

(** ** The byte machine on chunks *)

Lemma feed_app s xs ys :
  feed s (xs ++ ys) = ('(o, s) ← feed s xs; '(o2, s) ← feed s ys; Some (o ++ o2, s)).
Proof.
  revert s. induction xs as [|x xs IH]; intros s; cbn [app feed mbind option_bind].
  - by destruct (feed s ys) as [[o s']|].
  - destruct (feed_byte s x) as [[o s']|]; [|done]. cbn [mbind option_bind]. rewrite IH.
    destruct (feed s' xs) as [[o1 s1]|]; [|done]. cbn [mbind option_bind].
    destruct (feed s1 ys) as [[o2 s2]|]; [|done]. cbn [mbind option_bind]. by rewrite app_assoc.
Qed.

Fixpoint chunks (c : Z) (ps : list (list Z)) : list Z :=
  match ps with [] => [] | p :: ps => chunk_of c p ++ chunks (u32 (c + 1)) ps end.
Fixpoint count_chunks (c : Z) (ps : list (list Z)) : Z :=
  match ps with [] => c | _ :: ps => count_chunks (u32 (c + 1)) ps end.

Lemma chunk_of_parts c data :
  Z.of_nat (length data) < 65536 ->
  exists m, chunk_mac c data = Some m /\ length m = 10%nat /\
    chunk_of c data = be_bytes 2 (Z.of_nat (length data)) ++ m ++ data /\
    Z.of_nat (length (chunk_of c data)) = be_val (take 2 (chunk_of c data)) + 12 /\
    drop 12 (chunk_of c data) = data /\ take 10 (drop 2 (chunk_of c data)) = m.
Proof using HL IV.
  intros Hd. destruct (chunk_mac_Some c data) as (m & Hm & Hl). exists m. unfold chunk_of. rewrite Hm. change (default [] (Some m)) with m.
  set (h := be_bytes 2 (Z.of_nat (length data))). assert (length h = 2%nat) as Hh by apply length_be_bytes.
  split_and!; [done..| | |].
  - rewrite (take_app_length' h), !length_app by done.
    assert (be_val h = Z.of_nat (length data)) as ->; [|lia].
    unfold h. rewrite be_val_bytes. apply Z.mod_small. split; [lia|exact Hd].
  - rewrite app_assoc. apply drop_app_length'. rewrite length_app. lia.
  - rewrite (drop_app_length' h) by done. by apply take_app_length'.
Qed.

Lemma feed_chunk_tail c data ys : forall cb,
  Z.of_nat (length data) < 65536 -> cb ++ ys = chunk_of c data -> ys <> [] ->
  feed (cb, c) ys = Some (data, ([], u32 (c + 1))).
Proof using HL IV.
  intros cb Hd. destruct (chunk_of_parts c data Hd) as (m & Hm & Hml & Hc & Hlen & Hdrop & Htake).
  revert cb. induction ys as [|x ys IH]; intros cb Heq Hne; [done|]. cbn [feed].
  replace (cb ++ x :: ys) with ((cb ++ [x]) ++ ys) in Heq by list_assoc.
  assert (length (cb ++ [x]) = S (length cb)) as Hl by (rewrite length_app; cbn; lia).
  assert (12 <= length (chunk_of c data))%nat as H12.
  { rewrite Hc, !length_app, length_be_bytes. lia. }
  destruct ys as [|y ys].
  - rewrite app_nil_r in Heq. rewrite feed_byte_complete; rewrite Heq; [|lia|done].
    rewrite Hdrop, Htake, bool_decide_eq_true_2 by done. cbn [mbind option_bind feed]. by rewrite app_nil_r.
  - rewrite feed_byte_partial.
    + cbn [mbind option_bind]. rewrite (IH (cb ++ [x]) Heq) by done. done.
    + destruct (decide (length cb < 1)%nat); [by left|right]. rewrite <- Heq in Hlen.
      rewrite take_app_le in Hlen by lia. rewrite length_app in Hlen. cbn [length] in Hlen. lia.
Qed.

Lemma feed_chunks c ps :
  Forall (fun p => Z.of_nat (length p) < 65536) ps ->
  feed ([], c) (chunks c ps) = Some (concat ps, ([], count_chunks c ps)).
Proof using HL IV.
  intros Hps. revert c. induction Hps as [|p ps Hp _ IH]; intros c; [done|].
  cbn [chunks concat count_chunks]. rewrite feed_app, (feed_chunk_tail c p (chunk_of c p) []); [|done|done|].
  - cbn [mbind option_bind]. by rewrite IH.
  - destruct (chunk_of_parts c p Hp) as (? & _ & _ & _ & Hl & _). intros E. rewrite E in Hl. done.
Qed.

(** What the byte machine passed on are consecutive chunks with the right MACs. *)
Lemma be_bytes_val n l : length l = n -> is_bytes l -> be_bytes n (be_val l) = l.
Proof.
  revert l. induction n as [|n IH]; intros [|b l] Hl Hb; cbn in Hl; try lia; [done|].
  apply Forall_cons in Hb as [Hb Hbs]. cbn [be_bytes]. rewrite be_val_cons. assert (length l = n) as Hn by lia. rewrite Hn.
  pose proof (be_val_range l Hbs) as Hr. rewrite Hn in Hr.
  replace (2 ^ (8 * Z.of_nat n)) with (256 ^ Z.of_nat n) by (change 256 with (2 ^ 8); rewrite <- Z.pow_mul_r by lia; done).
  rewrite Z.add_comm, Z.div_add, Z.div_small by lia. rewrite Z.add_0_l, u8_id by done. f_equal.
  rewrite <- (IH l) at 2 by done. clear -Hr. revert Hr. generalize (be_val l) as v. intros v Hr.
  enough (forall k a, (k <= n)%nat -> be_bytes k (v + a * 256 ^ Z.of_nat n) = be_bytes k v) as He by (by apply He).
  induction k as [|k IHk]; intros a Hk; [done|]. cbn [be_bytes]. rewrite IHk by lia. f_equal. unfold u8.
  replace (2 ^ (8 * Z.of_nat k)) with (256 ^ Z.of_nat k) by (change 256 with (2 ^ 8); rewrite <- Z.pow_mul_r by lia; done).
  replace (256 ^ Z.of_nat n) with (256 * 256 ^ Z.of_nat (n - k - 1) * 256 ^ Z.of_nat k)
    by (rewrite <- Z.mul_assoc, <- Z.pow_add_r, <- Z.pow_succ_r by lia; f_equal; lia).
  rewrite Z.mul_assoc, Z.div_add by lia. change (2 ^ 8) with 256.
  replace (a * (256 * 256 ^ Z.of_nat (n - k - 1))) with (a * 256 ^ Z.of_nat (n - k - 1) * 256) by lia. apply Z.mod_add. lia.
Qed.

Lemma feed_sound xs : forall cb c o cb' c',
  is_bytes (cb ++ xs) -> feed (cb, c) xs = Some (o, (cb', c')) ->
  exists ps, o = concat ps /\ cb ++ xs = chunks c ps ++ cb' /\ c' = count_chunks c ps /\
    Forall (fun p => Z.of_nat (length p) < 65536) ps.
Proof using HL IV.
  induction xs as [|x xs IH]; intros cb c o cb' c' Hb Hf; cbn [feed] in Hf.
  - simplify_eq. exists []. rewrite app_nil_r. by repeat constructor.
  - replace (cb ++ x :: xs) with ((cb ++ [x]) ++ xs) in * by list_assoc.
    destruct (feed_byte (cb, c) x) as [[o1 [cb1 c1]]|] eqn:Eb; [|done]. cbn [mbind option_bind] in Hf.
    destruct (feed (cb1, c1) xs) as [[o2 [cb2 c2]]|] eqn:Ef; [|done]. cbn [mbind option_bind] in Hf. simplify_eq.
    apply Forall_app in Hb as [Hb1 Hb2]. revert Eb. unfold feed_byte. case_match eqn:E.
    + apply andb_true_iff in E as [E2%Nat.leb_le El%Z.eqb_eq]. case_bool_decide as Em; [|done]. intros [= <- <- <-].
      destruct (IH _ _ _ _ _ (Forall_app_2 _ [] xs ltac:(constructor) Hb2) Ef) as (ps & -> & Hxs & -> & Hps). cbn [app] in Hxs.
      set (f := cb ++ [x]) in *. pose proof (Forall_take (fun b => 0 <= b < 256) 2 f Hb1) as Ht2.
      assert (length (take 2 f) = 2%nat) as Hl2 by (rewrite length_take; lia).
      pose proof (be_val_range _ Ht2) as Hr. rewrite Hl2 in Hr. change (256 ^ Z.of_nat 2) with 65536 in Hr.
      assert (Z.of_nat (length (drop 12 f)) = be_val (take 2 f)) as Hld by (rewrite length_drop; lia).
      exists (drop 12 f :: ps). cbn [concat chunks count_chunks]. split_and!; [done| |done|constructor; [lia|done]].
      unfold chunk_of. rewrite Em, Hld, (be_bytes_val 2) by done. change (default [] (Some ?m)) with m.
      assert (f = take 2 f ++ take 10 (drop 2 f) ++ drop 12 f) as Hsplit.
      { change 12%nat with (2 + 10)%nat. by rewrite <- drop_drop, !take_drop. }
      rewrite Hxs. rewrite Hsplit at 1. list_assoc.
    + intros [= <- <- <-]. apply IH in Ef; [done|by apply Forall_app].
Qed.

(** The open chunk is not complete. *)
Lemma feed_open xs : forall cb c o cb' c',
  is_bytes (cb ++ xs) -> feed (cb, c) xs = Some (o, (cb', c')) ->
  ((2 <= length cb)%nat -> Z.of_nat (length cb) < be_val (take 2 cb) + 12) ->
  (2 <= length cb')%nat -> Z.of_nat (length cb') < be_val (take 2 cb') + 12.
Proof.
  induction xs as [|x xs IH]; intros cb c o cb' c' Hb Hf Hcb; cbn [feed] in Hf; [by simplify_eq|].
  replace (cb ++ x :: xs) with ((cb ++ [x]) ++ xs) in Hb by list_assoc. apply Forall_app in Hb as [Hb1 Hb2].
  destruct (feed_byte (cb, c) x) as [[o1 [cb1 c1]]|] eqn:Eb; [|done]. cbn [mbind option_bind] in Hf.
  destruct (feed (cb1, c1) xs) as [[o2 [cb2 c2]]|] eqn:Ef; [|done]. cbn [mbind option_bind] in Hf. simplify_eq.
  revert Eb. unfold feed_byte. case_match eqn:E.
  - case_bool_decide; [|done]. intros [= <- <- <-]. apply (IH [] _ _ _ _ Hb2 Ef). cbn. lia.
  - intros [= <- <- <-]. apply (IH _ _ _ _ _ (Forall_app_2 _ _ _ Hb1 Hb2) Ef). intros H2. rewrite (proj2 (Nat.leb_le _ _) H2) in E. cbn in E. zify_bool.
    rewrite length_app in *. cbn [length] in *. destruct (decide (2 <= length cb)%nat).
    + rewrite take_app_le in * by lia. specialize (Hcb ltac:(lia)). lia.
    + pose proof (be_val_range _ (Forall_take _ 2 _ Hb1)). lia.
Qed.

(** ** The sender *)

Lemma holds_mread b data : holds b data -> mread (array b) 0 (len b) = Some data.
Proof.
  intros (Hl & [r Hr] & Hs). rewrite Hr in *. rewrite length_app in Hs. apply mread_prefix; [done|lia].
Qed.

Lemma brealloc_holds b data n cap :
  holds b data -> 0 <= n < 2 ^ 30 -> 0 <= cap < 2 ^ 30 ->
  holds (brealloc b n cap) data /\ n <= Z.of_nat (length (array (brealloc b n cap))).
Proof using RL.
  intros (Hl & Hp & Hs) Hn Hc. destruct (brealloc_spec b n cap) as (Hp2 & Hm & Hl2).
  pose proof (brealloc_length b n cap). split; [|lia]. split_and!; [by rewrite Hl2|by etransitivity|lia].
Qed.

Lemma gen_hash_spec b data c cap :
  holds b data -> Z.of_nat (length data) < 65536 -> 0 <= cap < 2 ^ 30 ->
  exists b', ss_gen_hash b c cap = Some (b', u32 (c + 1)) /\ holds b' (chunk_of c data).
Proof using RL HL IV.
  intros Hb Hd Hc. destruct (brealloc_holds b data (AUTH_BYTES + len b) cap Hb) as [Hb' Hn];
    [destruct Hb; unfold AUTH_BYTES, ONETIMEAUTH_BYTES, CLEN_BYTES; lia|done|].
  unfold ss_gen_hash. set (b' := brealloc b _ cap) in *. pose proof Hb' as (Hl & [r Hr] & Hs).
  destruct Hb as [Hlb _]. rewrite Hlb in *. rewrite <- Hl, (holds_mread _ data) by done. cbn [mbind option_bind].
  destruct (chunk_of_parts c data Hd) as (m & -> & Hml & Hck & _). cbn [mbind option_bind].
  unfold AUTH_BYTES, ONETIMEAUTH_BYTES, CLEN_BYTES in *.
  destruct (split_block (array b') 2) as (h & t & E1 & Hh); [lia|]. rewrite E1 in *. rewrite length_app in *.
  destruct (split_block t 10) as (h2 & t2 & -> & Hh2); [lia|]. rewrite length_app in *.
  destruct (split_block t2 (length data)) as (h3 & t3 & -> & Hh3); [lia|].
  replace (h ++ h2 ++ h3 ++ t3) with ((h ++ h2) ++ h3 ++ t3) by list_assoc.
  rewrite mwrite_app by (rewrite ?length_app; lia). cbn [mbind option_bind].
  replace ((h ++ h2) ++ data ++ t3) with (h ++ h2 ++ data ++ t3) by list_assoc.
  rewrite mwrite_app by lia. cbn [mbind option_bind].
  change (mwrite (h ++ ?r) 0 ?v) with (mwrite ([] ++ h ++ r) 0 v).
  rewrite (mwrite_app [] h) by (rewrite ?length_be_bytes; done). cbn [mbind option_bind app].
  eexists. split; [done|]. rewrite Hl, u16_id by lia. rewrite Hck. split_and!; cbn [len array].
  - rewrite !length_app, length_be_bytes. lia.
  - exists t3. list_assoc.
  - rewrite !length_app, length_be_bytes in *. lia.
Qed.

Lemma send_chunks_spec bufs ps c cap :
  Forall2 holds bufs ps -> Forall (fun p => Z.of_nat (length p) < 65536) ps -> 0 <= cap < 2 ^ 30 ->
  send_chunks bufs c cap = Some (chunks c ps).
Proof using RL HL IV.
  intros Hb. revert c. induction Hb as [|b p bufs ps Hbp _ IH]; intros c Hps Hc; [done|].
  apply Forall_cons in Hps as [Hp Hps]. cbn [send_chunks chunks].
  destruct (gen_hash_spec b p c cap Hbp Hp Hc) as (b' & -> & Hb'). cbn [mbind option_bind].
  rewrite (holds_mread _ _ Hb'). cbn [mbind option_bind]. by rewrite IH.
Qed.

Lemma recv_chunks_feed bufs segs cap : forall s ck,
  receiver_at s ck -> Forall2 holds bufs segs -> is_bytes (concat segs) -> 2 <= cap < 2 ^ 30 ->
  recv_chunks ck bufs cap = Some (fst <$> feed s (concat segs)).
Proof using RL HL IV.
  intros s ck Hr Hb. revert s ck Hr. induction Hb as [|b seg bufs segs Hbs _ IH]; intros s ck Hr Hby Hc; [done|].
  cbn [concat] in *. apply Forall_app in Hby as [Hby Hbys]. cbn [recv_chunks].
  destruct (check_hash_feed b ck cap s seg Hr Hbs Hby Hc) as (r & b' & ck' & -> & Hf). cbn [mbind option_bind].
  rewrite feed_app. destruct (feed s seg) as [[o s1]|]; cbn [mbind option_bind].
  - destruct Hf as (-> & Hl & [rr Hp] & Hol & Hr' & _). change (1 =? 0) with false. cbn match. rewrite Hl, Hp, mread_prefix by (done || lia). cbn [mbind option_bind]. rewrite (IH s1 ck' Hr' Hbys Hc). cbn [mbind option_bind].
      by destruct (feed s1 (concat segs)) as [[o2 s2]|].
  - subst r. done.
Qed.

(** ** The header *)

Definition header_mac (msg : list Z) : list Z :=
  take 10 (hmac (take (Z.to_nat enc_iv_len) iv ++ enc_key) msg).

Lemma iv_read : mread iv 0 enc_iv_len = Some (take (Z.to_nat enc_iv_len) iv).
Proof using IV. pose proof iv_fits. pose proof iv_small. rewrite mread_in by lia. done. Qed.

Lemma header_mac_read msg :
  mread (hmac (take (Z.to_nat enc_iv_len) iv ++ enc_key) msg) 0 ONETIMEAUTH_BYTES = Some (header_mac msg).
Proof using HL. unfold ONETIMEAUTH_BYTES. rewrite mread_in by (rewrite ?hmac_length; lia). done. Qed.

Lemma length_header_mac msg : length (header_mac msg) = 10%nat.
Proof using HL. unfold header_mac. by rewrite length_take, hmac_length. Qed.

Lemma onetimeauth_holds buf msg capacity :
  holds buf msg -> Z.of_nat (length msg) + 10 < 2 ^ 30 -> 0 <= capacity < 2 ^ 30 ->
  exists b, ss_onetimeauth buf capacity = Some b /\ holds b (msg ++ header_mac msg).
Proof using RL HL IV.
  intros Hb Hm Hc. destruct (brealloc_holds buf msg (ONETIMEAUTH_BYTES + len buf) capacity Hb) as [Hb' Hn];
    [destruct Hb; unfold ONETIMEAUTH_BYTES; lia|done|].
  unfold ss_onetimeauth. rewrite iv_read. cbn [mbind option_bind]. set (b' := brealloc buf _ capacity) in *.
  rewrite (holds_mread _ _ Hb'). cbn [mbind option_bind]. rewrite header_mac_read. cbn [mbind option_bind].
  destruct Hb as [Hlb _]. destruct Hb' as (Hl & [r Hr] & Hs). rewrite Hlb in Hn. unfold ONETIMEAUTH_BYTES in *.
  pose proof (length_header_mac msg) as Hhm. rewrite Hr in *. rewrite length_app in *.
  destruct (split_block r 10) as (r1 & r2 & -> & Hr1); [lia|]. rewrite length_app in *.
  rewrite mwrite_app by lia. cbn [mbind option_bind]. eexists. split; [done|]. split_and!; cbn [len array].
  - rewrite length_app. lia.
  - exists r2. list_assoc.
  - rewrite !length_app. lia.
Qed.

Lemma onetimeauth_verify_holds buf msg m :
  holds buf (msg ++ m) -> length m = 10%nat ->
  ss_onetimeauth_verify buf = Some (if bool_decide (m = header_mac msg) then 0 else 1).
Proof using HL IV.
  intros (Hl & [r Hr] & Hs) Hm. unfold ss_onetimeauth_verify. rewrite iv_read. cbn [mbind option_bind].
  rewrite length_app in Hl. unfold ONETIMEAUTH_BYTES at 1 2 4. rewrite Hr, !length_app in Hs.
  rewrite u64_id by lia. replace (len buf - 10) with (Z.of_nat (length msg)) by lia.
  rewrite Hr, <- app_assoc, mread_prefix by (done || lia). cbn [mbind option_bind].
  rewrite header_mac_read. cbn [mbind option_bind]. rewrite mread_app by (rewrite ?Hm; done || lia). cbn [mbind option_bind].
  pose proof (safe_memcmp_0 m (header_mac msg) ltac:(rewrite length_header_mac; done)) as Hc. f_equal.
  unfold safe_memcmp in *. case_bool_decide; destruct (memcmp_bits 0 m (header_mac msg) =? 0); done.
Qed.

Lemma mread_huge b i n : 0 <= i -> Z.of_nat (length b) < n < 2 ^ 64 -> mread b i n = None.
Proof. intros Hi Hn. unfold mread. rewrite u64_id by lia. case_bool; [lia|done]. Qed.

(** One-time authentication of a header: what the sender appends is accepted,
    a header with ten bytes behind it is accepted only when they are its MAC, and
    a header shorter than a MAC makes the check read outside the buffer. *)
Theorem onetimeauth_authentic buf msg capacity :
  holds buf msg -> Z.of_nat (length msg) + 10 < 2 ^ 30 -> 0 <= capacity < 2 ^ 30 ->
  (exists b, ss_onetimeauth buf capacity = Some b /\ holds b (msg ++ header_mac msg) /\
     ss_onetimeauth_verify b = Some 0) /\
  (forall b m, holds b (msg ++ m) -> length m = 10%nat ->
     ss_onetimeauth_verify b = Some 0 <-> m = header_mac msg) /\
  (forall b m, holds b m -> (length m < 10)%nat -> ss_onetimeauth_verify b = None).
Proof using RL HL IV.
  intros Hb Hm Hc. split_and!.
  - destruct (onetimeauth_holds buf msg capacity Hb Hm Hc) as (b & Ho & Hh). exists b. split_and!; [done..|].
    rewrite (onetimeauth_verify_holds b msg (header_mac msg) Hh) by apply length_header_mac.
    by rewrite bool_decide_eq_true_2.
  - intros b m Hh Hl. rewrite (onetimeauth_verify_holds b msg m Hh Hl). case_bool_decide; naive_solver.
  - intros b m (Hl & _ & Hs) Hl10. unfold ss_onetimeauth_verify. rewrite iv_read. cbn [mbind option_bind].
    assert (u64 (len b - ONETIMEAUTH_BYTES) = len b - 10 + 2 ^ 64) as ->
      by (unfold u64, ONETIMEAUTH_BYTES; symmetry; apply (Z.mod_unique_pos _ _ (-1)); lia).
    by rewrite (mread_huge (array b) 0) by lia.
Qed.

(** C25: Authenticated packets arrive: whatever packets of less than 65536 bytes are
    sent, and however the bytes on the wire are cut into segments, the receiver
    accepts every segment and passes on exactly the packets' data, in order. *)
Theorem chunks_delivered packets ps segments ss wire capacity :
  Forall2 holds packets ps -> Forall (fun p => Z.of_nat (length p) < 65536) ps ->
  is_bytes wire -> 2 <= capacity < 2 ^ 30 ->
  send_chunks packets 0 capacity = Some wire -> Forall2 holds segments ss -> concat ss = wire ->
  recv_chunks (mkChunk 0 0 0 (mkBuf [] 0)) segments capacity = Some (Some (concat ps)).
Proof using RL HL IV.
  intros Hps Hlen Hby Hc Hs Hss Hw. rewrite (send_chunks_spec packets ps 0 capacity Hps Hlen) in Hs by lia.
  injection Hs as <-. rewrite (recv_chunks_feed segments ss capacity ([], 0)); [|split; [done|by right]|done|by rewrite Hw|done].
  by rewrite Hw, feed_chunks.
Qed.

(** Nothing else gets through: whatever bytes arrive in whatever segments, what
    a receiver that accepted them all has passed on is the data of consecutive
    packets with the right MACs at the start of the stream; what is left is the
    beginning of one that is not complete. *)
Theorem chunks_authentic segments ss capacity out :
  Forall2 holds segments ss -> is_bytes (concat ss) -> 2 <= capacity < 2 ^ 30 ->
  recv_chunks (mkChunk 0 0 0 (mkBuf [] 0)) segments capacity = Some (Some out) ->
  exists ps rest, out = concat ps /\ concat ss = chunks 0 ps ++ rest /\
    Forall (fun p => Z.of_nat (length p) < 65536) ps /\
    ((2 <= length rest)%nat -> Z.of_nat (length rest) < be_val (take 2 rest) + 12).
Proof using RL HL IV.
  intros Hss Hby Hc Hr. rewrite (recv_chunks_feed segments ss capacity ([], 0)) in Hr; [|split; [done|by right]|done..].
  destruct (feed ([], 0) (concat ss)) as [[o [rest c]]|] eqn:Ef; [|done]. cbn in Hr. simplify_eq.
  pose proof (feed_open _ [] _ _ _ _ Hby Ef) as Hopen.
  apply feed_sound in Ef as (ps & -> & Heq & _ & Hps); [|done]. exists ps, rest. split_and!; [done|done|done|].
  apply Hopen. cbn. lia.
Qed.

End Ota.

(** ** An instance *)

Definition realloc_example (a : list Z) (n : Z) : list Z := a ++ replicate (Z.to_nat n - length a) 0.
Definition hmac_example (key msg : list Z) : list Z := map u8 (take 20 (rev msg ++ key ++ replicate 20 7)).

#[export] Instance realloc_example_laws : ReallocLaws realloc_example.
Proof.
  split; unfold realloc_example; intros a n Hn; [|by eexists]. rewrite length_app, length_replicate. lia.
Qed.
#[export] Instance hmac_example_laws : HmacLaws hmac_example.
Proof.
  split; intros k m; unfold hmac_example.
  - rewrite length_map, length_take, !length_app, length_replicate. lia.
  - apply Forall_map, Forall_true. auto with cint.
Qed.
#[export] Instance iv_example : IvFits 4 [1; 2; 3; 4].
Proof. split; cbn; lia. Qed.

Lemma onetimeauth_authentic_witness :
  exists b, ss_onetimeauth realloc_example hmac_example 4 [9; 9] [1; 2; 3; 4] (mkBuf [65; 66] 2) 32 = Some b /\
    ss_onetimeauth_verify hmac_example 4 [9; 9] [1; 2; 3; 4] b = Some 0.
Proof.
  destruct (onetimeauth_authentic realloc_example hmac_example 4 [9; 9] [1; 2; 3; 4] (mkBuf [65; 66] 2) [65; 66] 32)
    as ((b & Hb & _ & Hv) & _); [by split_and!|cbn; lia|lia|]. by exists b.
Defined.

Definition packets_example : list buffer_t := [mkBuf [65; 66] 2; mkBuf [67] 1].
Definition wire_example : list Z :=
  [0; 2; 66; 65; 1; 2; 3; 4; 0; 0; 0; 0; 65; 66; 0; 1; 67; 1; 2; 3; 4; 0; 0; 0; 1; 7; 67].
Definition segments_example : list buffer_t := [mkBuf (take 5 wire_example) 5; mkBuf (drop 5 wire_example) 22].

Lemma chunks_delivered_witness :
  recv_chunks realloc_example hmac_example 4 [1; 2; 3; 4] (mkChunk 0 0 0 (mkBuf [] 0)) segments_example 32
  = Some (Some [65; 66; 67]).
Proof.
  apply (chunks_delivered realloc_example hmac_example 4 [1; 2; 3; 4] packets_example [[65; 66]; [67]]
           segments_example [take 5 wire_example; drop 5 wire_example] wire_example).
  - apply Forall2_cons; split; [by split_and!|]. apply Forall2_cons; split; [by split_and!|constructor].
  - repeat constructor.
  - repeat constructor; lia.
  - lia.
  - vm_compute; reflexivity.
  - apply Forall2_cons; split; [by split_and!|]. apply Forall2_cons; split; [by split_and!|constructor].
  - reflexivity.
Defined.

Lemma chunks_authentic_witness :
  exists ps rest, [65; 66; 67] = concat ps /\
    wire_example = chunks hmac_example 4 [1; 2; 3; 4] 0 ps ++ rest.
Proof.
  destruct (chunks_authentic realloc_example hmac_example 4 [1; 2; 3; 4]
              segments_example [take 5 wire_example; drop 5 wire_example] 32 [65; 66; 67])
    as (ps & rest & Ho & Hw & _).
  - apply Forall2_cons; split; [by split_and!|]. apply Forall2_cons; split; [by split_and!|constructor].
  - repeat constructor; lia.
  - lia.
  - vm_compute; reflexivity.
  - exists ps, rest. split; [exact Ho|exact Hw].
Defined.

End Ota.
