(* ===== verification/Crypt.v ===== *)
(** * Crypt: encryption in shadowsocksr-libev

    Models the use of ciphers in src/server/encrypt.c: the substitution table that
    is sorted from the password, and for the other methods [ss_encrypt] and
    [ss_decrypt] on a connection, [ss_encrypt_all] and [ss_decrypt_all] on a
    datagram, with the vector in front of the data, the buffers they work on and
    the memory of vectors.

    The ciphers are external: libsodium's stream functions and the update function
    of the cipher library are parameters with laws ([SodiumLaws], [EvpLaws]); MD5
    is a parameter. *)

From S2P Require Import Prelude Libc Cache Ota.

Import Libc Ota.

#[local] Arguments Z.eqb : simpl never.

Module Crypt.

(** ** The substitution table *)

(** The numbers are far below [2^31], so nothing wraps but the sum, a [uint32_t]. *)
Definition random_compare (x y i a : Z) : Z := s32 (a mod u32 (x + i) - a mod u32 (y + i)).

(** The two runs are copied first; the result is written over them. *)
Fixpoint merge (salt key : Z) (left : list Z) : list Z -> list Z :=
  fix merge_right (right : list Z) : list Z :=
  match left, right with
  | [], _ => right
  | _, [] => left
  | x :: left', y :: right' =>
      if random_compare x y salt key <=? 0 then x :: merge salt key left' right else y :: merge_right right'
  end.

(** [fuel] bounds the depth; the length is enough. *)
Fixpoint merge_sort (fuel : nat) (salt key : Z) (array : list Z) : list Z :=
  match fuel with
  | O => array
  | S fuel =>
      let length_ := Z.of_nat (length array) in
      if length_ <=? 1 then array else
      let middle := u8 (length_ / 2) in
      let llength := Z.to_nat (length_ - middle) in
      merge salt key (merge_sort fuel salt key (take llength array)) (merge_sort fuel salt key (drop llength array))
  end.

(** The sum of [OFFSET_ROL(digest, i)] for the first eight bytes. *)
Fixpoint rol_sum (i : Z) (digest : list Z) : Z :=
  match digest with [] => 0 | b :: digest => u64 (Z.shiftl b (8 * i) + rol_sum (i + 1) digest) end.

(** The loop that inverts the table. *)
Fixpoint invert (i : Z) (enc dec : list Z) : option (list Z) :=
  match enc with [] => Some dec | e :: enc => dec ← wr dec e i; invert (i + 1) enc dec end.

Definition sort_table (key : Z) : list Z :=
  foldl (fun t i => merge_sort 256 i key t) (seqZ 0 256) (seqZ 1 1023).

Definition make_tables (fresh enc_table : list Z) : option (list Z * list Z) :=
  dec_table ← invert 0 enc_table fresh; Some (enc_table, dec_table).

(** [enc_table] and [dec_table]; [fresh] is what [malloc] gave for the second. *)
Definition enc_table_init (md5 : list Z -> list Z) (fresh pass : list Z) : option (list Z * list Z) :=
  digest ← mread (md5 pass) 0 8;
  make_tables fresh (sort_table (rol_sum 0 digest)).

(** [ *ptr = table[(uint8_t) *ptr]] over the first [len] bytes. *)
Definition substitute (table : list Z) (b : buffer_t) : option buffer_t :=
  data ← mread (array b) 0 (len b);
  data ← mapM (fun x => table @! u8 x) data;
  a ← mwrite (array b) 0 data;
  Some (mkBuf a (len b)).

(** ** The other methods *)

Definition TABLE : Z := 0.
Definition RC4 : Z := 1.
Definition RC4_MD5_6 : Z := 2.
Definition RC4_MD5 : Z := 3.
Definition SALSA20 : Z := 19.
Definition CHACHA20IETF : Z := 21.
Definition SODIUM_BLOCK_SIZE : Z := 64.
Definition ONETIMEAUTH_FLAG : Z := 16.

(** [enc_ctx_t] with the vector of its [cipher_ctx_t]; [evp] is the context of the
    cipher library. *)
Record enc_ctx_t (E : Type) := mkCtx { init : bool; counter : Z; evp : E; iv : list Z }.
Arguments mkCtx {E}.
Arguments init {E}.
Arguments counter {E}.
Arguments evp {E}.
Arguments iv {E}.

Section Ciphers.
Context (realloc : list Z -> Z -> list Z) (md5 : list Z -> list Z).
(** The cipher library: set key, vector and direction; update. *)
Context {E : Type} (EVP_CipherInit : E -> list Z -> list Z -> bool -> E) (EVP_CipherUpdate : E -> list Z -> option (list Z * E)).
(** libsodium: [crypto_stream_*_xor_ic] of a method on message, nonce, block
    number and key; it reads as many bytes of the nonce as the vector has. *)
Context (stream_xor_ic : Z -> list Z -> list Z -> Z -> list Z -> list Z).
(** The globals. *)
Context (enc_method enc_iv_len : Z) (enc_key : list Z).

Notation brealloc := (brealloc realloc).

Definition crypto_stream_xor_ic (m n : list Z) (ic : Z) (method : Z) : option (list Z) :=
  n ← mread n 0 enc_iv_len;
  Some (stream_xor_ic method m n (if method =? CHACHA20IETF then u32 ic else ic) enc_key).

(** [iv_bytes] are the [iv_len] bytes at [iv].  The methods with MD5 get the key
    from both; the library does not look at the vector then. *)
Definition cipher_context_set_iv (e : E) (ctx_iv iv_bytes : list Z) (enc : bool) : option (E * list Z) :=
  ctx_iv ← (if enc then Some ctx_iv else mwrite ctx_iv 0 iv_bytes);
  if SALSA20 <=? enc_method then Some (e, ctx_iv) else
  true_key ← (if (enc_method =? RC4_MD5) || (enc_method =? RC4_MD5_6)
              then k ← mread enc_key 0 16; Some (md5 (k ++ iv_bytes)) else Some enc_key);
  Some (EVP_CipherInit e true_key iv_bytes enc, ctx_iv).

(** Zeroes in front of [len] bytes at [i]. *)
Definition pad_front (b : list Z) (i padding len : Z) : option (list Z) :=
  x ← mread b i len;
  b ← mwrite b (i + padding) x;
  mwrite b i (replicate (Z.to_nat padding) 0).

(** The cipher on a connection: [cipher] with the data behind [iv_len] bytes, and
    the context.  [None] inside: the library failed. *)
Definition encrypt_data (plain cipher : buffer_t) (ctx : enc_ctx_t E) (iv_len capacity : Z)
    : option (option (buffer_t * enc_ctx_t E)) :=
  if SALSA20 <=? enc_method then
    let padding := counter ctx mod SODIUM_BLOCK_SIZE in
    let cipher := brealloc cipher (iv_len + (padding + len cipher) * 2) capacity in
    p ← (if padding =? 0 then Some (array plain)
         else pad_front (array (brealloc plain (len plain + padding) capacity)) 0 padding (len plain));
    m ← mread p 0 (len plain + padding);
    c ← crypto_stream_xor_ic m (iv ctx) (counter ctx / SODIUM_BLOCK_SIZE) enc_method;
    a ← mwrite (array cipher) iv_len c;
    a ← (if padding =? 0 then Some a
         else x ← mread a (iv_len + padding) (len cipher); mwrite a iv_len x);
    Some (Some (mkBuf a (len cipher), mkCtx (init ctx) (u64 (counter ctx + len plain)) (evp ctx) (iv ctx)))
  else
    m ← mread (array plain) 0 (len plain);
    match EVP_CipherUpdate (evp ctx) m with
    | None => Some None
    | Some (c, e) =>
        a ← mwrite (array cipher) iv_len c;
        Some (Some (mkBuf a (Z.of_nat (length c)), mkCtx (init ctx) (counter ctx) e (iv ctx)))
    end.

(** [brealloc] and [memcpy] of the result into the caller's buffer. *)
Definition copy_back (dst : buffer_t) (src : list Z) (n capacity : Z) : option buffer_t :=
  let dst := brealloc dst n capacity in
  x ← mread src 0 n;
  a ← mwrite (array dst) 0 x;
  Some (mkBuf a n).

(** The number returned, the buffer and the context.  [tmp] is the static buffer;
    what is in it does not matter, so it is not given back. *)
Definition ss_encrypt (enc_table : list Z) (tmp plain : buffer_t) (ctx : option (enc_ctx_t E)) (capacity : Z)
    : option (Z * buffer_t * option (enc_ctx_t E)) :=
  match ctx with
  | None => plain ← substitute enc_table plain; Some (0, plain, None)
  | Some ctx =>
      let iv_len := if init ctx then 0 else enc_iv_len in
      let tmp := brealloc tmp (iv_len + len plain) capacity in
      '(cipher, ctx) ←
        (if init ctx then Some (array tmp, ctx) else
         iv_bytes ← mread (iv ctx) 0 iv_len;
         '(e, ctx_iv) ← cipher_context_set_iv (evp ctx) (iv ctx) iv_bytes true;
         a ← mwrite (array tmp) 0 iv_bytes;
         Some (a, mkCtx true 0 e ctx_iv));
      r ← encrypt_data plain (mkBuf cipher (len plain)) ctx iv_len capacity;
      match r with
      | None => Some (-1, plain, Some ctx)
      | Some (cipher, ctx) =>
          plain ← copy_back plain (array cipher) (iv_len + len cipher) capacity;
          Some (0, plain, Some ctx)
      end
  end.

(** The same for decryption: [n] bytes behind [iv_len] of [cipher]. *)
Definition decrypt_data (cipher plain : buffer_t) (ctx : enc_ctx_t E) (iv_len capacity : Z)
    : option (option (buffer_t * enc_ctx_t E)) :=
  let n := u64 (len cipher - iv_len) in
  if SALSA20 <=? enc_method then
    let padding := counter ctx mod SODIUM_BLOCK_SIZE in
    let plain := brealloc plain (u64 ((len plain + padding) * 2)) capacity in
    c ← (if padding =? 0 then Some (array cipher)
         else pad_front (array (brealloc cipher (len cipher + padding) capacity)) iv_len padding n);
    m ← mread c iv_len (n + padding);
    p ← crypto_stream_xor_ic m (iv ctx) (counter ctx / SODIUM_BLOCK_SIZE) enc_method;
    a ← mwrite (array plain) 0 p;
    a ← (if padding =? 0 then Some a else x ← mread a padding (len plain); mwrite a 0 x);
    Some (Some (mkBuf a (len plain), mkCtx (init ctx) (u64 (counter ctx + n)) (evp ctx) (iv ctx)))
  else
    m ← mread (array cipher) iv_len n;
    match EVP_CipherUpdate (evp ctx) m with
    | None => Some None
    | Some (p, e) =>
        a ← mwrite (array plain) 0 p;
        Some (Some (mkBuf a (Z.of_nat (length p)), mkCtx (init ctx) (counter ctx) e (iv ctx)))
    end.

(** [None] for the buffer: it was freed. *)
Definition ss_decrypt `{Cache.HashFind unit} (dec_table : list Z) (iv_cache : option (Cache.cache unit)) (now : Z)
    (tmp cipher : buffer_t) (ctx : option (enc_ctx_t E)) (capacity : Z)
    : option (Z * option buffer_t * option (enc_ctx_t E) * option (Cache.cache unit)) :=
  match ctx with
  | None => cipher ← substitute dec_table cipher; Some (0, Some cipher, None, iv_cache)
  | Some ctx =>
      let tmp := brealloc tmp (len cipher) capacity in
      let iv_len := if init ctx then 0 else enc_iv_len in
      let plain := mkBuf (array tmp) (u64 (len cipher - iv_len)) in
      '(ctx, iv_cache, seen) ←
        (if init ctx then Some (ctx, iv_cache, false) else
         iv_bytes ← mread (array cipher) 0 iv_len;
         '(e, ctx_iv) ← cipher_context_set_iv (evp ctx) (iv ctx) iv_bytes false;
         let '(iv_cache, seen) :=
           if RC4 <? enc_method then Cache.check_iv iv_cache iv_bytes now else (iv_cache, false) in
         Some (mkCtx true 0 e ctx_iv, iv_cache, seen));
      if seen : bool then Some (-1, None, Some ctx, iv_cache) else
      r ← decrypt_data cipher plain ctx iv_len capacity;
      match r with
      | None => Some (-1, None, Some ctx, iv_cache)
      | Some (plain, ctx) =>
          cipher ← copy_back cipher (array plain) (len plain) capacity;
          Some (0, Some cipher, Some ctx, iv_cache)
      end
  end.

(** ** Datagrams

    [iv] is what [rand_bytes] gave, [ivs] the array of the new context [e]. *)
Context (hmac : list Z -> list Z -> list Z).

Definition ss_encrypt_all (enc_table : list Z) (tmp plain : buffer_t) (method : Z) (auth : bool) (e : E) (iv ivs : list Z)
    (capacity : Z) : option (Z * option buffer_t) :=
  if TABLE <? method then
    let iv_len := enc_iv_len in
    let cipher := brealloc tmp (iv_len + len plain) capacity in
    iv_bytes ← mread iv 0 iv_len;
    '(e, _) ← cipher_context_set_iv e ivs iv_bytes true;
    a ← mwrite (array cipher) 0 iv_bytes;
    plain ← (if auth then ss_onetimeauth realloc hmac enc_iv_len enc_key iv plain capacity else Some plain);
    m ← mread (array plain) 0 (len plain);
    r ← (if SALSA20 <=? method then c ← crypto_stream_xor_ic m iv 0 method; Some (Some c)
         else Some (fst <$> EVP_CipherUpdate e m));
    match r with
    | None => Some (-1, None)
    | Some c =>
        a ← mwrite a iv_len c;
        plain ← copy_back plain a (iv_len + Z.of_nat (length c)) capacity;
        Some (0, Some plain)
    end
  else plain ← substitute enc_table plain; Some (0, Some plain).

(** A failed update leaves the output as it was; a check of the MAC behind it
    decides then. *)
Definition ss_decrypt_all (dec_table : list Z) (tmp cipher : buffer_t) (method : Z) (auth : bool) (e : E) (ivs : list Z)
    (capacity : Z) : option (Z * option buffer_t) :=
  if TABLE <? method then
    let iv_len := enc_iv_len in
    if len cipher <=? iv_len then Some (-1, Some cipher) else
    let plain := brealloc tmp (len cipher) capacity in
    iv ← mread (array cipher) 0 iv_len;
    '(e, _) ← cipher_context_set_iv e ivs iv false;
    m ← mread (array cipher) iv_len (len cipher - iv_len);
    '(ret, plain) ←
      (if SALSA20 <=? method then
         p ← crypto_stream_xor_ic m iv 0 method; a ← mwrite (array plain) 0 p;
         Some (1, mkBuf a (len cipher - iv_len))
       else
         match EVP_CipherUpdate e m with
         | None => Some (0, mkBuf (array plain) (len cipher - iv_len))
         | Some (p, _) => a ← mwrite (array plain) 0 p; Some (1, mkBuf a (Z.of_nat (length p)))
         end);
    b0 ← array plain @! 0;
    '(ret, plain) ←
      (if auth || negb (Z.land b0 ONETIMEAUTH_FLAG =? 0) then
         if ONETIMEAUTH_BYTES <? len plain then
           v ← ss_onetimeauth_verify hmac enc_iv_len enc_key iv plain;
           Some (if v =? 0 then (1, mkBuf (array plain) (len plain - ONETIMEAUTH_BYTES)) else (0, plain))
         else Some (0, plain)
       else Some (ret, plain));
    if ret =? 0 then Some (-1, None) else
    cipher ← copy_back cipher (array plain) (len plain) capacity;
    Some (0, Some cipher)
  else cipher ← substitute dec_table cipher; Some (0, Some cipher).

(** Buffers encrypted in a row on a connection, each with the static buffer as it
    is then: the bytes sent. *)
Fixpoint send_stream (bufs : list (buffer_t * buffer_t)) (ctx : option (enc_ctx_t E)) (capacity : Z) : option (list Z) :=
  match bufs with
  | [] => Some []
  | (tmp, plain) :: bufs =>
      '(r, b, ctx) ← ss_encrypt [] tmp plain ctx capacity;
      if r =? 0 then
        sent ← mread (array b) 0 (len b);
        rest ← send_stream bufs ctx capacity;
        Some (sent ++ rest)
      else None
  end.

(** Segments decrypted in a row: what they hold, [None] inside when one is
    refused, and the memory of vectors. *)
Fixpoint recv_stream `{Cache.HashFind unit} (bufs : list (buffer_t * buffer_t)) (iv_cache : option (Cache.cache unit))
    (now : Z) (ctx : option (enc_ctx_t E)) (capacity : Z) : option (option (list Z) * option (Cache.cache unit)) :=
  match bufs with
  | [] => Some (Some [], iv_cache)
  | (tmp, cipher) :: bufs =>
      '(r, b, ctx, iv_cache) ← ss_decrypt [] iv_cache now tmp cipher ctx capacity;
      match b with
      | Some b =>
          got ← mread (array b) 0 (len b);
          '(rest, iv_cache) ← recv_stream bufs iv_cache now ctx capacity;
          Some (option_map (app got) rest, iv_cache)
      | None => Some (None, iv_cache)
      end
  end.

(** ** What the ciphers promise *)

(** XOR with a key stream from position [p] on. *)
Fixpoint xor_ks (ks : Z -> Z) (p : Z) (m : list Z) : list Z :=
  match m with [] => [] | b :: m => Z.lxor b (ks p) :: xor_ks ks (p + 1) m end.

Class SodiumLaws := {
  ks : list Z -> Z -> Z;
  ks_range n p : 0 <= ks n p < 256;
  stream_xor m n ic : 0 <= ic -> stream_xor_ic enc_method m n ic enc_key = xor_ks (ks n) (64 * ic) m }.

(** A cipher in a stream mode: two contexts with the same key and vector, one for
    each direction, stay in step, and updates may be cut anywhere. *)
Class EvpLaws := {
  synced : E -> E -> Prop;
  init_synced e d k iv : synced (EVP_CipherInit e k iv true) (EVP_CipherInit d k iv false);
  update_synced e d m : synced e d -> is_bytes m ->
    exists c e' d', EVP_CipherUpdate e m = Some (c, e') /\ EVP_CipherUpdate d c = Some (m, d') /\
      synced e' d' /\ length c = length m /\ is_bytes c;
  update_app d a b : EVP_CipherUpdate d (a ++ b) =
    ('(x, d) ← EVP_CipherUpdate d a; '(y, d) ← EVP_CipherUpdate d b; Some (x ++ y, d));
  update_length d m x d' : EVP_CipherUpdate d m = Some (x, d') -> length x = length m }.

End Ciphers.

(** ** Lemmas on key streams *)

Lemma xor_ks_app f p a b : xor_ks f p (a ++ b) = xor_ks f p a ++ xor_ks f (p + Z.of_nat (length a)) b.
Proof.
  revert p. induction a as [|x a IH]; intros p; cbn [app xor_ks length]; [by rewrite Z.add_0_r|].
  rewrite IH. do 3 f_equal. lia.
Qed.

Lemma xor_ks_length f p m : length (xor_ks f p m) = length m.
Proof. revert p. induction m as [|x m IH]; intros p; cbn; [done|by rewrite IH]. Qed.

Lemma xor_ks_involutive f p m : xor_ks f p (xor_ks f p m) = m.
Proof.
  revert p. induction m as [|x m IH]; intros p; cbn; [done|]. by rewrite IH, Z.lxor_assoc, Z.lxor_nilpotent, Z.lxor_0_r.
Qed.

Lemma lxor_byte a b : 0 <= a < 256 -> 0 <= b < 256 -> 0 <= Z.lxor a b < 256.
Proof.
  intros Ha Hb. assert (0 <= Z.lxor a b) as H0 by (apply Z.lxor_nonneg; lia). split; [done|].
  destruct (decide (Z.lxor a b = 0)) as [->|Hne]; [lia|]. apply Z.log2_lt_cancel.
  eapply Z.le_lt_trans; [apply Z.log2_lxor; lia|]. change (Z.log2 256) with 8.
  apply Z.max_lub_lt; [destruct (decide (a = 0)) as [->|]|destruct (decide (b = 0)) as [->|]]; try done; apply Z.log2_lt_pow2; lia.
Qed.

Lemma xor_ks_bytes f p m : (forall q, 0 <= f q < 256) -> is_bytes m -> is_bytes (xor_ks f p m).
Proof.
  intros Hf Hm. revert p. induction Hm as [|x m Hx _ IH]; intros p; cbn; constructor; [by apply lxor_byte|apply IH].
Qed.

(** Room in front of a block. *)
Lemma pad_front_spec a d rest padding :
  (padding <= length rest)%nat -> Z.of_nat (length d) < 2 ^ 31 ->
  pad_front (a ++ d ++ rest) (Z.of_nat (length a)) (Z.of_nat padding) (Z.of_nat (length d)) =
  Some (a ++ replicate padding 0 ++ d ++ drop padding rest).
Proof.
  intros Hp Hd. unfold pad_front. rewrite mread_app by (done || lia). cbn [mbind option_bind]. rewrite Nat2Z.id.
  destruct (split_block (d ++ rest) padding) as (x & y & E & Hx); [rewrite length_app; lia|]. rewrite E.
  destruct (split_block y (length d)) as (y1 & y2 & -> & Hy).
  { apply (f_equal length) in E. rewrite !length_app in E. lia. }
  replace (a ++ x ++ y1 ++ y2) with ((a ++ x) ++ y1 ++ y2) by list_assoc.
  rewrite mwrite_app by (rewrite ?length_app; lia). cbn [mbind option_bind].
  replace ((a ++ x) ++ d ++ y2) with (a ++ x ++ d ++ y2) by list_assoc.
  rewrite mwrite_app by (rewrite ?length_replicate; done). do 5 f_equal.
  rewrite app_assoc in E. apply (f_equal (drop (length d + padding))) in E.
  rewrite drop_app_ge in E by lia. rewrite drop_app_ge in E by (rewrite length_app; lia).
  replace (length d + padding - length (x ++ y1))%nat with O in E by (rewrite length_app; lia).
  rewrite drop_0 in E. rewrite <- E. f_equal. lia.
Qed.

(** ** The cipher on a connection *)

Section Transport.
Context (realloc : list Z -> Z -> list Z) {RL : ReallocLaws realloc} (md5 : list Z -> list Z).
Context {E : Type} (EVP_CipherInit : E -> list Z -> list Z -> bool -> E) (EVP_CipherUpdate : E -> list Z -> option (list Z * E)).
Context (stream_xor_ic : Z -> list Z -> list Z -> Z -> list Z -> list Z).
Context (enc_method enc_iv_len : Z) (enc_key : list Z).
Context {SL : SodiumLaws stream_xor_ic enc_method enc_key} {EL : EvpLaws EVP_CipherInit EVP_CipherUpdate}.

Notation enc_ctx := (enc_ctx_t E).
Notation encrypt_data := (encrypt_data realloc EVP_CipherUpdate stream_xor_ic enc_method enc_iv_len enc_key).
Notation decrypt_data := (decrypt_data realloc EVP_CipherUpdate stream_xor_ic enc_method enc_iv_len enc_key).

Notation keystream ctx := (ks stream_xor_ic enc_method enc_key (take (Z.to_nat enc_iv_len) (iv ctx))).

(** Encryption and decryption of data on a context, without buffers. *)
Definition crypt (ctx : enc_ctx) (m : list Z) : option (list Z * enc_ctx) :=
  if SALSA20 <=? enc_method then
    Some (xor_ks (keystream ctx) (counter ctx) m,
          mkCtx (init ctx) (counter ctx + Z.of_nat (length m)) (evp ctx) (iv ctx))
  else '(c, e) ← EVP_CipherUpdate (evp ctx) m; Some (c, mkCtx (init ctx) (counter ctx) e (iv ctx)).

(** The vector is inside its array and the position below what 32 bits of block
    number reach. *)
Definition ctx_ok (ctx : enc_ctx) (n : Z) : Prop :=
  0 <= enc_iv_len <= Z.of_nat (length (iv ctx)) /\ enc_iv_len <= 16 /\ 0 <= counter ctx /\ counter ctx + n < 2 ^ 38.

Lemma crypt_length ctx m c ctx' : crypt ctx m = Some (c, ctx') -> length c = length m.
Proof using EL.
  unfold crypt. case_bool; [intros [= <- <-]; by rewrite xor_ks_length|].
  destruct (EVP_CipherUpdate (evp ctx) m) as [[y e]|] eqn:Eu; [|done]. intros [= <- <-]. by eapply update_length.
Qed.

Lemma crypto_block ctx m :
  SALSA20 <= enc_method -> ctx_ok ctx (Z.of_nat (length m)) ->
  exists g, crypto_stream_xor_ic stream_xor_ic enc_iv_len enc_key
      (replicate (Z.to_nat (counter ctx mod 64)) 0 ++ m) (iv ctx) (counter ctx / 64) enc_method =
    Some (g ++ xor_ks (keystream ctx) (counter ctx) m) /\
    Z.of_nat (length g) = counter ctx mod 64.
Proof using SL.
  intros Hm (Hiv & Hiv2 & Hc & Hc2). pose proof (Z.mod_pos_bound (counter ctx) 64 ltac:(lia)) as Hp.
  pose proof (Z.div_pos (counter ctx) 64 ltac:(lia) ltac:(lia)) as Hd.
  assert (counter ctx / 64 < 2 ^ 32) as Hd2 by (apply Z.div_lt_upper_bound; lia).
  unfold crypto_stream_xor_ic. rewrite mread_in by lia. cbn [mbind option_bind]. rewrite drop_0.
  replace (if enc_method =? CHACHA20IETF then u32 (counter ctx / 64) else counter ctx / 64) with (counter ctx / 64)
    by (case_match; [by rewrite u32_id|done]).
  rewrite (stream_xor stream_xor_ic enc_method enc_key), xor_ks_app by done. eexists. split.
  - do 3 f_equal. rewrite length_replicate, Z2Nat.id by lia.
    rewrite (Z.div_mod (counter ctx) 64) at 3 by lia. done.
  - rewrite xor_ks_length, length_replicate. lia.
Qed.

(** Writing a padded block and moving it over its padding. *)
Lemma write_shift h r g c padding :
  Z.of_nat (length g) = padding -> (length g + length c <= length r)%nat -> Z.of_nat (length c) < 2 ^ 31 ->
  exists r', (a ← mwrite (h ++ r) (Z.of_nat (length h)) (g ++ c);
     if padding =? 0 then Some a
     else x ← mread a (Z.of_nat (length h) + padding) (Z.of_nat (length c)); mwrite a (Z.of_nat (length h)) x) =
  Some (h ++ c ++ r') /\ length (c ++ r') = length r.
Proof.
  intros Hg Hl Hc. destruct (split_block r (length (g ++ c))) as (r1 & r2 & -> & Hr1); [by rewrite length_app|].
  rewrite mwrite_app by done. cbn [mbind option_bind]. rewrite length_app in Hr1. case_bool.
  - destruct g; [|cbn in Hg; lia]. exists r2. split; [done|]. rewrite !length_app. cbn in Hr1. lia.
  - replace (h ++ (g ++ c) ++ r2) with ((h ++ g) ++ c ++ r2) by list_assoc.
    rewrite mread_app by (rewrite ?length_app; lia). cbn [mbind option_bind].
    destruct (split_block (g ++ c) (length c)) as (x & y & Exy & Hx); [rewrite length_app; lia|].
    assert ((h ++ g) ++ c ++ r2 = h ++ x ++ y ++ r2) as ->.
    { transitivity (h ++ (g ++ c) ++ r2); [list_assoc|]. rewrite Exy. list_assoc. }
    rewrite mwrite_app by done. exists (y ++ r2). split; [done|].
    apply (f_equal length) in Exy. rewrite !length_app in *. lia.
Qed.

(** Contents with room in front, or as they are when nothing is needed. *)
Lemma padded b m padding cap h :
  (h ++ m) `prefix_of` array b -> Z.of_nat (length (array b)) < 2 ^ 30 -> 0 <= padding ->
  len b = Z.of_nat (length (h ++ m)) -> 0 <= cap ->
  exists r, (if padding =? 0 then Some (array b)
    else pad_front (array (brealloc realloc b (len b + padding) cap)) (Z.of_nat (length h)) padding (Z.of_nat (length m))) =
    Some (h ++ (replicate (Z.to_nat padding) 0 ++ m) ++ r).
Proof using RL.
  intros [r0 Hr0] Hs Hp Hl Hcap. rewrite Hr0, !length_app in Hs. case_bool.
  - subst. exists r0. rewrite Hr0. cbn [replicate Z.to_nat app]. by rewrite <- app_assoc.
  - destruct (brealloc_spec realloc b (len b + padding) cap) as ([r Hr] & Hm & _).
    rewrite Hr, Hr0, <- !app_assoc. rewrite length_app in Hl.
    rewrite Hr, Hr0, !length_app in Hm.
    pose proof (pad_front_spec h m (r0 ++ r) (Z.to_nat padding) ltac:(rewrite length_app; lia) ltac:(lia)) as Hpf.
    rewrite Z2Nat.id in Hpf by lia. rewrite Hpf. eexists. by rewrite <- (app_assoc (replicate _ _)).
Qed.

Lemma encrypt_data_spec plain cipher ctx m c ctx' h cap :
  holds plain m -> crypt ctx m = Some (c, ctx') -> ctx_ok ctx (Z.of_nat (length m)) ->
  h `prefix_of` array cipher -> len cipher = Z.of_nat (length m) ->
  Z.of_nat (length h + length m) <= Z.of_nat (length (array cipher)) < 2 ^ 30 ->
  Z.of_nat (length m) < 2 ^ 28 -> (length h <= 16)%nat -> 0 <= cap < 2 ^ 30 ->
  exists b, encrypt_data plain cipher ctx (Z.of_nat (length h)) cap = Some (Some (b, ctx')) /\
    len b = Z.of_nat (length c) /\ (h ++ c) `prefix_of` array b /\ Z.of_nat (length (array b)) < 2 ^ 30.
Proof using RL SL EL.
  intros Hp Hc Hok Hh Hl Hsz Hm Hh16 Hcap. pose proof (crypt_length _ _ _ _ Hc) as Hcl. revert Hc.
  unfold encrypt_data, crypt. destruct (SALSA20 <=? enc_method) eqn:Em; zify_bool.
  - intros [= <- <-]. set (padding := counter ctx mod SODIUM_BLOCK_SIZE) in *.
    assert (0 <= padding < 64) as Hpad by (apply Z.mod_pos_bound; lia). cbn [init counter evp iv].
    destruct (padded plain m padding cap [] ltac:(apply Hp) ltac:(apply Hp) ltac:(lia) ltac:(apply Hp) ltac:(lia)) as (r & Hr).
    change (Z.of_nat (length [])) with 0 in Hr. destruct Hp as (Hpl & _ & _). rewrite <- Hpl in Hr. rewrite Hr. cbn [mbind option_bind app].
    rewrite mread_prefix by (rewrite ?length_app, ?length_replicate; lia). cbn [mbind option_bind].
    destruct (crypto_block ctx m Em Hok) as (g & Hg & Hgl).
    change (counter ctx mod 64) with padding in Hg, Hgl. change (counter ctx / 64) with (counter ctx / SODIUM_BLOCK_SIZE) in Hg.
    rewrite Hg. cbn [mbind option_bind].
    destruct (brealloc_spec realloc cipher (Z.of_nat (length h) + (padding + len cipher) * 2) cap) as ([r2 Hr2] & Hmx & Hl2).
    pose proof (brealloc_length realloc cipher (Z.of_nat (length h) + (padding + len cipher) * 2) cap) as Hlen.
    set (c' := brealloc realloc cipher _ cap) in *. destruct Hh as [r1 Hr1]. rewrite Hr1 in Hr2. rewrite Hr2, <- app_assoc in *.
    rewrite !length_app in *. rewrite Hl2, Hl.
    rewrite xor_ks_length in Hcl.
    destruct (write_shift h (r1 ++ r2) g (xor_ks (keystream ctx) (counter ctx) m) padding) as (r' & Hw & Hwl);
      [done|rewrite length_app, xor_ks_length; lia|rewrite xor_ks_length; lia|].
    rewrite xor_ks_length in Hw.
    destruct (mwrite (h ++ r1 ++ r2) _ _) as [a|]; [|done]. cbn [mbind option_bind] in *. rewrite Hw. cbn [mbind option_bind].
    rewrite u64_id by (destruct Hok; lia). rewrite Hpl. eexists. split; [done|]. cbn [len array].
    rewrite !length_app in Hwl. split_and!; [by rewrite xor_ks_length|exists r'; list_assoc|rewrite !length_app in *; lia].
  - destruct (EVP_CipherUpdate (evp ctx) m) as [[x e]|] eqn:Eu; [|done]. intros [= <- <-].
    rewrite (holds_mread plain m) by done. cbn [mbind option_bind]. rewrite Eu.
    destruct Hh as [r Hr]. rewrite Hr in *. rewrite !length_app in *.
    destruct (split_block r (length x)) as (r1 & r2 & -> & Hr1); [lia|].
    rewrite mwrite_app by done. cbn [mbind option_bind]. eexists. split; [done|]. cbn [len array].
    rewrite !length_app in *. split_and!; [done|exists r2; list_assoc|lia].
Qed.

Lemma decrypt_data_spec cipher plain ctx m p ctx' h cap :
  holds cipher (h ++ m) -> crypt ctx m = Some (p, ctx') -> ctx_ok ctx (Z.of_nat (length m)) ->
  len plain = Z.of_nat (length m) -> Z.of_nat (length m) <= Z.of_nat (length (array plain)) < 2 ^ 30 ->
  Z.of_nat (length m) < 2 ^ 28 -> (length h <= 16)%nat -> 0 <= cap < 2 ^ 30 ->
  exists b, decrypt_data cipher plain ctx (Z.of_nat (length h)) cap = Some (Some (b, ctx')) /\ holds b p.
Proof using RL SL EL.
  intros Hp Hc Hok Hl Hsz Hm Hh16 Hcap. pose proof (crypt_length _ _ _ _ Hc) as Hcl. revert Hc.
  pose proof Hp as (Hpl & Hpp & Hps). unfold decrypt_data, crypt. rewrite Hpl, length_app.
  replace (u64 (Z.of_nat (length h + length m) - Z.of_nat (length h))) with (Z.of_nat (length m)) by (rewrite u64_id; lia).
  destruct (SALSA20 <=? enc_method) eqn:Em; zify_bool.
  - intros [= <- <-]. set (padding := counter ctx mod SODIUM_BLOCK_SIZE) in *.
    assert (0 <= padding < 64) as Hpad by (apply Z.mod_pos_bound; lia). cbn [init counter evp iv].
    destruct (padded cipher m padding cap h Hpp Hps ltac:(lia) Hpl ltac:(lia)) as (r & Hr).
    rewrite Hpl, length_app in Hr. rewrite Hr. cbn [mbind option_bind].
    rewrite mread_app by (rewrite ?length_app, ?length_replicate; lia). cbn [mbind option_bind].
    destruct (crypto_block ctx m Em Hok) as (g & Hg & Hgl).
    change (counter ctx mod 64) with padding in Hg, Hgl. change (counter ctx / 64) with (counter ctx / SODIUM_BLOCK_SIZE) in Hg.
    rewrite Hg. cbn [mbind option_bind].
    rewrite u64_id by lia.
    destruct (brealloc_spec realloc plain ((len plain + padding) * 2) cap) as (_ & Hmx & Hl2).
    pose proof (brealloc_length realloc plain ((len plain + padding) * 2) cap) as Hlen.
    set (p' := brealloc realloc plain _ cap) in *. rewrite xor_ks_length in Hcl.
    destruct (write_shift [] (array p') g (xor_ks (keystream ctx) (counter ctx) m) padding) as (r' & Hw & Hwl);
      [done|rewrite xor_ks_length; lia|rewrite xor_ks_length; lia|].
    rewrite xor_ks_length in Hw. cbn [app] in Hw. change (Z.of_nat (length [])) with 0 in Hw. rewrite Hl2, Hl.
    destruct (mwrite (array p') _ _) as [a|]; [|done]. cbn [mbind option_bind] in *. rewrite Z.add_0_l in Hw. rewrite Hw. cbn [mbind option_bind].
    rewrite u64_id by (destruct Hok; lia). eexists. split; [done|]. rewrite !length_app in Hwl.
    split_and!; cbn [len array]; [by rewrite xor_ks_length|by exists r'|rewrite length_app; lia].
  - destruct (EVP_CipherUpdate (evp ctx) m) as [[x e]|] eqn:Eu; [|done]. intros [= <- <-].
    destruct Hpp as [r Hr]. rewrite Hr in *. rewrite !length_app in *. rewrite <- app_assoc.
    rewrite mread_app by (done || lia). cbn [mbind option_bind]. rewrite Eu.
    destruct (split_block (array plain) (length x)) as (r1 & r2 & E2 & Hr1); [lia|]. rewrite E2 in *. rewrite length_app in *.
    change (mwrite (r1 ++ r2) 0 x) with (mwrite ([] ++ r1 ++ r2) 0 x).
    rewrite (mwrite_app [] r1) by done. cbn [mbind option_bind app]. eexists. split; [done|].
    split_and!; cbn [len array]; [done|by exists r2|rewrite length_app; lia].
Qed.

Lemma copy_back_spec dst src c cap :
  c `prefix_of` src -> Z.of_nat (length src) < 2 ^ 30 -> Z.of_nat (length (array dst)) < 2 ^ 30 -> 0 <= cap < 2 ^ 30 ->
  exists b, copy_back realloc dst src (Z.of_nat (length c)) cap = Some b /\ holds b c /\
    Z.of_nat (length (array b)) = Z.max (Z.of_nat (length (array dst))) (Z.max (Z.of_nat (length c)) cap).
Proof using RL.
  intros [r ->] Hs Hd Hcap. rewrite length_app in Hs. unfold copy_back.
  pose proof (brealloc_length realloc dst (Z.of_nat (length c)) cap) as Hl. set (d := brealloc realloc dst _ cap) in *.
  rewrite mread_prefix by (done || lia). cbn [mbind option_bind].
  destruct (split_block (array d) (length c)) as (r1 & r2 & E2 & Hr1); [lia|]. rewrite E2 in *. rewrite length_app in *.
  change (mwrite (r1 ++ r2) 0 c) with (mwrite ([] ++ r1 ++ r2) 0 c).
  rewrite (mwrite_app [] r1) by done. cbn [mbind option_bind app]. eexists. split; [done|].
  split; [split_and!; cbn [len array]; [done|by exists r2|rewrite length_app; lia]|cbn [array]; rewrite length_app; lia].
Qed.

Notation ss_encrypt := (ss_encrypt realloc md5 EVP_CipherInit EVP_CipherUpdate stream_xor_ic enc_method enc_iv_len enc_key).
Notation ss_decrypt := (ss_decrypt realloc md5 EVP_CipherInit EVP_CipherUpdate stream_xor_ic enc_method enc_iv_len enc_key).
Notation set_iv := (cipher_context_set_iv md5 EVP_CipherInit enc_method enc_key).
Notation synced := (synced EVP_CipherInit EVP_CipherUpdate).

(** Contexts of the two ends that are in step. *)
Definition paired (s r : enc_ctx) : Prop :=
  init s = true /\ init r = true /\ counter s = counter r /\
  take (Z.to_nat enc_iv_len) (iv s) = take (Z.to_nat enc_iv_len) (iv r) /\
  (enc_method < SALSA20 -> synced (evp s) (evp r)).

Lemma crypt_paired s r m :
  paired s r -> is_bytes m ->
  exists c s' r', crypt s m = Some (c, s') /\ crypt r c = Some (m, r') /\ paired s' r' /\
    length c = length m /\ is_bytes c /\ iv s' = iv s /\ iv r' = iv r /\
    counter s' <= counter s + Z.of_nat (length m) /\ counter s <= counter s'.
Proof using SL EL.
  intros (Hs & Hr & Hc & Hiv & Hsync) Hm. unfold crypt, paired. destruct (SALSA20 <=? enc_method) eqn:Em; zify_bool.
  - eexists _, _, _. split; [done|]. cbn [init counter evp iv]. rewrite <- Hiv, <- Hc, xor_ks_involutive, xor_ks_length.
    split_and!; try done; try lia. apply xor_ks_bytes; [|done]. intros q. apply (ks_range stream_xor_ic enc_method enc_key).
  - destruct (update_synced EVP_CipherInit EVP_CipherUpdate _ _ m (Hsync Em) Hm) as (c & e' & d' & -> & Hd & Hs' & Hl & Hb).
    cbn [mbind option_bind]. eexists _, _, _. split; [done|]. rewrite Hd. cbn [mbind option_bind init counter evp iv].
    split_and!; try done; lia.
Qed.

Lemma crypt_app ctx a b :
  crypt ctx (a ++ b) = ('(x, c1) ← crypt ctx a; '(y, c2) ← crypt c1 b; Some (x ++ y, c2)).
Proof using EL.
  unfold crypt. destruct (SALSA20 <=? enc_method).
  - cbn [mbind option_bind init counter evp iv]. rewrite xor_ks_app, length_app, Nat2Z.inj_add, Z.add_assoc. done.
  - rewrite (update_app EVP_CipherInit EVP_CipherUpdate). destruct (EVP_CipherUpdate (evp ctx) a) as [[x e]|]; [|done].
    cbn [mbind option_bind evp init counter iv]. by destruct (EVP_CipherUpdate e b) as [[y e2]|].
Qed.

(** What comes before the data: nothing, or the vector [ivb] the first time, which
    sets the context up. *)
Definition opened (enc : bool) (ctx ctx0 : enc_ctx) (ivb h : list Z) : Prop :=
  init ctx = true /\ ctx0 = ctx /\ h = [] \/
  init ctx = false /\ h = ivb /\
    exists e ivs, set_iv (evp ctx) (iv ctx) h enc = Some (e, ivs) /\ ctx0 = mkCtx true 0 e ivs.

(** Encrypting a buffer. *)
Lemma ss_encrypt_spec tbl tmp plain ctx ctx0 m c ctx' h cap :
  opened true ctx ctx0 (take (Z.to_nat enc_iv_len) (iv ctx)) h ->
  0 <= enc_iv_len <= Z.of_nat (length (iv ctx)) -> ctx_ok ctx0 (Z.of_nat (length m)) ->
  holds plain m -> crypt ctx0 m = Some (c, ctx') -> Z.of_nat (length (array tmp)) < 2 ^ 29 ->
  Z.of_nat (length m) < 2 ^ 28 -> 0 <= cap < 2 ^ 29 ->
  exists b, ss_encrypt tbl tmp plain (Some ctx) cap = Some (0, b, Some ctx') /\ holds b (h ++ c) /\
    Z.of_nat (length (array b)) = Z.max (Z.of_nat (length (array plain))) (Z.max (Z.of_nat (length (h ++ c))) cap).
Proof using RL SL EL.
  intros Hini Hivl Hok Hp Hc Ht Hm Hcap. unfold ss_encrypt.
  set (iv_len := if init ctx then 0 else enc_iv_len).
  assert (iv_len = Z.of_nat (length h) /\ (length h <= 16)%nat) as [Hil Hh16].
  { unfold iv_len. destruct Hok as (_ & ? & _). destruct Hini as [(-> & _ & ->)|(-> & -> & _)]; cbn [length]; [split; [done|lia]|].
    rewrite length_take. lia. }
  destruct Hp as (Hpl & Hpp & Hps) eqn:EHp. clear EHp. rewrite Hpl, Hil.
  pose proof (brealloc_length realloc tmp (Z.of_nat (length h) + Z.of_nat (length m)) cap) as Htl.
  set (tmp' := brealloc realloc tmp _ cap) in *.
  assert (exists a, (if init ctx then Some (array tmp', ctx) else
      iv_bytes ← mread (iv ctx) 0 (Z.of_nat (length h));
      '(e, ctx_iv) ← set_iv (evp ctx) (iv ctx) iv_bytes true;
      a ← mwrite (array tmp') 0 iv_bytes; Some (a, mkCtx true 0 e ctx_iv)) = Some (a, ctx0) /\
      h `prefix_of` a /\ length a = length (array tmp')) as (a & -> & Hha & Hal).
  { destruct Hini as [(-> & -> & ->)|(Hi & Hh & e & ivs & Hset & ->)].
    - eexists. split_and!; [done|apply prefix_nil|done].
    - pose proof Hok as (_ & Hiv16 & _). assert (enc_iv_len = Z.of_nat (length h)) as Hil' by (rewrite <- Hil; unfold iv_len; by rewrite Hi).
      rewrite Hi, <- Hil', mread_in by lia. cbn [mbind option_bind]. rewrite drop_0, <- Hh, Hset.
      cbn [mbind option_bind]. destruct (split_block (array tmp') (length h)) as (r1 & r2 & E2 & Hr1); [lia|]. rewrite E2 in *.
      change (mwrite (r1 ++ r2) 0 h) with (mwrite ([] ++ r1 ++ r2) 0 h). rewrite (mwrite_app [] r1) by done. cbn [mbind option_bind app].
      eexists. split_and!; [done|by exists r2|rewrite !length_app; lia]. }
  cbn [mbind option_bind].
  destruct (encrypt_data_spec plain (mkBuf a (Z.of_nat (length m))) ctx0 m c ctx' h cap) as (b & -> & Hbl & Hbp & Hbs);
    cbn [array len]; try done; try lia.
  cbn [mbind option_bind]. rewrite Hbl.
  replace (Z.of_nat (length h) + Z.of_nat (length c)) with (Z.of_nat (length (h ++ c))) by (rewrite length_app; lia).
  destruct (copy_back_spec plain (array b) (h ++ c) cap Hbp Hbs) as (b' & -> & Hb'); [lia|lia|].
  cbn [mbind option_bind]. eauto.
Qed.

(** What the memory of vectors says. *)
Definition looked `{Cache.HashFind unit} (ctx : enc_ctx) (iv_cache : option (Cache.cache unit)) (ivb : list Z) (now : Z)
    : option (Cache.cache unit) * bool :=
  if init ctx then (iv_cache, false)
  else if RC4 <? enc_method then Cache.check_iv iv_cache ivb now else (iv_cache, false).

(** Decrypting a buffer. *)
Lemma ss_decrypt_spec `{Cache.HashFind unit} tbl iv_cache now tmp cipher ctx ctx0 m p ctx' ivb h cap :
  opened false ctx ctx0 ivb h -> Z.of_nat (length ivb) = enc_iv_len -> ctx_ok ctx0 (Z.of_nat (length m)) ->
  holds cipher (h ++ m) -> crypt ctx0 m = Some (p, ctx') -> Z.of_nat (length (array tmp)) < 2 ^ 29 ->
  Z.of_nat (length m) < 2 ^ 28 -> 0 <= cap < 2 ^ 29 ->
  let '(iv_cache', seen) := looked ctx iv_cache ivb now in
  if seen : bool then ss_decrypt tbl iv_cache now tmp cipher (Some ctx) cap = Some (-1, None, Some ctx0, iv_cache')
  else exists b, ss_decrypt tbl iv_cache now tmp cipher (Some ctx) cap = Some (0, Some b, Some ctx', iv_cache') /\ holds b p /\
    Z.of_nat (length (array b)) = Z.max (Z.of_nat (length (array cipher))) (Z.max (Z.of_nat (length p)) cap).
Proof using RL SL EL.
  intros Hini Hivb Hok Hp Hc Ht Hm Hcap. pose proof Hok as (_ & Hiv16 & _). unfold ss_decrypt.
  set (iv_len := if init ctx then 0 else enc_iv_len).
  assert (iv_len = Z.of_nat (length h) /\ (length h <= 16)%nat) as [Hil Hh16].
  { unfold iv_len. destruct Hini as [(-> & _ & ->)|(-> & -> & _)]; cbn [length]; [split; [done|lia]|lia]. }
  pose proof (crypt_length _ _ _ _ Hc) as Hcl.
  pose proof Hp as (Hpl & [r Hr] & Hps). rewrite Hil, Hpl, length_app.
  replace (u64 (Z.of_nat (length h + length m) - Z.of_nat (length h))) with (Z.of_nat (length m)) by (rewrite u64_id; lia).
  pose proof (brealloc_length realloc tmp (Z.of_nat (length h + length m)) cap) as Htl.
  set (tmp' := brealloc realloc tmp _ cap) in *.
  assert ((if init ctx then Some (ctx, iv_cache, false) else
      iv_bytes ← mread (array cipher) 0 (Z.of_nat (length h));
      '(e, ctx_iv) ← set_iv (evp ctx) (iv ctx) iv_bytes false;
      let '(iv_cache, seen) :=
        if RC4 <? enc_method then Cache.check_iv iv_cache iv_bytes now else (iv_cache, false) in
      Some (mkCtx true 0 e ctx_iv, iv_cache, seen)) =
    let '(iv_cache', seen) := looked ctx iv_cache ivb now in Some (ctx0, iv_cache', seen)) as ->.
  { unfold looked. destruct Hini as [(-> & -> & ->)|(-> & -> & e & ivs & Hset & ->)]; [done|].
    rewrite Hr, <- app_assoc, mread_prefix by (done || lia). cbn [mbind option_bind]. rewrite Hset. cbn [mbind option_bind].
    by destruct (if RC4 <? enc_method then _ else _). }
  destruct (looked ctx iv_cache ivb now) as [iv_cache' seen]. cbn [mbind option_bind]. destruct seen; [done|].
  destruct (decrypt_data_spec cipher (mkBuf (array tmp') (Z.of_nat (length m))) ctx0 m p ctx' h cap) as (b & -> & Hb);
    cbn [array len]; try done; try lia.
  cbn [mbind option_bind]. destruct Hb as (Hbl & Hbp & Hbs). rewrite Hbl.
  destruct (copy_back_spec cipher (array b) p cap Hbp Hbs) as (b' & -> & Hb'); [lia|lia|].
  cbn [mbind option_bind]. eauto.
Qed.

Notation send_stream := (send_stream realloc md5 EVP_CipherInit EVP_CipherUpdate stream_xor_ic enc_method enc_iv_len enc_key).
Notation recv_stream := (recv_stream realloc md5 EVP_CipherInit EVP_CipherUpdate stream_xor_ic enc_method enc_iv_len enc_key).

(** The context of a connection that has not begun, with 16 bytes for its vector;
    the key has at least the 16 bytes that go into an MD5 key. *)
Definition fresh (ctx : enc_ctx) : Prop := init ctx = false /\ length (iv ctx) = 16%nat.
Definition globals_ok : Prop := TABLE < enc_method /\ 0 <= enc_iv_len <= 16 /\ (16 <= length enc_key)%nat.

Lemma opened_init enc ctx ctx0 ivb h : opened enc ctx ctx0 ivb h -> init ctx0 = true.
Proof. intros [(? & -> & _)|(_ & _ & e & ivs & _ & ->)]; done. Qed.

Lemma crypt_ctx ctx m c ctx' :
  crypt ctx m = Some (c, ctx') ->
  init ctx' = init ctx /\ iv ctx' = iv ctx /\ counter ctx <= counter ctx' <= counter ctx + Z.of_nat (length m).
Proof.
  unfold crypt. case_bool; [intros [= <- <-]; cbn; split_and!; done || lia|].
  destruct (EVP_CipherUpdate (evp ctx) m) as [[y e]|]; [|done]. intros [= <- <-]. cbn. split_and!; done || lia.
Qed.

Lemma ctx_ok_next ctx m n c ctx' :
  ctx_ok ctx (Z.of_nat (length (m ++ n))) -> crypt ctx m = Some (c, ctx') -> ctx_ok ctx' (Z.of_nat (length n)).
Proof.
  intros (H1 & H2 & H3 & H4) (_ & Hi & Hc)%crypt_ctx. rewrite length_app in H4. unfold ctx_ok. rewrite Hi. lia.
Qed.

(** Both ends set up with the same vector are in step. *)
Lemma set_iv_both e d ivb ivr :
  globals_ok -> Z.of_nat (length ivb) = enc_iv_len -> length ivr = 16%nat ->
  exists es er ivr', (forall ivs, set_iv e ivs ivb true = Some (es, ivs)) /\
    set_iv d ivr ivb false = Some (er, ivr') /\ take (Z.to_nat enc_iv_len) ivr' = ivb /\ length ivr' = 16%nat /\
    (enc_method < SALSA20 -> synced es er).
Proof using EL.
  intros (Hm & Hiv & Hk) Hl Hlr. pose proof (init_synced EVP_CipherInit EVP_CipherUpdate) as Hsync.
  assert (exists ivs, mwrite ivr 0 ivb = Some ivs /\ take (Z.to_nat enc_iv_len) ivs = ivb /\ length ivs = 16%nat) as (ivs & Hw & Ht & Hl2).
  { rewrite mwrite_in by lia. eexists. split; [done|]. change (Z.to_nat 0) with O. rewrite take_0, app_nil_l. split; [apply take_app_length'; lia|].
    rewrite length_app, length_drop. lia. }
  unfold cipher_context_set_iv. rewrite Hw. cbn [mbind option_bind]. destruct (SALSA20 <=? enc_method) eqn:E0; zify_bool.
  { eexists _, _, _. split_and!; try done; lia. }
  destruct ((enc_method =? RC4_MD5) || (enc_method =? RC4_MD5_6)).
  - rewrite mread_in by lia. cbn [mbind option_bind]. eexists _, _, _. split_and!; try done; intros _; apply Hsync.
  - cbn [mbind option_bind]. eexists _, _, _. split_and!; try done; intros _; apply Hsync.
Qed.

Lemma open_paired s r :
  globals_ok -> fresh s -> fresh r ->
  exists s0 r0, let ivb := take (Z.to_nat enc_iv_len) (iv s) in
    opened true s s0 ivb ivb /\ opened false r r0 ivb ivb /\ paired s0 r0 /\
    (forall n, n < 2 ^ 38 -> ctx_ok s0 n /\ ctx_ok r0 n).
Proof using EL.
  intros Hg (Hs & Hls) (Hr & Hlr). set (ivb := take (Z.to_nat enc_iv_len) (iv s)). pose proof Hg as (_ & Hiv & _).
  destruct (set_iv_both (evp s) (evp r) ivb (iv r) Hg) as (es & er & ivs & Hes & Her & Ht & Hl2 & Hsync);
    [unfold ivb; rewrite length_take; lia|done|].
  exists (mkCtx true 0 es (iv s)), (mkCtx true 0 er ivs). split_and!.
  - right. eauto 10.
  - right. eauto 10.
  - split_and!; cbn; done.
  - intros n Hn. unfold ctx_ok. cbn. lia.
Qed.

Definition sendable (b : buffer_t * buffer_t) (p : list Z) : Prop :=
  holds (snd b) p /\ Z.of_nat (length (array (fst b))) < 2 ^ 29 /\ Z.of_nat (length p) < 2 ^ 28.

Lemma send_stream_spec packets ps cap : forall ctx ctx0 h w ctx',
  Forall2 sendable packets ps -> (packets = [] -> h = []) ->
  opened true ctx ctx0 (take (Z.to_nat enc_iv_len) (iv ctx)) h ->
  0 <= enc_iv_len <= Z.of_nat (length (iv ctx)) -> ctx_ok ctx0 (Z.of_nat (length (concat ps))) ->
  crypt ctx0 (concat ps) = Some (w, ctx') -> 0 <= cap < 2 ^ 29 ->
  send_stream packets (Some ctx) cap = Some (h ++ w).
Proof using RL SL EL.
  intros ctx ctx0 h w ctx' Hps. revert ctx ctx0 h w ctx'.
  induction Hps as [|[tmp plain] p packets ps (Hp & Ht & Hl) _ IH]; intros ctx ctx0 h w ctx' Hne Hop Hiv Hok Hc Hcap.
  - cbn [concat] in Hc. apply crypt_length in Hc. destruct w; [|done]. by rewrite Hne.
  - cbn [concat send_stream] in *. rewrite crypt_app in Hc.
    destruct (crypt ctx0 p) as [[c c1]|] eqn:E1; [|done]. cbn [mbind option_bind] in Hc.
    destruct (crypt c1 (concat ps)) as [[w2 c2]|] eqn:E2; [|done]. cbn [mbind option_bind] in Hc. simplify_eq.
    assert (ctx_ok ctx0 (Z.of_nat (length p))) as Hok1.
    { destruct Hok as (?&?&?&Hb). rewrite length_app in Hb. split_and!; lia || done. }
    destruct (ss_encrypt_spec [] tmp plain ctx ctx0 p c c1 h cap Hop Hiv Hok1 Hp E1 Ht Hl Hcap) as (b & -> & Hb & _).
    cbn [mbind option_bind]. change (0 =? 0) with true. cbn match. rewrite (holds_mread _ _ Hb). cbn [mbind option_bind].
    pose proof (crypt_ctx _ _ _ _ E1) as (Hi1 & Hiv1 & _). pose proof (opened_init _ _ _ _ _ Hop) as Hi0. pose proof Hok as (Hiv0 & _).
    rewrite (IH c1 c1 [] w2 ctx'); [|done|left; by rewrite Hi1|by rewrite Hiv1|by eapply ctx_ok_next|done|done].
    cbn [mbind option_bind app]. by rewrite <- app_assoc.
Qed.

Lemma recv_stream_spec `{Cache.HashFind unit} segs ss cap now : forall ctx ctx0 ivb h w p ctx' iv_cache iv_cache',
  Forall2 sendable segs ss -> opened false ctx ctx0 ivb h -> Z.of_nat (length ivb) = enc_iv_len ->
  match ss with s :: _ => h `prefix_of` s | [] => h = [] /\ init ctx = true end -> concat ss = h ++ w ->
  ctx_ok ctx0 (Z.of_nat (length w)) -> crypt ctx0 w = Some (p, ctx') -> 0 <= cap < 2 ^ 29 ->
  looked ctx iv_cache ivb now = (iv_cache', false) ->
  recv_stream segs iv_cache now (Some ctx) cap = Some (Some p, iv_cache').
Proof using RL SL EL.
  intros ctx ctx0 ivb h w p ctx' iv_cache iv_cache' Hss. revert ctx ctx0 ivb h w p ctx' iv_cache iv_cache'.
  induction Hss as [|[tmp cipher] s segs ss (Hs & Ht & Hl) _ IH];
    intros ctx ctx0 ivb h w p ctx' iv_cache iv_cache' Hop Hivb Hfst Hw Hok Hc Hcap Hlook.
  - destruct Hfst as [-> Hi]. cbn in Hw. subst w. apply crypt_length in Hc. destruct p; [|done].
    unfold looked in Hlook. rewrite Hi in Hlook. by simplify_eq.
  - destruct Hfst as [m ->]. cbn [concat recv_stream] in *. rewrite <- app_assoc in Hw. apply app_inv_head in Hw. subst w.
    rewrite crypt_app in Hc. destruct (crypt ctx0 m) as [[q c1]|] eqn:E1; [|done]. cbn [mbind option_bind] in Hc.
    destruct (crypt c1 (concat ss)) as [[w2 c2]|] eqn:E2; [|done]. cbn [mbind option_bind] in Hc. simplify_eq.
    rewrite length_app in Hl.
    assert (ctx_ok ctx0 (Z.of_nat (length m))) as Hok1.
    { destruct Hok as (?&?&?&Hb). rewrite length_app in Hb. split_and!; lia || done. }
    pose proof (ss_decrypt_spec [] iv_cache now tmp cipher ctx ctx0 m q c1 ivb h cap Hop Hivb Hok1 Hs E1 Ht ltac:(lia) Hcap) as Hd.
    rewrite Hlook in Hd. destruct Hd as (b & -> & Hb & _). cbn [mbind option_bind]. rewrite (holds_mread _ _ Hb). cbn [mbind option_bind].
    pose proof (crypt_ctx _ _ _ _ E1) as (Hi1 & Hiv1 & _). pose proof (opened_init _ _ _ _ _ Hop) as Hi0.
    rewrite (IH c1 c1 ivb [] (concat ss) w2 ctx' iv_cache' iv_cache'); [done|left; by rewrite Hi1|done| |done|by eapply ctx_ok_next|done|done|].
    + destruct ss; [split; [done|by rewrite Hi1]|apply prefix_nil].
    + unfold looked. by rewrite Hi1, Hi0.
Qed.

(** C26: A connection is transparent: whatever is encrypted in any number of
    buffers, under a stream cipher of either library, and however the bytes sent
    are cut into segments, of which the first holds the vector, the other end
    decrypts them to the same data; or refuses the first segment when the vector
    was seen before, as the memory of vectors says. *)
Theorem connection_transparent `{Cache.HashFind unit} s r packets ps segs ss wire iv_cache now cap :
  globals_ok -> fresh s -> fresh r -> packets <> [] -> Forall2 sendable packets ps -> is_bytes (concat ps) ->
  Z.of_nat (length (concat ps)) < 2 ^ 38 -> 0 <= cap < 2 ^ 29 ->
  send_stream packets (Some s) cap = Some wire ->
  Forall2 sendable segs ss -> concat ss = wire ->
  match ss with seg :: _ => enc_iv_len <= Z.of_nat (length seg) | [] => False end ->
  let '(iv_cache', seen) := looked r iv_cache (take (Z.to_nat enc_iv_len) (iv s)) now in
  recv_stream segs iv_cache now (Some r) cap = Some (if seen then None else Some (concat ps), iv_cache').
Proof using RL SL EL.
  intros Hg Hs Hr Hne Hps Hby Hlen Hcap Hsend Hss Hw Hfst.
  destruct (open_paired s r Hg Hs Hr) as (s0 & r0 & Hops & Hopr & Hpair & Hok). set (ivb := take _ _) in *.
  destruct (crypt_paired s0 r0 (concat ps) Hpair Hby) as (c & s1 & r1 & Hcs & Hcr & _ & Hcl & _).
  destruct Hs as [Hsi Hsl]. destruct Hg as (_ & Hiv & _).
  rewrite (send_stream_spec packets ps cap s s0 ivb c s1) in Hsend; [|done|done|done|lia|by apply Hok|done|done].
  injection Hsend as <-. assert (Z.of_nat (length ivb) = enc_iv_len) as Hivb by (unfold ivb; rewrite length_take; lia).
  destruct ss as [|seg ss]; [done|]. assert (ivb `prefix_of` seg) as Hpre.
  { exists (drop (length ivb) seg). rewrite <- (take_drop (length ivb) seg) at 1. f_equal.
    apply (f_equal (take (length ivb))) in Hw. cbn [concat] in Hw. rewrite take_app_le in Hw by lia. by rewrite take_app_length in Hw. }
  destruct (looked r iv_cache ivb now) as [iv_cache' seen] eqn:El. destruct seen.
  - inversion Hss as [|[tmp cipher] ? segs' ? (Hh & Ht & Hl) Hss']; subst. destruct Hpre as [m ->]. rewrite length_app in Hl.
    assert (exists q c1, crypt r0 m = Some (q, c1)) as (q & c1 & E1).
    { cbn [concat] in Hw. rewrite <- app_assoc in Hw. apply app_inv_head in Hw. rewrite <- Hw, crypt_app in Hcr.
      destruct (crypt r0 m) as [[q c1]|]; [eauto|done]. }
    cbn [recv_stream].
    pose proof (ss_decrypt_spec [] iv_cache now tmp cipher r r0 m q c1 ivb ivb cap Hopr Hivb ltac:(apply Hok; lia) Hh E1 Ht ltac:(lia) Hcap) as Hd.
    rewrite El in Hd. by rewrite Hd.
  - rewrite (recv_stream_spec segs (seg :: ss) cap now r r0 ivb ivb c (concat ps) r1 iv_cache iv_cache'); try done.
    apply Hok. by rewrite Hcl.
Qed.

(** ** Datagrams *)

Context (hmac : list Z -> list Z -> list Z) {HL : HmacLaws hmac}.
Notation ss_encrypt_all := (ss_encrypt_all realloc md5 EVP_CipherInit EVP_CipherUpdate stream_xor_ic enc_method enc_iv_len enc_key hmac).
Notation ss_decrypt_all := (ss_decrypt_all realloc md5 EVP_CipherInit EVP_CipherUpdate stream_xor_ic enc_method enc_iv_len enc_key hmac).

(** The cipher from the beginning of its key stream. *)
Lemma crypt_start ctx m c ctx' :
  counter ctx = 0 -> crypt ctx m = Some (c, ctx') -> ctx_ok ctx (Z.of_nat (length m)) ->
  if SALSA20 <=? enc_method then crypto_stream_xor_ic stream_xor_ic enc_iv_len enc_key m (iv ctx) 0 enc_method = Some c
  else EVP_CipherUpdate (evp ctx) m = Some (c, evp ctx').
Proof using SL.
  intros H0 Hc Hok. revert Hc. unfold crypt. destruct (SALSA20 <=? enc_method) eqn:Em; zify_bool.
  - intros [= <- <-]. destruct (crypto_block ctx m Em Hok) as (g & Hg & Hl). rewrite H0 in *. change (0 mod 64) with 0 in *.
    destruct g; [|cbn in Hl; lia]. exact Hg.
  - destruct (EVP_CipherUpdate (evp ctx) m) as [[x e]|]; [|done]. by intros [= <- <-].
Qed.

(** What goes through the cipher: the data, and the MAC when it is asked for. *)
Definition body (auth : bool) (iv m : list Z) : list Z :=
  if auth then m ++ header_mac hmac enc_iv_len enc_key iv m else m.

Lemma header_mac_vector iv iv' m :
  take (Z.to_nat enc_iv_len) iv = take (Z.to_nat enc_iv_len) iv' ->
  header_mac hmac enc_iv_len enc_key iv m = header_mac hmac enc_iv_len enc_key iv' m.
Proof. unfold header_mac. by intros ->. Qed.

Lemma encrypt_all_spec tbl tmp plain auth e iv ivs m cap es c ctx' :
  globals_ok -> length iv = 16%nat -> holds plain m -> Z.of_nat (length m) < 2 ^ 28 ->
  Z.of_nat (length (array tmp)) < 2 ^ 29 -> enc_iv_len + Z.of_nat (length m) + 10 <= cap < 2 ^ 29 ->
  set_iv e ivs (take (Z.to_nat enc_iv_len) iv) true = Some (es, ivs) ->
  crypt (mkCtx true 0 es iv) (body auth iv m) = Some (c, ctx') ->
  exists b, ss_encrypt_all tbl tmp plain enc_method auth e iv ivs cap = Some (0, Some b) /\
    holds b (take (Z.to_nat enc_iv_len) iv ++ c).
Proof using RL SL EL HL.
  intros (Hm & Hiv & Hk) Hl Hp Hml Ht Hcap Hset Hc. set (ivb := take (Z.to_nat enc_iv_len) iv) in *.
  assert (Z.of_nat (length ivb) = enc_iv_len) as Hivb by (unfold ivb; rewrite length_take; lia).
  pose proof (crypt_length _ _ _ _ Hc) as Hcl.
  assert (Z.of_nat (length (body auth iv m)) <= Z.of_nat (length m) + 10) as Hbl.
  { unfold body. destruct auth; [rewrite length_app, length_header_mac by apply _; lia|lia]. }
  unfold ss_encrypt_all. rewrite (proj2 (Z.ltb_lt _ _) Hm).
  pose proof (brealloc_length realloc tmp (enc_iv_len + len plain) cap) as Htl. set (tmp' := brealloc realloc tmp _ cap) in *.
  assert (len plain = Z.of_nat (length m)) as Hpl by apply Hp.
  rewrite mread_in by lia. cbn [mbind option_bind]. rewrite drop_0. fold ivb. rewrite Hset. cbn [mbind option_bind].
  destruct (split_block (array tmp') (length ivb)) as (r1 & r2 & E2 & Hr1); [lia|]. rewrite E2 in *. rewrite length_app in Htl.
  change (mwrite (r1 ++ r2) 0 ivb) with (mwrite ([] ++ r1 ++ r2) 0 ivb). rewrite (mwrite_app [] r1) by done. cbn [mbind option_bind app].
  assert (exists b, (if auth then ss_onetimeauth realloc hmac enc_iv_len enc_key iv plain cap else Some plain) = Some b /\
    holds b (body auth iv m)) as (b & -> & Hb).
  { unfold body. destruct auth; [|eauto]. assert (IvFits enc_iv_len iv) by (split; lia).
    apply onetimeauth_holds; first [apply _ | done | lia]. }
  cbn [mbind option_bind]. rewrite (holds_mread _ _ Hb). cbn [mbind option_bind].
  pose proof (crypt_start (mkCtx true 0 es iv) _ _ _ eq_refl Hc) as Hst. cbn [Crypt.iv evp] in Hst.
  specialize (Hst ltac:(unfold ctx_ok; cbn; lia)).
  destruct (split_block r2 (length c)) as (r3 & r4 & -> & Hr3); [lia|].
  assert (exists b0, ('a ← mwrite (ivb ++ r3 ++ r4) enc_iv_len c; copy_back realloc b a (enc_iv_len + Z.of_nat (length c)) cap) = Some b0 /\
    holds b0 (ivb ++ c)) as (b0 & Hb0 & Hh0).
  { rewrite mwrite_app by done. cbn [mbind option_bind]. rewrite <- Hivb, <- Nat2Z.inj_add, <- length_app.
    rewrite length_app in Htl. destruct Hb as (_ & _ & Hbs).
    destruct (copy_back_spec b (ivb ++ c ++ r4) (ivb ++ c) cap) as (b0 & ? & ? & _); [exists r4; list_assoc|rewrite !length_app in *; lia|done|lia|eauto]. }
  destruct (mwrite (ivb ++ r3 ++ r4) enc_iv_len c) as [a|] eqn:Ew; [|done]. cbn [mbind option_bind] in Hb0.
  destruct (SALSA20 <=? enc_method); rewrite Hst; cbn [mbind option_bind fmap option_fmap option_map fst];
    rewrite Ew; cbn [mbind option_bind]; rewrite Hb0; cbn [mbind option_bind]; eauto.
Qed.

Lemma decrypt_all_spec tbl tmp cipher auth d ivr ivr' ivb m cap er c ctx' iv :
  globals_ok -> Z.of_nat (length ivb) = enc_iv_len -> ivb = take (Z.to_nat enc_iv_len) iv -> m <> [] ->
  holds cipher (ivb ++ c) -> Z.of_nat (length m) < 2 ^ 28 ->
  Z.of_nat (length (array tmp)) < 2 ^ 29 -> 0 <= cap < 2 ^ 29 ->
  set_iv d ivr ivb false = Some (er, ivr') ->
  crypt (mkCtx true 0 er ivb) c = Some (body (auth || negb (Z.land (hd 0 m) ONETIMEAUTH_FLAG =? 0)) iv m, ctx') ->
  exists b, ss_decrypt_all tbl tmp cipher enc_method auth d ivr cap = Some (0, Some b) /\ holds b m.
Proof using RL SL EL HL.
  intros (Hm & Hiv & Hk) Hivb Hivq Hne Hc Hml Ht Hcap Hset Hcr. set (flag := auth || _) in *.
  pose proof (crypt_length _ _ _ _ Hcr) as Hcl.
  assert (length (body flag iv m) = length m + (if flag then 10 else 0))%nat as Hbl.
  { unfold body. destruct flag; [rewrite length_app, length_header_mac by apply _|]; lia. }
  destruct m as [|x m]; [done|]. set (mm := x :: m) in *. assert (0 < length mm)%nat as Hmm by (cbn; lia).
  assert (0 < length c <= length mm + 10)%nat as Hc0 by (destruct flag; lia).
  pose proof Hc as (Hlen & [r0 Hr0] & Hcs). rewrite length_app in Hlen.
  unfold ss_decrypt_all. rewrite (proj2 (Z.ltb_lt _ _) Hm), (proj2 (Z.leb_gt _ _)) by lia.
  pose proof (brealloc_length realloc tmp (len cipher) cap) as Htl. set (tmp' := brealloc realloc tmp _ cap) in *.
  assert (mread (array cipher) 0 enc_iv_len = Some ivb) as ->
    by (rewrite Hr0, <- app_assoc, <- Hivb; apply mread_prefix; [done|lia]).
  cbn [mbind option_bind]. rewrite Hset. cbn [mbind option_bind].
  assert (mread (array cipher) enc_iv_len (len cipher - enc_iv_len) = Some c) as ->
    by (rewrite Hr0, <- app_assoc; apply mread_app; lia).
  cbn [mbind option_bind].
  pose proof (crypt_start (mkCtx true 0 er ivb) _ _ _ eq_refl Hcr) as Hst. cbn [Crypt.iv evp] in Hst.
  assert (forall n, n < 2 ^ 38 -> ctx_ok (mkCtx true 0 er ivb) n) as Hok by (intros n Hn; unfold ctx_ok; cbn; lia).
  specialize (Hst ltac:(apply Hok; destruct flag; lia)).
  assert (exists a, ('a ← mwrite (array tmp') 0 (body flag iv mm); Some (1, mkBuf a (len cipher - enc_iv_len))) =
      Some (1, a) /\ holds a (body flag iv mm)) as (pl & Hpl & Hplh).
  { destruct (split_block (array tmp') (length (body flag iv mm))) as (r1 & r2 & E2 & Hr1); [lia|]. rewrite E2 in *. rewrite length_app in Htl.
    change (mwrite (r1 ++ r2) 0 ?v) with (mwrite ([] ++ r1 ++ r2) 0 v). rewrite (mwrite_app [] r1) by done. cbn [mbind option_bind app].
    eexists. split; [done|]. split_and!; cbn [len array]; [lia|by exists r2|rewrite length_app; destruct flag; lia]. }
  replace (if SALSA20 <=? enc_method then _ else _) with (Some (1, pl)).
  2: { rewrite <- Hpl. destruct (SALSA20 <=? enc_method); rewrite Hst; cbn [mbind option_bind]; [done|].
       destruct (mwrite (array tmp') 0 (body flag iv mm)) as [a|]; cbn [mbind option_bind] in *; [|done].
       do 3 f_equal. lia. }
  cbn [mbind option_bind]. pose proof Hplh as (Hpll & [r2 Hr2] & Hpls).
  assert (array pl @! 0 = Some x) as ->.
  { rewrite Hr2. unfold body. by destruct flag. }
  cbn [mbind option_bind]. change (hd 0 mm) with x in flag. fold flag.
  assert ((if flag then
       if ONETIMEAUTH_BYTES <? len pl then
         v ← ss_onetimeauth_verify hmac enc_iv_len enc_key ivb pl;
         Some (if v =? 0 then (1, mkBuf (array pl) (len pl - ONETIMEAUTH_BYTES)) else (0, pl))
       else Some (0, pl)
     else Some (1, pl)) = Some (1, mkBuf (array pl) (Z.of_nat (length mm)))) as ->.
  { rewrite Hpll, Hbl. unfold ONETIMEAUTH_BYTES. unfold body in Hplh. destruct flag.
    - rewrite (proj2 (Z.ltb_lt _ _)) by lia. assert (IvFits enc_iv_len ivb) by (split; lia).
      rewrite (header_mac_vector iv ivb) in Hplh by (rewrite Hivq at 1; symmetry; rewrite <- Hivq; apply take_ge; lia).
      rewrite (onetimeauth_verify_holds hmac enc_iv_len enc_key ivb pl mm _ Hplh) by (by apply length_header_mac).
      rewrite bool_decide_eq_true_2 by done. cbn [mbind option_bind]. do 3 f_equal. lia.
    - do 2 f_equal. destruct pl as [a l]. cbn [array len] in *. f_equal. lia. }
  cbn [mbind option_bind len array]. change (1 =? 0) with false. cbn match.
  assert (mm `prefix_of` array pl) as Hmp.
  { rewrite Hr2. unfold body. destruct flag; [rewrite <- app_assoc|]; by eexists. }
  destruct (copy_back_spec cipher (array pl) mm cap Hmp Hpls) as (b & -> & Hb & _); [done|lia|]. cbn [mbind option_bind]. eauto.
Qed.

(** A datagram survives: encrypted with a vector of its own, with or without
    one-time authentication, it is decrypted to the same data by every receiver
    with the same key that asks for a MAC exactly when the sender adds one. *)
Theorem datagram_roundtrip tbl tbl2 tmp plain e iv ivs m auth cap :
  globals_ok -> length iv = 16%nat -> m <> [] -> is_bytes m ->
  holds plain m -> Z.of_nat (length (array tmp)) < 2 ^ 29 ->
  enc_iv_len + Z.of_nat (length m) + 10 <= cap < 2 ^ 28 ->
  exists b wire,
    ss_encrypt_all tbl tmp plain enc_method (auth || negb (Z.land (hd 0 m) ONETIMEAUTH_FLAG =? 0)) e iv ivs cap = Some (0, Some b) /\
    holds b wire /\ (is_bytes iv -> is_bytes wire) /\ Z.of_nat (length wire) <= enc_iv_len + Z.of_nat (length m) + 10 /\
    forall tmp2 b2 d ivr cap2, holds b2 wire -> Z.of_nat (length (array tmp2)) < 2 ^ 29 -> length ivr = 16%nat -> 0 <= cap2 < 2 ^ 28 ->
      exists b3, ss_decrypt_all tbl2 tmp2 b2 enc_method auth d ivr cap2 = Some (0, Some b3) /\ holds b3 m.
Proof using RL SL EL HL.
  intros Hg Hl Hne Hby Hp Ht Hcap. set (flag := auth || _). pose proof Hg as (_ & Hiv & _).
  set (ivb := take (Z.to_nat enc_iv_len) iv).
  assert (Z.of_nat (length ivb) = enc_iv_len) as Hivb by (unfold ivb; rewrite length_take; lia).
  assert (length (body flag iv m) <= length m + 10)%nat by (unfold body; destruct flag; [rewrite length_app, length_header_mac by apply _|]; lia).
  assert (is_bytes (body flag iv m)) as Hbb.
  { unfold body. destruct flag; [|done]. apply Forall_app. split; [done|]. apply Forall_take, hmac_bytes. }
  assert (forall d ivr, length ivr = 16%nat -> exists es er ivr' c s' r', (forall ivs, set_iv e ivs ivb true = Some (es, ivs)) /\
    set_iv d ivr ivb false = Some (er, ivr') /\ crypt (mkCtx true 0 es iv) (body flag iv m) = Some (c, s') /\
    crypt (mkCtx true 0 er ivb) c = Some (body flag iv m, r') /\ length c = length (body flag iv m) /\ is_bytes c) as Hboth.
  { intros d ivr Hlr. destruct (set_iv_both e d ivb ivr Hg Hivb Hlr) as (es & er & ivr' & Hes & Her & _ & _ & Hsync).
    assert (paired (mkCtx true 0 es iv) (mkCtx true 0 er ivb)) as Hpair.
    { split_and!; cbn; try done. fold ivb. symmetry. apply take_ge. lia. }
    destruct (crypt_paired _ _ _ Hpair Hbb) as (c & s' & r' & Hcs & Hcr & _ & Hcl & Hcb & _). by exists es, er, ivr', c, s', r'. }
  destruct (Hboth e (replicate 16 0) eq_refl) as (es & _ & _ & c & s' & _ & Hes & _ & Hcs & _ & Hcl & Hcb).
  destruct (encrypt_all_spec tbl tmp plain flag e iv ivs m cap es c s' Hg Hl Hp ltac:(lia) Ht ltac:(lia) (Hes ivs) Hcs) as (b & Hb & Hh).
  exists b, (ivb ++ c). split_and!; [done|done|intros Hivy; apply Forall_app; split; [by apply Forall_take|done]|rewrite length_app; lia|].
  intros tmp2 b2 d ivr cap2 Hb2 Ht2 Hlr Hcap2. destruct (Hboth d ivr Hlr) as (es2 & er & ivr' & c2 & s2 & r2 & Hes2 & Her & Hcs2 & Hcr & _).
  specialize (Hes2 []). rewrite Hes in Hes2. injection Hes2 as <-. rewrite Hcs in Hcs2. injection Hcs2 as <- <-.
  apply (decrypt_all_spec tbl2 tmp2 b2 auth d ivr ivr' ivb m cap2 er c r2 iv); try done; lia.
Qed.

(** A datagram that fills the buffer overflows it when it is authenticated: the
    output buffer is made before the MAC is added, so within ten bytes of the
    capacity the cipher writes behind its end. *)
Theorem datagram_auth_overflow tbl plain e iv ivs m cap :
  globals_ok -> SALSA20 <= enc_method -> length iv = 16%nat -> length ivs = 16%nat -> holds plain m ->
  Z.of_nat (length m) < 2 ^ 28 -> 0 <= cap < 2 ^ 28 -> cap < enc_iv_len + Z.of_nat (length m) + 10 ->
  ss_encrypt_all tbl (mkBuf [] 0) plain enc_method true e iv ivs cap = None.
Proof using RL SL EL HL.
  intros Hg Hs Hl Hls Hp Hm Hcap Hover. pose proof Hg as (Hm0 & Hiv & _). set (ivb := take (Z.to_nat enc_iv_len) iv).
  assert (Z.of_nat (length ivb) = enc_iv_len) as Hivb by (unfold ivb; rewrite length_take; lia).
  unfold ss_encrypt_all. rewrite (proj2 (Z.ltb_lt _ _) Hm0).
  pose proof (brealloc_length realloc (mkBuf [] 0) (enc_iv_len + len plain) cap) as Htl. set (tmp' := brealloc realloc _ _ cap) in *.
  assert (len plain = Z.of_nat (length m)) as Hpl by apply Hp. cbn [array length] in Htl.
  rewrite mread_in by lia. cbn [mbind option_bind]. rewrite drop_0. fold ivb.
  destruct (set_iv_both e e ivb ivs Hg Hivb Hls) as (es & er & ivr' & Hes & _). rewrite Hes. cbn [mbind option_bind].
  destruct (mwrite (array tmp') 0 ivb) as [a|] eqn:Ea; [|done]. cbn [mbind option_bind]. apply mwrite_length in Ea.
  assert (IvFits enc_iv_len iv) by (split; lia).
  destruct (onetimeauth_holds realloc hmac enc_iv_len enc_key iv plain m cap Hp ltac:(lia) ltac:(lia)) as (b & -> & Hb).
  cbn [mbind option_bind]. rewrite (holds_mread _ _ Hb). cbn [mbind option_bind]. rewrite (proj2 (Z.leb_le _ _) Hs).
  set (msg := m ++ _) in *. assert (length msg = length m + 10)%nat as Hml by (unfold msg; rewrite length_app, length_header_mac by apply _; lia).
  unfold crypto_stream_xor_ic. rewrite mread_in by lia. cbn [mbind option_bind].
  replace (if enc_method =? CHACHA20IETF then u32 0 else 0) with 0 by (by case_match).
  rewrite (stream_xor stream_xor_ic enc_method enc_key) by done.
  unfold mwrite. rewrite xor_ks_length. case_bool; [|done]. lia.
Qed.

End Transport.

(** ** The table *)

Lemma merge_perm salt key l : forall r, merge salt key l r ≡ₚ l ++ r.
Proof.
  induction l as [|x l IHl]; intros r; [by destruct r|].
  induction r as [|y r IHr]; cbn [merge]; [by rewrite app_nil_r|]. case_bool.
  - cbn [app]. by rewrite IHl.
  - cbn [merge] in IHr. rewrite IHr. cbn [app]. solve_Permutation.
Qed.

Lemma merge_sort_perm fuel salt key l : merge_sort fuel salt key l ≡ₚ l.
Proof.
  revert l. induction fuel as [|fuel IH]; intros l; cbn [merge_sort]; [done|]. case_bool; [done|].
  rewrite merge_perm, !IH. by rewrite take_drop.
Qed.

Lemma sort_table_perm key : sort_table key ≡ₚ seqZ 0 256.
Proof.
  unfold sort_table. generalize (seqZ 1 1023) as salts. generalize (seqZ 0 256) as t. intros t salts. revert t.
  induction salts as [|i salts IH]; intros t; cbn [foldl]; [done|]. by rewrite IH, merge_sort_perm.
Qed.

Lemma invert_spec enc : forall i dec,
  NoDup enc -> Forall (fun e => 0 <= e < Z.of_nat (length dec)) enc ->
  exists dec', invert i enc dec = Some dec' /\ length dec' = length dec /\
    (forall j e, enc !! j = Some e -> rd dec' e = Some (i + Z.of_nat j)) /\
    (forall v, 0 <= v -> v ∉ enc -> rd dec' v = rd dec v).
Proof.
  induction enc as [|e enc IH]; intros i dec Hnd Hr; cbn [invert].
  - exists dec. split_and!; [done|done|done|done].
  - apply NoDup_cons in Hnd as [Hne Hnd]. apply Forall_cons in Hr as [He Hr]. rewrite wr_Some by done. cbn [mbind option_bind].
    destruct (IH (i + 1) (<[Z.to_nat e := i]> dec) Hnd) as (dec' & -> & Hl & Hin & Hout); [by rewrite length_insert|].
    rewrite length_insert in Hl. exists dec'. split_and!; [done|done| |].
    + intros [|j] v Hv; cbn in Hv.
      * simplify_eq. rewrite Hout by (done || lia). rewrite (wr_rd dec v i) by (rewrite ?wr_Some; done || lia).
        rewrite Z.eqb_refl. f_equal. lia.
      * rewrite (Hin j v Hv). f_equal. lia.
    + intros v Hv0 Hv. apply not_elem_of_cons in Hv as [Hve Hv]. rewrite Hout by done.
      rewrite (wr_rd dec e i) by (rewrite ?wr_Some; done). case_bool; [done|done].
Qed.

Lemma substitute_spec table b data out :
  holds b data -> mapM (fun x => table @! u8 x) data = Some out -> exists b', substitute table b = Some b' /\ holds b' out.
Proof.
  intros Hb Ho. pose proof (Forall2_length _ _ _ (mapM_Some_1 _ _ _ Ho)) as Hlen. unfold substitute. rewrite (holds_mread _ _ Hb). cbn [mbind option_bind].
  rewrite Ho. cbn [mbind option_bind]. destruct Hb as (Hl & [r Hr] & Hs). rewrite Hr in *.
  change (mwrite (data ++ r) 0 out) with (mwrite ([] ++ data ++ r) 0 out). rewrite (mwrite_app [] data) by done. cbn [mbind option_bind app].
  eexists. split; [done|]. rewrite length_app in *. split_and!; cbn [len array]; [lia|by eexists|rewrite length_app; lia].
Qed.

(** A permutation of the bytes and its inverse. *)
Lemma permutation_inverse enc fresh :
  enc ≡ₚ seqZ 0 256 -> length fresh = 256%nat ->
  exists dec, invert 0 enc fresh = Some dec /\ forall m, is_bytes m ->
    exists out, mapM (fun x => enc @! u8 x) m = Some out /\ mapM (fun x => dec @! u8 x) out = Some m.
Proof.
  intros Hp Hf. assert (Z.of_nat (length enc) = 256) as Hle by (rewrite Hp, length_seqZ; lia).
  assert (Forall (fun e => 0 <= e < 256) enc) as Hr by (rewrite Hp; apply Forall_seqZ; intros; lia).
  destruct (invert_spec enc 0 fresh) as (dec & Hd & _ & Hin & _); [rewrite Hp; apply NoDup_seqZ|by rewrite Hf|].
  exists dec. split; [done|]. induction 1 as [|x m Hx _ (out & Ho & Hi)]; [by exists []|].
  assert (exists e, enc !! Z.to_nat x = Some e) as [e He] by (apply lookup_lt_is_Some; lia).
  assert (rd enc x = Some e) as Hrd by (apply rd_Some; split; [lia|done]).
  assert (0 <= e < 256) as Her by (rewrite Forall_lookup in Hr; by eapply Hr).
  exists (e :: out). cbn [mapM]. rewrite (u8_id x), (u8_id e), Hrd by done. cbn [mbind option_bind]. rewrite Ho. cbn [mbind option_bind].
  rewrite (Hin _ _ He). cbn [mbind option_bind]. rewrite Hi. cbn [mbind option_bind]. split; [done|]. do 2 f_equal. lia.
Qed.

Lemma enc_table_init_spec md5 fresh pass digest :
  mread (md5 pass) 0 8 = Some digest ->
  enc_table_init md5 fresh pass = make_tables fresh (sort_table (rol_sum 0 digest)).
Proof. unfold enc_table_init. by intros ->. Qed.

Lemma make_tables_spec fresh enc dec : invert 0 enc fresh = Some dec -> make_tables fresh enc = Some (enc, dec).
Proof. unfold make_tables. by intros ->. Qed.

(** The table of a password is a permutation of the bytes and the other table its
    inverse, so what the table method encrypts it decrypts to the same data,
    whatever the password. *)
Theorem table_roundtrip md5 fresh pass b m :
  (8 <= length (md5 pass))%nat -> length fresh = 256%nat -> holds b m -> is_bytes m ->
  exists enc_table dec_table b1 b2,
    enc_table_init md5 fresh pass = Some (enc_table, dec_table) /\ enc_table ≡ₚ seqZ 0 256 /\
    substitute enc_table b = Some b1 /\ substitute dec_table b1 = Some b2 /\ holds b2 m.
Proof.
  intros Hmd Hf Hb Hm. destruct (mread (md5 pass) 0 8) as [digest|] eqn:Ed; [|by rewrite mread_in in Ed by lia].
  pose proof (sort_table_perm (rol_sum 0 digest)) as Hp.
  pose proof (enc_table_init_spec md5 fresh pass digest Ed) as Hinit.
  revert Hp Hinit. generalize (sort_table (rol_sum 0 digest)) as enc. intros enc Hp Hinit.
  destruct (permutation_inverse enc fresh Hp Hf) as (dec & Hd & Hinv). rewrite (make_tables_spec _ _ _ Hd) in Hinit.
  destruct (Hinv m Hm) as (out & Ho & Hi).
  destruct (substitute_spec enc b m out Hb Ho) as (b1 & Hs1 & Hb1).
  destruct (substitute_spec dec b1 out m Hb1 Hi) as (b2 & Hs2 & Hb2). exists enc, dec, b1, b2. split_and!; auto.
Qed.

(** ** An instance *)

Definition stream_example (p : Z) : Z := u8 (p + 1).
Definition sodium_example (method : Z) (m n : list Z) (ic : Z) (key : list Z) : list Z := xor_ks stream_example (64 * ic) m.
Definition init_example (e : Z) (key iv : list Z) (enc : bool) : Z := 0.
Definition update_example (e : Z) (m : list Z) : option (list Z * Z) :=
  Some (xor_ks stream_example e m, e + Z.of_nat (length m)).
Definition key_example : list Z := replicate 32 9.
Definition iv_example : list Z := [1; 2; 3; 4; 5; 6; 7; 8; 0; 0; 0; 0; 0; 0; 0; 0].

#[export] Instance sodium_example_laws method : SodiumLaws sodium_example method key_example.
Proof. exists (fun _ => stream_example); [intros; apply u8_range|done]. Qed.
#[export] Instance evp_example_laws : EvpLaws init_example update_example.
Proof.
  exists eq.
  - done.
  - intros e d m -> Hm. unfold update_example. eexists _, _, _. split; [done|]. rewrite xor_ks_length, xor_ks_involutive.
    split_and!; [done|done|done|]. apply xor_ks_bytes; [intros; apply u8_range|done].
  - intros d a b. unfold update_example. cbn [mbind option_bind].
    by rewrite xor_ks_app, length_app, Nat2Z.inj_add, Z.add_assoc.
  - intros d m x d' [= <- _]. by rewrite xor_ks_length.
Qed.

Definition sender_example : enc_ctx_t Z := mkCtx false 0 0 iv_example.
Definition receiver_example : enc_ctx_t Z := mkCtx false 0 0 (replicate 16 0).
Definition packets_example : list (buffer_t * buffer_t) := [(mkBuf [] 0, mkBuf [65; 66] 2); (mkBuf [] 0, mkBuf [67] 1)].
Definition wire_example : list Z := [1; 2; 3; 4; 5; 6; 7; 8; 64; 64; 64].
Definition segments_example : list (buffer_t * buffer_t) :=
  [(mkBuf [] 0, mkBuf (take 9 wire_example) 9); (mkBuf [] 0, mkBuf (drop 9 wire_example) 2)].

Lemma globals_example : globals_ok SALSA20 8 key_example.
Proof. split; [done|]. cbn. lia. Qed.

Lemma sendable_example tmp b p : len b = Z.of_nat (length p) -> array b = p -> (length p < 100)%nat -> tmp = mkBuf [] 0 -> sendable (tmp, b) p.
Proof.
  intros Hl Ha Hp ->. split_and!; cbn [fst snd array length]; [|lia|lia].
  split_and!; [done|by rewrite Ha|rewrite Ha; lia].
Qed.

Lemma connection_transparent_witness :
  recv_stream realloc_example (fun l => l) init_example update_example sodium_example SALSA20 8 key_example
    (H := Cache.first_find unit) segments_example (Some (Cache.mkCache 256 [])) 5 (Some receiver_example) 64
  = Some (Some [65; 66; 67], Some (Cache.mkCache 256 [Cache.mkEntry [1; 2; 3; 4; 5; 6; 7; 8] None 5])).
Proof.
  refine (connection_transparent realloc_example (fun l => l) init_example update_example sodium_example SALSA20 8 key_example
    (H := Cache.first_find unit) sender_example receiver_example packets_example [[65; 66]; [67]]
    segments_example [take 9 wire_example; drop 9 wire_example] wire_example (Some (Cache.mkCache 256 [])) 5 64
    globals_example _ _ _ _ _ _ _ _ _ _ _).
  - done.
  - done.
  - done.
  - repeat constructor; apply sendable_example; cbn; done || lia.
  - repeat constructor; lia.
  - done.
  - lia.
  - vm_compute; reflexivity.
  - repeat constructor; apply sendable_example; cbn; done || lia.
  - reflexivity.
  - cbn. lia.
Defined.

Lemma datagram_roundtrip_witness :
  exists b wire,
    ss_encrypt_all realloc_example (fun l => l) init_example update_example sodium_example SALSA20 8 key_example hmac_example
      [] (mkBuf [] 0) (mkBuf [17; 66] 2) SALSA20 true 0 iv_example iv_example 64 = Some (0, Some b) /\ holds b wire.
Proof.
  destruct (datagram_roundtrip realloc_example (fun l => l) init_example update_example sodium_example SALSA20 8 key_example hmac_example
    [] [] (mkBuf [] 0) (mkBuf [17; 66] 2) 0 iv_example iv_example [17; 66] false 64 globals_example)
    as (b & wire & Hb & Hw & _); try done; try (cbn; lia).
  - repeat constructor; lia.
  - exists b, wire. split; [exact Hb|exact Hw].
Defined.

Lemma datagram_auth_overflow_witness :
  ss_encrypt_all realloc_example (fun l => l) init_example update_example sodium_example SALSA20 8 key_example hmac_example
    [] (mkBuf [] 0) (mkBuf [65; 66] 2) SALSA20 true 0 iv_example iv_example 16 = None.
Proof.
  apply (datagram_auth_overflow realloc_example (fun l => l) init_example update_example sodium_example SALSA20 8 key_example hmac_example
    [] (mkBuf [65; 66] 2) 0 iv_example iv_example [65; 66] 16 globals_example); done || (cbn; lia).
Defined.

Lemma table_roundtrip_witness :
  exists enc_table dec_table b1 b2,
    enc_table_init (fun l => l ++ replicate 16 3) (replicate 256 0) [112; 119] = Some (enc_table, dec_table) /\
    substitute enc_table (mkBuf [65; 66] 2) = Some b1 /\ substitute dec_table b1 = Some b2 /\ holds b2 [65; 66].
Proof.
  destruct (table_roundtrip (fun l => l ++ replicate 16 3) (replicate 256 0) [112; 119] (mkBuf [65; 66] 2) [65; 66])
    as (enc & dec & b1 & b2 & H1 & _ & H2 & H3 & H4).
  - cbn. lia.
  - done.
  - done.
  - repeat constructor; lia.
  - exists enc, dec, b1, b2. split; [exact H1|]. split; [exact H2|]. split; [exact H3|exact H4].
Defined.

End Crypt.
