(* ===== verification/Acl.v ===== *)
(** * Acl: the access control list of shadowsocksr-libev

    Models src/server/rule.c and the lists of src/server/acl.c: the file is read by
    pieces of at most 255 bytes, section lines choose the list that the next lines
    go to, a line is an address, a network or a pattern, and the two lookups decide
    about a host.  (The block list of acl.c is in Cache.v.)

    libcork's parser of addresses, libipset's sets and PCRE are parameters:
    [cork_ip_init], the class [IpSet] with [IpSetLaws], [Pcre] with [PcreLaws]. *)

From S2P Require Import Prelude Libc.

Import Libc.

Module Acl.

(** [struct cork_ip]: the version and the address. *)
Inductive cork_ip := IPv4 (a : Z) | IPv6 (a : Z).
#[export] Instance cork_ip_eq : EqDecision cork_ip.
Proof. solve_decision. Defined.

(** Sets of libipset, of one family each; the same operations exist for both. *)
Class IpSet (S : Type) := {
  ipset_init : S;
  ipset_add : S -> cork_ip -> S;
  ipset_add_network : S -> cork_ip -> Z -> S;
  ipset_remove : S -> cork_ip -> S;
  ipset_contains : S -> cork_ip -> bool }.

(** [in_network a n b]: [b] is one of the addresses that adding the network [a/n]
    adds. *)
Class IpSetLaws (S : Type) `{IpSet S} (in_network : cork_ip -> Z -> cork_ip -> bool) := {
  contains_init b : ipset_contains ipset_init b = false;
  contains_add s a b : ipset_contains (ipset_add s a) b = bool_decide (a = b) || ipset_contains s b;
  contains_add_network s a n b :
    ipset_contains (ipset_add_network s a n) b = in_network a n b || ipset_contains s b;
  contains_remove s a b :
    ipset_contains (ipset_remove s a) b = negb (bool_decide (a = b)) && ipset_contains s b }.

(** A pattern that does not compile is the null pointer; matching it is an error,
    a negative number. *)
Class Pcre (R : Type) := {
  pcre_compile : list Z -> option R;
  pcre_exec : option R -> list Z -> Z }.
Class PcreLaws (R : Type) `{Pcre R} := {
  pcre_exec_null name : pcre_exec None name < 0 }.

Definition BLACK_LIST : Z := 0.
Definition WHITE_LIST : Z := 1.

Section Acl.
Context {S R : Type} `{IpSet S} `{Pcre R} (cork_ip_init : list Z -> option cork_ip).

(** ** Rules *)

Record rule_t := mkRule { pattern : option (list Z); pattern_re : option R }.

Definition new_rule : rule_t := mkRule None None.

Definition accept_rule_arg (rule : rule_t) (arg : list Z) : Z * rule_t :=
  match pattern rule with
  | None => (1, mkRule (Some arg) (pattern_re rule))
  | Some _ => (-1, rule)
  end.

Definition add_rule (rules : list rule_t) (rule : rule_t) : list rule_t := rules ++ [rule].

(** [None]: a rule without a pattern. *)
Definition init_rule (rule : rule_t) : option (Z * rule_t) :=
  match pattern_re rule with
  | None =>
      p ← pattern rule;
      let re := pcre_compile p in
      Some (match re with None => 0 | Some _ => 1 end, mkRule (Some p) re)
  | Some _ => Some (1, rule)
  end.

Fixpoint lookup_rule (rules : list rule_t) (name : list Z) : option rule_t :=
  match rules with
  | [] => None
  | rule :: rules => if 0 <=? pcre_exec (pattern_re rule) name then Some rule else lookup_rule rules name
  end.

(** [free_rules]: each rule is taken from the head; what is left. *)
Fixpoint free_rules (fuel : nat) (rules : list rule_t) : list rule_t :=
  match fuel with
  | O => rules
  | Datatypes.S fuel => match rules with [] => [] | _ :: rules => free_rules fuel rules end
  end.

(** ** The lists *)

Record lists := mkLists { ipv4 : S; ipv6 : S; rules : list rule_t }.
Definition no_lists : lists := mkLists ipset_init ipset_init [].

(** Which lists [list_ipv4], [list_ipv6] and [rules] point to. *)
Inductive section := Black | White | Outbound.
#[export] Instance section_eq : EqDecision section.
Proof. solve_decision. Defined.

Record acl := mkAcl { black_list : lists; white_list : lists; outbound_block_list : lists; acl_mode : Z }.

Definition get_lists (s : section) (a : acl) : lists :=
  match s with Black => black_list a | White => white_list a | Outbound => outbound_block_list a end.
Definition set_lists (s : section) (l : lists) (a : acl) : acl :=
  match s with
  | Black => mkAcl l (white_list a) (outbound_block_list a) (acl_mode a)
  | White => mkAcl (black_list a) l (outbound_block_list a) (acl_mode a)
  | Outbound => mkAcl (black_list a) (white_list a) l (acl_mode a)
  end.
Definition set_mode (m : Z) (a : acl) : acl := mkAcl (black_list a) (white_list a) (outbound_block_list a) m.

(** ** Lines *)

(** The last slash: [ret] is where the last one was. *)
Fixpoint last_slash (ret i : Z) (str : list Z) : Z :=
  match str with
  | [] => ret
  | c :: str => last_slash (if c =? chr "/" then i else ret) (i + 1) str
  end.

(** The text in [host] and the number behind the slash. *)
Definition parse_addr_cidr (str : list Z) : list Z * Z :=
  let ret := last_slash (-1) 0 str in
  if ret =? -1 then (str, -1) else (take (Z.to_nat ret) str, atoi (drop (Z.to_nat (ret + 1)) str)).

(** Blanks in front, then those at the end. *)
Definition trimwhitespace (str : list Z) : list Z :=
  let str := skip_space str in reverse (skip_space (reverse str)).

(** The text in [buf] after [fgets], without its line feed. *)
Definition chomp (buf : list Z) : list Z :=
  match last buf with
  | Some c => if c =? 10 then take (length buf - 1) buf else buf
  | None => buf
  end.

Definition section_line (line : list Z) : option section :=
  if bool_decide (line = bytes_of "[outbound_block_list]") then Some Outbound
  else if bool_decide (line = bytes_of "[black_list]") || bool_decide (line = bytes_of "[bypass_list]") then Some Black
  else if bool_decide (line = bytes_of "[white_list]") || bool_decide (line = bytes_of "[proxy_list]") then Some White
  else None.

Definition mode_line (line : list Z) : option Z :=
  if bool_decide (line = bytes_of "[reject_all]") || bool_decide (line = bytes_of "[bypass_all]") then Some WHITE_LIST
  else if bool_decide (line = bytes_of "[accept_all]") || bool_decide (line = bytes_of "[proxy_all]") then Some BLACK_LIST
  else None.

(** What a line that names hosts adds to the current lists. *)
Definition add_line (line : list Z) (l : lists) : option lists :=
  let '(host, cidr) := parse_addr_cidr line in
  match cork_ip_init host with
  | Some (IPv4 a) =>
      Some (mkLists (if 0 <=? cidr then ipset_add_network (ipv4 l) (IPv4 a) cidr else ipset_add (ipv4 l) (IPv4 a))
                    (ipv6 l) (rules l))
  | Some (IPv6 a) =>
      Some (mkLists (ipv4 l)
                    (if 0 <=? cidr then ipset_add_network (ipv6 l) (IPv6 a) cidr else ipset_add (ipv6 l) (IPv6 a))
                    (rules l))
  | None =>
      let '(_, rule) := accept_rule_arg new_rule line in
      '(_, rule) ← init_rule rule;
      Some (mkLists (ipv4 l) (ipv6 l) (add_rule (rules l) rule))
  end.

(** One turn of the loop: the text [fgets] stored ends at its first NUL. *)
Definition read_line (buf : list Z) (st : section * acl) : option (section * acl) :=
  let '(cur, a) := st in
  buf ← cstr (buf ++ [0]);
  let line := trimwhitespace (chomp buf) in
  match line with
  | [] => Some st
  | c :: _ =>
      if c =? chr "#" then Some st else
      match section_line line with
      | Some cur => Some (cur, a)
      | None =>
          match mode_line line with
          | Some m => Some (cur, set_mode m a)
          | None => l ← add_line line (get_lists cur a); Some (cur, set_lists cur l a)
          end
      end
  end.

Fixpoint read_lines (bufs : list (list Z)) (st : section * acl) : option (section * acl) :=
  match bufs with [] => Some st | buf :: bufs => st ← read_line buf st; read_lines bufs st end.

(** [file]: the content of the file, if it opens.  The mode is what it was. *)
Definition init_acl (file : option (list Z)) (mode : Z) : option (Z * acl) :=
  let empty := mkAcl no_lists no_lists no_lists mode in
  match file with
  | None => Some (-1, empty)
  | Some content => '(_, a) ← read_lines (fgets_all 256 content) (Black, empty); Some (0, a)
  end.

(** The lists of the outbound block are not released. *)
Definition free_acl (a : acl) : acl :=
  let freed l := mkLists ipset_init ipset_init (free_rules (length (rules l)) (rules l)) in
  mkAcl (freed (black_list a)) (freed (white_list a)) (outbound_block_list a) (acl_mode a).

(** ** Lookups *)

Definition is_some {A} (o : option A) : bool := match o with Some _ => true | None => false end.

Definition acl_match_host (a : acl) (host : list Z) : Z :=
  match cork_ip_init host with
  | None =>
      if is_some (lookup_rule (rules (black_list a)) host) then 1
      else if is_some (lookup_rule (rules (white_list a)) host) then -1 else 0
  | Some (IPv4 x) =>
      if ipset_contains (ipv4 (black_list a)) (IPv4 x) then 1
      else if ipset_contains (ipv4 (white_list a)) (IPv4 x) then -1 else 0
  | Some (IPv6 x) =>
      if ipset_contains (ipv6 (black_list a)) (IPv6 x) then 1
      else if ipset_contains (ipv6 (white_list a)) (IPv6 x) then -1 else 0
  end.

Definition acl_add_ip (a : acl) (ip : list Z) : Z * acl :=
  match cork_ip_init ip with
  | None => (-1, a)
  | Some (IPv4 x) =>
      (0, set_lists Black (mkLists (ipset_add (ipv4 (black_list a)) (IPv4 x)) (ipv6 (black_list a)) (rules (black_list a))) a)
  | Some (IPv6 x) =>
      (0, set_lists Black (mkLists (ipv4 (black_list a)) (ipset_add (ipv6 (black_list a)) (IPv6 x)) (rules (black_list a))) a)
  end.

Definition acl_remove_ip (a : acl) (ip : list Z) : Z * acl :=
  match cork_ip_init ip with
  | None => (-1, a)
  | Some (IPv4 x) =>
      (0, set_lists Black (mkLists (ipset_remove (ipv4 (black_list a)) (IPv4 x)) (ipv6 (black_list a)) (rules (black_list a))) a)
  | Some (IPv6 x) =>
      (0, set_lists Black (mkLists (ipv4 (black_list a)) (ipset_remove (ipv6 (black_list a)) (IPv6 x)) (rules (black_list a))) a)
  end.

Definition outbound_block_match_host (a : acl) (host : list Z) : Z :=
  let l := outbound_block_list a in
  match cork_ip_init host with
  | None => if is_some (lookup_rule (rules l) host) then 1 else 0
  | Some (IPv4 x) => if ipset_contains (ipv4 l) (IPv4 x) then 1 else 0
  | Some (IPv6 x) => if ipset_contains (ipv6 l) (IPv6 x) then 1 else 0
  end.

(** ** What a file says

    The declarative reading: each line that names hosts is an entry of the section
    it stands in. *)
Inductive entry := Addr (a : cork_ip) | Network (a : cork_ip) (n : Z) | Pattern (p : list Z).

Definition entry_of (line : list Z) : entry :=
  let '(host, cidr) := parse_addr_cidr line in
  match cork_ip_init host with
  | Some a => if 0 <=? cidr then Network a cidr else Addr a
  | None => Pattern line
  end.

Definition same_family (a b : cork_ip) : bool :=
  match a, b with IPv4 _, IPv4 _ | IPv6 _, IPv6 _ => true | _, _ => false end.

Definition comment_or_blank (line : list Z) : bool :=
  match line with [] => true | c :: _ => c =? chr "#" end.

Fixpoint listed (cur : section) (ls : list (list Z)) : list (section * entry) :=
  match ls with
  | [] => []
  | l :: ls =>
      let line := trimwhitespace l in
      if comment_or_blank line then listed cur ls else
      match section_line line, mode_line line with
      | Some cur, _ => listed cur ls
      | None, Some _ => listed cur ls
      | None, None => (cur, entry_of line) :: listed cur ls
      end
  end.

(** The last mode line. *)
Fixpoint chosen_mode (mode : Z) (ls : list (list Z)) : Z :=
  match ls with
  | [] => mode
  | l :: ls => chosen_mode (default mode (mode_line (trimwhitespace l))) ls
  end.

Context (in_network : cork_ip -> Z -> cork_ip -> bool).

Definition covers (host : list Z) (e : entry) : bool :=
  match cork_ip_init host, e with
  | Some b, Addr a => bool_decide (a = b)
  | Some b, Network a n => same_family a b && in_network a n b
  | None, Pattern p => match pcre_compile p with Some re => 0 <=? pcre_exec (Some re) host | None => false end
  | _, _ => false
  end.

(** Whether a section has an entry for the host. *)
Definition named (s : section) (host : list Z) (es : list (section * entry)) : bool :=
  existsb (fun '(t, e) => bool_decide (t = s) && covers host e) es.

Context {IL : IpSetLaws S in_network} {PL : PcreLaws R}.

(** ** Lemmas *)

(** Both lookups ask this of a section. *)
Definition match_lists (l : lists) (host : list Z) : bool :=
  match cork_ip_init host with
  | None => is_some (lookup_rule (rules l) host)
  | Some (IPv4 x) => ipset_contains (ipv4 l) (IPv4 x)
  | Some (IPv6 x) => ipset_contains (ipv6 l) (IPv6 x)
  end.

Lemma acl_match_host_eq a host :
  acl_match_host a host =
  if match_lists (black_list a) host then 1 else if match_lists (white_list a) host then -1 else 0.
Proof. unfold acl_match_host, match_lists. by destruct (cork_ip_init host) as [[]|]. Qed.

Lemma outbound_match_eq a host :
  outbound_block_match_host a host = if match_lists (outbound_block_list a) host then 1 else 0.
Proof. unfold outbound_block_match_host, match_lists. by destruct (cork_ip_init host) as [[]|]. Qed.

Lemma lookup_rule_app rs rs' host :
  is_some (lookup_rule (rs ++ rs') host) = is_some (lookup_rule rs host) || is_some (lookup_rule rs' host).
Proof. induction rs as [|r rs IH]; cbn; [done|]. by destruct (0 <=? _). Qed.

(** Adding a line adds its entry, and succeeds. *)
Lemma add_line_spec line l :
  exists l', add_line line l = Some l' /\ forall host, match_lists l' host = match_lists l host || covers host (entry_of line).
Proof.
  unfold add_line, entry_of. destruct (parse_addr_cidr line) as [h n].
  destruct (cork_ip_init h) as [[x|x]|] eqn:Eh; cbn; (eexists; split; [reflexivity|]); intros host;
    unfold match_lists, covers; cbn; destruct (cork_ip_init host) as [[y|y]|] eqn:Ey; cbn;
    try by destruct (0 <=? n); cbn; rewrite ?orb_false_r.
  1-2: destruct (0 <=? n); rewrite ?contains_add, ?contains_add_network; cbn; apply orb_comm.
  unfold add_rule. rewrite lookup_rule_app. cbn. destruct (pcre_compile line) eqn:Ec.
  - by destruct (0 <=? _).
  - pose proof (pcre_exec_null host). by destruct (0 <=? _) eqn:E; zify_bool; [lia|].
Qed.

Lemma get_set_lists s t l a : get_lists t (set_lists s l a) = if bool_decide (s = t) then l else get_lists t a.
Proof. by destruct s, t. Qed.
Lemma mode_set_lists s l a : acl_mode (set_lists s l a) = acl_mode a.
Proof. by destruct s. Qed.
Lemma get_set_mode s m a : get_lists s (set_mode m a) = get_lists s a.
Proof. by destruct s. Qed.

(** A line of a file: text that fits the buffer with its line feed. *)
Definition line_ok (l : list Z) : Prop :=
  Forall (fun c => c <> 0) l /\ Forall (fun c => c <> 10) l /\ (length l < 255)%nat.
#[export] Instance line_ok_dec l : Decision (line_ok l).
Proof. unfold line_ok. apply _. Defined.
Definition file_of (ls : list (list Z)) : list Z := concat (map (fun l => l ++ [10]) ls).

Lemma chomp_line l : chomp (l ++ [10]) = l.
Proof.
  unfold chomp. rewrite last_snoc, Z.eqb_refl, length_app. cbn [length].
  replace (length l + 1 - 1)%nat with (length l) by lia. apply take_app_length.
Qed.

Lemma read_line_text l st :
  line_ok l ->
  read_line (l ++ [10]) st =
  let '(cur, a) := st in
  let line := trimwhitespace l in
  if comment_or_blank line then Some st else
  match section_line line with
  | Some cur => Some (cur, a)
  | None =>
      match mode_line line with
      | Some m => Some (cur, set_mode m a)
      | None => l ← add_line line (get_lists cur a); Some (cur, set_lists cur l a)
      end
  end.
Proof.
  intros (Hnz & _ & _). destruct st as [cur a]. unfold read_line.
  rewrite (cstr_app (l ++ [10]) []) by (apply Forall_app; by repeat constructor). cbn [mbind option_bind].
  rewrite chomp_line. by destruct (trimwhitespace l) as [|c t]; cbn [comment_or_blank]; [|destruct (c =? chr "#")].
Qed.

Lemma fgets_file ls : Forall line_ok ls -> fgets_all 256 (file_of ls) = map (fun l => l ++ [10]) ls.
Proof.
  induction 1 as [|l ls (Hnz & Hnl & Hlen) _ IH]; [done|]. unfold file_of in *. cbn [map concat].
  rewrite fgets_line by (done || lia). by rewrite IH.
Qed.

Lemma section_no_mode line s : section_line line = Some s -> mode_line line = None.
Proof.
  unfold section_line. repeat case_bool_decide; try done; subst; intros; vm_compute; done.
Qed.
Lemma comment_no_mode line : comment_or_blank line = true -> mode_line line = None.
Proof.
  unfold mode_line. intros Hc. repeat case_bool_decide; subst; try done; vm_compute in Hc; done.
Qed.

(** The entries read so far and those to come. *)
Lemma read_lines_spec ls : forall cur a,
  Forall line_ok ls ->
  exists cur' a', read_lines (map (fun l => l ++ [10]) ls) (cur, a) = Some (cur', a') /\
    acl_mode a' = chosen_mode (acl_mode a) ls /\
    forall s host, match_lists (get_lists s a') host = match_lists (get_lists s a) host || named s host (listed cur ls).
Proof.
  induction ls as [|l ls IH]; intros cur a Hls.
  { exists cur, a. split_and!; [done|done|]. intros. cbn. by rewrite orb_false_r. }
  apply Forall_cons in Hls as [Hl Hls]. cbn [map read_lines]. rewrite read_line_text by done.
  cbn [listed chosen_mode]. cbv zeta. destruct (comment_or_blank _) eqn:Ec.
  { rewrite (comment_no_mode _ Ec). apply IH, Hls. }
  destruct (section_line _) as [cur1|] eqn:Es.
  { rewrite (section_no_mode _ _ Es). apply IH, Hls. }
  destruct (mode_line _) as [m|] eqn:Em; cbn [mbind option_bind default].
  { destruct (IH cur (set_mode m a) Hls) as (c' & a' & Hr & Hm & Hn). exists c', a'. split_and!; [done|done|].
    intros. by rewrite Hn, get_set_mode. }
  destruct (add_line_spec (trimwhitespace l) (get_lists cur a)) as (l1 & -> & Hc). cbn [mbind option_bind].
  destruct (IH cur (set_lists cur l1 a) Hls) as (c' & a' & Hr & Hm & Hn). exists c', a'. split_and!; [done| |].
  { by rewrite Hm, mode_set_lists. }
  intros s host. rewrite Hn, get_set_lists. cbn [named existsb].
  destruct (decide (cur = s)) as [->|Hne]; [rewrite !bool_decide_eq_true_2|rewrite !bool_decide_eq_false_2]; try done.
  by rewrite Hc, <- orb_assoc.
Qed.

Lemma no_lists_match host : match_lists no_lists host = false.
Proof. unfold match_lists. cbn. destruct (cork_ip_init host) as [[]|]; [apply contains_init..|done]. Qed.

(** C10: A file of lines that fit the buffer is read as its author means it: a host
    is on the black, the white or the outbound list exactly when a line of that
    section names it, as an address, by a network or by a pattern that compiles; the
    mode is the one of the last mode line. *)
Theorem acl_decides ls mode :
  Forall line_ok ls ->
  exists a, init_acl (Some (file_of ls)) mode = Some (0, a) /\
    acl_mode a = chosen_mode mode ls /\
    (forall host, acl_match_host a host =
      if named Black host (listed Black ls) then 1 else if named White host (listed Black ls) then -1 else 0) /\
    (forall host, outbound_block_match_host a host = if named Outbound host (listed Black ls) then 1 else 0).
Proof.
  intros Hls. unfold init_acl. rewrite fgets_file by done.
  destruct (read_lines_spec ls Black (mkAcl no_lists no_lists no_lists mode) Hls) as (c & a & -> & Hm & Hn).
  cbn [mbind option_bind]. exists a. split; [done|]. split; [done|]. split; intros host.
  - rewrite acl_match_host_eq. rewrite (Hn Black host : match_lists (black_list a) host = _).
    rewrite (Hn White host : match_lists (white_list a) host = _). cbn [get_lists black_list white_list].
    by rewrite no_lists_match.
  - rewrite outbound_match_eq. rewrite (Hn Outbound host : match_lists (outbound_block_list a) host = _).
    cbn [get_lists outbound_block_list]. by rewrite no_lists_match.
Qed.

(** An address added to the black list matches at once; removed, it no longer
    does, unless it is on the white list. *)
Lemma acl_add_remove a ip a1 a2 :
  acl_add_ip a ip = (0, a1) -> acl_remove_ip a1 ip = (0, a2) ->
  acl_match_host a1 ip = 1 /\ acl_match_host a2 ip = if match_lists (white_list a) ip then -1 else 0.
Proof.
  unfold acl_add_ip, acl_remove_ip. rewrite !acl_match_host_eq. unfold match_lists.
  destruct (cork_ip_init ip) as [[x|x]|]; [| |done]; intros [= <-] [= <-]; cbn;
    rewrite ?contains_remove, ?contains_add, ?bool_decide_eq_true_2 by done; done.
Qed.

End Acl.

(** ** A file

    Sets as lists of networks, patterns as the names they match. *)

Definition net_example (a : cork_ip) (n : Z) (b : cork_ip) : bool :=
  match a, b with
  | IPv4 a, IPv4 b => Z.shiftr a (32 - n) =? Z.shiftr b (32 - n)
  | IPv6 a, IPv6 b => Z.shiftr a (128 - n) =? Z.shiftr b (128 - n)
  | _, _ => false
  end.

#[export] Instance set_example : IpSet (cork_ip -> bool) := {
  ipset_init := fun _ => false;
  ipset_add := fun s a b => bool_decide (a = b) || s b;
  ipset_add_network := fun s a n b => net_example a n b || s b;
  ipset_remove := fun s a b => negb (bool_decide (a = b)) && s b;
  ipset_contains := fun s b => s b }.
#[export] Instance set_laws_example : IpSetLaws (cork_ip -> bool) net_example.
Proof. by split. Qed.

#[export] Instance pcre_example : Pcre (list Z) := {
  pcre_compile := fun p => if bool_decide (last p = Some (chr "(")) then None else Some p;
  pcre_exec := fun re name => match re with Some p => if bool_decide (p = name) then 1 else -1 | None => -2 end }.
#[export] Instance pcre_laws_example : PcreLaws (list Z).
Proof. by split. Qed.

Definition ip_example (s : list Z) : option cork_ip :=
  if bool_decide (s = bytes_of "10.0.0.0") then Some (IPv4 167772160)
  else if bool_decide (s = bytes_of "10.0.0.7") then Some (IPv4 167772167)
  else if bool_decide (s = bytes_of "10.9.0.7") then Some (IPv4 168361991)
  else None.

Definition lines_example : list (list Z) :=
  [bytes_of "# hosts"; bytes_of "  10.0.0.0/24 "; bytes_of "[white_list]"; bytes_of "example.org"; bytes_of "bad(";
   []; bytes_of "[reject_all]"; bytes_of "[outbound_block_list]"; bytes_of "10.9.0.7"].

Lemma acl_decides_witness :
  exists a, init_acl ip_example (Some (file_of lines_example)) BLACK_LIST = Some (0, a : @acl (cork_ip -> bool) (list Z)) /\
    acl_mode a = WHITE_LIST /\ acl_match_host ip_example a (bytes_of "10.0.0.7") = 1 /\
    acl_match_host ip_example a (bytes_of "example.org") = -1 /\
    outbound_block_match_host ip_example a (bytes_of "10.9.0.7") = 1 /\
    outbound_block_match_host ip_example a (bytes_of "10.0.0.7") = 0.
Proof.
  destruct (acl_decides (S := cork_ip -> bool) (R := list Z) ip_example net_example lines_example BLACK_LIST) as (a & Hi & Hm & Hh & Ho).
  { refine (bool_decide_unpack _ _). vm_compute. exact I. }
  exists a. split; [exact Hi|]. rewrite Hm, !Hh, !Ho. vm_compute. repeat split.
Defined.

End Acl.
