(* ===== verification/Relay.v ===== *)
(** * Relay: a connection of the shadowsocksr-libev server

    Models src/server/server.c: the callbacks that libev runs on a connection (the
    client readable or writable, the remote readable or writable, the name
    resolved, the timeout), the stages of a connection, the request header and its
    parsing, the two buffers and the watchers that take turns on them; and
    [validate_hostname] of src/server/netutils.c.

    A callback is a function of the connection and of what the system calls return;
    its result is the connection, or nothing when it was freed, and what it did to
    the outside ([effect]).  [None] around it is an access outside a buffer or
    through a null pointer.

    The cipher is the class [Cipher], which Crypt.v implements; the plugins are
    records of operations; memory ([malloc], [realloc]), HMAC and the conversions
    between addresses and text are parameters. *)

From S2P Require Import Prelude Libc Verify Acl Ota.

Import Libc Acl Ota.

Module Relay.

Definition BUF_SIZE : Z := 2048.
Definition ADDRTYPE_MASK : Z := 239.
Definition ONETIMEAUTH_FLAG : Z := 16.

Definition STAGE_ERROR : Z := -1.
Definition STAGE_INIT : Z := 0.
Definition STAGE_HANDSHAKE : Z := 1.
Definition STAGE_PARSE : Z := 2.
Definition STAGE_RESOLVE : Z := 4.
Definition STAGE_STREAM : Z := 5.

(** Levels of [report_addr]. *)
Definition MALICIOUS : Z := 8.
Definition SUSPICIOUS : Z := 4.
Definition BAD : Z := 2.
Definition MALFORMED : Z := 1.

(** ** Outside *)

(** The cipher of a connection: [ss_encrypt(buf, e_ctx, BUF_SIZE)],
    [ss_decrypt(buf, d_ctx, BUF_SIZE)] with the number they return, and
    [d_ctx->evp.iv], nothing where [d_ctx] is null. *)
Class Cipher (CE CD : Type) := {
  ss_encrypt : CE -> buffer_t -> option (Z * buffer_t * CE);
  ss_decrypt : CD -> buffer_t -> option (Z * buffer_t * CD);
  evp_iv : CD -> option (list Z) }.

(** [obfs_class] with the callbacks the server calls; each gets the object and the
    length and gives back the object and the length it returns, [server_decode]
    also whether to answer.  [set_head_len]: what [set_server_info] changes. *)
Record obfs_class (P : Type) := mkObfs {
  server_pre_encrypt : option (P -> list Z -> Z -> option (P * list Z * Z));
  server_post_decrypt : option (P -> list Z -> Z -> option (P * list Z * Z));
  server_encode : option (P -> list Z -> Z -> option (P * list Z * Z));
  server_decode : option (P -> list Z -> Z -> option (P * list Z * Z * bool));
  set_head_len : P -> Z -> P }.
Arguments server_pre_encrypt {P}.
Arguments server_post_decrypt {P}.
Arguments server_encode {P}.
Arguments server_decode {P}.
Arguments set_head_len {P}.

(** Addresses with the port as a number. *)
Inductive sockaddr := SockIn (addr : list Z) (port : Z) | SockIn6 (addr : list Z) (port : Z).

(** What [recv], [send], [sendto] with fast open, and the steps to a connected
    socket return. *)
Inductive received := Data (bs : list Z) | Eof | NoData | RecvFailed.
Inductive sent := Sent (n : Z) | Again | SendFailed.
Inductive tfo := TfoSent (n : Z) | TfoPending | TfoUnsupported | TfoFailed.
#[export] Instance tfo_eq : EqDecision tfo.
Proof. solve_decision. Defined.
Record sys := mkSys { socket_ok : bool; bind_ok : bool; setinterface_ok : bool; sendto : tfo; connect_ok : bool }.

Inductive effect :=
| Tx (n : Z) | Rx (n : Z)
| ToRemote (bs : list Z) | ToClient (bs : list Z) | Answer (bs : list Z)
| Connect (a : sockaddr) | Resolve (host : list Z) (port : Z)
| Report (level : Z) | Reset_addr | Fast_open_off
| CloseRemote | CloseServer.

(** ** Connections *)

(** [remote_t]; [sent_up] and [got_first] are [connected] of the two contexts. *)
Record remote_t := mkRemote {
  r_buf : buffer_t; r_idx : Z; send_connected : bool; recv_connected : bool; r_send_io : bool; r_recv_io : bool }.

Record server_t (CE CD OS PS : Type) := mkServer {
  stage : Z; buf : buffer_t; s_idx : Z; header_buf : option buffer_t; auth : bool; chunk : chunk_t;
  e_ctx : CE; d_ctx : CD; remote : option remote_t; query : option (list Z * Z);
  recv_io : bool; send_io : bool;
  obfs : option (obfs_class OS * OS); protocol : option (obfs_class PS * PS);
  obfs_compatible_state : bool; protocol_compatible_state : bool }.
Arguments mkServer {CE CD OS PS}.
Arguments stage {CE CD OS PS}.
Arguments buf {CE CD OS PS}.
Arguments s_idx {CE CD OS PS}.
Arguments header_buf {CE CD OS PS}.
Arguments auth {CE CD OS PS}.
Arguments chunk {CE CD OS PS}.
Arguments e_ctx {CE CD OS PS}.
Arguments d_ctx {CE CD OS PS}.
Arguments remote {CE CD OS PS}.
Arguments query {CE CD OS PS}.
Arguments recv_io {CE CD OS PS}.
Arguments send_io {CE CD OS PS}.
Arguments obfs {CE CD OS PS}.
Arguments protocol {CE CD OS PS}.
Arguments obfs_compatible_state {CE CD OS PS}.
Arguments protocol_compatible_state {CE CD OS PS}.

Section Setters.
Context {CE CD OS PS : Type}.
Implicit Types s : server_t CE CD OS PS.

Definition set_stage x s := mkServer x (buf s) (s_idx s) (header_buf s) (auth s) (chunk s) (e_ctx s) (d_ctx s) (remote s)
  (query s) (recv_io s) (send_io s) (obfs s) (protocol s) (obfs_compatible_state s) (protocol_compatible_state s).
Definition set_buf x s := mkServer (stage s) x (s_idx s) (header_buf s) (auth s) (chunk s) (e_ctx s) (d_ctx s) (remote s)
  (query s) (recv_io s) (send_io s) (obfs s) (protocol s) (obfs_compatible_state s) (protocol_compatible_state s).
Definition set_idx x s := mkServer (stage s) (buf s) x (header_buf s) (auth s) (chunk s) (e_ctx s) (d_ctx s) (remote s)
  (query s) (recv_io s) (send_io s) (obfs s) (protocol s) (obfs_compatible_state s) (protocol_compatible_state s).
Definition set_header_buf x s := mkServer (stage s) (buf s) (s_idx s) x (auth s) (chunk s) (e_ctx s) (d_ctx s) (remote s)
  (query s) (recv_io s) (send_io s) (obfs s) (protocol s) (obfs_compatible_state s) (protocol_compatible_state s).
Definition set_auth x s := mkServer (stage s) (buf s) (s_idx s) (header_buf s) x (chunk s) (e_ctx s) (d_ctx s) (remote s)
  (query s) (recv_io s) (send_io s) (obfs s) (protocol s) (obfs_compatible_state s) (protocol_compatible_state s).
Definition set_chunk x s := mkServer (stage s) (buf s) (s_idx s) (header_buf s) (auth s) x (e_ctx s) (d_ctx s) (remote s)
  (query s) (recv_io s) (send_io s) (obfs s) (protocol s) (obfs_compatible_state s) (protocol_compatible_state s).
Definition set_e_ctx (x : CE) s := mkServer (stage s) (buf s) (s_idx s) (header_buf s) (auth s) (chunk s) x (d_ctx s) (remote s)
  (query s) (recv_io s) (send_io s) (obfs s) (protocol s) (obfs_compatible_state s) (protocol_compatible_state s).
Definition set_d_ctx (x : CD) s := mkServer (stage s) (buf s) (s_idx s) (header_buf s) (auth s) (chunk s) (e_ctx s) x (remote s)
  (query s) (recv_io s) (send_io s) (obfs s) (protocol s) (obfs_compatible_state s) (protocol_compatible_state s).
Definition set_remote x s := mkServer (stage s) (buf s) (s_idx s) (header_buf s) (auth s) (chunk s) (e_ctx s) (d_ctx s) x
  (query s) (recv_io s) (send_io s) (obfs s) (protocol s) (obfs_compatible_state s) (protocol_compatible_state s).
Definition set_query x s := mkServer (stage s) (buf s) (s_idx s) (header_buf s) (auth s) (chunk s) (e_ctx s) (d_ctx s)
  (remote s) x (recv_io s) (send_io s) (obfs s) (protocol s) (obfs_compatible_state s) (protocol_compatible_state s).
Definition set_recv_io x s := mkServer (stage s) (buf s) (s_idx s) (header_buf s) (auth s) (chunk s) (e_ctx s) (d_ctx s)
  (remote s) (query s) x (send_io s) (obfs s) (protocol s) (obfs_compatible_state s) (protocol_compatible_state s).
Definition set_send_io x s := mkServer (stage s) (buf s) (s_idx s) (header_buf s) (auth s) (chunk s) (e_ctx s) (d_ctx s)
  (remote s) (query s) (recv_io s) x (obfs s) (protocol s) (obfs_compatible_state s) (protocol_compatible_state s).
Definition set_obfs (x : option (obfs_class OS * OS)) s := mkServer (stage s) (buf s) (s_idx s) (header_buf s) (auth s) (chunk s) (e_ctx s) (d_ctx s)
  (remote s) (query s) (recv_io s) (send_io s) x (protocol s) (obfs_compatible_state s) (protocol_compatible_state s).
Definition set_protocol (x : option (obfs_class PS * PS)) s := mkServer (stage s) (buf s) (s_idx s) (header_buf s) (auth s) (chunk s) (e_ctx s) (d_ctx s)
  (remote s) (query s) (recv_io s) (send_io s) (obfs s) x (obfs_compatible_state s) (protocol_compatible_state s).
Definition set_obfs_compatible_state x s := mkServer (stage s) (buf s) (s_idx s) (header_buf s) (auth s) (chunk s) (e_ctx s)
  (d_ctx s) (remote s) (query s) (recv_io s) (send_io s) (obfs s) (protocol s) x (protocol_compatible_state s).
Definition set_protocol_compatible_state x s := mkServer (stage s) (buf s) (s_idx s) (header_buf s) (auth s) (chunk s)
  (e_ctx s) (d_ctx s) (remote s) (query s) (recv_io s) (send_io s) (obfs s) (protocol s) (obfs_compatible_state s) x.
End Setters.

Definition rset_buf x i r := mkRemote x i (send_connected r) (recv_connected r) (r_send_io r) (r_recv_io r).
Definition rset_send_connected x r := mkRemote (r_buf r) (r_idx r) x (recv_connected r) (r_send_io r) (r_recv_io r).
Definition rset_recv_connected x r := mkRemote (r_buf r) (r_idx r) (send_connected r) x (r_send_io r) (r_recv_io r).
Definition rset_send_io x r := mkRemote (r_buf r) (r_idx r) (send_connected r) (recv_connected r) x (r_recv_io r).
Definition rset_recv_io x r := mkRemote (r_buf r) (r_idx r) (send_connected r) (recv_connected r) (r_send_io r) x.

(** ** Names *)

(** The bytes of [valid_label_bytes]. *)
Definition valid_label_byte (c : Z) : bool :=
  (c =? chr "-") || ((48 <=? c) && (c <=? 57)) || ((65 <=? c) && (c <=? 90)) || (c =? chr "_") || ((97 <=? c) && (c <=? 122)).

(** [strspn] with them, and [strchr] of a dot. *)
Fixpoint label_span (s : list Z) : Z :=
  match s with c :: s => if valid_label_byte c then 1 + label_span s else 0 | [] => 0 end.
Fixpoint dot_at (s : list Z) : option Z :=
  match s with c :: s => if c =? chr "." then Some 0 else Z.add 1 <$> dot_at s | [] => None end.

(** The loop over the labels from offset [label] on; a turn needs at least two
    bytes, so [hostname_len] is enough fuel. *)
Fixpoint label_loop (fuel : nat) (hostname : list Z) (hostname_len label : Z) : option bool :=
  match fuel with
  | O => Some true
  | S fuel =>
      if label <? hostname_len then
        text ← cstr (drop (Z.to_nat label) hostname);
        let label_len := match dot_at text with Some i => i | None => hostname_len - label end in
        if hostname_len <? label + label_len then Some false else
        if (63 <? label_len) || (label_len <? 1) then Some false else
        first ← hostname @! label;
        last ← hostname @! (label + label_len - 1);
        if (first =? chr "-") || (last =? chr "-") then Some false else
        if label_span text <? label_len then Some false else
        label_loop fuel hostname hostname_len (label + (label_len + 1))
      else Some true
  end.

Definition validate_hostname (hostname : list Z) (hostname_len : Z) : option bool :=
  if (hostname_len <? 1) || (255 <? hostname_len) then Some false else
  c ← hostname @! 0;
  if c =? chr "." then Some false else label_loop (Z.to_nat hostname_len) hostname hostname_len 0.

(** ** The header *)

Definition parse_header_len (atyp : Z) (data : list Z) (offset : Z) : option Z :=
  if Z.land atyp ADDRTYPE_MASK =? 1 then Some 6
  else if Z.land atyp ADDRTYPE_MASK =? 3 then name_len ← data @! offset; Some (name_len + 1 + 2)
  else if Z.land atyp ADDRTYPE_MASK =? 4 then Some 18
  else Some 0.

(** The first byte is read whatever [len] says.  [auth_on] is the global [auth]. *)
Definition is_header_complete (auth_on : bool) (b : buffer_t) : option Z :=
  let buf_len := len b in
  atyp ← array b @! 0;
  let finish (header_len : Z) :=
    let header_len := header_len + 2 in
    let header_len :=
      if auth_on || negb (Z.land atyp ONETIMEAUTH_FLAG =? 0) then header_len + ONETIMEAUTH_BYTES else header_len in
    Some (if header_len <=? buf_len then 1 else 0) in
  if Z.land atyp ADDRTYPE_MASK =? 1 then finish 5
  else if Z.land atyp ADDRTYPE_MASK =? 3 then
    if buf_len <? 2 then Some 0 else name_len ← array b @! 1; finish (1 + (name_len + 1))
  else if Z.land atyp ADDRTYPE_MASK =? 4 then finish 17
  else Some (-1).

(** What a piece of a callback ends in: it goes on, or the callback returns, with
    the connection if it is still there. *)
Inductive Flow (X A : Type) := Go (a : A) | Ret (s : option X) (es : list effect).
Arguments Go {X A}.
Arguments Ret {X A}.

Definition andthen {X A B} (x : option (Flow X A)) (f : A -> option (Flow X B)) : option (Flow X B) :=
  match x with
  | None => None
  | Some (Go a) => f a
  | Some (Ret s es) => Some (Ret s es)
  end.
Notation "'let*' p ':=' m 'in' k" := (andthen m (fun p => k)) (at level 200, p strict pattern, m at level 200, k at level 200).

Section Server.
Context {CE CD OS PS S R : Type} `{Cipher CE CD} `{IpSet S} `{Pcre R}.
Context (realloc : list Z -> Z -> list Z) (malloc : Z -> list Z) (hmac : list Z -> list Z -> list Z).
(** [dns_ntop], [dns_pton] and libcork's parser. *)
Context (dns_ntop : sockaddr -> list Z) (dns_pton : list Z -> list Z) (cork_ip_init : list Z -> option cork_ip).
Context (signed_char : bool).
(** The globals: of encrypt.c, the flags of the command line, the lists. *)
Context (enc_iv_len : Z) (enc_key : list Z).
Context (auth_on obfs_compatible protocol_compatible : bool) (acl_lists : option (@acl S R)).

Notation server_t := (server_t CE CD OS PS).
Notation brealloc := (brealloc realloc).
Notation flow := (Flow server_t).
Implicit Types s : server_t.

(** [remote] is null in a callback of the client before the stream. *)
Definition close_both (remote : option remote_t) : list effect :=
  match remote with Some _ => [CloseRemote; CloseServer] | None => [CloseServer] end.

(** ** The remote *)

Definition new_remote : remote_t := mkRemote (mkBuf (malloc BUF_SIZE) 0) 0 false false false false.

(** The socket is connected, or its first data are sent with the connection: what
    becomes of [server->buf] and its index. *)
Definition fast_open_sent (y : sys) (b : buffer_t) (i : Z) : option (buffer_t * Z * list effect) :=
  match sendto y with
  | TfoSent n =>
      data ← mread (array b) i (len b);
      Some (if n <=? len b then (mkBuf (array b) (len b - n), i + n, [ToRemote (take (Z.to_nat n) data)])
            else (mkBuf (array b) 0, 0, [ToRemote data]))
  | TfoUnsupported => Some (b, i, [Fast_open_off])
  | TfoPending | TfoFailed => Some (b, i, [])
  end.

(** [connect_to_remote]: the remote, if there is one, and [server] with its buffer. *)
Definition connect_to_remote (fast_open : bool) (y : sys) (res : sockaddr) (s : server_t)
    : option (option remote_t * server_t * list effect) :=
  let blocked := match acl_lists with
                 | Some a => outbound_block_match_host cork_ip_init a (dns_ntop res) =? 1
                 | None => false
                 end in
  if blocked then Some (None, s, []) else
  if negb (socket_ok y) then Some (None, s, []) else
  if negb (bind_ok y) then Some (None, s, []) else
  if negb (setinterface_ok y) then Some (None, s, []) else
  '(b, i, es) ← (if fast_open then fast_open_sent y (buf s) (s_idx s) else Some (buf s, s_idx s, []));
  let s := set_idx i (set_buf b s) in
  let fast_open := fast_open && negb (bool_decide (sendto y = TfoUnsupported)) in
  if fast_open then Some (Some new_remote, s, Connect res :: es)
  else if connect_ok y then Some (Some new_remote, s, es ++ [Connect res])
  else Some (None, s, es ++ [CloseRemote]).

(** ** The client is readable *)

(** [buf] and [remote] of [server_recv_cb]: before the stream, the server's buffer
    and null. *)
Definition cur_buf s : option buffer_t := if STAGE_PARSE <? stage s then r_buf <$> remote s else Some (buf s).
Definition cur_remote s : option remote_t := if STAGE_PARSE <? stage s then remote s else None.
Definition put_buf (b : buffer_t) s : server_t :=
  if STAGE_PARSE <? stage s then set_remote ((fun r => rset_buf b (r_idx r) r) <$> remote s) s else set_buf b s.

(** The obfuscation is taken off.  A plugin that fails leaves the object where it
    was, so putting the structure back gives the old length. *)
Definition obfs_decode (b : buffer_t) s : option (flow (buffer_t * server_t)) :=
  match obfs s with
  | Some (cls, st) =>
      match server_decode cls with
      | Some decode =>
          '(st, a, n, needsendback) ← decode st (array b) (len b);
          let s := set_obfs (Some (cls, st)) s in
          let* (b, s) := (if 0 <=? n then Some (Go (mkBuf a n, s))
                      else if obfs_compatible then Some (Go (mkBuf a (len b), set_obfs_compatible_state true s))
                      else Some (Ret None (close_both (cur_remote s)))) in
          if needsendback : bool then
            match server_encode cls with
            | Some encode =>
                '(st, a, n) ← encode st (malloc BUF_SIZE) 0;
                data ← mread a 0 n;
                Some (Ret (Some (put_buf b (set_obfs (Some (cls, st)) s))) [Answer data])
            | None => Some (Ret (Some (put_buf b s)) [])
            end
          else Some (Go (b, s))
      | None => Some (Go (b, s))
      end
  | None => Some (Go (b, s))
  end.

Definition decrypt_step (b : buffer_t) s : option (flow (buffer_t * server_t)) :=
  '(err, b, d) ← ss_decrypt (d_ctx s) b;
  let s := set_d_ctx d s in
  if err =? 0 then Some (Go (b, s)) else Some (Ret None (Report MALICIOUS :: close_both (cur_remote s))).

(** With [protocol_compatible], a failure with nothing to put back uses the copy
    after it was freed. *)
Definition protocol_decode (b : buffer_t) s : option (flow (buffer_t * server_t)) :=
  match protocol s with
  | Some (cls, st) =>
      match server_post_decrypt cls with
      | Some post_decrypt =>
          '(st, a, n) ← post_decrypt st (array b) (len b);
          let s := set_protocol (Some (cls, st)) s in
          if protocol_compatible then
            if n <? 0 then
              if len b =? 0 then None else Some (Go (mkBuf a (len b), set_protocol_compatible_state true s))
            else if n =? 0 then Some (Go (mkBuf a (len b), set_protocol_compatible_state true s))
            else Some (Go (mkBuf a n, s))
          else if n <? 0 then Some (Ret None (close_both (cur_remote s)))
          else if n =? 0 then Some (Ret (Some (put_buf (mkBuf a 0) s)) [])
          else Some (Go (mkBuf a n, s))
      | None => Some (Go (b, s))
      end
  | None => Some (Go (b, s))
  end.

(** Incomplete headers, part 2. *)
Definition header_init s : option (flow server_t) :=
  if stage s =? STAGE_INIT then
    ret ← is_header_complete auth_on (buf s);
    Some (if ret =? 1 then Go (set_stage STAGE_PARSE (set_header_buf None s))
          else if ret =? -1 then
            Ret (Some (set_idx 0 (set_buf (mkBuf (array (buf s)) 0) (set_stage STAGE_ERROR s)))) [Report MALFORMED]
          else Go (set_stage STAGE_HANDSHAKE s))
  else Some (Go s).

Definition header_handshake s : option (flow server_t) :=
  if stage s =? STAGE_HANDSHAKE then
    hb ← header_buf s;
    let header_len := len hb in
    let hb := brealloc hb (len (buf s) + header_len) BUF_SIZE in
    data ← mread (array (buf s)) 0 (len (buf s));
    a ← mwrite (array hb) header_len data;
    let hb := mkBuf a (len (buf s) + header_len) in
    ret ← is_header_complete auth_on (buf s);
    if ret =? 1 then
      let b := brealloc (buf s) (len hb) BUF_SIZE in
      data ← mread (array hb) 0 (len hb);
      a ← mwrite (array b) 0 data;
      Some (Go (set_stage STAGE_PARSE (set_header_buf None (set_buf (mkBuf a (len hb)) s))))
    else
      let s := set_header_buf (Some hb) (if ret =? -1 then set_stage STAGE_ERROR s else s) in
      Some (Ret (Some (set_idx 0 (set_buf (mkBuf (array (buf s)) 0) s))) [])
  else Some (Go s).

(** [ss_check_hash] on a buffer, if the connection is authenticated. *)
Definition check_hash (b : buffer_t) s : option (bool * buffer_t * server_t) :=
  if auth s then
    iv ← evp_iv (d_ctx s);
    '(r, b, ck) ← ss_check_hash realloc hmac enc_iv_len iv b (chunk s) BUF_SIZE;
    Some (negb (r =? 0), b, set_chunk ck s)
  else Some (true, b, s).

(** Data of the client on their way to the remote. *)
Definition stream_up (snd : sent) (r : remote_t) s : option (option server_t * list effect) :=
  '(ok, b, s) ← check_hash (r_buf r) s;
  if negb ok then Some (None, [Report BAD; CloseServer; CloseRemote]) else
  data ← mread (array b) 0 (len b);
  let wait i b := set_recv_io false (set_remote (Some (rset_send_io true (rset_buf b i r))) s) in
  Some (match snd with
        | Sent n =>
            (Some (if n <? len b then wait n (mkBuf (array b) (len b - n))
                   else set_remote (Some (rset_buf b (r_idx r) r)) s),
             [ToRemote (take (Z.to_nat n) data)])
        | Again => (Some (wait 0 b), [])
        | SendFailed => (None, [CloseRemote; CloseServer])
        end).

(** ** The request *)

Inductive target := Direct (a : sockaddr) | Lookup (host : list Z) (port : Z).

Definition malformed {A} : option (flow A) := Some (Ret None [Report MALFORMED; CloseServer]).

(** One-time authentication of the header. *)
Definition verify_header (atyp : Z) s : option (flow server_t) :=
  if auth_on || negb (Z.land atyp ONETIMEAUTH_FLAG =? 0) then
    header_len ← parse_header_len atyp (array (buf s)) 1;
    let n := 1 + header_len + ONETIMEAUTH_BYTES in
    if (header_len =? 0) || (len (buf s) <? n) then malformed else
    iv ← evp_iv (d_ctx s);
    v ← ss_onetimeauth_verify hmac enc_iv_len enc_key iv (mkBuf (array (buf s)) n);
    if negb (v =? 0) then Some (Ret None [Report BAD; CloseServer]) else Some (Go (set_auth true s))
  else Some (Go s).

(** The address and where the port is.  [host] is a zeroed array of 257 bytes. *)
Definition parse_target (atyp : Z) (b : buffer_t) : option (flow (target * Z)) :=
  if Z.land atyp ADDRTYPE_MASK =? 1 then
    if 7 <=? len b then
      addr ← mread (array b) 1 4; port ← ld_be 2 (array b) 5; Some (Go (Direct (SockIn addr port), 5))
    else malformed
  else if Z.land atyp ADDRTYPE_MASK =? 3 then
    name_len ← array b @! 1;
    if name_len + 4 <=? len b then
      name ← mread (array b) 2 name_len;
      host ← mwrite (replicate 257 0) 0 name;
      text ← cstr host;
      let offset := 2 + name_len in
      let blocked := match acl_lists with
                     | Some a => outbound_block_match_host cork_ip_init a text =? 1
                     | None => false
                     end in
      if blocked then Some (Ret None [CloseServer]) else
      port ← ld_be 2 (array b) offset;
      match cork_ip_init text with
      | Some (IPv4 _) => Some (Go (Direct (SockIn (dns_pton text) port), offset))
      | Some (IPv6 _) => Some (Go (Direct (SockIn6 (dns_pton text) port), offset))
      | None =>
          valid ← validate_hostname host name_len;
          if negb valid then malformed else Some (Go (Lookup text port, offset))
      end
    else malformed
  else if Z.land atyp ADDRTYPE_MASK =? 4 then
    if 19 <=? len b then
      addr ← mread (array b) 1 16; port ← ld_be 2 (array b) 17; Some (Go (Direct (SockIn6 addr port), 17))
    else malformed
  else malformed.

(** The header is cut off; what is left is checked. *)
Definition cut_header (offset : Z) s : option (flow server_t) :=
  let offset := offset + 2 in
  let offset := if auth s then offset + ONETIMEAUTH_BYTES else offset in
  if len (buf s) <? offset then malformed else
  rest ← mread (array (buf s)) offset (len (buf s) - offset);
  a ← mwrite (array (buf s)) 0 rest;
  '(ok, b, s) ← check_hash (mkBuf a (len (buf s) - offset)) s;
  if negb ok then Some (Ret None [Report BAD; CloseServer]) else Some (Go (set_buf b s)).

(** What came behind the header goes to the remote's buffer, from index [i] on. *)
Definition hand_over (i : Z) (r : remote_t) s : option (remote_t * server_t) :=
  if 0 <? len (buf s) then
    data ← mread (array (buf s)) i (len (buf s));
    a ← mwrite (array (r_buf r)) 0 data;
    Some (rset_buf (mkBuf a (len (buf s))) 0 r, set_idx 0 (set_buf (mkBuf (array (buf s)) 0) s))
  else Some (r, s).

Definition start_remote (fast_open : bool) (y : sys) (t : target) s : option (option server_t * list effect) :=
  match t with
  | Direct a =>
      '(r, s, es) ← connect_to_remote fast_open y a s;
      match r with
      | None => Some (None, es ++ [CloseServer])
      | Some r =>
          '(r, s) ← hand_over 0 r s;
          Some (Some (set_recv_io false (set_remote (Some (rset_send_io true r)) s)), es)
      end
  | Lookup host port =>
      Some (Some (set_recv_io false (set_query (Some (host, port)) (set_stage STAGE_RESOLVE s))), [Resolve host port])
  end.

Definition returned (x : option (flow (option server_t * list effect))) : option (option server_t * list effect) :=
  match x with Some (Go r) => Some r | Some (Ret s es) => Some (s, es) | None => None end.

Definition parse_request (fast_open : bool) (y : sys) s : option (flow (option server_t * list effect)) :=
  atyp ← array (buf s) @! 0;
  let* s := verify_header atyp s in
  let* (t, offset) := parse_target atyp (buf s) in
  let* s := cut_header offset s in
  r ← start_remote fast_open y t s;
  Some (Go r).

(** After the data are read and decoded. *)
Definition relay_up (fast_open : bool) (snd : sent) (y : sys) (b : buffer_t) s : option (option server_t * list effect) :=
  returned (
    let* (b, s) := obfs_decode b s in
    let* (b, s) := decrypt_step b s in
    let* (b, s) := protocol_decode b s in
    let s := put_buf b s in
    let* s := header_init s in
    let* s := header_handshake s in
    if stage s =? STAGE_STREAM then r ← remote s; x ← stream_up snd r s; Some (Go x)
    else if stage s =? STAGE_PARSE then parse_request fast_open y s
    else None).

(** [FATAL] at the end is not reached, so [None] stands for it. *)
Definition server_recv_cb (fast_open : bool) (rcv : received) (snd : sent) (y : sys) s : option (option server_t * list effect) :=
  let rem := cur_remote s in
  b ← cur_buf s;
  let n := if STAGE_PARSE <? stage s then 0 else len (buf s) in
  if BUF_SIZE <? n then Some (None, close_both rem) else
  match rcv with
  | Eof | RecvFailed => Some (None, close_both rem)
  | NoData => Some (Some s, [])
  | Data bs =>
      a ← mwrite (array b) n bs;
      let r := Z.of_nat (length bs) in
      let done x := '(s, es) ← x; Some (s, Tx r :: es) in
      if stage s =? STAGE_ERROR then
        done (Some (Some (set_idx 0 (set_buf (mkBuf a 0) s)), []))
      else if stage s =? STAGE_INIT then
        let b := mkBuf a (len (buf s) + r) in
        if len b <=? enc_iv_len + 1 then done (Some (Some (set_buf b s), [])) else done (relay_up fast_open snd y b s)
      else done (relay_up fast_open snd y (mkBuf a r) s)
  end.

(** ** The other callbacks *)

(** The name is resolved, or could not be. *)
Definition server_resolve_cb (fast_open : bool) (y : sys) (addr : option sockaddr) s : option (option server_t * list effect) :=
  let s := set_query None s in
  match addr with
  | None => Some (None, [CloseServer])
  | Some a =>
      '(r, s, es) ← connect_to_remote fast_open y a s;
      match r with
      | None => Some (None, es ++ [CloseServer])
      | Some r => '(r, s) ← hand_over (s_idx s) r s; Some (Some (set_remote (Some (rset_send_io true r)) s), es)
      end
  end.

(** Sending what the remote's buffer holds, after [es]. *)
Definition send_rest (snd : sent) (es : list effect) (r : remote_t) s : option (option server_t * list effect) :=
  data ← mread (array (r_buf r)) (r_idx r) (len (r_buf r));
  Some (match snd with
        | Again => (Some (set_remote (Some r) s), es)
        | SendFailed => (None, es ++ [CloseRemote; CloseServer])
        | Sent n =>
            if n <? len (r_buf r) then
              (Some (set_remote (Some (rset_buf (mkBuf (array (r_buf r)) (len (r_buf r) - n)) (r_idx r + n) r)) s),
               es ++ [ToRemote (take (Z.to_nat n) data)])
            else
              let r := rset_send_io false (rset_buf (mkBuf (array (r_buf r)) 0) 0 r) in
              let s := set_recv_io true s in
              (Some (if stage s =? STAGE_STREAM then set_remote (Some r) s
                     else set_remote (Some (rset_recv_io true r)) (set_stage STAGE_STREAM s)),
               es ++ [ToRemote data])
        end).

(** The remote is writable; [peer]: [getpeername] works, the socket is connected. *)
Definition remote_send_cb (peer : bool) (snd : sent) s : option (option server_t * list effect) :=
  r ← remote s;
  let first := negb (send_connected r) in
  if first && negb peer then Some (None, [CloseRemote; CloseServer]) else
  let r := rset_send_connected true r in
  let es := if first then [Reset_addr] else [] in
  if len (r_buf r) =? 0 then
    if first then
      Some (Some (set_recv_io true (set_remote (Some (rset_recv_io true (rset_send_io false r))) (set_stage STAGE_STREAM s))), es)
    else Some (None, [CloseRemote; CloseServer])
  else send_rest snd es r s.

(** The response is encoded: plugin, cipher, plugin.  [None] inside: the cipher
    failed. *)
Definition encode (b : buffer_t) s : option (option (buffer_t * server_t)) :=
  s ← match obfs s with
      | Some (cls, st) =>
          n ← Obfsutil.get_head_size signed_char (Some (array b)) (len b) 30; Some (set_obfs (Some (cls, set_head_len cls st n)) s)
      | None => Some s
      end;
  '(b, s) ← match protocol s with
            | Some (cls, st) =>
                match server_pre_encrypt cls, obfs_compatible_state s with
                | Some pre_encrypt, false =>
                    '(st, a, n) ← pre_encrypt st (array b) (len b); Some (mkBuf a (u64 n), set_protocol (Some (cls, st)) s)
                | _, _ => Some (b, s)
                end
            | None => Some (b, s)
            end;
  '(err, b, e) ← ss_encrypt (e_ctx s) b;
  let s := set_e_ctx e s in
  if negb (err =? 0) then Some None else
  match obfs s with
  | Some (cls, st) =>
      match server_encode cls, obfs_compatible_state s with
      | Some enc, false =>
          '(st, a, n) ← enc st (array b) (len b); Some (Some (mkBuf a (u64 n), set_obfs (Some (cls, st)) s))
      | _, _ => Some (Some (b, s))
      end
  | None => Some (Some (b, s))
  end.

(** The remote is readable. *)
Definition remote_recv_cb (rcv : received) (snd : sent) s : option (option server_t * list effect) :=
  r ← remote s;
  match rcv with
  | Eof | RecvFailed => Some (None, [CloseRemote; CloseServer])
  | NoData => Some (Some s, [])
  | Data bs =>
      a ← mwrite (array (buf s)) 0 bs;
      let n := Z.of_nat (length bs) in
      x ← encode (mkBuf a n) s;
      match x with
      | None => Some (None, [Rx n; CloseRemote; CloseServer])
      | Some (b, s) =>
          data ← mread (array b) 0 (len b);
          let r := rset_recv_connected true r in
          let wait i b := set_send_io true (set_idx i (set_buf b (set_remote (Some (rset_recv_io false r)) s))) in
          Some (match snd with
                | Sent m =>
                    (Some (if m <? len b then wait m (mkBuf (array b) (len b - m))
                           else set_buf b (set_remote (Some r) s)),
                     [Rx n; ToClient (take (Z.to_nat m) data)])
                | Again => (Some (wait 0 b), [Rx n])
                | SendFailed => (None, [Rx n; CloseRemote; CloseServer])
                end)
      end
  end.

(** The client is writable. *)
Definition server_send_cb (snd : sent) s : option (option server_t * list effect) :=
  match remote s with
  | None => Some (None, [CloseServer])
  | Some r =>
      if len (buf s) =? 0 then Some (None, [CloseRemote; CloseServer]) else
      data ← mread (array (buf s)) (s_idx s) (len (buf s));
      Some (match snd with
            | Again => (Some s, [])
            | SendFailed => (None, [CloseRemote; CloseServer])
            | Sent n =>
                (Some (if n <? len (buf s) then set_idx (s_idx s + n) (set_buf (mkBuf (array (buf s)) (len (buf s) - n)) s)
                       else set_send_io false (set_idx 0 (set_buf (mkBuf (array (buf s)) 0)
                              (set_remote (Some (rset_recv_io true r)) s)))),
                 [ToClient (take (Z.to_nat n) data)])
            end)
  end.

Definition server_timeout_cb s : option server_t * list effect :=
  (None, (if stage s <? STAGE_PARSE then [Report SUSPICIOUS] else []) ++ close_both (remote s)).

(** ** The life of a connection *)

(** [new_server] with the plugins of [accept_cb] and the contexts of the cipher. *)
Definition new_server (e : CE) (d : CD) (o : option (obfs_class OS * OS)) (p : option (obfs_class PS * PS)) : server_t :=
  mkServer STAGE_INIT (mkBuf (malloc BUF_SIZE) 0) 0 (Some (mkBuf (malloc BUF_SIZE) 0)) false (mkChunk 0 0 0 (mkBuf [] 0))
    e d None None true false o p false false.

(** What the event loop runs: the callback of a watcher that is active, the one of
    the resolver while there is a query, and the timer at any time. *)
Inductive event :=
| Client_readable (rcv : received) (snd : sent) (y : sys)
| Client_writable (snd : sent)
| Remote_readable (rcv : received) (snd : sent)
| Remote_writable (peer : bool) (snd : sent)
| Resolved (y : sys) (addr : option sockaddr)
| Timed_out.

Definition handle (fast_open : bool) (ev : event) s : option (option server_t * list effect) :=
  match ev with
  | Client_readable rcv snd y => server_recv_cb fast_open rcv snd y s
  | Client_writable snd => server_send_cb snd s
  | Remote_readable rcv snd => remote_recv_cb rcv snd s
  | Remote_writable peer snd => remote_send_cb peer snd s
  | Resolved y addr => server_resolve_cb fast_open y addr s
  | Timed_out => Some (server_timeout_cb s)
  end.

End Server.

(** ** Host names

    The reference: labels of 1 to 63 letters, digits, underscores and inner
    hyphens, between dots; a dot may end the name. *)
Fixpoint split_dots (s : list Z) : list (list Z) :=
  match s with
  | [] => [[]]
  | c :: s =>
      match split_dots s with
      | l :: ls => if c =? chr "." then [] :: l :: ls else (c :: l) :: ls
      | [] => []
      end
  end.

Definition label_ok (l : list Z) : bool :=
  (1 <=? Z.of_nat (length l)) && (Z.of_nat (length l) <=? 63) && forallb valid_label_byte l &&
  negb (bool_decide (head l = Some (chr "-"))) && negb (bool_decide (last l = Some (chr "-"))).

Fixpoint drop_final (ls : list (list Z)) : list (list Z) :=
  match ls with
  | [] => []
  | [l] => match l with [] => [] | _ => [l] end
  | l :: ls => l :: drop_final ls
  end.

Definition valid_name (name : list Z) : bool :=
  (1 <=? Z.of_nat (length name)) && (Z.of_nat (length name) <=? 255) && forallb label_ok (drop_final (split_dots name)).

Lemma split_dots_nonempty s : split_dots s <> [].
Proof. induction s as [|c s IH]; cbn; [done|]. destruct (split_dots s); [done|]. by destruct (c =? _). Qed.

Lemma split_dots_label l r :
  Forall (fun c => c <> chr ".") l -> split_dots (l ++ chr "." :: r) = l :: split_dots r.
Proof.
  induction 1 as [|c l Hc _ IH]; cbn [app split_dots].
  - destruct (split_dots r) eqn:E; [by apply split_dots_nonempty in E|done].
  - rewrite IH. by rewrite (proj2 (Z.eqb_neq c _)) by done.
Qed.

Lemma split_dots_last l : Forall (fun c => c <> chr ".") l -> split_dots l = [l].
Proof. induction 1 as [|c l Hc _ IH]; cbn; [done|]. rewrite IH. by rewrite (proj2 (Z.eqb_neq c _)) by done. Qed.

Lemma drop_final_cons l r : drop_final (l :: split_dots r) = l :: drop_final (split_dots r).
Proof. destruct (split_dots r) eqn:E; [by apply split_dots_nonempty in E|done]. Qed.

(** A name up to its first dot, or to its end. *)
Lemma first_label s :
  (Forall (fun c => c <> chr ".") s) \/ exists l r, s = l ++ chr "." :: r /\ Forall (fun c => c <> chr ".") l.
Proof.
  induction s as [|c s [IH|(l & r & -> & IH)]]; [by left| |].
  - destruct (decide (c = chr ".")) as [->|]; [right; by exists [], s|left; by constructor].
  - destruct (decide (c = chr ".")) as [->|]; [right; by exists [], (l ++ chr "." :: r)|].
    right. exists (c :: l), r. split; [done|by constructor].
Qed.

Lemma dot_at_none s : Forall (fun c => c <> chr ".") s -> dot_at s = None.
Proof. induction 1 as [|c s Hc _ IH]; cbn; [done|]. by rewrite (proj2 (Z.eqb_neq c _)), IH by done. Qed.
Lemma dot_at_label l r : Forall (fun c => c <> chr ".") l -> dot_at (l ++ chr "." :: r) = Some (Z.of_nat (length l)).
Proof.
  induction 1 as [|c l Hc _ IH]; cbn [app dot_at length]; [done|]. rewrite (proj2 (Z.eqb_neq c _)), IH by done.
  cbn. f_equal. lia.
Qed.

Lemma label_span_all l r : forallb valid_label_byte l = true -> Z.of_nat (length l) <= label_span (l ++ r).
Proof.
  induction l as [|c l IH]; cbn [forallb app label_span length].
  - intros _. induction r as [|c r IH]; cbn; [lia|]. destruct (valid_label_byte c); lia.
  - intros [Hc Hl]%andb_prop. rewrite Hc. specialize (IH Hl). lia.
Qed.
Lemma label_span_bad l r : forallb valid_label_byte l = false -> label_span (l ++ r) < Z.of_nat (length l).
Proof.
  induction l as [|c l IH]; cbn [forallb app label_span length]; [done|].
  destruct (valid_label_byte c); cbn; [intros Hl; specialize (IH Hl); lia|lia].
Qed.

(** One turn: the checks are those of [label_ok]. *)
Lemma label_checks (a l r : list Z) (k : option bool) :
  l <> [] ->
  (first ← (a ++ l ++ r) @! Z.of_nat (length a);
   last ← (a ++ l ++ r) @! (Z.of_nat (length a) + Z.of_nat (length l) - 1);
   if (first =? chr "-") || (last =? chr "-") then Some false else k) =
  if negb (bool_decide (head l = Some (chr "-"))) && negb (bool_decide (last l = Some (chr "-"))) then k else Some false.
Proof.
  intros Hl. destruct l as [|c l]; [done|]. cbn [app]. rewrite (rd_app_mid a c (l ++ r) (Z.of_nat (length a))) by lia. cbn [mbind option_bind head].
  assert (exists l' d, c :: l = l' ++ [d]) as (l' & d & E).
  { destruct (last (c :: l)) as [d|] eqn:El; [apply last_Some in El as [l' E]; eauto|by apply last_None in El]. }
  replace (a ++ c :: l ++ r) with ((a ++ l') ++ d :: r) by (rewrite <- app_assoc; f_equal; change (l' ++ d :: r) with (l' ++ [d] ++ r); by rewrite app_assoc, <- E).
  rewrite rd_app_mid by (apply (f_equal length) in E; rewrite !length_app in *; cbn [length] in *; lia).
  cbn [mbind option_bind]. rewrite E, last_snoc.
  destruct (Z.eqb_spec c (chr "-")) as [->|Hc]; [by rewrite bool_decide_eq_true_2|].
  rewrite (bool_decide_eq_false_2 (Some c = _)) by congruence. cbn [orb negb andb].
  destruct (Z.eqb_spec d (chr "-")) as [->|Hd]; [by rewrite bool_decide_eq_true_2|].
  by rewrite bool_decide_eq_false_2 by congruence.
Qed.
(** The checks of a turn on a label [l]; [t] is what the text goes on with. *)
Lemma label_turn (a l r t : list Z) (k : option bool) :
  (if (63 <? Z.of_nat (length l)) || (Z.of_nat (length l) <? 1) then Some false else
   first ← (a ++ l ++ r) @! Z.of_nat (length a);
   last ← (a ++ l ++ r) @! (Z.of_nat (length a) + Z.of_nat (length l) - 1);
   if (first =? chr "-") || (last =? chr "-") then Some false else
   if label_span (l ++ t) <? Z.of_nat (length l) then Some false else k) =
  if label_ok l then k else Some false.
Proof.
  unfold label_ok. destruct (_ || _) eqn:E.
  { replace (_ && (_ <=? 63)) with false by lia. done. }
  replace (_ && (_ <=? 63)) with true by lia. rewrite label_checks by (intros ->; cbn in E; done). cbn [andb].
  destruct (forallb valid_label_byte l) eqn:Ef; cbn [andb].
  - rewrite (proj2 (Z.ltb_ge _ _)) by (by apply label_span_all). done.
  - rewrite (proj2 (Z.ltb_lt _ _)) by (by apply label_span_bad). by destruct (_ && _).
Qed.

Lemma cstr_split s rest : exists u v, s ++ 0 :: rest = u ++ 0 :: v /\ cstr (s ++ 0 :: rest) = Some u /\
  (u = s \/ exists w, s = u ++ 0 :: w).
Proof.
  induction s as [|c s (u & v & E & Hc & Hu)]; cbn [app cstr].
  - exists [], rest. split_and!; [done|done|by left].
  - destruct (Z.eqb_spec c 0) as [->|Hne].
    + exists [], (s ++ 0 :: rest). split_and!; [done|done|right; by exists s].
    + exists (c :: u), v. rewrite Hc. cbn. split_and!; [by rewrite E|done|]. destruct Hu as [->|[w ->]]; [by left|right; by exists w].
Qed.

(** A label with a NUL is none. *)
Lemma nul_label u w : label_ok (u ++ 0 :: w) = false.
Proof. unfold label_ok. rewrite forallb_app. cbn [forallb]. change (valid_label_byte 0) with false. by rewrite !andb_false_r. Qed.

Lemma label_span_nul u w : label_span (u ++ 0 :: w) = label_span u.
Proof. induction u as [|c u IH]; cbn; [done|]. by rewrite IH. Qed.

Lemma nul_name u w :
  Forall (fun c => c <> chr ".") u -> forallb label_ok (drop_final (split_dots (u ++ 0 :: w))) = false.
Proof.
  intros Hu. destruct (first_label w) as [Hw|(l & r & -> & Hl)].
  - rewrite split_dots_last by (apply Forall_app; by repeat constructor).
    assert (drop_final [u ++ 0 :: w] = [u ++ 0 :: w]) as -> by (by destruct u). cbn [forallb]. by rewrite nul_label.
  - change (0 :: l ++ chr "." :: r) with ((0 :: l) ++ chr "." :: r). rewrite app_assoc.
    rewrite split_dots_label, drop_final_cons by (apply Forall_app; split; [done|by constructor]). cbn [forallb]. by rewrite nul_label.
Qed.

Lemma label_loop_spec rest : forall fuel a s,
  (length s <= fuel)%nat ->
  label_loop fuel (a ++ s ++ 0 :: rest) (Z.of_nat (length a) + Z.of_nat (length s)) (Z.of_nat (length a)) =
  Some (forallb label_ok (drop_final (split_dots s))).
Proof.
  induction fuel as [|fuel IH]; intros a s Hs; [by destruct s; [|cbn in Hs; lia]|]. cbn [label_loop].
  destruct s as [|c s]; [by rewrite (proj2 (Z.ltb_ge _ _)) by (cbn; lia)|].
  rewrite (proj2 (Z.ltb_lt _ _)) by (cbn; lia). rewrite Nat2Z.id, drop_app_length. set (s' := c :: s) in *.
  destruct (cstr_split s' rest) as (u & v & _ & -> & Hu). cbn [mbind option_bind].
  destruct (first_label u) as [Hnd|(l & r & -> & Hnd)].
  - rewrite dot_at_none by done. replace (Z.of_nat (length a) + Z.of_nat (length s') - Z.of_nat (length a)) with (Z.of_nat (length s')) by lia.
    rewrite Z.ltb_irrefl. destruct Hu as [->|[w Hw]].
    + replace (label_span s') with (label_span (s' ++ [])) by (by rewrite app_nil_r). rewrite label_turn. rewrite split_dots_last by done.
      assert (drop_final [s'] = [s']) as -> by done. cbn [forallb]. rewrite andb_true_r. destruct (label_ok s'); [|done].
      destruct fuel; [done|]. cbn [label_loop]. by rewrite (proj2 (Z.ltb_ge _ _)) by lia.
    + replace (label_span u) with (label_span (s' ++ [])) by (by rewrite app_nil_r, Hw, label_span_nul).
      rewrite label_turn, Hw, nul_label, nul_name by done. done.
  - assert (exists r', s' = l ++ chr "." :: r') as [r' Hs'].
    { destruct Hu as [<-|[w ->]]; [by exists r|exists (r ++ 0 :: w); by rewrite <- app_assoc]. }
    rewrite dot_at_label, Hs' by done. rewrite (proj2 (Z.ltb_ge _ _)) by (rewrite length_app; cbn [length]; lia).
    replace (a ++ (l ++ chr "." :: r') ++ 0 :: rest) with (a ++ l ++ (chr "." :: r' ++ 0 :: rest)) by list_assoc.
    rewrite label_turn, split_dots_label, drop_final_cons by done. cbn [forallb]. destruct (label_ok l); [|done]. cbn [andb].
    rewrite <- IH with (a := a ++ l ++ [chr "."]) by (rewrite Hs', length_app in Hs; cbn [length] in Hs; lia).
    f_equal; [list_assoc|rewrite !length_app; cbn [length]; lia..].
Qed.

(** [validate_hostname] accepts exactly the names of labels of 1 to 63 letters,
    digits, underscores and inner hyphens, 255 bytes in all; names with a NUL are
    refused, and the loop reads inside the array. *)
Theorem validate_hostname_decides name rest :
  validate_hostname (name ++ 0 :: rest) (Z.of_nat (length name)) = Some (valid_name name).
Proof.
  unfold validate_hostname, valid_name. destruct (_ || _) eqn:E.
  { replace (_ && (_ <=? 255)) with false by lia. done. }
  replace (_ && (_ <=? 255)) with true by lia. destruct name as [|c name]; [done|].
  change (rd ((c :: name) ++ 0 :: rest) 0) with (Some c). cbn [mbind option_bind andb].
  destruct (Z.eqb_spec c (chr ".")) as [->|_].
  - change (chr "." :: name) with ([] ++ chr "." :: name). rewrite split_dots_label, drop_final_cons by done. done.
  - rewrite Nat2Z.id. apply (label_loop_spec rest (length (c :: name)) [] (c :: name)). done.
Qed.

(** ** Requests

    The format: a type byte, an address or a name with its length, a port. *)
Definition c_text (l : list Z) : list Z := default [] (cstr (l ++ [0])).

Section Requests.
Context {CE CD OS PS S R : Type} `{IpSet S} `{Pcre R}.
Context (dns_pton : list Z -> list Z) (cork_ip_init : list Z -> option cork_ip) (acl_lists : option (@acl S R)).

Inductive request_header : list Z -> target -> Prop :=
| Req_ipv4 atyp addr port :
    Z.land atyp ADDRTYPE_MASK = 1 -> length addr = 4%nat -> length port = 2%nat ->
    request_header (atyp :: addr ++ port) (Direct (SockIn addr (be_val port)))
| Req_ipv6 atyp addr port :
    Z.land atyp ADDRTYPE_MASK = 4 -> length addr = 16%nat -> length port = 2%nat ->
    request_header (atyp :: addr ++ port) (Direct (SockIn6 addr (be_val port)))
| Req_name atyp name port :
    Z.land atyp ADDRTYPE_MASK = 3 -> length port = 2%nat -> cork_ip_init name = None -> valid_name name = true ->
    request_header (atyp :: Z.of_nat (length name) :: name ++ port) (Lookup name (be_val port))
| Req_name4 atyp name port x :
    Z.land atyp ADDRTYPE_MASK = 3 -> (length name < 256)%nat -> length port = 2%nat ->
    cork_ip_init (c_text name) = Some (IPv4 x) ->
    request_header (atyp :: Z.of_nat (length name) :: name ++ port) (Direct (SockIn (dns_pton (c_text name)) (be_val port)))
| Req_name6 atyp name port x :
    Z.land atyp ADDRTYPE_MASK = 3 -> (length name < 256)%nat -> length port = 2%nat ->
    cork_ip_init (c_text name) = Some (IPv6 x) ->
    request_header (atyp :: Z.of_nat (length name) :: name ++ port) (Direct (SockIn6 (dns_pton (c_text name)) (be_val port))).

(** A name on the outbound list. *)
Definition blocked (hdr : list Z) : bool :=
  match hdr, acl_lists with
  | atyp :: n :: rest, Some a =>
      (Z.land atyp ADDRTYPE_MASK =? 3) &&
      (outbound_block_match_host cork_ip_init a (c_text (take (length rest - 2) rest)) =? 1)
  | _, _ => false
  end.

Notation parse_target := (parse_target (CE := CE) (CD := CD) (OS := OS) (PS := PS) dns_pton cork_ip_init acl_lists).

Lemma holds_at b x y z i n :
  holds b (x ++ y ++ z) -> i = Z.of_nat (length x) -> n = Z.of_nat (length y) -> mread (array b) i n = Some y.
Proof.
  intros (Hl & [r ->] & Hs) -> ->. rewrite <- !app_assoc. rewrite !length_app in Hs. apply mread_app; [done|done|lia].
Qed.
Lemma holds_byte b x y z i : holds b (x ++ y :: z) -> i = Z.of_nat (length x) -> array b @! i = Some y.
Proof. intros (Hl & [r ->] & Hs) ->. rewrite <- app_assoc. by apply rd_app_mid. Qed.

Lemma valid_name_length name : valid_name name = true -> (1 <= length name < 256)%nat.
Proof. unfold valid_name. intros. apply andb_prop in H1 as [H1 _]. lia. Qed.

Lemma labels_nonzero n : forall s, (length s <= n)%nat ->
  forallb label_ok (drop_final (split_dots s)) = true -> Forall (fun c => c <> 0) s.
Proof.
  assert (forall l, label_ok l = true -> Forall (fun c => c <> 0) l) as Hlab.
  { intros l Hl. unfold label_ok in Hl. apply andb_prop in Hl as [Hl _]. apply andb_prop in Hl as [Hl _].
    apply andb_prop in Hl as [_ Hl]. rewrite forallb_forall in Hl. apply Forall_forall. intros c Hc ->.
    apply list_elem_of_In in Hc. by apply Hl in Hc. }
  induction n as [|n IH]; intros s Hs Hf; [by destruct s; [|cbn in Hs; lia]|].
  destruct (first_label s) as [Hnd|(l & r & -> & Hl)].
  - rewrite split_dots_last in Hf by done. destruct s as [|c s]; [done|]. cbn [drop_final forallb] in Hf.
    rewrite andb_true_r in Hf. by apply Hlab.
  - rewrite split_dots_label, drop_final_cons in Hf by done. cbn [forallb] in Hf. apply andb_prop in Hf as [Hf1 Hf2].
    rewrite length_app in Hs. cbn [length] in Hs. apply Forall_app. split; [by apply Hlab|]. constructor; [done|].
    apply IH; [lia|done].
Qed.

Lemma valid_name_text name : valid_name name = true -> c_text name = name.
Proof.
  unfold valid_name. intros Hv. apply andb_prop in Hv as [_ Hv]. unfold c_text.
  by rewrite (cstr_app name []) by (by eapply labels_nonzero).
Qed.

Lemma cstr_text s rest : cstr (s ++ 0 :: rest) = Some (c_text s).
Proof.
  destruct (cstr_split s []) as (u & v & _ & Hu & _). unfold c_text. rewrite Hu. change (default [] (Some u)) with u. rewrite <- Hu. clear.
  induction s as [|c s IH]; cbn [app cstr]; [done|]. destruct (c =? 0); [done|]. by rewrite IH.
Qed.

Lemma host_array name r :
  (length name < 256)%nat -> r = 257%nat -> exists z, mwrite (replicate r 0) 0 name = Some (name ++ 0 :: z) /\ cstr (name ++ 0 :: z) = Some (c_text name).
Proof.
  intros Hn ->. rewrite mwrite_in by (rewrite ?length_replicate; lia). change (Z.to_nat 0) with O. cbn [take app]. rewrite Nat.add_0_l, drop_replicate.
  destruct (257 - length name)%nat as [|m] eqn:E; [lia|]. exists (replicate m 0). split; [done|].
  apply cstr_text.
Qed.

Lemma header_reads b pre a p rest :
  holds b ((pre ++ a ++ p) ++ rest) -> length p = 2%nat ->
  mread (array b) (Z.of_nat (length pre)) (Z.of_nat (length a)) = Some a /\
  ld_be 2 (array b) (Z.of_nat (length pre) + Z.of_nat (length a)) = Some (be_val p).
Proof.
  intros Hb Hp. split.
  - apply (holds_at b pre a (p ++ rest)); [|done|done]. by rewrite <- !app_assoc in Hb.
  - unfold ld_be. rewrite (holds_at b (pre ++ a) p rest); [done| |rewrite length_app; lia|lia]. by rewrite <- !app_assoc in *.
Qed.

Definition is_blocked (name : list Z) : bool :=
  match acl_lists with Some a => outbound_block_match_host cork_ip_init a (c_text name) =? 1 | None => false end.

(** A name behind its length is read and looked at. *)
Lemma parse_name b atyp name port rest :
  holds b ((atyp :: Z.of_nat (length name) :: name ++ port) ++ rest) -> Z.land atyp ADDRTYPE_MASK = 3 ->
  (length name < 256)%nat -> length port = 2%nat ->
  parse_target atyp b =
  if is_blocked name then Some (Ret None [CloseServer]) else
  match cork_ip_init (c_text name) with
  | Some (IPv4 _) => Some (Go (Direct (SockIn (dns_pton (c_text name)) (be_val port)), 2 + Z.of_nat (length name)))
  | Some (IPv6 _) => Some (Go (Direct (SockIn6 (dns_pton (c_text name)) (be_val port)), 2 + Z.of_nat (length name)))
  | None =>
      if valid_name name then Some (Go (Lookup (c_text name) (be_val port), 2 + Z.of_nat (length name)))
      else Some (Ret None [Report MALFORMED; CloseServer])
  end.
Proof.
  intros Hb Ha Hn Hp. pose proof Hb as (Hlen & _).
  destruct (header_reads b [atyp; Z.of_nat (length name)] name port rest Hb Hp) as [H1' H2'].
  change (Z.of_nat (length [atyp; Z.of_nat (length name)])) with 2 in H1', H2'.
  unfold Relay.parse_target. rewrite Ha. change (3 =? 1) with false. change (3 =? 3) with true. cbn match.
  rewrite (holds_byte b [atyp] (Z.of_nat (length name)) ((name ++ port) ++ rest) 1 Hb eq_refl). cbn [mbind option_bind].
  rewrite (proj2 (Z.leb_le _ _)) by (rewrite Hlen; cbn [length app]; rewrite !length_app; lia).
  rewrite H1'. cbn [mbind option_bind].
  destruct (host_array name 257 Hn eq_refl) as (z & -> & Hc). cbn [mbind option_bind]. rewrite Hc. cbn [mbind option_bind].
  fold (is_blocked name). destruct (is_blocked name); [done|].
  rewrite H2'. cbn [mbind option_bind].
  rewrite validate_hostname_decides. cbn [mbind option_bind].
  destruct (cork_ip_init (c_text name)) as [[]|]; [done..|]. by destruct (valid_name name).
Qed.

(** The same for an address of [n] bytes. *)
Lemma parse_address b atyp addr port rest n :
  holds b ((atyp :: addr ++ port) ++ rest) -> length addr = n -> length port = 2%nat ->
  (Z.land atyp ADDRTYPE_MASK = 1 -> n = 4%nat ->
     parse_target atyp b = Some (Go (Direct (SockIn addr (be_val port)), 5))) /\
  (Z.land atyp ADDRTYPE_MASK = 4 -> n = 16%nat ->
     parse_target atyp b = Some (Go (Direct (SockIn6 addr (be_val port)), 17))).
Proof.
  intros Hb Hl Hp. pose proof Hb as (Hlen & _). destruct (header_reads b [atyp] addr port rest Hb Hp) as [H1' H2'].
  rewrite Hl in *. cbn [length app] in Hlen. rewrite !length_app in Hlen.
  unfold Relay.parse_target. split; intros Ha ->; rewrite Ha.
  - change (1 =? 1) with true. cbn match. rewrite (proj2 (Z.leb_le _ _)) by lia.
    change (Z.of_nat (length [atyp])) with 1 in *. change (Z.of_nat 4) with 4 in *. rewrite H1'. cbn [mbind option_bind].
    change (1 + 4) with 5 in H2'. by rewrite H2'.
  - change (4 =? 1) with false. change (4 =? 3) with false. change (4 =? 4) with true. cbn match. rewrite (proj2 (Z.leb_le _ _)) by lia.
    change (Z.of_nat (length [atyp])) with 1 in *. change (Z.of_nat 16) with 16 in *. rewrite H1'. cbn [mbind option_bind].
    change (1 + 16) with 17 in H2'. by rewrite H2'.
Qed.

(** A header in front of anything is parsed to its target. *)
Lemma parse_target_complete b hdr rest t :
  holds b (hdr ++ rest) -> request_header hdr t ->
  exists atyp, head hdr = Some atyp /\
    parse_target atyp b = (if blocked hdr then Some (Ret None [CloseServer]) else Some (Go (t, Z.of_nat (length hdr) - 2))).
Proof.
  intros Hb Ht. assert (forall atyp name port, blocked (atyp :: Z.of_nat (length name) :: name ++ port) =
    (Z.land atyp ADDRTYPE_MASK =? 3) && (length port =? 2)%nat && is_blocked name \/ length port <> 2%nat) as Hbl.
  { intros atyp name port. destruct (decide (length port = 2%nat)) as [Hp|]; [left|by right]. unfold blocked, is_blocked.
    rewrite Hp, length_app, Hp, Nat.eqb_refl, andb_true_r. replace (length name + 2 - 2)%nat with (length name) by lia.
    rewrite take_app_length. destruct acl_lists; [done|by rewrite andb_false_r]. }
  destruct Ht as [atyp addr port Ha Hl Hp|atyp addr port Ha Hl Hp|atyp name port Ha Hp Hc Hv|atyp name port x Ha Hn Hp Hc|atyp name port x Ha Hn Hp Hc];
    exists atyp; (split; [done|]).
  - rewrite (proj1 (parse_address b atyp addr port rest 4 Hb Hl Hp) Ha eq_refl).
    cbn [length]. rewrite length_app, Hl, Hp. unfold blocked. destruct (addr ++ port), acl_lists; by rewrite ?Ha.
  - rewrite (proj2 (parse_address b atyp addr port rest 16 Hb Hl Hp) Ha eq_refl).
    cbn [length]. rewrite length_app, Hl, Hp. unfold blocked. destruct (addr ++ port), acl_lists; by rewrite ?Ha.
  - apply valid_name_length in Hv as Hn. destruct (Hbl atyp name port) as [->|]; [|done].
    rewrite (parse_name b atyp name port rest Hb Ha) by (done || lia). rewrite valid_name_text, Hc, Hv, Ha, Hp by done.
    cbn. destruct (is_blocked name); [done|]. do 4 f_equal. rewrite length_app. lia.
  - destruct (Hbl atyp name port) as [->|]; [|done].
    rewrite (parse_name b atyp name port rest Hb Ha) by (done || lia). rewrite Hc, Ha, Hp. cbn.
    destruct (is_blocked name); [done|]. do 4 f_equal. rewrite length_app. lia.
  - destruct (Hbl atyp name port) as [->|]; [|done].
    rewrite (parse_name b atyp name port rest Hb Ha) by (done || lia). rewrite Hc, Ha, Hp. cbn.
    destruct (is_blocked name); [done|]. do 4 f_equal. rewrite length_app. lia.
Qed.

Ltac refused := unfold malformed; eexists; split; [reflexivity|]; split; [done|]; (by left) || (by right).

(** Whatever the data, parsing returns; a target comes from a header in front. *)
Lemma parse_target_sound b atyp plain :
  holds b (atyp :: plain) -> is_bytes (atyp :: plain) -> plain <> [] ->
  exists x, parse_target atyp b = Some x /\
    match x with
    | Go (t, offset) => exists hdr rest, atyp :: plain = hdr ++ rest /\ Z.of_nat (length hdr) = offset + 2 /\
        request_header hdr t /\ blocked hdr = false /\ head hdr = Some atyp
    | Ret o es => o = None /\ (es = [CloseServer] \/ es = [Report MALFORMED; CloseServer])
    end.
Proof.
  intros Hb Hby Hne. pose proof Hb as (Hlen & _). cbn [length] in Hlen.
  assert (forall hdr rest t, atyp :: plain = hdr ++ rest -> request_header hdr t -> exists x, parse_target atyp b = Some x /\
    match x with
    | Go (t, offset) => exists hdr rest, atyp :: plain = hdr ++ rest /\ Z.of_nat (length hdr) = offset + 2 /\
        request_header hdr t /\ blocked hdr = false /\ head hdr = Some atyp
    | Ret o es => o = None /\ (es = [CloseServer] \/ es = [Report MALFORMED; CloseServer])
    end) as Hgood.
  { intros hdr rest t E Ht. rewrite E in Hb. destruct (parse_target_complete b hdr rest t Hb Ht) as (at_ & Hh & Hp).
    assert (at_ = atyp) as -> by (destruct hdr; cbn in *; congruence). rewrite Hp.
    destruct (blocked hdr) eqn:Ebl; [refused|]. eexists. split; [done|]. exists hdr, rest. split_and!; [done|lia|done..]. }
  apply Forall_cons in Hby as [_ Hby].
  destruct (decide (Z.land atyp ADDRTYPE_MASK = 1)) as [H1'|H1'].
  { unfold Relay.parse_target in Hgood |- *. rewrite H1', Hlen in *. change (1 =? 1) with true in *. cbn match in *.
    destruct (7 <=? _) eqn:E; zify_bool; [|refused].
    destruct (split_block plain 4) as (addr & q & -> & Hl); [lia|]. rewrite length_app in E.
    destruct (split_block q 2) as (port & rest & -> & Hp); [lia|].
    apply (Hgood (atyp :: addr ++ port) rest (Direct (SockIn addr (be_val port)))); [list_assoc|by constructor]. }
  destruct (decide (Z.land atyp ADDRTYPE_MASK = 4)) as [H4|H4].
  { unfold Relay.parse_target in Hgood |- *. rewrite H4, Hlen in *. change (4 =? 1) with false in *. change (4 =? 3) with false in *.
    change (4 =? 4) with true in *. cbn match in *.
    destruct (19 <=? _) eqn:E; zify_bool; [|refused].
    destruct (split_block plain 16) as (addr & q & -> & Hl); [lia|]. rewrite length_app in E.
    destruct (split_block q 2) as (port & rest & -> & Hp); [lia|].
    apply (Hgood (atyp :: addr ++ port) rest (Direct (SockIn6 addr (be_val port)))); [list_assoc|by constructor]. }
  destruct (decide (Z.land atyp ADDRTYPE_MASK = 3)) as [H3|H3].
  2: { unfold Relay.parse_target. rewrite (proj2 (Z.eqb_neq _ 1) H1'), (proj2 (Z.eqb_neq _ 3) H3), (proj2 (Z.eqb_neq _ 4) H4).
       refused. }
  destruct plain as [|n plain]; [done|]. apply Forall_cons in Hby as [Hn Hby].
  destruct (decide (n + 4 <= len b)) as [Hroom|Hroom].
  2: { unfold Relay.parse_target. rewrite H3. change (3 =? 1) with false. change (3 =? 3) with true. cbn match.
       rewrite (holds_byte b [atyp] n plain 1 Hb eq_refl). cbn [mbind option_bind]. rewrite (proj2 (Z.leb_gt _ _)) by lia.
       refused. }
  cbn [length] in Hlen. destruct (split_block plain (Z.to_nat n)) as (name & q & -> & Hl); [lia|]. rewrite length_app in Hlen.
  destruct (split_block q 2) as (port & rest & -> & Hp); [lia|].
  assert (n = Z.of_nat (length name)) as -> by lia.
  assert (atyp :: Z.of_nat (length name) :: name ++ port ++ rest = (atyp :: Z.of_nat (length name) :: name ++ port) ++ rest) as E by list_assoc.
  rewrite E in *. pose proof (parse_name b atyp name port rest Hb H3 ltac:(lia) Hp) as Hpn.
  destruct (is_blocked name) eqn:Ebl; [rewrite Hpn; refused|].
  destruct (cork_ip_init (c_text name)) as [[x|x]|] eqn:Ec.
  - eapply Hgood; [done|]. by econstructor; [|lia| |].
  - eapply Hgood; [done|]. by eapply Req_name6; [|lia| |].
  - destruct (valid_name name) eqn:Ev; [|rewrite Hpn; refused].
    eapply Hgood; [done|]. constructor; [done..| |done]. by rewrite valid_name_text in Ec.
Qed.

End Requests.

(** What is asked for is read off the front of the data. *)
Lemma request_unique {S R : Type} `{IpSet S} `{Pcre R} dns_pton cork_ip_init hdr t hdr' t' r r' :
  request_header dns_pton cork_ip_init hdr t -> request_header dns_pton cork_ip_init hdr' t' ->
  hdr ++ r = hdr' ++ r' -> Z.of_nat (length (hdr ++ r)) < 2 ^ 30 -> hdr = hdr' /\ r = r' /\ t = t'.
Proof.
  intros Ht Ht' E Hs. set (b := mkBuf (hdr ++ r) (Z.of_nat (length (hdr ++ r)))).
  assert (holds b (hdr ++ r)) as Hb by (split_and!; [done|by exists []; rewrite app_nil_r|done]).
  destruct (parse_target_complete (CE := unit) (CD := unit) (OS := unit) (PS := unit) dns_pton cork_ip_init (None : option (@acl S R)) b hdr r t Hb Ht) as (a & Ha & Hp).
  rewrite E in Hb.
  destruct (parse_target_complete (CE := unit) (CD := unit) (OS := unit) (PS := unit) dns_pton cork_ip_init (None : option (@acl S R)) b hdr' r' t' Hb Ht') as (a' & Ha' & Hp').
  assert (a' = a) as -> by (destruct hdr, hdr'; cbn in *; congruence). rewrite Hp in Hp'.
  assert (forall h, blocked cork_ip_init (None : option (@acl S R)) h = false) as Hn by (by intros [|? []]). rewrite !Hn in Hp'.
  injection Hp' as -> Hl. apply app_inj_1 in E as [-> ->]; [done|lia].
Qed.

End Relay.
