(* ===== verification/Session.v ===== *)
(** * Session: a connection of the server from accept to close

    What src/server/server.c promises about a connection, proved of the callbacks of
    Relay.v for any sequence of events the event loop can deliver: to whom the
    connection talks is what the decrypted header says, the remote gets the
    decrypted (and authenticated) data behind the header in order and without
    gaps, the client gets the encrypted answers, and no buffer is overrun unless
    a header came in pieces. *)

From S2P Require Import Prelude Libc Acl Ota Relay.

Import Libc Acl Ota Relay.

#[local] Arguments Z.eqb : simpl never.
#[local] Arguments Z.leb : simpl never.
#[local] Arguments Z.ltb : simpl never.

Module Session.

(** A buffer of a connection. *)
Definition room (b : buffer_t) : Prop := BUF_SIZE <= Z.of_nat (length (array b)) < 2 ^ 29.

(** What a connection relies on in a stream cipher: encryption and decryption of
    the two directions as functions on the bytes so far. *)
Class CipherLaws (CE CD : Type) `{Cipher CE CD} (enc_iv_len : Z) := {
  enc : CE -> list Z -> option (list Z * CE);
  dec : CD -> list Z -> option (list Z * CD);
  enc_app e a b c e1 : enc e a = Some (c, e1) -> enc e (a ++ b) = ('(d, e2) ← enc e1 b; Some (c ++ d, e2));
  enc_prefix e a b : is_Some (enc e (a ++ b)) -> is_Some (enc e a);
  dec_app d a b p d1 : dec d a = Some (p, d1) -> dec d (a ++ b) = ('(q, d2) ← dec d1 b; Some (p ++ q, d2));
  dec_prefix d a b : is_Some (dec d (a ++ b)) -> enc_iv_len <= Z.of_nat (length a) -> is_Some (dec d a);
  dec_data d w p d' : dec d w = Some (p, d') ->
    is_bytes p /\ Z.of_nat (length w) - enc_iv_len <= Z.of_nat (length p) <= Z.of_nat (length w);
  dec_iv d w p d1 : dec d w = Some (p, d1) -> exists iv, evp_iv d1 = Some iv /\ IvFits enc_iv_len iv;
  dec_same_iv d w p d1 x q d2 : dec d w = Some (p, d1) -> dec d1 x = Some (q, d2) -> evp_iv d2 = evp_iv d1;
  encrypt_buffer e b m c e' :
    enc e m = Some (c, e') -> holds b m -> room b -> Z.of_nat (length m) <= BUF_SIZE ->
    exists b', ss_encrypt e b = Some (0, b', e') /\ holds b' c /\ room b';
  decrypt_buffer d b w p d' :
    dec d w = Some (p, d') -> holds b w -> room b -> Z.of_nat (length w) <= BUF_SIZE ->
    exists b', ss_decrypt d b = Some (0, b', d') /\ holds b' p /\ room b' }.

Class IvLen (enc_iv_len : Z) := { iv_len_range : 0 <= enc_iv_len <= 16 }.
Class MallocLaws (malloc : Z -> list Z) := { malloc_length n : 0 <= n -> Z.of_nat (length (malloc n)) = n }.

(** ** What was done to the outside *)

Definition to_remote (es : list effect) : list Z := concat (map (fun e => match e with ToRemote b => b | _ => [] end) es).
Definition to_client (es : list effect) : list Z := concat (map (fun e => match e with ToClient b => b | _ => [] end) es).
(** The peers contacted: addresses connected to and names looked up. *)
Definition contacts (es : list effect) : list target :=
  omap (fun e => match e with Connect a => Some (Direct a) | Resolve h p => Some (Lookup h p) | _ => None end) es.

Definition client_data (ev : event) : list Z := match ev with Client_readable (Data bs) _ _ => bs | _ => [] end.
Definition remote_data (ev : event) : list Z := match ev with Remote_readable (Data bs) _ => bs | _ => [] end.

Lemma to_remote_app a b : to_remote (a ++ b) = to_remote a ++ to_remote b.
Proof. unfold to_remote. by rewrite map_app, concat_app. Qed.
Lemma to_client_app a b : to_client (a ++ b) = to_client a ++ to_client b.
Proof. unfold to_client. by rewrite map_app, concat_app. Qed.
Lemma contacts_app a b : contacts (a ++ b) = contacts a ++ contacts b.
Proof. unfold contacts. apply omap_app. Qed.

(** ** Buffers *)

(** [recv] behind what a buffer holds. *)
Lemma recv_into b x bs n :
  holds b x -> room b -> n = Z.of_nat (length x) -> Z.of_nat (length x) + Z.of_nat (length bs) <= BUF_SIZE ->
  exists a, mwrite (array b) n bs = Some a /\ holds (mkBuf a (n + Z.of_nat (length bs))) (x ++ bs) /\ room (mkBuf a (n + Z.of_nat (length bs))).
Proof.
  intros (Hl & [r Hr] & Hs) Hroom -> Hn. unfold room in *. rewrite Hr in *. rewrite length_app in *.
  destruct (split_block r (length bs)) as (r1 & r2 & -> & H1); [lia|].
  rewrite mwrite_app by done. eexists. split; [done|]. rewrite !length_app in *. split; [split_and!; cbn [len array]|cbn [array]].
  - rewrite length_app. lia.
  - exists r2. list_assoc.
  - rewrite !length_app. lia.
  - rewrite !length_app. lia.
Qed.

Lemma holds_nil b : room b -> holds (mkBuf (array b) 0) [].
Proof. intros Hr. unfold room in Hr. split_and!; cbn; [done|apply prefix_nil|lia]. Qed.
Lemma room_len b n : room b -> room (mkBuf (array b) n).
Proof. done. Qed.

(** What is left to be sent of a buffer. *)
Definition pending (b : buffer_t) (i : Z) (p : list Z) : Prop :=
  exists a r, array b = a ++ p ++ r /\ i = Z.of_nat (length a) /\ len b = Z.of_nat (length p) /\ room b.

Lemma pending_read b i p : pending b i p -> mread (array b) i (len b) = Some p.
Proof.
  intros (a & r & Ha & -> & -> & Hr). unfold room in Hr. rewrite Ha in *. rewrite !length_app in Hr.
  apply mread_app; [done|done|lia].
Qed.
Lemma holds_pending b p : holds b p -> room b -> pending b 0 p.
Proof. intros (Hl & [r Hr] & _) Hroom. by exists [], r. Qed.
Lemma pending_rest b i p n :
  pending b i p -> 0 <= n < len b -> pending (mkBuf (array b) (len b - n)) (i + n) (drop (Z.to_nat n) p).
Proof.
  intros (a & r & Ha & -> & Hl & Hr) Hn. exists (a ++ take (Z.to_nat n) p), r. cbn [array len].
  rewrite length_app, length_take, length_drop. split_and!; [|lia|lia|done].
  rewrite Ha, <- app_assoc. f_equal. by rewrite app_assoc, take_drop.
Qed.

(** ** The link between client and remote

    What a connection is, as a function of the bytes received from both sides and
    of what it did so far. *)
Section Link.
Context {CE CD OS PS S R : Type} `{Cipher CE CD} `{IpSet S} `{Pcre R}.
Context (realloc : list Z -> Z -> list Z) (malloc : Z -> list Z) (hmac : list Z -> list Z -> list Z).
Context (dns_ntop : sockaddr -> list Z) (dns_pton : list Z -> list Z) (cork_ip_init : list Z -> option cork_ip).
Context (signed_char : bool) (enc_iv_len : Z) (enc_key : list Z).
Context (auth_on obfs_compatible protocol_compatible : bool) (acl_lists : option (@acl S R)).
Context {RL : ReallocLaws realloc} {ML : MallocLaws malloc} {HL : HmacLaws hmac} {CL : CipherLaws CE CD enc_iv_len} {IL : IvLen enc_iv_len}.
Context (e0 : CE) (d0 : CD).

Notation server_t := (server_t CE CD OS PS).
Notation handle := (handle realloc malloc hmac dns_ntop dns_pton cork_ip_init signed_char enc_iv_len enc_key auth_on
  obfs_compatible protocol_compatible acl_lists).
Notation request_header := (request_header dns_pton cork_ip_init).
Notation blocked := (blocked cork_ip_init acl_lists).
Implicit Types s : server_t.

(** Whether the connection is authenticated: the global, or the flag. *)
Definition ota_of (hdr : list Z) : bool :=
  auth_on || match hdr with atyp :: _ => negb (Z.land atyp ONETIMEAUTH_FLAG =? 0) | [] => false end.

(** The decrypted bytes open with a header that asks for [t], with its MAC if the
    connection is authenticated; [tail] is behind it. *)
Inductive opening (iv plain : list Z) (t : target) (ota : bool) (tail : list Z) : Prop :=
| opening_intro hdr :
    request_header hdr t -> blocked hdr = false -> ota = ota_of hdr ->
    plain = hdr ++ (if ota then header_mac hmac enc_iv_len enc_key iv hdr else []) ++ tail ->
    opening iv plain t ota tail.

(** The data behind the header, out of their chunks if the connection is
    authenticated; nothing if a chunk has a wrong MAC. *)
Definition body (iv : list Z) (ota : bool) (tail : list Z) : option (list Z) :=
  if ota then fst <$> feed hmac enc_iv_len iv ([], 0) tail else Some tail.

Definition chunk0 : chunk_t := mkChunk 0 0 0 (mkBuf [] 0).

(** The connection is past its header: [out] is the data so far. *)
Definition started s (plain : list Z) (t : target) (out : list Z) : Prop :=
  exists iv tail, opening iv plain t (auth s) tail /\ evp_iv (d_ctx s) = Some iv /\ IvFits enc_iv_len iv /\
    if auth s then exists st, feed hmac enc_iv_len iv ([], 0) tail = Some (out, st) /\ receiver_at st (chunk s)
    else out = tail.

Definition decrypted s (rx plain : list Z) : Prop := enc_iv_len <= Z.of_nat (length rx) /\ dec d0 rx = Some (plain, d_ctx s).
Definition encrypted s (rr c : list Z) : Prop := rr = [] /\ c = [] /\ e_ctx s = e0 \/ enc e0 rr = Some (c, e_ctx s).

(** Nothing was sent, nobody contacted. *)
Definition quiet (es : list effect) : Prop := to_remote es = [] /\ to_client es = [] /\ contacts es = [].

(** Before there is a remote. *)
Definition alone s : Prop := remote s = None /\ send_io s = false /\ e_ctx s = e0 /\ s_idx s = 0.

(** Data for the remote wait in its buffer and the client is not read, or the
    other way round. *)
Inductive up_link s (r : remote_t) : list Z -> Prop :=
| Up_wait p : r_send_io r = true -> recv_io s = false -> pending (r_buf r) (r_idx r) p -> up_link s r p
| Up_idle : r_send_io r = false -> recv_io s = true -> stage s = STAGE_STREAM -> room (r_buf r) -> up_link s r [].

(** The same for the client, once the stream has begun. *)
Inductive down_link s (r : remote_t) : list Z -> Prop :=
| Down_off : stage s = STAGE_PARSE \/ stage s = STAGE_RESOLVE -> r_recv_io r = false -> send_io s = false ->
    r_send_io r = true -> room (buf s) -> down_link s r []
| Down_wait p : stage s = STAGE_STREAM -> r_recv_io r = false -> send_io s = true -> pending (buf s) (s_idx s) p ->
    down_link s r p
| Down_idle : stage s = STAGE_STREAM -> r_recv_io r = true -> send_io s = false -> room (buf s) -> down_link s r [].

Record linked (rx rr : list Z) (es : list effect) s (r : remote_t) (plain : list Z) (t : target) (out up down : list Z) : Prop := {
  l_remote : remote s = Some r;
  l_query : query s = None;
  l_connected : stage s = STAGE_STREAM -> send_connected r = true;
  l_decrypted : decrypted s rx plain;
  l_started : started s plain t out;
  l_contact : head (contacts es) = Some t;
  l_up : up_link s r up;
  l_out : to_remote es ++ up = out;
  l_down : down_link s r down;
  l_encrypted : encrypted s rr (to_client es ++ down) }.

Inductive link (rx rr : list Z) (es : list effect) s : Prop :=
| Link_init hb :
    stage s = STAGE_INIT -> alone s -> query s = None -> recv_io s = true -> auth s = false -> chunk s = chunk0 ->
    holds (buf s) rx -> room (buf s) -> Z.of_nat (length rx) <= enc_iv_len + 1 ->
    header_buf s = Some hb -> holds hb [] -> d_ctx s = d0 -> rr = [] -> quiet es -> link rx rr es s
| Link_handshake plain hb :
    stage s = STAGE_HANDSHAKE -> alone s -> query s = None -> recv_io s = true -> auth s = false -> chunk s = chunk0 ->
    len (buf s) = 0 -> room (buf s) -> header_buf s = Some hb -> holds hb plain ->
    decrypted s rx plain -> rr = [] -> quiet es -> link rx rr es s
| Link_error :
    stage s = STAGE_ERROR -> alone s -> query s = None -> recv_io s = true -> len (buf s) = 0 -> room (buf s) ->
    rr = [] -> quiet es -> link rx rr es s
| Link_resolving plain out host port :
    stage s = STAGE_RESOLVE -> alone s -> query s = Some (host, port) -> recv_io s = false ->
    decrypted s rx plain -> started s plain (Lookup host port) out -> holds (buf s) out -> room (buf s) ->
    rr = [] -> to_remote es = [] -> to_client es = [] -> contacts es = [Lookup host port] -> link rx rr es s
| Link_remote r plain t out up down : linked rx rr es s r plain t out up down -> link rx rr es s.

(** No plugin is configured. *)
Definition bare s : Prop := obfs s = None /\ protocol s = None.

(** What a callback makes of a connection: it is linked to what was received, or
    closed with its remote. *)
Definition outcome (rx rr : list Z) (es : list effect) s (x : option (option server_t * list effect)) : Prop :=
  match x with
  | Some (Some s', es') => bare s' /\ link rx rr (es ++ es') s'
  | Some (None, es') => CloseServer ∈ es' /\ (is_Some (remote s) -> CloseRemote ∈ es')
  | None => False
  end.

Lemma outcome_closed rx rr es s es' :
  CloseServer ∈ es' -> (is_Some (remote s) -> CloseRemote ∈ es') -> outcome rx rr es s (Some (None, es')).
Proof. done. Qed.

Lemma head_app_some {A} (l k : list A) x : head l = Some x -> head (l ++ k) = Some x.
Proof. by destruct l. Qed.

Lemma started_same s s' plain t out :
  auth s' = auth s -> d_ctx s' = d_ctx s -> chunk s' = chunk s -> started s plain t out -> started s' plain t out.
Proof. intros Ha Hd Hc Hs. unfold started in *. by rewrite Ha, Hd, Hc. Qed.

Lemma link_remote_inv rx rr es s r :
  link rx rr es s -> remote s = Some r -> exists plain t out up down, linked rx rr es s r plain t out up down.
Proof.
  intros Hl Hr. inversion Hl as [? ? (Hn & _)|? ? ? (Hn & _)|? (Hn & _)|? ? ? ? ? (Hn & _)|r' plain t out up down L]; try congruence.
  pose proof (l_remote _ _ _ _ _ _ _ _ _ _ L). simplify_eq. eauto 10.
Qed.
Lemma link_sending rx rr es s : link rx rr es s -> send_io s = true -> exists r, remote s = Some r.
Proof.
  intros Hl Hio. inversion Hl as [? ? (_ & Hn & _)|? ? ? (_ & Hn & _)|? (_ & Hn & _)|? ? ? ? ? (_ & Hn & _)|r' plain t out up down L]; try congruence.
  exists r'. apply L.
Qed.

(** Only the side of the client changed. *)
Lemma relink_down rx rr rr' es es' s s' r r' plain t out up down down' :
  linked rx rr es s r plain t out up down ->
  remote s' = Some r' -> query s' = query s -> stage s' = stage s -> recv_io s' = recv_io s ->
  auth s' = auth s -> d_ctx s' = d_ctx s -> chunk s' = chunk s ->
  send_connected r' = send_connected r -> r_send_io r' = r_send_io r -> r_buf r' = r_buf r -> r_idx r' = r_idx r ->
  to_remote es' = [] -> down_link s' r' down' -> encrypted s' (rr ++ rr') (to_client (es ++ es') ++ down') ->
  linked rx (rr ++ rr') (es ++ es') s' r' plain t out up down'.
Proof.
  intros [] Hr Hq Hst Hio Ha Hd Hc Hsc Hsi Hb Hi Hto Hdown Henc. constructor; [done|congruence| | | | | | |done|done].
  - rewrite Hsc, Hst. done.
  - destruct l_decrypted0. split; [done|congruence].
  - by eapply started_same.
  - rewrite contacts_app. by apply head_app_some.
  - destruct l_up0; [apply Up_wait|apply Up_idle]; rewrite ?Hb, ?Hi; congruence.
  - by rewrite to_remote_app, Hto, app_nil_r.
Qed.

Lemma client_writable_ok rx rr es s snd :
  bare s -> link rx rr es s -> send_io s = true -> (forall n, snd = Sent n -> 0 <= n) ->
  outcome rx rr es s (server_send_cb snd s).
Proof.
  intros Hb Hl Hio Hsnd. destruct (link_sending _ _ _ _ Hl Hio) as [r Hr].
  destruct (link_remote_inv _ _ _ _ _ Hl Hr) as (plain & t & out & up & down & L).
  pose proof (l_down _ _ _ _ _ _ _ _ _ _ L) as Hdown. pose proof (l_encrypted _ _ _ _ _ _ _ _ _ _ L) as Henc.
  inversion Hdown as [|p Hs Hri _ Hp|]; subst; try congruence. unfold server_send_cb. rewrite Hr.
  destruct (len (buf s) =? 0) eqn:E; zify_bool; [split; [by right; left|by left]|].
  rewrite (pending_read _ _ _ Hp). cbn [mbind option_bind]. destruct snd as [n| |].
  - specialize (Hsnd n eq_refl). cbn [outcome]. destruct (n <? len (buf s)) eqn:En; zify_bool; (split; [exact Hb|]);
      rewrite <- (app_nil_r rr); eapply Link_remote.
    + eapply (relink_down _ _ _ _ _ _ _ _ _ _ _ _ _ _ (drop (Z.to_nat n) down) L); try done.
      * apply Down_wait; [done..|]. by apply pending_rest.
      * rewrite app_nil_r, to_client_app, <- app_assoc. unfold to_client at 2. cbn. by rewrite app_nil_r, take_drop.
    + eapply (relink_down _ _ _ _ _ _ _ _ _ _ _ _ _ _ [] L); try done.
      * apply Down_idle; [done..|]. by destruct Hp as (?&?&?&?&?&?).
      * rewrite app_nil_r, app_nil_r, to_client_app. unfold to_client at 2. cbn. rewrite app_nil_r, take_ge; [done|].
        destruct Hp as (?&?&?&?&?&?). lia.
  - split; [done|]. rewrite app_nil_r. by eapply Link_remote.
  - split; [by right; left|by left].
Qed.

Lemma encrypt_next s rr c bs :
  encrypted s rr c -> is_Some (enc e0 (rr ++ bs)) ->
  exists d e, enc (e_ctx s) bs = Some (d, e) /\ enc e0 (rr ++ bs) = Some (c ++ d, e).
Proof.
  intros [(-> & -> & ->)|He] [[d e] Hs]; [by exists d, e|]. pose proof (enc_app _ _ bs _ _ He) as Ha. rewrite Hs in Ha.
  destruct (enc (e_ctx s) bs) as [[d' e']|]; [|done]. cbn [mbind option_bind] in Ha. injection Ha as -> ->. eauto.
Qed.

Lemma remote_readable_ok rx rr es s r rcv snd :
  bare s -> link rx rr es s -> remote s = Some r -> r_recv_io r = true -> (forall n, snd = Sent n -> 0 <= n) ->
  (forall bs, rcv = Data bs -> Z.of_nat (length bs) <= BUF_SIZE /\ is_Some (enc e0 (rr ++ bs))) ->
  outcome rx (rr ++ remote_data (Remote_readable rcv snd)) es s (remote_recv_cb signed_char rcv snd s).
Proof.
  intros [Ho Hpl] Hl Hr Hio Hsnd Hrcv. destruct (link_remote_inv _ _ _ _ _ Hl Hr) as (plain & t & out & up & down & L).
  pose proof (l_down _ _ _ _ _ _ _ _ _ _ L) as Hdown. pose proof (l_encrypted _ _ _ _ _ _ _ _ _ _ L) as Henc.
  inversion Hdown as [| |Hs Hri Hsi Hroom]; subst; try congruence. rewrite app_nil_r in Henc.
  unfold remote_recv_cb. rewrite Hr. cbn [mbind option_bind remote_data].
  destruct rcv as [bs| | |]; try (split; [by right; left|by left]); [|rewrite app_nil_r; split; [done|]; rewrite app_nil_r; by eapply Link_remote].
  destruct (Hrcv bs eq_refl) as [Hbs Hen]. destruct (encrypt_next _ _ _ _ Henc Hen) as (d & e' & He & Ht).
  destruct (recv_into (mkBuf (array (buf s)) 0) [] bs 0 (holds_nil _ Hroom)) as (a & Ha & Hh & Hra); [done|done|cbn; lia|].
  cbn [array] in Ha. rewrite Ha. cbn [mbind option_bind]. unfold encode. rewrite Ho. cbn [mbind option_bind]. rewrite Hpl. cbn [mbind option_bind].
  rewrite Z.add_0_l in Hh, Hra. destruct (encrypt_buffer _ _ _ _ _ He Hh Hra Hbs) as (b & -> & Hb & Hrb).
  cbn [mbind option_bind]. change (negb (0 =? 0)) with false. cbn match.
  change (obfs (set_e_ctx e' s)) with (obfs s). rewrite Ho. cbn [mbind option_bind].
  rewrite (holds_mread _ _ Hb). cbn [mbind option_bind]. pose proof Hb as (Hlen & _).
  assert (forall m, 0 <= m -> to_client (es ++ [Rx (Z.of_nat (length bs)); ToClient (take (Z.to_nat m) d)]) = to_client es ++ take (Z.to_nat m) d) as Hcl.
  { intros m _. rewrite to_client_app. unfold to_client at 2. cbn. by rewrite app_nil_r. }
  assert (to_client (es ++ [Rx (Z.of_nat (length bs))]) = to_client es) as Hcl0.
  { rewrite to_client_app. unfold to_client at 2. cbn. by rewrite app_nil_r. }
  destruct snd as [m| |]; [specialize (Hsnd m eq_refl); cbn [outcome]; destruct (m <? len b) eqn:Em; zify_bool| |].
  - split; [done|]. eapply Link_remote, (relink_down _ _ _ _ _ _ _ _ _ _ _ _ _ _ (drop (Z.to_nat m) d) L); try done.
    + apply Down_wait; [done..|]. apply (pending_rest b 0 d m); [by apply holds_pending|lia].
    + rewrite Hcl, <- app_assoc, take_drop by done. by right.
  - split; [done|]. eapply Link_remote, (relink_down _ _ _ _ _ _ _ _ _ _ _ _ _ _ [] L); try done.
    + by apply Down_idle.
    + rewrite Hcl, take_ge, app_nil_r by (done || lia). by right.
  - split; [done|]. eapply Link_remote, (relink_down _ _ _ _ _ _ _ _ _ _ _ _ _ _ d L); try done.
    + apply Down_wait; [done..|]. by apply holds_pending.
    + rewrite Hcl0. by right.
  - split; [by right; right; left|intros _; by right; left].
Qed.

(** Only the side of the remote changed. *)
Lemma relink_up rx rr es es' s s' r r' plain t out up up' down :
  linked rx rr es s r plain t out up down ->
  remote s' = Some r' -> query s' = query s -> e_ctx s' = e_ctx s ->
  auth s' = auth s -> d_ctx s' = d_ctx s -> chunk s' = chunk s ->
  (stage s' = STAGE_STREAM -> send_connected r' = true) ->
  up_link s' r' up' -> to_remote es' ++ up' = up -> down_link s' r' down -> to_client es' = [] ->
  linked rx rr (es ++ es') s' r' plain t out up' down.
Proof.
  intros [] Hr Hq He Ha Hd Hc Hsc Hup Hto Hdown Hcl. constructor; [done|congruence|done| | | |done| |done|].
  - destruct l_decrypted0. split; [done|congruence].
  - by eapply started_same.
  - rewrite contacts_app. by apply head_app_some.
  - by rewrite to_remote_app, <- app_assoc, Hto.
  - rewrite to_client_app, Hcl, app_nil_r. unfold encrypted in *. by rewrite He.
Qed.

Lemma send_rest_ok rx rr es es0 s r snd plain t out up down :
  bare s -> linked rx rr es s r plain t out up down -> r_send_io r = true -> (forall n, snd = Sent n -> 0 <= n) ->
  to_remote es0 = [] -> to_client es0 = [] ->
  outcome rx rr es s (send_rest snd es0 (rset_send_connected true r) s).
Proof.
  intros Hb L Hio Hsnd Hr0 Hc0.
  pose proof (l_down _ _ _ _ _ _ _ _ _ _ L) as Hdown. pose proof (l_up _ _ _ _ _ _ _ _ _ _ L) as Hup.
  inversion Hup as [p _ Hrio Hp|]; subst; [|congruence]. pose proof Hp as (_ & _ & _ & _ & Hlen & Hroom).
  unfold send_rest. cbn [rset_send_connected r_buf r_idx]. rewrite (pending_read _ _ _ Hp). cbn [mbind option_bind].
  assert (forall x, to_remote (es0 ++ [ToRemote x]) = x) as Hto.
  { intros x. rewrite to_remote_app, Hr0. unfold to_remote. cbn. by rewrite app_nil_r. }
  assert (forall x, to_client (es0 ++ [ToRemote x]) = []) as Hcl by (intros x; by rewrite to_client_app, Hc0).
  destruct snd as [n| |]; [specialize (Hsnd n eq_refl); destruct (n <? len (r_buf r)) eqn:En; zify_bool| |].
  - split; [exact Hb|]. eapply Link_remote, (relink_up _ _ _ _ _ _ _ _ _ _ _ _ (drop (Z.to_nat n) up) _ L); try done.
    + apply Up_wait; [done..|]. by apply pending_rest.
    + by rewrite Hto, take_drop.
    + destruct Hdown; [by apply Down_off|by apply Down_wait|by apply Down_idle].
  - change (stage (set_recv_io true s)) with (stage s).
    destruct (Z.eqb_spec (stage s) STAGE_STREAM) as [Es|Es]; (split; [exact Hb|]);
      eapply Link_remote, (relink_up _ _ _ _ _ _ _ _ _ _ _ _ [] _ L); try done.
    + by apply Up_idle.
    + by rewrite Hto, app_nil_r.
    + destruct Hdown as [[Hs|Hs]| |]; [by rewrite Hs in Es..|by apply Down_wait|by apply Down_idle].
    + by apply Up_idle.
    + by rewrite Hto, app_nil_r.
    + destruct Hdown; [by apply Down_idle|congruence..].
  - split; [exact Hb|]. eapply Link_remote, (relink_up _ _ _ _ _ _ _ _ _ _ _ _ up _ L); try done.
    + by apply Up_wait.
    + by rewrite Hr0.
    + destruct Hdown; [by apply Down_off|by apply Down_wait|by apply Down_idle].
  - split; [|intros _]; apply elem_of_app; right; [by right; left|by left].
Qed.

Lemma remote_writable_ok rx rr es s r peer snd :
  bare s -> link rx rr es s -> remote s = Some r -> r_send_io r = true -> (forall n, snd = Sent n -> 0 <= n) ->
  outcome rx rr es s (remote_send_cb peer snd s).
Proof.
  intros Hb Hl Hr Hio Hsnd. destruct (link_remote_inv _ _ _ _ _ Hl Hr) as (plain & t & out & up & down & L).
  unfold remote_send_cb. rewrite Hr. cbn [mbind option_bind].
  destruct (negb (send_connected r)) eqn:Ef; cbn [andb]; [destruct peer; cbn [negb]; [|split; [by right; left|by left]]|].
  all: change (r_buf (rset_send_connected true r)) with (r_buf r).
  all: destruct (len (r_buf r) =? 0) eqn:E0; zify_bool; [try (split; [by right; left|by left])|by eapply send_rest_ok].
  pose proof (l_up _ _ _ _ _ _ _ _ _ _ L) as Hup. pose proof (l_down _ _ _ _ _ _ _ _ _ _ L) as Hdown.
  pose proof (l_connected _ _ _ _ _ _ _ _ _ _ L) as Hconn.
  inversion Hup as [p _ Hrio Hp|]; subst; [|congruence]. pose proof Hp as (_ & _ & _ & _ & Hlen & Hroom).
  split; [exact Hb|]. eapply Link_remote, (relink_up _ _ _ _ _ _ _ _ _ _ _ _ [] _ L); try done.
  - by apply Up_idle.
  - destruct up; [done|cbn in Hlen; lia].
  - destruct Hdown as [|? Hs|Hs]; [by apply Down_idle|..]; by rewrite (Hconn Hs) in Ef.
Qed.

(** A callback that returns nothing where the payload outgrows the remote's buffer. *)
Definition outcome_unless (overflow : Prop) rx rr es s x : Prop := x = None /\ overflow \/ outcome rx rr es s x.

(** ** The remote is created *)

Notation connect_to_remote := (connect_to_remote malloc dns_ntop cork_ip_init acl_lists).
Notation new_remote := (new_remote malloc).

(** Without fast open the connection starts with the buffer as it is. *)
Lemma connect_slow y a s :
  (exists es, connect_to_remote false y a s = Some (None, s, es)) \/
  connect_to_remote false y a s = Some (Some new_remote, s, [Connect a]).
Proof.
  unfold Relay.connect_to_remote. assert (set_idx (s_idx s) (set_buf (buf s) s) = s) as E by by destruct s.
  destruct (match acl_lists with Some _ => _ | None => _ end); [eauto|]. destruct (negb (socket_ok y)); [eauto|].
  destruct (negb (bind_ok y)); [eauto|]. destruct (negb (setinterface_ok y)); [eauto|].
  cbn [mbind option_bind andb]. rewrite E. destruct (connect_ok y); [by right|eauto].
Qed.

(** What the connection holds is the remote's now. *)
Lemma hand_over_ok s out :
  holds (buf s) out -> room (buf s) -> Z.of_nat (length out) <= BUF_SIZE ->
  exists r s', hand_over 0 new_remote s = Some (r, s') /\ pending (r_buf r) (r_idx r) out /\ send_connected r = false /\
    r_recv_io r = false /\ room (buf s') /\ stage s' = stage s /\ query s' = query s /\ recv_io s' = recv_io s /\
    send_io s' = send_io s /\ e_ctx s' = e_ctx s /\ d_ctx s' = d_ctx s /\ auth s' = auth s /\ chunk s' = chunk s /\
    (bare s -> bare s').
Proof.
  intros Hh Hroom Hout. pose proof (malloc_length BUF_SIZE ltac:(done)) as Hm. pose proof Hh as (Hl & _).
  assert (room (mkBuf (malloc BUF_SIZE) 0)) as Hrm by (unfold room; cbn [array]; rewrite Hm; done).
  unfold hand_over. destruct (0 <? len (buf s)) eqn:E; zify_bool.
  - rewrite (holds_mread _ _ Hh). cbn [mbind option_bind new_remote r_buf array].
    destruct (recv_into (mkBuf (malloc BUF_SIZE) 0) [] out 0 (holds_nil _ Hrm) Hrm eq_refl) as (a & Ha & Hh2 & Hr2); [cbn; lia|].
    cbn [array] in Ha. rewrite Ha. cbn [mbind option_bind]. rewrite Z.add_0_l, <- Hl in Hh2, Hr2.
    eexists _, _. split; [done|]. split; [by apply holds_pending|]. by split_and!.
  - eexists _, _. split; [done|]. assert (out = []) as -> by (destruct out; [done|cbn in Hl; lia]).
    split; [by apply (holds_pending _ [] (holds_nil _ Hrm))|]. by split_and!.
Qed.

Lemma hand_over_big s out :
  holds (buf s) out -> BUF_SIZE < Z.of_nat (length out) -> hand_over 0 new_remote s = None.
Proof.
  intros Hh Hbig. unfold hand_over. pose proof Hh as (Hl & _). unfold BUF_SIZE in *.
  rewrite (proj2 (Z.ltb_lt _ _)) by lia. rewrite (holds_mread _ _ Hh). cbn [mbind option_bind].
  assert (mwrite (array (r_buf new_remote)) 0 out = None) as ->; [|done].
  cbn [new_remote r_buf array]. pose proof (malloc_length BUF_SIZE ltac:(done)) as Hm. unfold BUF_SIZE in *. unfold mwrite. rewrite Hm.
  case_bool; [lia|done].
Qed.

Lemma resolved_ok rx rr es s y addr :
  bare s -> link rx rr es s -> is_Some (query s) ->
  outcome_unless (BUF_SIZE < len (buf s)) rx rr es s (server_resolve_cb malloc dns_ntop cork_ip_init acl_lists false y addr s).
Proof.
  intros Hb Hl [q Hq]. inversion Hl as [| | |plain out host port Hst Hal Hq' Hio Hdec Hgo Hh Hroom Hrr Hto Hcl Hct|? ? ? ? ? ? L];
    try congruence. 2: { pose proof (l_query _ _ _ _ _ _ _ _ _ _ L). congruence. }
  subst rr. destruct Hal as (Hr & Hsi & He & Hidx). unfold server_resolve_cb.
  assert (forall es', CloseServer ∈ es' -> outcome rx [] es s (Some (None, es'))) as Hclose.
  { intros es' ?. split; [done|]. rewrite Hr. by intros [? ?]. }
  destruct addr as [a|]; [|right; apply Hclose; by left].
  destruct (connect_slow y a (set_query None s)) as [[es' Ec]|Ec]; rewrite Ec; cbn [mbind option_bind].
  { right. apply Hclose. apply elem_of_app. right. by left. }
  change (s_idx (set_query None s)) with (s_idx s). rewrite Hidx. pose proof Hh as (Hlen & _).
  destruct (decide (BUF_SIZE < Z.of_nat (length out))) as [Hbig|Hsmall].
  { left. rewrite (hand_over_big (set_query None s) out Hh Hbig). split; [done|lia]. }
  destruct (hand_over_ok (set_query None s) out Hh Hroom ltac:(lia)) as
    (r & s' & -> & Hp & Hsc & Hri & Hrm & Hs1 & Hs2 & Hs3 & Hs4 & Hs5 & Hs6 & Hs7 & Hs8 & Hbs). cbn [mbind option_bind].
  right. split; [by apply Hbs|]. eapply (Link_remote _ _ _ _ _ plain _ out out []). constructor; try done.
  - intros Hs. change (stage s' = STAGE_STREAM) in Hs. rewrite Hs1 in Hs. change (stage s = STAGE_STREAM) in Hs. by rewrite Hst in Hs.
  - destruct Hdec as [? Hdec]. split; [done|]. rewrite Hdec. by rewrite <- (Hs6 : d_ctx s' = d_ctx s).
  - by eapply (started_same s).
  - rewrite contacts_app, Hct. done.
  - apply Up_wait; [done| |done]. change (recv_io s' = false). by rewrite Hs3.
  - rewrite to_remote_app, Hto. done.
  - apply Down_off; [right|done| |done|done]; [change (stage s' = STAGE_RESOLVE); by rewrite Hs1|change (send_io s' = false); by rewrite Hs4].
  - left. rewrite to_client_app, Hcl. split_and!; [done|done|]. change (e_ctx s' = e0). by rewrite Hs5.
Qed.

(** ** The request *)

Notation verify_header := (verify_header hmac enc_iv_len enc_key auth_on).
Notation parse_target := (parse_target dns_pton cork_ip_init acl_lists).
Notation check_hash := (check_hash realloc hmac enc_iv_len).
Notation cut_header := (cut_header realloc hmac enc_iv_len).
Notation feed := (feed hmac enc_iv_len).
Notation header_mac := (header_mac hmac enc_iv_len enc_key).

(** Where the byte machine of one-time authentication is. *)
Definition fed_to s (iv tail : list Z) (out : list Z) : Prop :=
  if auth s then exists st, feed iv ([], 0) tail = Some (out, st) /\ receiver_at st (chunk s) else out = tail.

(** [ss_check_hash] on new data. *)
Lemma check_hash_ok s iv tail out b x :
  evp_iv (d_ctx s) = Some iv -> IvFits enc_iv_len iv -> fed_to s iv tail out ->
  holds b x -> room b -> is_bytes x -> Z.of_nat (length x) < 2 ^ 28 ->
  exists ok b' ck, check_hash b s = Some (ok, b', set_chunk ck s) /\
    (ok = true -> exists o, holds b' o /\ room b' /\ fed_to (set_chunk ck s) iv (tail ++ x) (out ++ o)).
Proof.
  intros Hiv Hfit Hfed Hb Hroom Hby Hx. unfold Relay.check_hash, fed_to in *. cbn [auth set_chunk].
  destruct (auth s).
  - destruct Hfed as (st & Hf & Hat). rewrite Hiv. cbn [mbind option_bind].
    destruct (check_hash_feed realloc hmac enc_iv_len iv b (chunk s) BUF_SIZE st x Hat Hb Hby ltac:(done)) as (r & b' & ck & -> & Hr).
    cbn [mbind option_bind]. eexists _, _, ck. split; [done|].
    destruct (feed iv st x) as [[o st']|] eqn:Efd; [|by subst r].
    destruct Hr as (-> & Hl & Hp & _ & Hat' & Hlo & Hhi). intros _. exists o. unfold room, BUF_SIZE in *.
    assert (Z.of_nat (length (array b')) < 2 ^ 29) by lia. split_and!; [split_and!; [done|done|lia]|lia|lia|].
    exists st'. rewrite feed_app, Hf. cbn [mbind option_bind]. by rewrite Efd.
  - exists true, b, (chunk s). split; [by destruct s|]. intros _. exists x. subst. done.
Qed.

Lemma parse_header_len_ok b hdr rest t :
  request_header hdr t -> holds b (hdr ++ rest) -> head hdr <> None /\
  parse_header_len (hd 0 hdr) (array b) 1 = Some (Z.of_nat (length hdr) - 1).
Proof.
  intros Ht Hb. unfold parse_header_len.
  destruct Ht as [atyp addr port Ha Hl Hp|atyp addr port Ha Hl Hp|atyp name port Ha Hp Hc Hv|atyp name port x Ha Hn Hp Hc|atyp name port x Ha Hn Hp Hc];
    cbn [hd]; rewrite Ha; (split; [done|]); change (1 =? 1) with true; change (4 =? 1) with false; change (4 =? 3) with false;
    change (4 =? 4) with true; change (3 =? 1) with false; change (3 =? 3) with true; cbn match; cbn [length].
  1-2: rewrite length_app, Hl, Hp; done.
  all: erewrite (holds_byte b [atyp]) by (exact Hb || done); cbn [mbind option_bind]; rewrite length_app, Hp; f_equal; lia.
Qed.

Lemma verify_header_ok s iv atyp rest :
  evp_iv (d_ctx s) = Some iv -> IvFits enc_iv_len iv -> holds (buf s) (atyp :: rest) -> rest <> [] ->
  is_bytes (atyp :: rest) -> auth s = false ->
  exists x, verify_header atyp s = Some x /\
    match x with
    | Go s' => s' = set_auth (ota_of (atyp :: rest)) s /\
        (ota_of (atyp :: rest) = true -> exists n, parse_header_len atyp (array (buf s)) 1 = Some (Z.of_nat n - 1) /\
          (n + 10 <= length (atyp :: rest))%nat /\ take 10 (drop n (atyp :: rest)) = header_mac iv (take n (atyp :: rest)))
    | Ret o es => o = None /\ CloseServer ∈ es
    end.
Proof.
  intros Hiv Hfit Hb Hne Hby Hau. unfold Relay.verify_header. fold (ota_of (atyp :: rest)).
  change (auth_on || negb (Z.land atyp ONETIMEAUTH_FLAG =? 0)) with (ota_of (atyp :: rest)).
  destruct (ota_of (atyp :: rest)); [|eexists; split; [done|]; split; [by destruct s; cbn in *; subst|done]].
  destruct rest as [|n rest]; [done|]. apply Forall_cons in Hby as [_ Hby]. apply Forall_cons in Hby as [Hn _].
  assert (exists k, parse_header_len atyp (array (buf s)) 1 = Some k /\ 0 <= k) as (k & Hk & Hk0).
  { unfold parse_header_len. rewrite (holds_byte (buf s) [atyp] n rest 1 Hb eq_refl). cbn [mbind option_bind].
    destruct (_ =? 1); [eexists; split; [done|lia]|]. destruct (_ =? 3); [eexists; split; [done|lia]|].
    destruct (_ =? 4); eexists; (split; [done|lia]). }
  rewrite Hk. cbn [mbind option_bind]. set (plain := atyp :: n :: rest) in *. pose proof Hb as (Hlen & [r Hr] & Hs).
  unfold ONETIMEAUTH_BYTES. destruct ((k =? 0) || _) eqn:E; zify_bool.
  { eexists. split; [done|]. split; [done|]. right. by left. }
  rewrite Hiv. cbn [mbind option_bind]. set (m := Z.to_nat (1 + k)).
  assert (holds (mkBuf (array (buf s)) (1 + k + 10)) (take m plain ++ take 10 (drop m plain))) as Hmac.
  { split_and!; cbn [array len]; [rewrite length_app, !length_take, length_drop; lia| |done].
    rewrite take_take_drop, Hr. exists (drop (m + 10) plain ++ r). by rewrite app_assoc, take_drop. }
  rewrite (onetimeauth_verify_holds hmac enc_iv_len enc_key iv _ _ _ Hmac) by (rewrite length_take, length_drop; lia).
  cbn [mbind option_bind]. case_bool_decide as Hm; cbn [negb].
  - change (negb (0 =? 0)) with false. cbn match. eexists. split; [done|]. split; [done|]. intros _. exists m.
    split_and!; [by replace (Z.of_nat m - 1) with k by lia|lia|done].
  - change (negb (1 =? 0)) with true. cbn match. eexists. split; [done|]. split; [done|]. right. by left.
Qed.

Lemma holds_suffix b x y :
  holds b (x ++ y) -> room b ->
  exists a, mread (array b) (Z.of_nat (length x)) (len b - Z.of_nat (length x)) = Some y /\
    mwrite (array b) 0 y = Some a /\ holds (mkBuf a (len b - Z.of_nat (length x))) y /\ room (mkBuf a (len b - Z.of_nat (length x))).
Proof.
  intros Hb Hroom. pose proof Hb as (Hl & [r Hr] & Hs). rewrite length_app in Hl.
  assert (Z.of_nat (length (x ++ y)) <= Z.of_nat (length (array b))) as Hle by (rewrite Hr, !length_app; lia). rewrite length_app in Hle.
  destruct (split_block (array b) (length y)) as (a1 & a2 & Ea & Ha1); [lia|].
  exists (y ++ a2). split_and!; cbn [array len]; [| |split_and!; cbn [array len]; [lia|by exists a2|]|].
  - rewrite <- (app_nil_r y) in Hb. apply (holds_at b x y []); [done|done|lia].
  - rewrite Ea. change (a1 ++ a2) with ([] ++ a1 ++ a2). apply (mwrite_app [] a1 a2); [done|lia].
  - rewrite length_app. apply (f_equal length) in Ea. rewrite length_app in Ea. lia.
  - unfold room in *. cbn [array]. rewrite length_app. apply (f_equal length) in Ea. rewrite length_app in Ea. lia.
Qed.

Lemma cut_header_ok s iv hdr tail :
  evp_iv (d_ctx s) = Some iv -> IvFits enc_iv_len iv -> chunk s = chunk0 ->
  holds (buf s) (hdr ++ (if auth s then header_mac iv hdr else []) ++ tail) -> room (buf s) -> is_bytes tail ->
  Z.of_nat (length tail) < 2 ^ 28 ->
  exists x, cut_header (Z.of_nat (length hdr) - 2) s = Some x /\
    match x with
    | Go s' => exists out b ck, s' = set_buf b (set_chunk ck s) /\ holds b out /\ room b /\
        fed_to (set_chunk ck s) iv tail out /\ Z.of_nat (length out) <= len b
    | Ret o es => o = None /\ CloseServer ∈ es
    end.
Proof.
  intros Hiv Hfit Hck Hb Hroom Hby Htail. unfold Relay.cut_header.
  set (mac := if auth s then header_mac iv hdr else []) in *.
  assert ((if auth s then Z.of_nat (length hdr) - 2 + 2 + ONETIMEAUTH_BYTES else Z.of_nat (length hdr) - 2 + 2) = Z.of_nat (length (hdr ++ mac))) as ->.
  { rewrite length_app. unfold mac, ONETIMEAUTH_BYTES. destruct (auth s); [|cbn; lia].
    rewrite (length_header_mac hmac enc_iv_len enc_key iv). lia. }
  rewrite app_assoc in Hb. pose proof Hb as (Hl & _). rewrite length_app in Hl.
  rewrite (proj2 (Z.ltb_ge _ _)) by lia. destruct (holds_suffix _ _ _ Hb Hroom) as (a & -> & Hw & Hh & Hr).
  cbn [mbind option_bind]. rewrite Hw. cbn [mbind option_bind].
  assert (fed_to s iv [] []) as Hfed.
  { unfold fed_to. destruct (auth s); [|done]. exists ([], 0). split; [done|]. rewrite Hck. split; [done|]. by right. }
  destruct (check_hash_ok s iv [] [] _ tail Hiv Hfit Hfed Hh Hr Hby Htail) as (ok & b' & ck & -> & Hok). cbn [mbind option_bind].
  destruct ok; cbn [negb]; eexists; (split; [done|]); [|split; [done|right; by left]].
  destruct (Hok eq_refl) as (o & Ho & Hro & Hf). exists o, b', ck. split_and!; [done..|]. destruct Ho as (-> & _). lia.
Qed.

(** A feed passes on no more than it gets. *)
Lemma feed_shorter iv xs : forall st o st', feed iv st xs = Some (o, st') -> (length o + length (fst st') <= length xs + length (fst st))%nat.
Proof.
  induction xs as [|x xs IH]; intros [cb c] o st' Hf; cbn [Ota.feed] in Hf; [by simplify_eq|].
  destruct (feed_byte _ _ _ _ _) as [[o1 [cb1 c1]]|] eqn:E; [|done]. cbn [mbind option_bind] in Hf.
  destruct (feed iv (cb1, c1) xs) as [[o2 st2]|] eqn:E2; [|done]. cbn [mbind option_bind] in Hf. simplify_eq.
  specialize (IH _ _ _ E2). cbn [fst length] in *. rewrite length_app.
  assert (length o1 + length cb1 <= length cb + 1)%nat.
  { revert E. unfold feed_byte. case_match; [case_bool_decide; [|done]|]; intros [= <- <- <-];
      rewrite ?length_drop, ?length_app; cbn [length]; lia. }
  lia.
Qed.

Lemma fed_to_shorter s iv tail out : fed_to s iv tail out -> (length out <= length tail)%nat.
Proof.
  unfold fed_to. destruct (auth s); [|by intros ->]. intros (st & Hf & _). apply feed_shorter in Hf. cbn in Hf. lia.
Qed.

Notation parse_request := (parse_request realloc malloc hmac dns_ntop dns_pton cork_ip_init enc_iv_len enc_key auth_on acl_lists).
Notation start_remote := (start_remote malloc dns_ntop cork_ip_init acl_lists).

Lemma closed_alone rx rr es s es' :
  remote s = None -> CloseServer ∈ es' -> outcome rx rr es s (Some (None, es')).
Proof. intros Hr He. split; [done|]. rewrite Hr. by intros [? ?]. Qed.

(** The request is known: the remote, or the resolver. *)
Lemma start_remote_ok rx es s s0 plain t out y :
  bare s -> stage s = STAGE_PARSE -> alone s -> query s = None -> holds (buf s) out -> room (buf s) ->
  decrypted s rx plain -> started s plain t out -> quiet es -> remote s0 = None ->
  outcome_unless (BUF_SIZE < Z.of_nat (length out)) rx [] es s0 (start_remote false y t s).
Proof.
  intros Hb Hst (Hr & Hsi & He & Hidx) Hq Hh Hroom Hdec Hgo (Hq1 & Hq2 & Hq3) Hr0.
  destruct t as [a|host port]; cbn [Relay.start_remote].
  - destruct (connect_slow y a s) as [[es' Ec]|Ec]; rewrite Ec; cbn [mbind option_bind].
    { right. apply closed_alone; [done|]. apply elem_of_app. right. by left. }
    destruct (decide (BUF_SIZE < Z.of_nat (length out))) as [Hbig|Hsmall].
    { left. by rewrite (hand_over_big s out Hh Hbig). }
    destruct (hand_over_ok s out Hh Hroom ltac:(lia)) as
      (r & s' & -> & Hp & Hsc & Hri & Hrm & Hs1 & Hs2 & Hs3 & Hs4 & Hs5 & Hs6 & Hs7 & Hs8 & Hbs). cbn [mbind option_bind].
    right. split; [by apply Hbs|]. eapply (Link_remote _ _ _ _ _ plain _ out out []). constructor; try done.
    + change (query s' = None). by rewrite Hs2.
    + intros Hs. change (stage s' = STAGE_STREAM) in Hs. by rewrite Hs1, Hst in Hs.
    + destruct Hdec as [? Hdec]. split; [done|]. rewrite Hdec. by rewrite <- (Hs6 : d_ctx s' = d_ctx s).
    + by eapply (started_same s).
    + rewrite contacts_app, Hq3. done.
    + by apply Up_wait.
    + rewrite to_remote_app, Hq1. done.
    + apply Down_off; [left|done| |done|done]; [change (stage s' = STAGE_PARSE); by rewrite Hs1|change (send_io s' = false); by rewrite Hs4].
    + left. rewrite to_client_app, Hq2. split_and!; [done|done|]. change (e_ctx s' = e0). by rewrite Hs5.
  - right. split; [done|]. eapply (Link_resolving _ _ _ _ plain out host port); try done.
    + by rewrite to_remote_app, Hq1.
    + by rewrite to_client_app, Hq2.
    + by rewrite contacts_app, Hq3.
Qed.

Lemma parse_ok rx es s s0 plain y :
  bare s -> stage s = STAGE_PARSE -> alone s -> query s = None -> auth s = false -> chunk s = chunk0 ->
  holds (buf s) plain -> room (buf s) -> decrypted s rx plain -> (2 <= length plain)%nat ->
  Z.of_nat (length plain) < 2 ^ 28 -> quiet es -> remote s0 = None ->
  outcome_unless (BUF_SIZE < Z.of_nat (length plain)) rx [] es s0 (returned (parse_request false y s)).
Proof.
  intros Hb Hst Hal Hq Hau Hck Hh Hroom Hdec Hlen Hbig Hqu Hr0.
  destruct (dec_iv _ _ _ _ (proj2 Hdec)) as (iv & Hiv & Hfit). destruct (dec_data _ _ _ _ (proj2 Hdec)) as [Hby _].
  destruct plain as [|atyp [|n rest]]; [cbn in Hlen; lia..|]. set (plain := n :: rest) in *.
  unfold Relay.parse_request. rewrite (holds_byte (buf s) [] atyp plain 0 Hh eq_refl). cbn [mbind option_bind].
  destruct (verify_header_ok s iv atyp plain Hiv Hfit Hh ltac:(done) Hby Hau) as (x & -> & Hx).
  destruct x as [s1|o es']; cbn [andthen returned]; [|right; destruct Hx as [-> ?]; by apply closed_alone].
  destruct Hx as [-> Hmac]. set (ota := ota_of (atyp :: plain)) in *.
  change (buf (set_auth ota s)) with (buf s).
  destruct (parse_target_sound dns_pton cork_ip_init acl_lists (CE := CE) (CD := CD) (OS := OS) (PS := PS) (buf s) atyp plain Hh Hby ltac:(done)) as (x & -> & Hx).
  destruct x as [[t offset]|o es']; cbn [andthen returned].
  2: { right. destruct Hx as [-> Hes]. apply closed_alone; [done|]. destruct Hes as [->| ->]; [by left|right; by left]. }
  destruct Hx as (hdr & rest' & E & Hoff & Hreq & Hbl & Hhd).
  rewrite E in Hh. destruct (parse_header_len_ok (buf s) hdr rest' t Hreq Hh) as [_ Hphl].
  assert (hd 0 hdr = atyp) as Hhd0 by (destruct hdr; cbn in *; congruence). rewrite Hhd0 in Hphl.
  assert (ota_of hdr = ota) as Hota by (unfold ota, ota_of; destruct hdr; [done|cbn in Hhd; by injection Hhd as ->]).
  assert (exists tail, rest' = (if ota then header_mac iv hdr else []) ++ tail) as [tail ->].
  { destruct ota eqn:Eo; [|by exists rest']. destruct (Hmac eq_refl) as (m & Hm & Hml & Hmm). rewrite Hm in Hphl.
    assert (m = length hdr) as -> by (injection Hphl as ?; lia). rewrite E in Hmm. rewrite drop_app_length, take_app_length in Hmm.
    exists (drop 10 rest'). by rewrite <- Hmm, take_drop. }
  replace offset with (Z.of_nat (length hdr) - 2) by lia.
  assert (is_bytes tail /\ (length tail <= length (atyp :: plain))%nat) as [Htb Htl].
  { rewrite E in Hby. apply Forall_app in Hby as [_ Hby]. apply Forall_app in Hby as [_ Hby]. split; [done|].
    rewrite E, !length_app. lia. }
  destruct (cut_header_ok (set_auth ota s) iv hdr tail Hiv Hfit Hck Hh Hroom Htb ltac:(lia)) as (x & -> & Hx).
  destruct x as [s2|o es']; cbn [andthen returned]; [|right; destruct Hx as [-> ?]; by apply closed_alone].
  destruct Hx as (out & b & ck & -> & Hbo & Hrb & Hfed & _). pose proof (fed_to_shorter _ _ _ _ Hfed) as Hsh.
  set (s2 := set_buf b (set_chunk ck (set_auth ota s))) in *.
  assert (started s2 (atyp :: plain) t out) as Hgo.
  { exists iv, tail. split_and!; [|done|done|exact Hfed]. rewrite E. by apply (opening_intro _ _ _ _ _ hdr). }
  destruct (start_remote_ok rx es s2 s0 (atyp :: plain) t out y Hb Hst Hal Hq Hbo Hrb Hdec Hgo Hqu Hr0) as [[-> Hov]|Hok]; cbn [mbind option_bind returned].
  - left. split; [done|]. lia.
  - right. revert Hok. by destruct (start_remote false y t s2).
Qed.

(** ** The client is readable *)

Notation header_init := (header_init auth_on).
Notation header_handshake := (header_handshake realloc auth_on).
Notation stream_up := (stream_up realloc hmac enc_iv_len).
Notation relay_up := (relay_up realloc malloc hmac dns_ntop dns_pton cork_ip_init enc_iv_len enc_key auth_on obfs_compatible
  protocol_compatible acl_lists).
Notation server_recv_cb := (server_recv_cb realloc malloc hmac dns_ntop dns_pton cork_ip_init enc_iv_len enc_key auth_on
  obfs_compatible protocol_compatible acl_lists).

(** What follows the decoding. *)
Definition after_decode (snd : sent) (y : sys) s : option (option server_t * list effect) :=
  returned (
    let* s := header_init s in
    let* s := header_handshake s in
    if stage s =? STAGE_STREAM then r ← remote s; x ← stream_up snd r s; Some (Go x)
    else if stage s =? STAGE_PARSE then parse_request false y s
    else None).

Lemma relay_up_bare snd y b s w p d :
  bare s -> dec (d_ctx s) w = Some (p, d) -> holds b w -> room b -> Z.of_nat (length w) <= BUF_SIZE ->
  exists b', holds b' p /\ room b' /\ relay_up false snd y b s = after_decode snd y (put_buf b' (set_d_ctx d s)).
Proof.
  intros [Ho Hp] Hd Hb Hr Hw. destruct (decrypt_buffer _ _ _ _ _ Hd Hb Hr Hw) as (b' & Hdec & Hb' & Hr').
  exists b'. split; [done|]. split; [done|]. unfold Relay.relay_up, obfs_decode, decrypt_step, protocol_decode, after_decode.
  rewrite Ho. cbn [andthen]. rewrite Hdec. cbn [mbind option_bind andthen]. change (0 =? 0) with true. cbn match. cbn [andthen].
  change (protocol (set_d_ctx d s)) with (protocol s). rewrite Hp. reflexivity.
Qed.

Lemma header_complete_ok b p :
  holds b p -> room b -> is_bytes p ->
  exists ret, is_header_complete auth_on b = Some ret /\ (ret = 1 -> (2 <= length p)%nat).
Proof.
  intros (Hl & [r Hr] & _) Hroom Hby. unfold room, BUF_SIZE in Hroom. unfold is_header_complete.
  destruct (array b) as [|x [|y a]] eqn:Ea; [cbn in Hroom; lia..|].
  change (rd (x :: y :: a) 0) with (Some x). change (rd (x :: y :: a) 1) with (Some y). cbn [mbind option_bind].
  assert (forall n, 0 <= n -> exists ret,
    Some (if (if auth_on || negb (Z.land x ONETIMEAUTH_FLAG =? 0) then n + 2 + ONETIMEAUTH_BYTES else n + 2) <=? len b then 1 else 0) = Some ret /\
    (ret = 1 -> n + 2 <= len b)) as Hfin.
  { intros n Hn. unfold ONETIMEAUTH_BYTES. destruct (auth_on || _); (eexists; split; [done|]); case_bool; lia. }
  destruct (_ =? 1); [destruct (Hfin 5) as (ret & -> & Hret); [lia|]; eexists; split; [done|]; intros ->; specialize (Hret eq_refl); lia|].
  destruct (_ =? 3).
  { destruct (len b <? 2) eqn:E2; zify_bool; [by eexists|]. assert (0 <= y) as Hy.
    { destruct p as [|p1 [|p2 p]]; [cbn in Hl; lia..|]. cbn in Hr. simplify_eq. apply Forall_cons in Hby as [_ Hby].
      apply Forall_cons in Hby as [? _]. lia. }
    destruct (Hfin (1 + (y + 1))) as (ret & -> & Hret); [lia|]. eexists. split; [done|]. lia. }
  destruct (_ =? 4); [destruct (Hfin 17) as (ret & -> & Hret); [lia|]; eexists; split; [done|]; intros ->; specialize (Hret eq_refl); lia|].
  by eexists.
Qed.

(** The pieces of a header are put together. *)
Lemma handshake_ok s h p hb :
  stage s = STAGE_HANDSHAKE -> header_buf s = Some hb -> holds hb h -> holds (buf s) p -> room (buf s) -> is_bytes p ->
  Z.of_nat (length h) + Z.of_nat (length p) < 2 ^ 28 ->
  exists x, header_handshake s = Some x /\
    match x with
    | Go s' => exists b, s' = set_stage STAGE_PARSE (set_header_buf None (set_buf b s)) /\ holds b (h ++ p) /\ room b /\
        is_header_complete auth_on (buf s) = Some 1 /\ (2 <= length p)%nat
    | Ret o es => es = [] /\ exists hb' ret, holds hb' (h ++ p) /\ is_header_complete auth_on (buf s) = Some ret /\ ret <> 1 /\
        o = Some (set_idx 0 (set_buf (mkBuf (array (buf s)) 0) (set_header_buf (Some hb')
              (if ret =? -1 then set_stage STAGE_ERROR s else s))))
    end.
Proof.
  intros Hst Hhb Hh Hb Hroom Hby Hn. unfold Relay.header_handshake. rewrite Hst, Hhb. change (STAGE_HANDSHAKE =? STAGE_HANDSHAKE) with true.
  cbn match. cbn [mbind option_bind]. pose proof Hh as (Hlh & _). pose proof Hb as (Hlb & _). rewrite Hlh, Hlb.
  destruct (brealloc_holds realloc hb h (Z.of_nat (length p) + Z.of_nat (length h)) BUF_SIZE Hh) as [Hh' Hcap]; [lia|done|].
  rewrite <- Hlb, (holds_mread _ _ Hb). cbn [mbind option_bind]. rewrite Hlb. set (hb1 := brealloc realloc hb _ _) in *.
  destruct Hh' as (_ & [r Hr] & Hs). rewrite Hr, length_app in Hcap, Hs.
  destruct (split_block r (length p)) as (r1 & r2 & -> & Hr1); [lia|]. rewrite Hr, mwrite_app by done. cbn [mbind option_bind].
  assert (holds (mkBuf (h ++ p ++ r2) (Z.of_nat (length p) + Z.of_nat (length h))) (h ++ p)) as Hh2.
  { rewrite length_app in Hs. split_and!; cbn [len array]; [rewrite length_app; lia|exists r2; by rewrite app_assoc|rewrite !length_app; lia]. }
  destruct (header_complete_ok _ _ Hb Hroom Hby) as (ret & Hret & H2p). rewrite Hret. cbn [mbind option_bind].
  destruct (Z.eqb_spec ret 1) as [->|Hne].
  - rewrite (holds_mread _ _ Hh2). cbn [mbind option_bind].
    pose proof (brealloc_length realloc (buf s) (len (mkBuf (h ++ p ++ r2) (Z.of_nat (length p) + Z.of_nat (length h)))) BUF_SIZE) as Hbl.
    cbn [len] in *. set (b1 := brealloc realloc (buf s) _ _) in *.
    destruct (split_block (array b1) (length (h ++ p))) as (a1 & a2 & Ea & Ha1); [rewrite length_app; lia|].
    rewrite Ea. change (a1 ++ a2) with ([] ++ a1 ++ a2). rewrite (mwrite_app [] a1 a2 0) by done. cbn [mbind option_bind app].
    eexists. split; [done|]. eexists. unfold room, BUF_SIZE in *. rewrite Ea, length_app in Hbl.
    split_and!; [done|split_and!; cbn [len array]; [rewrite length_app; lia|by exists a2|rewrite length_app; lia]|cbn [array]; rewrite length_app; lia..|done|by apply H2p].
  - eexists. split; [done|]. split; [done|]. eexists _, ret. split_and!; [exact Hh2|done|done|by destruct (ret =? -1)].
Qed.

Lemma relink_stream rx rr es es' s s' r r' plain p t out o up' down bs :
  linked rx rr es s r plain t out [] down ->
  remote s' = Some r' -> query s' = query s -> e_ctx s' = e_ctx s -> (stage s' = STAGE_STREAM -> send_connected r' = true) ->
  decrypted s' (rx ++ bs) (plain ++ p) -> started s' (plain ++ p) t (out ++ o) ->
  up_link s' r' up' -> to_remote es' ++ up' = o -> down_link s' r' down -> to_client es' = [] ->
  linked (rx ++ bs) rr (es ++ es') s' r' (plain ++ p) t (out ++ o) up' down.
Proof.
  intros [] Hr Hq He Hsc Hdec Hgo Hup Hto Hdown Hcl. constructor; try done; [congruence|by rewrite contacts_app; apply head_app_some| |].
  - rewrite app_nil_r in l_out0. by rewrite to_remote_app, <- app_assoc, Hto, l_out0.
  - rewrite to_client_app, Hcl, app_nil_r. unfold encrypted in *. by rewrite He.
Qed.

Lemma stream_up_ok rx rr es s r plain t out down bs w p d snd :
  bare s -> linked rx rr es s r plain t out [] down -> stage s = STAGE_STREAM -> recv_io s = true -> r_send_io r = false ->
  holds w p -> room w -> is_bytes p -> Z.of_nat (length p) < 2 ^ 28 ->
  dec d0 (rx ++ bs) = Some (plain ++ p, d) -> evp_iv d = evp_iv (d_ctx s) -> (forall n, snd = Sent n -> 0 <= n) ->
  outcome (rx ++ bs) rr es s
    (stream_up snd (rset_buf w (r_idx r) r) (set_remote (Some (rset_buf w (r_idx r) r)) (set_d_ctx d s))).
Proof.
  intros Hb L Hst Hrio Hsio Hw Hrw Hby Hp Hdec Hiv Hsnd.
  pose proof (l_started _ _ _ _ _ _ _ _ _ _ L) as (iv & tail & Hop & Hiv0 & Hfit & Hfed).
  pose proof (l_down _ _ _ _ _ _ _ _ _ _ L) as Hdown. pose proof (l_connected _ _ _ _ _ _ _ _ _ _ L Hst) as Hcon.
  pose proof (l_query _ _ _ _ _ _ _ _ _ _ L) as Hq. pose proof (l_decrypted _ _ _ _ _ _ _ _ _ _ L) as [Hivl _].
  assert (forall s', d_ctx s' = d -> decrypted s' (rx ++ bs) (plain ++ p)) as Hdec'.
  { intros s' Hd'. split; [rewrite length_app; lia|by rewrite Hd']. }
  unfold Relay.stream_up. cbn [rset_buf r_buf]. set (s1 := set_remote _ _).
  assert (evp_iv (d_ctx s1) = Some iv) as Hiv1 by (change (evp_iv d = Some iv); congruence).
  destruct (check_hash_ok s1 iv tail out w p Hiv1 Hfit Hfed Hw Hrw Hby Hp) as (ok & b' & ck & -> & Hok).
  cbn [mbind option_bind]. destruct ok; cbn [negb]; [|split; [by right; left|intros _; by right; right; left]].
  destruct (Hok eq_refl) as (o & Ho & Hro & Hf'). rewrite (holds_mread _ _ Ho). cbn [mbind option_bind].
  assert (forall s', auth s' = auth s -> chunk s' = ck -> d_ctx s' = d -> started s' (plain ++ p) t (out ++ o)) as Hgo.
  { intros s' Ha' Hc' Hd'. exists iv, (tail ++ p). rewrite Ha', Hd'. split_and!; [|congruence|done|].
    - destruct Hop as [hdr ? ? ? Hpl]. apply (opening_intro _ _ _ _ _ hdr); [done..|]. by rewrite Hpl, <- !app_assoc.
    - rewrite Hc'. exact Hf'. }
  assert (forall r' s', r_recv_io r' = r_recv_io r -> stage s' = stage s -> send_io s' = send_io s -> buf s' = buf s ->
    s_idx s' = s_idx s -> down_link s' r' down) as Hdl.
  { intros r' s' H1' H2' H3 H4 H5. destruct Hdown as [[Hn|Hn]|dn ? ? ? Hpd|]; [by rewrite Hst in Hn..| |].
    - apply Down_wait; [congruence..|]. by rewrite H4, H5.
    - apply Down_idle; congruence. }
  pose proof Ho as (Hlo & _).
  destruct snd as [n| |]; [specialize (Hsnd n eq_refl); destruct (n <? len b') eqn:En; zify_bool| |].
  - split; [exact Hb|]. eapply Link_remote, (relink_stream _ _ _ _ _ _ _ _ _ _ _ _ o (drop (Z.to_nat n) o) _ _ L); try done.
    + by apply Hdec'.
    + by apply Hgo.
    + apply Up_wait; [done..|]. apply (pending_rest b' 0 o n); [by apply holds_pending|lia].
    + unfold to_remote. cbn. by rewrite app_nil_r, take_drop.
    + by apply Hdl.
  - split; [exact Hb|]. eapply Link_remote, (relink_stream _ _ _ _ _ _ _ _ _ _ _ _ o [] _ _ L); try done.
    + by apply Hdec'.
    + by apply Hgo.
    + by apply Up_idle.
    + unfold to_remote. cbn. rewrite !app_nil_r. apply take_ge. lia.
    + by apply Hdl.
  - split; [exact Hb|]. eapply Link_remote, (relink_stream _ _ _ _ _ _ _ _ _ _ _ _ o o _ _ L); try done.
    + by apply Hdec'.
    + by apply Hgo.
    + apply Up_wait; [done..|]. by apply holds_pending.
    + by apply Hdl.
  - split; [by right; left|intros _; by left].
Qed.

Lemma decrypt_next s rx plain bs :
  decrypted s rx plain -> is_Some (dec d0 (rx ++ bs)) ->
  exists p d, dec (d_ctx s) bs = Some (p, d) /\ dec d0 (rx ++ bs) = Some (plain ++ p, d) /\ evp_iv d = evp_iv (d_ctx s) /\ is_bytes p /\
    (length p <= length bs)%nat.
Proof.
  intros [_ Hd] [[q d] Hs]. pose proof (dec_app _ _ bs _ _ Hd) as Ha. rewrite Hs in Ha.
  destruct (dec (d_ctx s) bs) as [[p d']|] eqn:Ed; [|done]. cbn [mbind option_bind] in Ha. injection Ha as -> ->.
  destruct (dec_data _ _ _ _ Ed) as [Hby Hl]. exists p, d'. split_and!; [done|done|by eapply dec_same_iv|done|lia].
Qed.

Lemma outcome_done rx rr es s x n :
  outcome rx rr (es ++ [Tx n]) s x -> outcome rx rr es s ('(s, es) ← x; Some (s, Tx n :: es)).
Proof.
  destruct x as [[[s'|] es']|]; cbn [mbind option_bind outcome]; [|intros [H1' H2']; split; [by right|intros; right; auto]|done].
  intros [Hb Hl]. split; [done|]. by rewrite <- app_assoc in Hl.
Qed.
Lemma unless_done ov rx rr es s x n :
  outcome_unless ov rx rr (es ++ [Tx n]) s x -> outcome_unless ov rx rr es s ('(s, es) ← x; Some (s, Tx n :: es)).
Proof. intros [[-> Ho]|Ho]; [by left|right; by apply outcome_done]. Qed.
Lemma quiet_done es n : quiet es -> quiet (es ++ [Tx n]).
Proof. intros (H1' & H2' & H3'). unfold quiet. by rewrite to_remote_app, to_client_app, contacts_app, H1', H2', H3'. Qed.

Lemma quiet_report es n : quiet es -> quiet (es ++ [Report n]).
Proof. intros (H1' & H2' & H3'). unfold quiet. by rewrite to_remote_app, to_client_app, contacts_app, H1', H2', H3'. Qed.

(** The first decrypted bytes. *)
Lemma after_init_ok w es s b d plain hb snd y :
  bare s -> stage s = STAGE_INIT -> alone s -> query s = None -> recv_io s = true -> auth s = false -> chunk s = chunk0 ->
  header_buf s = Some hb -> holds hb [] -> holds b plain -> room b -> enc_iv_len <= Z.of_nat (length w) -> dec d0 w = Some (plain, d) ->
  (2 <= length plain)%nat -> Z.of_nat (length plain) <= BUF_SIZE -> quiet es ->
  outcome w [] es s (after_decode snd y (set_buf b (set_d_ctx d s))).
Proof.
  intros Hb Hst Hal Hq Hio Hau Hck Hhb Hhn Hbp Hrb Hivl Hdec Hlen Hmax Hqu. destruct (dec_data _ _ _ _ Hdec) as [Hby _].
  unfold after_decode. set (s1 := set_buf b (set_d_ctx d s)). unfold Relay.header_init.
  change (stage s1) with (stage s). rewrite Hst. change (STAGE_INIT =? STAGE_INIT) with true. cbn match. change (buf s1) with b.
  destruct (header_complete_ok b plain Hbp Hrb Hby) as (ret & Hret & _). rewrite Hret. cbn [mbind option_bind].
  destruct (Z.eqb_spec ret 1) as [->|Hne]; [|destruct (Z.eqb_spec ret (-1)) as [->|Hne2]]; cbn [andthen returned].
  - unfold Relay.header_handshake. cbn [stage set_stage]. change (STAGE_PARSE =? STAGE_HANDSHAKE) with false. cbn match. cbn [andthen].
    change (STAGE_PARSE =? STAGE_STREAM) with false. change (STAGE_PARSE =? STAGE_PARSE) with true. cbn match.
    destruct (parse_ok w es (set_stage STAGE_PARSE (set_header_buf None s1)) s plain y) as [[_ Hov]|Hok]; try done; [|apply Hal|].
    + unfold BUF_SIZE in Hmax. lia.
    + lia.
  - split; [done|]. apply Link_error; try done; [by destruct Hal as (?&?&?&?)|by apply quiet_report].
  - destruct (handshake_ok (set_stage STAGE_HANDSHAKE s1) [] plain hb eq_refl Hhb Hhn Hbp Hrb Hby) as (x & -> & Hx).
    { unfold BUF_SIZE in Hmax. cbn. lia. }
    destruct x as [s'|o es']; [destruct Hx as (? & _ & _ & _ & Hone & _); change (buf (set_stage STAGE_HANDSHAKE s1)) with b in Hone; congruence|].
    cbn [andthen returned]. destruct Hx as (-> & hb' & ret' & Hhb' & Hret' & _ & ->). change (buf (set_stage STAGE_HANDSHAKE s1)) with b in Hret'.
    assert (ret' = ret) as -> by congruence. rewrite (proj2 (Z.eqb_neq ret (-1))) by done.
    split; [done|]. rewrite app_nil_r. eapply (Link_handshake _ _ _ _ plain hb'); try done. by destruct Hal as (?&?&?&?).
Qed.

(** More bytes while the header is incomplete. *)
Lemma after_handshake_ok rx bs es s b d plain p hb snd y :
  bare s -> stage s = STAGE_HANDSHAKE -> alone s -> query s = None -> recv_io s = true -> auth s = false -> chunk s = chunk0 ->
  header_buf s = Some hb -> holds hb plain -> holds b p -> room b -> is_bytes p -> enc_iv_len <= Z.of_nat (length rx) ->
  dec d0 (rx ++ bs) = Some (plain ++ p, d) ->
  Z.of_nat (length plain) + Z.of_nat (length p) < 2 ^ 28 -> quiet es ->
  outcome_unless True (rx ++ bs) [] es s (after_decode snd y (set_buf b (set_d_ctx d s))).
Proof.
  intros Hb Hst Hal Hq Hio Hau Hck Hhb Hh Hbp Hrb Hby Hivl Hdec Hmax Hqu.
  assert (forall s', d_ctx s' = d -> decrypted s' (rx ++ bs) (plain ++ p)) as Hdec'.
  { intros s' Hd'. split; [rewrite length_app; lia|by rewrite Hd']. }
  unfold after_decode. set (s1 := set_buf b (set_d_ctx d s)). unfold Relay.header_init.
  change (stage s1) with (stage s). rewrite Hst. change (STAGE_HANDSHAKE =? STAGE_INIT) with false. cbn match. cbn [andthen].
  destruct (handshake_ok s1 plain p hb Hst Hhb Hh Hbp Hrb Hby Hmax) as (x & -> & Hx).
  destruct x as [s'|o es']; cbn [andthen returned].
  - destruct Hx as (b' & -> & Hb' & Hrb' & _ & H2). cbn [stage set_stage]. change (STAGE_PARSE =? STAGE_STREAM) with false.
    change (STAGE_PARSE =? STAGE_PARSE) with true. cbn match.
    destruct (parse_ok (rx ++ bs) es (set_stage STAGE_PARSE (set_header_buf None (set_buf b' s1))) s (plain ++ p) y) as [[Hn _]|Hok];
      try done; try (by apply Hdec'); rewrite ?length_app; [lia|lia|apply Hal|left; done|by right].
  - right. destruct Hx as (-> & hb' & ret & Hhb' & _ & _ & ->). split; [by destruct (ret =? -1)|]. rewrite app_nil_r.
    destruct Hal as (?&?&?&?). destruct (ret =? -1); [by apply Link_error|].
    eapply (Link_handshake _ _ _ _ (plain ++ p) hb'); try done. by apply Hdec'.
Qed.

Lemma linked_done rx rr es s r plain t out up down n :
  linked rx rr es s r plain t out up down -> linked rx rr (es ++ [Tx n]) s r plain t out up down.
Proof.
  intros []. constructor; try done; [by rewrite contacts_app; apply head_app_some|by rewrite to_remote_app, app_nil_r|
    by rewrite to_client_app, app_nil_r].
Qed.

Lemma after_decode_stream snd y s b d r :
  stage s = STAGE_STREAM -> remote s = Some r ->
  after_decode snd y (put_buf b (set_d_ctx d s)) =
  stream_up snd (rset_buf b (r_idx r) r) (set_remote (Some (rset_buf b (r_idx r) r)) (set_d_ctx d s)).
Proof.
  intros Hst Hr. unfold put_buf. cbn [set_d_ctx stage remote]. rewrite Hst, Hr.
  cbn [fmap option_fmap option_map]. change (STAGE_PARSE <? STAGE_STREAM) with true. cbn match.
  set (s1 := set_remote _ _). assert (stage s1 = STAGE_STREAM) as Hs1 by done.
  unfold after_decode, Relay.header_init. rewrite Hs1. change (STAGE_STREAM =? STAGE_INIT) with false. cbn match. cbn [andthen].
  unfold Relay.header_handshake. rewrite Hs1. change (STAGE_STREAM =? STAGE_HANDSHAKE) with false. cbn match. cbn [andthen].
  rewrite Hs1. change (STAGE_STREAM =? STAGE_STREAM) with true. cbn match.
  assert (remote s1 = Some (rset_buf b (r_idx r) r)) as -> by done. cbn [mbind option_bind].
  by destruct (stream_up _ _ _) as [[? ?]|].
Qed.

(** How much [recv] may store. *)
Definition recv_room s : Z := BUF_SIZE - (if STAGE_PARSE <? stage s then 0 else len (buf s)).

Lemma client_readable_ok rx rr es s rcv snd y :
  bare s -> link rx rr es s -> recv_io s = true -> (forall n, snd = Sent n -> 0 <= n) ->
  (forall bs, rcv = Data bs -> Z.of_nat (length bs) <= recv_room s /\
     (enc_iv_len <= Z.of_nat (length (rx ++ bs)) -> is_Some (dec d0 (rx ++ bs))) /\
     Z.of_nat (length (rx ++ bs)) < 2 ^ 27) ->
  outcome_unless (stage s = STAGE_HANDSHAKE) (rx ++ client_data (Client_readable rcv snd y)) rr es s (server_recv_cb false rcv snd y s).
Proof.
  intros Hb Hl Hio Hsnd Hrcv. pose proof iv_len_range as Hivl. unfold recv_room in Hrcv.
  assert (forall rx', outcome rx' rr es s (Some (None, close_both (cur_remote s)))) as Hclose.
  { intros rx'. unfold close_both, cur_remote. destruct (remote s) as [r|] eqn:Er.
    - destruct (link_remote_inv _ _ _ _ _ Hl Er) as (plain & t & out & up & down & L).
      pose proof (l_up _ _ _ _ _ _ _ _ _ _ L) as Hup. inversion Hup as [? ? Hn|? ? Hs]; [congruence|]. rewrite Hs.
      split; [by right; left|intros _; by left].
    - split; [destruct (STAGE_PARSE <? stage s); by left|]. rewrite Er. by intros [? ?]. }
  inversion Hl as [hb Hst Hal Hq _ Hau Hck Hh Hroom Hn Hhb Hhn Hd Hrr Hqu|plain hb Hst Hal Hq _ Hau Hck Hlen Hroom Hhb Hhp Hdec Hrr Hqu|
    Hst Hal Hq _ Hlen Hroom Hrr Hqu|? ? ? ? ? ? ? Hn|r plain t out up down L]; try congruence; unfold Relay.server_recv_cb, cur_buf.
  - rewrite Hst in *. change (STAGE_PARSE <? STAGE_INIT) with false in *. cbn match in *. cbn [mbind option_bind]. pose proof Hh as (Hlb & _).
    rewrite (proj2 (Z.ltb_ge _ _)) by (unfold BUF_SIZE; lia).
    destruct rcv as [bs| | |]; [|right; apply Hclose|right; split; [done|]; by rewrite !app_nil_r|right; apply Hclose].
    destruct (Hrcv bs eq_refl) as (Hbs & Hdecs & Hbig). cbn [client_data].
    destruct (recv_into (buf s) rx bs (len (buf s)) Hh Hroom Hlb ltac:(lia)) as (a & -> & Hh2 & Hr2). cbn [mbind option_bind].
    change (STAGE_INIT =? STAGE_ERROR) with false. change (STAGE_INIT =? STAGE_INIT) with true. cbn match. cbn [len].
    apply (quiet_done _ (Z.of_nat (length bs))) in Hqu. subst rr. right.
    destruct (len (buf s) + Z.of_nat (length bs) <=? enc_iv_len + 1) eqn:Esm; zify_bool; cbn [mbind option_bind].
    { split; [done|]. apply (Link_init _ _ _ _ hb); try done. rewrite length_app. lia. }
    apply outcome_done.
    destruct Hdecs as [[p d] Hdec]; [rewrite length_app; lia|].
    destruct (dec_data _ _ _ _ Hdec) as [_ Hlp]. rewrite length_app in *.
    destruct (relay_up_bare snd y _ s (rx ++ bs) p d Hb ltac:(by rewrite Hd) Hh2 Hr2 ltac:(rewrite length_app; lia)) as (b' & Hb' & Hrb' & ->).
    unfold put_buf. cbn [set_d_ctx stage]. rewrite Hst. change (STAGE_PARSE <? STAGE_INIT) with false. cbn match.
    apply (after_init_ok _ _ s b' d p hb); try done; rewrite ?length_app; lia.
  - rewrite Hst in *. change (STAGE_PARSE <? STAGE_HANDSHAKE) with false in *. cbn match in *. cbn [mbind option_bind].
    rewrite Hlen in *. change (BUF_SIZE <? 0) with false. cbn match.
    destruct rcv as [bs| | |]; [|right; apply Hclose|right; split; [done|]; by rewrite !app_nil_r|right; apply Hclose].
    destruct (Hrcv bs eq_refl) as (Hbs & Hdecs & Hbig). cbn [client_data].
    destruct (decrypt_next _ _ _ _ Hdec (Hdecs ltac:(rewrite length_app; destruct Hdec; lia))) as (p & d & Hdb & Hdt & _ & Hby & Hlp).
    destruct (recv_into (mkBuf (array (buf s)) 0) [] bs 0 (holds_nil _ Hroom) Hroom eq_refl) as (a & Ha & Hh2 & Hr2); [cbn; lia|].
    cbn [array] in Ha. rewrite Ha. cbn [mbind option_bind]. rewrite Z.add_0_l in Hh2, Hr2.
    change (STAGE_HANDSHAKE =? STAGE_ERROR) with false. change (STAGE_HANDSHAKE =? STAGE_INIT) with false. cbn match.
    apply unless_done. apply (quiet_done _ (Z.of_nat (length bs))) in Hqu. subst rr.
    destruct (relay_up_bare snd y _ s bs p d Hb Hdb Hh2 Hr2 ltac:(lia)) as (b' & Hb' & Hrb' & ->).
    unfold put_buf. cbn [set_d_ctx stage]. rewrite Hst. change (STAGE_PARSE <? STAGE_HANDSHAKE) with false. cbn match.
    destruct (dec_data _ _ _ _ (proj2 Hdec)) as [_ Hlpl]. rewrite length_app in Hbig.
    destruct (after_handshake_ok rx bs (es ++ [Tx (Z.of_nat (length bs))]) s b' d plain p hb snd y) as [[-> _]|Hok]; try done; [apply Hdec|lia|by left|by right].
  - rewrite Hst in *. change (STAGE_PARSE <? STAGE_ERROR) with false in *. cbn match in *. cbn [mbind option_bind].
    rewrite Hlen in *. change (BUF_SIZE <? 0) with false. cbn match.
    destruct rcv as [bs| | |]; [|right; apply Hclose|right; split; [done|]; by rewrite !app_nil_r|right; apply Hclose].
    destruct (Hrcv bs eq_refl) as (Hbs & _). cbn [client_data].
    destruct (recv_into (mkBuf (array (buf s)) 0) [] bs 0 (holds_nil _ Hroom) Hroom eq_refl) as (a & Ha & _ & Hr2); [cbn; lia|].
    cbn [array] in Ha. rewrite Ha. cbn [mbind option_bind].
    change (STAGE_ERROR =? STAGE_ERROR) with true. cbn match. cbn [mbind option_bind].
    apply (quiet_done _ (Z.of_nat (length bs))) in Hqu. subst rr.
    right. destruct Hal as (?&?&?&?). split; [done|]. by apply Link_error.
  - pose proof (l_up _ _ _ _ _ _ _ _ _ _ L) as Hup. inversion Hup as [? ? Hn|Hrs _ Hst Hroom]; [congruence|]. subst up.
    rewrite Hst in *. change (STAGE_PARSE <? STAGE_STREAM) with true in *. cbn match in *. rewrite (l_remote _ _ _ _ _ _ _ _ _ _ L).
    cbn [fmap option_fmap option_map mbind option_bind]. change (BUF_SIZE <? 0) with false. cbn match.
    destruct rcv as [bs| | |]; [|right; apply Hclose|right; split; [done|]; by rewrite !app_nil_r|right; apply Hclose].
    destruct (Hrcv bs eq_refl) as (Hbs & Hdecs & Hbig). cbn [client_data].
    destruct (decrypt_next _ _ _ _ (l_decrypted _ _ _ _ _ _ _ _ _ _ L) (Hdecs ltac:(rewrite length_app; destruct (l_decrypted _ _ _ _ _ _ _ _ _ _ L); lia))) as (p & d & Hdb & Hdt & Hiv & Hby & Hlp).
    destruct (recv_into (mkBuf (array (r_buf r)) 0) [] bs 0 (holds_nil _ Hroom) Hroom eq_refl) as (a & Ha & Hh2 & Hr2); [cbn; lia|].
    cbn [array] in Ha. rewrite Ha. cbn [mbind option_bind]. rewrite Z.add_0_l in Hh2, Hr2.
    change (STAGE_STREAM =? STAGE_ERROR) with false. change (STAGE_STREAM =? STAGE_INIT) with false. cbn match.
    right. apply outcome_done. rewrite length_app in Hbig.
    destruct (relay_up_bare snd y _ s bs p d Hb Hdb Hh2 Hr2 ltac:(lia)) as (b' & Hb' & Hrb' & ->).
    rewrite after_decode_stream with (r := r) by (done || apply L).
    eapply stream_up_ok; try done; [|lia]. by apply linked_done.
Qed.

(** ** Runs *)

Definition send_ok (snd : sent) : Prop := forall n, snd = Sent n -> 0 <= n.

(** What the event loop may deliver: callbacks of active watchers, system calls
    that return what they are asked for. *)
Definition enabled (ev : event) s : Prop :=
  match ev with
  | Client_readable rcv snd _ =>
      recv_io s = true /\ send_ok snd /\ forall bs, rcv = Data bs -> Z.of_nat (length bs) <= recv_room s
  | Client_writable snd => send_io s = true /\ send_ok snd
  | Remote_readable rcv snd =>
      (exists r, remote s = Some r /\ r_recv_io r = true) /\ send_ok snd /\ forall bs, rcv = Data bs -> Z.of_nat (length bs) <= BUF_SIZE
  | Remote_writable _ snd => (exists r, remote s = Some r /\ r_send_io r = true) /\ send_ok snd
  | Resolved _ _ => is_Some (query s)
  | Timed_out => True
  end.

Definition start : server_t := new_server malloc e0 d0 None None.

(** Connections that are still there after some events, with what they did. *)
Inductive run : list event -> server_t -> list effect -> Prop :=
| run_start : run [] start []
| run_event evs s es ev s' es' :
    run evs s es -> enabled ev s -> handle false ev s = Some (Some s', es') -> run (evs ++ [ev]) s' (es ++ es').

(** Events that deliver data, run. *)
Definition remote_is (f : remote_t -> bool) s : bool := match remote s with Some r => f r | None => false end.
Definition ready (ev : event) s : bool :=
  match ev with
  | Client_readable (Data bs) (Sent n) _ => recv_io s && (0 <=? n) && (Z.of_nat (length bs) <=? recv_room s)
  | Remote_readable (Data bs) (Sent n) => remote_is r_recv_io s && (0 <=? n) && (Z.of_nat (length bs) <=? BUF_SIZE)
  | Remote_writable _ (Sent n) => remote_is r_send_io s && (0 <=? n)
  | _ => false
  end.

Fixpoint play (evs : list event) s : option (server_t * list effect) :=
  match evs with
  | [] => Some (s, [])
  | ev :: evs =>
      if ready ev s then
        '(o, es) ← handle false ev s; s ← o; '(s, es2) ← play evs s; Some (s, es ++ es2)
      else None
  end.

Lemma ready_enabled ev s : ready ev s = true -> enabled ev s.
Proof.
  assert (forall f, remote_is f s = true -> exists r, remote s = Some r /\ f r = true) as Hr by (intros f; unfold remote_is; destruct (remote s); [eauto|done]).
  assert (forall n, 0 <= n -> send_ok (Sent n)) as Hs by (by intros n Hn ? [= <-]).
  destruct ev as [[bs| | |] [n| |] y|snd|[bs| | |] [n| |]|peer [n| |]|y addr|]; cbn [ready enabled]; try done; intros Hb; zify_bool;
    repeat apply conj; try apply Hr; try apply Hs; try (intros ? [= <-]); tauto || lia.
Qed.

Lemma play_run evs : forall evs0 s es s' es', run evs0 s es -> play evs s = Some (s', es') -> run (evs0 ++ evs) s' (es ++ es').
Proof.
  induction evs as [|ev evs IH]; intros evs0 s es s' es' Hr Hp; cbn [play] in Hp; [simplify_eq; by rewrite !app_nil_r|].
  destruct (ready ev s) eqn:He; [|done]. destruct (handle false ev s) as [[[s1|] es1]|] eqn:Eh; try done.
  cbn [mbind option_bind] in Hp. destruct (play evs s1) as [[s2 es2]|] eqn:Ep; [|done]. cbn [mbind option_bind] in Hp. simplify_eq.
  rewrite (app_assoc es), (cons_middle ev), (app_assoc evs0). apply (IH _ s1); [|done].
  eapply run_event; [done|by apply ready_enabled|done].
Qed.

Definition from_client (evs : list event) : list Z := concat (map client_data evs).
Definition from_remote (evs : list event) : list Z := concat (map remote_data evs).

(** The client sends what decrypts, and the remote what can be encrypted. *)
Definition streams_ok (evs : list event) : Prop :=
  (enc_iv_len <= Z.of_nat (length (from_client evs)) -> is_Some (dec d0 (from_client evs))) /\
  is_Some (enc e0 (from_remote evs)) /\ Z.of_nat (length (from_client evs)) < 2 ^ 27.

Lemma from_client_snoc evs ev : from_client (evs ++ [ev]) = from_client evs ++ client_data ev.
Proof. unfold from_client. rewrite map_app, concat_app. cbn. by rewrite app_nil_r. Qed.
Lemma from_remote_snoc evs ev : from_remote (evs ++ [ev]) = from_remote evs ++ remote_data ev.
Proof. unfold from_remote. rewrite map_app, concat_app. cbn. by rewrite app_nil_r. Qed.

Lemma streams_prefix evs ev : streams_ok (evs ++ [ev]) -> streams_ok evs.
Proof.
  unfold streams_ok. rewrite from_client_snoc, from_remote_snoc, length_app. intros (Hd & He & Hl). split_and!; [|by eapply enc_prefix|lia].
  intros Hi. eapply dec_prefix; [apply Hd; lia|done].
Qed.

(** One event on a linked connection. *)
Lemma event_ok evs es s ev :
  bare s -> link (from_client evs) (from_remote evs) es s -> enabled ev s -> streams_ok (evs ++ [ev]) ->
  outcome_unless (stage s = STAGE_HANDSHAKE \/ BUF_SIZE < len (buf s))
    (from_client (evs ++ [ev])) (from_remote (evs ++ [ev])) es s (handle false ev s).
Proof.
  intros Hb Hl Hen (Hd & He & Hbig). rewrite from_client_snoc, from_remote_snoc in *.
  destruct ev as [rcv snd y|snd|rcv snd|peer snd|y addr|]; cbn [Relay.handle enabled] in *.
  - destruct Hen as (Hio & Hsnd & Hrcv). cbn [remote_data]. rewrite app_nil_r.
    destruct (client_readable_ok _ _ es s rcv snd y Hb Hl Hio Hsnd) as [[-> Hh]|Hok]; [|left; split; [done|by left]|by right].
    intros bs ->. cbn [client_data] in *. split_and!; [by apply Hrcv|by apply Hd|done].
  - destruct Hen as [Hio Hsnd]. right. cbn [client_data remote_data]. rewrite !app_nil_r. by apply client_writable_ok.
  - destruct Hen as ((r & Hr & Hio) & Hsnd & Hrcv). right. cbn [client_data]. rewrite app_nil_r.
    apply (remote_readable_ok _ _ es s r); try done. intros bs ->. split; [by apply Hrcv|done].
  - destruct Hen as ((r & Hr & Hio) & Hsnd). right. cbn [client_data remote_data]. rewrite !app_nil_r. by eapply remote_writable_ok.
  - cbn [client_data remote_data]. rewrite !app_nil_r. destruct (resolved_ok _ _ es s y addr Hb Hl Hen) as [[-> ?]|Hok];
      [left; split; [done|by right]|by right].
  - right. cbn [server_timeout_cb]. split.
    + apply elem_of_app. right. destruct (remote s); [by right; left|by left].
    + intros [r ->]. apply elem_of_app. right. by left.
Qed.

Lemma run_linked evs s es :
  run evs s es -> streams_ok evs -> bare s /\ link (from_client evs) (from_remote evs) es s.
Proof.
  induction 1 as [|evs s es ev s' es' Hrun IH Hen Hh]; intros Hok.
  - pose proof (malloc_length BUF_SIZE ltac:(done)) as Hm. pose proof iv_len_range.
    assert (room (mkBuf (malloc BUF_SIZE) 0)) as Hr by (unfold room; cbn [array]; rewrite Hm; done).
    split; [done|]. apply (Link_init _ _ _ _ (mkBuf (malloc BUF_SIZE) 0)); try done; [by apply (holds_nil (mkBuf (malloc BUF_SIZE) 0))|cbn; lia|by apply (holds_nil (mkBuf (malloc BUF_SIZE) 0))].
  - destruct (IH (streams_prefix _ _ Hok)) as [Hb Hl].
    destruct (event_ok evs es s ev Hb Hl Hen Hok) as [[Hn _]|Ho]; [congruence|]. by rewrite Hh in Ho.
Qed.

(** What waits to be sent to the remote and to the client. *)
Definition waiting_up s : list Z :=
  match remote s with
  | Some r => if r_send_io r then default [] (mread (array (r_buf r)) (r_idx r) (len (r_buf r))) else []
  | None => default [] (mread (array (buf s)) 0 (len (buf s)))
  end.
Definition waiting_down s : list Z :=
  if send_io s then default [] (mread (array (buf s)) (s_idx s) (len (buf s))) else [].

(** The specification of a relay: nothing happens before the request is complete;
    then the peer contacted is the one the header asks for, what was sent to it and
    what waits are the data behind the header, and what was sent to the client and
    what waits are the encrypted answers. *)
Definition relays (rx rr : list Z) (es : list effect) s : Prop :=
  quiet es /\ remote s = None /\ query s = None /\ rr = [] \/
  exists plain iv t tail out,
    dec d0 rx = Some (plain, d_ctx s) /\ evp_iv (d_ctx s) = Some iv /\
    opening iv plain t (auth s) tail /\ body iv (auth s) tail = Some out /\
    head (contacts es) = Some t /\ to_remote es ++ waiting_up s = out /\
    (rr = [] /\ to_client es ++ waiting_down s = [] \/ enc e0 rr = Some (to_client es ++ waiting_down s, e_ctx s)).

Lemma started_body s plain t out :
  started s plain t out -> exists iv tail, evp_iv (d_ctx s) = Some iv /\ opening iv plain t (auth s) tail /\ body iv (auth s) tail = Some out.
Proof.
  intros (iv & tail & Hop & Hiv & _ & Hf). exists iv, tail. split_and!; [done|done|]. unfold body.
  destruct (auth s); [|by subst]. destruct Hf as (st & -> & _). done.
Qed.

Lemma link_relays rx rr es s : link rx rr es s -> relays rx rr es s.
Proof.
  intros Hl. inversion Hl as [hb Hst [Hr _] Hq|plain hb Hst [Hr _] Hq|Hst [Hr _] Hq|plain out host port Hst Hal Hq Hio Hdec Hgo Hh Hroom Hrr Hto Hcl Hct|
    r plain t out up down L]; try by left.
  - right. destruct (started_body _ _ _ _ Hgo) as (iv & tail & Hiv & Hop & Hbody). destruct Hal as (Hr & Hsi & _ & _).
    exists plain, iv, (Lookup host port), tail, out. split_and!; [apply Hdec|done..|by rewrite Hct| |left].
    + unfold waiting_up. rewrite Hto, Hr, (holds_mread _ _ Hh). done.
    + unfold waiting_down. by rewrite Hcl, Hsi.
  - right. destruct L as [Hr Hq Hcon Hdec Hgo Hct Hup Hout Hdown Henc].
    destruct (started_body _ _ _ _ Hgo) as (iv & tail & Hiv & Hop & Hbody).
    assert (waiting_up s = up) as Hwu.
    { unfold waiting_up. rewrite Hr. destruct Hup as [p Hi _ Hp|Hi]; rewrite Hi; [by rewrite (pending_read _ _ _ Hp)|done]. }
    assert (waiting_down s = down) as Hwd.
    { unfold waiting_down. destruct Hdown as [_ _ Hi|p _ _ Hi Hp|_ _ Hi]; rewrite Hi; [done|by rewrite (pending_read _ _ _ Hp)|done]. }
    exists plain, iv, t, tail, out. rewrite Hwu, Hwd. split_and!; [apply Hdec|done..|].
    destruct Henc as [(? & ? & _)|?]; [by left|by right].
Qed.

(** C6: A connection relays: whatever events the event loop delivers, in whatever
    segments data come and however few bytes the sockets take, a connection that
    is still there contacted the peer that the decrypted header asks for and none
    before; what was sent to it, with what waits, is the data behind the header,
    out of authenticated chunks if the header says so; and what was sent to the
    client, with what waits, is the encryption of what the peer sent. *)
Theorem connection_relays evs s es :
  run evs s es -> streams_ok evs -> relays (from_client evs) (from_remote evs) es s.
Proof. intros Hr Hok. by apply link_relays, run_linked. Qed.

(** C7: Take a connection without a plugin and without fast open, over a cipher
    that keeps [CipherLaws] (every method but the table, which has no context),
    whose client sent less than 2^27 bytes that decrypt and whose remote sent what
    can be encrypted ([streams_ok], the event at hand included). While its header
    has not come in pieces (the stage is not [STAGE_HANDSHAKE]) and the payload it
    has gathered is not larger than a buffer, the callback of the next event the
    loop can deliver returns: no access is outside a buffer or through a null
    pointer. If the callback ends the connection it closes the server side, and
    the remote where there is one. *)
Theorem connection_safe evs s es ev :
  run evs s es -> streams_ok (evs ++ [ev]) -> enabled ev s -> stage s <> STAGE_HANDSHAKE -> len (buf s) <= BUF_SIZE ->
  exists o es', handle false ev s = Some (o, es') /\
    (o = None -> CloseServer ∈ es' /\ (is_Some (remote s) -> CloseRemote ∈ es')).
Proof.
  intros Hr Hok Hen Hst Hlen. destruct (run_linked _ _ _ Hr (streams_prefix _ _ Hok)) as [Hb Hl].
  destruct (event_ok evs es s ev Hb Hl Hen Hok) as [[_ [?|?]]|Ho]; [done|lia|].
  destruct (handle false ev s) as [[o es']|]; [|done]. exists o, es'. split; [done|]. by intros ->.
Qed.

End Link.

(** ** An instance

    A cipher that flips the low bit of every byte, without a vector. *)
Definition flip_example (m : list Z) : list Z := map (fun b => Z.lxor b 1) m.
Definition crypt_example (c : unit) (b : buffer_t) : option (Z * buffer_t * unit) :=
  data ← mread (array b) 0 (len b);
  a ← mwrite (array b) 0 (flip_example data);
  Some (0, mkBuf a (len b), c).
#[export] Instance cipher_example : Cipher unit unit := {
  ss_encrypt := crypt_example; ss_decrypt := crypt_example; evp_iv _ := Some [] }.

Definition flip_bytes (c : unit) (m : list Z) : option (list Z * unit) :=
  if decide (is_bytes (flip_example m)) then Some (flip_example m, c) else None.

Lemma flip_app c a b : flip_bytes c (a ++ b) = ('(x, c) ← flip_bytes c a; '(y, c) ← flip_bytes c b; Some (x ++ y, c)).
Proof.
  unfold flip_bytes, flip_example. rewrite map_app. pose proof (Forall_app (fun b => 0 <= b < 256) (map (fun b => Z.lxor b 1) a) (map (fun b => Z.lxor b 1) b)) as Hf.
  repeat (destruct (decide _) as [?|?]; cbn [mbind option_bind]); tauto.
Qed.
Lemma flip_prefix c a b : is_Some (flip_bytes c (a ++ b)) -> is_Some (flip_bytes c a).
Proof. rewrite flip_app. destruct (flip_bytes c a); [eauto|by intros [? ?]]. Qed.
Lemma flip_length c m p c' : flip_bytes c m = Some (p, c') -> p = flip_example m /\ is_bytes p /\ length p = length m.
Proof. unfold flip_bytes. destruct (decide _); [|done]. intros [= <- _]. split_and!; [done..|apply length_map]. Qed.

Lemma flip_buffer c b m p c' :
  flip_bytes c m = Some (p, c') -> holds b m -> room b -> exists b', crypt_example c b = Some (0, b', c') /\ holds b' p /\ room b'.
Proof.
  intros (-> & _ & Hl)%flip_length Hb Hr. destruct c, c'. unfold crypt_example. rewrite (holds_mread _ _ Hb). cbn [mbind option_bind].
  destruct Hb as (Hlen & [r Ha] & Hs). unfold room in *. rewrite Ha in *. rewrite length_app in *.
  change (mwrite (m ++ r) 0 (flip_example m)) with (mwrite ([] ++ m ++ r) 0 (flip_example m)). rewrite (mwrite_app [] m) by done.
  cbn [mbind option_bind app]. eexists. split; [done|]. cbn [array]. rewrite length_app. split; [|lia].
  split_and!; cbn [len array]; [lia|by eexists|rewrite length_app; lia].
Qed.

#[export] Instance cipher_laws_example : CipherLaws unit unit 0.
Proof.
  refine {| enc := flip_bytes; dec := flip_bytes |}.
  - intros e a b c e1 Ha. by rewrite flip_app, Ha.
  - exact flip_prefix.
  - intros e a b c e1 Ha. by rewrite flip_app, Ha.
  - intros d a b Hab _. by eapply flip_prefix.
  - intros d w p d' (_ & Hb & Hl)%flip_length. split; [done|lia].
  - intros d w p d1 _. exists []. split; [done|]. by split; cbn.
  - done.
  - intros e b m c e' He Hb Hr _. by eapply flip_buffer.
  - intros d b w p d' Hd Hb Hr _. by eapply flip_buffer.
Defined.

#[export] Instance iv_len_example : IvLen 0.
Proof. by split. Qed.
Definition malloc_example (n : Z) : list Z := replicate (Z.to_nat n) 0.
#[export] Instance malloc_laws_example : MallocLaws malloc_example.
Proof. split. intros n Hn. unfold malloc_example. rewrite length_replicate. lia. Qed.

(** A request for 10.0.0.7:80 with two bytes of data, which the remote takes one at
    a time, and an answer. *)
Definition sys_example : sys := mkSys true true true TfoFailed true.
Definition plain_example : list Z := [1; 10; 0; 0; 7; 0; 80; 65; 66].
Definition events_example : list event :=
  [Client_readable (Data (flip_example plain_example)) (Sent 0) sys_example; Remote_writable true (Sent 1);
   Remote_writable true (Sent 1); Remote_readable (Data [67; 68]) (Sent 1)].
Definition effects_example : list effect :=
  [Tx 9; Connect (SockIn [10; 0; 0; 7] 80); Reset_addr; ToRemote [65]; ToRemote [66]; Rx 2; ToClient [66]].

Notation server_example := (server_t unit unit unit unit).
Notation run_example := (run (OS := unit) (PS := unit) realloc_example malloc_example hmac_example (fun _ => []) (fun l => l) ip_example
  true 0 [] false false false (None : option (@acl (cork_ip -> bool) (list Z))) tt tt).
Notation handle_example := (handle (OS := unit) (PS := unit) realloc_example malloc_example hmac_example (fun _ => []) (fun l => l) ip_example
  true 0 [] false false false (None : option (@acl (cork_ip -> bool) (list Z))) false).

Notation play_example := (play (OS := unit) (PS := unit) realloc_example malloc_example hmac_example (fun _ => []) (fun l => l) ip_example
  true 0 [] false false false (None : option (@acl (cork_ip -> bool) (list Z)))).

Lemma run_of_example :
  exists s, play_example events_example (start malloc_example tt tt) = Some (s, effects_example) /\ run_example events_example s effects_example.
Proof.
  eexists. split; [vm_compute; reflexivity|]. eapply (play_run _ _ _ _ _ _ _ _ _ _ _ _ _ tt tt events_example [] _ []); [apply run_start|]. vm_compute. reflexivity.
Qed.

Lemma streams_example : streams_ok 0 tt tt events_example.
Proof. repeat split; [intros _|]; (eexists; vm_compute; reflexivity). Qed.

Lemma connection_relays_witness :
  exists s, relays (OS := unit) (PS := unit) hmac_example (fun l => l) ip_example 0 [] false (None : option (@acl (cork_ip -> bool) (list Z)))
    tt tt (flip_example plain_example) [67; 68] effects_example s.
Proof.
  destruct run_of_example as (s & _ & Hr). exists s.
  exact (connection_relays realloc_example malloc_example hmac_example (fun _ => []) (fun l => l) ip_example true 0 [] false false false
    (None : option (@acl (cork_ip -> bool) (list Z))) tt tt events_example s effects_example Hr streams_example).
Defined.

Lemma connection_safe_witness :
  exists s o es', handle_example Timed_out s = Some (o, es') /\
    (o = None -> CloseServer ∈ es' /\ (is_Some (remote s) -> CloseRemote ∈ es')).
Proof.
  destruct run_of_example as (s & Hs & Hr). exists s.
  apply (connection_safe realloc_example malloc_example hmac_example (fun _ => []) (fun l => l) ip_example true 0 [] false false false
    (None : option (@acl (cork_ip -> bool) (list Z))) tt tt events_example s effects_example Timed_out Hr).
  - repeat split; [intros _|]; (eexists; vm_compute; reflexivity).
  - exact I.
  - vm_compute in Hs. injection Hs as <-. done.
  - vm_compute in Hs. injection Hs as <-. done.
Defined.

End Session.
