(* ===== verification/Request.v ===== *)
(** * Request: what becomes of a request

    The way from the client's first bytes to the remote in src/server/server.c,
    forwards: a request that is complete in the first segment is granted; one whose
    header comes in pieces depends on what the last piece looks like by itself, since
    [server_recv_cb] asks [is_header_complete] of the piece and not of what was put
    together; and the pieces may be more than the remote's buffer holds. *)

From S2P Require Import Prelude Libc Acl Ota Relay Session.

Import Libc Acl Ota Relay Session.

#[local] Arguments Z.eqb : simpl never.
#[local] Arguments Z.leb : simpl never.
#[local] Arguments Z.ltb : simpl never.

Module Request.

Section Granted.
Context {CE CD OS PS S R : Type} `{Cipher CE CD} `{IpSet S} `{Pcre R}.
Context (realloc : list Z -> Z -> list Z) (malloc : Z -> list Z) (hmac : list Z -> list Z -> list Z).
Context (dns_ntop : sockaddr -> list Z) (dns_pton : list Z -> list Z) (cork_ip_init : list Z -> option cork_ip).
Context (signed_char : bool) (enc_iv_len : Z) (enc_key : list Z).
Context (auth_on obfs_compatible protocol_compatible : bool) (acl_lists : option (@acl S R)).
Context {RL : ReallocLaws realloc} {ML : MallocLaws malloc} {HL : HmacLaws hmac} {CL : CipherLaws CE CD enc_iv_len} {IL : IvLen enc_iv_len}.
Context (e0 : CE) (d0 : CD).

Notation server_t := (server_t CE CD OS PS).
Notation handle := (handle realloc malloc hmac dns_ntop dns_pton cork_ip_init signed_char enc_iv_len enc_key auth_on
  obfs_compatible protocol_compatible acl_lists).
Notation request_header := (request_header dns_pton cork_ip_init).
Notation opening := (opening hmac dns_pton cork_ip_init enc_iv_len enc_key auth_on acl_lists).
Notation body := (body hmac enc_iv_len).
Notation ota_of := (ota_of auth_on).
Notation header_mac := (header_mac hmac enc_iv_len enc_key).
Notation verify_header := (verify_header hmac enc_iv_len enc_key auth_on).
Notation check_hash := (check_hash realloc hmac enc_iv_len).
Notation cut_header := (cut_header realloc hmac enc_iv_len).
Notation parse_request := (parse_request realloc malloc hmac dns_ntop dns_pton cork_ip_init enc_iv_len enc_key auth_on acl_lists).
Notation start_remote := (start_remote malloc dns_ntop cork_ip_init acl_lists).
Notation run := (run realloc malloc hmac dns_ntop dns_pton cork_ip_init signed_char enc_iv_len enc_key auth_on
  obfs_compatible protocol_compatible acl_lists e0 d0).
Notation streams_ok := (streams_ok enc_iv_len e0 d0).
Notation link := (link hmac dns_pton cork_ip_init enc_iv_len enc_key auth_on acl_lists e0 d0).
Notation after_decode := (after_decode realloc malloc hmac dns_ntop dns_pton cork_ip_init enc_iv_len enc_key auth_on acl_lists).
Implicit Types s : server_t.

(** ** A request in one piece *)

(** The length of a header is what [is_header_complete] asks for. *)
Lemma opening_complete b iv plain t ota tail :
  opening iv plain t ota tail -> holds b plain -> is_header_complete auth_on b = Some 1.
Proof using HL.
  intros [hdr Hr _ -> ->] Hb. pose proof Hb as (Hl & _). rewrite length_app in Hl. unfold is_header_complete.
  assert (ota_of hdr = auth_on || negb (Z.land (hd 0 hdr) ONETIMEAUTH_FLAG =? 0)) as Ho by (destruct Hr; done).
  assert (forall n, n + 2 = Z.of_nat (length hdr) ->
    (if ota_of hdr then n + 2 + ONETIMEAUTH_BYTES else n + 2) <=? len b = true) as Hfin.
  { intros n ->. unfold ONETIMEAUTH_BYTES. destruct (ota_of hdr); [|apply Z.leb_le; rewrite Hl; lia].
    rewrite length_app in Hl. pose proof (length_header_mac hmac enc_iv_len enc_key iv hdr). apply Z.leb_le. lia. }
  rewrite Ho in Hfin.
  destruct Hr as [atyp addr port Ha Hla Hp|atyp addr port Ha Hla Hp|atyp name port Ha Hp Hc Hv|atyp name port x Ha Hn Hp Hc|atyp name port x Ha Hn Hp Hc];
    cbn [hd] in *; rewrite (holds_byte b [] atyp _ 0 Hb eq_refl); cbn [mbind option_bind]; rewrite Ha;
    change (1 =? 1) with true; change (4 =? 1) with false; change (4 =? 3) with false; change (4 =? 4) with true;
    change (3 =? 1) with false; change (3 =? 3) with true; cbn match; cbn [length] in *; rewrite length_app in *.
  1-2: rewrite Hfin by lia; done.
  all: rewrite (proj2 (Z.ltb_ge _ _)) by lia; erewrite (holds_byte b [atyp]) by (exact Hb || done);
    cbn [mbind option_bind]; rewrite Hfin by lia; done.
Qed.

Lemma check_hash_passes s iv b x out :
  evp_iv (d_ctx s) = Some iv -> IvFits enc_iv_len iv -> chunk s = chunk0 -> holds b x -> room b -> is_bytes x ->
  Z.of_nat (length x) < 2 ^ 28 -> body iv (auth s) x = Some out ->
  exists b' ck, check_hash b s = Some (true, b', set_chunk ck s) /\ holds b' out /\ room b'.
Proof using RL HL.
  intros Hiv Hfit Hck Hb Hroom Hby Hx. unfold Relay.check_hash, Session.body. destruct (auth s).
  - rewrite Hiv. cbn [mbind option_bind].
    assert (receiver_at ([], 0) (chunk s)) as Hat by (rewrite Hck; split; [done|by right]).
    destruct (check_hash_feed realloc hmac enc_iv_len iv b (chunk s) BUF_SIZE ([], 0) x Hat Hb Hby ltac:(done)) as (r & b' & ck & -> & Hr).
    cbn [mbind option_bind]. destruct (feed hmac enc_iv_len iv ([], 0) x) as [[o st]|]; [|done]. intros [= <-].
    destruct Hr as (-> & Hl & Hp & _ & _ & Hlo & Hhi). exists b', ck. split; [done|]. unfold room, BUF_SIZE in *. cbn [fst].
    split; [split_and!; [done|done|lia]|lia].
  - intros [= <-]. exists b, (chunk s). split_and!; [by destruct s|done|done].
Qed.

Lemma verify_header_passes s iv hdr t tail :
  evp_iv (d_ctx s) = Some iv -> IvFits enc_iv_len iv -> auth s = false -> request_header hdr t ->
  holds (buf s) (hdr ++ (if ota_of hdr then header_mac iv hdr else []) ++ tail) ->
  verify_header (hd 0 hdr) s = Some (Go (set_auth (ota_of hdr) s)).
Proof using HL.
  intros Hiv Hfit Hau Hr Hb. unfold Relay.verify_header.
  assert (auth_on || negb (Z.land (hd 0 hdr) ONETIMEAUTH_FLAG =? 0) = ota_of hdr) as -> by (destruct Hr; done).
  destruct (ota_of hdr); [|by destruct s; cbn in *; subst].
  destruct (parse_header_len_ok dns_pton cork_ip_init (buf s) hdr _ t Hr Hb) as [_ ->]. cbn [mbind option_bind].
  pose proof (length_header_mac hmac enc_iv_len enc_key iv hdr) as Hlm. pose proof Hb as (Hl & [r Hra] & Hs). rewrite !length_app in Hl.
  assert (1 < Z.of_nat (length hdr)) as Hh by (destruct Hr; cbn [length]; rewrite ?length_app; lia).
  unfold ONETIMEAUTH_BYTES. rewrite (proj2 (Z.eqb_neq _ 0)), (proj2 (Z.ltb_ge _ _)) by lia. cbn [orb]. rewrite Hiv. cbn [mbind option_bind].
  assert (holds (mkBuf (array (buf s)) (1 + (Z.of_nat (length hdr) - 1) + 10)) (hdr ++ header_mac iv hdr)) as Hmac.
  { split_and!; cbn [array len]; [rewrite length_app; lia| |done]. rewrite Hra. exists (tail ++ r). list_assoc. }
  rewrite (onetimeauth_verify_holds hmac enc_iv_len enc_key iv _ _ _ Hmac) by lia. cbn [mbind option_bind].
  rewrite bool_decide_true by done. done.
Qed.

Lemma cut_header_passes s iv hdr tail out :
  evp_iv (d_ctx s) = Some iv -> IvFits enc_iv_len iv -> chunk s = chunk0 ->
  holds (buf s) (hdr ++ (if auth s then header_mac iv hdr else []) ++ tail) -> room (buf s) -> is_bytes tail ->
  Z.of_nat (length tail) < 2 ^ 28 -> body iv (auth s) tail = Some out ->
  exists b ck, cut_header (Z.of_nat (length hdr) - 2) s = Some (Go (set_buf b (set_chunk ck s))) /\ holds b out /\ room b.
Proof using RL HL.
  intros Hiv Hfit Hck Hb Hroom Hby Htail Hbody. unfold Relay.cut_header. set (mac := if auth s then header_mac iv hdr else []) in *.
  assert ((if auth s then Z.of_nat (length hdr) - 2 + 2 + ONETIMEAUTH_BYTES else Z.of_nat (length hdr) - 2 + 2) = Z.of_nat (length (hdr ++ mac))) as ->.
  { rewrite length_app. unfold mac, ONETIMEAUTH_BYTES. destruct (auth s); [|cbn; lia].
    rewrite (length_header_mac hmac enc_iv_len enc_key iv). lia. }
  rewrite app_assoc in Hb. pose proof Hb as (Hl & _). rewrite length_app in Hl.
  rewrite (proj2 (Z.ltb_ge _ _)) by lia. destruct (holds_suffix _ _ _ Hb Hroom) as (a & -> & Hw & Hh & Hr).
  cbn [mbind option_bind]. rewrite Hw. cbn [mbind option_bind].
  destruct (check_hash_passes s iv _ tail out Hiv Hfit Hck Hh Hr Hby Htail Hbody) as (b' & ck & -> & Hh' & Hr').
  cbn [mbind option_bind negb]. exists b', ck. done.
Qed.

(** A request that opens the decrypted data is parsed and started. *)
Lemma parse_known s y iv plain t ota tail out :
  evp_iv (d_ctx s) = Some iv -> IvFits enc_iv_len iv -> auth s = false -> chunk s = chunk0 -> holds (buf s) plain -> room (buf s) ->
  is_bytes plain -> Z.of_nat (length plain) < 2 ^ 28 -> opening iv plain t ota tail -> body iv ota tail = Some out ->
  exists b ck, holds b out /\ room b /\
    parse_request false y s = (r ← start_remote false y t (set_buf b (set_chunk ck (set_auth ota s))); Some (Go r)).
Proof using RL HL.
  intros Hiv Hfit Hau Hck Hb Hroom Hby Hbig [hdr Hr Hbl -> ->] Hbody.
  apply Forall_app in Hby as [Hbh Hby]. apply Forall_app in Hby as [_ Hby]. rewrite !length_app in Hbig.
  destruct (parse_target_complete (CE := CE) (CD := CD) (OS := OS) (PS := PS) dns_pton cork_ip_init acl_lists (buf s) hdr _ t Hb Hr) as (atyp & Hat & Hpt).
  rewrite Hbl in Hpt. assert (hd 0 hdr = atyp) as Hhd by (destruct hdr; cbn in *; congruence).
  pose proof (verify_header_passes s iv hdr t tail Hiv Hfit Hau Hr Hb) as Hv. rewrite Hhd in Hv.
  destruct (cut_header_passes (set_auth (ota_of hdr) s) iv hdr tail out Hiv Hfit Hck Hb Hroom Hby ltac:(lia) Hbody) as (b & ck & Hcut & Hh & Hro).
  exists b, ck. split_and!; [done|done|]. unfold Relay.parse_request.
  assert (array (buf s) @! 0 = Some atyp) as ->.
  { destruct hdr as [|x hdr]; [done|]. cbn in Hat. injection Hat as ->. exact (holds_byte (buf s) [] atyp _ 0 Hb eq_refl). }
  cbn [mbind option_bind]. rewrite Hv. cbn [andthen]. change (buf (set_auth (ota_of hdr) s)) with (buf s). rewrite Hpt. cbn [andthen].
  rewrite Hcut. done.
Qed.

(** The system calls to a connected socket work, and the address is not on the
    outbound list. *)
Definition grants (y : sys) (t : target) : Prop :=
  match t with
  | Direct a => socket_ok y && bind_ok y && setinterface_ok y && connect_ok y = true /\
      match acl_lists with Some l => outbound_block_match_host cork_ip_init l (dns_ntop a) <> 1 | None => True end
  | Lookup _ _ => True
  end.

Lemma connect_granted y a s :
  grants y (Direct a) -> connect_to_remote malloc dns_ntop cork_ip_init acl_lists false y a s = Some (Some (new_remote malloc), s, [Connect a]).
Proof.
  intros [Hok Hl]. apply andb_prop in Hok as [Hok H4]. apply andb_prop in Hok as [Hok H3]. apply andb_prop in Hok as [Hs Hbd].
  unfold connect_to_remote. rewrite Hs, Hbd, H3. cbn [negb].
  assert ((match acl_lists with Some l => outbound_block_match_host cork_ip_init l (dns_ntop a) =? 1 | None => false end) = false) as ->.
  { destruct acl_lists; [by apply Z.eqb_neq|done]. }
  cbn [andb mbind option_bind]. rewrite H4. by destruct s.
Qed.

(** Data that go to a new remote's buffer at once. *)
Definition at_once (t : target) (out : list Z) : Z := match t with Direct _ => Z.of_nat (length out) | Lookup _ _ => 0 end.

Lemma start_granted y t s out :
  grants y t -> holds (buf s) out -> room (buf s) -> remote s = None -> at_once t out <= BUF_SIZE ->
  exists s' es, start_remote false y t s = Some (Some s', es) /\ contacts es = [t] /\ waiting_up s' = out.
Proof using ML.
  intros Hg Hb Hr Hrem Hout. destruct t as [a|host port]; cbn [Relay.start_remote].
  - rewrite (connect_granted y a s Hg). cbn [mbind option_bind].
    destruct (hand_over_ok malloc s out Hb Hr Hout) as (r & s' & -> & Hp & _). cbn [mbind option_bind].
    eexists _, _. split_and!; [done|done|]. unfold waiting_up. cbn. by rewrite (pending_read _ _ _ Hp).
  - eexists _, _. split_and!; [done|done|]. unfold waiting_up. cbn. rewrite Hrem. by rewrite (holds_mread _ _ Hb).
Qed.

Lemma start_big y t s out :
  grants y t -> holds (buf s) out -> BUF_SIZE < at_once t out -> start_remote false y t s = None.
Proof using ML.
  intros Hg Hb Hout. destruct t as [a|]; [|done]. cbn [Relay.start_remote]. rewrite (connect_granted y a s Hg). cbn [mbind option_bind].
  by rewrite (hand_over_big malloc s out).
Qed.

Lemma body_shorter iv plain t ota tail out : opening iv plain t ota tail -> body iv ota tail = Some out -> (length out <= length plain)%nat.
Proof.
  intros [hdr _ _ _ ->] Hb. rewrite !length_app. unfold Session.body in Hb. destruct ota; [|simplify_eq; lia].
  destruct (feed hmac enc_iv_len iv ([], 0) tail) as [[o st]|] eqn:Ef; [|done]. apply feed_shorter in Ef. cbn in *. simplify_eq. lia.
Qed.

(** C8: A request is granted: when the first bytes that are more than a vector and
    one byte hold a header that is complete, allowed and authentic, the server
    contacts the peer it asks for and nobody else, and what came behind the header
    waits for that peer, whole. *)
Theorem request_granted evs s es bs snd y plain d iv t ota tail out :
  run evs s es -> streams_ok evs -> stage s = STAGE_INIT ->
  enc_iv_len + 1 < Z.of_nat (length (from_client evs ++ bs)) -> Z.of_nat (length bs) <= recv_room s ->
  dec d0 (from_client evs ++ bs) = Some (plain, d) -> evp_iv d = Some iv -> opening iv plain t ota tail ->
  body iv ota tail = Some out -> grants y t ->
  exists s' es', handle false (Client_readable (Data bs) snd y) s = Some (Some s', es') /\ contacts es' = [t] /\ waiting_up s' = out.
Proof using RL ML HL IL.
  intros Hrun Hok Hst Hlong Hroom Hdec Hiv Hop Hbody Hg.
  destruct (run_linked realloc malloc _ _ _ _ _ _ _ _ _ _ _ _ _ _ _ _ Hrun Hok) as [Hbare Hl].
  inversion Hl as [hb _ Hal Hq _ Hau Hck Hh Hr Hn Hhb Hhn Hd Hrr Hqu|? ? Hs|Hs|? ? ? ? Hs|r ? ? ? ? ? L]; try (rewrite Hst in Hs; done).
  2: { destruct L as [_ _ _ _ _ _ _ _ [[Hs|Hs]|? Hs|Hs] _]; rewrite Hst in Hs; done. }
  pose proof iv_len_range as Hivl. destruct Hal as (Hrem & _). unfold recv_room in Hroom. rewrite Hst in Hroom.
  change (STAGE_PARSE <? STAGE_INIT) with false in Hroom. cbn match in Hroom. pose proof Hh as (Hlb & _). rewrite length_app in Hlong.
  cbn [Relay.handle]. unfold server_recv_cb, cur_buf. rewrite Hst. change (STAGE_PARSE <? STAGE_INIT) with false. cbn match. cbn [mbind option_bind].
  rewrite (proj2 (Z.ltb_ge _ _)) by lia.
  destruct (recv_into (buf s) _ bs (len (buf s)) Hh Hr Hlb ltac:(lia)) as (a & -> & Hh2 & Hr2). cbn [mbind option_bind].
  change (STAGE_INIT =? STAGE_ERROR) with false. change (STAGE_INIT =? STAGE_INIT) with true. cbn match. cbn [len].
  rewrite (proj2 (Z.leb_gt _ _)) by lia.
  destruct (dec_data _ _ _ _ Hdec) as [Hby Hlp]. rewrite length_app in Hlp.
  destruct (relay_up_bare realloc malloc hmac dns_ntop dns_pton cork_ip_init enc_iv_len enc_key auth_on obfs_compatible protocol_compatible
    acl_lists snd y _ s _ plain d Hbare ltac:(by rewrite Hd) Hh2 Hr2 ltac:(rewrite length_app; lia)) as (b & Hb & Hrb & ->).
  unfold put_buf. cbn [set_d_ctx stage]. rewrite Hst. change (STAGE_PARSE <? STAGE_INIT) with false. cbn match.
  unfold Session.after_decode, header_init. cbn [stage set_buf set_d_ctx buf]. rewrite Hst. change (STAGE_INIT =? STAGE_INIT) with true. cbn match.
  rewrite (opening_complete _ _ _ _ _ _ Hop Hb). cbn [mbind option_bind]. change (1 =? 1) with true. cbn match. cbn [andthen].
  unfold header_handshake. cbn [stage set_stage]. change (STAGE_PARSE =? STAGE_HANDSHAKE) with false. cbn match. cbn [andthen].
  change (STAGE_PARSE =? STAGE_STREAM) with false. change (STAGE_PARSE =? STAGE_PARSE) with true. cbn match.
  set (s1 := set_stage STAGE_PARSE (set_header_buf None (set_buf b (set_d_ctx d s)))).
  destruct (dec_iv _ _ _ _ Hdec) as (iv' & Hiv' & Hfit). assert (iv' = iv) as -> by congruence.
  unfold BUF_SIZE in Hroom.
  destruct (parse_known s1 y iv plain t ota tail out Hiv Hfit Hau Hck Hb Hrb Hby ltac:(lia) Hop Hbody) as (b1 & ck & Hh1 & Hr1 & ->).
  assert (length out <= length plain)%nat as Hol by (by eapply body_shorter).
  destruct (start_granted y t (set_buf b1 (set_chunk ck (set_auth ota s1))) out Hg Hh1 Hr1 Hrem ltac:(unfold at_once, BUF_SIZE; case_match; lia)) as (s' & es' & -> & Hct & Hw).
  cbn [mbind option_bind returned]. eexists s', (_ :: es'). split_and!; [done|by cbn|done].
Qed.

(** ** A request in pieces *)

Lemma run_prefix a b s es : run (a ++ b) s es -> exists s1 es1, run a s1 es1.
Proof.
  revert s es. induction b as [|ev b IH] using rev_ind; intros s es Hr; [rewrite app_nil_r in Hr; eauto|].
  rewrite app_assoc in Hr. inversion Hr as [E|evs s0 es0 ev' s' es' Hr0 _ _ E]; [by destruct (a ++ b)|].
  apply app_inj_tail in E as [-> _]. by eapply IH.
Qed.
Lemma run_same evs s es : run evs s es -> forall s' es', run evs s' es' -> s' = s /\ es' = es.
Proof.
  induction 1 as [|evs s es ev s1 es1 _ IH _ Hh]; intros s' es' Hr; inversion Hr as [E|evs0 s0 es0 ev0 s2 es2 Hr0 _ Hh0 E].
  - done.
  - by destruct evs0.
  - by destruct evs.
  - apply app_inj_tail in E as [-> ->]. destruct (IH _ _ Hr0) as [-> ->]. rewrite Hh in Hh0. by simplify_eq.
Qed.

(** Nothing happens on a connection in error. *)
Definition dead s (es : list effect) : Prop :=
  stage s = STAGE_ERROR /\ remote s = None /\ query s = None /\ send_io s = false /\ quiet es.

Lemma dead_stays s es ev s' es' :
  dead s es -> enabled ev s -> handle false ev s = Some (Some s', es') -> dead s' (es ++ es').
Proof.
  intros (Hst & Hr & Hq & Hsi & Hqu) Hen Hh. assert (forall n, quiet (es ++ [Tx n])) as Htx by (intros n; by apply quiet_done).
  destruct ev as [rcv snd y|snd|rcv snd|peer snd|y addr|]; cbn [enabled Relay.handle] in *.
  - unfold server_recv_cb, cur_buf, cur_remote in Hh. rewrite Hst in Hh. change (STAGE_PARSE <? STAGE_ERROR) with false in Hh.
    cbn match in Hh. cbn [mbind option_bind] in Hh. destruct (BUF_SIZE <? len (buf s)); [done|].
    destruct rcv as [bs| | |]; [|done|simplify_eq; by rewrite app_nil_r|done].
    destruct (mwrite _ _ _) as [a|]; [|done]. cbn [mbind option_bind] in Hh. change (STAGE_ERROR =? STAGE_ERROR) with true in Hh. cbn in Hh.
    injection Hh as <- <-. split_and!; done || apply Htx.
  - destruct Hen; congruence.
  - destruct Hen as ((r & ? & _) & _); congruence.
  - destruct Hen as ((r & ? & _) & _); congruence.
  - rewrite Hq in Hen. by destruct Hen.
  - done.
Qed.

Lemma dead_for_ever evs s es evs2 s2 es2 : run evs s es -> dead s es -> run (evs ++ evs2) s2 es2 -> dead s2 es2.
Proof.
  intros Hr Hd. revert s2 es2. induction evs2 as [|ev evs2 IH] using rev_ind; intros s2 es2 Hr2.
  - rewrite app_nil_r in Hr2. by destruct (run_same _ _ _ Hr _ _ Hr2) as [-> ->].
  - rewrite app_assoc in Hr2. inversion Hr2 as [E|evs0 s0 es0 ev' s' es' Hr0 Hen Hh E]; [by destruct (evs ++ evs2)|].
    apply app_inj_tail in E as [-> ->]. subst. by eapply dead_stays; [apply IH| |].
Qed.

(** More bytes while the header is incomplete. *)
Lemma handshake_step evs s es bs snd y p d :
  run evs s es -> streams_ok evs -> stage s = STAGE_HANDSHAKE -> Z.of_nat (length bs) <= recv_room s -> dec (d_ctx s) bs = Some (p, d) ->
  exists h hb b, dec d0 (from_client evs) = Some (h, d_ctx s) /\ header_buf s = Some hb /\ holds hb h /\ holds b p /\ room b /\
    Z.of_nat (length h) < 2 ^ 27 /\ Z.of_nat (length p) <= BUF_SIZE /\ is_bytes p /\
    alone e0 s /\ query s = None /\ quiet es /\ auth s = false /\ chunk s = chunk0 /\
    handle false (Client_readable (Data bs) snd y) s =
      ('(s, es) ← after_decode snd y (set_buf b (set_d_ctx d s)); Some (s, Tx (Z.of_nat (length bs)) :: es)).
Proof using RL ML HL IL.
  intros Hrun Hok Hst Hroom Hdec. pose proof iv_len_range as Hivl. unfold recv_room in Hroom. rewrite Hst in Hroom.
  change (STAGE_PARSE <? STAGE_HANDSHAKE) with false in Hroom. cbn match in Hroom.
  destruct (run_linked realloc malloc _ _ _ _ _ _ _ _ _ _ _ _ _ _ _ _ Hrun Hok) as [Hbare Hl].
  inversion Hl as [? Hs|h hb _ Hal Hq Hio Hau Hck Hlen Hr Hhb Hhp [Hge Hdh] Hrr Hqu|Hs|? ? ? ? Hs|r ? ? ? ? ? L]; try (rewrite Hst in Hs; done).
  2: { destruct L as [_ _ _ _ _ _ _ _ [[Hs|Hs]|? Hs|Hs] _]; rewrite Hst in Hs; done. }
  rewrite Hlen in Hroom. destruct (dec_data _ _ _ _ Hdh) as [_ Hlh]. destruct (dec_data _ _ _ _ Hdec) as [Hby Hlp].
  destruct Hok as (_ & _ & Hrx).
  cbn [Relay.handle]. unfold server_recv_cb, cur_buf. rewrite Hst. change (STAGE_PARSE <? STAGE_HANDSHAKE) with false. cbn match. cbn [mbind option_bind].
  rewrite Hlen. change (BUF_SIZE <? 0) with false. cbn match.
  destruct (recv_into (mkBuf (array (buf s)) 0) [] bs 0 (holds_nil _ Hr) Hr eq_refl) as (a & Ha & Hh2 & Hr2); [cbn; lia|].
  cbn [array] in Ha. rewrite Ha. cbn [mbind option_bind]. rewrite Z.add_0_l in Hh2, Hr2.
  change (STAGE_HANDSHAKE =? STAGE_ERROR) with false. change (STAGE_HANDSHAKE =? STAGE_INIT) with false. cbn match.
  destruct (relay_up_bare realloc malloc hmac dns_ntop dns_pton cork_ip_init enc_iv_len enc_key auth_on obfs_compatible protocol_compatible
    acl_lists snd y _ s bs p d Hbare Hdec Hh2 Hr2 ltac:(lia)) as (b & Hb & Hrb & ->).
  unfold put_buf. cbn [set_d_ctx stage]. rewrite Hst. change (STAGE_PARSE <? STAGE_HANDSHAKE) with false. cbn match.
  exists h, hb, b. split_and!; done || lia.
Qed.

Lemma after_handshake snd y s :
  stage s = STAGE_HANDSHAKE ->
  after_decode snd y s = returned (
    let* s := header_handshake realloc auth_on s in
    if stage s =? STAGE_STREAM then r ← remote s; x ← stream_up realloc hmac enc_iv_len snd r s; Some (Go x)
    else if stage s =? STAGE_PARSE then parse_request false y s
    else None).
Proof. intros Hst. unfold Session.after_decode, header_init. by rewrite Hst. Qed.

(** What the buffer with the last piece says. *)
Lemma complete_holds b p r : is_header_complete auth_on (mkBuf p (Z.of_nat (length p))) = Some r -> holds b p -> is_header_complete auth_on b = Some r.
Proof.
  intros Hc (Hl & [q Hq] & _). unfold is_header_complete in *. cbn [len array] in Hc. rewrite Hl, Hq.
  assert (forall i v, rd p i = Some v -> rd (p ++ q) i = Some v) as Hrd.
  { intros i v. rewrite !rd_Some. intros [Hi Hv]. split; [done|]. by apply lookup_app_l_Some. }
  destruct (rd p 0) as [x|] eqn:E0; [|done]. rewrite (Hrd _ _ E0). cbn [mbind option_bind] in *.
  destruct (_ =? 1); [done|]. destruct (_ =? 3); [|done]. destruct (_ <? 2); [done|].
  destruct (rd p 1) as [n|] eqn:E1; [|done]. by rewrite (Hrd _ _ E1).
Qed.

(** C9: A header in pieces is judged by its last piece alone: when that does not start
    with a type of address, the connection is dead, whatever the pieces say when
    they are put together, and stays so: it reads what the client sends and
    contacts nobody. *)
Theorem pieces_refused evs s es bs snd y x p d :
  run evs s es -> streams_ok evs -> stage s = STAGE_HANDSHAKE -> Z.of_nat (length bs) <= recv_room s ->
  dec (d_ctx s) bs = Some (x :: p, d) -> Z.land x ADDRTYPE_MASK <> 1 -> Z.land x ADDRTYPE_MASK <> 3 -> Z.land x ADDRTYPE_MASK <> 4 ->
  (exists s', handle false (Client_readable (Data bs) snd y) s = Some (Some s', [Tx (Z.of_nat (length bs))])) /\
  forall evs2 s2 es2, run ((evs ++ [Client_readable (Data bs) snd y]) ++ evs2) s2 es2 -> stage s2 = STAGE_ERROR /\ remote s2 = None /\ quiet es2.
Proof using RL ML HL IL.
  intros Hrun Hok Hst Hroom Hdec H1' H3' H4'.
  destruct (handshake_step _ _ _ bs snd y _ _ Hrun Hok Hst Hroom Hdec) as (h & hb & b & Hdh & Hhb & Hh & Hb & Hrb & Hlh & Hlp & Hby & Hal & Hq & Hqu & _ & _ & Hstep).
  set (s1 := set_buf b (set_d_ctx d s)) in *.
  destruct (handshake_ok realloc auth_on s1 h (x :: p) hb Hst Hhb Hh Hb Hrb Hby) as (f & Hf & Hfx); [unfold BUF_SIZE in *; lia|].
  assert (is_header_complete auth_on b = Some (-1)) as Hc.
  { apply (complete_holds b (x :: p)); [|done]. unfold is_header_complete. cbn [array]. change (rd (x :: p) 0) with (Some x).
    cbn [mbind option_bind]. by rewrite (proj2 (Z.eqb_neq _ _) H1'), (proj2 (Z.eqb_neq _ _) H3'), (proj2 (Z.eqb_neq _ _) H4'). }
  change (buf s1) with b in Hfx. destruct f as [s'|o es']; [destruct Hfx as (? & _ & _ & _ & Hc' & _); congruence|].
  destruct Hfx as (-> & hb' & ret & _ & Hret & _ & ->). assert (ret = -1) as -> by congruence.
  rewrite after_handshake, Hf in Hstep by done. cbn [andthen returned mbind option_bind] in Hstep. split; [by eexists|].
  intros evs2 s2 es2 Hr2. destruct (run_prefix _ _ _ _ Hr2) as (s3 & es3 & Hr3).
  assert (dead s3 es3) as Hd3.
  { inversion Hr3 as [E|evs0 s0 es0 ev' s' es' Hr0 _ Hh0 E]; [by destruct evs|]. apply app_inj_tail in E as [-> ->]. subst.
    destruct (run_same _ _ _ Hrun _ _ Hr0) as [-> ->]. rewrite Hstep in Hh0. injection Hh0 as <- <-.
    destruct Hal as (? & ? & _). split_and!; try done. by apply quiet_done. }
  destruct (dead_for_ever _ _ _ _ _ _ Hr3 Hd3 Hr2) as (? & ? & _ & _ & ?). done.
Qed.

(** When the last piece does look complete by itself, the pieces are put together
    and the request is granted; but what came behind the header may be more than
    the new remote's buffer holds, and then it is written behind its end. *)
Theorem pieces_put_together evs s es bs snd y p plain d iv t ota tail out :
  run evs s es -> streams_ok evs -> stage s = STAGE_HANDSHAKE -> Z.of_nat (length bs) <= recv_room s ->
  dec (d_ctx s) bs = Some (p, d) -> is_header_complete auth_on (mkBuf p (Z.of_nat (length p))) = Some 1 ->
  dec d0 (from_client evs ++ bs) = Some (plain, d) -> evp_iv d = Some iv -> opening iv plain t ota tail ->
  body iv ota tail = Some out -> grants y t ->
  if BUF_SIZE <? at_once t out then handle false (Client_readable (Data bs) snd y) s = None
  else exists s' es', handle false (Client_readable (Data bs) snd y) s = Some (Some s', es') /\ contacts es' = [t] /\ waiting_up s' = out.
Proof using RL ML HL IL.
  intros Hrun Hok Hst Hroom Hdec Hcp Hall Hiv Hop Hbody Hg.
  destruct (handshake_step _ _ _ bs snd y _ _ Hrun Hok Hst Hroom Hdec) as (h & hb & b & Hdh & Hhb & Hh & Hb & Hrb & Hlh & Hlp & Hby & (Hrem & _) & Hq & Hqu & Hau & Hck & Hstep).
  rewrite Hstep. clear Hstep. set (s1 := set_buf b (set_d_ctx d s)) in *. rewrite after_handshake by done.
  rewrite (dec_app _ _ bs _ _ Hdh), Hdec in Hall. cbn [mbind option_bind] in Hall. injection Hall as <-.
  destruct (handshake_ok realloc auth_on s1 h p hb Hst Hhb Hh Hb Hrb Hby) as (f & -> & Hfx); [unfold BUF_SIZE in *; lia|].
  pose proof (complete_holds b p 1 Hcp Hb) as Hc. change (buf s1) with b in Hfx.
  destruct f as [s'|o es']; [|destruct Hfx as (_ & hb' & ret & _ & Hret & Hne & _); congruence].
  destruct Hfx as (b1 & -> & Hb1 & Hrb1 & _). cbn [andthen stage set_stage].
  change (STAGE_PARSE =? STAGE_STREAM) with false. change (STAGE_PARSE =? STAGE_PARSE) with true. cbn match.
  set (s2 := set_stage STAGE_PARSE (set_header_buf None (set_buf b1 s1))).
  assert (is_bytes (h ++ p)) as Hbhp by (apply Forall_app; split; [by apply (dec_data _ _ _ _ Hdh)|done]).
  destruct (dec_iv _ _ _ _ Hdec) as (iv' & Hiv' & Hfit). assert (iv' = iv) as -> by congruence. unfold BUF_SIZE in Hlp.
  destruct (parse_known s2 y iv (h ++ p) t ota tail out Hiv Hfit Hau Hck Hb1 Hrb1 Hbhp ltac:(rewrite length_app; lia) Hop Hbody)
    as (b2 & ck & Hh2 & Hr2 & ->).
  destruct (BUF_SIZE <? at_once t out) eqn:Ebig; zify_bool.
  - by rewrite (start_big y t (set_buf b2 (set_chunk ck (set_auth ota s2))) out Hg Hh2 Ebig).
  - destruct (start_granted y t (set_buf b2 (set_chunk ck (set_auth ota s2))) out Hg Hh2 Hr2 Hrem Ebig) as (s' & es' & -> & Hct & Hw).
    cbn [mbind option_bind returned]. eexists s', (_ :: es'). split_and!; [done|by cbn|done].
Qed.

(** ** Fast open *)

Lemma fast_open_connect y a s out n :
  grants y (Direct a) -> sendto y = TfoSent n -> 0 <= n <= Z.of_nat (length out) -> holds (buf s) out -> s_idx s = 0 ->
  connect_to_remote malloc dns_ntop cork_ip_init acl_lists true y a s =
    Some (Some (new_remote malloc), set_idx n (set_buf (mkBuf (array (buf s)) (len (buf s) - n)) s), [Connect a; ToRemote (take (Z.to_nat n) out)]).
Proof.
  intros [Hok Hl] Hto Hn Hb Hi. apply andb_prop in Hok as [Hok _]. apply andb_prop in Hok as [Hok H3]. apply andb_prop in Hok as [Hs Hbd].
  unfold connect_to_remote. rewrite Hs, Hbd, H3. cbn [negb].
  assert ((match acl_lists with Some l => outbound_block_match_host cork_ip_init l (dns_ntop a) =? 1 | None => false end) = false) as ->.
  { destruct acl_lists; [by apply Z.eqb_neq|done]. }
  unfold fast_open_sent. rewrite Hto, Hi, (holds_mread _ _ Hb). cbn [mbind option_bind].
  destruct Hb as (Hlen & _). by rewrite (proj2 (Z.leb_le _ _)) by lia.
Qed.

(** Handing over from index [i]: as many bytes as are left, from there. *)
Lemma hand_over_from i s out m :
  holds (mkBuf (array (buf s)) (Z.of_nat (length out))) out -> room (buf s) -> 0 <= i -> len (buf s) = m -> 0 < m -> i + m <= Z.of_nat (length out) <= BUF_SIZE ->
  exists r s', hand_over i (new_remote malloc) s = Some (r, s') /\ remote s' = remote s /\
    r_send_io r = false /\ pending (r_buf r) (r_idx r) (take (Z.to_nat m) (drop (Z.to_nat i) out)).
Proof using ML.
  intros Hb Hr Hi Hm Hpos Hle. pose proof (malloc_length BUF_SIZE ltac:(done)) as Hml.
  assert (room (mkBuf (malloc BUF_SIZE) 0)) as Hrm by (unfold room; cbn [array]; rewrite Hml; done).
  unfold hand_over. rewrite Hm, (proj2 (Z.ltb_lt _ _)) by lia. set (x := take (Z.to_nat m) (drop (Z.to_nat i) out)).
  assert (length x = Z.to_nat m) as Hx by (unfold x; rewrite length_take, length_drop; lia).
  assert (mread (array (buf s)) i m = Some x) as ->.
  { assert (out = take (Z.to_nat i) out ++ x ++ drop (Z.to_nat (i + m)) out) as E.
    { unfold x. replace (Z.to_nat (i + m)) with (Z.to_nat i + Z.to_nat m)%nat by lia. by rewrite <- drop_drop, take_drop, take_drop. }
    rewrite E in Hb. apply (holds_at (mkBuf (array (buf s)) (Z.of_nat (length out))) (take (Z.to_nat i) out) x (drop (Z.to_nat (i + m)) out)); [by rewrite <- E in *|rewrite length_take; lia|lia]. }
  cbn [mbind option_bind r_buf new_remote array]. unfold BUF_SIZE in *.
  destruct (recv_into (mkBuf (malloc 2048) 0) [] x 0 (holds_nil _ Hrm) Hrm eq_refl) as (a & Ha & Hh2 & Hr2); [cbn; unfold BUF_SIZE; lia|].
  cbn [array] in Ha. rewrite Ha. cbn [mbind option_bind]. eexists _, _. split; [done|]. split; [done|]. split; [done|].
  apply holds_pending; [|done]. replace m with (0 + Z.of_nat (length x)) by lia. done.
Qed.

(** With fast open a request to an address repeats its beginning and loses its end:
    what went out with the connection stays at the front of the buffer, and as many
    bytes as are left are taken from there.  A request to a name, whose buffer is
    read from the index, goes out whole. *)
Theorem fast_open_repeats y a s out n :
  grants y (Direct a) -> sendto y = TfoSent n -> 0 <= n < Z.of_nat (length out) -> Z.of_nat (length out) <= BUF_SIZE ->
  holds (buf s) out -> room (buf s) -> s_idx s = 0 ->
  (exists s', start_remote true y (Direct a) s = Some (Some s', [Connect a; ToRemote (take (Z.to_nat n) out)]) /\
     waiting_up s' = take (length out - Z.to_nat n) out) /\
  (exists s', server_resolve_cb malloc dns_ntop cork_ip_init acl_lists true y (Some a) s = Some (Some s', [Connect a; ToRemote (take (Z.to_nat n) out)]) /\
     waiting_up s' = drop (Z.to_nat n) out).
Proof using ML.
  intros Hg Hto Hn Hmax Hb Hr Hi. pose proof Hb as (Hl & _).
  assert (mkBuf (array (buf s)) (Z.of_nat (length out)) = buf s) as Eb by (rewrite <- Hl; by destruct (buf s)).
  set (s1 := set_idx n (set_buf (mkBuf (array (buf s)) (len (buf s) - n)) s)).
  assert (forall i, 0 <= i <= n -> exists r s', hand_over i (new_remote malloc) s1 = Some (r, s') /\
    r_send_io r = false /\ pending (r_buf r) (r_idx r) (take (Z.to_nat (len (buf s) - n)) (drop (Z.to_nat i) out))) as Hho.
  { intros i Hin. destruct (hand_over_from i s1 out (len (buf s) - n)) as (r & s' & ? & _ & ? & ?); try done; [|lia..|eauto].
    change (array (buf s1)) with (array (buf s)). by rewrite Eb. }
  split.
  - cbn [Relay.start_remote]. rewrite (fast_open_connect y a s out n Hg Hto ltac:(lia) Hb Hi). cbn [mbind option_bind].
    destruct (Hho 0 ltac:(lia)) as (r & s' & Ho & _ & Hp). fold s1. rewrite Ho. cbn [mbind option_bind]. eexists. split; [done|].
    unfold waiting_up. cbn. rewrite (pending_read _ _ _ Hp). cbn. rewrite drop_0. f_equal. lia.
  - unfold server_resolve_cb. set (s2 := set_query None s).
    rewrite (fast_open_connect y a s2 out n Hg Hto ltac:(lia) Hb Hi). cbn [mbind option_bind].
    destruct (hand_over_from n (set_idx n (set_buf (mkBuf (array (buf s2)) (len (buf s2) - n)) s2)) out (len (buf s) - n))
      as (r & s' & Ho & _ & _ & Hp); try done; [|lia..|].
    { change (array (buf (set_idx n (set_buf (mkBuf (array (buf s2)) (len (buf s2) - n)) s2)))) with (array (buf s)). by rewrite Eb. }
    change (s_idx (set_idx n (set_buf (mkBuf (array (buf s2)) (len (buf s2) - n)) s2))) with n. rewrite Ho. cbn [mbind option_bind].
    eexists. split; [done|]. unfold waiting_up. cbn. rewrite (pending_read _ _ _ Hp). cbn. apply take_ge. rewrite length_drop. lia.
Qed.

End Granted.
(** ** Instances *)

Notation none_example := (None : option (@acl (cork_ip -> bool) (list Z))).
Notation server_example := (server_t unit unit unit unit).
Notation handle_example := (handle (OS := unit) (PS := unit) realloc_example malloc_example hmac_example (fun _ => []) (fun l => l) ip_example
  true 0 [] false false false none_example false).
Notation run_example := (run (OS := unit) (PS := unit) realloc_example malloc_example hmac_example (fun _ => []) (fun l => l) ip_example
  true 0 [] false false false none_example tt tt).
Notation play_example := (play (OS := unit) (PS := unit) realloc_example malloc_example hmac_example (fun _ => []) (fun l => l) ip_example
  true 0 [] false false false none_example).
Notation arrives bs := (Client_readable (Data (flip_example bs)) (Sent 0) sys_example).

Lemma played evs s es :
  play_example evs (start malloc_example tt tt) = Some (s, es) -> run_example evs s es.
Proof. intros Hp. apply (play_run _ _ _ _ _ _ _ _ _ _ _ _ _ tt tt evs [] _ [] _ _ (run_start _ _ _ _ _ _ _ _ _ _ _ _ _ _ _) Hp). Qed.

Lemma request_example hdr tail a p : length a = 4%nat -> length p = 2%nat -> hdr = 1 :: a ++ p ->
  opening hmac_example (fun l => l) ip_example 0 [] false none_example [] (hdr ++ tail) (Direct (SockIn a (be_val p))) false tail.
Proof. intros Ha Hp ->. refine (opening_intro _ _ _ _ _ _ _ _ _ _ _ _ (1 :: a ++ p) _ _ _ _); [by constructor| |done|done]. by destruct (a ++ p). Qed.

Lemma request_granted_witness :
  exists (s' : server_example) es', handle_example (arrives plain_example) (start malloc_example tt tt) = Some (Some s', es') /\
    contacts es' = [Direct (SockIn [10; 0; 0; 7] 80)] /\ waiting_up s' = [65; 66].
Proof.
  apply (request_granted realloc_example malloc_example hmac_example (fun _ => []) (fun l => l) ip_example true 0 [] false false false none_example
    tt tt [] _ [] (flip_example plain_example) (Sent 0) sys_example plain_example tt [] (Direct (SockIn [10; 0; 0; 7] 80)) false [65; 66] [65; 66]).
  - apply run_start.
  - repeat split; [intros _|]; (eexists; vm_compute; reflexivity).
  - reflexivity.
  - reflexivity.
  - vm_compute. discriminate.
  - vm_compute. reflexivity.
  - reflexivity.
  - exact (request_example [1; 10; 0; 0; 7; 0; 80] [65; 66] [10; 0; 0; 7] [0; 80] eq_refl eq_refl eq_refl).
  - reflexivity.
  - done.
Defined.

(** The header of a request for 10.0.3.200:80, after three bytes and in two pieces. *)
Definition piece_example : list event := [arrives [1; 10; 0]].
Lemma piece_reached :
  exists s, run_example piece_example s [Tx 3] /\ stage s = STAGE_HANDSHAKE /\ recv_room s = BUF_SIZE.
Proof. eexists. split; [apply played; vm_compute; reflexivity|]. split; reflexivity. Qed.

Lemma pieces_refused_witness :
  exists s s' : server_example, run_example piece_example s [Tx 3] /\ handle_example (arrives [0; 7; 0; 80]) s = Some (Some s', [Tx 4]).
Proof.
  destruct piece_reached as (s & Hr & Hst & Hroom). exists s.
  destruct (pieces_refused realloc_example malloc_example hmac_example (fun _ => []) (fun l => l) ip_example true 0 [] false false false none_example
    tt tt piece_example s [Tx 3] (flip_example [0; 7; 0; 80]) (Sent 0) sys_example 0 [7; 0; 80] tt Hr) as [[s' Hs] _].
  - repeat split; [intros _|]; (eexists; vm_compute; reflexivity).
  - exact Hst.
  - rewrite Hroom. vm_compute. discriminate.
  - destruct (d_ctx s). vm_compute. reflexivity.
  - done.
  - done.
  - done.
  - exists s'. split; [exact Hr|exact Hs].
Defined.

(** Two pieces that do not complete a header by themselves, and a full segment. *)
Definition two_pieces_example : list event := [arrives [1; 10; 0]; arrives [3; 200; 0; 80; 9; 9; 9]].
Definition segment_example : list Z := 1 :: replicate 2047 65.
Lemma two_pieces_reached :
  exists s, run_example two_pieces_example s [Tx 3; Tx 7] /\ stage s = STAGE_HANDSHAKE /\ recv_room s = BUF_SIZE.
Proof. eexists. split; [apply played; vm_compute; reflexivity|]. split; reflexivity. Qed.

Lemma pieces_put_together_witness :
  exists s : server_example, run_example two_pieces_example s [Tx 3; Tx 7] /\ handle_example (arrives segment_example) s = None.
Proof.
  destruct two_pieces_reached as (s & Hr & Hst & Hroom). exists s. split; [exact Hr|].
  apply (pieces_put_together realloc_example malloc_example hmac_example (fun _ => []) (fun l => l) ip_example true 0 [] false false false none_example
    tt tt two_pieces_example s [Tx 3; Tx 7] (flip_example segment_example) (Sent 0) sys_example segment_example
    ([1; 10; 0; 3; 200; 0; 80] ++ [9; 9; 9] ++ segment_example) tt [] (Direct (SockIn [10; 0; 3; 200] 80)) false
    ([9; 9; 9] ++ segment_example) ([9; 9; 9] ++ segment_example) Hr).
  - repeat split; [intros _|]; (eexists; vm_compute; reflexivity).
  - exact Hst.
  - rewrite Hroom. vm_compute. discriminate.
  - destruct (d_ctx s). vm_compute. reflexivity.
  - vm_compute. reflexivity.
  - vm_compute. reflexivity.
  - reflexivity.
  - exact (request_example [1; 10; 0; 3; 200; 0; 80] _ [10; 0; 3; 200] [0; 80] eq_refl eq_refl eq_refl).
  - reflexivity.
  - done.
Defined.

(** Two of four bytes go out with the connection; then the first two wait again. *)
Definition fast_open_example : server_example :=
  set_stage STAGE_PARSE (set_buf (mkBuf ([65; 66; 67; 68] ++ replicate 2044 0) 4) (start malloc_example tt tt)).

Lemma fast_open_repeats_witness :
  exists s' : server_example, start_remote malloc_example (fun _ => []) ip_example none_example true (mkSys true true true (TfoSent 2) true)
      (Direct (SockIn [10; 0; 0; 7] 80)) fast_open_example = Some (Some s', [Connect (SockIn [10; 0; 0; 7] 80); ToRemote [65; 66]]) /\
    waiting_up s' = [65; 66].
Proof.
  apply (proj1 (fast_open_repeats malloc_example (fun _ => []) ip_example none_example (mkSys true true true (TfoSent 2) true)
    (SockIn [10; 0; 0; 7] 80) fast_open_example [65; 66; 67; 68] 2 (conj eq_refl I) eq_refl ltac:(cbn; lia) ltac:(vm_compute; discriminate)
    ltac:(split_and!; [reflexivity|by eexists|vm_compute; reflexivity]) ltac:(vm_compute; split; [discriminate|reflexivity]) eq_refl)).
Defined.

End Request.
