(* ===== verification/Tunnel.v ===== *)
(** * Tunnel: the server with its ciphers, end to end

    The functions of src/server/encrypt.c (Crypt.v) keep what a connection relies on
    in a cipher ([CipherLaws] of Session.v), for both libraries.  So a client that
    encrypts a request and data, and a server that gets any part of the bytes in any
    segments, make a tunnel: the server contacts the peer that the client named and
    passes on the client's data, and the client decrypts the peer's. *)

From S2P Require Import Prelude Libc Cache Acl Ota Crypt Relay Session.

Import Libc Acl Ota Crypt Relay Session.

#[local] Arguments Z.eqb : simpl never.
#[local] Arguments Z.leb : simpl never.

Module Tunnel.

Section Cipher.
Context (realloc : list Z -> Z -> list Z) {RL : ReallocLaws realloc} (md5 : list Z -> list Z).
Context {E : Type} (EVP_CipherInit : E -> list Z -> list Z -> bool -> E) (EVP_CipherUpdate : E -> list Z -> option (list Z * E)).
Context (stream_xor_ic : Z -> list Z -> list Z -> Z -> list Z -> list Z).
Context (enc_method enc_iv_len : Z) (enc_key : list Z).
Context {SL : SodiumLaws stream_xor_ic enc_method enc_key} {EL : EvpLaws EVP_CipherInit EVP_CipherUpdate}.
Context `{Cache.HashFind unit}.
Context (now : Z).

Notation enc_ctx := (enc_ctx_t E).
Notation set_iv := (cipher_context_set_iv md5 EVP_CipherInit enc_method enc_key).
Notation crypt := (crypt EVP_CipherUpdate stream_xor_ic enc_method enc_iv_len enc_key).
Notation opened := (opened md5 EVP_CipherInit enc_method enc_key).
Notation looked := (looked enc_method).

(** [e_ctx] and [d_ctx] of a connection, the latter with the memory of vectors. *)
Definition decrypter : Type := enc_ctx * option (Cache.cache unit).

(** Where a context may encrypt [n] more bytes. *)
Definition guard (ctx : enc_ctx) (n : Z) : Prop :=
  enc_iv_len <= Z.of_nat (length (iv ctx)) /\ 0 <= counter ctx /\
  (if SALSA20 <=? enc_method then counter ctx + n < 2 ^ 38 else counter ctx < 2 ^ 37).
#[local] Instance guard_dec ctx n : Decision (guard ctx n).
Proof. unfold guard. destruct (SALSA20 <=? enc_method); apply _. Defined.

Definition crypt_guarded (ctx : enc_ctx) (m : list Z) : option (list Z * enc_ctx) :=
  if decide (guard ctx (Z.of_nat (length m))) then crypt ctx m else None.

(** The context after its vector. *)
Definition open_enc (e : enc_ctx) : option (list Z * enc_ctx) :=
  if init e then Some ([], e) else
  let h := take (Z.to_nat enc_iv_len) (iv e) in
  if Z.of_nat (length (iv e)) <? enc_iv_len then None else
  '(ev, ivs) ← set_iv (evp e) (iv e) h true; Some (h, mkCtx true 0 ev ivs).

Definition open_dec (d : decrypter) (w : list Z) : option (list Z * decrypter) :=
  if init (fst d) then Some (w, d) else
  if Z.of_nat (length w) <? enc_iv_len then None else
  let ivb := take (Z.to_nat enc_iv_len) w in
  '(ev, ivs) ← set_iv (evp (fst d)) (iv (fst d)) ivb false;
  let '(c, seen) := looked (fst d) (snd d) ivb now in
  if seen : bool then None else Some (drop (Z.to_nat enc_iv_len) w, (mkCtx true 0 ev ivs, c)).

Definition enc_bytes (e : enc_ctx) (m : list Z) : option (list Z * enc_ctx) :=
  '(h, e) ← open_enc e; '(c, e) ← crypt_guarded e m; Some (h ++ c, e).
Definition dec_bytes (d : decrypter) (w : list Z) : option (list Z * decrypter) :=
  '(w, d) ← open_dec d w; '(p, e) ← crypt_guarded (fst d) w; if bool_decide (is_bytes p) then Some (p, (e, snd d)) else None.

Lemma crypt_app' ctx a b : crypt ctx (a ++ b) = ('(x, c1) ← crypt ctx a; '(y, c2) ← crypt c1 b; Some (x ++ y, c2)).
Proof using EL SL. apply (crypt_app EVP_CipherInit EVP_CipherUpdate stream_xor_ic enc_method enc_iv_len enc_key). Qed.

Lemma guard_app ctx a b c c1 :
  crypt ctx a = Some (c, c1) -> guard ctx (Z.of_nat (length a)) ->
  guard ctx (Z.of_nat (length (a ++ b))) <-> guard c1 (Z.of_nat (length b)).
Proof.
  unfold guard, Crypt.crypt. rewrite length_app. destruct (SALSA20 <=? enc_method).
  - intros [= <- <-]. cbn [counter iv]. lia.
  - destruct (EVP_CipherUpdate (evp ctx) a) as [[x e]|]; [|done]. intros [= <- <-]. cbn [counter iv]. lia.
Qed.

Lemma crypt_guarded_app ctx a b c c1 :
  crypt_guarded ctx a = Some (c, c1) ->
  crypt_guarded ctx (a ++ b) = ('(d, c2) ← crypt_guarded c1 b; Some (c ++ d, c2)).
Proof using EL SL.
  unfold crypt_guarded. destruct (decide (guard ctx _)) as [Hg|]; [|done]. intros Hc. rewrite crypt_app', Hc.
  cbn [mbind option_bind]. pose proof (guard_app ctx a b c c1 Hc Hg) as Hiff.
  destruct (decide (guard ctx _)) as [H1|H1], (decide (guard c1 _)) as [H2|H2]; [done|by destruct H2; apply Hiff|by destruct H1; apply Hiff|done].
Qed.

Lemma crypt_guarded_prefix ctx a b : is_Some (crypt_guarded ctx (a ++ b)) -> is_Some (crypt_guarded ctx a).
Proof using EL SL.
  unfold crypt_guarded. destruct (decide (guard ctx (Z.of_nat (length (a ++ b))))) as [Hg|]; [|by intros [? ?]].
  rewrite decide_True by (revert Hg; unfold guard; rewrite length_app; destruct (SALSA20 <=? enc_method); lia).
  rewrite crypt_app'. destruct (crypt ctx a) as [[c c1]|]; [eauto|by intros [? ?]].
Qed.

Lemma enc_bytes_app e a b c e1 :
  enc_bytes e a = Some (c, e1) -> enc_bytes e (a ++ b) = ('(d, e2) ← enc_bytes e1 b; Some (c ++ d, e2)).
Proof using EL SL.
  unfold enc_bytes. destruct (open_enc e) as [[h e']|] eqn:Eo; [|done]. cbn [mbind option_bind].
  destruct (crypt_guarded e' a) as [[c1 e2]|] eqn:Ec; [|done]. cbn [mbind option_bind]. intros [= <- <-].
  rewrite (crypt_guarded_app _ _ _ _ _ Ec). assert (open_enc e2 = Some ([], e2)) as ->.
  { assert (init e' = true) as Hi.
    { revert Eo. unfold open_enc. destruct (init e) eqn:Ei; [by intros [= _ <-]|]. case_match; [done|].
      destruct (set_iv _ _ _ _) as [[? ?]|]; [|done]. by intros [= _ <-]. }
    unfold crypt_guarded in Ec. case_match; [|done]. apply crypt_ctx in Ec as (Hi2 & _). unfold open_enc. by rewrite Hi2, Hi. }
  cbn [mbind option_bind]. destruct (crypt_guarded e2 b) as [[d e3]|]; [|done]. cbn [mbind option_bind]. by rewrite <- app_assoc.
Qed.

(** Opened once, a context stays open. *)
Lemma open_enc_init e h e' : open_enc e = Some (h, e') -> init e' = true.
Proof.
  unfold open_enc. destruct (init e) eqn:Ei; [by intros [= _ <-]|]. case_match; [done|].
  destruct (set_iv _ _ _ _) as [[? ?]|]; [|done]. by intros [= _ <-].
Qed.
Lemma open_dec_init d w r d' : open_dec d w = Some (r, d') -> init (fst d') = true.
Proof.
  unfold open_dec. destruct (init (fst d)) eqn:Ei; [by intros [= _ <-]|]. case_match; [done|].
  destruct (set_iv _ _ _ _) as [[? ?]|]; [|done]. cbn [mbind option_bind]. destruct (looked _ _ _ _) as [? []]; [done|]. by intros [= _ <-].
Qed.
Lemma open_again d w : init (fst d) = true -> open_dec d w = Some (w, d).
Proof. unfold open_dec. by intros ->. Qed.

Lemma crypt_guarded_ctx ctx m c ctx' :
  crypt_guarded ctx m = Some (c, ctx') -> init ctx' = init ctx /\ iv ctx' = iv ctx /\ length c = length m /\ enc_iv_len <= Z.of_nat (length (iv ctx)).
Proof using EL SL.
  unfold crypt_guarded. destruct (decide _) as [(Hg & _)|]; [|done]. intros Hc. pose proof (crypt_ctx _ _ _ _ _ _ _ _ _ Hc) as (-> & -> & _).
  split_and!; [done|done| |done]. by eapply (crypt_length EVP_CipherInit EVP_CipherUpdate stream_xor_ic).
Qed.

(** Opening a longer text. *)
Lemma open_dec_more d a b r d' : open_dec d a = Some (r, d') -> open_dec d (a ++ b) = Some (r ++ b, d').
Proof.
  unfold open_dec. destruct (init (fst d)); [by intros [= <- <-]|].
  destruct (Z.of_nat (length a) <? enc_iv_len) eqn:E1; [done|]. zify_bool.
  rewrite length_app, (proj2 (Z.ltb_ge _ _)) by lia. rewrite take_app_le, drop_app_le by lia.
  destruct (set_iv _ _ _ _) as [[? ?]|]; [|done]. cbn [mbind option_bind]. destruct (looked _ _ _ _) as [? []]; [done|].
  by intros [= <- <-].
Qed.
Lemma open_dec_less d a b :
  is_Some (open_dec d (a ++ b)) -> enc_iv_len <= Z.of_nat (length a) -> is_Some (open_dec d a).
Proof.
  unfold open_dec. destruct (init (fst d)); [eauto|]. intros Ho Hl. rewrite (proj2 (Z.ltb_ge _ _)) by lia.
  revert Ho. rewrite length_app, (proj2 (Z.ltb_ge _ _)), take_app_le by lia.
  destruct (set_iv _ _ _ _) as [[? ?]|]; [|by intros [? ?]]. cbn [mbind option_bind].
  destruct (looked _ _ _ _) as [? []]; [by intros [? ?]|eauto].
Qed.

Lemma enc_bytes_prefix e a b : is_Some (enc_bytes e (a ++ b)) -> is_Some (enc_bytes e a).
Proof using EL SL.
  unfold enc_bytes. destruct (open_enc e) as [[h e']|]; [|done]. cbn [mbind option_bind]. intros [? Hx].
  destruct (crypt_guarded_prefix e' a b) as [[c e1] ->]; [|eauto]. destruct (crypt_guarded e' (a ++ b)); [eauto|done].
Qed.

Lemma dec_bytes_app d a b p d1 :
  dec_bytes d a = Some (p, d1) -> dec_bytes d (a ++ b) = ('(q, d2) ← dec_bytes d1 b; Some (p ++ q, d2)).
Proof using EL SL.
  unfold dec_bytes. destruct (open_dec d a) as [[w d']|] eqn:Eo; [|done]. cbn [mbind option_bind].
  rewrite (open_dec_more _ _ _ _ _ Eo). cbn [mbind option_bind].
  destruct (crypt_guarded (fst d') w) as [[x e1]|] eqn:Ec; [|done]. cbn [mbind option_bind]. case_bool_decide as Hx; [|done]. intros [= <- <-].
  rewrite (crypt_guarded_app _ _ _ _ _ Ec), open_again by (cbn [fst]; rewrite (proj1 (crypt_guarded_ctx _ _ _ _ Ec)); by eapply open_dec_init).
  cbn [mbind option_bind fst snd]. destruct (crypt_guarded e1 b) as [[y e2]|]; [|done]. cbn [mbind option_bind].
  case_bool_decide as H1; case_bool_decide as H2; [done| | |done].
  - apply Forall_app in H1 as [_ ?]. done.
  - destruct H1. by apply Forall_app.
Qed.

Lemma dec_bytes_prefix d a b :
  is_Some (dec_bytes d (a ++ b)) -> enc_iv_len <= Z.of_nat (length a) -> is_Some (dec_bytes d a).
Proof using EL SL.
  unfold dec_bytes. intros [x Hx] Hl. destruct (open_dec d (a ++ b)) as [[w0 d0]|] eqn:E0; [|done].
  destruct (open_dec_less d a b) as [[w d'] Ea]; [by rewrite E0|done|]. rewrite Ea. rewrite (open_dec_more _ _ _ _ _ Ea) in E0. simplify_eq.
  cbn [mbind option_bind] in *. destruct (crypt_guarded (fst d0) (w ++ b)) as [[y e1]|] eqn:Ec; [|done]. cbn [mbind option_bind] in Hx.
  destruct (crypt_guarded_prefix (fst d0) w b) as [[c e2] Ec2]; [by rewrite Ec|]. rewrite Ec2. cbn [mbind option_bind].
  rewrite (crypt_guarded_app _ _ _ _ _ Ec2) in Ec. destruct (crypt_guarded e2 b) as [[z e3]|]; [|done]. cbn [mbind option_bind] in Ec. simplify_eq.
  case_bool_decide as Hb; [|done]. apply Forall_app in Hb as [Hb _]. rewrite bool_decide_true by done. eauto.
Qed.

(** A decrypted text, in parts. *)
Lemma dec_bytes_inv d w p d' :
  dec_bytes d w = Some (p, d') ->
  exists r d1 e, open_dec d w = Some (r, d1) /\ crypt_guarded (fst d1) r = Some (p, e) /\ d' = (e, snd d1) /\ is_bytes p.
Proof.
  unfold dec_bytes. destruct (open_dec d w) as [[r d1]|]; [|done]. cbn [mbind option_bind].
  destruct (crypt_guarded (fst d1) r) as [[x e]|] eqn:Ec; [|done]. cbn [mbind option_bind]. case_bool_decide; [|done]. intros [= <- <-]. eauto 10.
Qed.

Lemma dec_bytes_data d w p d' :
  0 <= enc_iv_len -> dec_bytes d w = Some (p, d') ->
  is_bytes p /\ Z.of_nat (length w) - enc_iv_len <= Z.of_nat (length p) <= Z.of_nat (length w).
Proof using EL SL.
  intros Hiv (r & d1 & e & Ho & Hc & -> & Hb)%dec_bytes_inv. split; [done|].
  apply crypt_guarded_ctx in Hc as (_ & _ & -> & _). revert Ho. unfold open_dec. destruct (init (fst d)); [intros [= <- <-]; lia|].
  destruct (Z.of_nat (length w) <? enc_iv_len) eqn:E1; [done|]. zify_bool. destruct (set_iv _ _ _ _) as [[? ?]|]; [|done]. cbn [mbind option_bind].
  destruct (looked _ _ _ _) as [? []]; [done|]. intros [= <- _]. rewrite length_drop. lia.
Qed.

Lemma dec_bytes_ctx d w p d' :
  dec_bytes d w = Some (p, d') -> init (fst d') = true /\ enc_iv_len <= Z.of_nat (length (iv (fst d'))).
Proof using EL SL.
  intros (r & d1 & e & Ho & Hc & -> & Hb)%dec_bytes_inv. apply open_dec_init in Ho. apply crypt_guarded_ctx in Hc as (Hi & Hv & _ & Hl).
  cbn [fst]. by rewrite Hi, Hv.
Qed.

Lemma dec_bytes_same_iv d w p d1 x q d2 :
  dec_bytes d w = Some (p, d1) -> dec_bytes d1 x = Some (q, d2) -> iv (fst d2) = iv (fst d1).
Proof using EL SL.
  intros (Hi & _)%dec_bytes_ctx (r & d' & e & Ho & Hc & -> & _)%dec_bytes_inv. rewrite open_again in Ho by done. simplify_eq.
  by apply crypt_guarded_ctx in Hc as (_ & Hv & _).
Qed.

(** The guard is what the buffers need. *)
Lemma guarded ctx m c ctx' :
  0 <= enc_iv_len <= 16 -> Z.of_nat (length m) < 2 ^ 28 -> crypt_guarded ctx m = Some (c, ctx') ->
  ctx_ok enc_iv_len ctx (Z.of_nat (length m)) /\ crypt ctx m = Some (c, ctx').
Proof.
  intros Hiv Hm. unfold crypt_guarded. destruct (decide _) as [Hg|]; [|done]. intros Hc. split; [|done].
  revert Hg. unfold guard, ctx_ok. destruct (SALSA20 <=? enc_method); lia.
Qed.

Context (globals : globals_ok enc_method enc_iv_len enc_key).

(** ** Two ends *)

Notation fresh := (@fresh E).
Notation vector ctx := (take (Z.to_nat enc_iv_len) (iv ctx)).
Notation send_stream := (send_stream realloc md5 EVP_CipherInit EVP_CipherUpdate stream_xor_ic enc_method enc_iv_len enc_key).
Notation recv_stream := (recv_stream realloc md5 EVP_CipherInit EVP_CipherUpdate stream_xor_ic enc_method enc_iv_len enc_key).

(** What a fresh end encrypts, another decrypts, unless it has seen the vector. *)
Lemma ends_meet s d m c :
  fresh s -> fresh (fst d) -> is_bytes m -> Z.of_nat (length m) < 2 ^ 37 ->
  looked (fst d) (snd d) (vector s) now = (c, false) ->
  exists w s1 r1, enc_bytes s m = Some (vector s ++ w, s1) /\ dec_bytes d (vector s ++ w) = Some (m, (r1, c)) /\
    length w = length m /\ vector r1 = vector s /\
    (forall packets ps cap, packets <> [] -> Forall2 sendable packets ps -> concat ps = m -> 0 <= cap < 2 ^ 29 ->
       send_stream packets (Some s) cap = Some (vector s ++ w)) /\
    (forall segs ss cap, Forall2 sendable segs ss -> concat ss = vector s ++ w -> 0 <= cap < 2 ^ 29 ->
       match ss with seg :: _ => enc_iv_len <= Z.of_nat (length seg) | [] => False end ->
       recv_stream segs (snd d) now (Some (fst d)) cap = Some (Some m, c)).
Proof using RL SL EL globals.
  intros Hs Hd Hm Hlen Hlk. pose proof globals as (_ & Hiv & _).
  destruct (open_paired md5 EVP_CipherInit EVP_CipherUpdate enc_method enc_iv_len enc_key s (fst d) globals Hs Hd) as (s0 & r0 & Hos & Hor & Hpair & Hok).
  destruct (crypt_paired EVP_CipherInit EVP_CipherUpdate stream_xor_ic enc_method enc_iv_len enc_key s0 r0 m Hpair Hm)
    as (w & s1 & r1 & Hcs & Hcr & Hp1 & Hwl & Hwb & _ & Hivr & _).
  destruct Hs as [Hsi Hsl], Hd as [Hdi Hdl]. assert (Z.of_nat (length (vector s)) = enc_iv_len) as Hvl by (rewrite length_take; lia).
  pose proof Hos as [(? & _)|(_ & _ & es & ivs & Hses & ->)]; [congruence|]. pose proof Hor as [(? & _)|(_ & _ & er & ivr & Hser & ->)]; [congruence|].
  destruct (Hok (Z.of_nat (length m)) ltac:(lia)) as [((? & Hl1) & _ & _ & Hl2) ((_ & Hr1) & _)]. cbn [iv counter] in *.
  assert (forall e x, guard (mkCtx true 0 e x) (Z.of_nat (length m)) <-> enc_iv_len <= Z.of_nat (length x)) as Hguard.
  { intros e x. unfold guard. cbn [iv counter]. destruct (SALSA20 <=? enc_method); lia. }
  exists w, s1, r1. split_and!.
  - unfold enc_bytes, open_enc. rewrite Hsi, (proj2 (Z.ltb_ge _ _)) by lia. rewrite Hses. cbn [mbind option_bind].
    unfold crypt_guarded. rewrite decide_True by (by apply Hguard). rewrite Hcs. done.
  - unfold dec_bytes, open_dec. rewrite Hdi, length_app, (proj2 (Z.ltb_ge _ _)), take_app_length', drop_app_length' by lia.
    rewrite Hser. cbn [mbind option_bind]. rewrite Hlk. cbn [mbind option_bind fst snd].
    unfold crypt_guarded. rewrite Hwl, decide_True by (by apply Hguard). rewrite Hcr. cbn [mbind option_bind]. by rewrite bool_decide_true.
  - done.
  - destruct Hpair as (_ & _ & _ & Hpv & _). cbn [iv] in Hpv. rewrite Hivr. cbn [iv]. rewrite <- Hpv.
    revert Hses. unfold cipher_context_set_iv. cbn [mbind option_bind]. destruct (SALSA20 <=? enc_method); [by intros [= _ <-]|].
    destruct (if _ : bool then _ else _); [|done]. by intros [= _ <-].
  - intros packets ps cap Hne Hps <- Hcap.
    apply (send_stream_spec realloc md5 EVP_CipherInit EVP_CipherUpdate stream_xor_ic enc_method enc_iv_len enc_key
      packets ps cap s (mkCtx true 0 es ivs) (vector s) w s1); try done; [lia|]. apply Hok. lia.
  - intros segs ss cap Hss Hw Hcap Hfst.
    apply (recv_stream_spec realloc md5 EVP_CipherInit EVP_CipherUpdate stream_xor_ic enc_method enc_iv_len enc_key
      segs ss cap now (fst d) (mkCtx true 0 er ivr) (vector s) (vector s) w m r1); try done; [|apply Hok; lia].
    destruct ss as [|seg ss]; [done|]. exists (drop (Z.to_nat enc_iv_len) seg). rewrite <- (take_drop (Z.to_nat enc_iv_len) seg) at 1. f_equal.
    apply (f_equal (take (Z.to_nat enc_iv_len))) in Hw. cbn [concat] in Hw. rewrite take_app_le in Hw by lia. by rewrite take_app_length' in Hw by lia.
Qed.

Lemma fresh_encrypts s m : fresh s -> is_bytes m -> Z.of_nat (length m) < 2 ^ 37 -> is_Some (enc_bytes s m).
Proof using SL EL globals.
  intros Hs Hm Hlen. pose proof globals as (_ & Hiv & _).
  destruct (open_paired md5 EVP_CipherInit EVP_CipherUpdate enc_method enc_iv_len enc_key s s globals Hs Hs) as (s0 & r0 & Hos & _ & Hpair & _).
  destruct (crypt_paired EVP_CipherInit EVP_CipherUpdate stream_xor_ic enc_method enc_iv_len enc_key s0 r0 m Hpair Hm) as (w & s1 & r1 & Hcs & _).
  destruct Hs as [Hsi Hsl]. destruct Hos as [(? & _)|(_ & _ & es & ivs & Hses & ->)]; [congruence|].
  assert (ivs = iv s) as ->.
  { revert Hses. unfold cipher_context_set_iv. cbn [mbind option_bind]. destruct (SALSA20 <=? enc_method); [by intros [= _ <-]|].
    destruct (if _ : bool then _ else _); [|done]. by intros [= _ <-]. }
  unfold enc_bytes, open_enc. rewrite Hsi, (proj2 (Z.ltb_ge _ _)) by lia. rewrite Hses. cbn [mbind option_bind].
  unfold crypt_guarded. rewrite decide_True by (unfold guard; cbn [iv counter]; destruct (SALSA20 <=? enc_method); lia). rewrite Hcs. eauto.
Qed.

(** ** A server between *)

Context {OS PS S R : Type} `{IpSet S} `{Pcre R}.
Context (malloc : Z -> list Z) {ML : MallocLaws malloc} (hmac : list Z -> list Z -> list Z) {HL : HmacLaws hmac}.
Context (dns_ntop : sockaddr -> list Z) (dns_pton : list Z -> list Z) (cork_ip_init : list Z -> option cork_ip).
Context (signed_char auth_on obfs_compatible protocol_compatible : bool) (acl_lists : option (@acl S R)).

#[local] Instance crypt_iv_len : IvLen enc_iv_len.
Proof using globals. by destruct globals as (_ & ? & _). Qed.

Notation run := (run (CE := enc_ctx) (CD := decrypter) (OS := OS) (PS := PS) realloc malloc hmac dns_ntop dns_pton cork_ip_init signed_char
  enc_iv_len enc_key auth_on obfs_compatible protocol_compatible acl_lists).
Notation opening := (opening hmac dns_pton cork_ip_init enc_iv_len enc_key auth_on acl_lists).
Notation body := (Session.body hmac enc_iv_len).

(** Only the vector matters for the MACs. *)
Lemma chunk_mac_vector iv1 iv2 c x :
  take (Z.to_nat enc_iv_len) iv1 = take (Z.to_nat enc_iv_len) iv2 -> enc_iv_len <= Z.of_nat (length iv1) -> enc_iv_len <= Z.of_nat (length iv2) ->
  chunk_mac hmac enc_iv_len iv1 c x = chunk_mac hmac enc_iv_len iv2 c x.
Proof using globals.
  pose proof globals as (_ & Hiv & _). intros E1 Hl1 Hl2. unfold chunk_mac. rewrite !mread_in by lia. change (Z.to_nat 0) with O. by rewrite !drop_0, E1.
Qed.
Lemma feed_vector iv1 iv2 xs :
  take (Z.to_nat enc_iv_len) iv1 = take (Z.to_nat enc_iv_len) iv2 -> enc_iv_len <= Z.of_nat (length iv1) -> enc_iv_len <= Z.of_nat (length iv2) ->
  forall st, feed hmac enc_iv_len iv1 st xs = feed hmac enc_iv_len iv2 st xs.
Proof using globals.
  intros E1 Hl1 Hl2. induction xs as [|x xs IH]; intros [cb c]; [done|]. cbn [feed]. unfold feed_byte.
  rewrite (chunk_mac_vector iv1 iv2) by done. case_match; [case_bool_decide; [|done]|]; cbn [mbind option_bind]; by rewrite IH.
Qed.

(** How much is decrypted. *)
Lemma dec_bytes_length d w p d' :
  0 <= enc_iv_len -> dec_bytes d w = Some (p, d') ->
  Z.of_nat (length w) = (if init (fst d) then 0 else enc_iv_len) + Z.of_nat (length p).
Proof using EL SL.
  intros Hiv (r & d1 & e & Ho & Hc & -> & Hb)%dec_bytes_inv.
  apply crypt_guarded_ctx in Hc as (_ & _ & -> & _). revert Ho. unfold open_dec. destruct (init (fst d)); [intros [= <- <-]; lia|].
  destruct (Z.of_nat (length w) <? enc_iv_len) eqn:E1; [done|]. zify_bool. destruct (set_iv _ _ _ _) as [[? ?]|]; [|done]. cbn [mbind option_bind].
  destruct (looked _ _ _ _) as [? []]; [done|]. intros [= <- _]. rewrite length_drop. lia.
Qed.

(** The two readings of the same text. *)
Lemma opening_agree iv1 iv2 p m t1 t2 o1 o2 tail1 tail2 later :
  opening iv1 p t1 o1 tail1 -> opening iv2 m t2 o2 tail2 -> m = p ++ later ->
  take (Z.to_nat enc_iv_len) iv1 = take (Z.to_nat enc_iv_len) iv2 -> Z.of_nat (length m) < 2 ^ 30 ->
  t1 = t2 /\ o1 = o2 /\ tail2 = tail1 ++ later.
Proof.
  intros [hdr1 Hr1 _ -> E1] [hdr2 Hr2 _ -> E2] Hm Hiv Hs. rewrite Hm in E2. rewrite E1, <- !app_assoc in E2.
  rewrite Hm, E1, <- !app_assoc in Hs.
  destruct (request_unique (S := S) (R := R) dns_pton cork_ip_init _ _ _ _ _ _ Hr1 Hr2 E2 Hs) as (<- & Et & <-). split_and!; [done|done|].
  rewrite (header_mac_vector enc_iv_len enc_key hmac iv1 iv2) in Et by done. by apply app_inv_head in Et.
Qed.

(** ** The cipher of a connection *)

(** The static buffer of a call. *)
Context (tmp : buffer_t) (tmp_small : Z.of_nat (length (array tmp)) < 2 ^ 29).

#[local] Instance crypt_cipher : Cipher enc_ctx decrypter := {
  Relay.ss_encrypt e b :=
    '(r, b, e) ← Crypt.ss_encrypt realloc md5 EVP_CipherInit EVP_CipherUpdate stream_xor_ic enc_method enc_iv_len enc_key
                   [] tmp b (Some e) BUF_SIZE;
    e ← e; Some (r, b, e);
  Relay.ss_decrypt d b :=
    '(r, b', e, c) ← Crypt.ss_decrypt realloc md5 EVP_CipherInit EVP_CipherUpdate stream_xor_ic enc_method enc_iv_len enc_key
                      [] (snd d) now tmp b (Some (fst d)) BUF_SIZE;
    e ← e; Some (r, default b b', (e, c));
  Relay.evp_iv d := Some (iv (fst d)) }.

Lemma encrypt_buffer_ok e b m c e' :
  enc_bytes e m = Some (c, e') -> holds b m -> room b -> Z.of_nat (length m) <= BUF_SIZE ->
  exists b', Relay.ss_encrypt e b = Some (0, b', e') /\ holds b' c /\ room b'.
Proof using RL SL EL globals tmp_small.
  pose proof globals as (_ & Hiv & _). unfold enc_bytes. destruct (open_enc e) as [[h e0]|] eqn:Eo; [|done]. cbn [mbind option_bind].
  destruct (crypt_guarded e0 m) as [[x e1]|] eqn:Ec; [|done]. cbn [mbind option_bind]. intros [= <- <-] Hb Hr Hm. unfold BUF_SIZE in Hm.
  destruct (guarded _ m _ _ Hiv ltac:(lia) Ec) as [Hok Hc]. pose proof (crypt_guarded_ctx _ _ _ _ Ec) as (_ & _ & Hxl & _).
  assert (opened true e e0 (take (Z.to_nat enc_iv_len) (iv e)) h /\ enc_iv_len <= Z.of_nat (length (iv e)) /\ (length h <= 16)%nat) as (Ho & Hl & Hhl).
  { revert Eo. unfold open_enc, Crypt.opened. destruct (init e) eqn:Ei.
    - intros [= <- <-]. split_and!; [by left|by destruct Hok as ((_ & ?) & _)|cbn; lia].
    - case_match eqn:E1; [done|]. zify_bool. destruct (set_iv _ _ _ _) as [[ev ivs]|] eqn:Es; [|done]. intros [= <- <-].
      split_and!; [right; eauto 10|lia|rewrite length_take; lia]. }
  destruct (ss_encrypt_spec realloc md5 EVP_CipherInit EVP_CipherUpdate stream_xor_ic enc_method enc_iv_len enc_key
    [] tmp b e e0 m x e1 h BUF_SIZE Ho ltac:(lia) Hok Hb Hc tmp_small ltac:(lia) ltac:(done)) as (b' & Hs & Hh & Hlen).
  exists b'. unfold Relay.ss_encrypt, crypt_cipher. rewrite Hs. split_and!; [done..|]. unfold room, BUF_SIZE in *. rewrite Hlen, length_app. lia.
Qed.

Lemma decrypt_buffer_ok d b w p d' :
  dec_bytes d w = Some (p, d') -> holds b w -> room b -> Z.of_nat (length w) <= BUF_SIZE ->
  exists b', Relay.ss_decrypt d b = Some (0, b', d') /\ holds b' p /\ room b'.
Proof using RL SL EL globals tmp_small.
  pose proof globals as (_ & Hiv & _). intros (r & d1 & e & Ho & Ec & -> & Hby)%dec_bytes_inv Hb Hr Hw. unfold BUF_SIZE in Hw.
  assert (exists ivb h, w = h ++ r /\ opened false (fst d) (fst d1) ivb h /\ Z.of_nat (length ivb) = enc_iv_len /\
    looked (fst d) (snd d) ivb now = (snd d1, false)) as (ivb & h & -> & Hop & Hivb & Hlk).
  { revert Ho. unfold open_dec, Crypt.opened, Crypt.looked. destruct (init (fst d)) eqn:Ei.
    - intros [= <- <-]. exists (replicate (Z.to_nat enc_iv_len) 0), []. rewrite length_replicate. split_and!; [done|by left|lia|done].
    - case_match eqn:E1; [done|]. zify_bool. destruct (set_iv _ _ _ _) as [[ev ivs]|] eqn:Es; [|done]. cbn [mbind option_bind].
      destruct (if RC4 <? enc_method then _ else _) as [c seen] eqn:El. destruct seen; [done|]. intros [= <- <-].
      exists (take (Z.to_nat enc_iv_len) w), (take (Z.to_nat enc_iv_len) w). rewrite take_drop, length_take.
      split_and!; [done|right; eauto 10|lia|done]. }
  rewrite length_app in Hw. destruct (guarded _ r _ _ Hiv ltac:(lia) Ec) as [Hok Hc].
  pose proof (ss_decrypt_spec realloc md5 EVP_CipherInit EVP_CipherUpdate stream_xor_ic enc_method enc_iv_len enc_key
    [] (snd d) now tmp b (fst d) (fst d1) r p e ivb h BUF_SIZE Hop Hivb Hok Hb Hc tmp_small ltac:(lia) ltac:(done)) as Hs.
  rewrite Hlk in Hs. destruct Hs as (b' & Hs & Hh & Hlen). exists b'. unfold Relay.ss_decrypt, crypt_cipher. rewrite Hs. split_and!; [done..|].
  pose proof (crypt_guarded_ctx _ _ _ _ Ec) as (_ & _ & Hxl & _). unfold room, BUF_SIZE in *. rewrite Hlen. lia.
Qed.

#[local] Instance crypt_laws : CipherLaws enc_ctx decrypter enc_iv_len.
Proof using RL SL EL globals tmp_small.
  refine {| enc := enc_bytes; dec := dec_bytes |}.
  - exact enc_bytes_app.
  - exact enc_bytes_prefix.
  - exact dec_bytes_app.
  - exact dec_bytes_prefix.
  - intros d w p d'. apply dec_bytes_data. by destruct globals as (_ & [? _] & _).
  - intros d w p d1 Hd. exists (iv (fst d1)). split; [done|]. destruct (dec_bytes_ctx _ _ _ _ Hd). destruct globals as (_ & ? & _). split; lia.
  - intros d w p d1 x q d2 Hd1 Hd2. unfold Relay.evp_iv, crypt_cipher. f_equal. by eapply dec_bytes_same_iv.
  - exact encrypt_buffer_ok.
  - exact decrypt_buffer_ok.
Defined.

(** ** From end to end *)

(** The two ends and the server. *)
Context (client_e server_e : enc_ctx) (client_d server_d : decrypter).
Context (fresh_client_e : fresh client_e) (fresh_server_e : fresh server_e) (fresh_client_d : fresh (fst client_d)) (fresh_server_d : fresh (fst server_d)).

(** The client sent [m], of which the server got all but [later]. *)
Definition client_sent (m : list Z) (evs : list event) (later : list Z) : Prop :=
  is_bytes m /\ Z.of_nat (length m) < 2 ^ 26 /\ is_bytes (from_remote evs) /\ Z.of_nat (length (from_remote evs)) < 2 ^ 37 /\
  exists packets ps cap, packets <> [] /\ Forall2 sendable packets ps /\ concat ps = m /\ 0 <= cap < 2 ^ 29 /\
    send_stream packets (Some client_e) cap = Some (from_client evs ++ later).

(** The server has not seen the client's vector. *)
Definition new_vector (d : decrypter) (e : enc_ctx) : Prop := snd (looked (fst d) (snd d) (vector e) now) = false.

Lemma tunnel_state m evs later s es :
  client_sent m evs later -> new_vector server_d client_e -> run server_e server_d evs s es ->
  relays hmac dns_pton cork_ip_init enc_iv_len enc_key auth_on acl_lists server_e server_d (from_client evs) (from_remote evs) es s /\
  exists d1, dec_bytes server_d (from_client evs ++ later) = Some (m, d1) /\ vector (fst d1) = vector client_e.
Proof using RL ML HL SL EL tmp_small globals fresh_client_e fresh_server_e fresh_server_d.
  intros (Hm & Hml & Hby & Hbl & packets & ps & cap & Hne & Hps & Hcat & Hcap & Hsend) Hnew Hrun. pose proof globals as (_ & Hiv & _).
  unfold new_vector in Hnew. destruct (looked _ _ _ _) as [c seen] eqn:Hlk. cbn [snd] in Hnew. subst seen.
  destruct (ends_meet client_e server_d m c fresh_client_e fresh_server_d Hm ltac:(lia) Hlk) as (w & s1 & r1 & _ & Hdec & Hwl & Hv & Hall & _).
  rewrite (Hall packets ps cap) in Hsend by done. injection Hsend as Hw.
  assert (Z.of_nat (length (vector client_e ++ w)) <= 16 + Z.of_nat (length m)) as Hlen by (rewrite length_app, length_take; lia).
  rewrite Hw in Hdec, Hlen. rewrite length_app in Hlen. split; [|by exists (r1, c)].
  apply link_relays. refine (proj2 (run_linked realloc malloc _ _ _ _ _ _ _ _ _ _ _ _ _ _ _ _ Hrun _)). split_and!; [|by apply fresh_encrypts|lia].
  intros Hge. apply (dec_prefix server_d _ later); [|done]. by eexists.
Qed.

(** C4: Upstream a server is transparent: whatever a client encrypts, however the
    bytes are cut into segments and whatever else happens in between, at any time
    the server has either done nothing, or has contacted the peer that the
    client's header names and passed on, with what waits, the data behind that
    header as far as they were received; out of their authenticated chunks if the
    header asks for it. *)
Theorem upstream_transparent m t ota tail evs later s es :
  client_sent m evs later -> new_vector server_d client_e -> run server_e server_d evs s es ->
  opening (iv client_e) m t ota tail ->
  quiet es \/
  exists received missing, tail = received ++ missing /\ length missing = length later /\ head (contacts es) = Some t /\ body (iv client_e) ota received = Some (to_remote es ++ waiting_up s).
Proof using RL ML HL SL EL tmp_small globals fresh_client_e fresh_server_e fresh_server_d.
  intros Hsent Hnew Hrun Hop. pose proof globals as (_ & Hiv & _). destruct (tunnel_state _ _ _ _ _ Hsent Hnew Hrun) as [Hrel (d1 & Hall & Hv)].
  destruct Hsent as (_ & Hml & _). destruct Hrel as [[? _]|(plain & ivd & t' & tail' & out & Hdec & Hivd & Hop' & Hbody & Hct & Hout & _)]; [by left|right].
  cbn [dec crypt_laws] in Hdec. pose proof (dec_bytes_app _ _ later _ _ Hdec) as Happ. rewrite Hall in Happ.
  destruct (dec_bytes (d_ctx s) later) as [[q d2]|] eqn:Eq; [|done]. cbn [mbind option_bind] in Happ. injection Happ as -> ->.
  pose proof (dec_bytes_ctx _ _ _ _ Hdec) as [Hini Hivl]. pose proof (dec_bytes_same_iv _ _ _ _ _ _ _ Hdec Eq) as Hsame.
  cbn [Relay.evp_iv crypt_cipher] in Hivd. injection Hivd as <-.
  destruct (opening_agree (iv (fst (d_ctx s))) (iv client_e) plain (plain ++ q) t' t (auth s) ota tail' tail q Hop' Hop eq_refl) as (-> & <- & ->);
    [rewrite <- Hv; by f_equal|lia|].
  exists tail', q. split_and!; [done| |done|].
  - apply dec_bytes_length in Eq; [|lia]. rewrite Hini in Eq. lia.
  - rewrite Hout, <- Hbody. unfold Session.body. destruct (auth s); [|done]. f_equal. destruct fresh_client_e as [_ Hl].
    apply feed_vector; [rewrite <- Hv; by f_equal|lia|lia].
Qed.

(** C5: Downstream too: whatever the peer sends and however the server cuts it, what
    the server has sent to the client, with what waits, decrypts at the client to
    exactly the bytes that came from the peer. *)
Theorem downstream_transparent m evs later s es segs ss cap :
  client_sent m evs later -> new_vector server_d client_e -> run server_e server_d evs s es ->
  new_vector client_d server_e -> from_remote evs <> [] ->
  Forall2 sendable segs ss -> concat ss = to_client es ++ waiting_down s -> 0 <= cap < 2 ^ 29 ->
  match ss with seg :: _ => enc_iv_len <= Z.of_nat (length seg) | [] => False end ->
  exists c, recv_stream segs (snd client_d) now (Some (fst client_d)) cap = Some (Some (from_remote evs), c).
Proof using RL ML HL SL EL tmp_small globals fresh_client_e fresh_server_e fresh_client_d fresh_server_d.
  intros Hsent Hnew Hrun Hnew2 Hne Hss Hcat Hcap Hfst. destruct (tunnel_state _ _ _ _ _ Hsent Hnew Hrun) as [Hrel _].
  destruct Hsent as (_ & _ & Hby & Hbl & _).
  unfold new_vector in Hnew2. destruct (looked _ _ _ _) as [c seen] eqn:Hlk. cbn [snd] in Hnew2. subst seen.
  destruct (ends_meet server_e client_d _ c fresh_server_e fresh_client_d Hby Hbl Hlk) as (w & s1 & r1 & Henc & _ & _ & _ & _ & Hall).
  exists c. apply (Hall segs ss cap); [done| |done|done]. rewrite Hcat.
  destruct Hrel as [(_ & _ & _ & ?)|(plain & ivd & t & tail & out & _ & _ & _ & _ & _ & _ & [[? _]|He])]; [done|done|].
  cbn [enc crypt_laws] in He. rewrite Henc in He. by injection He as -> _.
Qed.

End Cipher.
(** ** An instance

    Salsa20's interface with a counting key stream: a request for 10.0.0.7:80 with
    two bytes of data, sent in two packets, received in two segments. *)
Definition empty_memory : option (Cache.cache unit) := Some (Cache.mkCache 256 []).
Definition server_sender_example : enc_ctx_t Z := mkCtx false 0 0 (rev iv_example).
Definition end_example : enc_ctx_t Z * option (Cache.cache unit) := (receiver_example, empty_memory).
Definition request_example : list (list Z) := [[1; 10; 0; 0; 7; 0; 80; 65]; [66]].
Definition request_buffers : list (buffer_t * buffer_t) := map (fun p => (mkBuf [] 0, mkBuf p (Z.of_nat (length p)))) request_example.
Definition tunnel_wire : list Z := [1; 2; 3; 4; 5; 6; 7; 8; 0; 8; 3; 4; 2; 6; 87; 73; 75].

Notation sys_example := (mkSys true true true TfoFailed true).
Definition tunnel_events : list event :=
  [Client_readable (Data (take 15 tunnel_wire)) (Sent 0) sys_example; Remote_writable true (Sent 0);
   Client_readable (Data [73]) (Sent 0) sys_example; Remote_writable true (Sent 1); Remote_readable (Data [67; 68]) (Sent 3)].
Definition tunnel_effects : list effect :=
  [Tx 15; Connect (SockIn [10; 0; 0; 7] 80); Reset_addr; Tx 1; ToRemote []; ToRemote [65]; Rx 2; ToClient [0; 0; 0]].

#[local] Instance tunnel_cipher : Cipher (enc_ctx_t Z) (enc_ctx_t Z * option (Cache.cache unit)) :=
  crypt_cipher realloc_example (fun l => l) init_example update_example sodium_example SALSA20 8 key_example
    (H := Cache.first_find unit) 5 (mkBuf [] 0).

Notation tunnel_play := (play (OS := unit) (PS := unit) realloc_example malloc_example hmac_example (fun _ => []) (fun l => l) ip_example
  true 8 key_example false false false (None : option (@acl (cork_ip -> bool) (list Z)))).
Notation tunnel_run := (run (OS := unit) (PS := unit) realloc_example malloc_example hmac_example (fun _ => []) (fun l => l) ip_example
  true 8 key_example false false false (None : option (@acl (cork_ip -> bool) (list Z)))).
Notation server_example := (server_t (enc_ctx_t Z) (enc_ctx_t Z * option (Cache.cache unit)) unit unit).
Notation none_example := (None : option (@acl (cork_ip -> bool) (list Z))).

Lemma tunnel_reached :
  exists s, tunnel_play tunnel_events (start malloc_example server_sender_example end_example) = Some (s, tunnel_effects) /\
    tunnel_run server_sender_example end_example tunnel_events s tunnel_effects.
Proof.
  eexists. split; [vm_compute; reflexivity|].
  eapply (play_run _ _ _ _ _ _ _ _ _ _ _ _ _ server_sender_example end_example tunnel_events [] _ []); [apply run_start|]. vm_compute. reflexivity.
Qed.

Lemma fresh_example : fresh sender_example /\ fresh server_sender_example /\ fresh receiver_example.
Proof. by split_and!; split. Qed.

Lemma client_sent_example :
  client_sent realloc_example (fun l => l) init_example update_example sodium_example SALSA20 8 key_example sender_example
    (concat request_example) tunnel_events [75].
Proof.
  split_and!; [refine (bool_decide_unpack _ _); vm_compute; exact I|done|refine (bool_decide_unpack _ _); vm_compute; exact I|done|].
  exists request_buffers, request_example, 64. split_and!; [done| |done|done|done|vm_compute; reflexivity].
  repeat constructor; apply sendable_example; cbn; done || lia.
Qed.

Lemma upstream_transparent_witness :
  exists (s : server_example) received missing, tunnel_run server_sender_example end_example tunnel_events s tunnel_effects /\
    [65; 66] = received ++ missing /\ length missing = 1%nat /\ received = to_remote tunnel_effects ++ waiting_up s.
Proof.
  destruct tunnel_reached as (s & _ & Hr). exists s.
  destruct (upstream_transparent realloc_example (fun l => l) init_example update_example sodium_example SALSA20 8 key_example
    (H := Cache.first_find unit) 5 globals_example malloc_example hmac_example (fun _ => []) (fun l => l) ip_example true false false false none_example
    (mkBuf [] 0) ltac:(done) sender_example server_sender_example end_example
    (proj1 fresh_example) (proj1 (proj2 fresh_example)) (proj2 (proj2 fresh_example))
    (concat request_example) (Direct (SockIn [10; 0; 0; 7] 80)) false [65; 66] tunnel_events [75] s tunnel_effects client_sent_example
    ltac:(vm_compute; reflexivity) Hr) as [(_ & _ & Hc)|(received & missing & E & El & _ & Hb)].
  - refine (opening_intro _ _ _ _ _ _ _ _ _ _ _ _ [1; 10; 0; 0; 7; 0; 80] _ _ _ _); [|done|done|done].
    exact (Req_ipv4 _ _ 1 [10; 0; 0; 7] [0; 80] eq_refl eq_refl eq_refl).
  - vm_compute in Hc. discriminate Hc.
  - exists received, missing. injection Hb as Hb. split; [exact Hr|]. split; [exact E|]. split; [exact El|exact Hb].
Defined.

Lemma downstream_transparent_witness :
  exists (s : server_example) c, recv_stream realloc_example (fun l => l) init_example update_example sodium_example SALSA20 8 key_example
      (H := Cache.first_find unit) [(mkBuf [] 0, mkBuf (to_client tunnel_effects ++ waiting_down s) 10)]
      empty_memory 5 (Some receiver_example) 64 = Some (Some [67; 68], c).
Proof.
  destruct tunnel_reached as (s & Hs & Hr). exists s.
  assert (to_client tunnel_effects ++ waiting_down s = [0; 0; 0; 0; 0; 0; 0; 0; 66; 70]) as E.
  { vm_compute in Hs. injection Hs as <-. vm_compute. reflexivity. }
  clear Hs.
  apply (downstream_transparent realloc_example (fun l => l) init_example update_example sodium_example SALSA20 8 key_example
    (H := Cache.first_find unit) 5 globals_example malloc_example hmac_example (fun _ => []) (fun l => l) ip_example true false false false none_example
    (mkBuf [] 0) ltac:(done) sender_example server_sender_example end_example end_example
    (proj1 fresh_example) (proj1 (proj2 fresh_example)) (proj2 (proj2 fresh_example)) (proj2 (proj2 fresh_example))
    (concat request_example) tunnel_events [75] s tunnel_effects
    [(mkBuf [] 0, mkBuf (to_client tunnel_effects ++ waiting_down s) 10)] [to_client tunnel_effects ++ waiting_down s] 64 client_sent_example
    ltac:(vm_compute; reflexivity) Hr ltac:(vm_compute; reflexivity) ltac:(vm_compute; discriminate)).
  - rewrite E. apply Forall2_cons. split; [|constructor]. apply sendable_example; cbn; done || lia.
  - cbn [concat]. by rewrite app_nil_r.
  - done.
  - rewrite E. done.
Defined.

End Tunnel.
