(* ===== verification/CList.v ===== *)
(** * CList: the linked list of shadowsocksr-libev

    Models src/server/list.c: a list with a head node that holds nothing, a tail
    pointer and a counter, on a store of nodes.  The store says which nodes are
    allocated, so that a use after free, a null pointer or a lost node shows; what
    an operation does to a list is stated of the sequence of its elements, with the
    nodes of others ([frame]) unchanged.

    A node owns its block of data: no operation shares one between nodes.  [room]
    is how many more times [malloc] succeeds. *)

From Stdlib Require Import Sorted.
From S2P Require Import Prelude Libc.

Import Libc.

Module CList.

Record node := mkNode { data : option (list Z); next : Z }.
Record store := mkStore { cells : gmap Z node; brk : Z; room : Z }.
(** [struct clist] without its member functions, which never change. *)
Record clist := mkList { head : Z; tail : Z; size : Z; data_size : Z }.

Definition NULL : Z := 0.

(** ** The store *)

Definition malloc_node (st : store) : Z * store :=
  if 0 <? room st
  then (brk st, mkStore (<[brk st := mkNode None NULL]> (cells st)) (brk st + 1) (room st - 1))
  else (NULL, st).

(** [malloc(n)] and the copy of [n] bytes of [d] into the block; the block is not
    checked. *)
Definition malloc_copy (st : store) (d : list Z) (n : Z) : option (list Z * store) :=
  if 0 <? room st then b ← mread d 0 n; Some (b, mkStore (cells st) (brk st) (room st - 1)) else None.

Definition get (st : store) (p : Z) : option node := cells st !! p.
Definition put (st : store) (p : Z) (n : node) : option store :=
  if bool_decide (is_Some (cells st !! p)) then Some (mkStore (<[p := n]> (cells st)) (brk st) (room st)) else None.
Definition set_next (st : store) (p q : Z) : option store := n ← get st p; put st p (mkNode (data n) q).
Definition set_data (st : store) (p : Z) (d : option (list Z)) : option store := n ← get st p; put st p (mkNode d (next n)).
(** [free] of the data of a node and of the node. *)
Definition free (st : store) (p : Z) : option store :=
  _ ← get st p; Some (mkStore (delete p (cells st)) (brk st) (room st)).

(** Fuel for a walk: a list without a cycle has at most as many nodes as the store. *)
Definition fuel (st : store) : nat := S (base.size (cells st)).

(** ** Operations

    [None] for a [List] is a null pointer.  A comparison gets the data of a node
    and the caller's; what [foreach] calls may change the data. *)

Definition list_init (st : store) (data_size : Z) : option clist * store :=
  if 0 <? room st then
    let '(h, st) := malloc_node (mkStore (cells st) (brk st) (room st - 1)) in
    (Some (mkList h h 0 data_size), st)
  else (None, st).

Definition list_add_back (st : store) (l : option clist) (d : list Z) : option (Z * store * option clist) :=
  let '(new_node, st) := malloc_node st in
  match l with
  | Some l =>
      if new_node =? NULL then Some (0, st, Some l) else
      '(b, st) ← malloc_copy st d (data_size l);
      st ← put st new_node (mkNode (Some b) NULL);
      st ← set_next st (tail l) new_node;
      Some (1, st, Some (mkList (head l) new_node (u32 (size l + 1)) (data_size l)))
  | None => Some (0, st, None)
  end.

Definition list_add_front (st : store) (l : option clist) (d : list Z) : option (Z * store * option clist) :=
  let '(new_node, st) := malloc_node st in
  match l with
  | Some l =>
      if new_node =? NULL then Some (0, st, Some l) else
      '(b, st) ← malloc_copy st d (data_size l);
      h ← get st (head l);
      st ← put st new_node (mkNode (Some b) (next h));
      st ← set_next st (head l) new_node;
      Some (1, st, Some (mkList (head l) (if size l =? 0 then new_node else tail l) (u32 (size l + 1)) (data_size l)))
  | None => Some (0, st, None)
  end.

(** [prev->next = prev->next->next], and the node is freed. *)
Definition unlink (st : store) (prev curr : Z) : option store :=
  p ← get st prev; n ← get st (next p); st ← put st prev (mkNode (data p) (next n)); free st curr.

Fixpoint delete_loop (f : nat) (st : store) (l : clist) (pfunc : list Z -> list Z -> bool) (d : list Z) (prev curr : Z)
    : option (Z * store * clist) :=
  match f with
  | O => None
  | S f =>
      if curr =? NULL then Some (0, st, l) else
      n ← get st curr;
      nd ← data n;
      if pfunc nd d then
        st ← unlink st prev curr;
        Some (1, st, mkList (head l) (if curr =? tail l then prev else tail l) (u32 (size l - 1)) (data_size l))
      else
        p ← get st prev;
        delete_loop f st l pfunc d (next p) (next n)
  end.

Definition list_delete_node (st : store) (l : option clist) (d : list Z) (pfunc : list Z -> list Z -> bool)
    : option (Z * store * option clist) :=
  match l with
  | Some l =>
      h ← get st (head l);
      '(r, st, l) ← delete_loop (fuel st) st l pfunc d (head l) (next h);
      Some (r, st, Some l)
  | None => Some (0, st, None)
  end.

(** [n] steps of both pointers. *)
Fixpoint advance (n : nat) (st : store) (prev curr : Z) : option (Z * Z) :=
  match n with
  | O => Some (prev, curr)
  | S n => p ← get st prev; c ← get st curr; advance n st (next p) (next c)
  end.

Definition list_delete_at (st : store) (l : option clist) (index : Z) : option (Z * store * option clist) :=
  match l with
  | Some l =>
      if index <? size l then
        h ← get st (head l);
        '(prev, curr) ← advance (Z.to_nat index) st (head l) (next h);
        let tail := if index =? u32 (size l - 1) then prev else tail l in
        st ← unlink st prev curr;
        Some (1, st, Some (mkList (head l) tail (u32 (size l - 1)) (data_size l)))
      else Some (0, st, Some l)
  | None => Some (0, st, None)
  end.

Definition list_modify_at (st : store) (l : option clist) (index : Z) (new_data : list Z) : option (Z * store) :=
  match l with
  | Some l =>
      if index <? size l then
        h ← get st (head l);
        '(_, curr) ← advance (Z.to_nat index) st (head l) (next h);
        n ← get st curr;
        b ← data n;
        d ← mread new_data 0 (data_size l);
        b ← mwrite b 0 d;
        st ← set_data st curr (Some b);
        Some (1, st)
      else Some (0, st)
  | None => Some (0, st)
  end.

(** ** Sorting *)

Fixpoint min_loop (f : nat) (st : store) (pfunc : list Z -> list Z -> bool) (min jcurr : Z) : option Z :=
  match f with
  | O => None
  | S f =>
      if jcurr =? NULL then Some min else
      m ← get st min; md ← data m;
      j ← get st jcurr; jd ← data j;
      min_loop f st pfunc (if pfunc md jd then jcurr else min) (next j)
  end.

Definition swap_data (st : store) (n1 n2 : Z) : option store :=
  a ← get st n1; b ← get st n2;
  st ← set_data st n2 (data a);
  set_data st n1 (data b).

Fixpoint sort_loop (f : nat) (st : store) (pfunc : list Z -> list Z -> bool) (icurr : Z) : option store :=
  match f with
  | O => None
  | S f =>
      if icurr =? NULL then Some st else
      i ← get st icurr;
      min ← min_loop (fuel st) st pfunc icurr (next i);
      st ← (if min =? icurr then Some st else swap_data st min icurr);
      i ← get st icurr;
      sort_loop f st pfunc (next i)
  end.

Definition list_sort (st : store) (l : option clist) (pfunc : list Z -> list Z -> bool) : option store :=
  match l with
  | Some l => h ← get st (head l); sort_loop (fuel st) st pfunc (next h)
  | None => Some st
  end.

(** ** Walks *)

Fixpoint have_loop (f : nat) (st : store) (same : list Z -> option bool) (curr : Z) : option Z :=
  match f with
  | O => None
  | S f =>
      if curr =? NULL then Some 0 else
      n ← get st curr; nd ← data n;
      b ← same nd;
      if b : bool then Some 1 else have_loop f st same (next n)
  end.

Definition list_have_same (st : store) (l : option clist) (d : list Z) (pfunc : list Z -> list Z -> bool) : option Z :=
  match l with
  | Some l => h ← get st (head l); have_loop (fuel st) st (fun nd => Some (pfunc nd d)) (next h)
  | None => Some 0
  end.

(** [memcmp(...)] is true where the blocks differ. *)
Definition list_have_same_cmp (st : store) (l : option clist) (d : list Z) : option Z :=
  match l with
  | Some l =>
      h ← get st (head l);
      have_loop (fuel st) st
        (fun nd => a ← mread nd 0 (data_size l); b ← mread d 0 (data_size l); Some (bool_decide (a <> b))) (next h)
  | None => Some 0
  end.

Fixpoint foreach_loop {A} (f : nat) (st : store) (doit : list Z -> A -> option (list Z * A)) (curr : Z) (acc : A)
    : option (store * A) :=
  match f with
  | O => None
  | S f =>
      if curr =? NULL then Some (st, acc) else
      n ← get st curr; nd ← data n;
      '(nd, acc) ← doit nd acc;
      st ← set_data st curr (Some nd);
      foreach_loop f st doit (next n) acc
  end.

Definition list_foreach {A} (st : store) (l : option clist) (doit : list Z -> A -> option (list Z * A)) (acc : A)
    : option (store * A) :=
  match l with
  | Some l => h ← get st (head l); foreach_loop (fuel st) st doit (next h) acc
  | None => Some (st, acc)
  end.

(** The nodes from [curr] on are freed. *)
Fixpoint free_loop (f : nat) (st : store) (curr : Z) : option store :=
  match f with
  | O => None
  | S f =>
      if curr =? NULL then Some st else
      n ← get st curr;
      st ← free st curr;
      free_loop f st (next n)
  end.

Definition list_clear (st : store) (l : option clist) : option (store * option clist) :=
  match l with
  | Some l =>
      h ← get st (head l);
      st ← free_loop (fuel st) st (next h);
      st ← set_next st (head l) NULL;
      Some (st, Some (mkList (head l) (head l) 0 (data_size l)))
  | None => Some (st, None)
  end.

Definition list_destroy (st : store) (l : option clist) : option (store * option clist) :=
  match l with
  | Some l => st ← free_loop (fuel st) st (head l); Some (st, None)
  | None => Some (st, None)
  end.

(** ** What the operations do to the sequence *)

Fixpoint delete_first (f : list Z -> bool) (xs : list (list Z)) : option (list (list Z)) :=
  match xs with
  | [] => None
  | x :: xs => if f x then Some xs else cons x <$> delete_first f xs
  end.

(** The index, from [bi] on, of the element that no later one beats. *)
Fixpoint min_index (pfunc : list Z -> list Z -> bool) (best : list Z) (bi j : nat) (xs : list (list Z)) : nat :=
  match xs with
  | [] => bi
  | x :: xs => if pfunc best x then min_index pfunc x j (S j) xs else min_index pfunc best bi (S j) xs
  end.

(** The least element changes places with the first, then the rest is sorted. *)
Fixpoint selection (n : nat) (pfunc : list Z -> list Z -> bool) (xs : list (list Z)) : list (list Z) :=
  match n, xs with
  | S n, x :: rest =>
      match min_index pfunc x 0 1 rest with
      | O => x :: selection n pfunc rest
      | S m => default x (rest !! m) :: selection n pfunc (<[m := x]> rest)
      end
  | _, _ => []
  end.
Definition selection_sort pfunc xs := selection (length xs) pfunc xs.

Inductive operation :=
| AddBack (d : list Z) | AddFront (d : list Z)
| DeleteNode (d : list Z) (pfunc : list Z -> list Z -> bool) | DeleteAt (index : Z)
| ModifyAt (index : Z) (d : list Z)
| Sort (pfunc : list Z -> list Z -> bool) | Clear
| HaveSame (d : list Z) (pfunc : list Z -> list Z -> bool) | HaveSameCmp (d : list Z).

(** A void operation counts as returning 0. *)
Definition perform (st : store) (l : option clist) (o : operation) : option (Z * store * option clist) :=
  match o with
  | AddBack d => list_add_back st l d
  | AddFront d => list_add_front st l d
  | DeleteNode d pfunc => list_delete_node st l d pfunc
  | DeleteAt i => list_delete_at st l i
  | ModifyAt i d => '(r, st) ← list_modify_at st l i d; Some (r, st, l)
  | Sort pfunc => st ← list_sort st l pfunc; Some (0, st, l)
  | Clear => '(st, l) ← list_clear st l; Some (0, st, l)
  | HaveSame d pfunc => r ← list_have_same st l d pfunc; Some (r, st, l)
  | HaveSameCmp d => r ← list_have_same_cmp st l d; Some (r, st, l)
  end.

Fixpoint perform_all (st : store) (l : option clist) (os : list operation) : option (list Z * store * option clist) :=
  match os with
  | [] => Some ([], st, l)
  | o :: os =>
      '(r, st, l) ← perform st l o;
      '(rs, st, l) ← perform_all st l os;
      Some (r :: rs, st, l)
  end.

(** Elements are blocks of [n] bytes. *)
Definition meaning (n : Z) (xs : list (list Z)) (o : operation) : Z * list (list Z) :=
  let block (d : list Z) := take (Z.to_nat n) d in
  match o with
  | AddBack d => (1, xs ++ [block d])
  | AddFront d => (1, block d :: xs)
  | DeleteNode d pfunc => match delete_first (fun x => pfunc x d) xs with Some xs => (1, xs) | None => (0, xs) end
  | DeleteAt i => if i <? Z.of_nat (length xs) then (1, delete (Z.to_nat i) xs) else (0, xs)
  | ModifyAt i d => if i <? Z.of_nat (length xs) then (1, <[Z.to_nat i := block d]> xs) else (0, xs)
  | Sort pfunc => (0, selection_sort pfunc xs)
  | Clear => (0, [])
  | HaveSame d pfunc => (if existsb (fun x => pfunc x d) xs then 1 else 0, xs)
  | HaveSameCmp d => (if forallb (fun x => bool_decide (x = block d)) xs then 0 else 1, xs)
  end.

Fixpoint meaning_all (n : Z) (xs : list (list Z)) (os : list operation) : list Z * list (list Z) :=
  match os with
  | [] => ([], xs)
  | o :: os => let '(r, xs) := meaning n xs o in let '(rs, xs) := meaning_all n xs os in (r :: rs, xs)
  end.

(** What a caller provides: a block of the size and an index that is not negative. *)
Definition argument (n : Z) (o : operation) : Prop :=
  match o with
  | AddBack d | AddFront d | HaveSameCmp d => n <= Z.of_nat (length d)
  | ModifyAt i d => n <= Z.of_nat (length d) /\ 0 <= i
  | DeleteAt i => 0 <= i
  | _ => True
  end.
Definition adds (o : operation) : Z := match o with AddBack _ | AddFront _ => 1 | _ => 0 end.

(** ** Lists in the store *)

Definition first (ns : list (Z * option (list Z))) (z : Z) : Z := match ns with [] => z | (a, _) :: _ => a end.

(** The nodes [ns] are linked one to the next and the last to [z]. *)
Fixpoint seg (c : gmap Z node) (ns : list (Z * option (list Z))) (z : Z) : Prop :=
  match ns with
  | [] => True
  | (a, d) :: ns => c !! a = Some (mkNode d (first ns z)) /\ seg c ns z
  end.

(** The elements with their nodes; the head. *)
Definition node_of (e : Z * list Z) : Z * option (list Z) := (fst e, Some (snd e)).
Definition nodes (h : Z) (es : list (Z * list Z)) : list (Z * option (list Z)) := (h, None) :: map node_of es.

(** The store holds the list of elements [es] and, apart from it, [F]. *)
Record repr_at (F : gmap Z node) (st : store) (l : clist) (es : list (Z * list Z)) : Prop := {
  r_seg : seg (cells st) (nodes (head l) es) NULL;
  r_nodup : NoDup (head l :: map fst es);
  r_alloc : Forall (fun a => 0 < a < brk st) (head l :: map fst es);
  r_tail : tail l = List.last (map fst es) (head l);
  r_size : size l = Z.of_nat (length es) /\ size l < 2 ^ 32;
  r_blocks : Forall (fun e => Z.of_nat (length (snd e)) = data_size l) es /\ 0 <= data_size l < 2 ^ 32;
  r_frame a : a ∉ head l :: map fst es -> cells st !! a = F !! a;
  r_apart a : a ∈ head l :: map fst es -> F !! a = None;
  r_fresh a : brk st <= a -> F !! a = None }.
Definition repr F st l xs := exists es, repr_at F st l es /\ xs = map snd es.

(** ** Segments *)

Lemma first_app a b z : first (a ++ b) z = first a (first b z).
Proof. by destruct a as [|[? ?] ?]. Qed.

Lemma seg_app c a b z : seg c (a ++ b) z <-> seg c a (first b z) /\ seg c b z.
Proof.
  induction a as [|[x d] a IH]; cbn [seg app]; [naive_solver|].
  rewrite IH, first_app. naive_solver.
Qed.

Lemma seg_ext c c' ns z :
  (forall a, a ∈ map fst ns -> c' !! a = c !! a) -> seg c ns z -> seg c' ns z.
Proof.
  induction ns as [|[x d] ns IH]; cbn [seg map fst]; [done|]. intros He [H1 H2]. split.
  - by rewrite He by left.
  - apply IH; [|done]. intros a Ha. apply He. by right.
Qed.

Lemma seg_insert c ns z a n : a ∉ map fst ns -> seg c ns z -> seg (<[a := n]> c) ns z.
Proof. intros Ha. apply seg_ext. intros b Hb. apply lookup_insert_ne. congruence. Qed.
Lemma seg_delete c ns z a : a ∉ map fst ns -> seg c ns z -> seg (delete a c) ns z.
Proof. intros Ha. apply seg_ext. intros b Hb. apply lookup_delete_ne. congruence. Qed.

Lemma seg_dom c ns z a : seg c ns z -> a ∈ map fst ns -> is_Some (c !! a).
Proof.
  induction ns as [|[x d] ns IH]; cbn [seg map fst]; [by intros _ ?%not_elem_of_nil|].
  intros [H1 H2] [->|?]%elem_of_cons; [by eexists|auto].
Qed.

Lemma map_fst_nodes es : map fst (map node_of es) = map fst es.
Proof. rewrite map_map. done. Qed.
Lemma map_fst_nodes_head h es : map fst (nodes h es) = h :: map fst es.
Proof. cbn. by rewrite map_fst_nodes. Qed.

(** There is fuel for every node. *)
Lemma seg_fuel st ns z : seg (cells st) ns z -> NoDup (map fst ns) -> (length ns < fuel st)%nat.
Proof.
  intros Hs Hn. unfold fuel. apply Nat.lt_succ_r. rewrite <- (length_map fst ns), <- size_dom.
  rewrite <- (size_list_to_set (C := gset Z) (map fst ns)) by done. apply subseteq_size.
  intros a Ha%elem_of_list_to_set. apply elem_of_dom. eauto using seg_dom.
Qed.

Lemma nodes_app h a b : nodes h (a ++ b) = nodes h a ++ map node_of b.
Proof. unfold nodes. by rewrite map_app. Qed.

Lemma nodes_last h es : exists pre d, nodes h es = pre ++ [(List.last (map fst es) h, d)].
Proof.
  destruct es as [|e es _] using rev_ind; [by exists [], None|].
  exists (nodes h es), (Some (snd e)). rewrite nodes_app, map_app. cbn [map]. by rewrite List.last_last.
Qed.

(** Writes to an allocated node. *)
Lemma put_Some st p n m : cells st !! p = Some m -> put st p n = Some (mkStore (<[p := n]> (cells st)) (brk st) (room st)).
Proof. intros H. unfold put. by rewrite bool_decide_true by eauto. Qed.

Lemma set_next_Some st p d q z :
  cells st !! p = Some (mkNode d q) -> set_next st p z = Some (mkStore (<[p := mkNode d z]> (cells st)) (brk st) (room st)).
Proof. intros H. unfold set_next, get. rewrite H. cbn. by apply (put_Some _ _ _ _ H). Qed.

Lemma set_data_Some st p d q z :
  cells st !! p = Some (mkNode d q) -> set_data st p z = Some (mkStore (<[p := mkNode z q]> (cells st)) (brk st) (room st)).
Proof. intros H. unfold set_data, get. rewrite H. cbn. by apply (put_Some _ _ _ _ H). Qed.

(** [NoDup] of locations around one of them. *)
Lemma nodup_split (a b : list Z) x : NoDup (a ++ x :: b) -> x ∉ a /\ x ∉ b /\ NoDup (a ++ b).
Proof.
  intros H. apply NoDup_Permutation_proper with (y := x :: a ++ b) in H; [|by rewrite Permutation_middle].
  apply NoDup_cons in H as [H1 H2]. split_and!; [| |done]; intros Hx; apply H1, elem_of_app; auto.
Qed.

Lemma forall_split {A} (P : A -> Prop) a x b : Forall P (a ++ x :: b) <-> P x /\ Forall P (a ++ b).
Proof. rewrite !Forall_app, Forall_cons. tauto. Qed.
Lemma elem_split (a b : list Z) x y : y ∈ a ++ x :: b <-> y = x \/ y ∈ a ++ b.
Proof. rewrite !elem_of_app, elem_of_cons. tauto. Qed.

Lemma last_in (l : list Z) d : List.last l d ∈ d :: l.
Proof.
  destruct l as [|x l _] using rev_ind; [by left|]. rewrite List.last_last. right. apply elem_of_app. right. by left.
Qed.

Section Repr.
Context (F : gmap Z node).
Implicit Types (st : store) (l : clist) (es : list (Z * list Z)).

Lemma repr_fuel st l es : repr_at F st l es -> (length es < fuel st)%nat.
Proof.
  intros H. pose proof (seg_fuel st (nodes (head l) es) NULL (r_seg _ _ _ _ H)) as Hf.
  rewrite map_fst_nodes_head in Hf. specialize (Hf (r_nodup _ _ _ _ H)). cbn in Hf. rewrite length_map in Hf. lia.
Qed.

Lemma repr_head st l es : repr_at F st l es -> get st (head l) = Some (mkNode None (first (map node_of es) NULL)).
Proof. intros H. by destruct (r_seg _ _ _ _ H). Qed.

Lemma repr_notin st l es a : repr_at F st l es -> ~ 0 < a < brk st -> a ∉ head l :: map fst es.
Proof. intros H Ha Hin. pose proof (r_alloc _ _ _ _ H) as Hl. rewrite Forall_forall in Hl. by apply Ha, Hl. Qed.

(** ** Adding *)

(** A new node between two parts of the list; [st2] is the store with it linked. *)
Lemma insert_repr st l e1 e2 b d0 tl st2 :
  repr_at F st l (e1 ++ e2) ->
  let p := List.last (map fst e1) (head l) in
  let nn := brk st in
  cells st !! p = Some (mkNode d0 (first (map node_of e2) NULL)) ->
  cells st2 = <[p := mkNode d0 nn]> (<[nn := mkNode (Some b) (first (map node_of e2) NULL)]> (cells st)) ->
  brk st2 = brk st + 1 ->
  Z.of_nat (length b) = data_size l -> size l + 1 < 2 ^ 32 ->
  tl = List.last (map fst (e1 ++ (nn, b) :: e2)) (head l) ->
  repr_at F st2 (mkList (head l) tl (size l + 1) (data_size l)) (e1 ++ (nn, b) :: e2).
Proof.
  intros Hr p nn Hp Hc Hb Hlen Hsz Htl.
  pose proof (repr_notin _ _ _ nn Hr ltac:(subst nn; lia)) as Hnn.
  pose proof (r_nodup _ _ _ _ Hr) as Hnd. pose proof (r_seg _ _ _ _ Hr) as Hs.
  assert (Hperm : head l :: map fst (e1 ++ (nn, b) :: e2) ≡ₚ nn :: head l :: map fst (e1 ++ e2)).
  { rewrite !map_app. cbn [map fst]. rewrite <- Permutation_middle. apply perm_swap. }
  assert (Hpin : p ∈ head l :: map fst (e1 ++ e2)).
  { pose proof (last_in (map fst e1) (head l)) as H. fold p in H. rewrite map_app.
    apply elem_of_cons in H as [->|H]; [by left|]. right. apply elem_of_app. by left. }
  assert (Hpn : p <> nn) by congruence.
  split; cbn [head tail size data_size].
  - rewrite nodes_app in *. destruct (nodes_last (head l) e1) as (pre & d & Hpre). fold p in Hpre.
    assert (p ∉ map fst pre /\ p ∉ map fst e2 /\ nn ∉ map fst pre /\ nn ∉ map fst e2) as (H1 & H2 & H3 & H4).
    { rewrite map_app in *. change (head l :: map fst e1 ++ map fst e2) with ((head l :: map fst e1) ++ map fst e2) in *.
      rewrite <- map_fst_nodes_head, Hpre, map_app in *. cbn [map fst] in *. rewrite <- app_assoc in Hnd, Hnn. cbn [app] in *.
      apply nodup_split in Hnd as (? & ? & _). set_solver. }
    rewrite Hpre in *. rewrite <- app_assoc in *. cbn [app map] in *. unfold node_of at 1. cbn [fst snd].
    apply seg_app in Hs as [Hs1 [Hs2 Hs3]]. cbn [first] in *. rewrite Hp in Hs2. injection Hs2 as <-.
    apply seg_app. split; [|cbn [seg first]; split_and!].
    + rewrite Hc. do 2 (apply seg_insert; [done|]). done.
    + rewrite Hc. by rewrite lookup_insert_eq.
    + rewrite Hc. rewrite lookup_insert_ne by done. by rewrite lookup_insert_eq.
    + rewrite Hc. do 2 (apply seg_insert; [by rewrite map_fst_nodes|]). done.
  - rewrite Hperm. by apply NoDup_cons.
  - rewrite Hperm, Hb. apply Forall_cons. split.
    + subst nn. pose proof (r_alloc _ _ _ _ Hr) as Ha. apply Forall_inv in Ha. lia.
    + eapply Forall_impl; [apply (r_alloc _ _ _ _ Hr)|]. intros; cbn in *; lia.
  - done.
  - destruct (r_size _ _ _ _ Hr) as [Hs1 Hs2]. rewrite length_app in *. cbn [length]. lia.
  - destruct (r_blocks _ _ _ _ Hr) as [Hb1 Hb2]. split; [|done]. rewrite Forall_app in *. rewrite Forall_cons. naive_solver.
  - intros a Ha. rewrite Hperm in Ha. apply not_elem_of_cons in Ha as [Ha1 Ha2].
    rewrite Hc, !lookup_insert_ne by congruence. by apply (r_frame _ _ _ _ Hr).
  - intros a Ha. rewrite Hperm in Ha. apply elem_of_cons in Ha as [->|Ha].
    + apply (r_fresh _ _ _ _ Hr). subst nn. lia.
    + by apply (r_apart _ _ _ _ Hr).
  - intros a Ha. apply (r_fresh _ _ _ _ Hr). lia.
Qed.

Lemma repr_brk st l es : repr_at F st l es -> 0 < brk st.
Proof. intros H. pose proof (r_alloc _ _ _ _ H) as Ha. apply Forall_inv in Ha. lia. Qed.

(** The node before the rest of a list. *)
Lemma repr_prev st l e1 e2 :
  repr_at F st l (e1 ++ e2) -> exists d, cells st !! List.last (map fst e1) (head l) = Some (mkNode d (first (map node_of e2) NULL)).
Proof.
  intros H. pose proof (r_seg _ _ _ _ H) as Hs. rewrite nodes_app in Hs.
  destruct (nodes_last (head l) e1) as (pre & d & E). rewrite E, <- app_assoc in Hs.
  apply seg_app in Hs as [_ [Hs _]]. by exists d.
Qed.

Lemma block_read d n : 0 <= n < 2 ^ 32 -> n <= Z.of_nat (length d) ->
  mread d 0 n = Some (take (Z.to_nat n) d) /\ Z.of_nat (length (take (Z.to_nat n) d)) = n.
Proof. intros Hn Hd. rewrite mread_in by lia. rewrite drop_0, length_take. split; [done|lia]. Qed.

Lemma overwrite (a b : list Z) : length b = length a -> mwrite a 0 b = Some b.
Proof. intros Hl. pose proof (mwrite_app [] a [] 0 b eq_refl Hl) as H. by rewrite !app_nil_r in H. Qed.

Lemma list_add_back_repr st l es d :
  repr_at F st l es -> data_size l <= Z.of_nat (length d) -> 2 <= room st -> size l + 1 < 2 ^ 32 ->
  exists st' l', list_add_back st (Some l) d = Some (1, st', Some l') /\
    repr_at F st' l' (es ++ [(brk st, take (Z.to_nat (data_size l)) d)]) /\
    room st' = room st - 2 /\ data_size l' = data_size l.
Proof.
  intros H Hd Hroom Hsz. pose proof (repr_brk _ _ _ H). pose proof (r_blocks _ _ _ _ H) as [_ Hds].
  destruct (block_read d (data_size l) Hds Hd) as [Hm Hlen].
  pose proof H as H'. rewrite <- (app_nil_r es) in H'. destruct (repr_prev _ _ _ _ H') as [d0 Hp].
  rewrite <- (r_tail _ _ _ _ H) in Hp.
  assert (tail l <> brk st).
  { rewrite (r_tail _ _ _ _ H). pose proof (last_in (map fst es) (head l)). pose proof (repr_notin _ _ _ (brk st) H ltac:(lia)). congruence. }
  unfold list_add_back, malloc_node. rewrite (proj2 (Z.ltb_lt 0 (room st))) by lia.
  rewrite (proj2 (Z.eqb_neq (brk st) NULL)) by (unfold NULL; lia).
  unfold malloc_copy. cbn [room cells brk]. rewrite (proj2 (Z.ltb_lt 0 _)) by lia. rewrite Hm. cbn [mbind option_bind].
  erewrite put_Some by (cbn [cells]; apply lookup_insert_eq). cbn [mbind option_bind cells brk room].
  erewrite set_next_Some.
  2:{ cbn [cells]. rewrite lookup_insert_ne by done. rewrite lookup_insert_ne by done. exact Hp. }
  cbn [mbind option_bind cells brk room].
  rewrite u32_id by (destruct (r_size _ _ _ _ H); lia). eexists _, _. split; [done|]. split_and!; [|cbn; lia|done].
  eapply (insert_repr st l es [] _ d0); cbn [cells brk]; rewrite <- ?(r_tail _ _ _ _ H); try done.
  - by rewrite insert_insert_eq.
  - rewrite map_app. cbn. by rewrite List.last_last.
Qed.

Lemma list_add_front_repr st l es d :
  repr_at F st l es -> data_size l <= Z.of_nat (length d) -> 2 <= room st -> size l + 1 < 2 ^ 32 ->
  exists st' l', list_add_front st (Some l) d = Some (1, st', Some l') /\
    repr_at F st' l' ((brk st, take (Z.to_nat (data_size l)) d) :: es) /\
    room st' = room st - 2 /\ data_size l' = data_size l.
Proof.
  intros H Hd Hroom Hsz. pose proof (repr_brk _ _ _ H). pose proof (r_blocks _ _ _ _ H) as [_ Hds].
  destruct (block_read d (data_size l) Hds Hd) as [Hm Hlen].
  pose proof (repr_head _ _ _ H) as Hp. unfold get in Hp.
  assert (head l <> brk st).
  { pose proof (repr_notin _ _ _ (brk st) H ltac:(lia)). set_solver. }
  unfold list_add_front, malloc_node. rewrite (proj2 (Z.ltb_lt 0 (room st))) by lia.
  rewrite (proj2 (Z.eqb_neq (brk st) NULL)) by (unfold NULL; lia).
  unfold malloc_copy. cbn [room cells brk]. rewrite (proj2 (Z.ltb_lt 0 _)) by lia. rewrite Hm. cbn [mbind option_bind].
  unfold get. cbn [cells]. rewrite lookup_insert_ne by done. rewrite Hp. cbn [mbind option_bind next].
  erewrite put_Some by (cbn [cells]; apply lookup_insert_eq). cbn [mbind option_bind cells brk room].
  erewrite set_next_Some.
  2:{ cbn [cells]. rewrite lookup_insert_ne by done. rewrite lookup_insert_ne by done. exact Hp. }
  cbn [mbind option_bind cells brk room].
  destruct (r_size _ _ _ _ H) as [Hs1 Hs2].
  rewrite u32_id by lia. eexists _, _. split; [done|]. split_and!; [|cbn; lia|done].
  eapply (insert_repr st l [] es _ None); cbn [cells brk]; try done.
  - by rewrite insert_insert_eq.
  - cbn [app map fst]. rewrite Hs1. destruct es as [|e es]; cbn [length]; [done|].
    rewrite (proj2 (Z.eqb_neq _ 0)) by lia. by rewrite (r_tail _ _ _ _ H).
Qed.

(** ** One element in the list *)

Lemma node_at st l e1 x xd e2 :
  repr_at F st l (e1 ++ (x, xd) :: e2) ->
  get st x = Some (mkNode (Some xd) (first (map node_of e2) NULL)) /\ (x =? NULL) = false /\
  Z.of_nat (length xd) = data_size l.
Proof.
  intros H. pose proof (r_seg _ _ _ _ H) as Hs. rewrite nodes_app in Hs. apply seg_app in Hs as [_ [Hs _]].
  split_and!; [done| |].
  - pose proof (r_alloc _ _ _ _ H) as Ha. rewrite map_app in Ha. apply Forall_cons in Ha as [_ Ha].
    apply Forall_app in Ha as [_ Ha]. apply Forall_inv in Ha. cbn in Ha. unfold NULL. lia.
  - destruct (r_blocks _ _ _ _ H) as [Hb _]. apply Forall_app in Hb as [_ Hb]. by apply Forall_inv in Hb.
Qed.

Lemma locs_split (h : Z) e1 (x : Z) (xd : list Z) e2 :
  h :: map fst (e1 ++ (x, xd) :: e2) = (h :: map fst e1) ++ x :: map fst e2.
Proof. by rewrite map_app. Qed.

Lemma set_data_repr st l e1 x xd e2 b :
  repr_at F st l (e1 ++ (x, xd) :: e2) -> Z.of_nat (length b) = data_size l ->
  exists st', set_data st x (Some b) = Some st' /\ repr_at F st' l (e1 ++ (x, b) :: e2) /\ room st' = room st.
Proof.
  intros H Hb. destruct (node_at _ _ _ _ _ _ H) as (Hx & _ & _). unfold get in Hx.
  erewrite set_data_Some by exact Hx. eexists. split; [done|]. split; [|done].
  assert (Hl : head l :: map fst (e1 ++ (x, b) :: e2) = head l :: map fst (e1 ++ (x, xd) :: e2)) by (by rewrite !locs_split).
  destruct H as [Hs Hnd Ha Ht Hsz Hbl Hf Hap Hfr].
  split; cbn [cells brk]; rewrite ?Hl; try done.
  - rewrite nodes_app in *. cbn [map] in *. apply seg_app in Hs as (Hs1 & Hs2 & Hs3). cbn [first node_of fst] in *.
    rewrite locs_split in Hnd. apply nodup_split in Hnd as (Hn1 & Hn2 & _).
    apply seg_app. split; [|split].
    + apply seg_insert; [by rewrite map_fst_nodes_head|done].
    + by rewrite lookup_insert_eq.
    + apply seg_insert; [by rewrite map_fst_nodes|done].
  - rewrite Ht. f_equal. by rewrite !map_app.
  - rewrite !length_app in *. done.
  - destruct Hbl as [Hbl ?]. split; [|done]. rewrite forall_split in *. naive_solver.
  - intros a Hin. rewrite lookup_insert_ne; [by apply Hf|]. intros ->. apply Hin. rewrite locs_split. apply (elem_split (head l :: map fst e1)). by left.
Qed.

Lemma last_cons_app (a : list Z) x b d : List.last (a ++ x :: b) d = List.last b x.
Proof.
  revert x. induction b as [|y b IH] using rev_ind; intros x; [by rewrite List.last_last|].
  rewrite app_comm_cons, app_assoc, !List.last_last. done.
Qed.

Lemma unlink_repr st l e1 x xd e2 :
  repr_at F st l (e1 ++ (x, xd) :: e2) ->
  let p := List.last (map fst e1) (head l) in
  exists st', unlink st p x = Some st' /\ room st' = room st /\
    repr_at F st' (mkList (head l) (match e2 with [] => p | _ => tail l end) (size l - 1) (data_size l)) (e1 ++ e2).
Proof.
  intros H p. destruct (node_at _ _ _ _ _ _ H) as (Hx & _ & _). unfold get in Hx.
  destruct (repr_prev _ _ _ _ H) as [d Hp]. cbn [map node_of first fst] in Hp. fold p in Hp.
  pose proof (r_nodup _ _ _ _ H) as Hnd. rewrite locs_split in Hnd. apply nodup_split in Hnd as (Hx1 & Hx2 & Hnd).
  assert (Hpin : p ∈ head l :: map fst e1) by apply last_in.
  assert (Hpx : p <> x) by congruence.
  unfold unlink, get. rewrite Hp. cbn [mbind option_bind next]. rewrite Hx. cbn [mbind option_bind next].
  erewrite put_Some by exact Hp. cbn [mbind option_bind data]. unfold free, get. cbn [cells].
  rewrite lookup_insert_ne by done. rewrite Hx. cbn [mbind option_bind]. eexists. split; [done|]. split; [done|].
  destruct H as [Hs _ Ha Ht Hsz Hbl Hf Hap Hfr]. rewrite locs_split in *. rewrite length_app in *. cbn [length] in *.
  assert (Hl : head l :: map fst (e1 ++ e2) = (head l :: map fst e1) ++ map fst e2) by by rewrite map_app.
  split; cbn [cells brk head tail size data_size room]; rewrite ?Hl.
  - rewrite nodes_app in *. destruct (nodes_last (head l) e1) as (pre & d' & Hpre). fold p in Hpre.
    rewrite <- map_fst_nodes_head in Hx1, Hnd. rewrite Hpre in *. rewrite <- app_assoc in *. cbn [map app] in *.
    rewrite map_app in Hx1, Hnd. cbn [map fst] in *. rewrite <- app_assoc in Hnd. cbn [app] in Hnd.
    apply nodup_split in Hnd as (Hp1 & Hp2 & _). apply not_elem_of_app in Hx1 as [Hx1 _].
    apply seg_app in Hs as (Hs1 & Hs2 & Hs3 & Hs4). cbn [first node_of fst] in *.
    apply seg_app. split; [|split].
    + apply seg_delete; [done|]. by apply seg_insert.
    + rewrite lookup_delete_ne by done. rewrite lookup_insert_eq. congruence.
    + apply seg_delete; [by rewrite map_fst_nodes|]. apply seg_insert; [by rewrite map_fst_nodes|]. done.
  - done.
  - by apply (forall_split _ (head l :: map fst e1)) in Ha as [_ Ha].
  - rewrite map_app in Ht. cbn [map fst] in Ht. rewrite last_cons_app in Ht. rewrite map_app.
    destruct e2 as [|e2 e3]; [by rewrite app_nil_r|]. rewrite Ht. cbn [map]. rewrite last_cons_app.
    change (fst e2 :: map fst e3) with ([] ++ fst e2 :: map fst e3). by rewrite last_cons_app.
  - rewrite length_app. lia.
  - destruct Hbl as [Hbl ?]. by apply forall_split in Hbl as [_ Hbl].
  - intros a Hin. destruct (decide (a = x)) as [->|].
    + rewrite lookup_delete_eq. symmetry. apply Hap, (elem_split (head l :: map fst e1)). by left.
    + rewrite lookup_delete_ne by done. rewrite lookup_insert_ne.
      * apply Hf. by intros [->|?]%(elem_split (head l :: map fst e1)).
      * intros ->. apply Hin, elem_of_app. by left.
  - intros a Hin. apply Hap, (elem_split (head l :: map fst e1)). by right.
  - done.
Qed.

(** Whether the element is the last one, by its node. *)
Lemma is_tail st l e1 x xd e2 :
  repr_at F st l (e1 ++ (x, xd) :: e2) -> (x =? tail l) = match e2 with [] => true | _ => false end.
Proof.
  intros H. rewrite (r_tail _ _ _ _ H), map_app. cbn [map fst]. rewrite last_cons_app.
  pose proof (r_nodup _ _ _ _ H) as Hnd. rewrite locs_split in Hnd. apply nodup_split in Hnd as (_ & Hx & _).
  destruct e2 as [|[y yd] e2]; [apply Z.eqb_refl|]. apply Z.eqb_neq. intros E. apply Hx. rewrite E at 1.
  cbn [map fst]. change (List.last (y :: map fst e2) x) with (List.last ([] ++ y :: map fst e2) x).
  rewrite last_cons_app. apply last_in.
Qed.

Lemma size_pred st l e1 x xd e2 : repr_at F st l (e1 ++ (x, xd) :: e2) -> u32 (size l - 1) = size l - 1.
Proof. intros H. destruct (r_size _ _ _ _ H) as [H1 H2]. rewrite length_app in H1. cbn [length] in H1. apply u32_id. lia. Qed.

Lemma delete_loop_repr st l pfunc d rest e1 f :
  repr_at F st l (e1 ++ rest) -> (length rest < f)%nat ->
  exists r st' l' es',
    delete_loop f st l pfunc d (List.last (map fst e1) (head l)) (first (map node_of rest) NULL) = Some (r, st', l') /\
    repr_at F st' l' es' /\ room st' = room st /\ data_size l' = data_size l /\
    (r, map snd es') = match delete_first (fun x => pfunc x d) (map snd rest) with
                       | Some ys => (1, map snd e1 ++ ys) | None => (0, map snd (e1 ++ rest)) end.
Proof.
  revert e1 f. induction rest as [|[x xd] rest IH]; intros e1 [|f] H Hf; try (cbn in Hf; lia).
  { eexists 0, st, l, (e1 ++ []). split; [done|]. by split_and!. }
  destruct (node_at _ _ _ _ _ _ H) as (Hx & H0 & _). cbn [map node_of first fst delete_loop snd delete_first length] in *.
  rewrite H0, Hx. cbn [mbind option_bind data]. destruct (pfunc xd d) eqn:E.
  - destruct (unlink_repr _ _ _ _ _ _ H) as (st' & -> & Hroom & Hr). cbn [mbind option_bind].
    rewrite (is_tail _ _ _ _ _ _ H), (size_pred _ _ _ _ _ _ H). eexists _, _, _, (e1 ++ rest). split; [done|].
    split_and!; try done; [by destruct rest|]. by rewrite map_app.
  - destruct (repr_prev _ _ _ _ H) as [d' Hp]. cbn [map node_of first fst] in Hp. unfold get. rewrite Hp.
    cbn [mbind option_bind next]. replace (e1 ++ (x, xd) :: rest) with ((e1 ++ [(x, xd)]) ++ rest) in * by list_assoc.
    destruct (IH _ f H ltac:(lia)) as (r & st' & l' & es' & Hd & Hrest). exists r, st', l', es'.
    split; [rewrite <- Hd; f_equal|].
    + rewrite map_app. cbn [map fst]. by rewrite List.last_last.
    + destruct Hrest as (?&?&?&->). split_and!; try done. rewrite map_app. cbn [map snd].
      destruct (delete_first _ _); cbn; [|done]. f_equal. list_assoc.
Qed.

Lemma advance_repr st l n e1 rest :
  repr_at F st l (e1 ++ rest) -> (n <= length rest)%nat ->
  advance n st (List.last (map fst e1) (head l)) (first (map node_of rest) NULL)
  = Some (List.last (map fst (e1 ++ take n rest)) (head l), first (map node_of (drop n rest)) NULL).
Proof.
  revert e1 rest. induction n as [|n IH]; intros e1 rest H Hn; cbn [advance].
  { by rewrite take_0, app_nil_r. }
  destruct rest as [|[x xd] rest]; cbn [length] in Hn; [lia|].
  destruct (node_at _ _ _ _ _ _ H) as (Hx & _ & _). destruct (repr_prev _ _ _ _ H) as [d Hp].
  cbn [map node_of first fst] in *. unfold get. rewrite Hp. unfold get in Hx. cbn [mbind option_bind]. rewrite Hx. cbn [mbind option_bind next].
  replace (e1 ++ (x, xd) :: rest) with ((e1 ++ [(x, xd)]) ++ rest) in * by list_assoc.
  specialize (IH _ _ H ltac:(lia)). rewrite map_app in IH. cbn [map fst] in IH. rewrite List.last_last in IH.
  rewrite IH. cbn [take drop]. do 3 f_equal. list_assoc.
Qed.

(** The element at an index. *)
Lemma split_at (es : list (Z * list Z)) i :
  0 <= i < Z.of_nat (length es) ->
  exists x xd e2, es = take (Z.to_nat i) es ++ (x, xd) :: e2 /\ drop (Z.to_nat i) es = (x, xd) :: e2 /\
    length (take (Z.to_nat i) es) = Z.to_nat i.
Proof.
  intros Hi. destruct (drop (Z.to_nat i) es) as [|[x xd] e2] eqn:E.
  { apply (f_equal length) in E. rewrite length_drop in E. cbn in E. lia. }
  exists x, xd, e2. split; [|split; [done|]].
  - rewrite <- E. by rewrite take_drop.
  - rewrite length_take. lia.
Qed.

Lemma walk_to st l es i :
  repr_at F st l es -> 0 <= i < Z.of_nat (length es) ->
  exists e1 x xd e2, es = e1 ++ (x, xd) :: e2 /\ length e1 = Z.to_nat i /\
    advance (Z.to_nat i) st (head l) (first (map node_of es) NULL) = Some (List.last (map fst e1) (head l), x).
Proof.
  intros H Hi. destruct (split_at es i Hi) as (x & xd & e2 & He & Hd & Hl).
  exists (take (Z.to_nat i) es), x, xd, e2. split_and!; [done|done|].
  pose proof (advance_repr st l (Z.to_nat i) [] es H ltac:(lia)) as Ha. cbn [map List.last app] in Ha.
  by rewrite Ha, Hd.
Qed.

(** ** Walks *)

Lemma have_loop_repr st l same p rest e1 f :
  repr_at F st l (e1 ++ rest) -> (length rest < f)%nat ->
  Forall (fun e => same (snd e) = Some (p (snd e))) rest ->
  have_loop f st same (first (map node_of rest) NULL) = Some (if existsb p (map snd rest) then 1 else 0).
Proof.
  revert e1 f. induction rest as [|[x xd] rest IH]; intros e1 [|f] H Hf Hs; try (cbn in Hf; lia); [done|].
  destruct (node_at _ _ _ _ _ _ H) as (Hx & H0 & _). apply Forall_cons in Hs as [Hs1 Hs].
  cbn [map node_of first fst have_loop snd existsb length] in *. rewrite H0, Hx. cbn [mbind option_bind data]. rewrite Hs1.
  cbn [mbind option_bind]. destruct (p xd); [done|]. cbn [orb next].
  apply (IH (e1 ++ [(x, xd)])); [|lia|done]. by rewrite <- app_assoc.
Qed.

Fixpoint walk {A} (doit : list Z -> A -> option (list Z * A)) (xs : list (list Z)) (acc : A) : option (list (list Z) * A) :=
  match xs with
  | [] => Some ([], acc)
  | x :: xs => '(x, acc) ← doit x acc; '(xs, acc) ← walk doit xs acc; Some (x :: xs, acc)
  end.

Lemma foreach_loop_repr {A} st l (doit : list Z -> A -> option (list Z * A)) ys acc acc' rest e1 f :
  repr_at F st l (e1 ++ rest) -> (length rest < f)%nat ->
  (forall x a y b, doit x a = Some (y, b) -> length y = length x) ->
  walk doit (map snd rest) acc = Some (ys, acc') ->
  exists st' es', foreach_loop f st doit (first (map node_of rest) NULL) acc = Some (st', acc') /\
    repr_at F st' l (e1 ++ es') /\ map snd es' = ys /\ room st' = room st.
Proof.
  revert e1 f st ys acc. induction rest as [|[x xd] rest IH]; intros e1 [|f] st ys acc H Hf Hd Hw; try (cbn in Hf; lia).
  { injection Hw as <- <-. by exists st, []. }
  destruct (node_at _ _ _ _ _ _ H) as (Hx & H0 & Hlen).
  cbn [map node_of first fst foreach_loop snd walk length] in *. rewrite H0, Hx. cbn [mbind option_bind data].
  apply bind_Some in Hw as ([y a] & Hy & Hw). apply bind_Some in Hw as ([ys' a'] & Hys & [= <- ->]).
  rewrite Hy. cbn [mbind option_bind].
  destruct (set_data_repr _ _ _ _ _ _ y H) as (st1 & -> & H1 & Hr1). { by rewrite (Hd _ _ _ _ Hy). }
  cbn [mbind option_bind next].
  destruct (IH (e1 ++ [(x, y)]) f st1 ys' a) as (st' & es' & Hl & Hr & <- & Hroom); try done; [by rewrite <- app_assoc|lia|].
  exists st', ((x, y) :: es'). rewrite Hl. split_and!; [done|by rewrite <- app_assoc in Hr|done|congruence].
Qed.

(** ** Sorting *)

Lemma elem_node st l es k x xd :
  repr_at F st l es -> es !! k = Some (x, xd) -> exists q, get st x = Some (mkNode (Some xd) q) /\ (x =? NULL) = false.
Proof.
  intros H Hk. rewrite <- (take_drop_middle _ _ _ Hk) in H. destruct (node_at _ _ _ _ _ _ H) as (H1 & H2 & _). eauto.
Qed.

Lemma min_loop_repr st l pfunc a b bi rest es e1 f :
  repr_at F st l es -> es = e1 ++ rest -> es !! bi = Some (a, b) -> (length rest < f)%nat ->
  exists m mb, min_loop f st pfunc a (first (map node_of rest) NULL) = Some m /\
    es !! min_index pfunc b bi (length e1) (map snd rest) = Some (m, mb).
Proof.
  intros H. revert e1 a b bi f. induction rest as [|[x xd] rest IH]; intros e1 a b bi [|f] He Hb Hf; try (cbn in Hf; lia).
  { by exists a, b. }
  destruct (elem_node _ _ _ _ _ _ H Hb) as (q & Ha & _). pose proof H as H'. rewrite He in H'.
  destruct (node_at _ _ _ _ _ _ H') as (Hx & H0 & _).
  cbn [map node_of first fst min_loop snd min_index length] in *. rewrite H0, Ha. cbn [mbind option_bind data]. rewrite Hx.
  cbn [mbind option_bind data next].
  assert (Hx' : es !! length e1 = Some (x, xd)) by (by rewrite He, list_lookup_middle).
  assert (He' : es = (e1 ++ [(x, xd)]) ++ rest) by (by rewrite <- app_assoc).
  assert (Hl : length (e1 ++ [(x, xd)]) = S (length e1)) by (rewrite length_app; cbn; lia).
  rewrite <- Hl. destruct (pfunc b xd); eapply IH; done || lia.
Qed.

Lemma swap_data_repr st l e1 i d1 e2 m d2 e3 :
  repr_at F st l (e1 ++ (i, d1) :: e2 ++ (m, d2) :: e3) ->
  exists st', swap_data st m i = Some st' /\ repr_at F st' l (e1 ++ (i, d2) :: e2 ++ (m, d1) :: e3) /\ room st' = room st.
Proof.
  intros H. destruct (node_at _ _ _ _ _ _ H) as (Hi & _ & Hl1). pose proof H as H'. rewrite app_comm_cons, app_assoc in H'.
  destruct (node_at _ _ _ _ _ _ H') as (Hm & _ & Hl2). unfold swap_data. rewrite Hm. cbn [mbind option_bind data]. rewrite Hi.
  cbn [mbind option_bind data].
  destruct (set_data_repr _ _ _ _ _ _ d2 H Hl2) as (st1 & -> & H1 & Hr1). cbn [mbind option_bind].
  rewrite app_comm_cons, app_assoc in H1. destruct (set_data_repr _ _ _ _ _ _ d1 H1 Hl1) as (st2 & -> & H2 & Hr2).
  exists st2. split_and!; [done| |congruence]. by rewrite <- app_assoc in H2.
Qed.

Lemma min_index_shift pfunc k b bi j xs :
  min_index pfunc b (k + bi) (k + j) xs = (k + min_index pfunc b bi j xs)%nat.
Proof.
  revert b bi j. induction xs as [|x xs IH]; intros b bi j; cbn [min_index]; [done|].
  rewrite !plus_n_Sm. destruct (pfunc b x); apply IH.
Qed.

(** One turn of the outer loop. *)
Lemma sort_turn st l pfunc e1 x xd rest :
  repr_at F st l (e1 ++ (x, xd) :: rest) ->
  exists st' d r, (min ← min_loop (fuel st) st pfunc x (first (map node_of rest) NULL);
                   if min =? x then Some st else swap_data st min x) = Some st' /\
    repr_at F st' l (e1 ++ (x, d) :: r) /\ length r = length rest /\ room st' = room st /\
    selection (S (length rest)) pfunc (xd :: map snd rest) = d :: selection (length rest) pfunc (map snd r).
Proof.
  intros H. assert (He : e1 ++ (x, xd) :: rest = (e1 ++ [(x, xd)]) ++ rest) by list_assoc.
  destruct (min_loop_repr _ _ pfunc x xd (length e1) rest _ (e1 ++ [(x, xd)]) (fuel st) H He) as (m & mb & -> & Hm).
  { by rewrite list_lookup_middle. }
  { pose proof (repr_fuel _ _ _ H) as Hl. rewrite length_app in Hl. cbn in Hl. lia. }
  cbn [mbind option_bind]. rewrite length_app in Hm. cbn [length] in Hm.
  pose proof (min_index_shift pfunc (length e1) xd 0 1 (map snd rest)) as Hsh. rewrite Nat.add_0_r in Hsh. rewrite Hsh in Hm.
  rewrite lookup_app_r in Hm by lia. replace (length e1 + min_index pfunc xd 0 1 (map snd rest) - length e1)%nat
    with (min_index pfunc xd 0 1 (map snd rest)) in Hm by lia.
  cbn [selection]. destruct (min_index pfunc xd 0 1 (map snd rest)) as [|k]; cbn in Hm.
  { injection Hm as -> ->. rewrite Z.eqb_refl. by exists st, mb, rest. }
  apply list_elem_of_split_length in Hm as (r1 & r2 & -> & ->).
  pose proof (r_nodup _ _ _ _ H) as Hnd. rewrite locs_split in Hnd. apply nodup_split in Hnd as (_ & Hx & _).
  rewrite (proj2 (Z.eqb_neq m x)).
  2:{ intros ->. apply Hx. rewrite map_app. apply elem_of_app. right. by left. }
  destruct (swap_data_repr _ _ _ _ _ _ _ _ _ H) as (st' & -> & Hr & Hroom).
  exists st', mb, (r1 ++ (m, xd) :: r2). split_and!; [done|done|by rewrite !length_app|done|].
  rewrite !map_app. cbn [map snd]. rewrite <- (length_map snd r1), list_lookup_middle by done.
  rewrite insert_app_r_alt, Nat.sub_diag by done. done.
Qed.

Lemma sort_loop_repr pfunc l n : forall st rest e1 f,
  length rest = n -> repr_at F st l (e1 ++ rest) -> (length rest < f)%nat ->
  exists st' es', sort_loop f st pfunc (first (map node_of rest) NULL) = Some st' /\
    repr_at F st' l (e1 ++ es') /\ map snd es' = selection n pfunc (map snd rest) /\ room st' = room st.
Proof.
  induction n as [|n IH]; intros st [|[x xd] rest] e1 [|f] Hn H Hf; try (cbn in *; lia).
  { by exists st, []. }
  destruct (node_at _ _ _ _ _ _ H) as (Hx & H0 & _).
  destruct (sort_turn _ _ pfunc _ _ _ _ H) as (st1 & d & r & Ht & H1 & Hlen & Hroom & Hsel).
  cbn [map node_of first fst sort_loop snd length] in *. rewrite H0, Hx. cbn [mbind option_bind next].
  apply bind_Some in Ht as (m & -> & Ht). cbn [mbind option_bind]. rewrite Ht. cbn [mbind option_bind].
  destruct (node_at _ _ _ _ _ _ H1) as (Hx1 & _ & _). rewrite Hx1. cbn [mbind option_bind next].
  injection Hn as Hn. rewrite Hn in Hsel.
  destruct (IH st1 r (e1 ++ [(x, d)]) f) as (st' & es' & -> & Hr & Hs & Hroom'); [lia|by rewrite <- app_assoc|lia|].
  exists st', ((x, d) :: es'). split_and!; [done|by rewrite <- app_assoc in Hr| |congruence].
  rewrite Hsel. cbn [map snd]. by rewrite Hs.
Qed.

(** ** Freeing *)

Lemma free_loop_spec ns : forall st f,
  seg (cells st) ns NULL -> NoDup (map fst ns) -> Forall (fun a => 0 < a) (map fst ns) -> (length ns < f)%nat ->
  exists st', free_loop f st (first ns NULL) = Some st' /\ room st' = room st /\ brk st' = brk st /\
    forall a, cells st' !! a = if decide (a ∈ map fst ns) then None else cells st !! a.
Proof.
  induction ns as [|[x d] ns IH]; intros st [|f] Hs Hn Hp Hf; try (cbn in Hf; lia).
  { exists st. split_and!; try done. }
  cbn [seg map fst first free_loop length] in *. destruct Hs as [H1 H2].
  apply NoDup_cons in Hn as [Hx Hn]. apply Forall_cons in Hp as [Hp0 Hp].
  rewrite (proj2 (Z.eqb_neq x NULL)) by (unfold NULL; lia).
  unfold free, get. rewrite H1. cbn [mbind option_bind next].
  destruct (IH (mkStore (delete x (cells st)) (brk st) (room st)) f) as (st' & -> & Hr & Hb & Hc); try done; [|lia|].
  { by apply seg_delete. }
  exists st'. split_and!; try done. intros a. rewrite Hc. cbn [cells].
  destruct (decide (a = x)) as [->|Ha].
  - rewrite decide_False by done. rewrite lookup_delete_eq. by rewrite decide_True by left.
  - rewrite lookup_delete_ne by done. destruct (decide (a ∈ map fst ns)).
    + by rewrite decide_True by (by right).
    + by rewrite decide_False by (by intros [?|?]%elem_of_cons).
Qed.

Lemma list_clear_repr st l es :
  repr_at F st l es -> exists st', list_clear st (Some l) = Some (st', Some (mkList (head l) (head l) 0 (data_size l))) /\
    repr_at F st' (mkList (head l) (head l) 0 (data_size l)) [] /\ room st' = room st.
Proof.
  intros H. pose proof (repr_head _ _ _ H) as Hh. pose proof (repr_fuel _ _ _ H) as Hf.
  pose proof H as [Hs Hnd Ha Ht Hsz Hbl Hfr Hap Hfs]. destruct Hs as [_ Hs].
  apply NoDup_cons in Hnd as [Hhd Hnd]. apply Forall_cons in Ha as [Ha0 Ha].
  destruct (free_loop_spec (map node_of es) st (fuel st)) as (st' & Hfl & Hr & Hb & Hc).
  { done. } { by rewrite map_fst_nodes. }
  { rewrite map_fst_nodes. eapply Forall_impl; [exact Ha|]. cbn. lia. }
  { by rewrite length_map. }
  rewrite map_fst_nodes in Hc. unfold list_clear. rewrite Hh. cbn [mbind option_bind next]. rewrite Hfl. cbn [mbind option_bind].
  erewrite set_next_Some by (rewrite Hc, decide_False by done; exact Hh). cbn [mbind option_bind].
  eexists. split; [done|]. split; [|done].
  split; cbn [cells brk head tail size data_size nodes map seg first]; try done.
  - split; [|done]. by rewrite lookup_insert_eq.
  - apply NoDup_singleton.
  - rewrite Hb. by apply Forall_cons.
  - split; [done|]. by destruct Hbl.
  - intros a Hin. rewrite lookup_insert_ne by set_solver. rewrite Hc. destruct (decide _) as [Hd|Hd].
    + symmetry. apply Hap. by right.
    + apply Hfr. intros [->|?]%elem_of_cons; [set_solver|done].
  - intros a Hin. apply Hap. apply list_elem_of_singleton in Hin as ->. by left.
  - by rewrite Hb.
Qed.

(** Nothing of a destroyed list is left. *)
Lemma list_destroy_repr st l es :
  repr_at F st l es -> exists st', list_destroy st (Some l) = Some (st', None) /\ cells st' = F.
Proof.
  intros H. pose proof (repr_fuel _ _ _ H) as Hf.
  pose proof H as [Hs Hnd Ha Ht Hsz Hbl Hfr Hap Hfs].
  destruct (free_loop_spec (nodes (head l) es) st (fuel st)) as (st' & Hfl & Hr & Hb & Hc).
  { done. } { by rewrite map_fst_nodes_head. }
  { rewrite map_fst_nodes_head. eapply Forall_impl; [exact Ha|]. cbn. lia. }
  { apply seg_fuel with NULL; [done|]. by rewrite map_fst_nodes_head. }
  unfold list_destroy. cbn [first nodes] in Hfl. rewrite Hfl. exists st'. split; [done|].
  apply map_eq. intros a. rewrite Hc, map_fst_nodes_head. destruct (decide _) as [Hd|Hd].
  - symmetry. by apply Hap.
  - by apply Hfr.
Qed.

Lemma list_init_repr st n :
  F = cells st -> 0 < brk st -> (forall a, brk st <= a -> F !! a = None) -> 0 <= n < 2 ^ 32 -> 2 <= room st ->
  exists l st', list_init st n = (Some l, st') /\ repr_at F st' l [] /\ data_size l = n /\ size l = 0 /\ room st' = room st - 2.
Proof.
  intros HF Hb Hfr Hn Hroom. unfold list_init, malloc_node. cbn [room cells brk].
  rewrite !(proj2 (Z.ltb_lt 0 _)) by lia. eexists _, _. split; [done|]. split_and!; [|done|done|cbn; lia].
  split; cbn [cells brk head tail size data_size nodes map seg first length]; try done.
  - split; [|done]. by rewrite lookup_insert_eq.
  - apply NoDup_singleton.
  - apply Forall_singleton. lia.
  - intros a Hin. rewrite lookup_insert_ne by set_solver. by rewrite HF.
  - intros a ->%list_elem_of_singleton. apply Hfr. lia.
  - intros a Ha. apply Hfr. lia.
Qed.

(** ** Every operation does what it means *)

Lemma same_cmp st l es d :
  repr_at F st l es -> data_size l <= Z.of_nat (length d) ->
  list_have_same_cmp st (Some l) d
  = Some (if forallb (fun x => bool_decide (x = take (Z.to_nat (data_size l)) d)) (map snd es) then 0 else 1).
Proof.
  intros H Hd. pose proof (r_blocks _ _ _ _ H) as [Hb Hn]. destruct (block_read d (data_size l) Hn Hd) as [Hm Hl].
  set (b := take (Z.to_nat (data_size l)) d) in *.
  unfold list_have_same_cmp. rewrite (repr_head _ _ _ H). cbn [mbind option_bind next].
  rewrite (have_loop_repr st l _ (fun x => bool_decide (x <> b)) es []); [|done|by apply repr_fuel with l|].
  - f_equal. generalize (map snd es). induction l0 as [|x xs IH]; cbn [existsb forallb]; [done|].
    rewrite bool_decide_not. destruct (bool_decide (x = b)); cbn [negb orb andb]; [exact IH|done].
  - eapply Forall_impl; [exact Hb|]. intros [x xd] Hx. cbn [snd] in *. destruct (block_read xd (data_size l) Hn) as [-> _]; [lia|].
    cbn [mbind option_bind]. rewrite Hm. cbn [mbind option_bind]. rewrite take_ge by lia. done.
Qed.

Lemma perform_repr st l es o :
  repr_at F st l es -> argument (data_size l) o -> 2 * adds o <= room st -> size l + adds o < 2 ^ 32 ->
  exists st' l' es', perform st (Some l) o = Some (fst (meaning (data_size l) (map snd es) o), st', Some l') /\
    repr_at F st' l' es' /\ map snd es' = snd (meaning (data_size l) (map snd es) o) /\
    data_size l' = data_size l /\ room st' = room st - 2 * adds o /\ size l' <= size l + adds o.
Proof.
  intros H Harg Hroom Hsz. pose proof (repr_head _ _ _ H) as Hh. pose proof (repr_fuel _ _ _ H) as Hf.
  pose proof (r_size _ _ _ _ H) as [Hs _]. pose proof (r_blocks _ _ _ _ H) as [Hb Hn].
  destruct o as [d|d|d pfunc|i|i d|pfunc| |d pfunc|d]; cbn [perform meaning argument adds fst snd] in *.
  - destruct (list_add_back_repr _ _ _ d H Harg) as (st' & l' & -> & Hr & Hro & Hds); [lia|lia|].
    eexists st', l', _. split; [done|]. split_and!; [exact Hr|by rewrite map_app|done|lia|].
    destruct (r_size _ _ _ _ Hr) as [Hs' _]. rewrite length_app in Hs'. cbn in Hs'. lia.
  - destruct (list_add_front_repr _ _ _ d H Harg) as (st' & l' & -> & Hr & Hro & Hds); [lia|lia|].
    eexists st', l', _. split; [done|]. split_and!; [exact Hr|done|done|lia|].
    destruct (r_size _ _ _ _ Hr) as [Hs' _]. cbn in Hs'. lia.
  - unfold list_delete_node. rewrite Hh. cbn [mbind option_bind next].
    destruct (delete_loop_repr st l pfunc d es [] (fuel st) H Hf) as (r & st' & l' & es' & Hd & Hr & Hro & Hds & Heq).
    cbn [map List.last app] in *. rewrite Hd. cbn [mbind option_bind]. destruct (r_size _ _ _ _ Hr) as [Hs' _].
    destruct (delete_first _ _) as [ys|] eqn:E; injection Heq as -> Heq; eexists st', l', es'; (split; [done|]);
      (split_and!; [done|done|done|lia|]).
    + assert (length ys <= length es)%nat; [|apply (f_equal length) in Heq; rewrite length_map in Heq; lia].
      rewrite <- (length_map snd es). clear -E. revert ys E. induction (map snd es) as [|x xs IH]; cbn; [done|].
      intros ys. destruct (pfunc x d); [intros [= <-]; lia|]. destruct (delete_first _ xs); [|done]. intros [= <-]. cbn. specialize (IH _ eq_refl). lia.
    + apply (f_equal length) in Heq. rewrite !length_map in Heq. lia.
  - unfold list_delete_at. rewrite length_map, <- Hs. destruct (i <? size l) eqn:E; zify_bool.
    2:{ exists st, l, es. split_and!; try done; lia. }
    rewrite Hh. cbn [mbind option_bind next].
    destruct (walk_to _ _ _ i H ltac:(lia)) as (e1 & x & xd & e2 & -> & Hl & ->). cbn [mbind option_bind].
    destruct (unlink_repr _ _ _ _ _ _ H) as (st' & -> & Hro & Hr). cbn [mbind option_bind].
    rewrite (size_pred _ _ _ _ _ _ H). rewrite length_app in Hs. cbn [length] in Hs.
    replace (if i =? size l - 1 then List.last (map fst e1) (head l) else tail l)
      with (match e2 with [] => List.last (map fst e1) (head l) | _ => tail l end).
    2:{ destruct e2; cbn [length] in Hs; case_bool; done || lia. }
    eexists _, _, (e1 ++ e2). split; [done|]. split_and!; [done| |done|lia|cbn; lia].
    cbn [snd]. rewrite !map_app. cbn [map snd]. rewrite <- Hl, <- (length_map snd e1). by rewrite delete_middle.
  - unfold list_modify_at. rewrite length_map, <- Hs. destruct (i <? size l) eqn:E; zify_bool.
    2:{ exists st, l, es. split_and!; try done; lia. }
    rewrite Hh. cbn [mbind option_bind next].
    destruct (walk_to _ _ _ i H ltac:(lia)) as (e1 & x & xd & e2 & -> & Hl & ->). cbn [mbind option_bind].
    destruct (node_at _ _ _ _ _ _ H) as (-> & _ & Hxl). cbn [mbind option_bind data].
    destruct (block_read d (data_size l) Hn (proj1 Harg)) as [-> Hbl]. cbn [mbind option_bind].
    set (b := take _ d) in *. rewrite overwrite by lia. cbn [mbind option_bind].
    destruct (set_data_repr _ _ _ _ _ _ b H Hbl) as (st' & -> & Hr & Hro). cbn [mbind option_bind].
    eexists _, _, (e1 ++ (x, b) :: e2). split; [done|]. split_and!; [done| |done|lia|lia].
    cbn [snd]. rewrite !map_app. cbn [map snd]. rewrite <- Hl, <- (length_map snd e1), insert_app_r_alt, Nat.sub_diag by done. done.
  - unfold list_sort. rewrite Hh. cbn [mbind option_bind next].
    destruct (sort_loop_repr pfunc l (length es) st es [] (fuel st) eq_refl H Hf) as (st' & es' & -> & Hr & Hsel & Hro).
    cbn [mbind option_bind]. eexists st', l, es'. split; [done|]. split_and!; [done| |done|lia|lia].
    unfold selection_sort. by rewrite length_map.
  - destruct (list_clear_repr _ _ _ H) as (st' & -> & Hr & Hro). cbn [mbind option_bind].
    eexists _, _, []. split; [done|]. split_and!; [done|done|done|lia|cbn; lia].
  - unfold list_have_same. rewrite Hh. cbn [mbind option_bind next].
    rewrite (have_loop_repr st l _ (fun x => pfunc x d) es []); [|done|done|by apply Forall_true].
    exists st, l, es. split_and!; try done; lia.
  - rewrite (same_cmp _ _ _ _ H Harg). exists st, l, es. split_and!; try done; lia.
Qed.

Definition all_adds (os : list operation) : Z := foldr (fun o n => adds o + n) 0 os.

Lemma perform_all_repr os : forall st l es,
  repr_at F st l es -> Forall (argument (data_size l)) os -> 2 * all_adds os <= room st -> size l + all_adds os < 2 ^ 32 ->
  exists st' l' es', perform_all st (Some l) os = Some (fst (meaning_all (data_size l) (map snd es) os), st', Some l') /\
    repr_at F st' l' es' /\ map snd es' = snd (meaning_all (data_size l) (map snd es) os).
Proof.
  assert (Hnn : forall os, 0 <= all_adds os). { induction os0 as [|o os0 IH]; [done|]. change (0 <= adds o + all_adds os0). destruct o; cbn [adds]; lia. }
  induction os as [|o os IH]; intros st l es H Harg Hroom Hsz; [by exists st, l, es|].
  apply Forall_cons in Harg as [Ha Harg]. cbn [perform_all meaning_all].
  change (all_adds (o :: os)) with (adds o + all_adds os) in *.
  pose proof (Hnn os). destruct (perform_repr _ _ _ o H Ha ltac:(lia) ltac:(lia)) as (st1 & l1 & es1 & -> & H1 & He & Hds & Hro & Hs1).
  cbn [mbind option_bind]. destruct (meaning (data_size l) (map snd es) o) as [r xs]. cbn [fst snd] in *. subst xs.
  rewrite <- Hds in *. destruct (IH st1 l1 es1 H1 Harg ltac:(lia) ltac:(lia)) as (st2 & l2 & es2 & -> & H2 & He2).
  cbn [mbind option_bind]. destruct (meaning_all _ (map snd es1) os) as [rs ys]. by exists st2, l2, es2.
Qed.
End Repr.

(** ** Selection sort *)

Section Sorting.
Context (pfunc : list Z -> list Z -> bool).
Let le a b := pfunc a b = false.
Context (Hasym : forall a b, pfunc a b = true -> le b a) (Htrans : forall a b c, le a b -> le b c -> le a c).

Lemma le_refl x : le x x.
Proof using Hasym. unfold le. destruct (pfunc x x) eqn:E; [|done]. pose proof (Hasym _ _ E) as H. unfold le in H. congruence. Qed.

Lemma min_index_spec xs pre best bi :
  pre !! bi = Some best -> Forall (le best) pre ->
  exists m, (pre ++ xs) !! min_index pfunc best bi (length pre) xs = Some m /\ Forall (le m) (pre ++ xs).
Proof using Hasym Htrans.
  revert pre best bi. induction xs as [|x xs IH]; intros pre best bi Hb Hle; cbn [min_index].
  { rewrite app_nil_r. eauto. }
  assert (pre ++ x :: xs = (pre ++ [x]) ++ xs) as -> by list_assoc.
  replace (S (length pre)) with (length (pre ++ [x])) by (rewrite length_app; cbn; lia).
  destruct (pfunc best x) eqn:E; apply IH.
  - by rewrite lookup_app_r, Nat.sub_diag by done.
  - apply Forall_app. split; [|apply Forall_singleton].
    + eapply Forall_impl; [exact Hle|]. intros y Hy. eapply Htrans; [apply Hasym, E|done].
    + apply le_refl.
  - by apply lookup_app_l_Some.
  - apply Forall_app. split; [done|]. by apply Forall_singleton.
Qed.

Lemma selection_spec n xs :
  length xs = n -> selection n pfunc xs ≡ₚ xs /\ StronglySorted le (selection n pfunc xs).
Proof using Hasym Htrans.
  revert xs. induction n as [|n IH]; intros [|x rest] Hn; try done; [split; [done|constructor]|].
  injection Hn as Hn. cbn [selection].
  pose proof (le_refl x) as Hxx.
  destruct (min_index_spec rest [x] x 0 eq_refl) as (m & Hm & Hle); [by apply Forall_singleton|]. cbn [length app] in Hm, Hle.
  destruct (min_index pfunc x 0 1 rest) as [|k]; cbn [lookup list_lookup] in Hm.
  - injection Hm as <-. destruct (IH rest Hn) as [Hp Hs]. split; [by rewrite Hp|]. constructor; [done|].
    rewrite Hp. by apply Forall_cons in Hle as [_ Hle].
  - assert (rest !! k = Some m) as Hk by exact Hm. rewrite Hk. cbn [default].
    apply list_elem_of_split_length in Hk as (r1 & r2 & -> & ->).
    rewrite insert_app_r_alt, Nat.sub_diag by done. cbn [insert list_insert].
    destruct (IH (r1 ++ x :: r2)) as [Hp Hs]; [rewrite <- Hn, !length_app; done|].
    assert (m :: selection n pfunc (r1 ++ x :: r2) ≡ₚ x :: r1 ++ m :: r2) as Hperm.
    { rewrite Hp, <- !Permutation_middle. apply perm_swap. }
    split; [exact Hperm|]. constructor; [done|]. rewrite Hp. rewrite <- Permutation_middle in Hle |- *.
    apply Forall_cons in Hle as [H1 H2]. apply Forall_cons in H2 as [_ H2]. by apply Forall_cons.
Qed.
End Sorting.

(** ** The whole life of a list *)

(** What [foreach] collects from the list. *)
Definition collect (x : list Z) (acc : list (list Z)) : option (list Z * list (list Z)) := Some (x, acc ++ [x]).

Lemma walk_collect xs acc : walk collect xs acc = Some (xs, acc ++ xs).
Proof.
  revert acc. induction xs as [|x xs IH]; intros acc; cbn [walk]; [by rewrite app_nil_r|].
  cbn [collect mbind option_bind]. rewrite IH. cbn [mbind option_bind]. by rewrite <- app_assoc.
Qed.

Lemma collect_repr F st l es :
  repr_at F st l es -> exists st' es', list_foreach st (Some l) collect [] = Some (st', map snd es) /\
    repr_at F st' l es' /\ map snd es' = map snd es.
Proof.
  intros H. pose proof (repr_fuel _ _ _ _ H) as Hf. unfold list_foreach. rewrite (repr_head _ _ _ _ H). cbn [mbind option_bind next].
  destruct (foreach_loop_repr F st l collect (map snd es) [] (map snd es) es [] (fuel st) H Hf) as (st' & es' & -> & Hr & He & _).
  - by intros x a y b [= -> _].
  - by rewrite walk_collect.
  - by exists st', es'.
Qed.

(** A store in which [F] is allocated. *)
Definition fresh_store (st : store) : Prop := 0 < brk st /\ forall a, brk st <= a -> cells st !! a = None.

Lemma life st n os :
  fresh_store st -> 0 <= n < 2 ^ 32 -> Forall (argument n) os -> 2 + 2 * all_adds os <= room st -> all_adds os < 2 ^ 32 ->
  exists l st1 st2 l2 st3 st4,
    list_init st n = (Some l, st1) /\
    perform_all st1 (Some l) os = Some (fst (meaning_all n [] os), st2, Some l2) /\
    list_foreach st2 (Some l2) collect [] = Some (st3, snd (meaning_all n [] os)) /\
    list_destroy st3 (Some l2) = Some (st4, None) /\ cells st4 = cells st.
Proof.
  intros [Hb Hfr] Hn Harg Hroom Hsz.
  assert (0 <= all_adds os) as Hnn. { clear. induction os as [|o os IH]; [done|]. change (0 <= adds o + all_adds os). destruct o; cbn [adds]; lia. }
  destruct (list_init_repr (cells st) st n eq_refl Hb Hfr Hn) as (l & st1 & -> & Hr & <- & Hs0 & Hro); [lia|].
  destruct (perform_all_repr _ os st1 l [] Hr Harg) as (st2 & l2 & es2 & Hp & Hr2 & He); [lia|lia|].
  destruct (collect_repr _ _ _ _ Hr2) as (st3 & es3 & Hc & Hr3 & _).
  destruct (list_destroy_repr _ _ _ _ Hr3) as (st4 & Hd & Hcells).
  exists l, st1, st2, l2, st3, st4. cbn [map] in *. rewrite <- He. done.
Qed.

(** C17: a list that is made, operated on in any way, walked and destroyed: every
    operation returns and does what it means for a sequence of elements, the walk
    meets exactly the elements in order, and nothing of the list is left in the
    store while what else was there has not changed. *)
Theorem list_operations_refine st n os :
  fresh_store st -> 0 <= n < 2 ^ 32 -> Forall (argument n) os -> 2 + 2 * all_adds os <= room st -> all_adds os < 2 ^ 32 ->
  exists l st1 st2 l2 st3 st4,
    list_init st n = (Some l, st1) /\
    perform_all st1 (Some l) os = Some (fst (meaning_all n [] os), st2, Some l2) /\
    list_foreach st2 (Some l2) collect [] = Some (st3, snd (meaning_all n [] os)) /\
    list_destroy st3 (Some l2) = Some (st4, None) /\ cells st4 = cells st.
Proof. apply life. Qed.

(** A comparison by the first byte. *)
Definition greater_first (a b : list Z) : bool := List.hd 0 b <? List.hd 0 a.

Lemma list_operations_refine_witness :
  let st := mkStore {[7 := mkNode None 3]} 8 100 in
  let os := [AddBack [3;0]; AddBack [1;9]; AddFront [2;2]; HaveSameCmp [1;9]; DeleteAt 2; AddBack [1;1]; Sort greater_first;
             DeleteNode [2] greater_first; ModifyAt 0 [5;5]] in
  meaning_all 2 [] os = ([1;1;1;1;1;1;0;1;1], [[5;5];[2;2]]) /\
  exists l st1 st2 l2 st3 st4,
    list_init st 2 = (Some l, st1) /\
    perform_all st1 (Some l) os = Some (fst (meaning_all 2 [] os), st2, Some l2) /\
    list_foreach st2 (Some l2) collect [] = Some (st3, snd (meaning_all 2 [] os)) /\
    list_destroy st3 (Some l2) = Some (st4, None) /\ cells st4 = cells st.
Proof.
  intros st os. split; [vm_compute; reflexivity|].
  apply (list_operations_refine st 2 os); [|lia| |vm_compute; discriminate|vm_compute; reflexivity].
  - split; [done|]. intros a Ha. cbn in Ha. apply lookup_singleton_ne. lia.
  - subst os. repeat constructor; cbn; lia.
Defined.

(** Sorting a list by a comparison that orders leaves the same elements, each
    no greater than those behind it. *)
Theorem list_sort_sorts st n ds pfunc :
  fresh_store st -> 0 <= n < 2 ^ 32 -> Forall (fun d => n = Z.of_nat (length d)) ds ->
  2 + 2 * Z.of_nat (length ds) <= room st -> Z.of_nat (length ds) < 2 ^ 32 ->
  (forall a b, pfunc a b = true -> pfunc b a = false) ->
  (forall a b c, pfunc a b = false -> pfunc b c = false -> pfunc a c = false) ->
  exists l st1 st2 rs l2 st3 st4 ys,
    list_init st n = (Some l, st1) /\ perform_all st1 (Some l) (map AddBack ds) = Some (rs, st2, Some l2) /\
    list_sort st2 (Some l2) pfunc = Some st3 /\ list_foreach st3 (Some l2) collect [] = Some (st4, ys) /\
    ys ≡ₚ ds /\ StronglySorted (fun a b => pfunc a b = false) ys.
Proof.
  intros [Hb Hfr] Hn Hds Hroom Hsz Hasym Htrans.
  assert (Hadds : all_adds (map AddBack ds) = Z.of_nat (length ds)).
  { clear. induction ds as [|d ds IH]; [done|]. change (1 + all_adds (map AddBack ds) = Z.of_nat (length (d :: ds))). cbn [length]. lia. }
  assert (Hm : forall xs, snd (meaning_all n xs (map AddBack ds)) = xs ++ ds).
  { clear -Hds. induction Hds as [|d ds Hd _ IH]; intros xs; cbn [map meaning_all meaning]; [by rewrite app_nil_r|].
    specialize (IH (xs ++ [take (Z.to_nat n) d])). destruct (meaning_all n _ _). cbn [snd] in *.
    rewrite IH, take_ge by lia. by rewrite <- app_assoc. }
  destruct (list_init_repr (cells st) st n eq_refl Hb Hfr Hn) as (l & st1 & -> & Hr & <- & Hs0 & Hro); [lia|].
  destruct (perform_all_repr _ (map AddBack ds) st1 l [] Hr) as (st2 & l2 & es2 & Hp & Hr2 & He); [|lia|lia|].
  { clear -Hds. induction Hds; constructor; cbn; [lia|done]. }
  cbn [map] in *. rewrite Hm in He. cbn [app] in He.
  destruct (sort_loop_repr _ pfunc l2 (length es2) st2 es2 [] (fuel st2) eq_refl Hr2 (repr_fuel _ _ _ _ Hr2)) as (st3 & es3 & Hs & Hr3 & Hsel & _).
  destruct (collect_repr _ _ _ _ Hr3) as (st4 & es4 & Hc & _ & _).
  eexists l, st1, st2, _, l2, st3, st4, (map snd es3). split_and!; [done|exact Hp| |exact Hc| |].
  - unfold list_sort. rewrite (repr_head _ _ _ _ Hr2). exact Hs.
  - rewrite Hsel, He. apply selection_spec; [done|done|]. by rewrite <- He, length_map.
  - rewrite Hsel, He. apply selection_spec; [done|done|]. by rewrite <- He, length_map.
Qed.

Lemma list_sort_sorts_witness :
  let st := mkStore ∅ 1 100 in
  let ds := [[3];[1];[2];[1]] in
  exists l st1 st2 rs l2 st3 st4 ys,
    list_init st 1 = (Some l, st1) /\ perform_all st1 (Some l) (map AddBack ds) = Some (rs, st2, Some l2) /\
    list_sort st2 (Some l2) greater_first = Some st3 /\ list_foreach st3 (Some l2) collect [] = Some (st4, ys) /\
    ys ≡ₚ ds /\ StronglySorted (fun a b => greater_first a b = false) ys.
Proof.
  intros st ds. apply (list_sort_sorts st 1 ds greater_first); cbn [length room st ds]; try lia.
  - split; [done|]. intros a _. apply lookup_empty.
  - repeat constructor; cbn; lia.
  - unfold greater_first. intros. lia.
  - unfold greater_first. intros. lia.
Defined.

End CList.

Import CList.

(** ** What the list promises to its users *)
Module Records.

(** The operations of a list that is only added to and compared with. *)
Class RecordList (L : Type) := {
  have_same_cmp : L -> list Z -> option Z;
  add_back : L -> list Z -> option (Z * L) }.

(** [elements l n k xs]: [l] holds [xs], blocks of [n] bytes, and [k] more fit. *)
Class RecordListLaws (L : Type) `{RecordList L} := {
  elements : L -> Z -> Z -> list (list Z) -> Prop;
  have_same_cmp_elements l n k xs d :
    elements l n k xs -> n <= Z.of_nat (length d) ->
    have_same_cmp l d = Some (if forallb (fun x => bool_decide (x = take (Z.to_nat n) d)) xs then 0 else 1);
  add_back_elements l n k xs d :
    elements l n k xs -> 1 <= k -> n <= Z.of_nat (length d) ->
    exists l', add_back l d = Some (1, l') /\ elements l' n (k - 1) (xs ++ [take (Z.to_nat n) d]) }.

#[export] Instance clist_record : RecordList (store * clist) := {
  have_same_cmp L d := list_have_same_cmp (fst L) (Some (snd L)) d;
  add_back L d := '(r, st, l) ← list_add_back (fst L) (Some (snd L)) d; l ← l; Some (r, (st, l)) }.

Definition clist_elements (L : store * clist) (n k : Z) (xs : list (list Z)) : Prop :=
  exists F es, repr_at F (fst L) (snd L) es /\ xs = map snd es /\ data_size (snd L) = n /\
    2 * k <= room (fst L) /\ size (snd L) + k < 2 ^ 32.

#[export] Instance clist_record_laws : RecordListLaws (store * clist).
Proof.
  refine {| elements := clist_elements |}.
  - intros [st l] n k xs d (F & es & H & -> & <- & _) Hd. by apply (same_cmp F).
  - intros [st l] n k xs d (F & es & H & -> & <- & Hro & Hsz) Hk Hd. cbn [fst snd] in *.
    destruct (list_add_back_repr F st l es d H Hd) as (st' & l' & Ha & Hr & Hro' & Hds); [lia|lia|].
    exists (st', l'). cbn [add_back clist_record fst snd]. rewrite Ha. cbn [mbind option_bind]. split; [done|].
    eexists F, _. split_and!; [exact Hr|by rewrite map_app|done|cbn [fst]; lia|].
    cbn [snd]. destruct (r_size _ _ _ _ Hr) as [-> _]. destruct (r_size _ _ _ _ H) as [-> _] in Hsz. rewrite length_app. cbn [length]. lia.
Defined.

(** A fresh list on a store of its own. *)
Definition client_list (room : Z) : option (store * clist) :=
  match list_init (mkStore ∅ 1 room) 22 with (Some l, st) => Some (st, l) | _ => None end.

Lemma client_list_empty m :
  2 <= m < 2 ^ 32 -> exists L, client_list m = Some L /\ elements L 22 (m / 2 - 1) [].
Proof.
  intros Hm. destruct (list_init_repr ∅ (mkStore ∅ 1 m) 22 eq_refl ltac:(done)) as (l & st & Hi & Hr & Hds & Hs & Hro);
    [intros; apply lookup_empty|lia|cbn; lia|].
  unfold client_list. rewrite Hi. eexists. split; [done|]. exists ∅, []. cbn [fst snd room] in *.
  pose proof (Z.div_mod m 2 ltac:(lia)). pose proof (Z.mod_pos_bound m 2 ltac:(lia)). split_and!; try done; lia.
Qed.

End Records.
