(* ===== verification/Ticket.v ===== *)
(** * Ticket: the tls1.2_ticket_auth plugin of shadowsocksr-libev

    Models src/server/tls1.2_ticket.c.  The client opens with what looks like a
    TLS hello whose random field is a time, random bytes and a MAC under the key
    and the session id; the server answers with a hello and a finish of the same
    kind, the client with its finish, and from then on both sides cut the stream
    into application data records and put it together again.  The data the client
    has before the handshake is done wait in a buffer and go behind its finish.

    HMAC, [malloc], [realloc], the random bytes and the clock are parameters; the
    list of hellos seen is used through what CList.v promises of it.  The buffer a
    caller passes is the object, whose length is its capacity; what is written
    outside of an object makes the result [None]. *)

From S2P Require Import Prelude Libc Ota Verify CList.

Import Libc Ota Obfsutil Records.

#[local] Arguments Z.eqb : simpl never.
#[local] Arguments Z.leb : simpl never.
#[local] Arguments Z.ltb : simpl never.

Module Ticket.

Definition OBFS_HMAC_SHA1_LEN : Z := 10.

(** What [realloc] keeps, also when the block shrinks. *)
Class ReallocKeeps (realloc : list Z -> Z -> list Z) := {
  realloc_size a n : 0 <= n -> Z.of_nat (length (realloc a n)) = n;
  realloc_keeps a n : 0 <= n ->
    take (Nat.min (Z.to_nat n) (length a)) (realloc a n) = take (Nat.min (Z.to_nat n) (length a)) a }.
Class MallocSize (malloc : Z -> list Z) := { malloc_size n : 0 <= n -> Z.of_nat (length (malloc n)) = n }.
(** [rand_bytes] at a call writes as many bytes as asked for. *)
Class RandSize (rand_bytes : Z -> Z -> list Z) := {
  rand_size c n : 0 <= n -> Z.of_nat (length (rand_bytes c n)) = n;
  rand_are_bytes c n : is_bytes (rand_bytes c n) }.

(** ** State *)

Record tls12_ticket_auth_global_data (L : Type) := mkGlobal {
  local_client_id : list Z; client_data : L; startup_time : Z }.
Arguments mkGlobal {L}.
Arguments local_client_id {L}.
Arguments client_data {L}.
Arguments startup_time {L}.

(** [None]: the buffer was freed. *)
Record tls12_ticket_auth_local_data := mkLocal {
  handshake_status : Z; send_buffer : option (list Z); send_buffer_size : Z; recv_buffer : list Z; recv_buffer_size : Z }.

(** The plugin's object with the fields of [server_info] it uses; strings are
    without their NUL.  [rnd] and [calls] are the process's random numbers and how
    often the system was asked for random bytes or the time. *)
Record obfs (L : Type) := mkObfs {
  host : list Z; param : option (list Z); key : list Z;
  l_data : tls12_ticket_auth_local_data; g_data : tls12_ticket_auth_global_data L; rnd : rng; calls : Z }.
Arguments mkObfs {L}.
Arguments host {L}.
Arguments param {L}.
Arguments key {L}.
Arguments l_data {L}.
Arguments g_data {L}.
Arguments rnd {L}.
Arguments calls {L}.

Section Ops.
Context {L : Type} {RLst : RecordList L}.
Context (malloc : Z -> list Z) (realloc : list Z -> Z -> list Z) (hmac : list Z -> list Z -> list Z).
Context (rand_bytes : Z -> Z -> list Z) (time : Z -> Z) (signed_char : bool).
Notation obfs := (obfs L).
Implicit Types (o : obfs) (a : list Z).

Definition set_local (l : tls12_ticket_auth_local_data) o := mkObfs (host o) (param o) (key o) l (g_data o) (rnd o) (calls o).
Definition set_global g o : obfs := mkObfs (host o) (param o) (key o) (l_data o) g (rnd o) (calls o).
Definition set_param p o := mkObfs (host o) p (key o) (l_data o) (g_data o) (rnd o) (calls o).
Definition set_rnd r o := mkObfs (host o) (param o) (key o) (l_data o) (g_data o) r (calls o).
Definition called (n : Z) o := mkObfs (host o) (param o) (key o) (l_data o) (g_data o) (rnd o) (calls o + n).
Definition set_status (x : Z) o :=
  let l := l_data o in set_local (mkLocal x (send_buffer l) (send_buffer_size l) (recv_buffer l) (recv_buffer_size l)) o.
Definition set_recv (b : list Z) (n : Z) o :=
  let l := l_data o in set_local (mkLocal (handshake_status l) (send_buffer l) (send_buffer_size l) b n) o.
Definition set_send (b : option (list Z)) (n : Z) o :=
  let l := l_data o in set_local (mkLocal (handshake_status l) b n (recv_buffer l) (recv_buffer_size l)) o.

Definition tls12_ticket_auth_local_data_init : tls12_ticket_auth_local_data :=
  mkLocal 0 (Some (malloc 0)) 0 (malloc 0) 0.

(** [list]: what [list_init(22)] returns. *)
Definition tls12_ticket_auth_init_data (list : L) (call : Z) : tls12_ticket_auth_global_data L :=
  mkGlobal (rand_bytes call 32) list (time (call + 1)).

(** [tls12_ticket_auth_new_obfs] with [set_server_info]. *)
Definition tls12_ticket_auth_new_obfs (h : list Z) (p : option (list Z)) (k : list Z) (list : L) (r : rng) (call : Z) : obfs :=
  mkObfs h p k tls12_ticket_auth_local_data_init (tls12_ticket_auth_init_data list call) r (call + 2).

(** ** Pieces of the handshake *)

(** [ss_sha1_hmac_with_key] under the key and [n] bytes of the session id. *)
Definition session_mac o (n : Z) (msg : list Z) : option (list Z) :=
  id ← mread (local_client_id (g_data o)) 0 n;
  mread (hmac (key o ++ id) msg) 0 OBFS_HMAC_SHA1_LEN.

(** The 32 bytes at [i] of [buf]. *)
Definition tls12_ticket_pack_auth_data o (buf : list Z) (i : Z) : option (list Z * obfs) :=
  buf ← mwrite buf i (be_bytes 4 (time (calls o)));
  buf ← mwrite buf (i + 4) (rand_bytes (calls o + 1) 18);
  msg ← mread buf i (32 - OBFS_HMAC_SHA1_LEN);
  hash ← session_mac o 32 msg;
  buf ← mwrite buf (i + 32 - OBFS_HMAC_SHA1_LEN) hash;
  Some (buf, called 2 o).

Definition record_head (n : Z) : list Z := [23; 3; 3; u8 (Z.shiftr n 8); u8 n].

Definition tls12_ticket_auth_pack_data (encryptdata : list Z) (start len : Z) (out_buffer : list Z) (outlength : Z)
    : option (list Z) :=
  out_buffer ← mwrite out_buffer outlength (record_head len);
  data ← mread encryptdata start len;
  mwrite out_buffer (outlength + 5) data.

(** A message is built from its end: [pdata] moves down, [len] up. *)
Definition prepend (bs : list Z) (st : list Z * Z * Z) : option (list Z * Z * Z) :=
  let '(buf, pdata, len) := st in
  let n := Z.of_nat (length bs) in
  buf ← mwrite buf (pdata - n) bs; Some (buf, pdata - n, len + n).
(** Or from its start. *)
Definition append (bs : list Z) (st : list Z * Z) : option (list Z * Z) :=
  let '(buf, len) := st in
  buf ← mwrite buf len bs; Some (buf, len + Z.of_nat (length bs)).

(** [if ( *capacity < n) realloc(..., *capacity = m)]. *)
Definition ensure a (n m : Z) : list Z := if Z.of_nat (length a) <? n then realloc a m else a.

(** ** The stream of records

    The same text in both directions. *)
Fixpoint pack_loop (fuel : nat) (r : rng) (encryptdata : list Z) (datalength start : Z) (out_buffer : list Z) (outlength : Z)
    : option (list Z * Z * rng) :=
  match fuel with
  | O => None
  | S fuel =>
      if 2048 <? datalength - start then
        let '(x, r) := xorshift128plus r in
        let len := x mod 4096 + 100 in
        let len := if datalength - start <? len then datalength - start else len in
        out_buffer ← tls12_ticket_auth_pack_data encryptdata start len out_buffer outlength;
        pack_loop fuel r encryptdata datalength (start + len) out_buffer (outlength + (len + 5))
      else if 0 <? datalength - start then
        let len := datalength - start in
        out_buffer ← tls12_ticket_auth_pack_data encryptdata start len out_buffer outlength;
        Some (out_buffer, outlength + (len + 5), r)
      else Some (out_buffer, outlength, r)
  end.

Definition stream_encode o a (datalength : Z) : option (obfs * list Z * Z) :=
  if datalength <? 1024 then
    let a := ensure a (datalength + 5) ((datalength + 5) * 2) in
    data ← mread a 0 datalength;
    a ← mwrite a 5 data;
    a ← mwrite a 0 (record_head datalength);
    Some (o, a, datalength + 5)
  else
    '(out_buffer, outlength, r) ← pack_loop (S (Z.to_nat datalength)) (rnd o) a datalength 0 (malloc (datalength + 2048)) 0;
    let a := ensure a outlength (outlength * 2) in
    data ← mread out_buffer 0 outlength;
    a ← mwrite a 0 data;
    Some (set_rnd r o, a, outlength).

(** ** The client's side of the handshake *)

Definition tls_data0 : list Z :=
  [0;28;192;43;192;47;204;169;204;168;204;20;204;19;192;10;192;20;192;9;192;19;0;156;0;53;0;47;0;10;1;0].
Definition tls_data1 : list Z := [255;1;0;1;0].
Definition tls_data2 : list Z := [0;23;0;0;0;35;0;208].
Definition tls_data3 : list Z :=
  [0;13;0;22;0;20;6;1;6;3;5;1;5;3;4;1;4;3;3;1;3;3;2;1;2;3;0;5;0;5;1;0;0;0;0;0;18;0;0;117;80;0;0;0;11;0;2;1;0;0;10;0;6;0;4;0;23;0;24].

(** An empty parameter is none. *)
Definition clear_param o : obfs := match param o with Some [] => set_param None o | _ => o end.

(** Where the names of the list begin; a comma is not cut. *)
Fixpoint host_loop (fuel : nat) (hosts : list Z) (pos : Z) (phost : list Z) : option (list Z) :=
  match fuel with
  | O => None
  | S fuel =>
      c ← hosts @! pos;
      if c =? 0 then Some phost else
      if c =? chr "," then if 128 <=? Z.of_nat (length phost) then None else host_loop fuel hosts (pos + 1) (phost ++ [pos + 1])
      else host_loop fuel hosts (pos + 1) phost
  end.

Definition choose_sni o : option (list Z * obfs) :=
  hosts ← strncpy (malloc 1024) (default (host o) (param o) ++ [0]) 1024;
  phost ← host_loop (S (length hosts)) hosts 0 [0];
  let '(x, r) := xorshift128plus (rnd o) in
  p ← phost !! Z.to_nat (x mod Z.of_nat (length phost));
  sni ← strcpy (replicate 256 0) (drop (Z.to_nat p) hosts);
  name ← cstr sni;
  let sni_len := Z.of_nat (length name) in
  let numeric := match sni @! (sni_len - 1) with Some c => (48 <=? c) && (c <=? 57) | None => false end in
  Some (if (0 <? sni_len) && numeric then [] else name, set_rnd r o).

(** The extensions: the object and how much of it is used. *)
Definition hello_extensions o : option (list Z * Z * obfs) :=
  '(sni, o) ← choose_sni o;
  let sni_len := Z.of_nat (length sni) in
  st ← append tls_data1 (malloc 2048, 0);
  st ← append ([0; 0; u8 (Z.shiftr (sni_len + 5) 8); u8 (sni_len + 5); u8 (Z.shiftr (sni_len + 3) 8); u8 (sni_len + 3); 0;
                u8 (Z.shiftr sni_len 8); u8 sni_len] ++ sni) st;
  st ← append tls_data2 st;
  st ← append (rand_bytes (calls o) 208) st;
  '(tls_data, tls_data_len) ← append tls_data3 st;
  Some (tls_data, tls_data_len, called 1 o).

Definition be16 (n : Z) : list Z := [u8 (Z.shiftr n 8); u8 n].

Definition client_hello o : option (list Z * obfs) :=
  let o := clear_param o in
  '(tls_data, tls_data_len, o) ← hello_extensions o;
  let datalength := 11 + 32 + 1 + 32 + Z.of_nat (length tls_data0) + 2 + tls_data_len in
  ext ← mread tls_data 0 tls_data_len;
  st ← prepend ext (malloc datalength, datalength, 0);
  st ← prepend (be16 tls_data_len) st;
  st ← prepend tls_data0 st;
  id ← mread (local_client_id (g_data o)) 0 32;
  st ← prepend id st;
  '(buf, pdata, len) ← prepend [32] st;
  '(buf, o) ← tls12_ticket_pack_auth_data o buf (pdata - 32);
  st ← prepend [3; 3] (buf, pdata - 32, len + 32);
  st ← prepend ([1; 0] ++ be16 (snd st)) st;
  st ← prepend (be16 (snd st)) st;
  st ← prepend [3; 1] st;
  st ← prepend [22] st;
  Some (fst (fst st), set_status 1 o).

Definition change_cipher_spec : list Z := [20; 3; 3; 0; 1; 1].
Definition finish_head : list Z := [22; 3; 3; 0; 32].

Definition client_finish o : option (list Z * obfs) :=
  let l := l_data o in
  let datalength := send_buffer_size l + 43 in
  st ← append change_cipher_spec (malloc datalength, 0);
  st ← append finish_head st;
  st ← append (rand_bytes (calls o) 22) st;
  let o := called 1 o in
  msg ← mread (fst st) 0 (snd st);
  hash ← session_mac o 32 msg;
  st ← append hash st;
  sb ← send_buffer l;
  data ← mread sb 0 (send_buffer_size l);
  '(out_buffer, _) ← append data st;
  Some (out_buffer, set_status 8 (set_send None (send_buffer_size l) o)).

(** The record that waits behind those that wait already. *)
Definition keep_to_send o a (datalength : Z) : option obfs :=
  let l := l_data o in
  let n := send_buffer_size l in
  let sb := realloc (default [] (send_buffer l)) (n + datalength + 5) in
  data ← mread a 0 datalength;
  sb ← mwrite sb (n + 5) data;
  sb ← mwrite sb n (record_head datalength);
  Some (set_send (Some sb) (n + (datalength + 5)) o).

Definition tls12_ticket_auth_client_encode o a (datalength : Z) : option (obfs * list Z * Z) :=
  if handshake_status (l_data o) =? 8 then stream_encode o a datalength else
  o ← keep_to_send o a datalength;
  let give (out_buffer : list Z) (o : obfs) :=
    let datalength := Z.of_nat (length out_buffer) in
    a ← mwrite (ensure a datalength (datalength * 2)) 0 out_buffer;
    Some (o, a, datalength) in
  if handshake_status (l_data o) =? 0 then '(out_buffer, o) ← client_hello o; give out_buffer o
  else if datalength =? 0 then '(out_buffer, o) ← client_finish o; give out_buffer o
  else Some (o, a, 0).

Fixpoint client_loop (fuel : nat) (recv : list Z) (size : Z) a (datalength : Z) : option (bool * list Z * Z * list Z * Z) :=
  match fuel with
  | O => None
  | S fuel =>
      if size <=? 5 then Some (true, recv, size, a, datalength) else
      c0 ← recv @! 0;
      if negb (c0 =? 23) then Some (false, recv, size, a, datalength) else
      n ← ld_be 2 recv 3;
      if size <? n + 5 then Some (true, recv, size, a, datalength) else
      let a := ensure a (datalength + n) ((datalength + n) * 2) in
      data ← mread recv 5 n;
      a ← mwrite a datalength data;
      rest ← mread recv (5 + n) (size - (5 + n));
      recv ← mwrite recv 0 rest;
      client_loop fuel recv (size - (5 + n)) a (datalength + n)
  end.

(** What a loop makes of the call. *)
Definition decoded o (r : bool * list Z * Z * list Z * Z) : obfs * list Z * Z * bool :=
  let '(ok, recv, size, a, datalength) := r in
  (set_recv recv size o, a, if ok then datalength else -1, false).

Definition tls12_ticket_auth_client_decode o a (datalength : Z) : option (obfs * list Z * Z * bool) :=
  let l := l_data o in
  if handshake_status l =? 8 then
    let n := recv_buffer_size l + datalength in
    let recv := realloc (recv_buffer l) n in
    data ← mread a 0 datalength;
    recv ← mwrite recv (n - datalength) data;
    decoded o <$> client_loop (S (Z.to_nat n)) recv n a 0
  else
    if datalength <? 11 + 32 + 1 + 32 then Some (o, a, -1, false) else
    msg ← mread a 11 22;
    hash ← session_mac o 32 msg;
    mac ← mread a 33 OBFS_HMAC_SHA1_LEN;
    Some (o, a, if bool_decide (mac = hash) then 0 else -1, bool_decide (mac = hash)).

(** ** The server's side *)

Definition server_hello o : option (list Z * obfs) :=
  st ← prepend [192; 47; 0; 0; 5; 255; 1; 0; 1; 0] (malloc (43 + 86), 86, 0);
  id ← mread (local_client_id (g_data o)) 0 32;
  st ← prepend id st;
  '(buf, pdata, len) ← prepend [32] st;
  '(buf, o) ← tls12_ticket_pack_auth_data o buf (pdata - 32);
  st ← prepend [3; 3] (buf, pdata - 32, len + 32);
  st ← prepend ([2; 0] ++ be16 (snd st)) st;
  '(buf, pdata, len) ← prepend ([22; 3; 3] ++ be16 (snd st)) st;
  data ← mread buf pdata len;
  out_buffer ← mwrite buf 0 data;
  st ← append change_cipher_spec (out_buffer, 86);
  st ← append finish_head st;
  '(out_buffer, pdata) ← append (rand_bytes (calls o) 22) st;
  let o := called 1 o in
  msg ← mread out_buffer 0 (43 + 86);
  hash ← session_mac o 32 msg;
  out_buffer ← mwrite out_buffer pdata hash;
  Some (out_buffer, o).

Definition tls12_ticket_auth_server_encode o a (datalength : Z) : option (obfs * list Z * Z) :=
  if handshake_status (l_data o) =? 8 then stream_encode o a datalength else
  '(out_buffer, o) ← server_hello (set_status 3 o);
  data ← mread out_buffer 0 (43 + 86);
  a ← mwrite a 0 data;
  Some (o, a, 43 + 86).

Fixpoint server_loop (fuel : nat) (recv : list Z) (size : Z) a (datalength : Z) : option (bool * list Z * Z * list Z * Z) :=
  match fuel with
  | O => None
  | S fuel =>
      if size <=? 5 then Some (true, recv, size, a, datalength) else
      c0 ← recv @! 0; c1 ← recv @! 1; c2 ← recv @! 2;
      if negb (c0 =? 23) || negb (c1 =? 3) || negb (c2 =? 3) then Some (false, recv, size, a, datalength) else
      n ← ld_be 2 recv 3;
      if size <? n + 5 then Some (true, recv, size, a, datalength) else
      let a := ensure a (size + n) ((size + n) * 2) in
      data ← mread recv 5 n;
      a ← mwrite a datalength data;
      rest ← mread recv (5 + n) (size - (5 + n));
      recv ← mwrite recv 0 rest;
      server_loop fuel recv (size - (5 + n)) a (datalength + n)
  end.

Definition server_stream o a (datalength : Z) : option (obfs * list Z * Z * bool) :=
  let l := l_data o in
  '(recv, n) ← (if datalength =? 0 then Some (recv_buffer l, recv_buffer_size l) else
                let recv := realloc (recv_buffer l) (recv_buffer_size l + datalength) in
                data ← mread a 0 datalength;
                recv ← mwrite recv (recv_buffer_size l) data;
                Some (recv, recv_buffer_size l + datalength));
  decoded o <$> server_loop (S (Z.to_nat n)) recv n a 0.

(** Bytes at [i] that are compared one by one. *)
Fixpoint bytes_at a (i : Z) (bs : list Z) : option bool :=
  match bs with
  | [] => Some true
  | b :: bs => c ← a @! i; if c =? b then bytes_at a (i + 1) bs else Some false
  end.

Definition server_finish o a (datalength : Z) : option (obfs * list Z * Z * bool) :=
  let refuse := Some (o, a, -1, false) in
  if datalength <? 43 then refuse else
  ok ← bytes_at a 0 change_cipher_spec;
  if negb ok then refuse else
  ok ← bytes_at a 6 finish_head;
  if negb ok then refuse else
  msg ← mread a 0 33;
  hash ← session_mac o 32 msg;
  mac ← mread a 33 OBFS_HMAC_SHA1_LEN;
  if negb (bool_decide (mac = hash)) then refuse else
  let n := datalength - 43 in
  data ← mread a 43 n;
  recv ← mwrite (realloc (recv_buffer (l_data o)) n) 0 data;
  server_stream (set_status 8 (set_recv recv n o)) a 0.

(** The time of a hello, an [int]. *)
Definition utc_time (v : list Z) : Z := s32 (be_val v).

Definition wrong_time o (utc t : Z) : bool :=
  let max_time_dif := match param o with Some p => atoi p | None => 0 end in
  let time_dif := s32 (utc - t) in
  (0 <? max_time_dif) &&
  ((time_dif <? - max_time_dif) || (max_time_dif <? time_dif) ||
   (utc - startup_time (g_data o) <? Z.quot (- max_time_dif) 2)).

(** From the session id on; the id is taken over before anything is checked. *)
Definition check_hello o a : option (obfs * Z * bool) :=
  b ← a @! 43;
  let sessionid_len := cval signed_char b in
  if sessionid_len <? 32 then Some (o, -1, false) else
  sessionid ← mread a 44 sessionid_len;
  id ← mwrite (local_client_id (g_data o)) 0 sessionid;
  let o := set_global (mkGlobal id (client_data (g_data o)) (startup_time (g_data o))) o in
  verifyid ← mread a 11 22;
  hash ← session_mac o sessionid_len verifyid;
  let t := time (calls o) in
  let o := clear_param (called 1 o) in
  if wrong_time o (utc_time (take 4 verifyid)) t then Some (o, -1, false) else
  mac ← mread a 33 OBFS_HMAC_SHA1_LEN;
  if negb (bool_decide (mac = hash)) then Some (o, -1, false) else
  search_result ← have_same_cmp (client_data (g_data o)) (drop 11 a);
  if negb (search_result =? 0) then Some (o, -1, false) else
  '(_, l) ← add_back (client_data (g_data o)) (drop 11 a);
  Some (set_global (mkGlobal id l (startup_time (g_data o))) o, 0, true).

Definition server_check_hello o a (datalength : Z) : option (obfs * list Z * Z * bool) :=
  let o := set_status 2 o in
  let refuse := Some (o, a, -1, false) in
  ok ← bytes_at a 0 [22; 3; 1];
  if negb ok then refuse else
  size ← ld_be 2 a 3;
  if negb (size =? datalength - 5) then refuse else
  ok ← bytes_at a 5 [1; 0];
  if negb ok then refuse else
  size ← ld_be 2 a 7;
  if negb (size =? datalength - 9) then refuse else
  ok ← bytes_at a 9 [3; 3];
  if negb ok then refuse else
  '(o, r, needsendback) ← check_hello o a;
  Some (o, a, r, needsendback).

Definition tls12_ticket_auth_server_decode o a (datalength : Z) : option (obfs * list Z * Z * bool) :=
  if handshake_status (l_data o) =? 8 then server_stream o a datalength
  else if handshake_status (l_data o) =? 3 then server_finish o a datalength
  else server_check_hello o a datalength.

End Ops.

(** ** Objects with a known beginning *)

Notation zlen l := (Z.of_nat (length l)).

Lemma prefix_mread a x : x `prefix_of` a -> zlen x < 2 ^ 64 -> mread a 0 (zlen x) = Some x.
Proof. intros [r ->] Hx. by apply mread_prefix. Qed.

Lemma prefix_mread_at a x y z i n :
  (x ++ y ++ z) `prefix_of` a -> i = zlen x -> n = zlen y -> n < 2 ^ 64 -> mread a i n = Some y.
Proof. intros [r ->] -> -> Hn. rewrite <- !app_assoc. by apply mread_app. Qed.

(** A write behind what is known. *)
Lemma prefix_mwrite a x y i :
  x `prefix_of` a -> i = zlen x -> zlen x + zlen y <= zlen a ->
  exists a', mwrite a i y = Some a' /\ (x ++ y) `prefix_of` a' /\ length a' = length a.
Proof.
  intros [r ->] -> Hl. rewrite length_app in Hl. destruct (split_block r (length y)) as (r1 & r2 & -> & H1); [lia|].
  rewrite mwrite_app by done. eexists. split; [done|]. split; [|rewrite !length_app; lia].
  exists r2. list_assoc.
Qed.

(** A write over the beginning of what is known. *)
Lemma prefix_overwrite a x x' y :
  (x ++ y) `prefix_of` a -> length x' = length x -> exists a', mwrite a 0 x' = Some a' /\ (x' ++ y) `prefix_of` a' /\ length a' = length a.
Proof.
  intros [r ->] Hl. rewrite <- app_assoc. pose proof (mwrite_app [] x (y ++ r) 0 x' eq_refl Hl) as Hw. cbn [app] in Hw.
  rewrite Hw. eexists. split; [done|]. split; [exists r; list_assoc|rewrite !length_app; lia].
Qed.

Lemma mwrite_front a y : zlen y <= zlen a -> exists a', mwrite a 0 y = Some a' /\ y `prefix_of` a' /\ length a' = length a.
Proof. intros Hl. destruct (prefix_mwrite a [] y 0) as (a' & ? & ? & ?); [apply prefix_nil|done|cbn; lia|]. by exists a'. Qed.

Section Objects.
Context (malloc : Z -> list Z) (realloc : list Z -> Z -> list Z).
Context {MS : MallocSize malloc} {RK : ReallocKeeps realloc}.

Lemma realloc_prefix_of a x n : x `prefix_of` a -> zlen x <= n -> x `prefix_of` realloc a n /\ zlen (realloc a n) = n.
Proof using RK.
  intros Hx Hn. split; [|apply realloc_size; lia]. pose proof (prefix_length _ _ Hx) as Hl.
  pose proof (realloc_keeps a n ltac:(lia)) as Hk. destruct Hx as [r ->].
  assert (take (length x) (realloc (x ++ r) n) = x) as Ht.
  { apply (f_equal (take (length x))) in Hk. rewrite !take_take in Hk.
    replace (length x `min` (Z.to_nat n `min` length (x ++ r)))%nat with (length x) in Hk by (rewrite length_app in *; lia).
    by rewrite Hk, take_app_length. }
  exists (drop (length x) (realloc (x ++ r) n)). rewrite <- Ht at 2. symmetry. apply take_drop.
Qed.

Lemma ensure_prefix a x n m :
  x `prefix_of` a -> (zlen a < n -> zlen x <= m) -> n <= m ->
  x `prefix_of` ensure realloc a n m /\ n <= zlen (ensure realloc a n m) /\ zlen a <= Z.max (zlen a) n <= zlen (ensure realloc a n m).
Proof using RK.
  intros Hx Hm Hn. unfold ensure. case_bool; [|split_and!; [done|lia|lia|lia]].
  destruct (realloc_prefix_of a x m Hx (Hm ltac:(lia))) as [H1 H2]. split_and!; [done|lia|lia|lia].
Qed.

(** ** Messages built piece by piece *)

Lemma append_built bs buf x :
  x `prefix_of` buf -> zlen x + zlen bs <= zlen buf ->
  exists buf', append bs (buf, zlen x) = Some (buf', zlen (x ++ bs)) /\ (x ++ bs) `prefix_of` buf' /\ length buf' = length buf.
Proof.
  intros Hx Hl. destruct (prefix_mwrite buf x bs (zlen x) Hx eq_refl Hl) as (buf' & Hw & Hp & Hlen).
  exists buf'. unfold append. rewrite Hw. cbn [mbind option_bind]. rewrite length_app. split_and!; [|done|done].
  do 2 f_equal. lia.
Qed.

(** [st] has [x] in an object, then [z], and room for [n] more bytes before it. *)
Definition ending (st : list Z * Z * Z) (n : Z) (x z : list Z) : Prop :=
  let '(buf, pdata, len) := st in exists r, buf = r ++ x ++ z /\ pdata = zlen r /\ len = zlen x /\ n = pdata.

Lemma prepend_built bs st n x z :
  ending st n x z -> zlen bs <= n -> exists st', prepend bs st = Some st' /\ ending st' (n - zlen bs) (bs ++ x) z /\ snd st' = zlen (bs ++ x).
Proof.
  destruct st as [[buf pdata] len]. intros (r & -> & -> & -> & ->) Hl. unfold prepend.
  destruct (split_block r (length r - length bs)) as (r1 & r2 & -> & H1); [lia|].
  rewrite length_app in *. rewrite <- app_assoc. rewrite mwrite_app; [|lia|lia]. cbn [mbind option_bind].
  eexists. split; [done|]. cbn [snd]. split; [|rewrite length_app; lia].
  exists r1. rewrite !length_app. split_and!; [list_assoc|lia|lia|lia].
Qed.

Lemma malloc_ending n m : 0 <= n <= m -> exists z, ending (malloc m, n, 0) n [] z /\ zlen z = m - n.
Proof using MS.
  intros Hn. pose proof (malloc_size (malloc := malloc) m ltac:(lia)) as Hm.
  destruct (split_block (malloc m) (Z.to_nat n)) as (r & z & E & Hr); [lia|]. exists z. rewrite E in *. rewrite length_app in Hm.
  split; [|lia]. exists r. split_and!; [done|lia|done|done].
Qed.

Lemma ending_all st x z : ending st 0 x z -> st = (x ++ z, 0, zlen x).
Proof. destruct st as [[buf p] l]. intros (r & -> & Hp & -> & H0). destruct r; [|cbn in *; lia]. by rewrite <- H0. Qed.

End Objects.

(** ** Records *)

Definition frame (d : list Z) : list Z := record_head (zlen d) ++ d.
Definition frames (ds : list (list Z)) : list Z := concat (map frame ds).
Definition fits (d : list Z) : Prop := zlen d < 65536.

Lemma records_app a b : frames (a ++ b) = frames a ++ frames b.
Proof. unfold frames. by rewrite map_app, concat_app. Qed.
Lemma frames_cons d ds : frames (d :: ds) = frame d ++ frames ds.
Proof. done. Qed.
Lemma length_frame d : zlen (frame d) = zlen d + 5.
Proof. unfold frame. rewrite length_app. cbn [length record_head]. lia. Qed.

Lemma be16_val n : 0 <= n < 65536 -> be_val [u8 (Z.shiftr n 8); u8 n] = n.
Proof.
  intros Hn. unfold be_val. cbn [foldl be_step]. unfold be_step, u8. rewrite Z.shiftr_div_pow2 by lia.
  change (2 ^ 8) with 256. pose proof (Z.div_mod n 256). pose proof (Z.mod_pos_bound n 256). rewrite (Z.mod_small (n / 256)) by lia. lia.
Qed.

(** What a loop reads of a record whose head is there. *)
Lemma frame_head d r recv :
  fits d -> (record_head (zlen d) ++ r) `prefix_of` recv ->
  recv @! 0 = Some 23 /\ recv @! 1 = Some 3 /\ recv @! 2 = Some 3 /\ ld_be 2 recv 3 = Some (zlen d).
Proof.
  intros Hf [x ->]. unfold record_head. cbn [app]. split_and!; [done|done|done|]. unfold ld_be.
  rewrite <- (be16_val (zlen d)) at 3 by (unfold fits in Hf; lia).
  change (23 :: 3 :: 3 :: u8 (Z.shiftr (zlen d) 8) :: u8 (zlen d) :: r ++ x)
    with ([23;3;3] ++ [u8 (Z.shiftr (zlen d) 8); u8 (zlen d)] ++ r ++ x). by rewrite mread_app.
Qed.

(** The loops take records off the buffer in the same way: [roomy] is what a loop
    keeps of the caller's object. *)
Section Drain.
Context (loop : nat -> list Z -> Z -> list Z -> Z -> option (bool * list Z * Z * list Z * Z)).
Context (roomy : list Z -> list Z -> Z -> Prop).
Context (Hstep : forall f recv a out d b,
  (frame d ++ b) `prefix_of` recv -> fits d -> out `prefix_of` a -> roomy a out (zlen (frame d ++ b)) -> 5 < zlen (frame d ++ b) ->
  exists recv' a', loop (S f) recv (zlen (frame d ++ b)) a (zlen out) = loop f recv' (zlen b) a' (zlen (out ++ d)) /\
    b `prefix_of` recv' /\ (out ++ d) `prefix_of` a' /\ roomy a' (out ++ d) (zlen b)).
Context (Hstop : forall f recv a n b d r,
  b `prefix_of` recv -> fits d -> b ++ r = frame d -> zlen b <= 5 \/ r <> [] -> loop (S f) recv (zlen b) a n = Some (true, recv, zlen b, a, n)).
Context (Hnone : forall f recv a n, loop (S f) recv 0 a n = Some (true, recv, 0, a, n)).

(** What is left is a piece of a record, or an empty one. *)
Definition leftover (b : list Z) (ds : list (list Z)) : Prop :=
  match ds with [] => b = [] | d :: _ => zlen b < zlen (frame d) \/ d = [] /\ b = frame [] end.

Lemma drain ds : forall f recv a out b rest,
  Forall fits ds -> frames ds = b ++ rest -> b `prefix_of` recv -> out `prefix_of` a -> roomy a out (zlen b) -> (length b < f)%nat ->
  exists ds1 ds2 b' recv' a', ds = ds1 ++ ds2 /\
    loop f recv (zlen b) a (zlen out) = Some (true, recv', zlen b', a', zlen (out ++ concat ds1)) /\
    frames ds2 = b' ++ rest /\ leftover b' ds2 /\ b' `prefix_of` recv' /\ (out ++ concat ds1) `prefix_of` a'.
Proof using Hstep Hstop Hnone.
  induction ds as [|d ds IH]; intros f recv a out b rest Hfit Hfr Hb Ho Hr Hf; destruct f as [|f]; try lia.
  { destruct b; [|done]. exists [], [], [], recv, a. cbn [concat length] in *. rewrite !app_nil_r, Hnone. by split_and!. }
  apply Forall_cons in Hfit as [Hd Hfit]. rewrite frames_cons in Hfr.
  destruct (decide (5 < zlen b /\ zlen (frame d) <= zlen b)) as [[H5 Hl]|Hn].
  - assert (exists b2, b = frame d ++ b2 /\ frames ds = b2 ++ rest) as (b2 & -> & Hfr2).
    { exists (drop (length (frame d)) b). split.
      - rewrite <- (take_drop (length (frame d)) b) at 1. f_equal.
        apply (f_equal (take (length (frame d)))) in Hfr. rewrite take_app_length, take_app_le in Hfr by lia. done.
      - apply (f_equal (drop (length (frame d)))) in Hfr. rewrite drop_app_length, drop_app_le in Hfr by lia. done. }
    destruct (Hstep f recv a out d b2 Hb Hd Ho Hr H5) as (recv' & a' & -> & Hb' & Ho' & Hr').
    rewrite length_app in Hf. pose proof (length_frame d).
    destruct (IH f recv' a' (out ++ d) b2 rest Hfit Hfr2 Hb' Ho' Hr') as (ds1 & ds2 & b' & recv2 & a2 & -> & -> & H1 & H2 & H3 & H4); [lia|].
    exists (d :: ds1), ds2, b', recv2, a2. cbn [concat]. rewrite app_assoc. by split_and!.
  - assert (exists r, b ++ r = frame d) as [r Hbr].
    { destruct (decide (zlen (frame d) <= zlen b)) as [Hl|Hl].
      - pose proof (length_frame d). exists []. rewrite app_nil_r.
        apply (f_equal (take (length (frame d)))) in Hfr. rewrite take_app_length, take_app_le in Hfr by lia.
        rewrite take_ge in Hfr by lia. done.
      - exists (drop (length b) (frame d)). apply (f_equal (take (length b))) in Hfr.
        rewrite take_app_length, take_app_le in Hfr by lia. rewrite <- Hfr at 1. apply take_drop. }
    pose proof (f_equal length Hbr) as Hlen. rewrite length_app in Hlen. pose proof (length_frame d).
    exists [], (d :: ds), b, recv, a. cbn [app concat].
    rewrite (Hstop f recv a (zlen out) b d r Hb Hd Hbr).
    2:{ destruct (decide (zlen b <= 5)); [by left|right]. intros ->. cbn in Hlen. lia. }
    rewrite app_nil_r. split_and!; try done. cbn [leftover]. destruct (decide (zlen b < zlen (frame d))); [by left|right].
    assert (zlen b = 5) by lia. assert (zlen d = 0) by lia. destruct d; [|cbn in *; lia]. split; [done|].
    rewrite <- Hbr. destruct r; [by rewrite app_nil_r|cbn in *; lia].
Qed.
End Drain.

Section Streams.
Context {L : Type} {RLst : RecordList L}.
Context (malloc : Z -> list Z) (realloc : list Z -> Z -> list Z) (hmac : list Z -> list Z -> list Z).
Context (rand_bytes : Z -> Z -> list Z) (time : Z -> Z) (signed_char : bool).
Context {MS : MallocSize malloc} {RK : ReallocKeeps realloc}.
Notation obfs := (obfs L).
Implicit Types (o : obfs) (a : list Z).
Notation server_decode := (tls12_ticket_auth_server_decode realloc hmac time signed_char).
Notation client_decode := (tls12_ticket_auth_client_decode realloc hmac).
Notation server_encode := (tls12_ticket_auth_server_encode malloc realloc hmac rand_bytes time).
Notation client_encode := (tls12_ticket_auth_client_encode malloc realloc hmac rand_bytes time).

(** ** Taking records off the stream *)

(** The server sizes the caller's object by what it has received, not by what it
    has delivered; after the first record that is enough. *)
Definition server_room a (out : list Z) (size : Z) : Prop := (out = [] \/ zlen out + size <= zlen a) /\ size < 2 ^ 31.
Definition client_room a (out : list Z) (size : Z) : Prop := size < 2 ^ 31.

(** Moving what is behind a record to the front. *)
Lemma shift_record recv d b :
  (frame d ++ b) `prefix_of` recv -> zlen b < 2 ^ 31 ->
  exists recv', mread recv (5 + zlen d) (zlen (frame d ++ b) - (5 + zlen d)) = Some b /\
    mwrite recv 0 b = Some recv' /\ b `prefix_of` recv'.
Proof.
  intros Hp Hb. pose proof (length_frame d). pose proof (prefix_length _ _ Hp) as Hl. rewrite length_app in *.
  destruct (mwrite_front recv b) as (recv' & Hw & Hp' & _); [lia|]. exists recv'. split_and!; [|done|done].
  apply (prefix_mread_at recv (frame d) b []); [by rewrite app_nil_r|lia|lia|lia].
Qed.

Lemma record_data recv d b :
  (frame d ++ b) `prefix_of` recv -> fits d -> mread recv 5 (zlen d) = Some d.
Proof.
  intros Hp Hf. unfold frame in Hp. rewrite <- app_assoc in Hp. unfold fits in Hf.
  by apply (prefix_mread_at recv (record_head (zlen d)) d b); [|cbn; lia|lia|lia].
Qed.

(** The data of a record go behind what was delivered before. *)
Lemma deliver a out d n m :
  out `prefix_of` a -> (zlen a < n -> zlen out <= m) -> n <= m -> zlen out + zlen d <= Z.max (zlen a) n ->
  exists a', mwrite (ensure realloc a n m) (zlen out) d = Some a' /\ (out ++ d) `prefix_of` a' /\ Z.max (zlen a) n <= zlen a'.
Proof using RK.
  intros Ho Hm Hn Hd. destruct (ensure_prefix realloc a out n m Ho Hm Hn) as (H1 & H2 & H3).
  destruct (prefix_mwrite _ out d (zlen out) H1 eq_refl) as (a' & Hw & Hp & Hl); [lia|].
  exists a'. split_and!; [done|done|lia].
Qed.

Lemma server_step f recv a out d b :
  (frame d ++ b) `prefix_of` recv -> fits d -> out `prefix_of` a -> server_room a out (zlen (frame d ++ b)) -> 5 < zlen (frame d ++ b) ->
  exists recv' a', server_loop realloc (S f) recv (zlen (frame d ++ b)) a (zlen out) = server_loop realloc f recv' (zlen b) a' (zlen (out ++ d)) /\
    b `prefix_of` recv' /\ (out ++ d) `prefix_of` a' /\ server_room a' (out ++ d) (zlen b).
Proof using RK.
  intros Hp Hf Ho [Hroom Hs] H5. pose proof (length_frame d) as Hfl. rewrite length_app in Hs, H5, Hroom.
  destruct (frame_head d (d ++ b) recv Hf) as (H0 & H1 & H2 & Hn). { unfold frame in Hp. by rewrite <- app_assoc in Hp. }
  destruct (shift_record recv d b Hp ltac:(lia)) as (recv' & Hr & Hw & Hp').
  cbn [server_loop]. rewrite (proj2 (Z.leb_gt _ _)) by (rewrite length_app; lia).
  rewrite H0. cbn [mbind option_bind]. rewrite H1. cbn [mbind option_bind]. rewrite H2. cbn [mbind option_bind].
  change (negb (23 =? 23) || negb (3 =? 3) || negb (3 =? 3)) with false. cbv iota. rewrite Hn. cbn [mbind option_bind].
  rewrite (proj2 (Z.ltb_ge _ _)) by (rewrite length_app; lia). rewrite (record_data recv d b Hp Hf). cbn [mbind option_bind].
  destruct (deliver a out d (zlen (frame d ++ b) + zlen d) ((zlen (frame d ++ b) + zlen d) * 2) Ho) as (a' & Hwa & Hpa & Hla).
  { destruct Hroom as [->|Hroom]; [cbn; lia|]. rewrite length_app. lia. }
  { lia. }
  { rewrite length_app. destruct Hroom as [->|Hroom]; cbn [length]; lia. }
  rewrite Hwa. cbn [mbind option_bind]. rewrite Hr. cbn [mbind option_bind]. rewrite Hw. cbn [mbind option_bind].
  exists recv', a'. split_and!; try done.
  - f_equal; rewrite ?length_app; lia.
  - split; [right|lia]. rewrite length_app in *. destruct Hroom as [->|Hroom]; cbn [length] in *; lia.
Qed.

Lemma client_step f recv a out d b :
  (frame d ++ b) `prefix_of` recv -> fits d -> out `prefix_of` a -> client_room a out (zlen (frame d ++ b)) -> 5 < zlen (frame d ++ b) ->
  exists recv' a', client_loop realloc (S f) recv (zlen (frame d ++ b)) a (zlen out) = client_loop realloc f recv' (zlen b) a' (zlen (out ++ d)) /\
    b `prefix_of` recv' /\ (out ++ d) `prefix_of` a' /\ client_room a' (out ++ d) (zlen b).
Proof using RK.
  intros Hp Hf Ho Hs H5. unfold client_room in *. pose proof (length_frame d) as Hfl. rewrite length_app in Hs, H5.
  destruct (frame_head d (d ++ b) recv Hf) as (H0 & _ & _ & Hn). { unfold frame in Hp. by rewrite <- app_assoc in Hp. }
  destruct (shift_record recv d b Hp ltac:(lia)) as (recv' & Hr & Hw & Hp').
  cbn [client_loop]. rewrite (proj2 (Z.leb_gt _ _)) by (rewrite length_app; lia).
  rewrite H0. cbn [mbind option_bind].
  change (negb (23 =? 23)) with false. cbv iota. rewrite Hn. cbn [mbind option_bind].
  rewrite (proj2 (Z.ltb_ge _ _)) by (rewrite length_app; lia). rewrite (record_data recv d b Hp Hf). cbn [mbind option_bind].
  destruct (deliver a out d (zlen out + zlen d) ((zlen out + zlen d) * 2) Ho) as (a' & Hwa & Hpa & Hla); [lia|lia|lia|].
  rewrite Hwa. cbn [mbind option_bind]. rewrite Hr. cbn [mbind option_bind]. rewrite Hw. cbn [mbind option_bind].
  exists recv', a'. split_and!; try done; [|lia]. f_equal; rewrite ?length_app; lia.
Qed.

(** A record that is not complete, or empty, stays. *)
Lemma incomplete recv b d r :
  b `prefix_of` recv -> b ++ r = frame d -> 5 < zlen b -> exists x, (record_head (zlen d) ++ x) `prefix_of` recv.
Proof.
  intros [y ->] Hbr H5. exists (drop 5 b). replace (record_head (zlen d) ++ drop 5 b) with b; [by exists y|].
  rewrite <- (take_drop 5 b) at 1. f_equal. apply (f_equal (take 5)) in Hbr. rewrite take_app_le in Hbr by lia.
  unfold frame in Hbr. rewrite Hbr. by rewrite take_app_le, take_ge by (cbn; lia).
Qed.

Lemma server_stop f recv a n b d r :
  b `prefix_of` recv -> fits d -> b ++ r = frame d -> zlen b <= 5 \/ r <> [] ->
  server_loop realloc (S f) recv (zlen b) a n = Some (true, recv, zlen b, a, n).
Proof.
  intros Hb Hf Hbr Hs. cbn [server_loop]. destruct (zlen b <=? 5) eqn:E; [done|]. zify_bool.
  destruct Hs as [|Hr]; [lia|]. destruct (incomplete recv b d r Hb Hbr E) as [x Hx].
  destruct (frame_head d x recv Hf Hx) as (H0 & H1 & H2 & Hn).
  rewrite H0. cbn [mbind option_bind]. rewrite H1. cbn [mbind option_bind]. rewrite H2. cbn [mbind option_bind].
  change (negb (23 =? 23) || negb (3 =? 3) || negb (3 =? 3)) with false. cbv iota. rewrite Hn. cbn [mbind option_bind].
  rewrite (proj2 (Z.ltb_lt _ _)); [done|]. pose proof (length_frame d). rewrite <- Hbr, length_app in H.
  destruct r; [done|cbn in *; lia].
Qed.

Lemma client_stop f recv a n b d r :
  b `prefix_of` recv -> fits d -> b ++ r = frame d -> zlen b <= 5 \/ r <> [] ->
  client_loop realloc (S f) recv (zlen b) a n = Some (true, recv, zlen b, a, n).
Proof.
  intros Hb Hf Hbr Hs. cbn [client_loop]. destruct (zlen b <=? 5) eqn:E; [done|]. zify_bool.
  destruct Hs as [|Hr]; [lia|]. destruct (incomplete recv b d r Hb Hbr E) as [x Hx].
  destruct (frame_head d x recv Hf Hx) as (H0 & _ & _ & Hn).
  rewrite H0. cbn [mbind option_bind]. change (negb (23 =? 23)) with false. cbv iota. rewrite Hn. cbn [mbind option_bind].
  rewrite (proj2 (Z.ltb_lt _ _)); [done|]. pose proof (length_frame d). rewrite <- Hbr, length_app in H.
  destruct r; [done|cbn in *; lia].
Qed.

(** The handshake is done and [b] waits for the rest of its record. *)
Definition streaming o (b : list Z) : Prop :=
  handshake_status (l_data o) = 8 /\ b `prefix_of` recv_buffer (l_data o) /\ recv_buffer_size (l_data o) = zlen b.

(** What a call of a decoder makes of a segment: the records that are complete
    are delivered. *)
Definition takes_segment (decode : obfs -> list Z -> Z -> option (obfs * list Z * Z * bool)) : Prop :=
  forall o b ds seg rest room,
    streaming o b -> Forall fits ds -> frames ds = (b ++ seg) ++ rest -> zlen (b ++ seg) < 2 ^ 31 ->
    exists ds1 ds2 b' recv' a',
      ds = ds1 ++ ds2 /\ decode o (seg ++ room) (zlen seg) = Some (set_recv recv' (zlen b') o, a', zlen (concat ds1), false) /\
      concat ds1 `prefix_of` a' /\ streaming (set_recv recv' (zlen b') o) b' /\
      frames ds2 = b' ++ rest /\ leftover b' ds2.

(** The received bytes behind those that wait. *)
Lemma gather recv b seg :
  b `prefix_of` recv -> zlen (b ++ seg) < 2 ^ 31 ->
  exists recv', mwrite (realloc recv (zlen b + zlen seg)) (zlen b) seg = Some recv' /\ (b ++ seg) `prefix_of` recv'.
Proof using RK.
  intros Hb Hl. rewrite length_app in Hl. destruct (realloc_prefix_of realloc recv b (zlen b + zlen seg) Hb ltac:(lia)) as [H1 H2].
  destruct (prefix_mwrite _ b seg (zlen b) H1 eq_refl) as (recv' & ? & ? & _); [lia|]. by exists recv'.
Qed.

Lemma server_takes_segment : takes_segment server_decode.
Proof using RK.
  intros o b ds seg rest room (Hst & Hb & Hsz) Hfit Hfr Hlen.
  unfold tls12_ticket_auth_server_decode. rewrite Hst, Z.eqb_refl. unfold server_stream. cbv zeta. rewrite Hsz.
  assert (exists recv, (if zlen seg =? 0 then Some (recv_buffer (l_data o), zlen b) else
      data ← mread (seg ++ room) 0 (zlen seg);
      recv ← mwrite (realloc (recv_buffer (l_data o)) (zlen b + zlen seg)) (zlen b) data; Some (recv, zlen b + zlen seg))
      = Some (recv, zlen (b ++ seg)) /\ (b ++ seg) `prefix_of` recv) as (recv & -> & Hp).
  { case_bool.
    - destruct seg; [|cbn in *; lia]. rewrite app_nil_r. by eexists.
    - rewrite length_app in *. destruct (gather _ b seg Hb) as (recv' & Hw & Hp); [rewrite length_app; lia|].
      rewrite prefix_mread; [|by exists room|lia]. cbn [mbind option_bind]. rewrite Hw. cbn [mbind option_bind].
      exists recv'. split; [|done]. do 2 f_equal. lia. }
  cbn [mbind option_bind].
  destruct (drain (server_loop realloc) server_room server_step server_stop) with
    (ds := ds) (f := S (Z.to_nat (zlen (b ++ seg)))) (recv := recv) (a := seg ++ room) (out := @nil Z) (b := b ++ seg) (rest := rest)
    as (ds1 & ds2 & b' & recv' & a' & -> & Hloop & H1 & H2 & H3 & H4); try done; [|split; [by left|done]|lia|].
  { apply prefix_nil. }
  cbn [length app] in *. change (Z.of_nat 0) with 0 in Hloop. rewrite Hloop. exists ds1, ds2, b', recv', a'. by split_and!.
Qed.

Lemma client_takes_segment : takes_segment client_decode.
Proof using RK.
  intros o b ds seg rest room (Hst & Hb & Hsz) Hfit Hfr Hlen.
  unfold tls12_ticket_auth_client_decode. rewrite Hst, Z.eqb_refl. rewrite Hsz.
  destruct (gather _ b seg Hb Hlen) as (recv & Hw & Hp). rewrite length_app in Hlen.
  rewrite prefix_mread; [|by exists room|lia]. cbn [mbind option_bind].
  replace (zlen b + zlen seg - zlen seg) with (zlen b) by lia. rewrite Hw. cbn [mbind option_bind].
  replace (zlen b + zlen seg) with (zlen (b ++ seg)) by (rewrite length_app; lia).
  destruct (drain (client_loop realloc) client_room client_step client_stop) with
    (ds := ds) (f := S (Z.to_nat (zlen (b ++ seg)))) (recv := recv) (a := seg ++ room) (out := @nil Z) (b := b ++ seg) (rest := rest)
    as (ds1 & ds2 & b' & recv' & a' & -> & Hloop & H1 & H2 & H3 & H4); try done; [| |lia|].
  { apply prefix_nil. }
  { unfold client_room. rewrite length_app. lia. }
  cbn [length app] in *. change (Z.of_nat 0) with 0 in Hloop. rewrite Hloop. exists ds1, ds2, b', recv', a'. by split_and!.
Qed.

(** ** Cutting the stream into records *)

Lemma pack_record enc data start len ds out :
  data `prefix_of` enc -> 0 <= start -> 0 <= len < 65536 -> start + len <= zlen data ->
  frames ds `prefix_of` out -> zlen (frames ds) + 5 + len <= zlen out ->
  exists d out', concat (ds ++ [d]) = concat ds ++ take (Z.to_nat len) (drop (Z.to_nat start) data) /\ zlen d = len /\
    tls12_ticket_auth_pack_data enc start len out (zlen (frames ds)) = Some out' /\
    frames (ds ++ [d]) `prefix_of` out' /\ length out' = length out.
Proof.
  intros Hd Hst Hlen Hsl Ho Hroom. exists (take (Z.to_nat len) (drop (Z.to_nat start) data)).
  assert (zlen (take (Z.to_nat len) (drop (Z.to_nat start) data)) = len) as Hdl by (rewrite length_take, length_drop; lia).
  set (d := take _ _) in *. unfold tls12_ticket_auth_pack_data.
  destruct (prefix_mwrite out (frames ds) (record_head len) _ Ho eq_refl) as (o1 & -> & Hp1 & Hl1); [cbn [length record_head]; lia|].
  cbn [mbind option_bind].
  assert (mread enc start len = Some d) as ->.
  { apply (prefix_mread_at enc (take (Z.to_nat start) data) d (drop (Z.to_nat len) (drop (Z.to_nat start) data))); try lia.
    - subst d. by rewrite take_drop, take_drop.
    - rewrite length_take. lia. }
  cbn [mbind option_bind].
  destruct (prefix_mwrite o1 _ d (zlen (frames ds) + 5) Hp1) as (o2 & -> & Hp2 & Hl2).
  { rewrite length_app. cbn [length record_head]. lia. } { rewrite length_app. cbn [length record_head]. lia. }
  exists o2. split_and!; [|done|done| |congruence].
  - rewrite concat_app. cbn [concat]. by rewrite app_nil_r.
  - rewrite records_app. unfold frames at 2. cbn [map concat]. unfold frame. rewrite Hdl, app_nil_r. by rewrite <- app_assoc in Hp2.
Qed.

Lemma pack_loop_spec enc data : data `prefix_of` enc -> zlen data <= 40860 ->
  forall fuel r out ds start,
  start = zlen (concat ds) -> frames ds `prefix_of` out -> Forall fits ds -> concat ds `prefix_of` data ->
  20 * (zlen (frames ds) - start) <= start -> zlen data + 2048 <= zlen out -> zlen data - start < Z.of_nat fuel ->
  exists ds' out' r', pack_loop fuel r enc (zlen data) start out (zlen (frames ds)) = Some (out', zlen (frames ds'), r') /\
    frames ds' `prefix_of` out' /\ concat ds' = data /\ Forall fits ds' /\ length out' = length out.
Proof.
  intros Henc HD. induction fuel as [|fuel IH]; intros r out ds start Hst Ho Hfit Hc H20 Hroom Hf.
  { pose proof (prefix_length _ _ Hc). lia. }
  pose proof (prefix_length _ _ Hc) as Hcl. destruct Hc as [tl Htl].
  assert (Hdrop : drop (Z.to_nat start) data = tl) by (rewrite Hst; rewrite Nat2Z.id, Htl; apply drop_app_length).
  assert (Htll : zlen data - start = zlen tl) by (rewrite Hst; rewrite Htl, length_app; lia).
  assert (Htake : forall len, concat ds ++ take len tl `prefix_of` data).
  { intros len. exists (drop len tl). by rewrite <- app_assoc, take_drop. }
  cbn [pack_loop]. destruct (2048 <? zlen data - start) eqn:E1; zify_bool.
  - destruct (xorshift128plus r) as [x r']. pose proof (Z.mod_pos_bound x 4096 ltac:(lia)).
    set (len := if zlen data - start <? x mod 4096 + 100 then zlen data - start else x mod 4096 + 100).
    assert (100 <= len <= 4195 /\ len <= zlen data - start) as [Hlen Hle] by (subst len; case_bool; lia).
    destruct (pack_record enc data start len ds out Henc) as (d & out' & Hcd & Hdl & -> & Hp & Hl); try done; try lia.
    cbn [mbind option_bind]. rewrite Hdrop in Hcd.
    assert (Hsl : start + len = zlen (concat (ds ++ [d]))) by (rewrite Hcd, length_app, length_take; lia).
    assert (Hfl : zlen (frames ds) + (len + 5) = zlen (frames (ds ++ [d]))).
    { rewrite records_app. unfold frames at 3. cbn [map concat]. rewrite !length_app. pose proof (length_frame d). cbn [length]. lia. }
    rewrite Hfl, <- Hl. apply IH; try done.
    + apply Forall_app. split; [done|]. apply Forall_singleton. unfold fits. lia.
    + rewrite Hcd. apply Htake.
    + lia.
    + lia.
    + lia.
  - destruct (0 <? zlen data - start) eqn:E0; zify_bool.
    + destruct (pack_record enc data start (zlen data - start) ds out Henc) as (d & out' & Hcd & Hdl & -> & Hp & Hl); try done; try lia.
      cbn [mbind option_bind]. rewrite Hdrop, take_ge in Hcd by lia.
      exists (ds ++ [d]), out', r. split_and!; [|done|by rewrite Hcd, Htl| |done].
      * do 3 f_equal. rewrite records_app. unfold frames at 3. cbn [map concat]. rewrite !length_app. pose proof (length_frame d). cbn [length]. lia.
      * apply Forall_app. split; [done|]. apply Forall_singleton. unfold fits. lia.
    + exists ds, out, r. split_and!; [done|done| |done|done]. destruct tl; [by rewrite app_nil_r in Htl|cbn in *; lia].
Qed.

(** What a call of an encoder makes of a message. *)
Lemma stream_encode_spec o m room :
  zlen m <= 40860 ->
  exists ds a' r', stream_encode malloc realloc o (m ++ room) (zlen m) = Some (set_rnd r' o, a', zlen (frames ds)) /\
    frames ds `prefix_of` a' /\ concat ds = m /\ Forall fits ds /\ zlen (frames ds) < 65536.
Proof using MS RK.
  intros Hm. unfold stream_encode. assert (m `prefix_of` m ++ room) as Hmr by by exists room.
  destruct (zlen m <? 1024) eqn:E; zify_bool.
  - destruct (ensure_prefix realloc (m ++ room) m (zlen m + 5) ((zlen m + 5) * 2) Hmr) as (Hp & Hl & _); [lia|lia|].
    set (a := ensure _ _ _ _) in *. rewrite prefix_mread by (done || lia). cbn [mbind option_bind].
    destruct (split_block a 5) as (x & y & Ha & Hx); [lia|]. destruct (split_block y (length m)) as (y1 & y2 & -> & Hy1).
    { rewrite Ha, length_app in Hl. lia. }
    rewrite Ha. rewrite mwrite_app by lia. cbn [mbind option_bind].
    pose proof (mwrite_app [] x (m ++ y2) 0 (record_head (zlen m)) eq_refl ltac:(by rewrite Hx)) as Hw. cbn [app] in Hw.
    rewrite Hw. cbn [mbind option_bind]. exists [m], (record_head (zlen m) ++ m ++ y2), (rnd o).
    unfold frames. cbn [map concat]. rewrite !app_nil_r. split_and!; [|exists y2; unfold frame; list_assoc|done| |rewrite length_frame; lia].
    + rewrite length_frame. by destruct o.
    + apply Forall_singleton. unfold fits. lia.
  - pose proof (malloc_size (malloc := malloc) (zlen m + 2048) ltac:(lia)) as Hms.
    destruct (pack_loop_spec (m ++ room) m Hmr Hm (S (Z.to_nat (zlen m))) (rnd o) (malloc (zlen m + 2048)) [] 0 eq_refl) as (ds & out & r' & Hpl & Hp & Hc & Hf & Hlo);
      [apply prefix_nil|done|apply prefix_nil|cbn; lia|lia|cbn; lia|].
    change (zlen (frames [])) with 0 in Hpl. rewrite Hpl. cbn [mbind option_bind].
    pose proof (prefix_length _ _ Hp). rewrite prefix_mread by (done || lia). cbn [mbind option_bind].
    set (n := zlen (frames ds)) in *.
    destruct (ensure_prefix realloc (m ++ room) [] n (n * 2)) as (_ & Hl & _); [apply prefix_nil|cbn; lia|lia|].
    destruct (mwrite_front (ensure realloc (m ++ room) n (n * 2)) (frames ds)) as (a' & -> & Ha' & _); [done|].
    cbn [mbind option_bind]. exists ds, a', r'. split_and!; try done. lia.
Qed.

(** ** Runs

    The messages of one side in turn, each in an object of the caller's ([room]
    is what is behind it), and the segments the other side gets. *)
Fixpoint transmit (encode : obfs -> list Z -> Z -> option (obfs * list Z * Z)) o (msgs : list (list Z * list Z))
    : option (list Z * obfs) :=
  match msgs with
  | [] => Some ([], o)
  | (m, room) :: msgs =>
      '(o, a, n) ← encode o (m ++ room) (zlen m);
      out ← mread a 0 n;
      '(wire, o) ← transmit encode o msgs;
      Some (out ++ wire, o)
  end.

Fixpoint receive (decode : obfs -> list Z -> Z -> option (obfs * list Z * Z * bool)) o (segs : list (list Z * list Z))
    : option (list Z * obfs) :=
  match segs with
  | [] => Some ([], o)
  | (seg, room) :: segs =>
      '(o, a, n, _) ← decode o (seg ++ room) (zlen seg);
      if n <? 0 then None else
      out ← mread a 0 n;
      '(outs, o) ← receive decode o segs;
      Some (out ++ outs, o)
  end.

Lemma transmit_streaming encode o msgs :
  (forall o a n, handshake_status (l_data o) = 8 -> encode o a n = stream_encode malloc realloc o a n) ->
  handshake_status (l_data o) = 8 -> Forall (fun m => zlen (fst m) <= 40860) msgs ->
  exists ds o', transmit encode o msgs = Some (frames ds, o') /\ concat ds = concat (map fst msgs) /\ Forall fits ds /\
    l_data o' = l_data o /\ g_data o' = g_data o /\ key o' = key o.
Proof using MS RK.
  intros Henc Hst Hm. revert o Hst. induction Hm as [|[m room] msgs Hm _ IH]; intros o Hst; [by exists [], o|].
  cbn [fst transmit] in *. rewrite Henc by done.
  destruct (stream_encode_spec o m room Hm) as (ds & a' & r' & -> & Hp & Hc & Hf & Hb). cbn [mbind option_bind].
  rewrite prefix_mread by (done || lia). cbn [mbind option_bind].
  destruct (IH (set_rnd r' o) Hst) as (ds2 & o' & -> & Hc2 & Hf2 & ?). exists (ds ++ ds2), o'.
  cbn [mbind option_bind map fst concat]. rewrite records_app, concat_app, Hc, Hc2. split_and!; try done; try apply H.
  by apply Forall_app.
Qed.

Lemma length_concat_frames ds : zlen (concat ds) <= zlen (frames ds).
Proof.
  induction ds as [|d ds IH]; [done|]. rewrite frames_cons. cbn [concat]. rewrite !length_app. pose proof (length_frame d). lia.
Qed.

Lemma leftover_small b ds : leftover b ds -> Forall fits ds -> zlen b < 65541.
Proof.
  destruct ds as [|d ds]; cbn [leftover]; [by intros ->|]. intros Hl [Hd _]%Forall_cons. pose proof (length_frame d).
  unfold fits in Hd. destruct Hl as [?|[_ ->]]; [lia|]. cbn. lia.
Qed.

(** At the end of the stream nothing is left but an empty record. *)
Lemma leftover_end b ds : frames ds = b ++ [] -> leftover b ds -> concat ds = [] /\ (b = [] \/ b = frame []).
Proof.
  rewrite app_nil_r. intros <-. destruct ds as [|d ds]; [intros _; split; [done|by left]|]. cbn [leftover]. rewrite frames_cons.
  intros [Hl|[-> Hf]]; [rewrite length_app in Hl; lia|]. destruct ds as [|d ds]; [split; [done|by right]|].
  exfalso. apply (f_equal length) in Hf. rewrite length_app, frames_cons, length_app in Hf. pose proof (length_frame d).
  pose proof (length_frame []). lia.
Qed.

Lemma receive_streaming decode segs : takes_segment decode ->
  forall o b ds, streaming o b -> zlen b < 65541 -> Forall fits ds -> frames ds = b ++ concat (map fst segs) ->
  Forall (fun s => zlen (fst s) < 2 ^ 30) segs -> segs <> [] \/ leftover b ds ->
  exists o' b', receive decode o segs = Some (concat ds, o') /\ streaming o' b' /\ (b' = [] \/ b' = frame []).
Proof.
  intros Htake. induction segs as [|[seg room] segs IH]; intros o b ds Ho Hb Hfit Hfr Hs Hlo.
  { destruct Hlo as [|Hlo]; [done|]. destruct (leftover_end b ds Hfr Hlo) as [Hc Hb']. exists o, b. cbn [receive].
    by rewrite Hc. }
  apply Forall_cons in Hs as [Hs1 Hs]. cbn [map fst concat receive] in *. rewrite app_assoc in Hfr.
  destruct (Htake o b ds seg _ room Ho Hfit Hfr) as (ds1 & ds2 & b' & recv' & a' & -> & -> & Hp & Ho' & Hfr2 & Hlo2).
  { rewrite length_app. lia. }
  apply Forall_app in Hfit as [Hf1 Hf2]. cbn [mbind option_bind]. rewrite (proj2 (Z.ltb_ge _ _)) by lia.
  rewrite prefix_mread; [|done|].
  2:{ pose proof (length_concat_frames ds1) as Hl. rewrite records_app in Hfr. apply (f_equal length) in Hfr.
      apply (f_equal length) in Hfr2. rewrite !length_app in *. lia. }
  cbn [mbind option_bind].
  destruct (IH _ b' ds2 Ho') as (o' & b2 & -> & Ho2 & Hb2); try done; [by apply (leftover_small b' ds2)|by right|].
  exists o', b2. rewrite concat_app. by split_and!.
Qed.

(** ** Data after the handshake *)

Lemma transparent encode decode oe od b msgs :
  (forall o a n, handshake_status (l_data o) = 8 -> encode o a n = stream_encode malloc realloc o a n) ->
  takes_segment decode ->
  handshake_status (l_data oe) = 8 -> streaming od b -> b = [] \/ b = frame [] ->
  Forall (fun m => zlen (fst m) <= 40860) msgs ->
  exists wire oe', transmit encode oe msgs = Some (wire, oe') /\ handshake_status (l_data oe') = 8 /\
    forall segs, concat (map fst segs) = wire -> Forall (fun s => zlen (fst s) < 2 ^ 30) segs ->
      exists od' b', receive decode od segs = Some (concat (map fst msgs), od') /\ streaming od' b' /\ (b' = [] \/ b' = frame []).
Proof using MS RK.
  intros Henc Htake Hoe Hod Hb Hm.
  destruct (transmit_streaming encode oe msgs Henc Hoe Hm) as (ds & oe' & Ht & Hc & Hf & Hl & _).
  exists (frames ds), oe'. split_and!; [done|by rewrite Hl|]. intros segs Hsegs Hs.
  assert (zlen b < 65541) by (destruct Hb as [->| ->]; cbn; lia).
  assert (Hfr0 : exists ds0, frames ds0 = b /\ concat ds0 = [] /\ Forall fits ds0 /\ leftover b ds0).
  { destruct Hb as [->| ->]; [by exists []|]. exists [[]]. split_and!; try done; [by repeat constructor|by right]. }
  destruct Hfr0 as (ds0 & Hfr0 & Hc0 & Hf0 & Hlo).
  destruct (receive_streaming decode segs Htake od b (ds0 ++ ds) Hod) as (od' & b' & Hr & Hod' & Hb'); try done.
  - by apply Forall_app.
  - by rewrite records_app, Hsegs, Hfr0.
  - destruct segs as [|seg segs]; [right|by left]. cbn in Hsegs.
    destruct ds as [|d ds]; [by rewrite app_nil_r|]. rewrite frames_cons in Hsegs. apply (f_equal length) in Hsegs.
    rewrite length_app in Hsegs. pose proof (length_frame d). cbn in Hsegs. lia.
  - exists od', b'. rewrite concat_app, Hc0, Hc in Hr. by split_and!.
Qed.
End Streams.

(** C13: after the handshake, in both directions, any number of messages of at most
    40860 bytes each (the size up to which the 2048 spare bytes of the encoder's
    record buffer are enough, however small the records it chooses; a longer
    message can overrun it) are encoded, and however the bytes are cut into
    segments of less than 2^30 bytes on the way, every call returns and the other
    side, which waits at a record boundary or behind an empty record, delivers
    exactly the messages' bytes; at most an empty record is left waiting. *)
Theorem stream_transparent {L : Type} {RLst : RecordList L} malloc realloc hmac rand_bytes time signed_char
    {MS : MallocSize malloc} {RK : ReallocKeeps realloc} (up : bool) (oe od : obfs L) b msgs :
  let encode := if up then tls12_ticket_auth_client_encode malloc realloc hmac rand_bytes time
                else tls12_ticket_auth_server_encode malloc realloc hmac rand_bytes time in
  let decode := if up then tls12_ticket_auth_server_decode realloc hmac time signed_char
                else tls12_ticket_auth_client_decode realloc hmac in
  handshake_status (l_data oe) = 8 -> streaming od b -> b = [] \/ b = frame [] ->
  Forall (fun m => zlen (fst m) <= 40860) msgs ->
  exists wire oe', transmit encode oe msgs = Some (wire, oe') /\ handshake_status (l_data oe') = 8 /\
    forall segs, concat (map fst segs) = wire -> Forall (fun s => zlen (fst s) < 2 ^ 30) segs ->
      exists od' b', receive decode od segs = Some (concat (map fst msgs), od') /\ streaming od' b' /\ (b' = [] \/ b' = frame []).
Proof.
  destruct up; cbv zeta; apply (transparent malloc realloc); try done.
  - intros o a n Hst. unfold tls12_ticket_auth_client_encode. by rewrite Hst.
  - by apply server_takes_segment.
  - intros o a n Hst. unfold tls12_ticket_auth_server_encode. by rewrite Hst.
  - by apply client_takes_segment.
Qed.

(** ** Functions for the parameters *)

Definition zeros (n : Z) : list Z := replicate (Z.to_nat n) 0.
Definition resize (a : list Z) (n : Z) : list Z := take (Z.to_nat n) (a ++ zeros n).
#[export] Instance zeros_size : MallocSize zeros.
Proof. constructor. intros n Hn. unfold zeros. rewrite length_replicate. lia. Defined.
#[export] Instance resize_keeps : ReallocKeeps resize.
Proof.
  constructor; intros a n Hn; unfold resize, zeros.
  - rewrite length_take, length_app, length_replicate. lia.
  - rewrite take_take, take_app_le by lia. f_equal. lia.
Defined.

Definition toy_hmac (k m : list Z) : list Z := replicate 20 (u8 (foldr Z.add 0 (k ++ m))).
Definition toy_rand (c n : Z) : list Z := replicate (Z.to_nat n) (u8 c).
#[export] Instance toy_rand_size : RandSize toy_rand.
Proof.
  constructor; intros c n; unfold toy_rand.
  - intros Hn. rewrite length_replicate. lia.
  - apply Forall_replicate. apply u8_range.
Defined.
#[export] Instance toy_hmac_laws : HmacLaws toy_hmac.
Proof. constructor; intros k m; unfold toy_hmac; [apply length_replicate|apply Forall_replicate, u8_range]. Defined.

(** The list of hellos as a list. *)
#[export] Instance plain_list : RecordList (list (list Z)) := {
  have_same_cmp l d := Some (if forallb (fun x => bool_decide (x = take 22 d)) l then 0 else 1);
  add_back l d := Some (1, l ++ [take 22 d]) }.

#[export] Instance plain_list_laws : RecordListLaws (list (list Z)).
Proof.
  refine {| elements l n k xs := n = 22 /\ l = xs |}.
  - intros l n k xs d [-> ->] _. done.
  - intros l n k xs d [-> ->] _ _. by eexists.
Defined.

Definition demo (status : Z) : obfs (list (list Z)) :=
  mkObfs (bytes_of "a.b") None [1; 2] (mkLocal status (Some []) 0 [] 0) (mkGlobal (zeros 32) [] 5) (1, 2) 0.

Lemma stream_transparent_witness :
  exists wire oe', transmit (tls12_ticket_auth_server_encode zeros resize toy_hmac toy_rand id) (demo 8)
      [([7; 8], []); (replicate 1030 9, [1])] = Some (wire, oe') /\ handshake_status (l_data oe') = 8 /\
    forall segs, concat (map fst segs) = wire -> Forall (fun s => zlen (fst s) < 2 ^ 30) segs ->
      exists od' b', receive (tls12_ticket_auth_client_decode resize toy_hmac) (demo 8) segs
        = Some (concat (map fst [([7; 8], []); (replicate 1030 9, [1])]), od') /\ streaming od' b' /\ (b' = [] \/ b' = frame []).
Proof.
  apply (stream_transparent zeros resize toy_hmac toy_rand id true false (demo 8) (demo 8) []); [done|by split_and!|by left|].
  repeat constructor; vm_compute; discriminate.
Defined.

End Ticket.
