(* ===== verification/Handshake.v ===== *)
(** * Handshake: how the two sides of tls1.2_ticket_auth agree

    The messages of src/server/tls1.2_ticket.c as bytes, what the server makes of
    a hello on every branch, and the handshake from the client's first call to the
    data that the server delivers. *)

From S2P Require Import Prelude Libc Ota Verify CList Ticket.

Import Libc Ota Obfsutil Records Ticket.

#[local] Arguments Z.eqb : simpl never.
#[local] Arguments Z.leb : simpl never.
#[local] Arguments Z.ltb : simpl never.

Module Handshake.

(** ** What the handshake's messages hold *)

Section Sides.
Context {L : Type} {RLst : RecordList L} {RLL : RecordListLaws L}.
Context (malloc : Z -> list Z) (realloc : list Z -> Z -> list Z) (hmac : list Z -> list Z -> list Z).
Context (rand_bytes : Z -> Z -> list Z) (time : Z -> Z) (signed_char : bool).
Context {MS : MallocSize malloc} {RK : ReallocKeeps realloc} {HL : HmacLaws hmac} {RS : RandSize rand_bytes}.
Notation obfs := (obfs L).
Implicit Types (o : obfs) (a : list Z).
Notation server_decode := (tls12_ticket_auth_server_decode realloc hmac time signed_char).
Notation client_decode := (tls12_ticket_auth_client_decode realloc hmac).
Notation server_encode := (tls12_ticket_auth_server_encode malloc realloc hmac rand_bytes time).
Notation client_encode := (tls12_ticket_auth_client_encode malloc realloc hmac rand_bytes time).

(** The MAC of [msg] under the key and the session id. *)
Definition tag (k id msg : list Z) : list Z := take 10 (hmac (k ++ id) msg).
Definition authenticated (k id v : list Z) : list Z := v ++ tag k id v.
(** The random field: a time and 18 random bytes, with their MAC. *)
Definition random_field (k id : list Z) (t call : Z) : list Z := authenticated k id (be_bytes 4 t ++ rand_bytes call 18).

Definition hello_body (auth id tail : list Z) : list Z := [3; 3] ++ auth ++ [32] ++ id ++ tail.
Definition hello (auth id tail : list Z) : list Z :=
  let body := hello_body auth id tail in [22; 3; 1] ++ be16 (4 + zlen body) ++ [1; 0] ++ be16 (zlen body) ++ body.

Lemma length_tag k id msg : length (tag k id msg) = 10%nat.
Proof using HL. unfold tag. rewrite length_take, hmac_length. done. Qed.
Lemma length_random_field k id t c : zlen (random_field k id t c) = 32.
Proof using HL RS.
  unfold random_field, authenticated. rewrite !length_app, length_tag, length_be_bytes.
  pose proof (rand_size (rand_bytes := rand_bytes) c 18 ltac:(lia)). lia.
Qed.

Lemma session_mac_tag o n msg :
  0 <= n -> zlen (local_client_id (g_data o)) = n -> n < 2 ^ 31 ->
  session_mac hmac o n msg = Some (tag (key o) (local_client_id (g_data o)) msg).
Proof using HL.
  intros H0 Hn Hb. unfold session_mac, OBFS_HMAC_SHA1_LEN. rewrite mread_in by lia. cbn [mbind option_bind].
  rewrite take_ge, drop_0 by (rewrite ?length_drop; lia). rewrite mread_in by (rewrite ?hmac_length; lia). by rewrite drop_0.
Qed.

(** The random field in an object. *)
Lemma pack_auth_block o p q z i :
  zlen (local_client_id (g_data o)) = 32 -> i = zlen p -> zlen q = 32 ->
  tls12_ticket_pack_auth_data hmac rand_bytes time o (p ++ q ++ z) i
  = Some (p ++ random_field (key o) (local_client_id (g_data o)) (time (calls o)) (calls o + 1) ++ z, called 2 o).
Proof using HL RS.
  intros Hid -> Hq. unfold tls12_ticket_pack_auth_data, OBFS_HMAC_SHA1_LEN.
  pose proof (rand_size (rand_bytes := rand_bytes) (calls o + 1) 18 ltac:(lia)) as Hr. set (rnd := rand_bytes (calls o + 1) 18) in *.
  pose proof (length_be_bytes 4 (time (calls o))) as Ht. set (t := be_bytes 4 (time (calls o))) in *.
  destruct (split_block q 4) as (q1 & q' & -> & H1); [lia|]. rewrite length_app in Hq.
  destruct (split_block q' 18) as (q2 & q3 & -> & H2); [lia|]. rewrite length_app in Hq.
  rewrite <- !app_assoc. rewrite mwrite_app by (done || lia). cbn [mbind option_bind].
  pose proof (mwrite_app (p ++ t) q2 (q3 ++ z) (zlen p + 4) rnd) as Hw. rewrite <- !app_assoc in Hw.
  rewrite Hw by (rewrite ?length_app; lia). cbn [mbind option_bind].
  pose proof (mread_app p (t ++ rnd) (q3 ++ z) (zlen p) (32 - 10) eq_refl) as Hm. rewrite <- !app_assoc in Hm.
  rewrite Hm by (rewrite ?length_app; lia). cbn [mbind option_bind].
  rewrite session_mac_tag by (done || lia). cbn [mbind option_bind].
  pose proof (mwrite_app (p ++ t ++ rnd) q3 z (zlen p + 32 - 10) (tag (key o) (local_client_id (g_data o)) (t ++ rnd))) as Hw2.
  rewrite <- !app_assoc in Hw2. rewrite Hw2 by (rewrite ?length_app, ?length_tag; lia). cbn [mbind option_bind].
  unfold random_field, authenticated. fold t rnd. do 2 f_equal. list_assoc.
Qed.

Lemma pack_auth_ending o buf pdata len n x z :
  ending (buf, pdata, len) n x z -> 32 <= n -> zlen (local_client_id (g_data o)) = 32 ->
  let f := random_field (key o) (local_client_id (g_data o)) (time (calls o)) (calls o + 1) in
  exists buf', tls12_ticket_pack_auth_data hmac rand_bytes time o buf (pdata - 32) = Some (buf', called 2 o) /\
    ending (buf', pdata - 32, len + 32) (n - 32) (f ++ x) z.
Proof using HL RS.
  intros (r & -> & -> & -> & ->) Hn Hid f. destruct (split_block r (length r - 32)) as (r1 & r2 & -> & H1); [lia|].
  rewrite length_app in *. rewrite <- app_assoc. rewrite pack_auth_block by (done || lia).
  eexists. split; [done|]. exists r1. pose proof (length_random_field (key o) (local_client_id (g_data o)) (time (calls o)) (calls o + 1)) as Hf.
  fold f in Hf |- *. rewrite length_app. split_and!; [list_assoc|lia|lia|lia].
Qed.

(** ** The client's hello *)

Definition name_ok (s : list Z) : Prop := Forall (fun c => c <> 0) s /\ (length s < 128)%nat.

(** Where a name of the list begins. *)
Definition starts (name : list Z) (p : Z) : Prop := 0 <= p <= zlen name /\ (p = 0 \/ name @! (p - 1) = Some (chr ",")).

Lemma host_loop_spec name m fuel : forall pos phost,
  Forall (fun c => c <> 0) name -> 0 <= pos <= zlen name -> zlen name - pos < Z.of_nat fuel -> (0 < m)%nat ->
  zlen phost + (zlen name - pos) <= 128 -> Forall (starts name) phost -> phost <> [] ->
  exists phost', host_loop fuel (name ++ replicate m 0) pos phost = Some phost' /\
    Forall (starts name) phost' /\ phost' <> [].
Proof.
  induction fuel as [|fuel IH]; intros pos phost Hnz Hpos Hf Hm Hl Hp Hne; [lia|]. cbn [host_loop].
  destruct (decide (pos = zlen name)) as [->|Hn].
  { assert ((name ++ replicate m 0) @! zlen name = Some 0) as ->.
    { rewrite rd_app_r, Z.sub_diag by lia. destruct m; [lia|done]. }
    cbn [mbind option_bind]. rewrite Z.eqb_refl. by exists phost. }
  destruct (rd_is_Some name pos ltac:(lia)) as [c Hc]. rewrite rd_app_l, Hc by lia. cbn [mbind option_bind].
  pose proof Hc as Hc'. apply rd_Some in Hc as [_ Hc]. rewrite Forall_lookup in Hnz. rewrite (proj2 (Z.eqb_neq c 0)) by by eapply Hnz.
  rewrite <- Forall_lookup in Hnz.
  destruct (Z.eqb_spec c (chr ",")) as [->|_]; [rewrite (proj2 (Z.leb_gt _ _)) by lia|]; apply IH; try done; try lia.
  - rewrite length_app. cbn [length]. lia.
  - apply Forall_app. split; [done|]. apply Forall_singleton. split; [lia|]. right. by rewrite Z.add_simpl_r.
  - by destruct phost.
Qed.

(** What is sent of the list of names: from one of them to the end of the list, and
    nothing if that ends in a digit. *)
Definition ends_in_digit (s : list Z) : bool := match last s with Some c => (48 <=? c) && (c <=? 57) | None => false end.
Definition sni_of (name sni : list Z) : Prop :=
  exists p, starts name p /\ let b := drop (Z.to_nat p) name in sni = if ends_in_digit b then [] else b.

Lemma numeric_last b : (0 <? zlen b) && match cbuf 256 b @! (zlen b - 1) with Some c => (48 <=? c) && (c <=? 57) | None => false end = ends_in_digit b.
Proof.
  unfold ends_in_digit. destruct (decide (b = [])) as [->|Hb]; [done|]. assert (0 < zlen b) by (destruct b; [done|cbn; lia]).
  rewrite (proj2 (Z.ltb_lt _ _)) by done. cbn [andb]. unfold cbuf. rewrite rd_app_l by lia.
  replace (zlen b - 1) with (Z.of_nat (pred (length b))) by lia. by rewrite rd_nat, last_lookup.
Qed.

Lemma choose_sni_spec o :
  name_ok (default (host o) (param o)) ->
  exists sni r', choose_sni malloc o = Some (sni, set_rnd r' o) /\ sni_of (default (host o) (param o)) sni /\ (length sni < 128)%nat.
Proof using MS.
  intros [Hnz Hl]. unfold choose_sni. set (name := default (host o) (param o)) in *.
  pose proof (malloc_size (malloc := malloc) 1024 ltac:(lia)) as Hms.
  assert (exists m, strncpy (malloc 1024) (name ++ [0]) 1024 = Some (name ++ replicate m 0) /\ (0 < m)%nat) as (m & -> & Hm).
  { pose proof (Z2Nat.id 1024 ltac:(lia)) as HN. exists (Z.to_nat 1024 - length name)%nat. unfold strncpy. rewrite u64_id by lia.
    set (N := Z.to_nat 1024) in *. clearbody N. split; [|lia].
    replace (length (malloc 1024) <? N)%nat with false by (symmetry; apply Nat.ltb_ge; lia).
    rewrite strncpy_src_full by (done || lia). cbn [mbind option_bind]. rewrite drop_ge by lia. by rewrite app_nil_r. }
  cbn [mbind option_bind].
  destruct (host_loop_spec name m (S (length (name ++ replicate m 0))) 0 [0]) as (phost & -> & Hp & Hne); try done; try lia;
    [rewrite length_app; lia|cbn; lia|apply Forall_singleton; split; [lia|by left]|].
  cbn [mbind option_bind]. destruct (xorshift128plus (rnd o)) as [x r'].
  assert (0 < zlen phost) by (destruct phost; [done|cbn; lia]).
  pose proof (Z.mod_pos_bound x (zlen phost) ltac:(lia)) as Hx.
  destruct (lookup_lt_is_Some_2 phost (Z.to_nat (x mod zlen phost))) as [p Hlk]; [lia|]. rewrite Hlk. cbn [mbind option_bind].
  rewrite Forall_lookup in Hp. pose proof (Hp _ _ Hlk) as Hst. pose proof Hst as [Hpb _].
  assert (cstr (drop (Z.to_nat p) (name ++ replicate m 0)) = Some (drop (Z.to_nat p) name)) as Hcs.
  { rewrite drop_app_le by lia. destruct m; [lia|]. cbn [replicate]. apply cstr_app. by apply Forall_drop. }
  rewrite (strcpy_cbuf 256 _ _ Hcs) by (rewrite length_drop; lia). cbn [mbind option_bind].
  rewrite cstr_cbuf by (by apply Forall_drop || (rewrite length_drop; lia)). cbn [mbind option_bind]. cbv zeta. rewrite numeric_last.
  eexists _, r'. split; [done|]. split; [by exists p|]. destruct (ends_in_digit _); [cbn; lia|]. rewrite length_drop. lia.
Qed.

(** The extensions of the hello, and what follows the session id in it. *)
Definition sni_extension (sni : list Z) : list Z :=
  [0; 0] ++ be16 (zlen sni + 5) ++ be16 (zlen sni + 3) ++ [0] ++ be16 (zlen sni) ++ sni.
Definition extensions (sni rnd : list Z) : list Z := tls_data1 ++ sni_extension sni ++ tls_data2 ++ rnd ++ tls_data3.
Definition hello_tail (sni rnd : list Z) : list Z := tls_data0 ++ be16 (zlen (extensions sni rnd)) ++ extensions sni rnd.
Definition tail_of o (tail : list Z) : Prop :=
  exists sni rnd, sni_of (default (host o) (param (clear_param o))) sni /\ (length sni < 128)%nat /\ zlen rnd = 208 /\ tail = hello_tail sni rnd.

Lemma hello_extensions_spec o :
  name_ok (default (host o) (param o)) ->
  exists sni rnd tls_data r', hello_extensions malloc rand_bytes o = Some (tls_data, zlen (extensions sni rnd), called 1 (set_rnd r' o)) /\
    extensions sni rnd `prefix_of` tls_data /\ zlen (extensions sni rnd) < 1024 /\
    sni_of (default (host o) (param o)) sni /\ (length sni < 128)%nat /\ zlen rnd = 208.
Proof using MS RS.
  intros Hname. unfold hello_extensions. destruct (choose_sni_spec o Hname) as (sni & r' & -> & Hsni & Hs). cbn [mbind option_bind].
  pose proof (malloc_size (malloc := malloc) 2048 ltac:(lia)) as Hm.
  pose proof (rand_size (rand_bytes := rand_bytes) (calls (set_rnd r' o)) 208 ltac:(lia)) as Hr.
  set (rnd := rand_bytes _ 208) in *. change (malloc 2048, 0) with (malloc 2048, zlen (@nil Z)).
  destruct (append_built tls_data1 (malloc 2048) []) as (b1 & -> & Hp1 & Hl1); [apply prefix_nil|cbn; lia|]. cbn [mbind option_bind].
  match goal with |- context [append ?bs (b1, _)] => change bs with (sni_extension sni) end.
  assert (zlen (sni_extension sni) <= 137) as He2 by (cbn; lia).
  destruct (append_built (sni_extension sni) b1 _ Hp1) as (b2 & -> & Hp2 & Hl2); [cbn [length app tls_data1]; lia|]. cbn [mbind option_bind].
  destruct (append_built tls_data2 b2 _ Hp2) as (b3 & -> & Hp3 & Hl3); [rewrite !length_app; cbn [length tls_data1 tls_data2]; lia|]. cbn [mbind option_bind].
  destruct (append_built rnd b3 _ Hp3) as (b4 & -> & Hp4 & Hl4); [rewrite !length_app; cbn [length tls_data1 tls_data2]; lia|]. cbn [mbind option_bind].
  destruct (append_built tls_data3 b4 _ Hp4) as (b5 & -> & Hp5 & Hl5); [rewrite !length_app; cbn [length tls_data1 tls_data2 tls_data3]; lia|].
  cbn [mbind option_bind]. exists sni, rnd, b5, r'.
  replace (((([] ++ tls_data1) ++ sni_extension sni) ++ tls_data2) ++ rnd) with (tls_data1 ++ sni_extension sni ++ tls_data2 ++ rnd) in * by list_assoc.
  replace ((tls_data1 ++ sni_extension sni ++ tls_data2 ++ rnd) ++ tls_data3) with (extensions sni rnd) in * by (unfold extensions; list_assoc).
  split; [done|]. split_and!; try done.
  unfold extensions. rewrite !length_app. cbn [length tls_data1 tls_data2 tls_data3]. lia.
Qed.

(** The next piece before what is there. *)
Ltac prepend_step H :=
  let st := fresh "st" in let H' := fresh "He" in let Hs := fresh "Hs" in
  match type of H with
  | ending ?s ?n ?x ?z =>
      match goal with |- context [prepend ?bs s] =>
        destruct (prepend_built bs s n x z H) as (st & -> & H' & Hs); [rewrite ?length_app; cbn [length be16 tls_data0]; lia|]; cbn [mbind option_bind]; clear H; rename H' into H
      end
  end.

(** What [client_hello] leaves behind, apart from the bytes. *)
Definition greeted (r : rng) o : obfs := set_status 1 (called 2 (called 1 (set_rnd r (clear_param o)))).

Lemma client_hello_spec o :
  zlen (local_client_id (g_data o)) = 32 -> name_ok (default (host o) (param (clear_param o))) ->
  exists tail r', client_hello malloc hmac rand_bytes time o
    = Some (hello (random_field (key o) (local_client_id (g_data o)) (time (calls o + 1)) (calls o + 1 + 1)) (local_client_id (g_data o)) tail,
            greeted r' o) /\ zlen tail < 1100 /\ tail_of o tail.
Proof using MS HL RS.
  intros Hid Hname. unfold client_hello. cbv zeta.
  assert (Ho : key (clear_param o) = key o /\ g_data (clear_param o) = g_data o /\ calls (clear_param o) = calls o /\ host (clear_param o) = host o)
    by (unfold clear_param; destruct (param o) as [[|]|]; done).
  destruct Ho as (Hk & Hg & Hc & Hh). rewrite <- Hh in Hname.
  destruct (hello_extensions_spec (clear_param o) Hname) as (sni & rnd & tls_data & r' & -> & Hp & Hext & Hsni & Hsl & Hrl). cbn [mbind option_bind].
  rewrite Hh in Hsni. set (ext := extensions sni rnd) in *.
  rewrite prefix_mread by (done || lia). cbn [mbind option_bind].
  remember (11 + 32 + 1 + 32 + zlen tls_data0 + 2 + zlen ext) as n eqn:Hn. change (zlen tls_data0) with 32 in Hn.
  destruct (malloc_ending malloc n n) as (z & He & Hz); [lia|]. destruct z; [|cbn in *; lia].
  prepend_step He. prepend_step He. prepend_step He.
  change (local_client_id (g_data (called 1 (set_rnd r' (clear_param o))))) with (local_client_id (g_data (clear_param o))). rewrite Hg.
  rewrite mread_in by lia. cbn [mbind option_bind]. rewrite drop_0, take_ge by lia.
  prepend_step He. prepend_step He. destruct st3 as [[buf pdata] len].
  set (o1 := called 1 (set_rnd r' (clear_param o))).
  assert (Hid1 : local_client_id (g_data o1) = local_client_id (g_data o)) by (cbn; by rewrite Hg).
  destruct (pack_auth_ending o1 buf pdata len _ _ _ He) as (buf' & -> & He'); [rewrite ?length_app; cbn [length be16 tls_data0]; lia|by rewrite Hid1|].
  rewrite Hid1 in He'. replace (key o1) with (key o) in He' by done. replace (calls o1) with (calls o + 1) in He' by (cbn; by rewrite Hc).
  pose proof (length_random_field (key o) (local_client_id (g_data o)) (time (calls o + 1)) (calls o + 1 + 1)) as Hf.
  set (f := random_field _ _ _ _) in *. cbn [mbind option_bind]. clear He.
  prepend_step He'. rewrite Hs4. prepend_step He'. rewrite Hs5. prepend_step He'. prepend_step He'. prepend_step He'.
  match type of He' with ending _ ?m _ _ => replace m with 0 in He' end.
  2:{ rewrite ?length_app in *. cbn [length be16 tls_data0] in *. lia. }
  rewrite (ending_all _ _ _ He'). cbn [fst]. rewrite !app_nil_r.
  exists (tls_data0 ++ be16 (zlen ext) ++ ext), r'. split; [|split; [|by exists sni, rnd]].
  - unfold greeted. do 2 f_equal. unfold hello, hello_body. cbn [app]. do 3 f_equal.
    match goal with |- context [be16 (4 + zlen ?b)] => generalize b; intros body end.
    f_equal. f_equal. cbn [length]. rewrite length_app. cbn [length be16]. lia.
  - rewrite !length_app. cbn [length be16 tls_data0]. lia.
Qed.

Lemma length_hello auth id tail : zlen auth = 32 -> zlen id = 32 -> zlen (hello auth id tail) = 76 + zlen tail.
Proof. intros H1 H2. unfold hello, hello_body. rewrite !length_app. cbn [length be16]. lia. Qed.

(** ** The server's flight and the client's finish *)

(** A hello of 86 bytes with the random field at 11, then a finish. *)
Lemma server_hello_spec o :
  zlen (local_client_id (g_data o)) = 32 ->
  exists pre post, server_hello malloc hmac rand_bytes time o
    = Some (pre ++ random_field (key o) (local_client_id (g_data o)) (time (calls o)) (calls o + 1) ++ post, called 1 (called 2 o)) /\
    zlen pre = 11 /\ zlen post = 86.
Proof using MS HL RS.
  intros Hid. unfold server_hello. destruct (malloc_ending malloc 86 (43 + 86)) as (z & He & Hz); [lia|].
  prepend_step He. rewrite mread_in by lia. cbn [mbind option_bind]. rewrite drop_0, take_ge by lia.
  prepend_step He. prepend_step He. destruct st1 as [[buf pdata] len].
  destruct (pack_auth_ending o buf pdata len _ _ _ He) as (buf' & -> & He'); [rewrite ?length_app; cbn [length be16]; lia|done|].
  pose proof (length_random_field (key o) (local_client_id (g_data o)) (time (calls o)) (calls o + 1)) as Hf.
  set (f := random_field _ _ _ _) in *. cbn [mbind option_bind]. clear He.
  prepend_step He'. prepend_step He'. rewrite Hs3. prepend_step He'.
  match type of He' with ending _ ?m ?x _ => replace m with 0 in He'; [set (m0 := x) in * |] end.
  2:{ rewrite ?length_app in *. cbn [length be16] in *. lia. }
  rewrite (ending_all _ _ _ He'). cbn [mbind option_bind].
  pose proof Hs4 as Hm0. assert (zlen m0 = 86) as H86.
  { subst m0. rewrite !length_app. cbn [length be16]. lia. }
  rewrite mread_prefix by (done || lia). cbn [mbind option_bind].
  pose proof (mwrite_app [] m0 z 0 m0 eq_refl eq_refl) as Hw. cbn [app] in Hw. rewrite Hw. cbn [mbind option_bind]. clear Hw.
  pose proof (rand_size (rand_bytes := rand_bytes) (calls (called 2 o)) 22 ltac:(lia)) as Hr. set (rnd := rand_bytes _ 22) in *.
  replace (append change_cipher_spec (m0 ++ z, 86)) with (append change_cipher_spec (m0 ++ z, zlen m0)) by (by rewrite H86).
  destruct (append_built change_cipher_spec (m0 ++ z) m0) as (b1 & -> & Hp1 & Hl1); [by exists z|rewrite length_app; cbn [length change_cipher_spec]; lia|].
  rewrite length_app in Hl1. cbn [mbind option_bind].
  destruct (append_built finish_head b1 _ Hp1) as (b2 & -> & Hp2 & Hl2); [rewrite length_app; cbn [length change_cipher_spec finish_head]; lia|]. cbn [mbind option_bind].
  destruct (append_built rnd b2 _ Hp2) as (b3 & -> & Hp3 & Hl3); [rewrite !length_app; cbn [length change_cipher_spec finish_head]; lia|]. cbn [mbind option_bind].
  rewrite mread_in by lia. cbn [mbind option_bind]. rewrite session_mac_tag by (done || lia). cbn [mbind option_bind].
  pose proof (length_tag (key (called 1 (called 2 o))) (local_client_id (g_data (called 1 (called 2 o))))
    (take (Z.to_nat (43 + 86)) (drop (Z.to_nat 0) b3))) as Ht. set (t := tag _ _ _) in *.
  match type of Hp3 with ?x `prefix_of` _ => set (x3 := x) in * end.
  assert (zlen x3 = 119) as Hx3 by (subst x3; rewrite !length_app; cbn [length change_cipher_spec finish_head]; lia).
  destruct (prefix_mwrite b3 x3 t (zlen x3) Hp3 eq_refl) as (b4 & -> & [y ->] & Hl4); [lia|]. cbn [mbind option_bind].
  assert (y = []) as ->. { destruct y; [done|]. rewrite !length_app in Hl4. cbn [length] in Hl4. lia. }
  exists ([22; 3; 3] ++ be16 81 ++ [2; 0] ++ be16 77 ++ [3; 3]),
    ([32] ++ local_client_id (g_data o) ++ [192; 47; 0; 0; 5; 255; 1; 0; 1; 0] ++ change_cipher_spec ++ finish_head ++ rnd ++ t).
  split; [|split; [done|]].
  - do 2 f_equal. rewrite app_nil_r. subst x3 m0. rewrite Hs2. repeat (rewrite ?app_nil_r, <- ?app_assoc).
    cbn [app]. do 3 f_equal. assert (zlen (local_client_id (g_data o)) = 32) by done.
    f_equal; [f_equal; cbn [length be16 app]; rewrite ?length_app; cbn [length app]; rewrite ?length_app; cbn [length]; rewrite ?length_app; cbn [length]; lia|].
    do 4 f_equal. cbn [length app]. rewrite ?length_app. cbn [length app]. rewrite ?length_app. cbn [length]. lia.
  - rewrite !length_app. cbn [length change_cipher_spec finish_head]. lia.
Qed.

Lemma client_finish_spec o sb frs :
  zlen (local_client_id (g_data o)) = 32 -> send_buffer (l_data o) = Some sb -> frs `prefix_of` sb ->
  send_buffer_size (l_data o) = zlen frs -> zlen frs < 2 ^ 31 ->
  exists rnd, client_finish malloc hmac rand_bytes o
    = Some (authenticated (key o) (local_client_id (g_data o)) (change_cipher_spec ++ finish_head ++ rnd) ++ frs,
            set_status 8 (set_send None (zlen frs) (called 1 o))) /\ zlen rnd = 22.
Proof using MS HL RS.
  intros Hid Hsb Hp Hsz Hb. unfold client_finish. cbv zeta. rewrite Hsb, Hsz.
  pose proof (rand_size (rand_bytes := rand_bytes) (calls o) 22 ltac:(lia)) as Hr. set (rnd := rand_bytes _ 22) in *.
  pose proof (malloc_size (malloc := malloc) (zlen frs + 43) ltac:(lia)) as Hm.
  change (malloc (zlen frs + 43), 0) with (malloc (zlen frs + 43), zlen (@nil Z)).
  destruct (append_built change_cipher_spec (malloc (zlen frs + 43)) []) as (b1 & -> & Hp1 & Hl1); [apply prefix_nil|cbn [length change_cipher_spec]; lia|]. cbn [mbind option_bind].
  destruct (append_built finish_head b1 _ Hp1) as (b2 & -> & Hp2 & Hl2); [cbn [length app change_cipher_spec finish_head]; lia|]. cbn [mbind option_bind].
  destruct (append_built rnd b2 _ Hp2) as (b3 & -> & Hp3 & Hl3); [rewrite !length_app; cbn [length change_cipher_spec finish_head]; lia|]. cbn [mbind option_bind fst snd].
  rewrite (prefix_mread _ _ Hp3) by (rewrite !length_app; cbn [length change_cipher_spec finish_head]; lia). cbn [mbind option_bind].
  rewrite session_mac_tag by (done || lia). cbn [mbind option_bind].
  match goal with |- context [tag ?k ?i ?m] => pose proof (length_tag k i m) as Ht; set (t := tag k i m) in * end.
  destruct (append_built t b3 _ Hp3) as (b4 & -> & Hp4 & Hl4); [rewrite !length_app; cbn [length change_cipher_spec finish_head]; lia|]. cbn [mbind option_bind].
  rewrite prefix_mread by (done || lia). cbn [mbind option_bind].
  destruct (append_built frs b4 _ Hp4) as (b5 & -> & [y ->] & Hl5); [rewrite !length_app; cbn [length change_cipher_spec finish_head]; lia|]. cbn [mbind option_bind].
  assert (y = []) as ->. { destruct y; [done|]. rewrite !length_app in Hl5. cbn [length change_cipher_spec finish_head] in *. lia. }
  exists rnd. split; [|done]. do 2 f_equal. rewrite app_nil_r. unfold authenticated. subst t. cbn [app]. rewrite <- !app_assoc. done.
Qed.

(** ** What waits to be sent *)

Definition waiting o (ds : list (list Z)) : Prop :=
  exists sb, send_buffer (l_data o) = Some sb /\ frames ds `prefix_of` sb /\ send_buffer_size (l_data o) = zlen (frames ds).

Lemma keep_to_send_spec o ds m room :
  waiting o ds -> fits m -> exists sb, keep_to_send realloc o (m ++ room) (zlen m) = Some (set_send (Some sb) (zlen (frames (ds ++ [m]))) o) /\
    frames (ds ++ [m]) `prefix_of` sb.
Proof using RK.
  intros (sb & Hsb & Hp & Hsz) Hm. unfold fits in Hm. unfold keep_to_send. cbv zeta. rewrite Hsb, Hsz. cbn [default].
  destruct (realloc_prefix_of realloc sb (frames ds) (zlen (frames ds) + zlen m + 5) Hp ltac:(lia)) as [Hp1 Hl1].
  set (b := realloc _ _) in *. rewrite prefix_mread by (by exists room || lia). cbn [mbind option_bind].
  destruct Hp1 as [r Hr]. rewrite Hr in *. rewrite length_app in Hl1.
  destruct (split_block r 5) as (r1 & r2 & -> & H1); [lia|]. rewrite length_app in Hl1. assert (length r2 = length m) as H2 by lia.
  pose proof (mwrite_app (frames ds ++ r1) r2 [] (zlen (frames ds) + 5) m) as Hw. rewrite !app_nil_r, <- !app_assoc in Hw.
  rewrite Hw by (rewrite ?length_app; lia). cbn [mbind option_bind]. clear Hw.
  rewrite mwrite_app by (done || (cbn; lia)). cbn [mbind option_bind]. eexists. split.
  - do 2 f_equal. rewrite records_app, length_app. unfold frames at 3. cbn [map concat]. rewrite app_nil_r. pose proof (length_frame m). lia.
  - rewrite records_app. unfold frames at 2. cbn [map concat]. unfold frame. rewrite app_nil_r. done.
Qed.

(** ** What the server makes of a hello *)

Lemma bytes_at_spec a i bs :
  0 <= i -> i + zlen bs <= zlen a -> bytes_at a i bs = Some (bool_decide (take (length bs) (drop (Z.to_nat i) a) = bs)).
Proof.
  revert i. induction bs as [|b bs IH]; intros i Hi Hl; cbn [bytes_at length take]; [by rewrite take_0|].
  cbn [length] in Hl. destruct (rd_is_Some a i ltac:(lia)) as [c Hc]. rewrite Hc. cbn [mbind option_bind].
  apply rd_Some in Hc as [_ Hc]. rewrite (drop_S a c _ Hc). cbn [firstn].
  destruct (c =? b) eqn:E; zify_bool.
  - rewrite IH by lia. replace (Z.to_nat (i + 1)) with (S (Z.to_nat i)) by lia. f_equal. apply bool_decide_ext. subst. split; [by intros ->|by intros [= ?]].
  - f_equal. symmetry. apply bool_decide_false. intros [= ? _]. done.
Qed.

Lemma be16_inv x y m : 0 <= x < 256 -> 0 <= y < 256 -> be_val [x; y] = m <-> 0 <= m < 65536 /\ [x; y] = be16 m.
Proof.
  intros Hx Hy. assert (be_val [x; y] = x * 256 + y) as -> by (unfold be_val; cbn [foldl]; unfold be_step; lia).
  unfold be16, u8. rewrite Z.shiftr_div_pow2 by lia. change (2 ^ 8) with 256. split.
  - intros <-. split; [lia|]. pose proof (Z.div_mod (x * 256 + y) 256). pose proof (Z.mod_pos_bound (x * 256 + y) 256).
    replace ((x * 256 + y) / 256) with x by (apply Z.div_unique with y; lia).
    replace ((x * 256 + y) mod 256) with y by (apply Z.mod_unique with x; lia).
    by rewrite Z.mod_small by lia.
  - intros [Hm [= -> ->]]. pose proof (Z.div_mod m 256). pose proof (Z.mod_pos_bound m 256). rewrite (Z.mod_small (m / 256)) by lia. lia.
Qed.

(** The bytes before the random field for a hello of [n] bytes. *)
Definition head_ok a (n : Z) : bool :=
  (9 <=? n) && (n <? 65541) && bool_decide (take 11 a = [22; 3; 1] ++ be16 (n - 5) ++ [1; 0] ++ be16 (n - 9) ++ [3; 3]).

Lemma head_ok_iff b0 b1 b2 b3 b4 b5 b6 b7 b8 b9 b10 rest n :
  is_bytes [b3; b4; b7; b8] ->
  head_ok (b0 :: b1 :: b2 :: b3 :: b4 :: b5 :: b6 :: b7 :: b8 :: b9 :: b10 :: rest) n = true <->
  [b0; b1; b2] = [22; 3; 1] /\ be_val [b3; b4] = n - 5 /\ [b5; b6] = [1; 0] /\ be_val [b7; b8] = n - 9 /\ [b9; b10] = [3; 3].
Proof.
  intros Hb. rewrite !Forall_cons in Hb. destruct Hb as (H3 & H4 & H7 & H8 & _).
  rewrite !be16_inv by done. unfold head_ok, be16. cbn [firstn app]. split.
  - intros [[Hn1 Hn2]%andb_true_iff Hb%bool_decide_eq_true]%andb_true_iff. zify_bool. injection Hb as -> -> -> -> -> -> -> -> -> -> ->.
    split_and!; try done; lia.
  - intros ([= -> -> ->] & [Hn1 [= -> ->]] & [= -> ->] & [Hn2 [= -> ->]] & [= -> ->]).
    rewrite bool_decide_true by done. rewrite !andb_true_iff. split_and!; lia.
Qed.

Lemma check_head o a n :
  is_bytes (take 11 a) -> 11 <= zlen a ->
  server_check_hello hmac time signed_char o a n
  = if head_ok a n then '(o, r, b) ← check_hello hmac time signed_char (set_status 2 o) a; Some (o, a, r, b)
    else Some (set_status 2 o, a, -1, false).
Proof.
  intros Hb Hl. destruct (split_block a 11) as (p & rest & -> & Hp); [lia|].
  destruct p as [|b0 [|b1 [|b2 [|b3 [|b4 [|b5 [|b6 [|b7 [|b8 [|b9 [|b10 [|]]]]]]]]]]]]; try done. cbn [app] in *. clear Hp.
  assert (is_bytes [b3; b4; b7; b8]) as Hbs. { cbn [firstn] in Hb. rewrite !Forall_cons in *. naive_solver. }
  pose proof (head_ok_iff b0 b1 b2 b3 b4 b5 b6 b7 b8 b9 b10 rest n Hbs) as Hiff.
  set (a := b0 :: _) in *. unfold server_check_hello. cbv zeta.
  assert (bytes_at a 0 [22; 3; 1] = Some (bool_decide ([b0; b1; b2] = [22; 3; 1]))) as -> by (rewrite bytes_at_spec by (cbn [length]; lia); done).
  assert (bytes_at a 5 [1; 0] = Some (bool_decide ([b5; b6] = [1; 0]))) as -> by (rewrite bytes_at_spec by (cbn [length]; lia); done).
  assert (bytes_at a 9 [3; 3] = Some (bool_decide ([b9; b10] = [3; 3]))) as -> by (rewrite bytes_at_spec by (cbn [length]; lia); done).
  assert (ld_be 2 a 3 = Some (be_val [b3; b4])) as -> by (unfold ld_be; rewrite mread_in by lia; done).
  assert (ld_be 2 a 7 = Some (be_val [b7; b8])) as -> by (unfold ld_be; rewrite mread_in by lia; done).
  cbn [mbind option_bind].
  destruct (head_ok _ n) eqn:E.
  - destruct (proj1 Hiff eq_refl) as (H1 & H2 & H3 & H4 & H5). rewrite !bool_decide_true by done. cbn [negb mbind option_bind].
    rewrite H2, H4, !Z.eqb_refl. done.
  - destruct (bool_decide_reflect ([b0; b1; b2] = [22; 3; 1])) as [H1|]; [|done]. cbn [negb].
    destruct (Z.eqb_spec (be_val [b3; b4]) (n - 5)) as [H2|]; [|done]. cbn [negb].
    destruct (bool_decide_reflect ([b5; b6] = [1; 0])) as [H3|]; [|done]. cbn [negb].
    destruct (Z.eqb_spec (be_val [b7; b8]) (n - 9)) as [H4|]; [|done]. cbn [negb].
    destruct (bool_decide_reflect ([b9; b10] = [3; 3])) as [H5|]; [|done].
    exfalso. enough (false = true) by done. apply Hiff. by split_and!.
Qed.

(** The random field and the session id of a hello in [a]. *)
Definition verifyid_of a : list Z := take 22 (drop 11 a).
Definition mac_of a : list Z := take 10 (drop 33 a).
Definition sessionid_of a : list Z := take 32 (drop 44 a).

(** Time, MAC and the list of hellos: what the server asks of one with a session
    id of 32 bytes; [xs] are the hellos seen. *)
Definition acceptable o a (xs : list (list Z)) : bool :=
  negb (wrong_time o (utc_time (take 4 (verifyid_of a))) (time (calls o))) &&
  bool_decide (mac_of a = tag (key o) (sessionid_of a) (verifyid_of a)) &&
  forallb (fun x => bool_decide (x = verifyid_of a)) xs.

Lemma wrong_time_clear o u t : wrong_time (clear_param o) u t = wrong_time o u t.
Proof. unfold clear_param. by destruct o as [? [[|]|] ? ? ? ? ?]. Qed.

Lemma check_hello_32 o a k xs :
  zlen (local_client_id (g_data o)) = 32 -> 76 <= zlen a < 2 ^ 31 -> a @! 43 = Some 32 ->
  elements (client_data (g_data o)) 22 k xs -> 1 <= k ->
  exists l', check_hello hmac time signed_char o a
    = Some (set_global (mkGlobal (sessionid_of a) l' (startup_time (g_data o))) (clear_param (called 1 o)),
            if acceptable o a xs then 0 else -1, acceptable o a xs) /\
    (if acceptable o a xs then elements l' 22 (k - 1) (xs ++ [verifyid_of a]) else l' = client_data (g_data o)).
Proof using HL RLL.
  intros Hid Ha H43 Hel Hk. unfold check_hello. rewrite H43. cbn [mbind option_bind].
  assert (cval signed_char 32 = 32) as -> by by destruct signed_char. cbv zeta. change (32 <? 32) with false. cbv iota.
  unfold OBFS_HMAC_SHA1_LEN. rewrite !mread_in by lia. cbn [mbind option_bind].
  change (take (Z.to_nat 32) (drop (Z.to_nat 44) a)) with (sessionid_of a).
  change (take (Z.to_nat 22) (drop (Z.to_nat 11) a)) with (verifyid_of a).
  change (take (Z.to_nat 10) (drop (Z.to_nat 33) a)) with (mac_of a).
  assert (length (sessionid_of a) = 32%nat) as Hsid by (unfold sessionid_of; rewrite length_take, length_drop; lia).
  pose proof (mwrite_app [] (local_client_id (g_data o)) [] 0 (sessionid_of a) eq_refl ltac:(lia)) as Hw. rewrite !app_nil_r in Hw. cbn [app] in Hw.
  rewrite Hw. cbn [mbind option_bind]. clear Hw.
  rewrite session_mac_tag by (cbn [local_client_id g_data set_global]; lia). cbn [mbind option_bind local_client_id g_data set_global key].
  set (o1 := set_global (mkGlobal (sessionid_of a) (client_data (g_data o)) (startup_time (g_data o))) o).
  rewrite wrong_time_clear. change (wrong_time (called 1 o1)) with (wrong_time o).
  change (calls o1) with (calls o). unfold acceptable.
  assert (Hc : clear_param (called 1 o1) = set_global (mkGlobal (sessionid_of a) (client_data (g_data o)) (startup_time (g_data o))) (clear_param (called 1 o))).
  { unfold clear_param. by destruct o as [? [[|]|] ? ? ? ? ?]. }
  rewrite Hc. destruct (wrong_time o _ _); cbn [negb andb]; [by eexists|].
  destruct (bool_decide_reflect (mac_of a = tag (key o) (sessionid_of a) (verifyid_of a))); cbn [negb andb]; [|by eexists].
  cbn [client_data g_data set_global]. assert (22 <= zlen (drop 11 a)) by (rewrite length_drop; lia).
  rewrite (have_same_cmp_elements _ 22 k xs (drop 11 a) Hel) by done. cbn [mbind option_bind].
  change (take (Z.to_nat 22) (drop 11 a)) with (verifyid_of a).
  destruct (forallb _ xs).
  - destruct (add_back_elements _ 22 k xs (drop 11 a) Hel Hk ltac:(done)) as (l' & -> & Hel').
    exists l'. by cbn [negb mbind option_bind Z.eqb].
  - by eexists.
Qed.

(** A session id of any other length: refused below 32, written over the end of
    the 32 bytes that are kept above. *)
Lemma check_hello_other o a b :
  zlen (local_client_id (g_data o)) = 32 -> a @! 43 = Some b -> is_bytes a -> b <> 32 ->
  check_hello hmac time signed_char o a = if cval signed_char b <? 32 then Some (o, -1, false) else None.
Proof.
  intros Hid H43 Hb Hn. unfold check_hello. rewrite H43. cbn [mbind option_bind]. cbv zeta.
  assert (0 <= b < 256) as Hb0. { apply rd_Some in H43 as [_ H43]. rewrite Forall_lookup in Hb. by apply (Hb _ _ H43). }
  case_bool; [done|]. destruct (mread a 44 (cval signed_char b)) as [sid|] eqn:Em; [|done]. cbn [mbind option_bind].
  pose proof (cval_range signed_char b Hb0) as Hr. apply mread_length in Em; [|lia].
  assert (cval signed_char b <> 32). { unfold cval. destruct signed_char; [|done]. unfold s8, sgn. rewrite Z.mod_small by lia. case_bool; lia. }
  unfold mwrite. rewrite (proj2 (Z.leb_gt (0 + zlen sid) _)) by lia. done.
Qed.

(** ** The handshake *)

Lemma hello_fields auth id tail room v k :
  auth = authenticated k id v -> zlen v = 22 -> zlen id = 32 ->
  let a := hello auth id tail ++ room in
  head_ok a (zlen (hello auth id tail)) = (zlen tail <? 65465) /\ is_bytes (take 11 a) /\
  a @! 43 = Some 32 /\ verifyid_of a = v /\ mac_of a = tag k id v /\ sessionid_of a = id.
Proof using HL.
  intros -> Hv Hid a. pose proof (length_tag k id v) as Ht.
  assert (zlen (authenticated k id v) = 32) as Hau by (unfold authenticated; rewrite length_app; lia).
  pose proof (length_hello _ id tail Hau Hid) as Hlen. set (n := zlen (hello _ _ _)) in *.
  assert (Ha : a = ([22; 3; 1] ++ be16 (n - 5) ++ [1; 0] ++ be16 (n - 9) ++ [3; 3]) ++ v ++ tag k id v ++ [32] ++ id ++ tail ++ room).
  { subst a. unfold hello, hello_body, authenticated in *. set (body := [3; 3] ++ _) in *.
    assert (n = 9 + zlen body) as ->. { subst n. rewrite !length_app. cbn [length be16]. lia. }
    replace (9 + zlen body - 5) with (4 + zlen body) by lia. replace (9 + zlen body - 9) with (zlen body) by lia.
    subst body. repeat (rewrite <- ?app_assoc; cbn [app]). done. }
  set (h := [22; 3; 1] ++ _) in *. assert (length h = 11%nat) as Hh by done.
  assert (Ht11 : take 11 a = h) by (rewrite Ha, take_app_le, take_ge by lia; done).
  assert (Hdrop : forall x y i, a = x ++ y -> length x = i -> drop i a = y) by (intros x y i -> <-; apply drop_app_length).
  split_and!.
  - unfold head_ok. rewrite Ht11. rewrite bool_decide_true by done. rewrite andb_true_r.
    destruct (zlen tail <? 65465) eqn:E; zify_bool; [apply andb_true_iff; lia|apply andb_false_iff; lia].
  - rewrite Ht11. subst h. unfold be16. repeat constructor; lia || apply u8_range.
  - rewrite Ha, !app_assoc. rewrite <- !app_assoc. rewrite rd_app_r by lia. rewrite rd_app_r by lia. rewrite rd_app_r by lia.
    rewrite Hh, Ht. by replace (43 - Z.of_nat 11 - zlen v - Z.of_nat 10) with 0 by lia.
  - unfold verifyid_of. rewrite (Hdrop h _ 11%nat Ha Hh). rewrite take_app_le, take_ge by lia. done.
  - unfold mac_of. rewrite (Hdrop (h ++ v) (tag k id v ++ [32] ++ id ++ tail ++ room) 33%nat); [|by rewrite Ha, <- app_assoc|rewrite length_app; lia].
    rewrite take_app_le, take_ge by lia. done.
  - unfold sessionid_of. rewrite (Hdrop (h ++ v ++ tag k id v ++ [32]) (id ++ tail ++ room) 44%nat);
      [|by rewrite Ha, <- !app_assoc|rewrite !length_app; cbn [length]; lia].
    rewrite take_app_le, take_ge by lia. done.
Qed.

Lemma mwrite_given a out : zlen out < 2 ^ 31 ->
  exists a', mwrite (ensure realloc a (zlen out) (zlen out * 2)) 0 out = Some a' /\ mread a' 0 (zlen out) = Some out.
Proof using RK.
  intros Hb. destruct (ensure_prefix realloc a [] (zlen out) (zlen out * 2)) as (_ & Hl & _); [apply prefix_nil|cbn; lia|lia|].
  destruct (mwrite_front (ensure realloc a (zlen out) (zlen out * 2)) out Hl) as (a' & ? & ? & _).
  exists a'. split; [done|]. apply prefix_mread; [done|lia].
Qed.

(** The first call of the client, before any status but 0. *)
Lemma client_encode_first o m room :
  handshake_status (l_data o) = 0 -> waiting o [] -> fits m ->
  zlen (local_client_id (g_data o)) = 32 -> name_ok (default (host o) (param (clear_param o))) ->
  exists tail r' sb a' n,
    client_encode o (m ++ room) (zlen m) = Some (greeted r' (set_send (Some sb) (zlen (frames [m])) o), a', n) /\
    mread a' 0 n = Some (hello (random_field (key o) (local_client_id (g_data o)) (time (calls o + 1)) (calls o + 1 + 1)) (local_client_id (g_data o)) tail) /\
    frames [m] `prefix_of` sb /\ zlen tail < 1100 /\ tail_of o tail.
Proof using MS RK HL RS.
  intros Hst Hw Hm Hid Hname. unfold tls12_ticket_auth_client_encode. rewrite Hst. change (0 =? 8) with false. cbv iota.
  destruct (keep_to_send_spec o [] m room Hw Hm) as (sb & -> & Hp). cbn [mbind option_bind app] in *. cbv zeta.
  change (handshake_status (l_data (set_send (Some sb) (zlen (frames [m])) o))) with (handshake_status (l_data o)). rewrite Hst.
  change (0 =? 0) with true. cbv iota.
  set (o1 := set_send _ _ o) in *.
  assert (default (host o1) (param (clear_param o1)) = default (host o) (param (clear_param o))) as Hn1.
  { subst o1. unfold clear_param. by destruct o as [? [[|]|] ? ? ? ? ?]. }
  destruct (client_hello_spec o1 Hid) as (tail & r' & -> & Ht & Hto); [by rewrite Hn1|]. cbn [mbind option_bind].
  assert (tail_of o tail) as Hto' by (destruct Hto as (sni & rnd & Hsni & ?); rewrite Hn1 in Hsni; by exists sni, rnd).
  subst o1. cbn [key g_data calls set_send set_local]. set (hl := hello _ _ _) in *.
  assert (zlen hl = 76 + zlen tail) as Hl by (apply length_hello; [apply length_random_field|done]).
  destruct (mwrite_given (m ++ room) hl ltac:(lia)) as (a' & -> & Hr). cbn [mbind option_bind].
  exists tail, r', sb, a', (zlen hl). by split_and!.
Qed.

(** More data of the client before the server has answered. *)
Lemma client_encode_early o ds m room :
  handshake_status (l_data o) = 1 -> waiting o ds -> fits m -> m <> [] ->
  exists sb, client_encode o (m ++ room) (zlen m) = Some (set_send (Some sb) (zlen (frames (ds ++ [m]))) o, m ++ room, 0) /\
    frames (ds ++ [m]) `prefix_of` sb.
Proof using RK.
  intros Hst Hw Hm Hne. unfold tls12_ticket_auth_client_encode.
  rewrite Hst. change (1 =? 8) with false. cbv iota.
  destruct (keep_to_send_spec o ds m room Hw Hm) as (sb & -> & Hp). cbn [mbind option_bind]. cbv zeta.
  set (o1 := set_send _ _ o) in *. change (handshake_status (l_data o1)) with (handshake_status (l_data o)). rewrite Hst.
  change (1 =? 0) with false. cbv iota. rewrite (proj2 (Z.eqb_neq (zlen m) 0)) by (destruct m; [done|cbn; lia]).
  by exists sb.
Qed.

Lemma transmit_early early : forall o ds,
  handshake_status (l_data o) = 1 -> waiting o ds -> Forall (fun m => fits (fst m) /\ fst m <> []) early ->
  exists sb, transmit client_encode o early = Some ([], set_send (Some sb) (zlen (frames (ds ++ map fst early))) o) /\
    frames (ds ++ map fst early) `prefix_of` sb.
Proof using RK.
  induction early as [|[m room] early IH]; intros o ds Hst Hw He.
  { destruct Hw as (sb & Hsb & Hp & Hsz). exists sb. cbn [map transmit]. rewrite app_nil_r. split; [|done].
    rewrite <- Hsz, <- Hsb. by destruct o as [? ? ? [] ? ? ?]. }
  apply Forall_cons in He as [[Hm Hne] He]. cbn [fst transmit map] in *.
  destruct (client_encode_early o ds m room Hst Hw Hm Hne) as (sb & -> & Hp). cbn [mbind option_bind].
  rewrite mread_in by lia. cbn [mbind option_bind].
  set (o1 := set_send _ _ o).
  destruct (IH o1 (ds ++ [m]) Hst) as (sb2 & -> & Hp2); [by exists sb|done|]. cbn [mbind option_bind].
  rewrite <- app_assoc in *. exists sb2. split; [|done]. by destruct o.
Qed.

(** What the server makes of a hello under its key and of the right time: it looks
    at the hellos seen. *)
Lemma server_judges_hello o k xs id tail t call room :
  handshake_status (l_data o) <> 8 -> handshake_status (l_data o) <> 3 -> zlen (local_client_id (g_data o)) = 32 ->
  elements (client_data (g_data o)) 22 k xs -> 1 <= k -> zlen id = 32 -> 0 <= t < 2 ^ 31 -> zlen tail < 1100 -> zlen room < 2 ^ 30 ->
  wrong_time o t (time (calls o)) = false ->
  let w := hello (random_field (key o) id t call) id tail in
  let v := be_bytes 4 t ++ rand_bytes call 18 in
  let ok := forallb (fun x => bool_decide (x = v)) xs in
  exists l', server_decode o (w ++ room) (zlen w)
    = Some (set_global (mkGlobal id l' (startup_time (g_data o))) (clear_param (called 1 (set_status 2 o))), w ++ room, if ok then 0 else -1, ok) /\
    if ok then elements l' 22 (k - 1) (xs ++ [v]) else l' = client_data (g_data o).
Proof using HL RLL RS.
  intros H8 H3 Hid Hel Hk Hids Ht Htail Hroom Hwt w v ok. unfold tls12_ticket_auth_server_decode.
  rewrite (proj2 (Z.eqb_neq _ 8)), (proj2 (Z.eqb_neq _ 3)) by done.
  assert (zlen v = 22) as Hv. { subst v. rewrite length_app, length_be_bytes. pose proof (rand_size (rand_bytes := rand_bytes) call 18 ltac:(lia)). lia. }
  pose proof (length_random_field (key o) id t call) as Hrf. pose proof (length_hello _ id tail Hrf Hids) as Hwl. fold w in Hwl.
  destruct (hello_fields (random_field (key o) id t call) id tail room v (key o) eq_refl Hv Hids) as (Hh & Hb & H43 & Hver & Hmac & Hsid).
  fold w in Hh, Hb, H43, Hver, Hmac, Hsid. rewrite check_head by (done || (rewrite length_app; lia)).
  rewrite Hh, (proj2 (Z.ltb_lt _ _)) by lia.
  destruct (check_hello_32 (set_status 2 o) (w ++ room) k xs Hid ltac:(rewrite length_app; lia) H43 Hel Hk) as (l' & -> & Hl').
  assert (acceptable (set_status 2 o) (w ++ room) xs = ok) as Hacc.
  { unfold acceptable. rewrite Hver, Hmac, Hsid. cbn [key set_status set_local]. rewrite bool_decide_true by done.
    assert (utc_time (take 4 v) = t) as ->.
    { subst v. rewrite take_app_le, take_ge by (rewrite length_be_bytes; lia). unfold utc_time. rewrite be_val_bytes, Z.mod_small by lia. apply s32_id. lia. }
    change (wrong_time (set_status 2 o)) with (wrong_time o). change (calls (set_status 2 o)) with (calls o). by rewrite Hwt. }
  rewrite Hacc in *. cbn [mbind option_bind]. rewrite Hver in Hl'. rewrite Hsid. by exists l'.
Qed.

(** The server's answer, and the client with it. *)
Lemma server_answers o room :
  handshake_status (l_data o) <> 8 -> zlen (local_client_id (g_data o)) = 32 -> 129 <= zlen room ->
  exists pre post a',
    server_encode o room 0 = Some (called 1 (called 2 (set_status 3 o)), a', 129) /\
    mread a' 0 129 = Some (pre ++ random_field (key o) (local_client_id (g_data o)) (time (calls o)) (calls o + 1) ++ post) /\
    zlen pre = 11 /\ zlen post = 86.
Proof using MS HL RS.
  intros H8 Hid Hroom. unfold tls12_ticket_auth_server_encode. rewrite (proj2 (Z.eqb_neq _ 8)) by done.
  destruct (server_hello_spec (set_status 3 o) Hid) as (pre & post & -> & Hpre & Hpost). cbn [mbind option_bind].
  cbn [key g_data calls set_status set_local]. change (43 + 86) with 129.
  pose proof (length_random_field (key o) (local_client_id (g_data o)) (time (calls o)) (calls o + 1)) as Hf.
  set (w := pre ++ _) in *. assert (zlen w = 129) as Hw by (subst w; rewrite !length_app; lia).
  pose proof (mread_prefix w [] 129 ltac:(lia) ltac:(lia)) as Hm. rewrite app_nil_r in Hm. rewrite Hm. cbn [mbind option_bind].
  destruct (mwrite_front room w ltac:(lia)) as (a' & -> & Hp & _). cbn [mbind option_bind]. exists pre, post, a'.
  split_and!; [done| |done|done]. destruct Hp as [y ->]. apply (mread_prefix w); lia.
Qed.

Lemma client_takes_answer o pre post t call room :
  handshake_status (l_data o) <> 8 -> zlen (local_client_id (g_data o)) = 32 -> zlen pre = 11 -> zlen post = 86 ->
  let w := pre ++ random_field (key o) (local_client_id (g_data o)) t call ++ post in
  client_decode o (w ++ room) (zlen w) = Some (o, w ++ room, 0, true).
Proof using HL RS.
  intros H8 Hid Hpre Hpost w. unfold tls12_ticket_auth_client_decode. cbv zeta. rewrite (proj2 (Z.eqb_neq _ 8)) by done.
  pose proof (length_random_field (key o) (local_client_id (g_data o)) t call) as Hf.
  assert (zlen w = 129) as Hw by (subst w; rewrite !length_app; lia). rewrite Hw. change (129 <? 11 + 32 + 1 + 32) with false. cbv iota.
  unfold random_field, authenticated in w, Hf. set (v := be_bytes 4 t ++ _) in *. set (g := tag _ _ v) in *.
  assert (length g = 10%nat) as Hg by apply length_tag. rewrite length_app in Hf.
  rewrite (prefix_mread_at (w ++ room) pre v (g ++ post) 11 22); [|exists room; subst w; list_assoc|lia|lia|lia]. cbn [mbind option_bind].
  rewrite session_mac_tag by (done || lia). cbn [mbind option_bind]. fold g.
  rewrite (prefix_mread_at (w ++ room) (pre ++ v) g post 33); [|exists room; subst w; list_assoc|rewrite length_app; lia|unfold OBFS_HMAC_SHA1_LEN; lia|unfold OBFS_HMAC_SHA1_LEN; lia].
  cbn [mbind option_bind]. by rewrite bool_decide_true.
Qed.

(** The client's finish, and the server with the data behind it. *)
Lemma client_finishes o ds room :
  handshake_status (l_data o) = 1 -> waiting o ds -> zlen (local_client_id (g_data o)) = 32 -> zlen (frames ds) < 2 ^ 30 ->
  exists rnd a' n, client_encode o room 0 = Some (set_status 8 (set_send None n (called 1 o)), a', 43 + n) /\
    mread a' 0 (43 + n) = Some (authenticated (key o) (local_client_id (g_data o)) (change_cipher_spec ++ finish_head ++ rnd) ++ frames (ds ++ [[]])) /\
    zlen rnd = 22 /\ n = zlen (frames (ds ++ [[]])).
Proof using MS RK HL RS.
  intros Hst Hw Hid Hb. unfold tls12_ticket_auth_client_encode. rewrite Hst. change (1 =? 8) with false. cbv iota.
  destruct (keep_to_send_spec o ds [] room Hw ltac:(done)) as (sb & Hk & Hp). cbn [app length] in Hk. change (Z.of_nat 0) with 0 in Hk.
  rewrite Hk. cbn [mbind option_bind]. cbv zeta. set (o1 := set_send _ _ o).
  change (handshake_status (l_data o1)) with (handshake_status (l_data o)). rewrite Hst. change (1 =? 0) with false. change (0 =? 0) with true. cbv iota.
  assert (zlen (frames (ds ++ [[]])) = zlen (frames ds) + 5) as Hl by (rewrite records_app, length_app; cbn; lia).
  destruct (client_finish_spec o1 sb (frames (ds ++ [[]])) Hid eq_refl Hp eq_refl) as (rnd & -> & Hr); [lia|]. cbn [mbind option_bind].
  match goal with |- context [authenticated ?k ?i ?v ++ ?f] => set (w := authenticated k i v ++ f) end.
  assert (zlen w = 43 + zlen (frames (ds ++ [[]]))) as Hwl.
  { subst w. unfold authenticated. rewrite !length_app, length_tag. cbn [length change_cipher_spec finish_head]. lia. }
  destruct (mwrite_given room w ltac:(lia)) as (a' & -> & Hm). cbn [mbind option_bind].
  exists rnd, a', (zlen (frames (ds ++ [[]]))). rewrite Hwl in *. by split_and!.
Qed.

Lemma server_takes_finish o rnd frs room :
  handshake_status (l_data o) = 3 -> zlen (local_client_id (g_data o)) = 32 -> zlen rnd = 22 -> zlen frs < 2 ^ 31 ->
  let w := authenticated (key o) (local_client_id (g_data o)) (change_cipher_spec ++ finish_head ++ rnd) ++ frs in
  exists recv, server_decode o (w ++ room) (43 + zlen frs) = server_decode (set_status 8 (set_recv recv (zlen frs) o)) (w ++ room) 0 /\
    streaming (set_status 8 (set_recv recv (zlen frs) o)) frs.
Proof using RK HL.
  intros Hst Hid Hr Hb w. unfold tls12_ticket_auth_server_decode at 1. rewrite Hst. change (3 =? 8) with false. change (3 =? 3) with true. cbv iota.
  unfold server_finish. cbv zeta. rewrite (proj2 (Z.ltb_ge _ _)) by lia.
  set (v := change_cipher_spec ++ finish_head ++ rnd) in *.
  assert (zlen v = 33) as Hv by (subst v; rewrite !length_app; cbn [length change_cipher_spec finish_head]; lia).
  unfold authenticated in w. set (g := tag _ _ v) in *. assert (length g = 10%nat) as Hg by apply length_tag.
  assert (zlen (w ++ room) = 43 + zlen frs + zlen room) as Hwl by (subst w; rewrite !length_app; lia).
  rewrite !bytes_at_spec by (cbn [length change_cipher_spec finish_head]; lia).
  rewrite !bool_decide_true by done. cbn [mbind option_bind negb].
  rewrite (prefix_mread_at (w ++ room) [] v (g ++ frs) 0 33); [|exists room; subst w; list_assoc|done|lia|lia]. cbn [mbind option_bind].
  rewrite session_mac_tag by (done || lia). cbn [mbind option_bind]. fold g.
  rewrite (prefix_mread_at (w ++ room) v g frs 33); [|exists room; subst w; list_assoc|lia|unfold OBFS_HMAC_SHA1_LEN; lia|unfold OBFS_HMAC_SHA1_LEN; lia].
  cbn [mbind option_bind]. rewrite bool_decide_true by done. cbn [negb]. replace (43 + zlen frs - 43) with (zlen frs) by lia.
  rewrite (prefix_mread_at (w ++ room) (v ++ g) frs [] 43); [|exists room; subst w; list_assoc|rewrite length_app; lia|lia|lia].
  cbn [mbind option_bind]. pose proof (realloc_size (recv_buffer (l_data o)) (zlen frs) ltac:(lia)) as Hrs.
  destruct (mwrite_front (realloc (recv_buffer (l_data o)) (zlen frs)) frs ltac:(lia)) as (recv & -> & Hp & _). cbn [mbind option_bind].
  exists recv. split; [|by split_and!]. by unfold tls12_ticket_auth_server_decode.
Qed.

(** The finish and the records behind it. *)
Lemma server_delivers o rnd ds room :
  handshake_status (l_data o) = 3 -> zlen (local_client_id (g_data o)) = 32 -> zlen rnd = 22 -> Forall fits ds -> zlen (frames ds) < 2 ^ 31 ->
  let w := authenticated (key o) (local_client_id (g_data o)) (change_cipher_spec ++ finish_head ++ rnd) ++ frames ds in
  exists o' a b, server_decode o (w ++ room) (zlen w) = Some (o', a, zlen (concat ds), false) /\
    mread a 0 (zlen (concat ds)) = Some (concat ds) /\ streaming o' b /\ (b = [] \/ b = frame []).
Proof using RK HL.
  intros Hst Hid Hr Hf Hb w. destruct (server_takes_finish o rnd (frames ds) room Hst Hid Hr Hb) as (recv & Hd & Hs). fold w in Hd.
  replace (zlen w) with (43 + zlen (frames ds)).
  2:{ subst w. unfold authenticated. rewrite !length_app, length_tag. cbn [length change_cipher_spec finish_head]. lia. }
  rewrite Hd.
  destruct (server_takes_segment realloc hmac time signed_char _ (frames ds) ds [] [] (w ++ room) Hs Hf)
    as (ds1 & ds2 & b' & recv' & a' & -> & Hdec & Hp & Hs' & Hfr & Hlo); [by rewrite !app_nil_r|by rewrite app_nil_r|].
  cbn [app length] in Hdec. change (Z.of_nat 0) with 0 in Hdec. rewrite Hdec. destruct (leftover_end b' ds2 Hfr Hlo) as [Hc Hb'].
  rewrite concat_app, Hc, app_nil_r. eexists _, a', b'. split; [done|]. split_and!; [|done..].
  apply prefix_mread; [done|]. pose proof (length_concat_frames ds1). rewrite records_app, length_app in Hb. lia.
Qed.

(** ** From the first call to the data

    The messages of the client until the server's answer is there, the answer, and
    the finish with the messages behind it; [r1] to [r5] are the objects' other
    bytes.  [None] where a side refuses. *)
Definition handshake (oc os : obfs) (early : list (list Z * list Z)) (r1 r2 r3 r4 r5 : list Z) : option (list Z * obfs * obfs) :=
  '(w1, oc) ← transmit client_encode oc early;
  '(os, _, n, back) ← server_decode os (w1 ++ r1) (zlen w1);
  if negb (n =? 0) || negb back then None else
  '(os, a, n) ← server_encode os r2 0;
  w2 ← mread a 0 n;
  '(oc, _, n, back) ← client_decode oc (w2 ++ r3) (zlen w2);
  if negb (n =? 0) || negb back then None else
  '(oc, a, n) ← client_encode oc r4 0;
  w3 ← mread a 0 n;
  '(os, a, n, _) ← server_decode os (w3 ++ r5) (zlen w3);
  if n <? 0 then None else
  out ← mread a 0 n;
  Some (out, oc, os).

(** A client with its first messages. *)
Lemma client_opens o m room early :
  handshake_status (l_data o) = 0 -> waiting o [] -> zlen (local_client_id (g_data o)) = 32 ->
  name_ok (default (host o) (param (clear_param o))) -> fits m -> Forall (fun m => fits (fst m) /\ fst m <> []) early ->
  exists tail oc, transmit client_encode o ((m, room) :: early)
      = Some (hello (random_field (key o) (local_client_id (g_data o)) (time (calls o + 1)) (calls o + 1 + 1)) (local_client_id (g_data o)) tail, oc) /\
    zlen tail < 1100 /\ handshake_status (l_data oc) = 1 /\ waiting oc (m :: map fst early) /\ g_data oc = g_data o /\ key oc = key o /\
    recv_buffer (l_data oc) = recv_buffer (l_data o) /\ recv_buffer_size (l_data oc) = recv_buffer_size (l_data o).
Proof using MS RK HL RS.
  intros Hst Hw Hid Hname Hm He. cbn [transmit].
  destruct (client_encode_first o m room Hst Hw Hm Hid Hname) as (tail & r' & sb & a' & n & -> & Hr & Hp & Ht & _).
  cbn [mbind option_bind]. rewrite Hr. cbn [mbind option_bind]. set (o1 := greeted _ _).
  assert (Ho1 : l_data o1 = l_data (set_status 1 (set_send (Some sb) (zlen (frames [m])) o)) /\ g_data o1 = g_data o /\ key o1 = key o).
  { subst o1. unfold greeted, clear_param. by destruct o as [? [[|]|] ? ? ? ? ?]. }
  destruct Ho1 as (Hl & Hg & Hk).
  destruct (transmit_early early o1 [m]) as (sb2 & -> & Hp2); [by rewrite Hl|exists sb; by rewrite Hl|done|].
  cbn [mbind option_bind]. rewrite app_nil_r. exists tail. eexists. split; [done|]. cbn [app] in *.
  cbn [l_data set_send set_local handshake_status recv_buffer recv_buffer_size g_data key]. rewrite Hl, Hg, Hk.
  split_and!; try done. by exists sb2.
Qed.

Lemma handshake_runs oc os m room early r1 r2 r3 r4 r5 k :
  handshake_status (l_data oc) = 0 -> waiting oc [] -> streaming (set_status 8 oc) [] -> zlen (local_client_id (g_data oc)) = 32 ->
  name_ok (default (host oc) (param (clear_param oc))) ->
  handshake_status (l_data os) = 0 -> zlen (local_client_id (g_data os)) = 32 -> elements (client_data (g_data os)) 22 k [] -> 1 <= k ->
  key os = key oc -> 0 <= time (calls oc + 1) < 2 ^ 31 -> wrong_time os (time (calls oc + 1)) (time (calls os)) = false ->
  fits m -> Forall (fun m => fits (fst m) /\ fst m <> []) early -> zlen (frames (m :: map fst early)) < 2 ^ 30 ->
  zlen r1 < 2 ^ 30 -> 129 <= zlen r2 ->
  exists oc' os', handshake oc os ((m, room) :: early) r1 r2 r3 r4 r5 = Some (concat (m :: map fst early), oc', os') /\
    streaming oc' [] /\ exists b, streaming os' b /\ (b = [] \/ b = frame []).
Proof using MS RK HL RS RLL.
  intros Hc0 Hw Hcs Hid Hname Hs0 Hsid Hel Hk Hkey Ht Hwt Hm He Hb H1 H2. unfold handshake.
  destruct (client_opens oc m room early Hc0 Hw Hid Hname Hm He) as (tail & oc1 & -> & Htl & Hst1 & Hw1 & Hg1 & Hk1 & Hr1 & Hn1).
  cbn [mbind option_bind]. rewrite <- Hkey.
  destruct (server_judges_hello os k [] (local_client_id (g_data oc)) tail (time (calls oc + 1)) (calls oc + 1 + 1) r1) as (l' & -> & _);
    try done; [by rewrite Hs0|by rewrite Hs0|].
  cbn [forallb mbind option_bind negb orb]. change (negb (0 =? 0) || false) with false. cbv iota.
  set (os1 := set_global _ _).
  assert (Hos1 : key os1 = key oc /\ local_client_id (g_data os1) = local_client_id (g_data oc) /\ handshake_status (l_data os1) = 2).
  { subst os1. unfold clear_param. rewrite <- Hkey. by destruct os as [? [[|]|] ? ? ? ? ?]. }
  destruct Hos1 as (Hks & Hids & Hsts).
  destruct (server_answers os1 r2) as (pre & post & a & -> & Hr & Hpre & Hpost); [by rewrite Hsts|by rewrite Hids|done|].
  cbn [mbind option_bind]. rewrite Hr. cbn [mbind option_bind]. rewrite Hks, Hids, <- Hk1, <- Hg1.
  assert (zlen (local_client_id (g_data oc1)) = 32) as Hid1 by by rewrite Hg1.
  rewrite client_takes_answer by (done || by rewrite Hst1). cbn [mbind option_bind negb orb].
  change (negb (0 =? 0) || false) with false. cbv iota.
  destruct (client_finishes oc1 _ r4 Hst1 Hw1 Hid1 Hb) as (rnd & a2 & n & -> & Hr2 & Hrnd & ->). cbn [mbind option_bind].
  rewrite Hr2. cbn [mbind option_bind]. set (ds := m :: map fst early) in *. clear a a2 Hr Hr2.
  set (os2 := called 1 (called 2 (set_status 3 os1))). rewrite <- Hk1 in Hks. rewrite <- Hg1 in Hids.
  assert (Hks2 : key os2 = key oc1) by exact Hks.
  assert (Hids2 : local_client_id (g_data os2) = local_client_id (g_data oc1)) by exact Hids.
  rewrite <- Hks2, <- Hids2.
  assert (Hf : Forall fits (ds ++ [[]])).
  { apply Forall_app. split; [|by repeat constructor]. constructor; [done|]. clear -He. induction He as [|e es [H _] _ IH]; by constructor. }
  destruct (server_delivers os2 rnd (ds ++ [[]]) r5 eq_refl ltac:(by rewrite Hids2) Hrnd Hf) as (os' & a & b & -> & Hr & Hs & Hb');
    [rewrite records_app, length_app; change (length (frames [[]])) with 5%nat; lia|].
  rewrite concat_app, app_nil_r in *. cbn [mbind option_bind]. rewrite (proj2 (Z.ltb_ge _ _)) by lia. rewrite Hr. cbn [mbind option_bind].
  eexists _, os'. split; [done|]. split; [|by exists b].
  destruct Hcs as (_ & Hcs1 & Hcs2). cbn in Hcs1, Hcs2. split_and!; [done|by rewrite <- Hr1 in Hcs1|by rewrite <- Hn1 in Hcs2].
Qed.
End Sides.


(** ** What the handshake promises *)

Section Promises.
Context {L : Type} {RLst : RecordList L} {RLL : RecordListLaws L}.
Context (malloc : Z -> list Z) (realloc : list Z -> Z -> list Z) (hmac : list Z -> list Z -> list Z).
Context (rand_bytes : Z -> Z -> list Z) (time : Z -> Z) (signed_char : bool).
Context {MS : MallocSize malloc} {RK : ReallocKeeps realloc} {HL : HmacLaws hmac} {RS : RandSize rand_bytes}.
Notation new_obfs := (tls12_ticket_auth_new_obfs malloc rand_bytes time).

(** C12: two fresh sides with the same key, a server whose clock agrees: whatever
    the client sends before the server has answered, every call of the handshake
    returns, both sides accept, the server delivers exactly those data behind the
    client's finish, and both sides are ready for the stream. *)
Theorem handshake_delivers h p key_ lc rc cc hs ps ls rs cs m room early r1 r2 r3 r4 r5 k :
  let oc := new_obfs h p key_ lc rc cc in
  let os := new_obfs hs ps key_ ls rs cs in
  name_ok h -> (forall x, p = Some x -> name_ok x) ->
  elements ls 22 k [] -> 1 <= k -> 0 <= time (cc + 3) < 2 ^ 31 -> wrong_time os (time (cc + 3)) (time (cs + 2)) = false ->
  fits m -> Forall (fun m => fits (fst m) /\ fst m <> []) early -> zlen (frames (m :: map fst early)) < 2 ^ 30 ->
  zlen r1 < 2 ^ 30 -> 129 <= zlen r2 ->
  exists oc' os', handshake malloc realloc hmac rand_bytes time signed_char oc os ((m, room) :: early) r1 r2 r3 r4 r5
      = Some (concat (m :: map fst early), oc', os') /\
    streaming oc' [] /\ exists b, streaming os' b /\ (b = [] \/ b = frame []).
Proof using MS RK HL RS RLL.
  intros oc os Hh Hp Hel Hk Ht Hwt Hm He Hb H1 H2.
  pose proof (malloc_size (malloc := malloc) 0 ltac:(lia)) as Hm0. destruct (malloc 0) eqn:E0; [|cbn in Hm0; lia].
  pose proof (rand_size (rand_bytes := rand_bytes) cc 32 ltac:(lia)). pose proof (rand_size (rand_bytes := rand_bytes) cs 32 ltac:(lia)).
  eapply (handshake_runs malloc realloc hmac rand_bytes time signed_char oc os m room early r1 r2 r3 r4 r5 k); try done.
  - exists []. cbn. rewrite E0. split_and!; [done|apply prefix_nil|done].
  - split_and!; [done|apply prefix_nil|done].
  - subst oc. unfold clear_param. cbn [param tls12_ticket_auth_new_obfs]. destruct p as [[|c x]|]; cbn [param set_param host tls12_ticket_auth_new_obfs default]; [done| |done].
    by apply Hp.
  - cbn [calls oc tls12_ticket_auth_new_obfs]. by replace (cc + 2 + 1) with (cc + 3) by lia.
  - cbn [calls oc os tls12_ticket_auth_new_obfs]. by replace (cc + 2 + 1) with (cc + 3) by lia.
Qed.

(** C14: what a server that waits for a hello makes of any bytes.  A head that is
    not one for their number is refused.  A session id of less than 32 bytes is
    refused and one of more is written over the end of the array it is kept in,
    both without a look at the MAC.  With 32 bytes the hello is accepted, and
    remembered, exactly if its time is right, its MAC is the one under the key and
    the session id, and no other hello was seen before; the session id is taken
    over in any case. *)
Theorem hello_decides (o : obfs L) a n k xs :
  handshake_status (l_data o) <> 8 -> handshake_status (l_data o) <> 3 -> zlen (local_client_id (g_data o)) = 32 ->
  is_bytes a -> 76 <= zlen a < 2 ^ 31 -> elements (client_data (g_data o)) 22 k xs -> 1 <= k ->
  let o1 := set_status 2 o in
  let result := tls12_ticket_auth_server_decode realloc hmac time signed_char o a n in
  if head_ok a n then
    forall b, a @! 43 = Some b ->
    if b =? 32 then
      exists l', result = Some (set_global (mkGlobal (sessionid_of a) l' (startup_time (g_data o))) (clear_param (called 1 o1)), a,
                                if acceptable hmac time o a xs then 0 else -1, acceptable hmac time o a xs) /\
        (if acceptable hmac time o a xs then elements l' 22 (k - 1) (xs ++ [verifyid_of a]) else l' = client_data (g_data o))
    else result = if cval signed_char b <? 32 then Some (o1, a, -1, false) else None
  else result = Some (o1, a, -1, false).
Proof using HL RLL.
  intros H8 H3 Hid Hb Ha Hel Hk o1 result. subst result. unfold tls12_ticket_auth_server_decode.
  rewrite (proj2 (Z.eqb_neq _ 8)), (proj2 (Z.eqb_neq _ 3)) by done.
  rewrite check_head; [|by apply Forall_take|lia]. fold o1. destruct (head_ok a n); [|done]. intros b H43.
  destruct (b =? 32) eqn:E; zify_bool.
  - subst b. destruct (check_hello_32 hmac time signed_char o1 a k xs Hid Ha H43 Hel Hk) as (l' & -> & Hl').
    exists l'. cbn [mbind option_bind]. by split.
  - rewrite (check_hello_other hmac time signed_char o1 a b Hid H43 Hb E). by case_bool.
Qed.

(** C15: a server that has seen one hello accepts the same hello again and refuses
    every other one, though each is made under the key and at the right time. *)
Theorem replay_accepted (o : obfs L) k t0 call0 id tail t call room :
  handshake_status (l_data o) <> 8 -> handshake_status (l_data o) <> 3 -> zlen (local_client_id (g_data o)) = 32 ->
  elements (client_data (g_data o)) 22 k [be_bytes 4 t0 ++ rand_bytes call0 18] -> 1 <= k -> zlen id = 32 ->
  0 <= t < 2 ^ 31 -> zlen tail < 1100 -> zlen room < 2 ^ 30 -> wrong_time o t (time (calls o)) = false ->
  let w := hello (random_field hmac rand_bytes (key o) id t call) id tail in
  let same := bool_decide (be_bytes 4 t0 ++ rand_bytes call0 18 = be_bytes 4 t ++ rand_bytes call 18) in
  exists o', tls12_ticket_auth_server_decode realloc hmac time signed_char o (w ++ room) (zlen w)
    = Some (o', w ++ room, if same then 0 else -1, same).
Proof using HL RLL RS.
  intros H8 H3 Hid Hel Hk Hids Ht Htail Hroom Hwt w same.
  destruct (server_judges_hello realloc hmac rand_bytes time signed_char o k _ id tail t call room H8 H3 Hid Hel Hk Hids Ht Htail Hroom Hwt)
    as (l' & Hd & _). cbn [forallb] in Hd. rewrite andb_true_r in Hd. eexists. exact Hd.
Qed.
End Promises.

(** ** Concrete sides *)

(** On lists in a store of their own. *)
Definition a_list : list Z -> CList.store * CList.clist := fun _ =>
  (CList.mkStore {[1 := CList.mkNode None 0]} 2 98, CList.mkList 1 1 0 22).

Lemma a_list_empty : exists L, client_list 100 = Some L /\ elements L 22 49 [] /\ L = a_list [].
Proof. destruct (client_list_empty 100 ltac:(lia)) as (L & H & He). exists L. split; [done|]. split; [exact He|]. by vm_compute in H; injection H. Qed.

Lemma handshake_delivers_witness :
  let oc := tls12_ticket_auth_new_obfs zeros toy_rand id (bytes_of "a.b,c.d") None [1; 2; 3] (a_list []) (1, 2) 100 in
  let os := tls12_ticket_auth_new_obfs zeros toy_rand id (bytes_of "a.b") (Some (bytes_of "60")) [1; 2; 3] (a_list []) (5, 6) 120 in
  exists oc' os', handshake zeros resize toy_hmac toy_rand id true oc os [([7; 8], [0]); ([9], [])] [] (zeros 200) [] [] [1]
      = Some ([7; 8; 9], oc', os') /\
    streaming oc' [] /\ exists b, streaming os' b /\ (b = [] \/ b = frame []).
Proof.
  intros oc os. destruct a_list_empty as (L & _ & He & ->).
  apply (handshake_delivers zeros resize toy_hmac toy_rand id true (bytes_of "a.b,c.d") None [1; 2; 3] (a_list []) (1, 2) 100
    (bytes_of "a.b") (Some (bytes_of "60")) (a_list []) (5, 6) 120 [7; 8] [0] [([9], [])] [] (zeros 200) [] [] [1] 49).
  - split; [repeat constructor; discriminate|vm_compute; lia].
  - done.
  - exact He.
  - lia.
  - vm_compute. split; [discriminate|reflexivity].
  - vm_compute. reflexivity.
  - vm_compute. reflexivity.
  - repeat constructor. discriminate.
  - vm_compute. reflexivity.
  - vm_compute. reflexivity.
  - vm_compute. discriminate.
Defined.

Lemma hello_decides_witness :
  let o := tls12_ticket_auth_new_obfs zeros toy_rand id (bytes_of "a.b") None [1; 2; 3] (a_list []) (5, 6) 120 in
  let a := [22; 3; 1; 0; 171; 1; 0; 0; 167; 3; 3] ++ zeros 32 ++ [127] ++ zeros 132 in
  head_ok a 176 = true /\ tls12_ticket_auth_server_decode resize toy_hmac id true o a 176 = None.
Proof.
  intros o a. split; [vm_compute; reflexivity|]. destruct a_list_empty as (L & _ & He & ->).
  pose proof (hello_decides resize toy_hmac id true o a 176 49 [] ltac:(by vm_compute) ltac:(by vm_compute) ltac:(by vm_compute)) as H.
  cbv zeta in H. assert (head_ok a 176 = true) as Hh by (vm_compute; reflexivity). rewrite Hh in H.
  apply (H ltac:(repeat (apply Forall_app; split); try (apply Forall_replicate; lia); repeat constructor; lia) ltac:(by vm_compute) He ltac:(lia) 127).
  vm_compute. reflexivity.
Defined.

Lemma replay_accepted_witness :
  let o0 := tls12_ticket_auth_new_obfs zeros toy_rand id (bytes_of "a.b") None [1; 2; 3] [be_bytes 4 7 ++ toy_rand 9 18] (5, 6) 120 in
  let w := hello (random_field toy_hmac toy_rand (key o0) (zeros 32) 7 9) (zeros 32) [] in
  exists o', tls12_ticket_auth_server_decode resize toy_hmac id true o0 (w ++ []) (zlen w) = Some (o', w ++ [], 0, true).
Proof.
  intros o0 w.
  destruct (replay_accepted resize toy_hmac toy_rand id true o0 1 7 9 (zeros 32) [] 7 9 []) as [o' H];
    try done; try (vm_compute; discriminate); try (vm_compute; reflexivity); try (by vm_compute).
  exists o'. rewrite bool_decide_true in H by done. exact H.
Defined.

End Handshake.
