(* ===== verification/Camouflage.v ===== *)
(** * Camouflage: a connection of the server behind an obfuscating plugin

    How src/server/server.c and a plugin work together on what a client sends.  The
    plugin comes first; once it has delivered, the rest of the callback never looks
    at it, so a connection with a plugin does on a segment what one without does on
    the delivered data.  For tls1.2_ticket_auth (Ticket.v, Handshake.v) this gives
    the connection's answer to a hello and the connection behind the stream of
    records. *)

From S2P Require Import Prelude Libc Ota Verify Acl Relay Session CList Ticket Handshake.

Import Libc Ota Acl Relay Records.

#[local] Notation zlen l := (Z.of_nat (length l)).
#[local] Arguments Z.eqb : simpl never.
#[local] Arguments Z.leb : simpl never.
#[local] Arguments Z.ltb : simpl never.

Module Camouflage.

Section Peel.
Context {CE CD OS PS S R : Type} `{Cipher CE CD} `{IpSet S} `{Pcre R}.
Context (realloc : list Z -> Z -> list Z) (malloc : Z -> list Z) (hmac : list Z -> list Z -> list Z).
Context (dns_ntop : sockaddr -> list Z) (dns_pton : list Z -> list Z) (cork_ip_init : list Z -> option cork_ip).
Context (signed_char : bool) (enc_iv_len : Z) (enc_key : list Z).
Context (auth_on obfs_compatible protocol_compatible : bool) (acl_lists : option (@acl S R)).

Notation server_t := (server_t CE CD OS PS).
Notation flow := (Flow server_t).
Notation relay_up := (relay_up realloc malloc hmac dns_ntop dns_pton cork_ip_init enc_iv_len enc_key auth_on obfs_compatible
  protocol_compatible acl_lists).
Notation protocol_decode := (protocol_decode protocol_compatible).
Notation header_init := (header_init auth_on).
Notation header_handshake := (header_handshake realloc auth_on).
Notation stream_up := (stream_up realloc hmac enc_iv_len).
Notation check_hash := (check_hash realloc hmac enc_iv_len).
Notation verify_header := (verify_header hmac enc_iv_len enc_key auth_on).
Notation parse_target := (parse_target dns_pton cork_ip_init acl_lists).
Notation cut_header := (cut_header realloc hmac enc_iv_len).
Notation connect_to_remote := (connect_to_remote malloc dns_ntop cork_ip_init acl_lists).
Notation start_remote := (start_remote malloc dns_ntop cork_ip_init acl_lists).
Notation parse_request := (parse_request realloc malloc hmac dns_ntop dns_pton cork_ip_init enc_iv_len enc_key auth_on acl_lists).
Context (x : option (obfs_class OS * OS)).
Implicit Types s : server_t.

(** The result of a callback, and of a piece of one, with another plugin. *)
Definition with_obfs (r : option (option server_t * list effect)) : option (option server_t * list effect) :=
  match r with Some (o, es) => Some (option_map (set_obfs x) o, es) | None => None end.
Definition flow_map {A} (g : A -> A) (r : option (flow A)) : option (flow A) :=
  match r with
  | Some (Go a) => Some (Go (g a))
  | Some (Ret o es) => Some (Ret (option_map (set_obfs x) o) es)
  | None => None
  end.
Definition on_server (p : buffer_t * server_t) : buffer_t * server_t := (fst p, set_obfs x (snd p)).

Lemma andthen_map {A B} (g : A -> A) (g' : B -> B) (r : option (flow A)) (k : A -> option (flow B)) :
  (forall a, k (g a) = flow_map g' (k a)) -> andthen (flow_map g r) k = flow_map g' (andthen r k).
Proof. intros Hk. destruct r as [[a|o es]|]; cbn [flow_map andthen]; [apply Hk|done|done]. Qed.

(** Each piece leaves the plugin alone. *)
Ltac pieces := repeat (case_match; simplify_eq/=; try done).

Lemma decrypt_step_map b s : decrypt_step b (set_obfs x s) = flow_map on_server (decrypt_step b s).
Proof. unfold decrypt_step. cbn [d_ctx set_obfs]. destruct (ss_decrypt (d_ctx s) b) as [[[err b'] d]|]; cbn [mbind option_bind]; [|done]. by destruct (err =? 0). Qed.

Lemma protocol_decode_map b s : protocol_decode b (set_obfs x s) = flow_map on_server (protocol_decode b s).
Proof.
  unfold Relay.protocol_decode. cbn [protocol set_obfs]. destruct (protocol s) as [[cls st]|]; [|done].
  destruct (server_post_decrypt cls) as [dec|]; [|done]. destruct (dec st (array b) (len b)) as [[[st' a] n]|]; cbn [mbind option_bind]; [|done].
  destruct protocol_compatible; repeat (case_bool; try done).
  change (put_buf (mkBuf a 0) (set_protocol (Some (cls, st')) (set_obfs x s)))
    with (put_buf (mkBuf a 0) (set_obfs x (set_protocol (Some (cls, st')) s))).
  unfold put_buf. cbn [stage set_obfs set_protocol]. by destruct (STAGE_PARSE <? stage s).
Qed.

Lemma put_buf_map b s : put_buf b (set_obfs x s) = set_obfs x (put_buf b s).
Proof. unfold put_buf. cbn [stage set_obfs]. by destruct (STAGE_PARSE <? stage s). Qed.

Lemma header_init_map s : header_init (set_obfs x s) = flow_map (set_obfs x) (header_init s).
Proof.
  unfold Relay.header_init. cbn [stage buf set_obfs]. destruct (stage s =? STAGE_INIT); [|done].
  destruct (is_header_complete auth_on (buf s)) as [r|]; cbn [mbind option_bind]; [|done].
  destruct (r =? 1); [done|]. by destruct (r =? -1).
Qed.

Lemma header_handshake_map s : header_handshake (set_obfs x s) = flow_map (set_obfs x) (header_handshake s).
Proof.
  unfold Relay.header_handshake. cbn [stage buf header_buf set_obfs]. destruct (stage s =? STAGE_HANDSHAKE); [|done].
  destruct (header_buf s) as [hb|]; cbn [mbind option_bind]; [|done]. cbv zeta.
  destruct (mread (array (buf s)) 0 (len (buf s))) as [d|]; cbn [mbind option_bind]; [|done].
  destruct (mwrite _ _ d) as [a|]; cbn [mbind option_bind]; [|done].
  destruct (is_header_complete auth_on (buf s)) as [r|]; cbn [mbind option_bind]; [|done].
  destruct (r =? 1); [|by destruct (r =? -1)].
  destruct (mread _ 0 _) as [d2|]; cbn [mbind option_bind]; [|done].
  by destruct (mwrite _ 0 d2).
Qed.

Lemma check_hash_map b s : check_hash b (set_obfs x s) = '(ok, b, s) ← check_hash b s; Some (ok, b, set_obfs x s).
Proof.
  unfold Relay.check_hash. cbn [auth d_ctx chunk set_obfs]. destruct (auth s); [|done].
  destruct (evp_iv (d_ctx s)) as [iv|]; cbn [mbind option_bind]; [|done].
  by destruct (ss_check_hash _ _ _ _ _ _ _) as [[[r b'] ck]|].
Qed.

Lemma stream_up_map snd r s : stream_up snd r (set_obfs x s) = with_obfs (stream_up snd r s).
Proof.
  unfold Relay.stream_up. rewrite check_hash_map. destruct (check_hash (r_buf r) s) as [[[ok b] s']|]; cbn [mbind option_bind]; [|done].
  destruct (negb ok); [done|]. destruct (mread (array b) 0 (len b)) as [d|]; cbn [mbind option_bind]; [|done].
  destruct snd as [n| |]; [|done|done]. by destruct (n <? len b).
Qed.

Lemma verify_header_map atyp s : verify_header atyp (set_obfs x s) = flow_map (set_obfs x) (verify_header atyp s).
Proof.
  unfold Relay.verify_header. cbn [buf d_ctx set_obfs]. destruct (auth_on || _); [|done].
  destruct (parse_header_len _ _ _) as [n|]; cbn [mbind option_bind]; [|done]. cbv zeta. destruct (_ || _); [done|].
  destruct (evp_iv (d_ctx s)) as [iv|]; cbn [mbind option_bind]; [|done].
  destruct (ss_onetimeauth_verify _ _ _ _ _) as [v|]; cbn [mbind option_bind]; [|done]. by destruct (negb _).
Qed.

Lemma cut_header_map offset s : cut_header offset (set_obfs x s) = flow_map (set_obfs x) (cut_header offset s).
Proof.
  unfold Relay.cut_header. cbn [buf auth set_obfs]. cbv zeta. destruct (len (buf s) <? _); [done|].
  destruct (mread _ _ _) as [d|]; cbn [mbind option_bind]; [|done].
  destruct (mwrite _ 0 d) as [a|]; cbn [mbind option_bind]; [|done]. rewrite check_hash_map.
  destruct (check_hash _ s) as [[[ok b] s']|]; cbn [mbind option_bind]; [|done]. by destruct (negb ok).
Qed.

Lemma connect_to_remote_map fo y a s :
  connect_to_remote fo y a (set_obfs x s) = '(r, s, es) ← connect_to_remote fo y a s; Some (r, set_obfs x s, es).
Proof.
  unfold Relay.connect_to_remote. cbn [buf s_idx set_obfs]. cbv zeta.
  destruct (match acl_lists with Some _ => _ | None => _ end); [done|].
  destruct (negb (socket_ok y)); [done|]. destruct (negb (bind_ok y)); [done|]. destruct (negb (setinterface_ok y)); [done|].
  destruct (if fo then _ else _) as [[[b i] es]|]; cbn [mbind option_bind]; [|done].
  destruct (fo && _); [done|]. by destruct (connect_ok y).
Qed.

Lemma hand_over_map i r s : hand_over i r (set_obfs x s) = '(r, s) ← hand_over i r s; Some (r, set_obfs x s).
Proof.
  unfold hand_over. cbn [buf set_obfs]. destruct (0 <? len (buf s)); [|done].
  destruct (mread _ _ _) as [d|]; cbn [mbind option_bind]; [|done]. by destruct (mwrite _ 0 d).
Qed.

Lemma start_remote_map fo y t s : start_remote fo y t (set_obfs x s) = with_obfs (start_remote fo y t s).
Proof.
  unfold Relay.start_remote. destruct t as [a|h p]; [|done]. rewrite connect_to_remote_map.
  destruct (connect_to_remote fo y a s) as [[[r s'] es]|]; cbn [mbind option_bind]; [|done].
  destruct r as [r|]; [|done]. rewrite hand_over_map. by destruct (hand_over 0 r s') as [[r' s2]|].
Qed.

(** Only the header decides about the request; where it is refused, the connection
    is closed. *)
Lemma parse_target_ret atyp b o es : parse_target atyp b = Some (Ret (X := server_t) o es) -> o = None.
Proof.
  unfold Relay.parse_target, malformed. intros Hx. revert Hx. repeat case_bool; intros Hx; try (by simplify_eq);
    repeat (simplify_option_eq || case_match || done).
Qed.

Lemma parse_request_map fo y s :
  returned (parse_request fo y (set_obfs x s)) = with_obfs (returned (parse_request fo y s)).
Proof.
  unfold Relay.parse_request. cbn [buf set_obfs]. destruct (array (buf s) @! 0) as [atyp|]; cbn [mbind option_bind]; [|done].
  rewrite verify_header_map. destruct (verify_header atyp s) as [[s1|o es]|]; cbn [flow_map andthen]; [|done|done].
  cbn [buf set_obfs]. destruct (parse_target atyp (buf s1)) as [[[t offset]|o es]|] eqn:E; cbn [andthen]; [| |done].
  - rewrite cut_header_map. destruct (cut_header offset s1) as [[s2|o es]|]; cbn [flow_map andthen]; [|done|done].
    rewrite start_remote_map. by destruct (start_remote fo y t s2) as [[o es]|].
  - by rewrite (parse_target_ret _ _ _ _ E).
Qed.

(** A callback goes on with what the plugin delivered as if there were none. *)
Lemma relay_up_peel fo snd y b s cls st dec st' a n :
  obfs s = Some (cls, st) -> server_decode cls = Some dec -> dec st (array b) (len b) = Some (st', a, n, false) -> 0 <= n ->
  x = Some (cls, st') ->
  relay_up fo snd y b s = with_obfs (relay_up fo snd y (mkBuf a n) (set_obfs None s)).
Proof.
  intros Ho Hdec Hd Hn Hx. unfold Relay.relay_up.
  assert (Relay.obfs_decode malloc obfs_compatible b s = Some (Go (mkBuf a n, set_obfs x (set_obfs None s)))) as ->.
  { unfold obfs_decode. rewrite Ho, Hdec, Hd. cbn [mbind option_bind]. rewrite (proj2 (Z.leb_le 0 n)) by done. by rewrite Hx. }
  assert (Relay.obfs_decode malloc obfs_compatible (mkBuf a n) (set_obfs None s) = Some (Go (mkBuf a n, set_obfs None s))) as -> by done.
  cbn [andthen]. generalize (set_obfs None s) as s0. intros s0. rewrite decrypt_step_map.
  destruct (decrypt_step (mkBuf a n) s0) as [[[b1 s1]|o es]|]; cbn [flow_map on_server andthen fst Datatypes.snd]; [|done|done].
  rewrite protocol_decode_map.
  destruct (protocol_decode b1 s1) as [[[b2 s2]|o es]|]; cbn [flow_map on_server andthen fst Datatypes.snd]; [|done|done].
  rewrite put_buf_map, header_init_map.
  destruct (header_init (put_buf b2 s2)) as [[s3|o es]|]; cbn [flow_map andthen]; [|done|done]. rewrite header_handshake_map.
  destruct (header_handshake s3) as [[s4|o es]|]; cbn [flow_map andthen]; [|done|done]. cbn [stage remote set_obfs].
  destruct (stage s4 =? STAGE_STREAM).
  - destruct (remote s4) as [r|]; cbn [mbind option_bind]; [|done]. rewrite stream_up_map. by destruct (stream_up snd r s4) as [[o es]|].
  - destruct (stage s4 =? STAGE_PARSE); [|done]. apply parse_request_map.
Qed.
End Peel.

(** ** tls1.2_ticket_auth *)

Section Tls.
Context {CE CD PS S R L : Type} `{Cipher CE CD} `{IpSet S} `{Pcre R} {RLst : RecordList L} {RLL : RecordListLaws L}.
Context (realloc : list Z -> Z -> list Z) (malloc : Z -> list Z) (hmac : list Z -> list Z -> list Z).
Context (dns_ntop : sockaddr -> list Z) (dns_pton : list Z -> list Z) (cork_ip_init : list Z -> option cork_ip).
Context (signed_char : bool) (enc_iv_len : Z) (enc_key : list Z).
Context (auth_on obfs_compatible protocol_compatible : bool) (acl_lists : option (@acl S R)).
Context (rand_bytes : Z -> Z -> list Z) (time : Z -> Z).
Context {MS : Ticket.MallocSize malloc} {RK : Ticket.ReallocKeeps realloc} {HL : HmacLaws hmac} {RS : Ticket.RandSize rand_bytes}.

Notation plugin := (Ticket.obfs L).
Notation server_t := (server_t CE CD plugin PS).
Notation relay_up := (relay_up realloc malloc hmac dns_ntop dns_pton cork_ip_init enc_iv_len enc_key auth_on obfs_compatible
  protocol_compatible acl_lists).
Notation server_recv_cb := (server_recv_cb realloc malloc hmac dns_ntop dns_pton cork_ip_init enc_iv_len enc_key auth_on
  obfs_compatible protocol_compatible acl_lists).
Implicit Types s : server_t.

(** The entry of the plugin table for the server. *)
Definition tls12_ticket_auth_class : obfs_class plugin :=
  mkObfs _ None None (Some (Ticket.tls12_ticket_auth_server_encode malloc realloc hmac rand_bytes time))
    (Some (Ticket.tls12_ticket_auth_server_decode realloc hmac time signed_char)) (fun o _ => o).

Definition sent_on (n : Z) (r : option (option server_t * list effect)) : option (option server_t * list effect) :=
  match r with Some (o, es) => Some (o, Tx n :: es) | None => None end.

(** C16: on a connection that streams behind tls1.2_ticket_auth, the callback for a
    segment, wherever the stream was cut, does exactly what it would do without
    the plugin on the data of the records that the segment completes, and keeps
    the rest for the next segment. *)
Theorem connection_under_tls fo snd y s r st b seg room ds rest :
  stage s = STAGE_STREAM -> remote s = Some r -> array (r_buf r) = room -> zlen seg <= zlen room < 2 ^ 30 ->
  obfs s = Some (tls12_ticket_auth_class, st) -> Ticket.streaming st b ->
  Forall Ticket.fits ds -> Ticket.frames ds = (b ++ seg) ++ rest -> zlen (b ++ seg) < 2 ^ 31 ->
  exists ds1 ds2 b' st' a, ds = ds1 ++ ds2 /\ concat ds1 `prefix_of` a /\
    server_recv_cb fo (Data seg) snd y s
    = sent_on (zlen seg) (with_obfs (Some (tls12_ticket_auth_class, st')) (relay_up fo snd y (mkBuf a (zlen (concat ds1))) (set_obfs None s))) /\
    Ticket.streaming st' b' /\ Ticket.frames ds2 = b' ++ rest /\ Ticket.leftover b' ds2.
Proof using RK.
  intros Hst Hr Ha Hlen Ho Hs Hf Hfr Hb. unfold Relay.server_recv_cb, cur_buf. rewrite Hst, Hr.
  change (STAGE_PARSE <? STAGE_STREAM) with true. cbv iota. cbn [fmap option_fmap option_map mbind option_bind].
  change (BUF_SIZE <? 0) with false. cbv iota. rewrite Ha.
  destruct (split_block room (length seg)) as (r1 & r2 & -> & Hr1); [lia|].
  pose proof (mwrite_app [] r1 r2 0 seg eq_refl ltac:(lia)) as Hw. cbn [app] in Hw. rewrite Hw. cbn [mbind option_bind].
  change (STAGE_STREAM =? STAGE_ERROR) with false. change (STAGE_STREAM =? STAGE_INIT) with false. cbv iota.
  destruct (Ticket.server_takes_segment realloc hmac time signed_char st b ds seg rest r2 Hs Hf Hfr Hb)
    as (ds1 & ds2 & b' & recv' & a' & -> & Hd & Hp & Hs' & Hfr2 & Hlo).
  exists ds1, ds2, b', (Ticket.set_recv recv' (zlen b') st), a'. split_and!; try done.
  erewrite (relay_up_peel realloc malloc hmac dns_ntop dns_pton cork_ip_init enc_iv_len enc_key auth_on obfs_compatible
    protocol_compatible acl_lists (Some (tls12_ticket_auth_class, Ticket.set_recv recv' (zlen b') st)));
    [|exact Ho|reflexivity|exact Hd|lia|reflexivity].
  unfold sent_on. by destruct (with_obfs _ _) as [[o es]|].
Qed.

(** A new connection behind tls1.2_ticket_auth answers the first hello under its
    key that comes at the right time: nothing of it reaches the cipher, the answer
    is one that every client with the same key and session id accepts, and the
    connection waits, with an empty buffer, for the client's finish. *)
Theorem hello_answered fo snd y (e : CE) (d : CD) os p k id tail t call :
  Ticket.handshake_status (Ticket.l_data os) = 0 -> zlen (Ticket.local_client_id (Ticket.g_data os)) = 32 -> elements (Ticket.client_data (Ticket.g_data os)) 22 k [] -> 1 <= k ->
  zlen id = 32 -> 0 <= t < 2 ^ 31 -> zlen tail < 1100 -> Ticket.wrong_time os t (time (Ticket.calls os)) = false -> enc_iv_len < 70 ->
  let w := Handshake.hello (Handshake.random_field hmac rand_bytes (Ticket.key os) id t call) id tail in
  exists s' os' flight,
    server_recv_cb fo (Data w) snd y (new_server malloc e d (Some (tls12_ticket_auth_class, os)) p)
      = Some (Some s', [Tx (zlen w); Relay.Answer flight]) /\
    stage s' = STAGE_INIT /\ len (buf s') = 0 /\ e_ctx s' = e /\ d_ctx s' = d /\ remote s' = None /\
    obfs s' = Some (tls12_ticket_auth_class, os') /\ Ticket.handshake_status (Ticket.l_data os') = 3 /\ Ticket.local_client_id (Ticket.g_data os') = id /\
    forall (oc : plugin) room, Ticket.handshake_status (Ticket.l_data oc) <> 8 -> Ticket.key oc = Ticket.key os -> Ticket.local_client_id (Ticket.g_data oc) = id ->
      Ticket.tls12_ticket_auth_client_decode realloc hmac oc (flight ++ room) (zlen flight) = Some (oc, flight ++ room, 0, true).
Proof using MS HL RS RLL.
  intros H0s Hid Hel Hk Hids Ht Htail Hwt Hiv w.
  assert (zlen w = 76 + zlen tail) as Hw by (apply Handshake.length_hello; [by apply Handshake.length_random_field|done]).
  pose proof (Ticket.malloc_size (malloc := malloc) BUF_SIZE ltac:(unfold BUF_SIZE; lia)) as Hm.
  unfold Relay.server_recv_cb, cur_buf, new_server. cbn [stage buf obfs]. change (STAGE_PARSE <? STAGE_INIT) with false. cbv iota.
  cbn [mbind option_bind array len stage buf]. change (STAGE_PARSE <? STAGE_INIT) with false. change (BUF_SIZE <? 0) with false.
  change (STAGE_INIT =? STAGE_ERROR) with false. change (STAGE_INIT =? STAGE_INIT) with true. cbv iota.
  destruct (split_block (malloc BUF_SIZE) (length w)) as (r1 & r2 & Em & Hr1); [unfold BUF_SIZE in *; lia|].
  rewrite Em. pose proof (mwrite_app [] r1 r2 0 w eq_refl ltac:(lia)) as Hmw. cbn [app] in Hmw. rewrite Hmw. cbn [mbind option_bind].
  rewrite (proj2 (Z.leb_gt _ _)) by (cbn [len]; lia). unfold Relay.relay_up, Relay.obfs_decode. cbn [obfs server_decode tls12_ticket_auth_class array len].
  destruct (Handshake.server_judges_hello realloc hmac rand_bytes time signed_char os k [] id tail t call r2) as (l' & Hd & _); try done; try lia.
  { rewrite Em, length_app in Hm. unfold BUF_SIZE in Hm. lia. }
  change (0 + zlen w) with (zlen w). cbn [forallb] in Hd. subst w. rewrite Hd. cbn [mbind option_bind].
  change (0 <=? 0) with true. cbn [andthen server_encode tls12_ticket_auth_class].
  match goal with |- context [Ticket.tls12_ticket_auth_server_encode _ _ _ _ _ ?o _ _] => set (os1 := o) end.
  assert (Ticket.handshake_status (Ticket.l_data os1) = 2 /\ Ticket.key os1 = Ticket.key os) as [Hs1 Hk1].
  { unfold os1, Ticket.clear_param. by destruct os as [? [[|]|] ? ? ? ? ?]. }
  assert (Ticket.local_client_id (Ticket.g_data os1) = id) as Hi1 by done. clearbody os1.
  destruct (Handshake.server_answers malloc realloc hmac rand_bytes time os1 (malloc BUF_SIZE)) as (pre & post & a' & -> & Hrd & Hpre & Hpost);
    [by rewrite Hs1|by rewrite Hi1|unfold BUF_SIZE in *; lia|].
  cbn [mbind option_bind]. rewrite Hrd. cbn [mbind option_bind]. do 3 eexists. split; [reflexivity|]. split_and!; try done.
  intros oc room Hoc Hk' Hid'. rewrite Hi1, Hk1, <- Hk', <- Hid'.
  eapply Handshake.client_takes_answer; try done. by rewrite Hid'.
Qed.

End Tls.
(** ** Concrete connections *)

#[local] Existing Instances Ticket.zeros_size Ticket.resize_keeps Ticket.toy_rand_size Ticket.toy_hmac_laws Ticket.plain_list
  Ticket.plain_list_laws Session.cipher_example.

Notation plain := (Ticket.obfs (list (list Z))).
Notation no_lists := (None : option (@acl (cork_ip -> bool) (list Z))).
Notation toy_class := (tls12_ticket_auth_class Ticket.resize Ticket.zeros Ticket.toy_hmac true Ticket.toy_rand id).
Notation toy_recv := (server_recv_cb (OS := plain) (PS := unit) Ticket.resize Ticket.zeros Ticket.toy_hmac (fun _ => []) (fun l => l)
  Acl.ip_example 0 [] false false false no_lists).

(** A connection that streams to a peer, with 2 bytes of a record waiting. *)
Definition toy_state : plain := Ticket.set_recv [23; 3] 2 (Ticket.demo 8).
Definition toy_connection : server_t unit unit plain unit :=
  set_stage STAGE_STREAM (set_remote (Some (mkRemote (mkBuf (Ticket.zeros 2048) 0) 0 true true false true))
    (new_server Ticket.zeros tt tt (Some (toy_class, toy_state)) None)).

Lemma connection_under_tls_witness :
  exists ds1 ds2 b' st' a, [[5; 6]; [7]] = ds1 ++ ds2 /\ concat ds1 `prefix_of` a /\
    toy_recv false (Data [3; 0; 2; 5; 6; 23]) (Sent 2) Session.sys_example toy_connection
    = sent_on 6 (with_obfs (Some (toy_class, st')) (relay_up (OS := plain) (PS := unit) Ticket.resize Ticket.zeros Ticket.toy_hmac
        (fun _ => []) (fun l => l) Acl.ip_example 0 [] false false false no_lists false (Sent 2) Session.sys_example
        (mkBuf a (zlen (concat ds1))) (set_obfs None toy_connection))) /\
    Ticket.streaming st' b' /\ Ticket.frames ds2 = b' ++ [3; 3; 0; 1; 7] /\ Ticket.leftover b' ds2.
Proof.
  apply (connection_under_tls Ticket.resize Ticket.zeros Ticket.toy_hmac (fun _ => []) (fun l => l) Acl.ip_example true 0 [] false false
    false no_lists Ticket.toy_rand id false (Sent 2) Session.sys_example toy_connection (mkRemote (mkBuf (Ticket.zeros 2048) 0) 0 true true false true)
    toy_state [23; 3] [3; 0; 2; 5; 6; 23] (Ticket.zeros 2048) [[5; 6]; [7]] [3; 3; 0; 1; 7]); try done.
  repeat constructor.
Defined.

Lemma hello_answered_witness :
  let w := Handshake.hello (Handshake.random_field Ticket.toy_hmac Ticket.toy_rand [1; 2] (Ticket.zeros 32) 4 9) (Ticket.zeros 32) [0; 0] in
  exists (s' : server_t unit unit plain unit) os' flight,
    toy_recv false (Data w) (Sent 2) Session.sys_example (new_server Ticket.zeros tt tt (Some (toy_class, Ticket.demo 0)) None)
      = Some (Some s', [Tx (zlen w); Relay.Answer flight]) /\
    stage s' = STAGE_INIT /\ len (buf s') = 0 /\ e_ctx s' = tt /\ d_ctx s' = tt /\ remote s' = None /\
    obfs s' = Some (toy_class, os') /\ Ticket.handshake_status (Ticket.l_data os') = 3 /\
    Ticket.local_client_id (Ticket.g_data os') = Ticket.zeros 32 /\
    forall (oc : plain) room, Ticket.handshake_status (Ticket.l_data oc) <> 8 -> Ticket.key oc = [1; 2] ->
      Ticket.local_client_id (Ticket.g_data oc) = Ticket.zeros 32 ->
      Ticket.tls12_ticket_auth_client_decode Ticket.resize Ticket.toy_hmac oc (flight ++ room) (zlen flight) = Some (oc, flight ++ room, 0, true).
Proof.
  apply (hello_answered Ticket.resize Ticket.zeros Ticket.toy_hmac (fun _ => []) (fun l => l) Acl.ip_example true 0 [] false false
    false no_lists Ticket.toy_rand id false (Sent 2) Session.sys_example tt tt (Ticket.demo 0) None 1 (Ticket.zeros 32) [0; 0] 4 9); done.
Defined.

End Camouflage.
