(* ===== verification/HostNames.v ===== *)
(** * HostNames: the server name in what a client sends

    Models src/server/tls.c and src/server/http.c of shadowsocksr-libev, which look
    for the host name in a TLS hello and in an HTTP request.  [malloc] can fail; a
    pointer into the data is what is left of the object from there, and a read
    outside of it makes the result [None].  The results are the code the function
    returns and the object it stores under [hostname], if it does. *)

From S2P Require Import Prelude Libc Ota Verify CList Ticket Handshake.

Import Libc Ota Records.

#[local] Notation zlen l := (Z.of_nat (length l)).
#[local] Arguments Z.eqb : simpl never.
#[local] Arguments Z.leb : simpl never.
#[local] Arguments Z.ltb : simpl never.

Module HostNames.

#[local] Existing Instances Ticket.zeros_size Ticket.resize_keeps Ticket.toy_rand_size Ticket.toy_hmac_laws Ticket.plain_list
  Ticket.plain_list_laws.

Definition result : Type := Z * option (list Z).
Definition code (r : Z) : option result := Some (r, None).

Definition TLS_HEADER_LEN : Z := 5.
Definition TLS_HANDSHAKE_CONTENT_TYPE : Z := 22.
Definition TLS_HANDSHAKE_TYPE_CLIENT_HELLO : Z := 1.

Section Parsers.
Context (signed_char : bool) (malloc : Z -> option (list Z)).

(** [p = malloc(len + 1); strncpy(p, src, len); p[len] = 0], then [len]. *)
Definition copy_name (src : list Z) (len : Z) : option result :=
  match malloc (len + 1) with
  | None => code (-4)
  | Some h => h ← strncpy h src len; h ← wr h len 0; Some (len, Some h)
  end.

(** ** TLS *)

(** The loop of [parse_server_name_extension]; each turn takes three bytes or more. *)
Fixpoint name_loop (fuel : nat) (data : list Z) (data_len pos : Z) : option result :=
  match fuel with
  | O => None
  | S fuel =>
      if pos + 3 <? data_len then
        len ← ld_be 2 data (pos + 1);
        if data_len <? pos + 3 + len then code (-5) else
        c ← data @! pos;
        if c =? 0 then copy_name (drop (Z.to_nat (pos + 3)) data) len
        else name_loop fuel data data_len (pos + (3 + len))
      else if negb (pos =? data_len) then code (-5) else code (-2)
  end.
Definition parse_server_name_extension (data : list Z) (data_len : Z) : option result :=
  name_loop (S (Z.to_nat data_len)) data data_len 2.

(** The loop of [parse_extensions]; each turn takes four bytes or more. *)
Fixpoint extension_loop (fuel : nat) (data : list Z) (data_len pos : Z) : option result :=
  match fuel with
  | O => None
  | S fuel =>
      if pos + 4 <=? data_len then
        len ← ld_be 2 data (pos + 2);
        c0 ← data @! pos; c1 ← data @! (pos + 1);
        if (c0 =? 0) && (c1 =? 0) then
          if data_len <? pos + 4 + len then code (-5)
          else parse_server_name_extension (drop (Z.to_nat (pos + 4)) data) len
        else extension_loop fuel data data_len (pos + (4 + len))
      else if negb (pos =? data_len) then code (-5) else code (-2)
  end.
Definition parse_extensions (data : list Z) (data_len : Z) : option result :=
  extension_loop (S (Z.to_nat data_len)) data data_len 0.

(** The part of [parse_tls_header] behind the head of the record. *)
Definition parse_hello (data : list Z) (data_len major minor : Z) : option result :=
  if data_len <? TLS_HEADER_LEN + 1 then code (-5) else
  t ← data @! TLS_HEADER_LEN;
  if negb (t =? TLS_HANDSHAKE_TYPE_CLIENT_HELLO) then code (-5) else
  let pos := TLS_HEADER_LEN + 38 in
  if data_len <? pos + 1 then code (-5) else
  len ← data @! pos;
  let pos := pos + (1 + len) in
  if data_len <? pos + 2 then code (-5) else
  len ← ld_be 2 data pos;
  let pos := pos + (2 + len) in
  if data_len <? pos + 1 then code (-5) else
  len ← data @! pos;
  let pos := pos + (1 + len) in
  if (pos =? data_len) && (major =? 3) && (minor =? 0) then code (-2) else
  if data_len <? pos + 2 then code (-5) else
  len ← ld_be 2 data pos;
  let pos := pos + 2 in
  if data_len <? pos + len then code (-5) else
  parse_extensions (drop (Z.to_nat pos) data) len.

Definition parse_tls_header (data : list Z) (data_len : Z) (hostname : bool) : option result :=
  if negb hostname then code (-3) else
  if data_len <? TLS_HEADER_LEN then code (-1) else
  c0 ← data @! 0; c1 ← data @! 1; c2 ← data @! 2;
  if negb (Z.land c0 128 =? 0) && (c2 =? 1) then code (-2) else
  if negb (c0 =? TLS_HANDSHAKE_CONTENT_TYPE) then code (-5) else
  let tls_version_major := cval signed_char c1 in
  let tls_version_minor := cval signed_char c2 in
  if tls_version_major <? 3 then code (-2) else
  n ← ld_be 2 data 3;
  let len := n + TLS_HEADER_LEN in
  let data_len := Z.min data_len len in
  if data_len <? len then code (-1) else parse_hello data data_len tls_version_major tls_version_minor.

(** ** HTTP *)

Definition CR : Z := 13.
Definition LF : Z := 10.

(** The first loop of [next_header]: up to the end of the line. *)
Fixpoint skip_line (d : list Z) (len : Z) : option (list Z * Z) :=
  if len <=? 2 then Some (d, len) else
  match d with
  | [] => None
  | c0 :: d' =>
      if c0 =? CR then Some (d, len) else
      match d' with [] => None | c1 :: _ => if c1 =? LF then Some (d, len) else skip_line d' (len - 1) end
  end.

(** The second loop, from [n] on: [d] is at [data + n]. *)
Fixpoint header_length (d : list Z) (len n : Z) : option Z :=
  if len <=? n + 1 then Some n else
  match d with
  | [] => None
  | c0 :: d' =>
      if c0 =? CR then Some n else
      match d' with [] => None | c1 :: _ => if c1 =? LF then Some n else header_length d' len (n + 1) end
  end.

(** [next_header]: the length of the next line, the pointer and what is left. *)
Definition next_header (d : list Z) (len : Z) : option (Z * list Z * Z) :=
  '(d, len) ← skip_line d len;
  let d := drop 2 d in
  let len := len - 2 in
  n ← header_length d len 0;
  Some (n, d, len).

Definition lower (c : Z) : Z := if (65 <=? c) && (c <=? 90) then c + 32 else c.
(** [strncasecmp(header, d, strlen(header)) == 0]. *)
Fixpoint same_letters (header d : list Z) : option bool :=
  match header with
  | [] => Some true
  | h :: header => match d with [] => None | c :: d => if lower h =? lower c then same_letters header d else Some false end
  end.

(** Blanks from [n] on, below [len]. *)
Fixpoint eat_blanks (d : list Z) (n len : Z) : option Z :=
  if len <=? n then Some n else
  match d with
  | [] => None
  | c :: d => if (c =? 32) || (c =? 9) then eat_blanks d (n + 1) len else Some n
  end.

(** The loop of [get_header]; each turn takes two bytes or more. *)
Fixpoint get_header (fuel : nat) (header d : list Z) (data_len : Z) : option result :=
  match fuel with
  | O => None
  | S fuel =>
      '(len, d, data_len) ← next_header d data_len;
      if len =? 0 then code (if data_len =? 0 then -1 else -2) else
      let header_len := zlen header in
      same ← if header_len <? len then same_letters header d else Some false;
      if same : bool then
        n ← eat_blanks (drop (length header) d) header_len len;
        copy_name (drop (Z.to_nat n) d) (len - n)
      else get_header fuel header d data_len
  end.

(** The last colon below [n], counted downwards. *)
Fixpoint last_colon (h : list Z) (n : nat) : option (option nat) :=
  match n with
  | O => Some None
  | S i => c ← h !! i; if c =? chr ":" then Some (Some i) else last_colon h i
  end.

Definition parse_http_header (data : list Z) (data_len : Z) (hostname : bool) : option result :=
  if negb hostname then code (-3) else
  if data_len =? 0 then code (-1) else
  '(r, h) ← get_header (S (Z.to_nat data_len)) (bytes_of "Host:") data data_len;
  if r <? 0 then Some (r, h) else
  match h with
  | None => None
  | Some h =>
      i ← last_colon h (Z.to_nat r);
      match i with
      | Some i => Some (Z.of_nat i, Some (<[i := 0]> h))
      | None => Some (r, Some h)
      end
  end.
End Parsers.

(** ** No byte outside the data is read *)

Section Safety.
Context (signed_char : bool) (malloc : Z -> option (list Z)).
Context (malloc_fits : forall n h, malloc n = Some h -> zlen h = n).

(** A negative code and no object, or a length and an object with room for it. *)
Definition sound (r : option result) : Prop :=
  match r with
  | Some (n, None) => n < 0
  | Some (n, Some h) => 0 <= n /\ zlen h = n + 1
  | None => False
  end.

Lemma copy_name_sound src len : 0 <= len <= zlen src -> len < 2 ^ 31 -> sound (copy_name malloc src len).
Proof using malloc_fits.
  intros Hl Hb. unfold copy_name. destruct (malloc (len + 1)) as [h|] eqn:E; [|done]. pose proof (malloc_fits _ _ E) as Hh.
  unfold strncpy. rewrite u64_id by lia. rewrite (proj2 (Nat.ltb_ge _ _)) by lia.
  assert (forall n (l : list Z), (n <= length l)%nat -> exists x, strncpy_src l n = Some x /\ (length x <= n)%nat) as Hs.
  { induction n as [|n IH]; intros l Hn; [by exists []|]. destruct l as [|c l]; [cbn in Hn; lia|]. cbn [strncpy_src].
    destruct (c =? 0); [exists []; cbn; split; [done|lia]|]. destruct (IH l) as (x & -> & Hx); [cbn in Hn; lia|]. exists (c :: x). split; [done|cbn; lia]. }
  destruct (Hs (Z.to_nat len) src) as (x & -> & Hx); [lia|]. cbn [mbind option_bind].
  rewrite wr_Some by (rewrite !length_app, length_replicate, length_drop; lia). cbn [mbind option_bind sound].
  rewrite length_insert, !length_app, length_replicate, length_drop. lia.
Qed.

Lemma ld_be_2 data i : is_bytes data -> 0 <= i -> i + 2 <= zlen data -> exists n, ld_be 2 data i = Some n /\ 0 <= n < 65536.
Proof.
  intros Hd Hi Hl. unfold ld_be. rewrite mread_in by lia. cbn [fmap option_fmap option_map]. eexists. split; [done|].
  pose proof (be_val_range (take (Z.to_nat 2) (drop (Z.to_nat i) data))) as Hr. rewrite length_take, length_drop in Hr.
  replace (Z.of_nat _) with 2 in Hr by lia. apply Hr. apply Forall_take, Forall_drop. exact Hd.
Qed.

Lemma byte_at data i : is_bytes data -> 0 <= i < zlen data -> exists c, data @! i = Some c /\ 0 <= c < 256.
Proof.
  intros Hd Hi. destruct (rd_is_Some data i Hi) as [c Hc]. exists c. split; [done|]. apply rd_Some in Hc as [_ Hc].
  rewrite Forall_lookup in Hd. by eapply Hd.
Qed.

Lemma name_loop_sound data data_len : is_bytes data -> data_len <= zlen data -> data_len < 2 ^ 31 ->
  forall fuel pos, 0 <= pos -> data_len - pos < Z.of_nat fuel -> 0 <= data_len -> sound (name_loop malloc fuel data data_len pos) \/ (fuel = 0%nat).
Proof using malloc_fits.
  intros Hd Hl Hb. induction fuel as [|fuel IH]; intros pos Hp Hf H0; [by right|]. left. cbn [name_loop].
  destruct (Z.ltb_spec (pos + 3) data_len); [|by destruct (negb _)].
  destruct (ld_be_2 data (pos + 1) Hd) as (len & -> & Hlen); [lia..|]. cbn [mbind option_bind].
  destruct (Z.ltb_spec data_len (pos + 3 + len)); [done|]. destruct (byte_at data pos Hd) as (c & -> & _); [lia|]. cbn [mbind option_bind].
  destruct (c =? 0).
  - apply copy_name_sound; [|lia]. rewrite length_drop. lia.
  - destruct (IH (pos + (3 + len))) as [?| ->]; [lia|lia|lia|done|lia].
Qed.

Lemma extension_loop_sound data data_len : is_bytes data -> data_len <= zlen data -> data_len < 2 ^ 31 ->
  forall fuel pos, 0 <= pos -> data_len - pos < Z.of_nat fuel -> (0 < fuel)%nat -> sound (extension_loop malloc fuel data data_len pos).
Proof using malloc_fits.
  intros Hd Hl Hb. induction fuel as [|fuel IH]; intros pos Hp Hf H0; [lia|]. cbn [extension_loop].
  destruct (Z.leb_spec (pos + 4) data_len); [|by destruct (negb _)].
  destruct (ld_be_2 data (pos + 2) Hd) as (len & -> & Hlen); [lia..|]. cbn [mbind option_bind].
  destruct (byte_at data pos Hd) as (c0 & -> & _); [lia|]. cbn [mbind option_bind].
  destruct (byte_at data (pos + 1) Hd) as (c1 & -> & _); [lia|]. cbn [mbind option_bind].
  destruct (_ && _).
  - destruct (Z.ltb_spec data_len (pos + 4 + len)); [done|]. unfold parse_server_name_extension.
    destruct (name_loop_sound (drop (Z.to_nat (pos + 4)) data) len) with (fuel := S (Z.to_nat len)) (pos := 2) as [?|?]; try done; try lia.
    + by apply Forall_drop.
    + rewrite length_drop. lia.
  - apply IH; lia.
Qed.

Lemma parse_hello_sound data data_len major minor : is_bytes data -> data_len <= zlen data -> data_len < 2 ^ 31 ->
  sound (parse_hello malloc data data_len major minor).
Proof using malloc_fits.
  intros Hd Hl Hb. unfold parse_hello, TLS_HEADER_LEN. destruct (Z.ltb_spec data_len (5 + 1)); [done|].
  destruct (byte_at data 5 Hd) as (t & -> & _); [lia|]. cbn [mbind option_bind]. destruct (negb _); [done|]. cbv zeta.
  destruct (Z.ltb_spec data_len (5 + 38 + 1)); [done|].
  destruct (byte_at data (5 + 38) Hd) as (l1 & -> & Hl1); [lia|]. cbn [mbind option_bind].
  set (p1 := 5 + 38 + (1 + l1)). assert (44 <= p1) by lia. clearbody p1. destruct (Z.ltb_spec data_len (p1 + 2)); [done|].
  destruct (ld_be_2 data p1 Hd) as (l2 & -> & Hl2); [lia..|]. cbn [mbind option_bind].
  set (p2 := p1 + (2 + l2)). assert (44 <= p2) by lia. clearbody p2. destruct (Z.ltb_spec data_len (p2 + 1)); [done|].
  destruct (byte_at data p2 Hd) as (l3 & -> & Hl3); [lia|]. cbn [mbind option_bind].
  set (p3 := p2 + (1 + l3)). assert (44 <= p3) by lia. clearbody p3. destruct (_ && _); [done|]. destruct (Z.ltb_spec data_len (p3 + 2)); [done|].
  destruct (ld_be_2 data p3 Hd) as (l4 & -> & Hl4); [lia..|]. cbn [mbind option_bind].
  destruct (Z.ltb_spec data_len (p3 + 2 + l4)); [done|]. apply extension_loop_sound; try lia.
  - by apply Forall_drop.
  - rewrite length_drop. lia.
Qed.
(** [d] is the object from the pointer on and [len] what is left of it; behind its
    end [len] is negative. *)
Definition left_of (d : list Z) (len : Z) : Prop := 0 <= len -> len <= zlen d.

Lemma skip_line_sound d : forall len, left_of d len ->
  exists d' len', skip_line d len = Some (d', len') /\ left_of d' len' /\ len' <= len /\ (2 < len' \/ len' = Z.min len 2).
Proof.
  induction d as [|c0 d IH]; intros len Hl; cbn [skip_line].
  - unfold left_of in Hl. cbn in Hl. destruct (Z.leb_spec len 2); [|lia]. eexists _, _. split; [done|]. split; [done|]. lia.
  - destruct (Z.leb_spec len 2); [eexists _, _; split; [done|]; split; [done|lia]|].
    destruct (c0 =? CR); [eexists _, _; split; [done|]; split; [done|lia]|]. unfold left_of in Hl. cbn [length] in Hl.
    destruct d as [|c1 d']; [cbn in Hl; lia|]. destruct (c1 =? LF); [eexists _, _; split; [done|]; split; [intros ?; cbn in *; lia|lia]|].
    destruct (IH (len - 1)) as (d1 & len1 & -> & H1 & H2 & H3); [intros ?; lia|]. exists d1, len1. split; [done|]. split; [done|]. lia.
Qed.

Lemma header_length_sound d : forall len n, left_of d (len - n) -> 0 <= n -> exists k, header_length d len n = Some k /\ n <= k /\ (k = n \/ k < len).
Proof.
  induction d as [|c0 d IH]; intros len n Hl Hn; cbn [header_length].
  - unfold left_of in Hl. cbn in Hl. destruct (Z.leb_spec len (n + 1)); [|lia]. exists n. split; [done|lia].
  - destruct (Z.leb_spec len (n + 1)); [exists n; split; [done|lia]|].
    destruct (c0 =? CR); [exists n; split; [done|lia]|]. unfold left_of in Hl. cbn [length] in Hl.
    destruct d as [|c1 d']; [cbn in Hl; lia|]. destruct (c1 =? LF); [exists n; split; [done|lia]|].
    destruct (IH len (n + 1)) as (k & -> & Hk1 & Hk2); [intros ?; lia|lia|]. exists k. split; [done|]. lia.
Qed.

Lemma next_header_sound d len : left_of d len ->
  exists n d' len', next_header d len = Some (n, d', len') /\ left_of d' len' /\ len' <= len - 2 /\ (n = 0 \/ 0 < n < len').
Proof.
  intros Hl. unfold next_header. destruct (skip_line_sound d len Hl) as (d1 & len1 & -> & H1 & H2 & H3). cbn [mbind option_bind].
  assert (left_of (drop 2 d1) (len1 - 2)) as Hl2 by (intros ?; rewrite length_drop; unfold left_of in H1; lia).
  destruct (header_length_sound (drop 2 d1) (len1 - 2) 0) as (k & -> & Hk); [by rewrite Z.sub_0_r|lia|]. cbn [mbind option_bind].
  exists k, (drop 2 d1), (len1 - 2). split; [done|]. split; [done|]. lia.
Qed.

Lemma eat_blanks_sound d : forall n len, left_of d (len - n) -> n <= len -> exists k, eat_blanks d n len = Some k /\ n <= k <= len.
Proof.
  induction d as [|c d IH]; intros n len Hl Hn; cbn [eat_blanks]; unfold left_of in Hl; cbn [length] in Hl.
  - destruct (Z.leb_spec len n); [|lia]. exists n. split; [done|lia].
  - destruct (Z.leb_spec len n); [exists n; split; [done|lia]|]. destruct (_ || _); [|exists n; split; [done|lia]].
    destruct (IH (n + 1) len) as (k & -> & Hk); [intros ?; lia|lia|]. exists k. split; [done|lia].
Qed.

Lemma same_letters_sound header : forall d, (length header <= length d)%nat -> is_Some (same_letters header d).
Proof.
  induction header as [|h header IH]; intros d Hd; [by eexists|]. destruct d as [|c d]; [cbn in Hd; lia|]. cbn [same_letters].
  destruct (_ =? _); [|by eexists]. apply IH. cbn in Hd. lia.
Qed.
Lemma get_header_sound header fuel : forall d len, left_of d len -> len < Z.of_nat fuel -> (0 < fuel)%nat -> len < 2 ^ 31 ->
  sound (get_header malloc fuel header d len).
Proof using malloc_fits.
  induction fuel as [|fuel IH]; intros d len Hl Hf H0 Hb; [lia|]. cbn [get_header].
  destruct (next_header_sound d len Hl) as (n & d' & len' & -> & Hl' & Hlen & Hn). cbn [mbind option_bind].
  destruct (Z.eqb_spec n 0); [by destruct (len' =? 0)|]. destruct Hn as [?|Hn]; [done|]. unfold left_of in Hl'.
  assert (sound (get_header malloc fuel header d' len')) as Hrec by (apply IH; try lia; intros ?; lia).
  destruct (Z.ltb_spec (zlen header) n); cbn [mbind option_bind]; [|done].
  destruct (same_letters_sound header d' ltac:(lia)) as [[|] ->]; cbn [mbind option_bind]; [|done].
  destruct (eat_blanks_sound (drop (length header) d') (zlen header) n) as (k & -> & Hk); [intros ?; rewrite length_drop; lia|lia|].
  cbn [mbind option_bind]. apply copy_name_sound; [rewrite length_drop|]; lia.
Qed.

Lemma last_colon_sound h n : (n <= length h)%nat -> exists i, last_colon h n = Some i /\ forall j, i = Some j -> (j < n)%nat.
Proof.
  induction n as [|n IH]; intros Hn; cbn [last_colon]; [by exists None|].
  destruct (lookup_lt_is_Some_2 h n) as [c ->]; [lia|]. cbn [mbind option_bind]. destruct (c =? chr ":").
  - eexists. split; [done|]. intros j [= <-]. lia.
  - destruct IH as (i & -> & Hi); [lia|]. exists i. split; [done|]. intros j Hj. specialize (Hi j Hj). lia.
Qed.

(** A negative code and no object, or a length and an object with room for a name
    of that length and its NUL. *)
Definition sound_name (r : option result) : Prop :=
  match r with
  | Some (n, None) => n < 0
  | Some (n, Some h) => 0 <= n < zlen h
  | None => False
  end.

(** C30: whatever bytes a client sends and however many of them are there, neither
    parser reads a byte that is not, and each returns a negative code and no name,
    or a name with its length in an object that holds it. *)
Theorem host_parsers_sound data :
  is_bytes data -> zlen data < 2 ^ 31 ->
  sound_name (parse_tls_header signed_char malloc data (zlen data) true) /\
  sound_name (parse_http_header malloc data (zlen data) true).
Proof using malloc_fits.
  intros Hd Hb. split.
  - assert (sound (parse_tls_header signed_char malloc data (zlen data) true)) as H.
    { unfold parse_tls_header, TLS_HEADER_LEN. cbn [negb]. destruct (Z.ltb_spec (zlen data) 5); [done|].
      destruct (byte_at data 0 Hd) as (c0 & -> & _); [lia|]. cbn [mbind option_bind].
      destruct (byte_at data 1 Hd) as (c1 & -> & _); [lia|]. cbn [mbind option_bind].
      destruct (byte_at data 2 Hd) as (c2 & -> & _); [lia|]. cbn [mbind option_bind].
      destruct (_ && _); [done|]. destruct (negb _); [done|]. destruct (_ <? 3); [done|].
      destruct (ld_be_2 data 3 Hd) as (n & -> & Hn); [lia..|]. cbn [mbind option_bind].
      destruct (Z.ltb_spec (Z.min (zlen data) (n + 5)) (n + 5)); [done|]. apply parse_hello_sound; [done|lia|lia]. }
    destruct (parse_tls_header _ _ _ _ _) as [[n [h|]]|]; cbn in *; lia || done.
  - unfold parse_http_header. cbn [negb]. destruct (Z.eqb_spec (zlen data) 0) as [?|Hne]; [done|].
    pose proof (get_header_sound (bytes_of "Host:") (S (Z.to_nat (zlen data))) data (zlen data)) as H.
    destruct (get_header _ _ _ _ _) as [[n [h|]]|]; cbn [sound mbind option_bind] in *.
    + destruct H as [H1 H2]; [by intros ?|lia|lia|done|]. rewrite (proj2 (Z.ltb_ge n 0)) by lia.
      destruct (last_colon_sound h (Z.to_nat n)) as (i & -> & Hi); [lia|]. cbn [mbind option_bind].
      destruct i as [i|]; cbn [sound_name]; [|lia]. specialize (Hi i eq_refl). rewrite length_insert. lia.
    + rewrite (proj2 (Z.ltb_lt n 0)); [|apply H; [by intros ?|lia|lia|done]]. cbn. apply H; [by intros ?|lia|lia|done].
    + exfalso. apply H; [by intros ?|lia|lia|done].
Qed.
End Safety.

(** ** The name in the hello of tls1.2_ticket_auth *)

Section Hello.
Import Ticket Handshake.
Context (signed_char : bool) (malloc : Z -> option (list Z)).
Context (malloc_fits : forall n h, malloc n = Some h -> zlen h = n).

Lemma ld_be_16 a n c i : i = zlen a -> 0 <= n < 65536 -> ld_be 2 (a ++ be16 n ++ c) i = Some n.
Proof.
  intros -> Hn. unfold ld_be. rewrite mread_app by (done || (cbn; lia)). cbn [fmap option_fmap option_map].
  f_equal. by apply be16_val.
Qed.

Lemma copy_name_string x more : Forall (fun c => c <> 0) x -> zlen x < 2 ^ 31 ->
  copy_name malloc (x ++ more) (zlen x) = match malloc (zlen x + 1) with Some _ => Some (zlen x, Some (x ++ [0])) | None => Some (-4, None) end.
Proof using malloc_fits.
  intros Hx Hl. unfold copy_name. destruct (malloc _) as [h|] eqn:E; [|done]. pose proof (malloc_fits _ _ E) as Hh.
  rewrite strncpy_prefix by (done || lia). cbn [mbind option_bind].
  destruct (drop (length x) h) as [|c l] eqn:Ed; [apply (f_equal length) in Ed; rewrite length_drop in Ed; cbn [length] in Ed; lia|].
  assert (l = []) as ->. { apply (f_equal length) in Ed. rewrite length_drop in Ed. cbn [length] in Ed. apply nil_length_inv. lia. }
  rewrite (wr_app x c []) by done. done.
Qed.

Definition named (sni : list Z) : option result :=
  if bool_decide (sni = []) then Some (-5, None)
  else match malloc (zlen sni + 1) with Some _ => Some (zlen sni, Some (sni ++ [0])) | None => Some (-4, None) end.

Lemma sni_extension_named sni more :
  Forall (fun c => c <> 0) sni -> (length sni < 128)%nat ->
  parse_server_name_extension malloc (be16 (zlen sni + 3) ++ [0] ++ be16 (zlen sni) ++ sni ++ more) (zlen sni + 5) = named sni.
Proof using malloc_fits.
  intros Hnz Hl. unfold parse_server_name_extension, named. cbn [name_loop]. destruct (Z.ltb_spec (2 + 3) (zlen sni + 5)) as [H0|H0].
  - rewrite bool_decide_eq_false_2 by (intros ->; cbn in H0; lia).
    replace (be16 (zlen sni + 3) ++ [0] ++ be16 (zlen sni) ++ sni ++ more) with ((be16 (zlen sni + 3) ++ [0]) ++ be16 (zlen sni) ++ sni ++ more) by list_assoc.
    rewrite ld_be_16 by (done || lia). cbn [mbind option_bind]. rewrite (proj2 (Z.ltb_ge _ _)) by lia.
    change (((be16 (zlen sni + 3) ++ [0]) ++ be16 (zlen sni) ++ sni ++ more) @! 2) with (Some 0). cbn [mbind option_bind].
    rewrite Z.eqb_refl. change (Z.to_nat (2 + 3)) with 5%nat. cbn [be16 app drop]. apply copy_name_string; [done|lia].
  - assert (sni = []) as -> by (destruct sni; [done|cbn in H0; lia]). done.
Qed.

Lemma extensions_named sni rnd more :
  Forall (fun c => c <> 0) sni -> (length sni < 128)%nat -> zlen rnd = 208 ->
  parse_extensions malloc (extensions sni rnd ++ more) (zlen (extensions sni rnd)) = named sni.
Proof using malloc_fits.
  intros Hnz Hl Hr. assert (zlen (extensions sni rnd) = zlen sni + 289) as He.
  { unfold extensions, sni_extension. rewrite !length_app. cbn [length be16 tls_data1 tls_data2 tls_data3]. lia. }
  unfold parse_extensions. destruct (Z.to_nat (zlen (extensions sni rnd))) as [|f] eqn:Ef; [lia|]. cbn [extension_loop].
  rewrite (proj2 (Z.leb_le _ _)) by lia.
  replace (extensions sni rnd ++ more) with ([255; 1] ++ be16 1 ++ 0 :: sni_extension sni ++ tls_data2 ++ rnd ++ tls_data3 ++ more)
    by (unfold extensions; cbn [tls_data1]; list_assoc).
  set (d := [255; 1] ++ _). assert (ld_be 2 d (0 + 2) = Some 1) as -> by (apply ld_be_16; [done|lia]).
  change (d @! 0) with (Some 255). change (d @! (0 + 1)) with (Some 1). cbn [mbind option_bind andb]. change (255 =? 0) with false. cbn [andb].
  change (0 + (4 + 1)) with 5. rewrite (proj2 (Z.leb_le _ _)) by lia.
  replace d with ([255; 1; 0; 1; 0; 0; 0] ++ be16 (zlen sni + 5) ++ (be16 (zlen sni + 3) ++ [0] ++ be16 (zlen sni) ++ sni ++ tls_data2 ++ rnd ++ tls_data3 ++ more))
    by (subst d; unfold sni_extension; list_assoc).
  rewrite ld_be_16 by (done || lia). cbn [mbind option_bind app].
  repeat match goal with |- context [rd ?d 5] => change (rd d 5) with (Some 0) | |- context [rd ?d (5 + 1)] => change (rd d (5 + 1)) with (Some 0) end.
  cbn [mbind option_bind]. change ((0 =? 0) && (0 =? 0)) with true. cbv iota. rewrite (proj2 (Z.ltb_ge _ _)) by lia.
  change (Z.to_nat (5 + 4)) with 9%nat.
  match goal with |- parse_server_name_extension _ (drop 9 ?d) _ = _ =>
    change (drop 9 d) with (be16 (zlen sni + 3) ++ [0] ++ be16 (zlen sni) ++ sni ++ tls_data2 ++ rnd ++ tls_data3 ++ more) end.
  by apply sni_extension_named.
Qed.

(** The parser on a whole hello, with anything behind it. *)
Lemma hello_named auth id sni rnd more :
  zlen auth = 32 -> zlen id = 32 -> Forall (fun c => c <> 0) sni -> (length sni < 128)%nat -> zlen rnd = 208 ->
  let w := hello auth id (hello_tail sni rnd) in
  parse_tls_header signed_char malloc (w ++ more) (zlen w) true = named sni.
Proof using malloc_fits.
  intros Ha Hi Hnz Hl Hr w. set (ext := extensions sni rnd).
  assert (zlen ext = zlen sni + 289) as He.
  { unfold ext, extensions, sni_extension. rewrite !length_app. cbn [length be16 tls_data1 tls_data2 tls_data3]. lia. }
  assert (exists L B, 0 <= L < 65536 /\ L + 5 = zlen w /\
    w = [22; 3; 1] ++ be16 L ++ [1; 0] ++ be16 B ++ [3; 3] ++ auth ++ [32] ++ id ++ tls_data0 ++ be16 (zlen ext) ++ ext) as (L & B & HL & Hw & Ew).
  { set (body := hello_body auth id (hello_tail sni rnd)).
    assert (zlen body = 101 + zlen ext) as Hbl.
    { unfold body, hello_body, hello_tail. fold ext. rewrite !length_app. cbn [length be16 tls_data0]. lia. }
    exists (4 + zlen body), (zlen body). split; [lia|].
    assert (w = [22; 3; 1] ++ be16 (4 + zlen body) ++ [1; 0] ++ be16 (zlen body) ++ body) as E by done.
    split; [rewrite E, !length_app; cbn [length be16]; lia|]. rewrite E at 1. unfold body at 3, hello_body, hello_tail. fold ext. list_assoc. }
  assert (zlen w = zlen ext + 110) as Hwl by (rewrite Ew, !length_app; cbn [length be16 tls_data0]; lia).
  clearbody w. set (d := w ++ more).
  set (p := [22; 3; 1] ++ be16 L ++ [1; 0] ++ be16 B ++ [3; 3] ++ auth).
  assert (zlen p = 43) as Hp by (subst p; rewrite !length_app; cbn [length be16]; lia).
  set (t30 := [28;192;43;192;47;204;169;204;168;204;20;204;19;192;10;192;20;192;9;192;19;0;156;0;53;0;47;0;10] : list Z).
  assert (d = p ++ 32 :: id ++ be16 28 ++ tail t30 ++ [1; 0] ++ be16 (zlen ext) ++ ext ++ more) as Ed.
  { subst d. rewrite Ew. subst p. change tls_data0 with (be16 28 ++ tail t30 ++ [1; 0]). list_assoc. }
  unfold parse_tls_header, TLS_HEADER_LEN. cbn [negb]. rewrite (proj2 (Z.ltb_ge _ _)) by lia.
  assert (d @! 0 = Some 22) as -> by (subst d; by rewrite Ew). assert (d @! 1 = Some 3) as -> by (subst d; by rewrite Ew).
  assert (d @! 2 = Some 1) as -> by (subst d; by rewrite Ew).
  assert (ld_be 2 d 3 = Some L) as ->.
  { subst d. rewrite Ew. rewrite <- (app_assoc [22; 3; 1]). rewrite <- (app_assoc (be16 L)). apply ld_be_16; [done|lia]. }
  cbn [mbind option_bind]. change (negb (Z.land 22 128 =? 0)) with false. cbn [andb]. change (22 =? TLS_HANDSHAKE_CONTENT_TYPE) with true. cbn [negb].
  assert (cval signed_char 3 = 3 /\ cval signed_char 1 = 1) as [-> ->] by (by destruct signed_char). change (3 <? 3) with false. cbv iota zeta.
  rewrite Hw, Z.min_id, Z.ltb_irrefl. unfold parse_hello, TLS_HEADER_LEN. cbv zeta.
  rewrite (proj2 (Z.ltb_ge _ _)) by lia. assert (d @! 5 = Some 1) as -> by (subst d; by rewrite Ew). cbn [mbind option_bind].
  change (1 =? TLS_HANDSHAKE_TYPE_CLIENT_HELLO) with true. cbn [negb]. change (5 + 38) with 43. rewrite (proj2 (Z.ltb_ge _ _)) by lia.
  rewrite Ed, rd_app_mid by done. cbn [mbind option_bind]. change (43 + (1 + 32)) with 76. rewrite (proj2 (Z.ltb_ge _ _)) by lia.
  replace (p ++ 32 :: id ++ be16 28 ++ tail t30 ++ [1; 0] ++ be16 (zlen ext) ++ ext ++ more)
    with ((p ++ 32 :: id) ++ be16 28 ++ tail t30 ++ [1; 0] ++ be16 (zlen ext) ++ ext ++ more) by list_assoc.
  assert (zlen (p ++ 32 :: id) = 76) as Hq by (rewrite length_app; cbn [length]; lia). set (q := p ++ 32 :: id) in *. clearbody q.
  rewrite ld_be_16 by lia. cbn [mbind option_bind]. change (76 + (2 + 28)) with 106. rewrite (proj2 (Z.ltb_ge _ _)) by lia.
  replace (q ++ be16 28 ++ tail t30 ++ [1; 0] ++ be16 (zlen ext) ++ ext ++ more)
    with ((q ++ be16 28 ++ tail t30) ++ 1 :: 0 :: be16 (zlen ext) ++ ext ++ more) by list_assoc.
  assert (zlen (q ++ be16 28 ++ tail t30) = 106) as Hs by (rewrite !length_app; cbn [length be16 tail t30]; lia).
  rewrite rd_app_mid by done. cbn [mbind option_bind]. change (106 + (1 + 1)) with 108.
  rewrite (proj2 (Z.eqb_neq _ _)) by lia. cbn [andb]. rewrite (proj2 (Z.ltb_ge _ _)) by lia.
  replace ((q ++ be16 28 ++ tail t30) ++ 1 :: 0 :: be16 (zlen ext) ++ ext ++ more)
    with (((q ++ be16 28 ++ tail t30) ++ [1; 0]) ++ be16 (zlen ext) ++ ext ++ more) by list_assoc.
  set (u := (q ++ be16 28 ++ tail t30) ++ [1; 0]). assert (zlen u = 108) as Hu by (subst u; rewrite length_app; cbn [length]; lia).
  rewrite ld_be_16 by lia. cbn [mbind option_bind]. rewrite (proj2 (Z.ltb_ge _ _)) by lia.
  replace (drop (Z.to_nat (108 + 2)) (u ++ be16 (zlen ext) ++ ext ++ more)) with (ext ++ more).
  - by apply extensions_named.
  - rewrite (app_assoc u). rewrite drop_app_length'; [done|]. rewrite length_app. cbn [length be16]. lia.
Qed.

(** C29: the first thing a client of tls1.2_ticket_auth sends names a host to the
    parser, whatever comes behind it: what is left of the list of hosts from one of
    its names on, as an object that holds it; with a list whose rest ends in a digit
    no name is found and the hello is called invalid. *)
Theorem hello_names_host {L : Type} {RLst : RecordList L} {RLL : RecordListLaws L}
    (ticket_malloc : Z -> list Z) (realloc : list Z -> Z -> list Z) (hmac : list Z -> list Z -> list Z) (rand_bytes : Z -> Z -> list Z)
    (time : Z -> Z) {MS : MallocSize ticket_malloc} {RK : ReallocKeeps realloc} {HL : HmacLaws hmac} {RS : RandSize rand_bytes}
    (o : obfs L) m room more :
  handshake_status (l_data o) = 0 -> waiting o [] -> fits m -> zlen (local_client_id (g_data o)) = 32 ->
  name_ok (default (host o) (param (clear_param o))) ->
  exists o' a n w sni, tls12_ticket_auth_client_encode ticket_malloc realloc hmac rand_bytes time o (m ++ room) (zlen m) = Some (o', a, n) /\
    mread a 0 n = Some w /\ sni_of (default (host o) (param (clear_param o))) sni /\
    parse_tls_header signed_char malloc (w ++ more) (zlen w) true
    = if bool_decide (sni = []) then Some (-5, None)
      else match malloc (zlen sni + 1) with Some _ => Some (zlen sni, Some (sni ++ [0])) | None => Some (-4, None) end.
Proof using malloc_fits.
  intros Hst Hw Hm Hid Hname.
  destruct (client_encode_first ticket_malloc realloc hmac rand_bytes time o m room Hst Hw Hm Hid Hname)
    as (tail & r' & sb & a & n & -> & Hr & _ & _ & sni & rnd & Hsni & Hsl & Hrl & ->).
  eexists _, a, n, _, sni. split; [done|]. split; [exact Hr|]. split; [exact Hsni|]. apply (hello_named); try done.
  - by apply length_random_field.
  - destruct Hname as [Hnz _]. destruct Hsni as (p & _ & ->). destruct (ends_in_digit _); [constructor|]. by apply Forall_drop.
Qed.
End Hello.

(** ** The host of an HTTP request *)

Section Request.
Context (malloc : Z -> option (list Z)).
Context (malloc_fits : forall n h, malloc n = Some h -> zlen h = n) (malloc_works : forall n, 0 <= n -> is_Some (malloc n)).

Definition crlf : list Z := [CR; LF].
Definition line_ok (l : list Z) : Prop := Forall (fun c => c <> CR /\ c <> LF /\ c <> 0) l.
Definition request (first : list Z) (headers : list (list Z)) (body : list Z) : list Z :=
  first ++ crlf ++ concat (map (fun h => h ++ crlf) headers) ++ crlf ++ body.

Definition is_host (h : list Z) : bool := bool_decide (map lower (take 5 h) = bytes_of "host:" /\ (5 < length h)%nat).
Fixpoint no_blanks (v : list Z) : list Z :=
  match v with c :: r => if (c =? 32) || (c =? 9) then no_blanks r else v | [] => [] end.
(** Up to the last colon, if there is one. *)
Fixpoint no_port (v : list Z) : option (list Z) :=
  match v with
  | [] => None
  | c :: r => match no_port r with Some p => Some (c :: p) | None => if c =? chr ":" then Some [] else None end
  end.
Definition host_of (h : list Z) : list Z := let v := no_blanks (drop 5 h) in default v (no_port v).

Lemma skip_line_end l d len : line_ok l -> zlen l + 2 <= len -> skip_line (l ++ crlf ++ d) len = Some (crlf ++ d, len - zlen l).
Proof.
  intros Hl. revert len. induction Hl as [|c l (Hc & Hc2 & _) Hl IH]; intros len Hlen; cbn [app skip_line length] in *.
  - rewrite Z.sub_0_r. change (crlf ++ d) with (13 :: 10 :: d). cbn [skip_line]. by destruct (len <=? 2).
  - rewrite (proj2 (Z.leb_gt _ _)), (proj2 (Z.eqb_neq c CR)) by (done || lia).
    destruct (l ++ crlf ++ d) as [|c1 r] eqn:E; [by destruct l; cbn in E|].
    rewrite (proj2 (Z.eqb_neq c1 LF)).
    + rewrite ?E in IH |- *; rewrite IH by lia. f_equal. f_equal. lia.
    + destruct l as [|x l]; cbn in E; injection E as <- _; [done|]. apply Forall_cons in Hl as [(_ & ? & _) _]. done.
Qed.

Lemma header_length_line l d len : forall n, line_ok l -> n + zlen l + 2 <= len -> header_length (l ++ crlf ++ d) len n = Some (n + zlen l).
Proof.
  induction l as [|c l IH]; intros n Hl Hlen; cbn [app header_length length] in *.
  - change (crlf ++ d) with (13 :: 10 :: d). cbn [header_length]. rewrite (proj2 (Z.leb_gt _ _)) by lia. cbn [Z.of_nat]. by rewrite Z.add_0_r.
  - apply Forall_cons in Hl as [(Hc & Hc2 & _) Hl]. rewrite (proj2 (Z.leb_gt _ _)), (proj2 (Z.eqb_neq c CR)) by (done || lia).
    destruct (l ++ crlf ++ d) as [|c1 r] eqn:E; [by destruct l; cbn in E|].
    rewrite (proj2 (Z.eqb_neq c1 LF)).
    + rewrite ?E in IH |- *; rewrite IH by (done || lia). f_equal. lia.
    + destruct l as [|x l]; cbn in E; injection E as <- _; [done|]. apply Forall_cons in Hl as [(_ & ? & _) _]. done.
Qed.

(** From one line to the next. *)
Lemma next_header_line l h d : line_ok l -> line_ok h ->
  next_header (l ++ crlf ++ h ++ crlf ++ d) (zlen (l ++ crlf ++ h ++ crlf ++ d)) = Some (zlen h, h ++ crlf ++ d, zlen (h ++ crlf ++ d)).
Proof.
  intros Hl Hh. unfold next_header. rewrite skip_line_end; [|done|rewrite !length_app; cbn [length crlf]; lia]. cbn [mbind option_bind].
  change (drop 2 (crlf ++ h ++ crlf ++ d)) with (h ++ crlf ++ d).
  replace (zlen (l ++ crlf ++ h ++ crlf ++ d) - zlen l - 2) with (zlen (h ++ crlf ++ d)) by (rewrite !length_app; cbn [length crlf]; lia).
  rewrite header_length_line; [|done|rewrite !length_app; cbn [length crlf]; lia]. done.
Qed.

Lemma same_letters_map header : forall d, (length header <= length d)%nat ->
  same_letters header d = Some (bool_decide (map lower header = map lower (take (length header) d))).
Proof.
  induction header as [|h header IH]; intros d Hd; cbn [same_letters length take map].
  - by rewrite bool_decide_eq_true_2 by (by destruct d).
  - destruct d as [|c d]; [cbn in Hd; lia|]. cbn [take map]. destruct (Z.eqb_spec (lower h) (lower c)) as [E|E].
    + rewrite IH by (cbn in Hd; lia). f_equal. apply bool_decide_ext. rewrite E. split; [by intros ->|by intros [=]].
    + rewrite bool_decide_eq_false_2; [done|]. intros [=]. done.
Qed.

Lemma eat_blanks_spec v d : forall n len, len = n + zlen v ->
  eat_blanks (v ++ d) n len = Some (len - zlen (no_blanks v)).
Proof.
  induction v as [|c v IH]; intros n len Hlen; cbn [app no_blanks length] in *.
  - assert (len = n) as -> by (cbn in Hlen; lia). destruct d; cbn [eat_blanks]; rewrite Z.leb_refl; f_equal; cbn; lia.
  - cbn [eat_blanks]. rewrite (proj2 (Z.leb_gt _ _)) by lia. destruct (_ || _); [apply IH; lia|]. f_equal. cbn [length]. lia.
Qed.

Lemma no_blanks_suffix v : exists p, v = p ++ no_blanks v.
Proof.
  induction v as [|c v [p IH]]; [by exists []|]. cbn [no_blanks]. destruct (_ || _); [|by exists []]. exists (c :: p). cbn. by rewrite <- IH.
Qed.

Lemma last_colon_spec v r : Forall (fun c => c <> 0) v ->
  last_colon (v ++ r) (length v) = Some (length <$> no_port v) /\ forall p, no_port v = Some p -> exists q, v = p ++ 58 :: q.
Proof.
  intros _. assert (forall a b, last_colon (a ++ b ++ r) (length (a ++ b)) = match no_port b with Some p => Some (Some (length a + length p)%nat) | None => last_colon (a ++ b ++ r) (length a) end) as H.
  { intros a b. revert a. induction b as [|c b IH]; intros a; [by rewrite app_nil_r|]. cbn [no_port].
    replace (a ++ (c :: b) ++ r) with ((a ++ [c]) ++ b ++ r) by list_assoc. replace (a ++ c :: b) with ((a ++ [c]) ++ b) by list_assoc. rewrite IH.
    destruct (no_port b) as [p|]; [rewrite length_app; cbn [length]; do 2 f_equal; lia|].
    rewrite length_app. cbn [length]. rewrite Nat.add_1_r. cbn [last_colon]. rewrite <- app_assoc. cbn [app].
    rewrite list_lookup_middle by done. cbn [mbind option_bind]. change (chr ":") with 58. destruct (c =? 58); [|done]. cbn [length]. by rewrite Nat.add_0_r. }
  split.
  - specialize (H [] v). cbn [app length] in H. rewrite H. by destruct (no_port v).
  - induction v as [|c v IH]; intros p Hp; [done|]. cbn [no_port] in Hp. destruct (no_port v) as [p'|].
    + injection Hp as <-. destruct (IH p' eq_refl) as [q ->]. by exists q.
    + destruct (Z.eqb_spec c (chr ":")) as [->|]; [|done]. injection Hp as <-. by exists v.
Qed.
Definition rest_of (headers : list (list Z)) (body : list Z) : list Z := concat (map (fun h => h ++ crlf) headers) ++ crlf ++ body.

Lemma rest_cons h headers body : rest_of (h :: headers) body = h ++ crlf ++ rest_of headers body.
Proof. unfold rest_of. cbn [map concat]. list_assoc. Qed.

Lemma host_header_value h : is_host h = true -> exists p, h = p ++ no_blanks (drop 5 h) /\ zlen h = zlen p + zlen (no_blanks (drop 5 h)) /\ zlen p = zlen h - zlen (no_blanks (drop 5 h)).
Proof.
  intros _. destruct (no_blanks_suffix (drop 5 h)) as [p Hp]. exists (take 5 h ++ p).
  assert (h = (take 5 h ++ p) ++ no_blanks (drop 5 h)) as E by (rewrite <- app_assoc, <- Hp; by rewrite take_drop).
  split; [exact E|]. pose proof (f_equal length E) as El. rewrite length_app in El. split; lia.
Qed.

Lemma get_header_request headers : forall fuel l body, line_ok l -> Forall (fun h => line_ok h /\ h <> []) headers ->
  zlen (l ++ crlf ++ rest_of headers body) < 2 ^ 31 -> (length headers < fuel)%nat ->
  get_header malloc fuel (bytes_of "Host:") (l ++ crlf ++ rest_of headers body) (zlen (l ++ crlf ++ rest_of headers body))
  = match List.find is_host headers with
    | Some h => let v := no_blanks (drop 5 h) in Some (zlen v, Some (v ++ [0]))
    | None => Some (-2, None)
    end.
Proof using malloc_fits malloc_works.
  induction headers as [|h headers IH]; intros fuel l body Hl Hh Hb Hf; (destruct fuel as [|fuel]; [lia|]); cbn [get_header List.find].
  - unfold rest_of. cbn [map concat app]. pose proof (next_header_line l [] body Hl ltac:(constructor)) as Hnext. cbn [app] in Hnext. rewrite Hnext. cbn [mbind option_bind length].
    change (Z.of_nat 0 =? 0) with true. cbv iota. rewrite (proj2 (Z.eqb_neq _ 0)); [done|]. cbn. lia.
  - apply Forall_cons in Hh as [[Hh Hne] Hhs]. rewrite rest_cons in *. rewrite next_header_line by done. cbn [mbind option_bind].
    assert (0 < zlen h) by (destruct h; [done|cbn; lia]). rewrite (proj2 (Z.eqb_neq _ 0)) by lia. change (zlen (bytes_of "Host:")) with 5.
    assert (zlen (h ++ crlf ++ rest_of headers body) < 2 ^ 31) as Hb' by (rewrite !length_app in Hb; rewrite !length_app; lia).
    assert (((if 5 <? zlen h then same_letters (bytes_of "Host:") (h ++ crlf ++ rest_of headers body) else Some false)) = Some (is_host h)) as ->.
    { unfold is_host. destruct (Z.ltb_spec 5 (zlen h)).
      - rewrite same_letters_map by (rewrite length_app; change (length (bytes_of "Host:")) with 5%nat; lia). f_equal. apply bool_decide_ext.
        change (length (bytes_of "Host:")) with 5%nat. rewrite take_app_le by lia. change (map lower (bytes_of "Host:")) with (bytes_of "host:").
        split; [intros ->; split; [done|lia]|by intros [-> _]].
      - rewrite bool_decide_eq_false_2; [done|]. intros [_ ?]. lia. }
    cbn [mbind option_bind]. destruct (is_host h) eqn:E.
    + destruct (host_header_value h E) as (p & Ep & Hlen & Hpl). unfold is_host in E. apply bool_decide_eq_true in E as [_ E].
      change (length (bytes_of "Host:")) with 5%nat. rewrite drop_app_le by lia.
      rewrite eat_blanks_spec by (rewrite length_drop; lia). cbn [mbind option_bind]. cbv zeta.
      set (v := no_blanks (drop 5 h)) in *. rewrite Z.sub_sub_distr, Z.sub_diag, Z.add_0_l.
      replace (drop (Z.to_nat (zlen h - zlen v)) (h ++ crlf ++ rest_of headers body)) with (v ++ crlf ++ rest_of headers body).
      2: { rewrite Ep at 2. rewrite <- app_assoc. rewrite drop_app_length'; [done|lia]. }
      rewrite (copy_name_string malloc malloc_fits); [by destruct (malloc_works (zlen v + 1) ltac:(lia)) as [? ->]| |rewrite !length_app in Hb'; lia].
      unfold line_ok in Hh. rewrite Ep in Hh. apply Forall_app in Hh as [_ Hh]. eapply Forall_imp; [exact Hh|]. by intros c (_ & _ & ?).
    + apply IH; [done|done|done|cbn [length] in Hf; lia].
Qed.

(** C31: in a request that is all there the name found is the value of the first
    header that is called Host in any letters, without leading blanks and from the
    last colon on; without such a header the code says so. *)
Theorem http_host_found first headers body :
  line_ok first -> Forall (fun h => line_ok h /\ h <> []) headers -> zlen (request first headers body) < 2 ^ 31 ->
  match List.find is_host headers with
  | Some h => exists obj, parse_http_header malloc (request first headers body) (zlen (request first headers body)) true
                  = Some (zlen (host_of h), Some obj) /\ cstr obj = Some (host_of h)
  | None => parse_http_header malloc (request first headers body) (zlen (request first headers body)) true = Some (-2, None)
  end.
Proof using malloc_fits malloc_works.
  intros Hl Hh Hb. unfold parse_http_header. cbn [negb]. change (request first headers body) with (first ++ crlf ++ rest_of headers body) in *.
  set (d := first ++ crlf ++ rest_of headers body) in *.
  assert (2 * zlen headers < zlen d) as Hfuel.
  { subst d. clear -Hh. rewrite !length_app. cbn [length crlf]. enough (2 * length headers <= length (rest_of headers body))%nat by lia.
    induction Hh as [|h hs [_ Hne] _ IH]; [cbn; lia|]. rewrite rest_cons, !length_app. cbn [length crlf]. destruct h; [done|]. cbn [length]. lia. }
  rewrite (proj2 (Z.eqb_neq _ 0)) by lia. subst d. rewrite get_header_request by (done || lia).
  destruct (List.find is_host headers) as [h|] eqn:E; cbn [mbind option_bind]; [|done].
  cbv zeta. rewrite (proj2 (Z.ltb_ge _ 0)) by lia. unfold host_of. cbv zeta.
  assert (Forall (fun c => c <> 0) (no_blanks (drop 5 h))) as Hnz.
  { apply List.find_some in E as [E Eh]. apply list_elem_of_In in E. rewrite Forall_forall in Hh. destruct (Hh _ E) as [Hok _].
    destruct (host_header_value h Eh) as (p & Ep & _). unfold line_ok in Hok. rewrite Ep in Hok. apply Forall_app in Hok as [_ Hok].
    eapply Forall_imp; [exact Hok|]. by intros c (_ & _ & ?). }
  set (v := no_blanks (drop 5 h)) in *. rewrite Nat2Z.id. destruct (last_colon_spec v [0] Hnz) as [-> Hp].
  cbn [mbind option_bind]. destruct (no_port v) as [p|]; cbn [fmap option_fmap option_map default from_option]; unfold Datatypes.id.
  - destruct (Hp p eq_refl) as [q Eq]. eexists. split; [done|]. rewrite Eq. rewrite <- app_assoc. rewrite insert_app_r_alt, Nat.sub_diag by lia.
    cbn [app insert list_insert]. apply cstr_app. rewrite Eq in Hnz. by apply Forall_app in Hnz as [? _].
  - eexists. split; [done|]. by apply cstr_app.
Qed.
End Request.

(** ** Concrete data *)

Definition toy_malloc (n : Z) : option (list Z) := if 0 <=? n then Some (replicate (Z.to_nat n) 170) else None.
Lemma toy_malloc_fits n h : toy_malloc n = Some h -> zlen h = n.
Proof. unfold toy_malloc. destruct (Z.leb_spec 0 n); [|done]. intros [= <-]. rewrite length_replicate. lia. Qed.
Lemma toy_malloc_works n : 0 <= n -> is_Some (toy_malloc n).
Proof. intros Hn. unfold toy_malloc. rewrite (proj2 (Z.leb_le 0 n)) by done. by eexists. Qed.

Lemma host_parsers_sound_witness :
  sound_name (parse_tls_header true toy_malloc [22; 3; 1; 0; 200; 1] 6 true) /\
  sound_name (parse_http_header toy_malloc [22; 3; 1; 0; 200; 1] 6 true).
Proof.
  apply (host_parsers_sound true toy_malloc toy_malloc_fits [22; 3; 1; 0; 200; 1]).
  - repeat constructor; lia.
  - vm_compute. reflexivity.
Defined.

Lemma hello_names_host_witness :
  let o := Ticket.tls12_ticket_auth_new_obfs Ticket.zeros Ticket.toy_rand id (bytes_of "a.b,c.d") None [1; 2; 3] ([] : list (list Z)) (1, 2) 100 in
  exists o' a n w sni, Ticket.tls12_ticket_auth_client_encode Ticket.zeros Ticket.resize Ticket.toy_hmac Ticket.toy_rand id o ([7; 8] ++ []) 2 = Some (o', a, n) /\
    mread a 0 n = Some w /\ Handshake.sni_of (bytes_of "a.b,c.d") sni /\
    parse_tls_header true toy_malloc (w ++ [5; 6]) (zlen w) true
    = if bool_decide (sni = []) then Some (-5, None)
      else match toy_malloc (zlen sni + 1) with Some _ => Some (zlen sni, Some (sni ++ [0])) | None => Some (-4, None) end.
Proof.
  intros o. apply (hello_names_host true toy_malloc toy_malloc_fits Ticket.zeros Ticket.resize Ticket.toy_hmac Ticket.toy_rand id o [7; 8] [] [5; 6]); try done.
  - exists []. split_and!; [done|by apply prefix_nil|done].
  - split; [repeat constructor; discriminate|vm_compute; lia].
Defined.

Lemma http_host_found_witness :
  exists obj, parse_http_header toy_malloc
      (request (bytes_of "GET / HTTP/1.1") [bytes_of "Accept: x"; bytes_of "hOST:  a.example:8080"; bytes_of "Host: b"] [1; 2])
      (zlen (request (bytes_of "GET / HTTP/1.1") [bytes_of "Accept: x"; bytes_of "hOST:  a.example:8080"; bytes_of "Host: b"] [1; 2])) true
    = Some (9, Some obj) /\ cstr obj = Some (bytes_of "a.example").
Proof.
  apply (http_host_found toy_malloc toy_malloc_fits toy_malloc_works (bytes_of "GET / HTTP/1.1")
    [bytes_of "Accept: x"; bytes_of "hOST:  a.example:8080"; bytes_of "Host: b"] [1; 2]).
  - repeat constructor; discriminate.
  - repeat constructor; discriminate.
  - vm_compute. reflexivity.
Defined.

End HostNames.
