(* ===== verification/Datagrams.v ===== *)
(** * Datagrams: the ciphers of shadowsocksr-libev under its datagram relay

    The interface between the datagram relay and the ciphers: the class
    [PacketCipher] of the two functions that the relay calls, [PacketCipherLaws] with
    what it relies on, and the proof that [ss_encrypt_all] and [ss_decrypt_all] of
    Crypt.v keep those laws for every method but the table.  There each call has a
    static buffer, a random vector and a new context of its own; the state is the
    number of calls so far. *)

From S2P Require Import Prelude Libc Cache Ota Relay Crypt.

Import Libc Ota Crypt.

#[local] Notation zlen l := (Z.of_nat (length l)).
#[local] Arguments Z.eqb : simpl never.
#[local] Arguments Z.leb : simpl never.
#[local] Arguments Z.ltb : simpl never.

Module Datagrams.

(** ** The interface *)

(** [ss_encrypt_all(buf, method, auth, capacity)] and [ss_decrypt_all]: what they
    return, the buffer if it is still there.  [C] is what they keep: the static
    buffers and the source of vectors. *)
Class PacketCipher (C : Type) := {
  ss_encrypt_all : C -> buffer_t -> bool -> Z -> option (C * Z * option buffer_t);
  ss_decrypt_all : C -> buffer_t -> bool -> Z -> option (C * Z * option buffer_t) }.

Definition buf_ok (b : buffer_t) : Prop := 0 <= len b <= zlen (array b) /\ zlen (array b) < 2 ^ 28 /\ is_bytes (array b).

(** What the relay relies on in the ciphers.  They are defined on every buffer; a
    good result is a buffer that is not smaller than before; and what one side
    encrypts, with a MAC when the flag in the first byte or [auth] asks for it, the
    other side decrypts. *)
Class PacketCipherLaws (C : Type) `{PacketCipher C} (overhead : Z) := {
  decrypt_defined c b auth cap : buf_ok b -> 0 <= cap < 2 ^ 28 -> exists c' err r, ss_decrypt_all c b auth cap = Some (c', err, r) /\
    (err = 0 -> exists b', r = Some b' /\ buf_ok b' /\ zlen (array b) <= zlen (array b'));
  encrypt_defined c b cap : buf_ok b -> len b + overhead <= cap < 2 ^ 28 -> exists c' err r, ss_encrypt_all c b false cap = Some (c', err, r) /\
    (err = 0 -> exists b', r = Some b' /\ buf_ok b');
  packet_roundtrip c b m auth cap : holds b m -> m <> [] -> is_bytes m -> zlen m + overhead <= cap < 2 ^ 28 ->
    exists c' b' w, ss_encrypt_all c b (auth || negb (Z.land (hd 0 m) Relay.ONETIMEAUTH_FLAG =? 0)) cap = Some (c', 0, Some b') /\ holds b' w /\
      is_bytes w /\ zlen w <= zlen m + overhead /\
      forall c2 b2 cap2, holds b2 w -> 0 <= cap2 < 2 ^ 28 ->
        exists c2' b3, ss_decrypt_all c2 b2 auth cap2 = Some (c2', 0, Some b3) /\ holds b3 m }.

(** ** Lemmas on blocks *)

Lemma bytes_mread b i n vs : mread b i n = Some vs -> is_bytes b -> is_bytes vs.
Proof. unfold mread. case_bool; [|done]. intros [= <-] Hb. by apply Forall_take, Forall_drop. Qed.

Lemma bytes_mwrite b i vs b' : mwrite b i vs = Some b' -> is_bytes b -> is_bytes vs -> is_bytes b'.
Proof.
  unfold mwrite. case_bool; [|done]. intros [= <-] Hb Hv. apply Forall_app; split; [by apply Forall_take|].
  apply Forall_app; split; [done|by apply Forall_drop].
Qed.

Lemma holds_all b : 0 <= len b <= zlen (array b) -> zlen (array b) < 2 ^ 30 -> holds b (take (Z.to_nat (len b)) (array b)).
Proof. intros Hl Hs. split_and!; [rewrite length_take; lia|apply prefix_take|done]. Qed.

Section Datagrams.
Context (realloc : list Z -> Z -> list Z) {RL : ReallocLaws realloc} (realloc_bytes : forall a n, is_bytes a -> is_bytes (realloc a n)).
Context (md5 : list Z -> list Z).
Context {E : Type} (EVP_CipherInit : E -> list Z -> list Z -> bool -> E) (EVP_CipherUpdate : E -> list Z -> option (list Z * E)).
Context (stream_xor_ic : Z -> list Z -> list Z -> Z -> list Z -> list Z).
Context (enc_method enc_iv_len : Z) (enc_key : list Z).
Context {SL : SodiumLaws stream_xor_ic enc_method enc_key} {EL : EvpLaws EVP_CipherInit EVP_CipherUpdate}.
Context (update_bytes : forall e m x e', EVP_CipherUpdate e m = Some (x, e') -> is_bytes m -> is_bytes x).
Context (hmac : list Z -> list Z -> list Z) {HL : HmacLaws hmac}.
Context (globals : globals_ok enc_method enc_iv_len enc_key).
(** What a call works with: the static buffer, the vector, the new context with the
    array of its vector. *)
Context (static : nat -> buffer_t) (vector : nat -> list Z) (fresh : nat -> E * list Z).
Context (static_ok : forall k, zlen (array (static k)) < 2 ^ 28 /\ is_bytes (array (static k))).
Context (vector_ok : forall k, length (vector k) = 16%nat /\ is_bytes (vector k)) (fresh_ok : forall k, length (snd (fresh k)) = 16%nat).

Notation encrypt_all k b auth cap :=
  (Crypt.ss_encrypt_all realloc md5 EVP_CipherInit EVP_CipherUpdate stream_xor_ic enc_method enc_iv_len enc_key hmac
     [] (static k) b enc_method auth (fst (fresh k)) (vector k) (snd (fresh k)) cap).
Notation decrypt_all k b auth cap :=
  (Crypt.ss_decrypt_all realloc md5 EVP_CipherInit EVP_CipherUpdate stream_xor_ic enc_method enc_iv_len enc_key hmac
     [] (static k) b enc_method auth (fst (fresh k)) (snd (fresh k)) cap).

Definition crypt_cipher : PacketCipher nat := {|
  ss_encrypt_all := fun k b auth cap => '(err, r) ← encrypt_all k b auth cap; Some (S k, err, r);
  ss_decrypt_all := fun k b auth cap => '(err, r) ← decrypt_all k b auth cap; Some (S k, err, r) |}.

Lemma brealloc_bytes b n cap : is_bytes (array b) -> is_bytes (array (brealloc realloc b n cap)).
Proof using realloc_bytes. intros Hb. unfold brealloc. case_bool; [by apply realloc_bytes|done]. Qed.

(** The result goes into the caller's buffer, which does not shrink. *)
Lemma copied b src n cap : buf_ok b -> 0 <= cap < 2 ^ 28 -> 0 <= n <= zlen src -> zlen src < 2 ^ 30 -> n < 2 ^ 28 -> is_bytes src ->
  exists b', copy_back realloc b src n cap = Some b' /\ buf_ok b' /\ zlen (array b) <= zlen (array b').
Proof using RL realloc_bytes.
  intros (Hl & Hs & Hb) Hcap Hn Hsrc Hn28 Hbs.
  destruct (copy_back_spec realloc b src (take (Z.to_nat n) src) cap (prefix_take _ _) Hsrc ltac:(lia) ltac:(lia)) as (b' & E1 & (Hlb & _) & Hla).
  assert (zlen (take (Z.to_nat n) src) = n) as Hz by (rewrite length_take; lia). rewrite Hz in *. exists b'. split; [done|]. split; [|lia].
  split_and!; [lia|lia|lia|]. revert E1. unfold copy_back. destruct (mread src 0 n) as [x|] eqn:Ex; [|done]. cbn [mbind option_bind].
  destruct (mwrite _ 0 x) as [a|] eqn:Ea; [|done]. intros [= <-]. cbn [array]. eapply bytes_mwrite; [done|by apply brealloc_bytes|by eapply bytes_mread].
Qed.

(** The cipher from the start of its stream: as many bytes as it got. *)
Lemma cipher_start (m iv : list Z) : is_bytes m -> zlen m < 2 ^ 30 -> length iv = Z.to_nat enc_iv_len \/ length iv = 16%nat ->
  SALSA20 <= enc_method -> exists c, crypto_stream_xor_ic stream_xor_ic enc_iv_len enc_key m iv 0 enc_method = Some c /\ length c = length m /\ is_bytes c.
Proof using SL globals.
  intros Hm Hs Hiv He. pose proof globals as (_ & Hr & _). unfold crypto_stream_xor_ic. rewrite mread_in by lia. cbn [mbind option_bind].
  replace (if enc_method =? CHACHA20IETF then u32 0 else 0) with 0 by (by case_match).
  rewrite (stream_xor stream_xor_ic enc_method enc_key) by done. eexists. split; [done|]. rewrite xor_ks_length. split; [done|].
  apply xor_ks_bytes; [|done]. intros q. apply (ks_range stream_xor_ic enc_method enc_key).
Qed.

Lemma encrypt_total k b cap : buf_ok b -> len b + (enc_iv_len + 10) <= cap < 2 ^ 28 ->
  exists err r, encrypt_all k b false cap = Some (err, r) /\ (err = 0 -> exists b', r = Some b' /\ buf_ok b').
Proof using RL SL EL HL globals static_ok vector_ok fresh_ok realloc_bytes update_bytes.
  intros Hb Hcap. pose proof Hb as (Hl & Hs & Hbb). pose proof globals as (Hm & Hiv & Hk). destruct (static_ok k) as [Hst Hstb]. destruct (vector_ok k) as [Hv Hvb].
  unfold Crypt.ss_encrypt_all. rewrite (proj2 (Z.ltb_lt _ _) Hm).
  pose proof (brealloc_length realloc (static k) (enc_iv_len + len b) cap) as Htl. pose proof (brealloc_bytes (static k) (enc_iv_len + len b) cap Hstb) as Htb.
  set (tmp := brealloc realloc (static k) _ cap) in *. destruct (mread (vector k) 0 enc_iv_len) as [ivb|] eqn:Eiv; [|rewrite mread_in in Eiv by lia; done].
  pose proof (mread_length _ _ _ _ Eiv) as Hivl. cbn [mbind option_bind].
  destruct (set_iv_both md5 EVP_CipherInit EVP_CipherUpdate enc_method enc_iv_len enc_key (fst (fresh k)) (fst (fresh k)) ivb (snd (fresh k)) globals) as (es & er & ivr' & Hes & _);
    [lia|apply fresh_ok|]. rewrite Hes. cbn [mbind option_bind].
  destruct (mwrite (array tmp) 0 ivb) as [a|] eqn:Ea; [|rewrite mwrite_in in Ea by lia; done]. cbn [mbind option_bind].
  pose proof (mwrite_length _ _ _ _ Ea) as Hal. pose proof (bytes_mwrite _ _ _ _ Ea Htb (bytes_mread _ _ _ _ Eiv Hvb)) as Hab.
  destruct (mread (array b) 0 (len b)) as [m|] eqn:Em; [|rewrite mread_in in Em by lia; done]. cbn [mbind option_bind].
  pose proof (mread_length _ _ _ _ Em) as Hml. pose proof (bytes_mread _ _ _ _ Em Hbb) as Hmb.
  assert (forall c, length c = length m -> is_bytes c -> exists b', (a ← mwrite a enc_iv_len c; plain ← copy_back realloc b a (enc_iv_len + zlen c) cap; Some (0, Some plain)) = Some (0, Some b') /\ buf_ok b') as Hout.
  { intros c Hc Hcb. destruct (mwrite a enc_iv_len c) as [a2|] eqn:Ea2; [|rewrite mwrite_in in Ea2 by lia; done]. cbn [mbind option_bind].
    pose proof (mwrite_length _ _ _ _ Ea2). destruct (copied b a2 (enc_iv_len + zlen c) cap) as (b' & -> & Hb' & _); try lia; [done|by eapply bytes_mwrite|]. by exists b'. }
  destruct (SALSA20 <=? enc_method) eqn:Es; zify_bool.
  - destruct (cipher_start m (vector k)) as (c & -> & Hc & Hcb); [done|lia|by right|done|]. cbn [mbind option_bind].
    destruct (Hout c Hc Hcb) as (b' & -> & Hb'). eexists _, _. split; [done|]. eauto.
  - cbn [mbind option_bind]. destruct (EVP_CipherUpdate es m) as [[c e']|] eqn:Eu; cbn [fmap option_fmap option_map fst].
    + destruct (Hout c) as (b' & -> & Hb'); [by eapply update_length|by eapply update_bytes|]. eexists _, _. split; [done|]. eauto.
    + eexists _, _. split; [done|]. done.
Qed.

(** The check of a MAC, where there is room for one. *)
Lemma verify_total iv b : IvFits enc_iv_len iv -> 10 < len b <= zlen (array b) -> zlen (array b) < 2 ^ 30 ->
  exists v, ss_onetimeauth_verify hmac enc_iv_len enc_key iv b = Some v.
Proof using HL.
  intros HIV Hl Hs. pose proof (holds_all b ltac:(lia) Hs) as Hh. set (d := take _ _) in Hh.
  assert (zlen d = len b) as Hd by (unfold d; rewrite length_take; lia). rewrite <- (take_drop (length d - 10) d) in Hh.
  eexists. eapply (onetimeauth_verify_holds hmac enc_iv_len enc_key iv); [exact Hh|]. rewrite length_drop. lia.
Qed.

Lemma decrypt_total k b auth cap : buf_ok b -> 0 <= cap < 2 ^ 28 ->
  exists err r, decrypt_all k b auth cap = Some (err, r) /\
    (err = 0 -> exists b', r = Some b' /\ buf_ok b' /\ zlen (array b) <= zlen (array b')).
Proof using RL SL EL HL globals static_ok fresh_ok realloc_bytes update_bytes.
  intros Hb Hcap. pose proof Hb as (Hl & Hs & Hbb). pose proof globals as (Hm & Hiv & Hk). destruct (static_ok k) as [Hst Hstb].
  unfold Crypt.ss_decrypt_all. rewrite (proj2 (Z.ltb_lt _ _) Hm). case_bool; [eexists _, _; by split|].
  pose proof (brealloc_length realloc (static k) (len b) cap) as Htl. pose proof (brealloc_bytes (static k) (len b) cap Hstb) as Htb.
  set (tmp := brealloc realloc (static k) _ cap) in *. destruct (mread (array b) 0 enc_iv_len) as [ivb|] eqn:Eiv; [|rewrite mread_in in Eiv by lia; done].
  pose proof (mread_length _ _ _ _ Eiv) as Hivl. cbn [mbind option_bind].
  destruct (set_iv_both md5 EVP_CipherInit EVP_CipherUpdate enc_method enc_iv_len enc_key (fst (fresh k)) (fst (fresh k)) ivb (snd (fresh k)) globals) as (es & er & ivr' & _ & Her & _);
    [lia|apply fresh_ok|]. rewrite Her. cbn [mbind option_bind].
  destruct (mread (array b) enc_iv_len (len b - enc_iv_len)) as [m|] eqn:Em; [|rewrite mread_in in Em by lia; done]. cbn [mbind option_bind].
  pose proof (mread_length _ _ _ _ Em) as Hml. pose proof (bytes_mread _ _ _ _ Em Hbb) as Hmb.
  assert (forall c, length c = length m -> is_bytes c -> exists a, mwrite (array tmp) 0 c = Some a /\ length a = length (array tmp) /\ is_bytes a) as Hout.
  { intros c Hc Hcb. destruct (mwrite (array tmp) 0 c) as [a|] eqn:Ea; [|rewrite mwrite_in in Ea by lia; done].
    exists a. split_and!; [done|by eapply mwrite_length|by eapply bytes_mwrite]. }
  match goal with |- exists _ _, mbind _ ?x = _ /\ _ => assert (exists ret a, x = Some (ret, mkBuf a (len b - enc_iv_len)) /\ length a = length (array tmp) /\ is_bytes a) as (ret & a & -> & Hal & Hab) end.
  { destruct (SALSA20 <=? enc_method) eqn:Es; zify_bool.
    - destruct (cipher_start m ivb) as (c & -> & Hc & Hcb); [done|lia|left; lia|done|]. cbn [mbind option_bind].
      destruct (Hout c Hc Hcb) as (a & -> & ? & ?). cbn [mbind option_bind]. by exists 1, a.
    - destruct (EVP_CipherUpdate er m) as [[c e']|] eqn:Eu; [|by exists 0, (array tmp)]. pose proof (update_length _ _ _ _ _ _ Eu) as Hcl.
      destruct (Hout c Hcl ltac:(by eapply update_bytes)) as (a & -> & ? & ?). cbn [mbind option_bind]. exists 1, a. split_and!; try done. do 3 f_equal. lia. }
  cbn [mbind option_bind array len]. destruct (rd a 0) as [b0|] eqn:Eb0; [|destruct a; [cbn in Hal; lia|done]]. cbn [mbind option_bind].
  match goal with |- exists _ _, mbind _ ?x = _ /\ _ => assert (exists ret n, x = Some (ret, mkBuf a n) /\ 0 <= n <= len b - enc_iv_len) as (ret2 & n & -> & Hn) end.
  { destruct (auth || _); [|exists ret, (len b - enc_iv_len); split; [done|lia]]. unfold ONETIMEAUTH_BYTES. case_bool; [|exists 0, (len b - enc_iv_len); split; [done|lia]].
    destruct (verify_total ivb (mkBuf a (len b - enc_iv_len))) as [v ->]; [split; lia|cbn [len array]; lia|cbn [array]; lia|]. cbn [mbind option_bind].
    destruct (v =? 0); eexists _, _; (split; [done|]); lia. }
  cbn [mbind option_bind array len]. case_bool; [eexists _, _; by split|].
  destruct (copied b a n cap) as (b' & -> & Hb' & Hgrow); try lia; [done..|]. cbn [mbind option_bind]. eexists _, _. split; [done|]. eauto.
Qed.

Lemma crypt_cipher_laws : @PacketCipherLaws nat crypt_cipher (enc_iv_len + 10).
Proof using RL SL EL HL globals static_ok vector_ok fresh_ok realloc_bytes update_bytes.
  split; cbn [ss_encrypt_all ss_decrypt_all crypt_cipher].
  - intros k b auth cap Hb Hcap. destruct (decrypt_total k b auth cap Hb Hcap) as (err & r & -> & Hr). cbn [mbind option_bind]. eexists _, _, _. split; [done|done].
  - intros k b cap Hb Hcap. destruct (encrypt_total k b cap Hb Hcap) as (err & r & -> & Hr). cbn [mbind option_bind]. eexists _, _, _. split; [done|done].
  - intros k b m auth cap Hh Hne Hmb Hcap. destruct (static_ok k) as [Hst Hstb]. destruct (vector_ok k) as [Hv Hvb]. pose proof globals as (_ & Hiv & _).
    change Relay.ONETIMEAUTH_FLAG with ONETIMEAUTH_FLAG. destruct (datagram_roundtrip realloc md5 EVP_CipherInit EVP_CipherUpdate stream_xor_ic enc_method enc_iv_len enc_key hmac [] [] (static k) b
      (fst (fresh k)) (vector k) (snd (fresh k)) m auth cap) as (b' & w & -> & Hw & Hwb & Hwl & Hd);
      [done|done|done|done|done|lia|lia|]. cbn [mbind option_bind]. exists (S k), b', w. split_and!; [done|done|by apply Hwb|lia|].
    intros k2 b2 cap2 Hb2 Hcap2. destruct (Hd (static k2) b2 (fst (fresh k2)) (snd (fresh k2)) cap2) as (b3 & -> & Hb3);
      [done|destruct (static_ok k2); lia|apply fresh_ok|done|]. cbn [mbind option_bind]. by exists (S k2), b3.
Qed.

End Datagrams.
End Datagrams.
