(* ===== verification/Resolv.v ===== *)
(** * Resolv: the name queries of the shadowsocksr-libev server

    Models src/server/resolv.c: a query asks for IPv4 and for IPv6 addresses, the
    answers come in any order, each may fail, and when both are there the client's
    callback gets one address, chosen by the mode.

    An address is a C object, a [struct sockaddr_in] or [sockaddr_in6] in the layout
    of Linux on a little-endian machine: family, port and address at their offsets,
    and what the allocation held elsewhere.  The answers are what the DNS library
    gives its callbacks; [malloc] is a parameter. *)

From S2P Require Import Prelude Libc.

Import Libc.

Module Resolv.

Definition AF_UNSPEC : Z := 0.
Definition AF_INET : Z := 2.
Definition AF_INET6 : Z := 10.

Definition MODE_IPV4_ONLY : Z := 0.
Definition MODE_IPV6_ONLY : Z := 1.
Definition MODE_IPV4_FIRST : Z := 2.
Definition MODE_IPV6_FIRST : Z := 3.

(** The members of an address and how they are set: the rest of the object is left
    as it was. *)
Definition family_bytes (f : Z) : list Z := [f; 0].
Definition sa_family (obj : list Z) : Z := match obj with b0 :: b1 :: _ => b0 + 256 * b1 | _ => 0 end.
Definition set_sin (port addr obj : list Z) : list Z := family_bytes AF_INET ++ port ++ addr ++ drop 8 obj.
Definition set_sin6 (port addr obj : list Z) : list Z :=
  family_bytes AF_INET6 ++ port ++ take 4 (drop 4 obj) ++ addr ++ drop 24 obj.
Definition sin_port (obj : list Z) : list Z := take 2 (drop 2 obj).
Definition sin_addr (obj : list Z) : list Z := take 4 (drop 4 obj).
Definition sin6_addr (obj : list Z) : list Z := take 16 (drop 8 obj).

(** [queries]: whether each of the two is on its way. *)
Record ResolvQuery := mkQuery {
  queries : bool * bool; responses : list (list Z); port : list Z }.

(** What [resolv_query] returns: a query under way, or one that it has freed. *)
Inductive handle := Live (q : ResolvQuery) | Freed.

(** A callback of the library ends with the query waiting for the other answer, or
    with the client's callback, behind which the query is freed. *)
Inductive progress := Waiting (q : ResolvQuery) | Called (best_address : option (list Z)).

Section Resolv.
Context (malloc : Z -> list Z) (resolv_mode : Z).

Definition all_queries_are_null (q : ResolvQuery) : bool := negb (fst (queries q)) && negb (snd (queries q)).

Definition choose_any (q : ResolvQuery) : option (list Z) := head (responses q).

Definition choose_ipv4_first (q : ResolvQuery) : option (list Z) :=
  match List.find (fun sa => sa_family sa =? AF_INET) (responses q) with
  | Some sa => Some sa
  | None => choose_any q
  end.

Definition choose_ipv6_first (q : ResolvQuery) : option (list Z) :=
  match List.find (fun sa => sa_family sa =? AF_INET6) (responses q) with
  | Some sa => Some sa
  | None => choose_any q
  end.

(** [process_client_callback]: what the client's callback is called with. *)
Definition process_client_callback (q : ResolvQuery) : option (list Z) :=
  if resolv_mode =? MODE_IPV4_FIRST then choose_ipv4_first q
  else if resolv_mode =? MODE_IPV6_FIRST then choose_ipv6_first q
  else choose_any q.

(** [submit4], [submit6]: whether the library took the queries. *)
Definition resolv_query (submit4 submit6 : bool) (port : list Z) : handle :=
  let q := mkQuery (negb (resolv_mode =? MODE_IPV6_ONLY) && submit4, negb (resolv_mode =? MODE_IPV4_ONLY) && submit6) [] port in
  if all_queries_are_null q then Freed else Live q.

Definition completed (q : ResolvQuery) : progress :=
  if all_queries_are_null q then Called (process_client_callback q) else Waiting q.

Definition dns_query_v4_cb (result : option (list (list Z))) (q : ResolvQuery) : progress :=
  let rs := match result with
            | None => []
            | Some dnsa4_addr => map (fun a => set_sin (port q) a (malloc 16)) dnsa4_addr
            end in
  completed (mkQuery (false, snd (queries q)) (responses q ++ rs) (port q)).

Definition dns_query_v6_cb (result : option (list (list Z))) (q : ResolvQuery) : progress :=
  let rs := match result with
            | None => []
            | Some dnsa6_addr => map (fun a => set_sin6 (port q) a (malloc 28)) dnsa6_addr
            end in
  completed (mkQuery (fst (queries q), false) (responses q ++ rs) (port q)).

(** ** Answers *)

Definition in4 (port : list Z) (r : option (list (list Z))) : list (list Z) :=
  map (fun a => set_sin port a (malloc 16)) (default [] r).
Definition in6 (port : list Z) (r : option (list (list Z))) : list (list Z) :=
  map (fun a => set_sin6 port a (malloc 28)) (default [] r).

(** The first address of the family that is preferred, or of the other. *)
Definition preferred (port : list Z) (r4 r6 : option (list (list Z))) : option (list Z) :=
  if resolv_mode =? MODE_IPV6_FIRST then head (in6 port r6 ++ in4 port r4) else head (in4 port r4 ++ in6 port r6).

Lemma find_all {A} (f : A -> bool) l : Forall (fun x => f x = true) l -> List.find f l = head l.
Proof using. intros H. destruct H as [|x l Hx _]; cbn; [done|]. by rewrite Hx. Qed.
Lemma find_none_of {A} (f : A -> bool) l : Forall (fun x => f x = false) l -> List.find f l = None.
Proof using. induction 1 as [|x l Hx _ IH]; cbn; [done|]. by rewrite Hx. Qed.
Lemma find_in_app {A} (f : A -> bool) a b : List.find f (a ++ b) = match List.find f a with Some x => Some x | None => List.find f b end.
Proof using. induction a as [|x a IH]; cbn; [done|]. by destruct (f x). Qed.

Lemma in4_family port r : Forall (fun sa => sa_family sa = AF_INET) (in4 port r).
Proof using. apply Forall_map. by apply Forall_true. Qed.
Lemma in6_family port r : Forall (fun sa => sa_family sa = AF_INET6) (in6 port r).
Proof using. apply Forall_map. by apply Forall_true. Qed.

Lemma choice_of a b f : Forall (fun sa => (sa_family sa =? f) = true) a -> Forall (fun sa => (sa_family sa =? f) = false) b ->
  List.find (fun sa => sa_family sa =? f) (a ++ b) = head a /\ List.find (fun sa => sa_family sa =? f) (b ++ a) = head a.
Proof using. intros Ha Hb. rewrite !find_in_app, (find_none_of _ b), (find_all _ a) by done. by destruct a. Qed.

Lemma head_both {A} (a b : list A) : (match head a with Some x => Some x | None => head (a ++ b) end) = head (a ++ b) /\
  (match head a with Some x => Some x | None => head (b ++ a) end) = head (a ++ b).
Proof using. destruct a; cbn; [by rewrite app_nil_r|done]. Qed.

Lemma process_both q4 port r4 r6 : resolv_mode = MODE_IPV4_FIRST \/ resolv_mode = MODE_IPV6_FIRST ->
  process_client_callback (mkQuery q4 (in4 port r4 ++ in6 port r6) port) = preferred port r4 r6 /\
  process_client_callback (mkQuery q4 (in6 port r6 ++ in4 port r4) port) = preferred port r4 r6.
Proof using.
  assert (Forall (fun sa => (sa_family sa =? AF_INET) = true) (in4 port r4)) by (eapply Forall_imp; [apply in4_family|]; by intros ? ->).
  assert (Forall (fun sa => (sa_family sa =? AF_INET6) = false) (in4 port r4)) by (eapply Forall_imp; [apply in4_family|]; by intros ? ->).
  assert (Forall (fun sa => (sa_family sa =? AF_INET6) = true) (in6 port r6)) by (eapply Forall_imp; [apply in6_family|]; by intros ? ->).
  assert (Forall (fun sa => (sa_family sa =? AF_INET) = false) (in6 port r6)) by (eapply Forall_imp; [apply in6_family|]; by intros ? ->).
  unfold process_client_callback, preferred, choose_ipv4_first, choose_ipv6_first, choose_any. cbn [responses].
  intros [-> | ->]; cbn [Z.eqb MODE_IPV4_FIRST MODE_IPV6_FIRST Pos.eqb].
  - destruct (choice_of (in4 port r4) (in6 port r6) AF_INET) as [-> ->]; [done..|]. apply head_both.
  - destruct (choice_of (in6 port r6) (in4 port r4) AF_INET6) as [-> ->]; [done..|]. destruct (head_both (in6 port r6) (in4 port r4)). done.
Qed.

Lemma query_taken b1 b2 port : resolv_mode = MODE_IPV4_FIRST \/ resolv_mode = MODE_IPV6_FIRST -> b1 || b2 = true ->
  resolv_query b1 b2 port = Live (mkQuery (b1, b2) [] port).
Proof using. unfold resolv_query. intros [-> | ->]; by destruct b1, b2. Qed.

Lemma v4_cb_in4 q r : dns_query_v4_cb r q = completed (mkQuery (false, snd (queries q)) (responses q ++ in4 (Resolv.port q) r) (Resolv.port q)).
Proof using. by destruct r. Qed.
Lemma v6_cb_in6 q r : dns_query_v6_cb r q = completed (mkQuery (fst (queries q), false) (responses q ++ in6 (Resolv.port q) r) (Resolv.port q)).
Proof using. by destruct r. Qed.

(** Both answers, the first of which is for IPv4 or not. *)
Lemma both_answers port r4 r6 (v4 : bool) : resolv_mode = MODE_IPV4_FIRST \/ resolv_mode = MODE_IPV6_FIRST ->
  exists q, (if v4 then dns_query_v4_cb r4 else dns_query_v6_cb r6) (mkQuery (true, true) [] port) = Waiting q /\ queries q = (negb v4, v4) /\
    (if v4 then dns_query_v6_cb r6 else dns_query_v4_cb r4) q = Called (preferred port r4 r6).
Proof using.
  intros Hm. destruct (process_both (false, false) port r4 r6 Hm) as [E4 E6].
  destruct v4; rewrite ?v4_cb_in4, ?v6_cb_in6; cbn [queries responses Resolv.port fst snd app]; unfold completed at 1; cbn [all_queries_are_null queries fst snd negb andb];
    eexists; (split; [done|]); (split; [done|]); rewrite ?v4_cb_in4, ?v6_cb_in6; unfold completed; cbn; by rewrite ?E4, ?E6.
Qed.

(** C40: a query that asks for both families calls its client once, behind the
    second answer, and with the same address in either order of the answers: the
    first of the preferred family or else the first of the other; one that could
    ask for one family calls it behind that answer. *)
Theorem resolved_in_any_order port r4 r6 : resolv_mode = MODE_IPV4_FIRST \/ resolv_mode = MODE_IPV6_FIRST ->
  (exists q q4 q6, resolv_query true true port = Live q /\
    dns_query_v4_cb r4 q = Waiting q4 /\ dns_query_v6_cb r6 q4 = Called (preferred port r4 r6) /\
    dns_query_v6_cb r6 q = Waiting q6 /\ dns_query_v4_cb r4 q6 = Called (preferred port r4 r6)) /\
  (exists q, resolv_query true false port = Live q /\ dns_query_v4_cb r4 q = Called (head (in4 port r4))) /\
  (exists q, resolv_query false true port = Live q /\ dns_query_v6_cb r6 q = Called (head (in6 port r6))).
Proof using.
  intros Hm. rewrite !query_taken by done. split_and!.
  - destruct (both_answers port r4 r6 true Hm) as (q4 & H4 & _ & H6). destruct (both_answers port r4 r6 false Hm) as (q6 & H6' & _ & H4').
    by exists (mkQuery (true, true) [] port), q4, q6.
  - eexists. split; [done|]. rewrite v4_cb_in4. unfold completed. cbn. f_equal.
    destruct (process_both (false, false) port r4 None Hm) as [E _]. cbn in E. rewrite app_nil_r in E. rewrite E.
    unfold preferred. destruct (_ =? _); cbn; by rewrite ?app_nil_r.
  - eexists. split; [done|]. rewrite v6_cb_in6. unfold completed. cbn. f_equal.
    destruct (process_both (false, false) port None r6 Hm) as [E _]. cbn in E. rewrite E.
    unfold preferred. destruct (_ =? _); cbn; by rewrite ?app_nil_r.
Qed.
End Resolv.

Lemma resolved_in_any_order_witness :
  exists q q4 q6, resolv_query MODE_IPV6_FIRST true true [0; 53] = Live q /\
    dns_query_v4_cb (fun n => replicate (Z.to_nat n) 170) MODE_IPV6_FIRST (Some [[9; 9; 9; 9]]) q = Waiting q4 /\
    dns_query_v6_cb (fun n => replicate (Z.to_nat n) 170) MODE_IPV6_FIRST None q4 = Called (Some ([2; 0; 0; 53; 9; 9; 9; 9] ++ replicate 8 170)) /\
    dns_query_v6_cb (fun n => replicate (Z.to_nat n) 170) MODE_IPV6_FIRST None q = Waiting q6 /\
    dns_query_v4_cb (fun n => replicate (Z.to_nat n) 170) MODE_IPV6_FIRST (Some [[9; 9; 9; 9]]) q6 = Called (Some ([2; 0; 0; 53; 9; 9; 9; 9] ++ replicate 8 170)).
Proof. apply (resolved_in_any_order (fun n => replicate (Z.to_nat n) 170) MODE_IPV6_FIRST [0; 53] (Some [[9; 9; 9; 9]]) None). by right. Defined.

End Resolv.
