(* ===== verification/UdpRelay.v ===== *)
(** * UdpRelay: the datagram relay of the shadowsocksr-libev server

    Models src/server/udprelay.c as it is compiled for the server, and
    [sockaddr_cmp] and [get_sockaddr_len] of netutils.c: a socket for each client
    and address family, kept in a cache of 512 with a timer each, the header of
    destination and its parsing, queries for names, replies under a header.

    A callback is a function of the state and of what the system calls and the
    libraries return; its result is the state and what was done outside
    ([effect]).  [None] is an access outside an object, or to a context that was
    freed.  Contexts are numbered as they are allocated, and a number stands for
    the socket too.  An address is a C object ([Resolv]); names are resolved by the
    functions of Resolv.v, and the ciphers are the class [PacketCipher] of
    Datagrams.v. *)

From S2P Require Import Prelude Libc Cache Acl Ota Relay Crypt Datagrams Resolv.

Import Libc Acl Ota Datagrams Resolv.

#[local] Notation zlen l := (Z.of_nat (length l)).
#[local] Arguments Z.eqb : simpl never.
#[local] Arguments Z.leb : simpl never.
#[local] Arguments Z.ltb : simpl never.

Module UdpRelay.

Definition DEFAULT_PACKET_SIZE : Z := 1397.
Definition MAX_UDP_CONN_NUM : Z := 512.
(** [sizeof(struct sockaddr_storage)]. *)
Definition storage_size : nat := 128.
Definition no_address : list Z := replicate storage_size 0.

(** ** Addresses *)

Definition is_ip (f : Z) : bool := (f =? AF_INET) || (f =? AF_INET6).

Definition get_sockaddr_len (addr : list Z) : nat :=
  if sa_family addr =? AF_INET then 16 else if sa_family addr =? AF_INET6 then 28 else 0.

(** [memcmp] of two blocks of the same length. *)
Fixpoint memcmp (s1 s2 : list Z) : Z :=
  match s1, s2 with
  | a :: s1, b :: s2 => if a =? b then memcmp s1 s2 else a - b
  | _, _ => 0
  end.
(** A 16-bit member as the machine reads it. *)
Definition le16 (bs : list Z) : Z := match bs with b0 :: b1 :: _ => b0 + 256 * b1 | _ => 0 end.

Definition sockaddr_cmp (addr1 addr2 : list Z) (len : nat) : Z :=
  if sa_family addr1 <? sa_family addr2 then -1 else
  if sa_family addr2 <? sa_family addr1 then 1 else
  if sa_family addr1 =? AF_INET then
    if le16 (sin_port addr1) <? le16 (sin_port addr2) then -1 else
    if le16 (sin_port addr2) <? le16 (sin_port addr1) then 1 else memcmp (sin_addr addr1) (sin_addr addr2)
  else if sa_family addr1 =? AF_INET6 then
    if le16 (sin_port addr1) <? le16 (sin_port addr2) then -1 else
    if le16 (sin_port addr2) <? le16 (sin_port addr1) then 1 else memcmp (sin6_addr addr1) (sin6_addr addr2)
  else memcmp (take len addr1) (take len addr2).

(** The bytes of an [int], then those of the address. *)
Definition hash_key (af : Z) (addr : list Z) : list Z := rev (be_bytes 4 af) ++ addr.

Definition construct_udprealy_header (in_addr : list Z) : list Z :=
  if sa_family in_addr =? AF_INET then [1] ++ sin_addr in_addr ++ sin_port in_addr
  else if sa_family in_addr =? AF_INET6 then [4] ++ sin6_addr in_addr ++ sin_port in_addr
  else [].

(** ** State *)

(** [io], [watcher]: whether they are active. *)
Record remote_ctx := mkRemoteCtx {
  af : Z; addr_header : list Z; src_addr : list Z; dst_addr : list Z; io : bool; watcher : bool }.
Record query_ctx := mkQueryCtx {
  query : handle; q_src_addr : list Z; q_buf : list Z; q_addr_header : list Z; q_remote_ctx : option nat }.

(** [server_ctx] with what it reaches, the contexts that are allocated, by number,
    and the next number. *)
Record server_ctx (C : Type) := mkServerCtx {
  conn_cache : Cache.cache nat; crypto : C; remotes : gmap nat remote_ctx; query_ctxs : gmap nat query_ctx; next : nat }.
Arguments mkServerCtx {C}.
Arguments conn_cache {C}.
Arguments crypto {C}.
Arguments remotes {C}.
Arguments query_ctxs {C}.
Arguments next {C}.

Inductive effect :=
| Tx (n : Z) | Rx (n : Z)
| Socket (id : nat) | Close (id : nat) | Restart (id : nat)
| ToPeer (id : nat) (addr data : list Z) | ToClient (addr data : list Z)
| Query (host : list Z) (port : list Z).

Definition set_cache {C} x (s : server_ctx C) := mkServerCtx x (crypto s) (remotes s) (query_ctxs s) (next s).
Definition set_crypto {C} (x : C) (s : server_ctx C) := mkServerCtx (conn_cache s) x (remotes s) (query_ctxs s) (next s).
Definition set_remotes {C} x (s : server_ctx C) := mkServerCtx (conn_cache s) (crypto s) x (query_ctxs s) (next s).
Definition set_queries {C} x (s : server_ctx C) := mkServerCtx (conn_cache s) (crypto s) (remotes s) x (next s).
Definition set_next {C} x (s : server_ctx C) := mkServerCtx (conn_cache s) (crypto s) (remotes s) (query_ctxs s) x.

Definition rset_dst x r := mkRemoteCtx (af r) (addr_header r) (src_addr r) x (io r) (watcher r).
Definition rset_af x r := mkRemoteCtx x (addr_header r) (src_addr r) (dst_addr r) (io r) (watcher r).
Definition started r := mkRemoteCtx (af r) (addr_header r) (src_addr r) (dst_addr r) true true.

(** [packet_size] and [buf_size] as [init_udprelay] sets them. *)
Definition packet_size_of (mtu : Z) : Z := if 0 <? mtu then mtu - 1 - 28 - 2 - 64 else DEFAULT_PACKET_SIZE.
Definition buf_size_of (mtu : Z) : Z := packet_size_of mtu * 2.

Section UdpRelay.
Context {C : Type} `{PacketCipher C} `{Cache.HashFind nat}.
Context (malloc : Z -> list Z) (realloc : list Z -> Z -> list Z).
(** [dns_ntop], [dns_pton], which writes nothing when it fails, and libcork's
    parser. *)
Context (dns_ntop : Z -> list Z -> list Z) (dns_pton : Z -> list Z -> option (list Z)) (cork_ip_init : list Z -> option cork_ip).
Context (resolv_mode : Z) (packet_size buf_size : Z) (auth : bool).

Notation server_ctx := (server_ctx C).
Implicit Types s : server_ctx.

Definition new_server_ctx (c : C) : server_ctx := mkServerCtx (Cache.mkCache MAX_UDP_CONN_NUM []) c ∅ ∅ 0.

(** ** The header *)

(** The length, the texts of host and port, and [storage]; a length of 0 where the
    header is not good.  [buf_len] may be less than what is read of the object for
    the type and the length of a name. *)
Definition parse_udprealy_header (buf : list Z) (buf_len : Z) (storage : list Z) : option (Z * list Z * list Z * list Z) :=
  atyp ← buf @! 0;
  let t := Z.land atyp Relay.ADDRTYPE_MASK in
  '(offset, host, storage) ←
    (if t =? 1 then
       if 7 <=? buf_len then
         a ← mread buf 1 4; p ← mread buf 5 2; Some (5, dns_ntop AF_INET a, set_sin p a storage)
       else Some (1, [], storage)
     else if t =? 3 then
       name_len ← buf @! 1;
       if name_len + 4 <=? buf_len then
         name ← mread buf 2 name_len;
         tmp ← mwrite (replicate 257 0) 0 name;
         text ← cstr tmp;
         p ← mread buf (2 + name_len) 2;
         Some (2 + name_len, text,
               match cork_ip_init text with
               | Some (IPv4 _) => set_sin p (default (sin_addr storage) (dns_pton AF_INET text)) storage
               | Some (IPv6 _) =>
                   set_sin6 p (match dns_pton AF_INET text with
                               | Some a => a ++ drop 4 (sin6_addr storage)
                               | None => sin6_addr storage
                               end) storage
               | None => storage
               end)
       else Some (1, [], storage)
     else if t =? 4 then
       if 19 <=? buf_len then
         a ← mread buf 1 16; p ← mread buf 17 2; Some (17, dns_ntop AF_INET6 a, set_sin6 p a storage)
       else Some (1, [], storage)
     else Some (1, [], storage));
  if offset =? 1 then Some (0, host, [], storage) else
  port ← ld_be 2 buf offset;
  Some (offset + 2, host, dec port, storage).

(** ** Contexts *)

Definition close_and_free_remote (id : nat) s : option (server_ctx * list effect) :=
  _ ← remotes s !! id;
  Some (set_remotes (delete id (remotes s)) s, [Close id]).

(** [free_cb] on what the cache dropped. *)
Fixpoint free_all (freed : list (list Z * nat)) s : option (server_ctx * list effect) :=
  match freed with
  | [] => Some (s, [])
  | (_, id) :: freed =>
      '(s, es) ← close_and_free_remote id s;
      '(s, es') ← free_all freed s;
      Some (s, es ++ es')
  end.

(** A context for a new socket. *)
Definition new_remote (header src dst : list Z) s : server_ctx * nat :=
  (set_next (S (next s)) (set_remotes (<[next s := mkRemoteCtx AF_UNSPEC header src dst false false]> (remotes s)) s), next s).

(** Into the cache, and started. *)
Definition add_conn (id : nat) (now : Z) s : option (server_ctx * list effect) :=
  r ← remotes s !! id;
  let '(_, c, freed) := Cache.cache_insert true (Some (conn_cache s)) (hash_key (af r) (src_addr r)) (Some id) now in
  c ← c;
  '(s, es) ← free_all freed (set_cache c s);
  r ← remotes s !! id;
  Some (set_remotes (<[id := started r]> (remotes s)) s, es).

(** [cache_lookup] with the context that it stores. *)
Definition lookup_conn (key : list Z) (now : Z) s : option (server_ctx * option nat) :=
  let '(_, c, found) := Cache.cache_lookup (Some (conn_cache s)) (Some key) now in
  c ← c; Some (set_cache c s, found).

(** ** The client sent a datagram *)

(** Sending on a context; one that is not in the cache yet goes there, or is
    closed if the datagram could not be sent.  [f] is the family of a new one. *)
Definition send_to (id : nat) (cache_hit send_ok : bool) (f : Z) (addr data : list Z) (now : Z) s : option (server_ctx * list effect) :=
  if send_ok then
    if cache_hit then Some (s, [ToPeer id addr data]) else
    r ← remotes s !! id;
    '(s, es) ← add_conn id now (set_remotes (<[id := rset_af f r]> (remotes s)) s);
    Some (s, ToPeer id addr data :: es)
  else if cache_hit then Some (s, []) else close_and_free_remote id s.

(** The context found, if its client is the sender, with its timer restarted. *)
Definition same_client (src : list Z) (id : option nat) s : option (option nat * list effect) :=
  match id with
  | None => Some (None, [])
  | Some id =>
      r ← remotes s !! id;
      Some (if sockaddr_cmp src (src_addr r) storage_size =? 0 then (Some id, [Restart id]) else (None, []))
  end.

Inductive route := Send (id : nat) (cache_hit : bool) (dst : list Z) | Ask (id : option nat) | Drop.

(** Where the datagram goes. *)
Definition choose_route (found : option nat) (header src dst : list Z) (socket_ok : bool) s : option (server_ctx * route * list effect) :=
  match found with
  | Some id =>
      r ← remotes s !! id;
      Some (if bool_decide (addr_header r = header) then (s, Send id true (dst_addr r), [])
            else if is_ip (sa_family dst) then (s, Send id true dst, []) else (s, Ask (Some id), []))
  | None =>
      Some (if is_ip (sa_family dst) then
              if socket_ok then let '(s, id) := new_remote header src dst s in (s, Send id false dst, [Socket id])
              else (s, Drop, [])
            else (s, Ask None, []))
  end.

(** [resolv_query] with [htons(atoi(port))]. *)
Definition ask (id : option nat) (host port src header data : list Z) (submit4 submit6 : bool) s : server_ctx * list effect :=
  let p := be_bytes 2 (u16 (atoi port)) in
  (set_next (S (next s)) (set_queries (<[next s := mkQueryCtx (resolv_query resolv_mode submit4 submit6 p) src data header id]> (query_ctxs s)) s),
   [Query host p]).

(** A datagram that is decrypted: from the header on. *)
Definition relay_packet (b : buffer_t) (src : list Z) (socket_ok send_ok submit4 submit6 : bool) (now : Z) s : option (server_ctx * list effect) :=
  '(addr_header_len, host, port, dst) ← parse_udprealy_header (array b) (len b) no_address;
  if addr_header_len =? 0 then Some (s, []) else
  '(s, found) ← lookup_conn (hash_key (sa_family dst) src) now s;
  '(found, es) ← same_client src found s;
  let n := u64 (len b - addr_header_len) in
  if u64 packet_size <? n then Some (s, es) else
  header ← mread (array b) 0 addr_header_len;
  data ← mread (array b) addr_header_len n;
  '(s, way, es') ← choose_route found header src dst socket_ok s;
  '(s, es'') ← match way with
               | Send id cache_hit dst => send_to id cache_hit send_ok (sa_family dst) (take (get_sockaddr_len dst) dst) data now s
               | Ask id => Some (ask id host port src header data submit4 submit6 s)
               | Drop => Some (s, [])
               end;
  Some (s, es ++ es' ++ es'').

(** [rcv]: the bytes and the sender. *)
Definition server_recv_cb (rcv : option (list Z * list Z)) (socket_ok send_ok submit4 submit6 : bool) (now : Z) s
    : option (server_ctx * list effect) :=
  match rcv with
  | None => Some (s, [])
  | Some (bytes, src) =>
      let bytes := take (Z.to_nat buf_size) bytes in
      let r := zlen bytes in
      a ← mwrite (malloc buf_size) 0 bytes;
      if packet_size <? r then Some (s, []) else
      '(c, err, b) ← ss_decrypt_all (crypto s) (mkBuf a r) auth buf_size;
      let s := set_crypto c s in
      if negb (err =? 0) then Some (s, [Tx r]) else
      b ← b;
      '(s, es) ← relay_packet b src socket_ok send_ok submit4 submit6 now s;
      Some (s, Tx r :: es)
  end.

(** ** A name is resolved *)

(** [behind]: what follows the resolver's address in memory, since a whole
    [sockaddr_storage] is copied from it. *)
Definition query_resolve_cb (qid : nat) (addr : option (list Z)) (behind : list Z) (socket_ok send_ok : bool) (now : Z) s
    : option (server_ctx * list effect) :=
  q ← query_ctxs s !! qid;
  let s := set_queries (delete qid (query_ctxs s)) s in
  match addr with
  | None => Some (s, [])
  | Some addr =>
      '(s, found) ← match q_remote_ctx q with
                    | Some id => Some (s, Some id)
                    | None => lookup_conn (hash_key AF_UNSPEC (q_src_addr q)) now s
                    end;
      let '(s, id, es) :=
        match found with
        | Some id => (s, Some id, [])
        | None => if socket_ok then let '(s, id) := new_remote (q_addr_header q) (q_src_addr q) no_address s in (s, Some id, [Socket id])
                  else (s, None, [])
        end in
      match id with
      | None => Some (s, es)
      | Some id =>
          r ← remotes s !! id;
          dst ← mread (addr ++ behind) 0 (Z.of_nat storage_size);
          let s := set_remotes (<[id := rset_dst dst r]> (remotes s)) s in
          '(s, es') ← send_to id (bool_decide (is_Some found)) send_ok AF_UNSPEC (take (get_sockaddr_len addr) addr) (q_buf q) now s;
          Some (s, es ++ es')
      end
  end.

(** An answer of the DNS library for a query under way. *)
Definition dns_cb (v4 : bool) (qid : nat) (result : option (list (list Z))) (behind : list Z) (socket_ok send_ok : bool) (now : Z) s
    : option (server_ctx * list effect) :=
  q ← query_ctxs s !! qid;
  match query q with
  | Freed => None
  | Live h =>
      match (if v4 then dns_query_v4_cb malloc resolv_mode result h else dns_query_v6_cb malloc resolv_mode result h) with
      | Waiting h =>
          Some (set_queries (<[qid := mkQueryCtx (Live h) (q_src_addr q) (q_buf q) (q_addr_header q) (q_remote_ctx q)]> (query_ctxs s)) s, [])
      | Called addr => query_resolve_cb qid addr behind socket_ok send_ok now s
      end
  end.

(** ** A peer replied *)

Definition remote_recv_cb (id : nat) (rcv : option (list Z * list Z)) (send_ok : bool) s : option (server_ctx * list effect) :=
  r ← remotes s !! id;
  match rcv with
  | None => Some (s, [])
  | Some (bytes, src) =>
      let bytes := take (Z.to_nat buf_size) bytes in
      let n := zlen bytes in
      a ← mwrite (malloc buf_size) 0 bytes;
      if packet_size <? n then Some (s, []) else
      let header := if is_ip (af r) then construct_udprealy_header src else addr_header r in
      let b := brealloc realloc (mkBuf a n) (n + zlen header) buf_size in
      data ← mread (array b) 0 n;
      a ← mwrite (array b) (zlen header) data;
      a ← mwrite a 0 header;
      '(c, err, b) ← ss_encrypt_all (crypto s) (mkBuf a (n + zlen header)) false buf_size;
      let s := set_crypto c s in
      if negb (err =? 0) then Some (s, [Rx n]) else
      b ← b;
      if u64 packet_size <? len b then Some (s, [Rx n]) else
      out ← mread (array b) 0 (len b);
      Some (s, Rx n :: if send_ok then [ToClient (take (get_sockaddr_len (src_addr r)) (src_addr r)) out; Restart id] else [])
  end.

(** ** Time and the end *)

Definition remote_timeout_cb (id : nat) s : option (server_ctx * list effect) :=
  r ← remotes s !! id;
  let '(_, c, freed) := Cache.cache_remove (Some (conn_cache s)) (Some (hash_key (af r) (src_addr r))) in
  c ← c;
  free_all freed (set_cache c s).

(** For the one context of the server. *)
Definition free_udprelay s : option (list effect) :=
  let '(_, freed) := Cache.cache_delete (Some (conn_cache s)) false in
  '(_, es) ← free_all freed s; Some es.

End UdpRelay.

(** ** Addresses and headers *)

Definition addr_ok (a : list Z) : Prop := length a = storage_size /\ is_bytes a.

Lemma memcmp_refl l : memcmp l l = 0.
Proof. induction l as [|x l IH]; cbn; [done|]. by rewrite Z.eqb_refl. Qed.

Lemma sockaddr_cmp_refl a n : sockaddr_cmp a a n = 0.
Proof. unfold sockaddr_cmp. rewrite !Z.ltb_irrefl, !memcmp_refl. by repeat destruct (_ =? _). Qed.

Lemma length_set_sin p a o : length p = 2%nat -> length a = 4%nat -> length o = storage_size -> length (set_sin p a o) = storage_size.
Proof. intros Hp Ha Ho. unfold set_sin, storage_size in *. rewrite !length_app, length_drop. cbn [family_bytes length]. lia. Qed.
Lemma length_set_sin6 p a o : length p = 2%nat -> length a = 16%nat -> length o = storage_size -> length (set_sin6 p a o) = storage_size.
Proof.
  intros Hp Ha Ho. unfold set_sin6, storage_size in *. rewrite !length_app, length_take, !length_drop. cbn [family_bytes length]. lia.
Qed.

Lemma hash_key_inj f1 a1 f2 a2 : length a1 = length a2 -> 0 <= f1 < 2 ^ 32 -> 0 <= f2 < 2 ^ 32 -> hash_key f1 a1 = hash_key f2 a2 -> f1 = f2 /\ a1 = a2.
Proof.
  intros Hl H1 H2. unfold hash_key. intros [Hf Ha]%app_inj_1; [|by rewrite !length_rev, !length_be_bytes]. split; [|done].
  apply (f_equal (fun l => be_val (rev l))) in Hf. rewrite !rev_involutive, !be_val_bytes in Hf. change (8 * Z.of_nat 4) with 32 in Hf.
  by rewrite !Z.mod_small in Hf.
Qed.

Lemma construct_length a : addr_ok a -> (length (construct_udprealy_header a) <= 19)%nat.
Proof.
  intros [Ha _]. unfold construct_udprealy_header, sin_addr, sin6_addr, sin_port. destruct (_ =? _); [|destruct (_ =? _); [|cbn; lia]];
    rewrite !length_app, !length_take, !length_drop; cbn [length]; lia.
Qed.

Lemma take_ge' {A} n (l : list A) : (length l <= n)%nat -> take n l = l.
Proof. apply take_ge. Qed.

(** A number written and read. *)
Lemma digits_prefix_snoc d : 0 <= d < 10 -> forall l n m, digits_prefix l n = (m, []) -> digits_prefix (l ++ [48 + d]) n = (10 * m + d, []).
Proof.
  intros Hd. induction l as [|c l IH]; intros n m; cbn [app digits_prefix].
  - intros [= <-]. rewrite (proj2 (Z.leb_le 48 _)), (proj2 (Z.leb_le _ 57)) by lia. cbn [andb]. f_equal. lia.
  - destruct (_ && _); [|done]. apply IH.
Qed.

Lemma digits_read f : forall z, 0 <= z < 10 ^ Z.of_nat f -> digits_prefix (digits f z) 0 = (z, []).
Proof.
  induction f as [|f IH]; intros z Hz; [cbn in Hz; by replace z with 0 by lia|]. cbn [digits]. destruct (Z.ltb_spec z 10).
  - apply (digits_prefix_snoc z ltac:(lia) [] 0 0). done.
  - pose proof (Z.mod_pos_bound z 10 ltac:(lia)) as Hm. pose proof (Z.div_mod z 10 ltac:(lia)) as Hd. pose proof (Z.div_pos z 10 ltac:(lia) ltac:(lia)).
    rewrite (digits_prefix_snoc (z mod 10) Hm _ _ (z / 10)); [f_equal; lia|]. apply IH.
    rewrite Nat2Z.inj_succ, Z.pow_succ_r in Hz by lia. split; [done|]. apply Z.div_lt_upper_bound; lia.
Qed.

Lemma digits_cons f z : (0 < f)%nat -> 0 <= z -> exists d l, digits f z = 48 + d :: l /\ 0 <= d < 10.
Proof.
  revert z. induction f as [|f IH]; intros z Hf Hz; [lia|]. cbn [digits]. destruct (Z.ltb_spec z 10); [exists z, []; done|].
  pose proof (Z.mod_pos_bound z 10 ltac:(lia)). pose proof (Z.div_pos z 10 ltac:(lia) ltac:(lia)).
  destruct f as [|f]; [exists (z mod 10), []; split; [done|lia]|]. destruct (IH (z / 10)) as (d & l & -> & Hd); [lia|lia|]. by exists d, (l ++ [48 + z mod 10]).
Qed.

Lemma atoi_dec z : 0 <= z < 10 ^ 20 -> atoi (dec z) = z.
Proof.
  intros Hz. unfold dec. rewrite (proj2 (Z.ltb_ge _ _)) by lia. pose proof (digits_read 20 z Hz) as Hr.
  destruct (digits_cons 20 z) as (d & l & E & Hd); [lia|lia|]. rewrite E in *. unfold atoi, scan_d. cbn [skip_space].
  assert (isspace (48 + d) = false) as ->.
  { unfold isspace. rewrite (proj2 (Z.eqb_neq _ _)) by lia. cbn [orb]. apply andb_false_iff. right. apply Z.leb_gt. lia. }
  cbv zeta. change (chr "-") with 45. change (chr "+") with 43. rewrite !(proj2 (Z.eqb_neq (48 + d) _)) by lia.
  rewrite (proj2 (Z.leb_le 48 _)), (proj2 (Z.leb_le _ 57)) by lia. cbn [andb]. by rewrite Hr.
Qed.

(** A port written in decimal and read again is the same two bytes. *)
Lemma port_again p : is_bytes p -> length p = 2%nat -> be_bytes 2 (u16 (atoi (dec (be_val p)))) = p.
Proof.
  intros Hb Hp. pose proof (be_val_range p Hb) as Hr. rewrite Hp in Hr. change (256 ^ Z.of_nat 2) with 65536 in Hr. rewrite atoi_dec by lia.
  destruct p as [|x [|y [|z p]]]; try done. apply Forall_cons in Hb as [Hx [Hy _]%Forall_cons]. unfold be_val in *. cbn [foldl] in *. unfold be_step in *.
  unfold u16. rewrite Z.mod_small by lia. cbn [be_bytes]. change (2 ^ (8 * Z.of_nat 1)) with 256. change (2 ^ (8 * Z.of_nat 0)) with 1.
  unfold u8. f_equal; [|f_equal].
  - replace (((0 * 256 + x) * 256 + y) / 256) with x; [by apply Z.mod_small|]. apply (Z.div_unique _ _ _ y); lia.
  - rewrite Z.div_1_r. symmetry. apply (Z.mod_unique _ _ x); lia.
Qed.

Section Header.
Context (dns_ntop : Z -> list Z -> list Z) (dns_pton : Z -> list Z -> option (list Z)) (cork_ip_init : list Z -> option cork_ip).
Context (dns_pton_size : forall t a, dns_pton AF_INET t = Some a -> length a = 4%nat).
Notation parse := (parse_udprealy_header dns_ntop dns_pton cork_ip_init).

(** The text of a name: up to a NUL in it. *)
Definition name_text (name : list Z) : list Z := default [] (cstr (name ++ [0])).

Lemma cstr_zero name r : cstr (name ++ 0 :: r) = Some (name_text name).
Proof using.
  unfold name_text. induction name as [|c name IH]; cbn [app cstr]; [done|]. destruct (c =? 0); [done|].
  rewrite IH. cbn [mbind option_bind fmap option_fmap option_map]. destruct (cstr (name ++ [0])) eqn:E; [done|].
  exfalso. clear IH. assert (forall l : list Z, is_Some (cstr (l ++ [0]))) as Hs.
  { clear. induction l as [|c l IH]; cbn [app cstr]; [by eexists|]. destruct (c =? 0); [by eexists|]. destruct IH as [x ->]. by eexists. }
  destruct (Hs name). congruence.
Qed.

Lemma name_in_buffer (name : list Z) : (length name <= 255)%nat ->
  exists tmp, mwrite (replicate 257 0) 0 name = Some tmp /\ cstr tmp = Some (name_text name).
Proof using.
  intros Hn. rewrite mwrite_in by (rewrite ?length_replicate; lia). change (Z.to_nat 0) with 0%nat. cbn [take app Nat.add]. eexists. split; [done|].
  rewrite drop_replicate. replace (257 - length name)%nat with (S (256 - length name)) by lia. apply cstr_zero.
Qed.

(** What the parser leaves in [storage] for a name ([asked_for] below says what it
    should be). *)
Definition name_dst (text p : list Z) : list Z :=
  match cork_ip_init text with
  | Some (IPv4 _) => set_sin p (default (sin_addr no_address) (dns_pton AF_INET text)) no_address
  | Some (IPv6 _) => set_sin6 p (match dns_pton AF_INET text with Some a => a ++ drop 4 (sin6_addr no_address) | None => sin6_addr no_address end) no_address
  | None => no_address
  end.

Lemma name_dst_ok text p : length p = 2%nat ->
  length (name_dst text p) = storage_size /\
  (sa_family (name_dst text p) = AF_UNSPEC \/ sa_family (name_dst text p) = AF_INET \/ sa_family (name_dst text p) = AF_INET6).
Proof using dns_pton_size.
  intros Hp. unfold name_dst. destruct (cork_ip_init text) as [[]|]; [| |split; [done|by left]].
  - split; [|by right; left]. apply length_set_sin; [done| |done]. destruct (dns_pton AF_INET text) eqn:E; [by eapply dns_pton_size|done].
  - split; [|by right; right]. apply length_set_sin6; [done| |done]. destruct (dns_pton AF_INET text) eqn:E; [|done].
    rewrite length_app, (dns_pton_size _ _ E). done.
Qed.

(** The three forms of a header. *)
Inductive form :=
| V4 (t : Z) (a p : list Z) | Name (t : Z) (name p : list Z) | V6 (t : Z) (a p : list Z).
Definition form_ok (f : form) : Prop :=
  match f with
  | V4 t a p => Z.land t Relay.ADDRTYPE_MASK = 1 /\ length a = 4%nat /\ length p = 2%nat
  | Name t name p => Z.land t Relay.ADDRTYPE_MASK = 3 /\ (length name <= 255)%nat /\ length p = 2%nat
  | V6 t a p => Z.land t Relay.ADDRTYPE_MASK = 4 /\ length a = 16%nat /\ length p = 2%nat
  end.
Definition form_bytes (f : form) : list Z :=
  match f with
  | V4 t a p | V6 t a p => t :: a ++ p
  | Name t name p => t :: zlen name :: name ++ p
  end.
Definition form_host (f : form) : list Z :=
  match f with V4 _ a _ => dns_ntop AF_INET a | Name _ name _ => name_text name | V6 _ a _ => dns_ntop AF_INET6 a end.
Definition form_port (f : form) : list Z := match f with V4 _ _ p | Name _ _ p | V6 _ _ p => p end.
Definition form_dst (f : form) : list Z :=
  match f with
  | V4 _ a p => set_sin p a no_address
  | Name _ name p => name_dst (name_text name) p
  | V6 _ a p => set_sin6 p a no_address
  end.

Lemma parse_form f rest n : form_ok f -> zlen (form_bytes f) <= n ->
  parse (form_bytes f ++ rest) n no_address = Some (zlen (form_bytes f), form_host f, dec (be_val (form_port f)), form_dst f).
Proof using.
  intros Hf Hn. unfold parse_udprealy_header. destruct f as [t a p|t name p|t a p]; destruct Hf as (Ht & Ha & Hp); cbn [form_bytes app] in *;
    cbn [rd Z.leb]; change ((?x :: ?l) @! 0) with (Some x); cbn [mbind option_bind]; rewrite Ht.
  - change (1 =? 1) with true. cbv iota.
    rewrite (proj2 (Z.leb_le 7 n)) by (cbn [length] in Hn; rewrite length_app in Hn; lia).
    rewrite <- app_assoc.
    assert (mread (t :: a ++ p ++ rest) 1 4 = Some a) as -> by (apply (mread_app [t] a (p ++ rest)); cbn [length]; lia).
    assert (mread (t :: a ++ p ++ rest) 5 2 = Some p) as Hport by (apply (mread_app (t :: a) p rest); cbn [length]; lia).
    rewrite Hport. cbn [mbind option_bind]. change (5 =? 1) with false. cbv iota. unfold ld_be. rewrite Hport.
    cbn [fmap option_fmap option_map mbind option_bind length form_host form_port form_dst]. rewrite length_app, Ha, Hp. done.
  - change (3 =? 1) with false. change (3 =? 3) with true. cbv iota.
    change ((t :: zlen name :: (name ++ p) ++ rest) @! 1) with (Some (zlen name)). cbn [mbind option_bind].
    rewrite (proj2 (Z.leb_le _ n)) by (cbn [length] in Hn; rewrite length_app in Hn; lia). rewrite <- app_assoc.
    assert (mread (t :: zlen name :: name ++ p ++ rest) 2 (zlen name) = Some name) as ->
      by (apply (mread_app [t; zlen name] name (p ++ rest)); cbn [length]; lia).
    assert (mread (t :: zlen name :: name ++ p ++ rest) (2 + zlen name) 2 = Some p) as Hport
      by (apply (mread_app (t :: zlen name :: name) p rest); cbn [length]; lia).
    cbn [mbind option_bind]. destruct (name_in_buffer name) as (tmp & -> & Hc); [lia|]. cbn [mbind option_bind]. rewrite Hc, Hport. cbn [mbind option_bind].
    rewrite (proj2 (Z.eqb_neq (2 + zlen name) 1)) by lia. unfold ld_be. rewrite Hport.
    cbn [fmap option_fmap option_map mbind option_bind length form_host form_port form_dst]. rewrite length_app, Hp. do 4 f_equal. lia.
  - change (4 =? 1) with false. change (4 =? 3) with false. change (4 =? 4) with true. cbv iota.
    rewrite (proj2 (Z.leb_le 19 n)) by (cbn [length] in Hn; rewrite length_app in Hn; lia).
    rewrite <- app_assoc.
    assert (mread (t :: a ++ p ++ rest) 1 16 = Some a) as -> by (apply (mread_app [t] a (p ++ rest)); cbn [length]; lia).
    assert (mread (t :: a ++ p ++ rest) 17 2 = Some p) as Hport by (apply (mread_app (t :: a) p rest); cbn [length]; lia).
    rewrite Hport. cbn [mbind option_bind]. change (17 =? 1) with false. cbv iota. unfold ld_be. rewrite Hport.
    cbn [fmap option_fmap option_map mbind option_bind length form_host form_port form_dst]. rewrite length_app, Ha, Hp. done.
Qed.

Lemma form_dst_ok f : form_ok f -> length (form_dst f) = storage_size /\
  (sa_family (form_dst f) = AF_UNSPEC \/ sa_family (form_dst f) = AF_INET \/ sa_family (form_dst f) = AF_INET6).
Proof using dns_pton_size.
  destruct f as [t a p|t name p|t a p]; intros (_ & Ha & Hp); cbn [form_dst].
  - split; [by apply length_set_sin|by right; left].
  - by apply name_dst_ok.
  - split; [by apply length_set_sin6|by right; right].
Qed.

Lemma form_length f : form_ok f -> (7 <= length (form_bytes f) <= 259 \/ 4 <= length (form_bytes f) <= 259)%nat.
Proof using. destruct f as [t a p|t name p|t a p]; intros (_ & Ha & Hp); cbn [form_bytes length]; rewrite length_app; lia. Qed.

(** The parser is defined; what it accepts is one of the forms. *)
Lemma parse_cases a n : is_bytes a -> 0 <= n <= zlen a -> 2 <= zlen a ->
  (exists f rest, a = form_bytes f ++ rest /\ form_ok f /\ zlen (form_bytes f) <= n) \/
  exists host port, parse a n no_address = Some (0, host, port, no_address).
Proof using.
  intros Hb Hn Ha. destruct a as [|t [|l a]]; [cbn in Ha; lia..|].
  unfold parse_udprealy_header. change ((t :: l :: a) @! 0) with (Some t). cbn [mbind option_bind].
  assert (forall k, (k + 2 <= length (l :: a))%nat -> exists x p r, l :: a = x ++ p ++ r /\ length x = k /\ length p = 2%nat) as Hcut.
  { intros k Hk. destruct (split_block (l :: a) k) as (x & y & E & Hx); [lia|]. rewrite E in *. rewrite length_app in Hk.
    destruct (split_block y 2) as (p & r & -> & Hp); [lia|]. eauto 7. }
  destruct (Z.eqb_spec (Z.land t Relay.ADDRTYPE_MASK) 1) as [E1|E1].
  { destruct (Z.leb_spec 7 n) as [H7|H7]; [|right; eauto]. left. destruct (Hcut 4%nat) as (x & p & r & E & Hx & Hp); [cbn in *; lia|].
    exists (V4 t x p), r. cbn [form_bytes]. rewrite E. split; [list_assoc|]. split; [done|]. cbn [length]. rewrite length_app. lia. }
  destruct (Z.eqb_spec (Z.land t Relay.ADDRTYPE_MASK) 3) as [E3|E3].
  { change ((t :: l :: a) @! 1) with (Some l). cbn [mbind option_bind].
    assert (0 <= l < 256) as Hl by (apply Forall_cons in Hb as [_ [? _]%Forall_cons]; done).
    destruct (Z.leb_spec (l + 4) n) as [Hle|Hle]; [|right; eauto]. left.
    destruct (split_block a (Z.to_nat l)) as (x & y & -> & Hx); [cbn in *; lia|]. cbn [length] in Hn. rewrite length_app in Hn.
    destruct (split_block y 2) as (p & r & -> & Hp); [lia|]. exists (Name t x p), r. cbn [form_bytes].
    replace (zlen x) with l by lia. split; [list_assoc|]. split; [split_and!; [done|lia|done]|]. cbn [length]. rewrite length_app. lia. }
  destruct (Z.eqb_spec (Z.land t Relay.ADDRTYPE_MASK) 4) as [E4|E4].
  { destruct (Z.leb_spec 19 n) as [H19|H19]; [|right; eauto]. left. destruct (Hcut 16%nat) as (x & p & r & E & Hx & Hp); [cbn in *; lia|].
    exists (V6 t x p), r. cbn [form_bytes]. rewrite E. split; [list_assoc|]. split; [done|]. cbn [length]. rewrite length_app. lia. }
  right. eauto.
Qed.
End Header.
(** ** The state *)

Definition conn_key (r : remote_ctx) : list Z := hash_key (af r) (src_addr r).
Definition slots (es : list (Cache.cache_entry nat)) : list (list Z * option nat) := map (fun e => (Cache.ekey e, Cache.data e)) es.
Definition ids (rs : gmap nat remote_ctx) : list nat := (map_to_list rs).*1.

(** The cache holds the contexts that are allocated, each once and under its key. *)
Record cached (L : list (list Z * option nat)) (rs : gmap nat remote_ctx) : Prop := {
  ca_keys : NoDup L.*1;
  ca_entry k d : (k, d) ∈ L -> exists id r, d = Some id /\ rs !! id = Some r /\ k = conn_key r;
  ca_remote id r : rs !! id = Some r -> (conn_key r, Some id) ∈ L }.

Lemma cached_perm L L' rs : L ≡ₚ L' -> cached L rs -> cached L' rs.
Proof.
  intros Hp [H1 H2 H3]. split.
  - by rewrite <- Hp.
  - intros k d. rewrite <- Hp. apply H2.
  - intros id r. rewrite <- Hp. apply H3.
Qed.

Lemma cached_insert L rs id r : cached L rs -> rs !! id = None -> conn_key r ∉ L.*1 -> cached (L ++ [(conn_key r, Some id)]) (<[id := r]> rs).
Proof.
  intros [H1 H2 H3] Hid Hk. split.
  - rewrite fmap_app. apply NoDup_app. split_and!; [done| |apply NoDup_singleton]. intros k Hin ->%list_elem_of_singleton. done.
  - intros k d [Hin|Heq%list_elem_of_singleton]%elem_of_app.
    + destruct (H2 k d Hin) as (j & rj & -> & Hj & ->). exists j, rj. split_and!; [done| |done]. rewrite lookup_insert_ne; [done|]. intros ->. congruence.
    + injection Heq as -> ->. exists id, r. split_and!; [done| |done]. by rewrite lookup_insert_eq.
  - intros j rj [[-> <-]|[Hne Hj]]%lookup_insert_Some; apply elem_of_app; [right; by apply list_elem_of_singleton|left; by apply H3].
Qed.

Lemma cached_head k id L rs : cached ((k, Some id) :: L) rs -> (exists r, rs !! id = Some r /\ k = conn_key r) /\ cached L (delete id rs).
Proof.
  intros [H1 H2 H3]. destruct (H2 k (Some id)) as (i & r & [= <-] & Hr & Hk); [by left|]. split; [eauto|].
  apply NoDup_cons in H1 as [Hn H1]. split; [done| |].
  - intros k' d Hin. destruct (H2 k' d) as (j & rj & -> & Hj & ->); [by right|]. exists j, rj. split_and!; [done| |done].
    rewrite lookup_delete_ne; [done|]. intros ->. rewrite Hr in Hj. injection Hj as <-. apply Hn. subst k.
    apply list_elem_of_fmap. exists (conn_key r, Some j). done.
  - intros j rj [Hne Hj]%lookup_delete_Some. specialize (H3 j rj Hj). apply elem_of_cons in H3 as [Heq|]; [|done]. injection Heq as _ ->. done.
Qed.

Lemma cached_update L rs id r r' : cached L rs -> rs !! id = Some r -> conn_key r' = conn_key r -> cached L (<[id := r']> rs).
Proof.
  intros [H1 H2 H3] Hr Hk. split; [done| |].
  - intros k d Hin. destruct (H2 k d Hin) as (j & rj & -> & Hj & ->). destruct (decide (id = j)) as [<-|Hne].
    + exists id, r'. rewrite Hr in Hj. injection Hj as <-. by rewrite lookup_insert_eq.
    + exists j, rj. by rewrite lookup_insert_ne.
  - intros j rj [[-> <-]|[Hne Hj]]%lookup_insert_Some; [rewrite Hk; by apply H3|by apply H3].
Qed.

Lemma ids_insert rs id r : rs !! id = None -> ids (<[id := r]> rs) ≡ₚ id :: ids rs.
Proof. intros Hn. unfold ids. by rewrite map_to_list_insert. Qed.
Lemma ids_delete rs id r : rs !! id = Some r -> ids rs ≡ₚ id :: ids (delete id rs).
Proof. intros Hr. unfold ids. by rewrite <- (map_to_list_delete rs id r Hr). Qed.
Lemma ids_update rs id r r' : rs !! id = Some r -> ids (<[id := r']> rs) ≡ₚ ids rs.
Proof.
  intros Hr. rewrite (ids_delete rs id r Hr), (ids_delete (<[id := r']> rs) id r') by by rewrite lookup_insert_eq. by rewrite delete_insert_eq.
Qed.

(** What effects open and close. *)
Definition opened (es : list effect) : list nat := omap (fun e => match e with Socket id => Some id | _ => None end) es.
Definition closed (es : list effect) : list nat := omap (fun e => match e with Close id => Some id | _ => None end) es.
Definition accounted (es : list effect) (rs rs' : gmap nat remote_ctx) : Prop := opened es ++ ids rs ≡ₚ closed es ++ ids rs'.

Lemma opened_app a b : opened (a ++ b) = opened a ++ opened b.
Proof. apply omap_app. Qed.
Lemma closed_app a b : closed (a ++ b) = closed a ++ closed b.
Proof. apply omap_app. Qed.

Lemma accounted_app a b r1 r2 r3 : accounted a r1 r2 -> accounted b r2 r3 -> accounted (a ++ b) r1 r3.
Proof.
  unfold accounted. rewrite opened_app, closed_app. intros Ha Hb.
  trans (opened b ++ (opened a ++ ids r1)); [solve_Permutation|]. rewrite Ha. trans (closed a ++ (opened b ++ ids r2)); [solve_Permutation|].
  rewrite Hb. solve_Permutation.
Qed.

Lemma accounted_nil es rs : opened es = [] -> closed es = [] -> accounted es rs rs.
Proof. intros H1 H2. unfold accounted. by rewrite H1, H2. Qed.

Section Invariant.
Context {C : Type} `{PacketCipher C} (overhead : Z) {CL : PacketCipherLaws C overhead} `{Cache.HashFindLaws nat}.
Context (malloc : Z -> list Z) (realloc : list Z -> Z -> list Z) {RL : ReallocLaws realloc}.
Context (malloc_size : forall n, 0 <= n -> zlen (malloc n) = n) (malloc_bytes : forall n, is_bytes (malloc n)).
Context (dns_ntop : Z -> list Z -> list Z) (dns_pton : Z -> list Z -> option (list Z)) (cork_ip_init : list Z -> option cork_ip).
Context (dns_pton_size : forall t a, dns_pton AF_INET t = Some a -> length a = 4%nat).
Context (resolv_mode : Z) (packet_size buf_size : Z) (auth : bool).
Context (sizes : 0 < packet_size /\ packet_size + 259 + overhead <= buf_size < 2 ^ 27 /\ 0 <= overhead).

Notation server_ctx := (server_ctx C).
Notation form_dst := (form_dst dns_pton cork_ip_init).
Implicit Types s : server_ctx.

(** A context: its client, and the header of the first datagram, which for an IP
    destination tells where it sends. *)
Record remote_ok (r : remote_ctx) : Prop := {
  ro_src : addr_ok (src_addr r);
  ro_dst : length (dst_addr r) = storage_size;
  ro_header : exists f, form_ok f /\ addr_header r = form_bytes f /\ is_bytes (addr_header r) /\
    (if is_ip (af r) then dst_addr r = form_dst f /\ sa_family (form_dst f) = af r else af r = AF_UNSPEC) }.

Definition response_ok (sa : list Z) : Prop :=
  sa_family sa = AF_INET /\ length sa = 16%nat \/ sa_family sa = AF_INET6 /\ length sa = 28%nat.

Record query_ok s (q : query_ctx) : Prop := {
  qo_src : addr_ok (q_src_addr q);
  qo_buf : is_bytes (q_buf q);
  qo_header : exists f, form_ok f /\ q_addr_header q = form_bytes f /\ is_bytes (q_addr_header q);
  qo_remote id : q_remote_ctx q = Some id -> (id < next s)%nat /\
    forall r, remotes s !! id = Some r -> src_addr r = q_src_addr q /\ af r = AF_UNSPEC;
  qo_query h : query q = Live h -> Forall response_ok (responses h) /\ length (port h) = 2%nat }.

Record wf s : Prop := {
  wf_cached : cached (slots (Cache.entries (conn_cache s))) (remotes s);
  wf_max : Cache.max_entries (conn_cache s) = MAX_UDP_CONN_NUM;
  wf_room : zlen (Cache.entries (conn_cache s)) < MAX_UDP_CONN_NUM;
  wf_remote id r : remotes s !! id = Some r -> remote_ok r /\ io r = true /\ watcher r = true /\ (id < next s)%nat;
  wf_query qid q : query_ctxs s !! qid = Some q -> query_ok s q /\ (qid < next s)%nat }.

(** What never changes of a context while it lives, and numbers are not used
    again. *)
Definition later s s2 : Prop :=
  (next s <= next s2)%nat /\
  forall j r, (j < next s)%nat -> remotes s2 !! j = Some r -> exists r0, remotes s !! j = Some r0 /\
    src_addr r = src_addr r0 /\ af r = af r0 /\ addr_header r = addr_header r0.

Lemma later_refl s : later s s.
Proof using. split; [done|]. eauto. Qed.
Lemma later_trans s1 s2 s3 : later s1 s2 -> later s2 s3 -> later s1 s3.
Proof using.
  intros [Hn1 H1'] [Hn2 H2']. split; [lia|]. intros j r Hj Hr. destruct (H2' j r) as (r2 & Hr2 & E1 & E2 & E3); [lia|done|].
  destruct (H1' j r2 Hj Hr2) as (r1 & Hr1 & F1 & F2 & F3). exists r1. split; [done|]. split_and!; congruence.
Qed.

Lemma query_later s s2 q : later s s2 -> query_ok s q -> query_ok s2 q.
Proof using.
  intros [Hn Hl] [H1' H2' H3' H4' H5']. split; [done..| |done]. intros id Hid. destruct (H4' id Hid) as [Hlt Hr]. split; [lia|].
  intros r Hr2. destruct (Hl id r Hlt Hr2) as (r0 & Hr0 & -> & -> & _). by apply Hr.
Qed.

(** The sender's address on what goes to a peer: that of the client whose context
    it is. *)
Definition from_client (who : list Z) s (e : effect) : Prop :=
  match e with ToPeer id _ _ => exists r, remotes s !! id = Some r /\ src_addr r = who | ToClient _ _ => False | _ => True end.

(** ** The parts of a callback *)

(** The state is well formed with the same things in other places. *)
Lemma wf_change s s' : wf s -> slots (Cache.entries (conn_cache s')) ≡ₚ slots (Cache.entries (conn_cache s)) ->
  Cache.max_entries (conn_cache s') = MAX_UDP_CONN_NUM -> remotes s' = remotes s -> query_ctxs s' = query_ctxs s -> (next s <= next s')%nat -> wf s'.
Proof using.
  intros [Hc Hm Hroom Hr Hq] Hp Hm' Er Eq Hn. split.
  - rewrite Er. eapply cached_perm; [|exact Hc]. by symmetry.
  - done.
  - apply Permutation_length in Hp. unfold slots in Hp. rewrite !length_map in Hp. lia.
  - rewrite Er. intros id r Hid. destruct (Hr id r Hid) as (? & ? & ? & ?). split_and!; [done..|lia].
  - rewrite Eq. intros qid q Hqid. destruct (Hq qid q Hqid) as [Hqo ?]. split; [|lia]. eapply query_later; [|exact Hqo].
    split; [done|]. rewrite Er. eauto.
Qed.

Lemma lookup_conn_spec key now s : wf s ->
  exists es', let s' := set_cache (Cache.mkCache MAX_UDP_CONN_NUM es') s in
    wf s' /\
    ((lookup_conn key now s = Some (s', None) /\ key ∉ (slots es').*1) \/
     exists id r, lookup_conn key now s = Some (s', Some id) /\ remotes s !! id = Some r /\ conn_key r = key).
Proof using H1.
  intros Hwf. pose proof Hwf as [Hc Hm Hroom Hr Hq]. unfold lookup_conn. destruct (conn_cache s) as [mx es] eqn:Es. cbn [Cache.entries Cache.max_entries] in *. subst mx.
  cbn [Cache.cache_lookup Cache.entries]. destruct (Cache.hash_find es key) as [i|] eqn:E.
  - apply Cache.find_split in E as (pre & e & post & -> & <- & Hk). exists (pre ++ post ++ [Cache.mkEntry (Cache.ekey e) (Cache.data e) now]).
    split; [apply (wf_change s); [done| |done..]; cbn; rewrite Es; unfold slots; cbn [Cache.entries]; rewrite !map_app; cbn [map Cache.ekey Cache.data]; solve_Permutation|].
    right. rewrite Cache.touch_split. cbn [mbind option_bind snd fst]. rewrite list_lookup_middle by done. cbn [mbind option_bind].
    destruct (ca_entry _ _ Hc (Cache.ekey e) (Cache.data e)) as (id & r & Hd & Hid & Hkey).
    { unfold slots. rewrite map_app. apply elem_of_app. right. by left. }
    exists id, r. rewrite Hd. split_and!; [done|done|congruence].
  - exists es. split; [apply (wf_change s); [done| |done..]; cbn; by rewrite Es|].
    left. split; [done|]. apply Cache.hash_find_none in E. intros ([k d] & -> & (e & [= -> ->] & He)%list_elem_of_fmap)%list_elem_of_fmap.
    rewrite Forall_forall in E. by apply (E e).
Qed.

(** A new context goes to the cache, where the oldest may have to go. *)
Lemma add_conn_spec id r now s s1 : wf s -> id = next s -> remotes s1 = <[id := r]> (remotes s) -> conn_cache s1 = conn_cache s ->
  query_ctxs s1 = query_ctxs s -> next s1 = S id -> remote_ok r -> conn_key r ∉ (slots (Cache.entries (conn_cache s))).*1 ->
  exists s2 es, add_conn id now s1 = Some (s2, es) /\ wf s2 /\ later s s2 /\ accounted (Socket id :: es) (remotes s) (remotes s2) /\
    query_ctxs s2 = query_ctxs s /\ crypto s2 = crypto s1 /\ remotes s2 !! id = Some (started r) /\ (es = [] \/ exists j, es = [Close j]).
Proof using.
  intros Hwf -> Er Ec Eq En Hro Hk. pose proof Hwf as [Hc Hm Hroom Hr Hq]. unfold add_conn. rewrite Er, lookup_insert_eq. cbn [mbind option_bind].
  destruct s1 as [cc c rs1 qs nx]. cbn [remotes conn_cache query_ctxs next crypto] in *. subst cc rs1 qs nx.
  assert (remotes s !! next s = None) as Hfresh.
  { destruct (remotes s !! next s) as [r0|] eqn:E; [|done]. destruct (Hr _ _ E) as (_ & _ & _ & Hlt). lia. }
  set (k := hash_key (af r) (src_addr r)). set (new := Cache.mkEntry k (Some (next s)) now).
  assert (cached (slots (Cache.entries (conn_cache s) ++ [new])) (<[next s := started r]> (remotes s))) as Hcached.
  { unfold slots. rewrite map_app. by apply (cached_insert _ _ (next s) (started r)). }
  unfold Cache.cache_insert. fold k. fold new. rewrite Hm.
  destruct (Z.leb_spec MAX_UDP_CONN_NUM (zlen (Cache.entries (conn_cache s) ++ [new]))) as [Hfull|Hfit].
  - destruct (Cache.entries (conn_cache s)) as [|e es] eqn:Ees; [unfold MAX_UDP_CONN_NUM in Hfull; cbn in Hfull; lia|]. cbn [app] in *.
    destruct (ca_entry _ _ Hc (Cache.ekey e) (Cache.data e)) as (old & r0 & Hd & Hold & Hko); [by left|].
    assert (next s <> old) as Hne by (intros <-; congruence).
    cbn [mbind option_bind fst snd]. unfold Cache.drop_entry. rewrite Hd. cbn [free_all]. unfold close_and_free_remote. cbn [set_cache remotes].
    rewrite lookup_insert_ne, Hold by done. cbn [mbind option_bind set_remotes remotes conn_cache crypto query_ctxs next].
    rewrite lookup_delete_ne, lookup_insert_eq by done. cbn [mbind option_bind].
    rewrite delete_insert_ne, insert_insert_eq by done.
    cbn [slots map] in Hcached. rewrite Hd in Hcached. apply cached_head in Hcached as [_ Hcached]. rewrite delete_insert_ne in Hcached by done.
    set (fin := mkServerCtx (Cache.mkCache MAX_UDP_CONN_NUM (es ++ [new])) c (<[next s := started r]> (delete old (remotes s))) (query_ctxs s) (S (next s))).
    assert (later s fin) as Hlater.
    { split; [cbn; lia|]. intros j rj Hj. cbn [fin remotes]. rewrite lookup_insert_ne by lia. intros [_ Hrj]%lookup_delete_Some. eauto. }
    exists fin, [Close old]. split; [done|]. split_and!; [|exact Hlater| |done|done| |right; eauto].
    + split; cbn [fin conn_cache Cache.entries Cache.max_entries remotes query_ctxs next]; [done|done| | |].
      * rewrite length_app in *. cbn [length] in *. lia.
      * intros j rj [[<- <-]|[Hj [_ Hrj]%lookup_delete_Some]]%lookup_insert_Some.
        { split_and!; [|done|done|lia]. destruct Hro. by split. }
        destruct (Hr j rj Hrj) as (? & ? & ? & ?). split_and!; [done..|lia].
      * intros qid q Hqid. destruct (Hq qid q Hqid) as [Hqo ?]. split; [|lia]. by eapply query_later.
    + unfold accounted. cbn [opened closed omap list_omap app fin remotes]. rewrite (ids_insert (delete old (remotes s))) by (rewrite lookup_delete_ne; done).
      rewrite (ids_delete (remotes s) old r0 Hold). solve_Permutation.
    + cbn [fin remotes]. by rewrite lookup_insert_eq.
  - cbn [mbind option_bind free_all set_cache set_remotes remotes conn_cache crypto query_ctxs next]. rewrite lookup_insert_eq. cbn [mbind option_bind].
    rewrite insert_insert_eq.
    set (fin := mkServerCtx (Cache.mkCache MAX_UDP_CONN_NUM (Cache.entries (conn_cache s) ++ [new])) c (<[next s := started r]> (remotes s)) (query_ctxs s) (S (next s))).
    assert (later s fin) as Hlater.
    { split; [cbn; lia|]. intros j rj Hj. cbn [fin remotes]. rewrite lookup_insert_ne by lia. eauto. }
    exists fin, []. split; [done|]. split_and!; [|exact Hlater| |done|done| |by left].
    + split; cbn [fin conn_cache Cache.entries Cache.max_entries remotes query_ctxs next]; [done|done|lia| |].
      * intros j rj [[<- <-]|[Hj Hrj]]%lookup_insert_Some.
        { split_and!; [|done|done|lia]. destruct Hro. by split. }
        destruct (Hr j rj Hrj) as (? & ? & ? & ?). split_and!; [done..|lia].
      * intros qid q Hqid. destruct (Hq qid q Hqid) as [Hqo ?]. split; [|lia]. by eapply query_later.
    + unfold accounted. cbn [opened closed omap list_omap app fin remotes]. by rewrite (ids_insert (remotes s)).
    + cbn [fin remotes]. by rewrite lookup_insert_eq.
Qed.

(** Sending on a new context. *)
Lemma send_new_spec id r f send_ok addr data now s s1 : wf s -> id = next s -> remotes s1 = <[id := r]> (remotes s) -> conn_cache s1 = conn_cache s ->
  query_ctxs s1 = query_ctxs s -> next s1 = S id -> remote_ok (rset_af f r) -> hash_key f (src_addr r) ∉ (slots (Cache.entries (conn_cache s))).*1 ->
  exists s2 es, send_to id false send_ok f addr data now s1 = Some (s2, es) /\ wf s2 /\ later s s2 /\ accounted (Socket id :: es) (remotes s) (remotes s2) /\
    query_ctxs s2 = query_ctxs s /\ crypto s2 = crypto s1 /\ Forall (from_client (src_addr r) s2) es /\
    if send_ok then remotes s2 !! id = Some (started (rset_af f r)) /\ exists es', es = ToPeer id addr data :: es' /\ (es' = [] \/ exists j, es' = [Close j])
    else True.
Proof using.
  intros Hwf Eid Er Ec Eq En Hro Hk. unfold send_to. destruct send_ok.
  - assert (remotes s1 !! id = Some r) as -> by (rewrite Er; apply lookup_insert_eq). cbn [mbind option_bind].
    destruct (add_conn_spec id (rset_af f r) now s (set_remotes (<[id := rset_af f r]> (remotes s1)) s1)) as (s2 & es & -> & Hwf2 & Hlater & Hacc & Hq2 & Hcr & Hid2 & Hes);
      [done|done| |done|done|done|done|done|].
    { cbn [set_remotes remotes]. by rewrite Er, insert_insert_eq. }
    cbn [mbind option_bind]. eexists _, _. split; [done|]. split_and!; try done.
    + constructor; [exists (started (rset_af f r)); done|]. destruct Hes as [->|[j ->]]; by repeat constructor.
    + eauto.
  - unfold close_and_free_remote. rewrite Er, Eid, lookup_insert_eq. cbn [mbind option_bind].
    pose proof Hwf as [Hc Hm Hroom Hr Hq].
    assert (remotes s !! next s = None) as Hfresh.
    { destruct (remotes s !! next s) as [r0|] eqn:E; [|done]. destruct (Hr _ _ E) as (_ & _ & _ & Hlt). lia. }
    eexists _, _. split; [done|]. rewrite delete_insert_id by done. split_and!; try done.
    + apply (wf_change s); cbn [set_remotes conn_cache remotes query_ctxs next]; [done|by rewrite Ec|by rewrite Ec|done|done|lia].
    + split; cbn [set_remotes remotes next]; [lia|eauto].
    + unfold accounted. cbn. by rewrite <- Eid.
    + by repeat constructor.
Qed.

Notation relay_packet := (relay_packet dns_ntop dns_pton cork_ip_init resolv_mode packet_size).
Notation ask_port f := (be_bytes 2 (u16 (atoi (dec (be_val (form_port f)))))).

(** What becomes of a datagram for [f] with [data]. *)
Inductive relayed (f : form) (data src : list Z) (socket_ok send_ok submit4 submit6 : bool) s : server_ctx -> list effect -> Prop :=
| R_long s' es : packet_size < zlen data -> remotes s' = remotes s -> query_ctxs s' = query_ctxs s -> next s' = next s ->
    opened es = [] -> closed es = [] -> Forall (from_client src s') es -> relayed f data src socket_ok send_ok submit4 submit6 s s' es
| R_known id r s' : remotes s !! id = Some r -> af r = sa_family (form_dst f) -> src_addr r = src ->
    (is_ip (af r) = true \/ addr_header r = form_bytes f) -> remotes s' = remotes s -> query_ctxs s' = query_ctxs s -> next s' = next s ->
    let dst := if bool_decide (addr_header r = form_bytes f) then dst_addr r else form_dst f in
    relayed f data src socket_ok send_ok submit4 submit6 s s' (Restart id :: if send_ok then [ToPeer id (take (get_sockaddr_len dst) dst) data] else [])
| R_new s' es : is_ip (sa_family (form_dst f)) = true -> socket_ok = true ->
    (forall id r, remotes s !! id = Some r -> conn_key r <> hash_key (sa_family (form_dst f)) src) ->
    later s s' -> accounted (Socket (next s) :: es) (remotes s) (remotes s') -> query_ctxs s' = query_ctxs s -> Forall (from_client src s') es ->
    (if send_ok then
       remotes s' !! next s = Some (mkRemoteCtx (sa_family (form_dst f)) (form_bytes f) src (form_dst f) true true) /\
       exists es', es = ToPeer (next s) (take (get_sockaddr_len (form_dst f)) (form_dst f)) data :: es' /\ (es' = [] \/ exists j, es' = [Close j])
     else True) ->
    relayed f data src socket_ok send_ok submit4 submit6 s s' (Socket (next s) :: es)
| R_no_socket s' : is_ip (sa_family (form_dst f)) = true -> socket_ok = false -> remotes s' = remotes s -> query_ctxs s' = query_ctxs s -> next s' = next s ->
    relayed f data src socket_ok send_ok submit4 submit6 s s' []
| R_ask id s' : sa_family (form_dst f) = AF_UNSPEC ->
    match id with
    | Some id => exists r, remotes s !! id = Some r /\ af r = AF_UNSPEC /\ src_addr r = src /\ addr_header r <> form_bytes f
    | None => forall id r, remotes s !! id = Some r -> conn_key r <> hash_key AF_UNSPEC src
    end ->
    remotes s' = remotes s ->
    query_ctxs s' = <[next s := mkQueryCtx (resolv_query resolv_mode submit4 submit6 (ask_port f)) src data (form_bytes f) id]> (query_ctxs s) ->
    next s' = S (next s) ->
    relayed f data src socket_ok send_ok submit4 submit6 s s' (match id with Some id => [Restart id] | None => [] end ++ [Query (form_host dns_ntop f) (ask_port f)]).

Lemma remote_family id r s : wf s -> remotes s !! id = Some r -> 0 <= af r < 2 ^ 32 /\ addr_ok (src_addr r).
Proof using.
  intros Hwf Hr. destruct (wf_remote _ Hwf id r Hr) as ([Hs _ (f & _ & _ & _ & Hf)] & _). split; [|done].
  unfold is_ip in Hf. destruct (Z.eqb_spec (af r) AF_INET) as [->|]; [by vm_compute|]. destruct (Z.eqb_spec (af r) AF_INET6) as [->|]; [by vm_compute|].
  cbn in Hf. rewrite Hf. by vm_compute.
Qed.

Lemma dst_family f : form_ok f -> 0 <= sa_family (form_dst f) < 2 ^ 32.
Proof using dns_pton_size. intros Hf. destruct (form_dst_ok dns_pton cork_ip_init dns_pton_size f Hf) as [_ [-> | [-> | ->]]]; by vm_compute. Qed.

(** The same bytes are the same header. *)
Lemma form_dst_bytes f g : form_ok f -> form_ok g -> form_bytes f = form_bytes g -> form_dst f = form_dst g.
Proof using dns_ntop.
  intros Hf Hg E. pose proof (parse_form dns_ntop dns_pton cork_ip_init f [] (zlen (form_bytes f)) Hf ltac:(lia)) as Pf.
  pose proof (parse_form dns_ntop dns_pton cork_ip_init g [] (zlen (form_bytes f)) Hg ltac:(rewrite E; lia)) as Pg.
  rewrite E in Pf. rewrite E in Pg. rewrite Pg in Pf. by injection Pf.
Qed.

Lemma query_live submit4 submit6 p h : length p = 2%nat -> resolv_query resolv_mode submit4 submit6 p = Live h ->
  Forall response_ok (responses h) /\ length (port h) = 2%nat.
Proof using. intros Hp. unfold resolv_query. cbv zeta. destruct (all_queries_are_null _); [done|]. intros [= <-]. done. Qed.

Lemma wf_ask id host port src f data submit4 submit6 s : wf s -> addr_ok src -> form_ok f -> is_bytes (form_bytes f) -> is_bytes data ->
  (forall i, id = Some i -> exists r, remotes s !! i = Some r /\ src_addr r = src /\ af r = AF_UNSPEC) ->
  wf (fst (ask resolv_mode id host port src (form_bytes f) data submit4 submit6 s)).
Proof using.
  intros Hwf Hsrc Hf Hb Hd Hid. pose proof Hwf as [Hc Hm Hroom Hr Hq]. unfold ask. cbn [fst].
  assert (later s (set_next (S (next s)) s)) as Hlater by (split; cbn; [lia|eauto]).
  split; cbn [set_next set_queries conn_cache remotes query_ctxs next]; [done..| |].
  - intros i r Hi. destruct (Hr i r Hi) as (? & ? & ? & ?). split_and!; [done..|lia].
  - intros qid q [[<- <-]|[Hne Hqid]]%lookup_insert_Some.
    + split; [|lia]. split; cbn [q_src_addr q_buf q_addr_header q_remote_ctx query]; [done|done|eauto| |].
      * intros i Hi. destruct (Hid i Hi) as (r & Hir & E1 & E2). destruct (Hr i r Hir) as (_ & _ & _ & Hlt). cbn [set_next set_queries next remotes]. split; [lia|].
        intros r' Hr'. rewrite Hir in Hr'. injection Hr' as <-. done.
      * intros h. apply query_live. apply length_be_bytes.
    + destruct (Hq qid q Hqid) as [Hqo ?]. split; [|lia]. destruct Hqo as [? ? ? Hrem ?]. split; try done. cbn [set_next set_queries next remotes].
      intros i Hi. destruct (Hrem i Hi). split; [lia|done].
Qed.

Lemma relay_packet_spec f data junk b src socket_ok send_ok submit4 submit6 now s :
  wf s -> form_ok f -> array b = form_bytes f ++ data ++ junk -> len b = zlen (form_bytes f ++ data) -> zlen (array b) < 2 ^ 28 ->
  is_bytes (form_bytes f) -> is_bytes data -> addr_ok src ->
  exists s' es, relay_packet b src socket_ok send_ok submit4 submit6 now s = Some (s', es) /\ wf s' /\ crypto s' = crypto s /\
    relayed f data src socket_ok send_ok submit4 submit6 s s' es.
Proof using H1 dns_pton_size sizes.
  intros Hwf Hf Ea El Hsz Hbf Hbd Hsrc. unfold UdpRelay.relay_packet. rewrite Ea, El.
  pose proof (form_length f Hf) as Hfl. rewrite Ea, !length_app in Hsz. rewrite (parse_form dns_ntop dns_pton cork_ip_init f (data ++ junk)) by (done || rewrite length_app; lia).
  cbn [mbind option_bind]. rewrite (proj2 (Z.eqb_neq (zlen (form_bytes f)) 0)) by lia.
  set (fam := sa_family (form_dst f)).
  assert (u64 (zlen (form_bytes f ++ data) - zlen (form_bytes f)) = zlen data) as En by (rewrite length_app, u64_id by lia; lia).
  assert (u64 packet_size = packet_size) as Eps by (apply u64_id; lia).
  destruct (lookup_conn_spec (hash_key fam src) now s Hwf) as (es' & Hwf' & Hcase). set (s1 := set_cache _ s) in *.
  assert (mread (form_bytes f ++ data ++ junk) 0 (zlen (form_bytes f)) = Some (form_bytes f)) as Hh by (apply mread_prefix; lia).
  assert (mread (form_bytes f ++ data ++ junk) (zlen (form_bytes f)) (zlen data) = Some data) as Hd by (apply mread_app; lia).
  destruct Hcase as [[-> Hk]|(id & r & -> & Hr & Hkey)]; cbn [mbind option_bind same_client].
  - cbv zeta. rewrite En, Eps. assert (forall id r, remotes s !! id = Some r -> conn_key r <> hash_key fam src) as Hnone.
    { intros id r Hr Heq. apply Hk. rewrite <- Heq. apply (ca_remote _ _ (wf_cached _ Hwf')) in Hr. apply list_elem_of_fmap. by exists (conn_key r, Some id). }
    destruct (Z.ltb_spec packet_size (zlen data)); [exists s1, []; split_and!; [done..|]; by apply R_long|].
    rewrite Hh, Hd. cbn [mbind option_bind choose_route]. destruct (is_ip (sa_family (form_dst f))) eqn:Eip; [destruct socket_ok|].
    + cbn [new_remote mbind option_bind]. fold fam.
      destruct (send_new_spec (next s1) (mkRemoteCtx AF_UNSPEC (form_bytes f) src (form_dst f) false false) fam send_ok
        (take (get_sockaddr_len (form_dst f)) (form_dst f)) data now s1
        (set_next (S (next s1)) (set_remotes (<[next s1 := mkRemoteCtx AF_UNSPEC (form_bytes f) src (form_dst f) false false]> (remotes s1)) s1)))
        as (s2 & es & Hsend & Hwf2 & Hl & Hacc & Hq & Hcr & Hfr & Hres); try done.
      { split; cbn [rset_af src_addr dst_addr af addr_header]; [done|by apply form_dst_ok|]. exists f. unfold fam. rewrite Eip. done. }
      rewrite Hsend. cbn [mbind option_bind]. eexists _, _. split; [done|]. split_and!; [done|done|]. cbn [app].
      apply (R_new f data src true send_ok submit4 submit6 s s2 es); done.
    + eexists _, _. split; [done|]. split_and!; [done|done|]. by apply R_no_socket.
    + cbn [mbind option_bind]. unfold ask. eexists _, _. split; [done|].
      assert (sa_family (form_dst f) = AF_UNSPEC) as Hu.
      { destruct (form_dst_ok dns_pton cork_ip_init dns_pton_size f Hf) as [_ [? | [E | E]]]; [done| |]; by rewrite E in Eip. }
      split_and!; [exact (wf_ask None (form_host dns_ntop f) (dec (be_val (form_port f))) src f data submit4 submit6 s1 Hwf' Hsrc Hf Hbf Hbd ltac:(done))|done|apply (R_ask f data src _ _ _ _ s None); try done; unfold fam in Hnone; by rewrite Hu in Hnone].
  - change (remotes s1) with (remotes s). rewrite Hr. cbn [mbind option_bind].
    destruct (remote_family id r s Hwf Hr) as [Hfam Hsr].
    apply hash_key_inj in Hkey as [Haf Hsrcr]; [|by rewrite (proj1 Hsr), (proj1 Hsrc)|done|by apply dst_family].
    rewrite Hsrcr, sockaddr_cmp_refl. change (0 =? 0) with true. cbv iota zeta. cbn [mbind option_bind]. rewrite En, Eps.
    destruct (Z.ltb_spec packet_size (zlen data)); [exists s1, [Restart id]; split_and!; [done..|]; by apply R_long; repeat constructor|].
    rewrite Hh, Hd. cbn [mbind option_bind choose_route]. change (remotes s1) with (remotes s). rewrite Hr. cbn [mbind option_bind].
    destruct (bool_decide (addr_header r = form_bytes f)) eqn:Ehd; [|destruct (is_ip (sa_family (form_dst f))) eqn:Eip].
    + pose proof (R_known f data src socket_ok send_ok submit4 submit6 s id r s1 Hr Haf Hsrcr) as Hout. rewrite Ehd in Hout. apply bool_decide_eq_true in Ehd.
      unfold send_to. destruct send_ok; cbn [mbind option_bind app]; eexists _, _; (split; [done|]); (split_and!; [done..|]); apply Hout; try done; by right.
    + pose proof (R_known f data src socket_ok send_ok submit4 submit6 s id r s1 Hr Haf Hsrcr) as Hout. rewrite Ehd in Hout.
      unfold send_to. destruct send_ok; cbn [mbind option_bind app]; eexists _, _; (split; [done|]); (split_and!; [done..|]); apply Hout; try done; left; unfold fam in Haf; by rewrite Haf.
    + assert (sa_family (form_dst f) = AF_UNSPEC) as Hu.
      { destruct (form_dst_ok dns_pton cork_ip_init dns_pton_size f Hf) as [_ [? | [E | E]]]; [done| |]; by rewrite E in Eip. }
      unfold fam in Haf. rewrite Hu in Haf. apply bool_decide_eq_false in Ehd.
      cbn [mbind option_bind]. unfold ask at 1. eexists _, _. split; [done|]. split_and!; [|done|apply (R_ask f data src _ _ _ _ s (Some id)); try done; by exists r].
      refine (wf_ask (Some id) (form_host dns_ntop f) (dec (be_val (form_port f))) src f data submit4 submit6 s1 Hwf' Hsrc Hf Hbf Hbd _). intros i [= <-]. by exists r.
Qed.

(** ** Callbacks *)

Definition stepped (who : list Z) s (es : list effect) s' : Prop :=
  wf s' /\ later s s' /\ accounted es (remotes s) (remotes s') /\ Forall (from_client who s') es.

Lemma later_same s s' : remotes s' = remotes s -> (next s <= next s')%nat -> later s s'.
Proof using. intros Er Hn. split; [done|]. rewrite Er. eauto. Qed.

Lemma stepped_same who s s' es : wf s' -> remotes s' = remotes s -> (next s <= next s')%nat -> opened es = [] -> closed es = [] ->
  Forall (from_client who s') es -> stepped who s es s'.
Proof using. intros Hwf Er Hn Ho Hc Hf. split_and!; [done|by apply later_same| |done]. rewrite Er. by apply accounted_nil. Qed.

Lemma relayed_stepped f data src socket_ok send_ok submit4 submit6 s s' es : wf s -> wf s' ->
  relayed f data src socket_ok send_ok submit4 submit6 s s' es -> stepped src s es s'.
Proof using.
  intros Hwf Hwf'. destruct 1 as [s' es _ Er _ En Ho Hc Hf|id r s' Hr _ Hs _ Er _ En dst|s' es _ _ _ Hl Ha _ Hf _|s' _ _ Er _ En|id s' _ Hid Er _ En].
  - apply stepped_same; try done. lia.
  - apply stepped_same; [done|done|lia|by destruct send_ok|by destruct send_ok|]. constructor; [done|]. destruct send_ok; repeat constructor.
    exists r. rewrite Er. done.
  - split_and!; [done..|]. by constructor.
  - apply stepped_same; try done. lia.
  - apply stepped_same; [done|done|lia|by destruct id|by destruct id|by destruct id; repeat constructor].
Qed.

Lemma wf_set_crypto c s : wf s -> wf (set_crypto c s).
Proof using. intros Hwf. apply (wf_change s); try done. exact (wf_max s Hwf). Qed.

Lemma stepped_crypto who c s s' es : stepped who (set_crypto c s) es s' -> stepped who s es s'.
Proof using. done. Qed.

Lemma stepped_tx who n s s' es : stepped who s es s' -> stepped who s (Tx n :: es) s'.
Proof using. intros (? & ? & ? & ?). split_and!; try done. by constructor. Qed.

Notation server_recv_cb := (server_recv_cb malloc dns_ntop dns_pton cork_ip_init resolv_mode packet_size buf_size auth).

Lemma fresh_buffer bytes : is_bytes bytes -> zlen bytes <= buf_size ->
  exists a, mwrite (malloc buf_size) 0 bytes = Some a /\ buf_ok (mkBuf a (zlen bytes)) /\ zlen a = buf_size /\ holds (mkBuf a (zlen bytes)) bytes.
Proof using malloc_size malloc_bytes sizes.
  intros Hb Hl. pose proof (malloc_size buf_size ltac:(lia)) as Hm. destruct (split_block (malloc buf_size) (length bytes)) as (x & y & E & Hx); [lia|].
  exists (bytes ++ y). assert (is_bytes y) as Hy by (pose proof (malloc_bytes buf_size) as Hmb; rewrite E in Hmb; by apply Forall_app in Hmb as [_ ?]).
  rewrite E, length_app in Hm. split_and!.
  - rewrite E. by apply (mwrite_app [] x y 0 bytes).
  - split_and!; cbn [len array]; [lia|rewrite length_app; lia|rewrite length_app; lia|by apply Forall_app].
  - rewrite length_app. lia.
  - split_and!; cbn [len array]; [done|by exists y|rewrite length_app; lia].
Qed.

Lemma is_bytes_take n l : is_bytes l -> is_bytes (take n l).
Proof using. apply Forall_take. Qed.

Lemma server_recv_stepped bytes src socket_ok send_ok submit4 submit6 now s : wf s -> is_bytes bytes -> addr_ok src ->
  exists s' es, server_recv_cb (Some (bytes, src)) socket_ok send_ok submit4 submit6 now s = Some (s', es) /\ stepped src s es s'.
Proof using H1 dns_pton_size sizes CL malloc_size malloc_bytes.
  intros Hwf Hb Hsrc. unfold UdpRelay.server_recv_cb.
  destruct (fresh_buffer (take (Z.to_nat buf_size) bytes)) as (a & -> & Hok & Ha & _); [by apply is_bytes_take|rewrite length_take; lia|].
  cbn [mbind option_bind]. destruct (_ <? _); [eexists _, _; split; [done|]; by apply stepped_same|].
  destruct (decrypt_defined (crypto s) _ auth buf_size Hok) as (c & err & r & -> & Hr); [lia|]. cbn [mbind option_bind].
  destruct (Z.eqb_spec err 0) as [E|E]; cbn [negb].
  2: { eexists _, _. split; [done|]. apply stepped_same; try done; [by apply wf_set_crypto|by repeat constructor]. }
  destruct (Hr E) as (b & -> & (Hlen & Hsz & Hbb) & Hgrow). cbn [mbind option_bind array] in *.
  assert (exists s' es, relay_packet b src socket_ok send_ok submit4 submit6 now (set_crypto c s) = Some (s', es) /\ stepped src s es s') as (s' & es & -> & Hst).
  2: { cbn [mbind option_bind]. eexists _, _. split; [done|]. by apply stepped_tx. }
  destruct (parse_cases dns_ntop dns_pton cork_ip_init (array b) (len b)) as [(f & rest & Ef & Hf & Hfl)|(host & port & Hp)]; [done|lia|lia| |].
  - rewrite Ef in Hbb. apply Forall_app in Hbb as [Hbf Hbr]. rewrite Ef, length_app in Hlen.
    set (n := Z.to_nat (len b - zlen (form_bytes f))).
    destruct (relay_packet_spec f (take n rest) (drop n rest) b src socket_ok send_ok submit4 submit6 now (set_crypto c s)) as (s' & es & E2 & Hwf' & _ & Hrel); try done.
    + by apply wf_set_crypto.
    + by rewrite take_drop.
    + rewrite length_app, length_take. lia.
    + by apply is_bytes_take.
    + eexists _, _. split; [exact E2|]. apply (stepped_crypto src c). eapply relayed_stepped; [by apply wf_set_crypto|done|exact Hrel].
  - unfold UdpRelay.relay_packet. rewrite Hp. cbn [mbind option_bind]. change (0 =? 0) with true. cbv iota. eexists _, _. split; [done|].
    apply stepped_same; try done. by apply wf_set_crypto.
Qed.

(** ** A peer's reply *)

Notation remote_recv_cb := (remote_recv_cb malloc realloc packet_size buf_size).

(** The header of a reply. *)
Definition reply_header (r : remote_ctx) (src : list Z) : list Z := if is_ip (af r) then construct_udprealy_header src else addr_header r.

Lemma construct_bytes a : is_bytes a -> is_bytes (construct_udprealy_header a).
Proof using.
  intros Ha. unfold construct_udprealy_header, sin_addr, sin6_addr, sin_port.
  assert (forall x y, is_bytes (take x (drop y a))) as Ht by (intros; by apply Forall_take, Forall_drop).
  destruct (_ =? _); [|destruct (_ =? _); [|done]]; (apply Forall_app; split; [repeat constructor; lia|]; by apply Forall_app).
Qed.

Lemma reply_header_ok id r src s : wf s -> remotes s !! id = Some r -> addr_ok src -> is_bytes (reply_header r src) /\ (length (reply_header r src) <= 259)%nat.
Proof using.
  intros Hwf Hr Hsrc. unfold reply_header. destruct (is_ip (af r)).
  - split; [by apply construct_bytes, Hsrc|]. pose proof (construct_length src Hsrc). lia.
  - destruct (wf_remote _ Hwf id r Hr) as ([_ _ (f & Hf & E & Hb & _)] & _). split; [done|]. rewrite E. pose proof (form_length f Hf). lia.
Qed.

(** The buffer a reply is encrypted from. *)
Lemma reply_buffer (header data a : list Z) : is_bytes header -> is_bytes a -> (length header <= 259)%nat -> zlen data <= packet_size -> zlen a = buf_size ->
  data `prefix_of` a ->
  exists a', (let b := brealloc realloc (mkBuf a (zlen data)) (zlen data + zlen header) buf_size in
     data ← mread (array b) 0 (zlen data); a ← mwrite (array b) (zlen header) data; mwrite a 0 header) = Some a' /\
    buf_ok (mkBuf a' (zlen data + zlen header)) /\ holds (mkBuf a' (zlen data + zlen header)) (header ++ data).
Proof using sizes.
  intros Hh Ha Hhl Hd Hsz [junk ->]. cbv zeta. unfold brealloc. rewrite (proj2 (Z.ltb_ge _ _)) by (cbn [array]; lia). cbn [array].
  rewrite mread_prefix by lia. cbn [mbind option_bind]. apply Forall_app in Ha as [Hbd Hbj]. rewrite length_app in Hsz.
  destruct (split_block (data ++ junk) (length header)) as (x & y & E & Hx); [rewrite length_app; lia|]. rewrite E.
  pose proof (f_equal length E) as El. rewrite !length_app in El.
  assert (is_bytes y) as Hby. { assert (is_bytes (x ++ y)) as Hxy by (rewrite <- E; by apply Forall_app). by apply Forall_app in Hxy as [_ ?]. }
  destruct (split_block y (length data)) as (u & v & -> & Hu); [lia|]. rewrite length_app in El.
  rewrite (mwrite_app x u v) by lia. cbn [mbind option_bind]. change (x ++ data ++ v) with ([] ++ x ++ data ++ v). rewrite (mwrite_app [] x (data ++ v)) by done.
  eexists. split; [done|]. apply Forall_app in Hby as [_ Hbv]. cbn [app].
  split; split_and!; cbn [len array]; rewrite ?length_app; try lia.
  - repeat (apply Forall_app; split); done.
  - exists v. list_assoc.
Qed.

Lemma remote_recv_spec id r bytes src send_ok s : wf s -> remotes s !! id = Some r -> is_bytes bytes -> addr_ok src ->
  exists s' es, remote_recv_cb id (Some (bytes, src)) send_ok s = Some (s', es) /\ wf s' /\ remotes s' = remotes s /\ query_ctxs s' = query_ctxs s /\ next s' = next s /\
    (es = [] \/ exists n, es = [Rx n] \/ exists out, es = [Rx n; ToClient (take (get_sockaddr_len (src_addr r)) (src_addr r)) out; Restart id]).
Proof using RL sizes CL malloc_size malloc_bytes.
  intros Hwf Hr Hb Hsrc. unfold UdpRelay.remote_recv_cb. rewrite Hr. cbn [mbind option_bind].
  set (data := take (Z.to_nat buf_size) bytes).
  destruct (fresh_buffer data) as (a & -> & Hok & Ha & (_ & Hpre & _)); [by apply is_bytes_take|unfold data; rewrite length_take; lia|].
  cbn [mbind option_bind array] in *. destruct (Z.ltb_spec packet_size (zlen data)); [eexists _, _; split; [done|]; split_and!; eauto|]. fold (reply_header r src).
  destruct (reply_header_ok id r src s Hwf Hr Hsrc) as [Hhb Hhl].
  destruct (reply_buffer (reply_header r src) data a Hhb (proj2 (proj2 Hok)) Hhl) as (a' & E & Hok' & _); [done..|]. cbv zeta in E |- *.
  destruct (mread _ 0 (zlen data)) as [d|]; [|done]. cbn [mbind option_bind] in *. destruct (mwrite _ (zlen (reply_header r src)) d) as [a1|]; [|done].
  cbn [mbind option_bind] in *. rewrite E. cbn [mbind option_bind].
  destruct (encrypt_defined (crypto s) _ buf_size Hok') as (c & err & res & -> & Hres); [cbn [len]; lia|]. cbn [mbind option_bind].
  assert (wf (set_crypto c s)) as Hwf' by by apply wf_set_crypto.
  destruct (Z.eqb_spec err 0) as [Ee|Ee]; cbn [negb]; [|eexists _, _; split; [done|]; split_and!; eauto].
  destruct (Hres Ee) as (b & -> & (Hlen & Hbsz & _)). cbn [mbind option_bind].
  destruct (_ <? _); [eexists _, _; split; [done|]; split_and!; eauto|].
  rewrite mread_in by lia. cbn [mbind option_bind]. destruct send_ok; eexists _, _; (split; [done|]); split_and!; eauto.
Qed.

(** ** Timeouts *)

Lemma remote_timeout_spec id r s : wf s -> remotes s !! id = Some r ->
  exists s', remote_timeout_cb id s = Some (s', [Close id]) /\ wf s' /\ remotes s' = delete id (remotes s) /\ query_ctxs s' = query_ctxs s /\ next s' = next s.
Proof using H1.
  intros Hwf Hr. pose proof Hwf as [Hc Hm Hroom Hrem Hq]. unfold remote_timeout_cb. rewrite Hr. cbn [mbind option_bind].
  pose proof (ca_remote _ _ Hc id r Hr) as Hin. destruct (conn_cache s) as [mx es] eqn:Es. cbn [Cache.entries Cache.max_entries] in *. subst mx.
  cbn [Cache.cache_remove Cache.entries]. fold (conn_key r). destruct (Cache.hash_find es (conn_key r)) as [i|] eqn:E.
  2: { exfalso. apply Cache.hash_find_none in E. apply list_elem_of_fmap in Hin as (e & [= Hk _] & He). rewrite Forall_forall in E. by apply (E e He). }
  apply Cache.find_split in E as (pre & e & post & -> & <- & Hk). rewrite list_lookup_middle by done. rewrite delete_middle. cbn [mbind option_bind fst snd Cache.max_entries].
  assert (slots (pre ++ e :: post) ≡ₚ (conn_key r, Cache.data e) :: slots (pre ++ post)) as Hp.
  { unfold slots. rewrite !map_app. cbn [map]. rewrite Hk. solve_Permutation. }
  pose proof (cached_perm _ _ _ Hp Hc) as Hc'. rewrite Hp in Hin.
  assert (Cache.data e = Some id) as Hd.
  { destruct (ca_entry _ _ Hc' (conn_key r) (Cache.data e)) as (id' & r' & Hd & _); [by left|]. apply elem_of_cons in Hin as [[= ->]|Hin]; [done|].
    exfalso. pose proof (ca_keys _ _ Hc') as Hnd. apply NoDup_cons in Hnd as [Hn _]. apply Hn. apply list_elem_of_fmap. by exists (conn_key r, Some id). }
  unfold Cache.drop_entry. rewrite Hd in *. cbn [free_all]. unfold close_and_free_remote. cbn [set_cache remotes]. rewrite Hr. cbn [mbind option_bind].
  set (fin := mkServerCtx (Cache.mkCache MAX_UDP_CONN_NUM (pre ++ post)) (crypto s) (delete id (remotes s)) (query_ctxs s) (next s)).
  exists fin. split; [done|]. assert (later s fin) as Hlater by (split; [done|]; cbn; intros j rj _ [_ Hj]%lookup_delete_Some; eauto).
  split_and!; [|done..]. split; cbn [fin conn_cache Cache.entries Cache.max_entries remotes query_ctxs next].
  - by apply cached_head in Hc' as [_ Hc'].
  - done.
  - rewrite !length_app in *. cbn [length] in Hroom. lia.
  - intros j rj [_ Hj]%lookup_delete_Some. by apply Hrem.
  - intros qid q Hqid. destruct (Hq qid q Hqid) as [Hqo ?]. split; [|done]. by eapply query_later.
Qed.

(** ** Resolved names *)

Lemma response_cut sa : response_ok sa -> take (get_sockaddr_len sa) sa = sa.
Proof using. unfold get_sockaddr_len. intros [[-> Hl] | [-> Hl]]; apply take_ge; rewrite Hl; by apply Nat.leb_le. Qed.

(** A context gets a new destination; for one of a name that is no matter. *)
Lemma wf_set_dst id r dst s : wf s -> remotes s !! id = Some r -> af r = AF_UNSPEC -> length dst = storage_size ->
  wf (set_remotes (<[id := rset_dst dst r]> (remotes s)) s) /\ later s (set_remotes (<[id := rset_dst dst r]> (remotes s)) s) /\
  ids (<[id := rset_dst dst r]> (remotes s)) ≡ₚ ids (remotes s).
Proof using.
  intros Hwf Hr Haf Hd. pose proof Hwf as [Hc Hm Hroom Hrem Hq].
  assert (later s (set_remotes (<[id := rset_dst dst r]> (remotes s)) s)) as Hlater.
  { split; [done|]. cbn. intros j rj _ [[<- <-]|[_ Hj]]%lookup_insert_Some; [by exists r|eauto]. }
  split_and!; [|done|by eapply ids_update]. split; cbn [set_remotes conn_cache remotes query_ctxs next]; [by eapply cached_update|done|done| |].
  - intros j rj [[<- <-]|[_ Hj]]%lookup_insert_Some; [|by apply Hrem]. destruct (Hrem id r Hr) as ([Hs Hdd (f & Hf & E & Hb & Hip)] & ? & ? & ?).
    split_and!; try done. split; cbn; [done|done|]. exists f. rewrite Haf. done.
  - intros qid q Hqid. destruct (Hq qid q Hqid) as [Hqo ?]. split; [|done]. by eapply query_later.
Qed.

Lemma wf_drop_query qid s : wf s -> wf (set_queries (delete qid (query_ctxs s)) s).
Proof using.
  intros Hwf. pose proof Hwf as [Hc Hm Hroom Hrem Hq]. split; try done. cbn. intros i q [_ Hi]%lookup_delete_Some. destruct (Hq i q Hi) as [Hqo ?].
  split; [|done]. eapply query_later; [|exact Hqo]. by apply later_same.
Qed.

(** What becomes of a query that is answered. *)
Inductive resolved (q : query_ctx) (addr : option (list Z)) (behind : list Z) (socket_ok send_ok : bool) s : server_ctx -> list effect -> Prop :=
| Q_failed s' : addr = None -> remotes s' = remotes s -> next s' = next s -> resolved q addr behind socket_ok send_ok s s' []
| Q_known id r a s' : addr = Some a -> remotes s !! id = Some r -> src_addr r = q_src_addr q -> af r = AF_UNSPEC ->
    remotes s' = <[id := rset_dst (take storage_size (a ++ behind)) r]> (remotes s) -> next s' = next s ->
    resolved q addr behind socket_ok send_ok s s' (if send_ok then [ToPeer id a (q_buf q)] else [])
| Q_new a s' es : addr = Some a -> socket_ok = true -> q_remote_ctx q = None -> later s s' -> accounted (Socket (next s) :: es) (remotes s) (remotes s') ->
    Forall (from_client (q_src_addr q) s') es ->
    (if send_ok then
       remotes s' !! next s = Some (mkRemoteCtx AF_UNSPEC (q_addr_header q) (q_src_addr q) (take storage_size (a ++ behind)) true true) /\
       exists es', es = ToPeer (next s) a (q_buf q) :: es' /\ (es' = [] \/ exists j, es' = [Close j])
     else True) ->
    resolved q addr behind socket_ok send_ok s s' (Socket (next s) :: es)
| Q_no_socket s' : socket_ok = false -> q_remote_ctx q = None -> remotes s' = remotes s -> next s' = next s -> resolved q addr behind socket_ok send_ok s s' [].

(** There is a context for the address, or one can be made. *)
Definition wanted (q : query_ctx) (socket_ok : bool) s : Prop :=
  is_Some (q_remote_ctx q) \/ map_Exists (fun _ r => af r = AF_UNSPEC /\ src_addr r = q_src_addr q) (remotes s) \/ socket_ok = true.
#[local] Instance wanted_dec q socket_ok s : Decision (wanted q socket_ok s).
Proof using. unfold wanted. apply _. Qed.

(** The bytes that are copied from an address, with what is behind it. *)
Definition whole (a behind : list Z) : Prop := (storage_size <= length (a ++ behind))%nat.

Lemma whole_read a behind : whole a behind -> mread (a ++ behind) 0 (Z.of_nat storage_size) = Some (take storage_size (a ++ behind)).
Proof using. unfold whole, storage_size. intros Hw. rewrite mread_in by lia. done. Qed.
Lemma short_read a behind : ~ whole a behind -> mread (a ++ behind) 0 (Z.of_nat storage_size) = None.
Proof using. unfold whole, storage_size. intros Hw. apply mread_huge; lia. Qed.

Lemma query_resolve_spec qid q addr behind socket_ok send_ok now s : wf s -> query_ctxs s !! qid = Some q ->
  (forall a, addr = Some a -> response_ok a) -> (forall a, addr = Some a -> wanted q socket_ok s -> whole a behind) ->
  (forall a id, addr = Some a -> q_remote_ctx q = Some id -> is_Some (remotes s !! id)) ->
  exists s' es, query_resolve_cb qid addr behind socket_ok send_ok now s = Some (s', es) /\ wf s' /\ query_ctxs s' = delete qid (query_ctxs s) /\
    resolved q addr behind socket_ok send_ok s s' es.
Proof using H1.
  intros Hwf Hq Ha Hbeh Hlive. destruct (wf_query _ Hwf qid q Hq) as [[Hqs Hqb (f & Hf & Efh & Hbh) Hqr Hqq] Hlt].
  unfold query_resolve_cb. rewrite Hq. cbn [mbind option_bind].
  pose proof (wf_drop_query qid s Hwf) as Hwf0. set (s0 := set_queries _ s) in *. change (remotes s) with (remotes s0) in *.
  destruct addr as [a|]; [|exists s0, []; split_and!; [done..|]; by apply Q_failed].
  specialize (Ha a eq_refl). assert (length a = 16 \/ length a = 28)%nat as Hal by (destruct Ha as [[_ ?]|[_ ?]]; lia).
  specialize (Hbeh a eq_refl). assert (whole a behind -> length (take storage_size (a ++ behind)) = storage_size) as Hdl by (rewrite length_take; unfold whole; lia).
  assert (forall id r s1, whole a behind -> wf s1 -> query_ctxs s1 = query_ctxs s0 -> next s1 = next s0 -> remotes s1 = remotes s0 -> remotes s0 !! id = Some r -> src_addr r = q_src_addr q -> af r = AF_UNSPEC ->
    exists s' es, (r ← remotes s1 !! id; dst ← mread (a ++ behind) 0 (Z.of_nat storage_size);
      '(s', es') ← send_to id true send_ok AF_UNSPEC (take (get_sockaddr_len a) a) (q_buf q) now (set_remotes (<[id := rset_dst dst r]> (remotes s1)) s1); Some (s', [] ++ es')) = Some (s', es) /\
      wf s' /\ query_ctxs s' = query_ctxs s0 /\ resolved q (Some a) behind socket_ok send_ok s s' es) as Hknown.
  { intros id r s1 Hw Hwf1 Eq En Er Hr Hs Haf. specialize (Hdl Hw). rewrite Er, Hr, (whole_read _ _ Hw). cbn [mbind option_bind]. rewrite <- Er.
    destruct (wf_set_dst id r (take storage_size (a ++ behind)) s1 Hwf1) as (Hwf2 & _ & _); [by rewrite Er|done|done|].
    rewrite response_cut by done. unfold send_to. rewrite Er in *.
    pose proof (Q_known q (Some a) behind socket_ok send_ok s id r a (set_remotes (<[id := rset_dst (take storage_size (a ++ behind)) r]> (remotes s0)) s1) eq_refl Hr Hs Haf eq_refl En) as Hout.
    destruct send_ok; cbn [mbind option_bind app]; eexists _, _; (split; [done|]); split_and!; done. }
  destruct (q_remote_ctx q) as [id|] eqn:Eq.
  - destruct (Hlive a id eq_refl eq_refl) as [r Hr]. destruct (Hqr id eq_refl) as [_ Hsrc]. destruct (Hsrc r Hr) as [Hs Haf].
    cbn [mbind option_bind]. rewrite bool_decide_eq_true_2 by by eexists. apply (Hknown id r s0); try done. apply Hbeh. left. by eexists.
  - destruct (lookup_conn_spec (hash_key AF_UNSPEC (q_src_addr q)) now s0 Hwf0) as (es1 & Hwf1 & [[-> Hk]|(id & r & -> & Hr & Hkey)]); cbn [mbind option_bind].
    + destruct socket_ok; [|eexists _, _; split; [done|]; split_and!; [done..|]; by apply Q_no_socket]. set (s1 := set_cache _ s0) in *.
      cbn [new_remote set_next set_remotes remotes]. rewrite lookup_insert_eq. cbn [mbind option_bind].
      assert (whole a behind) as Hw by (apply Hbeh; by right; right). specialize (Hdl Hw). rewrite (whole_read _ _ Hw). cbn [mbind option_bind].
      rewrite bool_decide_eq_false_2 by by intros [? [=]]. rewrite insert_insert_eq, response_cut by done.
      destruct (send_new_spec (next s1) (mkRemoteCtx AF_UNSPEC (q_addr_header q) (q_src_addr q) (take storage_size (a ++ behind)) false false) AF_UNSPEC send_ok
        a (q_buf q) now s1 (mkServerCtx (conn_cache s1) (crypto s1) (<[next s1 := mkRemoteCtx AF_UNSPEC (q_addr_header q) (q_src_addr q) (take storage_size (a ++ behind)) false false]> (remotes s1)) (query_ctxs s1) (S (next s1))))
        as (s2 & es & Hsend & Hwf2 & Hl & Hacc & Hq2 & Hcr & Hfr & Hres); try done.
      { split; [done|done|]. exists f. done. }
      exists s2, (Socket (next s1) :: es). split; [exact (f_equal (fun x => '(s', es') ← x; Some (s', [Socket (next s1)] ++ es')) Hsend)|].
      split_and!; [done|done|]. apply (Q_new q (Some a) behind true send_ok s a s2 es); done.
    + destruct (remote_family id r s0 Hwf0 Hr) as [Hfam Hsr].
      apply hash_key_inj in Hkey as [Haf Hs]; [|by rewrite (proj1 Hsr), (proj1 Hqs)|done|by vm_compute].
      rewrite bool_decide_eq_true_2 by by eexists. apply (Hknown id r); try done. apply Hbeh. right. left. by exists id, r.
Qed.

(** Less is there than what is copied. *)
Lemma query_resolve_short qid q a behind socket_ok send_ok now s : wf s -> query_ctxs s !! qid = Some q -> wanted q socket_ok s -> ~ whole a behind ->
  query_resolve_cb qid (Some a) behind socket_ok send_ok now s = None.
Proof using H1.
  intros Hwf Hq Hw Hs. destruct (wf_query _ Hwf qid q Hq) as [[Hqs _ _ _ _] _]. unfold query_resolve_cb. rewrite Hq. cbn [mbind option_bind].
  destruct (q_remote_ctx q) as [id|] eqn:Eq.
  - cbn [mbind option_bind]. destruct (remotes (set_queries _ s) !! id); [|done]. cbn [mbind option_bind]. by rewrite (short_read _ _ Hs).
  - destruct (lookup_conn_spec (hash_key AF_UNSPEC (q_src_addr q)) now _ (wf_drop_query qid s Hwf)) as (es1 & Hwf1 & [[-> Hk]|(id & r & -> & Hr & _)]); cbn [mbind option_bind].
    + destruct Hw as [[? Hw]|[(id & r & Hr & Haf & Hsrc)| ->]]; [congruence|destruct Hk; pose proof (ca_remote _ _ (wf_cached _ Hwf1) id r Hr) as Hin; unfold conn_key in Hin; rewrite Haf, Hsrc in Hin; apply list_elem_of_fmap; by eexists (_, Some id)|].
      cbn [new_remote set_next set_remotes remotes]. rewrite lookup_insert_eq. cbn [mbind option_bind]. by rewrite (short_read _ _ Hs).
    + cbn [set_cache remotes] in *. rewrite Hr. cbn [mbind option_bind]. by rewrite (short_read _ _ Hs).
Qed.

Lemma resolved_stepped q addr behind socket_ok send_ok s s' es : wf s' -> resolved q addr behind socket_ok send_ok s s' es -> stepped (q_src_addr q) s es s'.
Proof using.
  intros Hwf'. destruct 1 as [s' _ Er En|id r a s' _ Hr Hs Haf Er En|a s' es _ _ _ Hl Hacc Hf _|s' _ _ Er En].
  - apply stepped_same; try done. lia.
  - split_and!; [done| | |].
    + split; [lia|]. rewrite Er. intros j rj _ [[<- <-]|[_ Hj]]%lookup_insert_Some; [by exists r|eauto].
    + rewrite Er. unfold accounted. rewrite ids_update by done. by destruct send_ok.
    + destruct send_ok; repeat constructor. exists (rset_dst (take storage_size (a ++ behind)) r). by rewrite Er, lookup_insert_eq.
  - split_and!; [done..|]. by constructor.
  - apply stepped_same; try done. lia.
Qed.

Definition answer_ok (v4 : bool) (result : option (list (list Z))) : Prop :=
  forall rs, result = Some rs -> Forall (fun a => length a = if v4 then 4%nat else 16%nat) rs.

Lemma set_sin_response p a : length p = 2%nat -> length a = 4%nat -> response_ok (set_sin p a (malloc 16)).
Proof using malloc_size.
  intros Hp Ha. left. split; [done|]. pose proof (malloc_size 16 ltac:(lia)). unfold set_sin. rewrite !length_app, length_drop. cbn [family_bytes length]. lia.
Qed.
Lemma set_sin6_response p a : length p = 2%nat -> length a = 16%nat -> response_ok (set_sin6 p a (malloc 28)).
Proof using malloc_size.
  intros Hp Ha. right. split; [done|]. pose proof (malloc_size 28 ltac:(lia)). unfold set_sin6. rewrite !length_app, length_take, !length_drop. cbn [family_bytes length]. lia.
Qed.

Lemma chosen_in q a : process_client_callback resolv_mode q = Some a -> a ∈ responses q.
Proof using.
  unfold process_client_callback, choose_ipv4_first, choose_ipv6_first, choose_any.
  assert (forall x, head (responses q) = Some x -> x ∈ responses q) as Hh by (intros x; destruct (responses q); [done|intros [= ->]; by left]).
  assert (forall f x, List.find f (responses q) = Some x -> x ∈ responses q) as Hf by (intros f x Hx; apply List.find_some in Hx as [Hx _]; by apply list_elem_of_In).
  destruct (_ =? _); [destruct (List.find _ _) eqn:E; [intros [= <-]; by eapply Hf|apply Hh]|].
  destruct (_ =? _); [destruct (List.find _ _) eqn:E; [intros [= <-]; by eapply Hf|apply Hh]|apply Hh].
Qed.

Notation answer v4 result h := (if v4 : bool then dns_query_v4_cb malloc resolv_mode result h else dns_query_v6_cb malloc resolv_mode result h).

(** An answer keeps a query in order. *)
Lemma answer_spec v4 result h : answer_ok v4 result -> Forall response_ok (responses h) -> length (port h) = 2%nat ->
  match answer v4 result h with
  | Waiting h' => Forall response_ok (responses h') /\ length (port h') = 2%nat
  | Called addr => forall a, addr = Some a -> response_ok a
  end.
Proof using malloc_size.
  intros Hr Hh Hp. assert (forall h', Forall response_ok (responses h') -> length (port h') = 2%nat -> match completed resolv_mode h' with
    | Waiting h' => Forall response_ok (responses h') /\ length (port h') = 2%nat | Called addr => forall a, addr = Some a -> response_ok a end) as Hc.
  { intros h' H1' H2'. unfold completed. destruct (all_queries_are_null h'); [|done]. intros a Ha%chosen_in. rewrite Forall_forall in H1'. by apply H1'. }
  destruct v4; apply Hc; cbn [responses port]; try done; apply Forall_app; (split; [done|]); destruct result as [rs|]; try done;
    specialize (Hr rs eq_refl); apply Forall_map; (eapply Forall_imp; [exact Hr|]); intros a Ha; cbn.
  - by apply set_sin_response.
  - by apply set_sin6_response.
Qed.

Notation dns_cb := (dns_cb malloc resolv_mode).

(** What an answer for [q] needs to be handled: a context that is still there, if
    it goes to one. *)
Definition not_dangling (v4 : bool) (result : option (list (list Z))) (q : query_ctx) s : Prop :=
  forall h a id, query q = Live h -> answer v4 result h = Called (Some a) -> q_remote_ctx q = Some id -> is_Some (remotes s !! id).

Lemma dns_cb_spec v4 qid q h result behind socket_ok send_ok now s : wf s -> query_ctxs s !! qid = Some q -> query q = Live h ->
  answer_ok v4 result -> (forall a, answer v4 result h = Called (Some a) -> wanted q socket_ok s -> whole a behind) -> not_dangling v4 result q s ->
  exists s' es, dns_cb v4 qid result behind socket_ok send_ok now s = Some (s', es) /\ wf s' /\
    match answer v4 result h with
    | Waiting h' => es = [] /\ s' = set_queries (<[qid := mkQueryCtx (Live h') (q_src_addr q) (q_buf q) (q_addr_header q) (q_remote_ctx q)]> (query_ctxs s)) s
    | Called addr => query_ctxs s' = delete qid (query_ctxs s) /\ resolved q addr behind socket_ok send_ok s s' es
    end.
Proof using H1 malloc_size.
  intros Hwf Hq Hh Hr Hb Hnd. pose proof Hwf as [Hc Hm Hroom Hrem Hqs]. destruct (Hqs qid q Hq) as [Hqo Hlt]. pose proof Hqo as [Hs Hbuf Hhd Hrm Hql].
  destruct (Hql h Hh) as [Hres Hport]. pose proof (answer_spec v4 result h Hr Hres Hport) as Ha. unfold UdpRelay.dns_cb. rewrite Hq. cbn [mbind option_bind]. rewrite Hh.
  specialize (Hnd h). destruct (answer v4 result h) as [h'|addr].
  - eexists _, _. split; [done|]. split; [|done]. split; try done. cbn. intros i q' [[<- <-]|[Hne Hi]]%lookup_insert_Some.
    2: { destruct (Hqs i q' Hi) as [Hqo' ?]. split; [|done]. eapply query_later; [|exact Hqo']. by apply later_same. }
    split; [|done]. split; cbn; [done..|]. intros h'' [= <-]. done.
  - destruct (query_resolve_spec qid q addr behind socket_ok send_ok now s) as (s' & es & -> & Hwf' & Hq' & Hout); try done.
    + intros a ->. by apply Hb.
    + intros a id -> Hid. by eapply Hnd.
    + by exists s', es.
Qed.

Lemma whole_behind v4 qid q h result behind a s : wf s -> query_ctxs s !! qid = Some q -> query q = Live h -> answer_ok v4 result ->
  (112 <= length behind)%nat -> answer v4 result h = Called (Some a) -> whole a behind.
Proof using malloc_size.
  intros Hwf Hq Hh Hr Hb Ha. destruct (wf_query _ Hwf qid q Hq) as [[_ _ _ _ Hql] _]. destruct (Hql h Hh) as [Hres Hport].
  pose proof (answer_spec v4 result h Hr Hres Hport) as Ho. rewrite Ha in Ho. unfold whole, storage_size. rewrite length_app.
  destruct (Ho a eq_refl) as [[_ ->]|[_ ->]]; lia.
Qed.

(** ** Runs *)

Inductive event :=
| Datagram (rcv : option (list Z * list Z)) (socket_ok send_ok submit4 submit6 : bool) (now : Z)
| Answered (v4 : bool) (qid : nat) (result : option (list (list Z))) (behind : list Z) (socket_ok send_ok : bool) (now : Z)
| Replied (id : nat) (rcv : option (list Z * list Z)) (send_ok : bool)
| Timed_out (id : nat).

Definition handle (ev : event) s : option (server_ctx * list effect) :=
  match ev with
  | Datagram rcv socket_ok send_ok submit4 submit6 now => server_recv_cb rcv socket_ok send_ok submit4 submit6 now s
  | Answered v4 qid result behind socket_ok send_ok now => dns_cb v4 qid result behind socket_ok send_ok now s
  | Replied id rcv send_ok => remote_recv_cb id rcv send_ok s
  | Timed_out id => remote_timeout_cb id s
  end.

Definition packet_ok (rcv : option (list Z * list Z)) : Prop := forall bytes src, rcv = Some (bytes, src) -> is_bytes bytes /\ addr_ok src.

(** Events that libev and the DNS library can deliver. *)
Definition enabled (ev : event) s : Prop :=
  match ev with
  | Datagram rcv _ _ _ _ _ => packet_ok rcv
  | Answered v4 qid result _ _ _ _ =>
      (exists q h, query_ctxs s !! qid = Some q /\ query q = Live h /\ (if v4 then fst (queries h) else snd (queries h)) = true) /\
      answer_ok v4 result
  | Replied id rcv _ => (exists r, remotes s !! id = Some r /\ io r = true) /\ packet_ok rcv
  | Timed_out id => exists r, remotes s !! id = Some r /\ watcher r = true
  end.

(** An answer that goes to a context that was closed in the meantime. *)
Definition dangling (ev : event) s : Prop :=
  match ev with
  | Answered v4 qid result _ _ _ _ => exists q h a id, query_ctxs s !! qid = Some q /\ query q = Live h /\
      answer v4 result h = Called (Some a) /\ q_remote_ctx q = Some id /\ remotes s !! id = None
  | _ => False
  end.

(** An answer with an address that is copied past the memory that is there: 128
    bytes from an object of 16 or 28. *)
Definition overread (ev : event) s : Prop :=
  match ev with
  | Answered v4 qid result behind socket_ok _ _ => exists q h a, query_ctxs s !! qid = Some q /\ query q = Live h /\
      answer v4 result h = Called (Some a) /\ wanted q socket_ok s /\ ~ whole a behind
  | _ => False
  end.

(** Both can be decided. *)
Lemma answered_decide (P : query_ctx -> list Z -> Prop) v4 qid result s : (forall q a, Decision (P q a)) ->
  Decision (exists q h a, query_ctxs s !! qid = Some q /\ query q = Live h /\ answer v4 result h = Called (Some a) /\ P q a).
Proof using.
  intros HP. destruct (query_ctxs s !! qid) as [q|] eqn:Eq; [|right; by intros (q & h & a & [=] & _)].
  destruct (query q) as [h|] eqn:Eh; [|right; intros (q' & h & a & [= <-] & Hh & _); congruence].
  assert (forall q' h' a, query_ctxs s !! qid = Some q' -> query q' = Live h' -> answer v4 result h' = Called (Some a) -> q' = q /\ answer v4 result h = Called (Some a)) as Huniq.
  { intros q' h' a Hq' Hh' Ha. assert (q' = q) as -> by congruence. by assert (h' = h) as <- by congruence. }
  rewrite Eq in Huniq. destruct (answer v4 result h) as [h'|[a|]] eqn:Ea.
  2: destruct (HP q a) as [Hp|Hn]; [left; by exists q, h, a|].
  all: right; intros (q' & h2 & a' & Hq' & Hh & Ha & Hp); destruct (Huniq q' h2 a' Hq' Hh Ha) as [-> [= <-]]; done.
Defined.
#[local] Instance overread_dec ev s : Decision (overread ev s).
Proof using. destruct ev; try (right; by intros []); apply answered_decide; intros; unfold whole; apply _. Defined.
#[local] Instance dangling_dec ev s : Decision (dangling ev s).
Proof using.
  destruct ev as [|v4 qid result| |]; try (right; by intros []).
  destruct (answered_decide (fun q a => exists id, q_remote_ctx q = Some id /\ remotes s !! id = None) v4 qid result s) as [Hd|Hd].
  - intros q a. destruct (q_remote_ctx q) as [id|] eqn:E; [|right; by intros (? & [=] & _)].
    destruct (remotes s !! id) as [r|] eqn:Er; [right; intros (? & [= <-] & ?); congruence|left; by exists id].
  - left. destruct Hd as (q & h & a & ? & ? & ? & id & ? & ?). by exists q, h, a, id.
  - right. intros (q & h & a & id & ? & ? & ? & ? & ?). apply Hd. exists q, h, a. split_and!; try done. by exists id.
Defined.

(** Whose datagram an event is about. *)
Definition sender (ev : event) s : option (list Z) :=
  match ev with
  | Datagram (Some (_, src)) _ _ _ _ _ => Some src
  | Answered _ qid _ _ _ _ _ => q_src_addr <$> query_ctxs s !! qid
  | _ => None
  end.

(** What may be sent: to a peer on a context of the sender, to the client whose
    context the reply came on. *)
Definition allowed (ev : event) s s' (e : effect) : Prop :=
  match e with
  | ToPeer id _ _ => exists r, remotes s' !! id = Some r /\ sender ev s = Some (src_addr r)
  | ToClient addr _ => exists id rcv send_ok r, ev = Replied id rcv send_ok /\ remotes s !! id = Some r /\
      addr = take (get_sockaddr_len (src_addr r)) (src_addr r)
  | _ => True
  end.

Lemma from_client_allowed ev who s s' es : sender ev s = Some who -> Forall (from_client who s') es -> Forall (allowed ev s s') es.
Proof using.
  intros Hs Hf. eapply Forall_imp; [exact Hf|]. intros [] He; try done. destruct He as (r & Hr & <-). by exists r.
Qed.

Lemma handle_spec ev s : wf s -> enabled ev s -> ~ dangling ev s -> ~ overread ev s ->
  exists s' es, handle ev s = Some (s', es) /\ wf s' /\ later s s' /\ accounted es (remotes s) (remotes s') /\ Forall (allowed ev s s') es.
Proof using RL H1 dns_pton_size sizes CL malloc_size malloc_bytes.
  intros Hwf Hen Hnd Hno. destruct ev as [rcv socket_ok send_ok submit4 submit6 now|v4 qid result behind socket_ok send_ok now|id rcv send_ok|id]; cbn [handle].
  - destruct rcv as [[bytes src]|].
    + destruct (Hen bytes src eq_refl) as [Hb Hsrc].
      destruct (server_recv_stepped bytes src socket_ok send_ok submit4 submit6 now s Hwf Hb Hsrc) as (s' & es & -> & H1' & H2' & H3' & H4').
      eexists _, _. split; [done|]. split_and!; [done..|]. by eapply from_client_allowed.
    + exists s, []. split_and!; [done|done|by apply later_same|by apply accounted_nil|done].
  - destruct Hen as ((q & h & Hq & Hh & _) & Hr).
    destruct (dns_cb_spec v4 qid q h result behind socket_ok send_ok now s) as (s' & es & -> & Hwf' & Hout); try done.
    { intros a Ha Hw. destruct (decide (storage_size <= length (a ++ behind))%nat) as [|Hs]; [done|]. exfalso. apply Hno. by exists q, h, a. }
    { intros h' a id Hh' Hc Hid. destruct (remotes s !! id) eqn:E; [by eexists|]. exfalso. apply Hnd. by exists q, h', a, id. }
    exists s', es. split; [done|]. destruct (answer v4 result h) as [h'|addr].
    + destruct Hout as [-> ->]. split_and!; [done|by apply later_same|by apply accounted_nil|done].
    + destruct Hout as [_ Hout]. apply resolved_stepped in Hout as (? & ? & ? & ?); [|done]. split_and!; try done.
      eapply from_client_allowed; [|done]. cbn. by rewrite Hq.
  - destruct Hen as ((r & Hr & _) & Hp). destruct rcv as [[bytes src]|].
    + destruct (Hp bytes src eq_refl) as [Hb Hsrc].
      destruct (remote_recv_spec id r bytes src send_ok s Hwf Hr Hb Hsrc) as (s' & es & -> & Hwf' & Er & Eq & En & Hes).
      eexists _, _. split; [done|]. split_and!; [done|apply later_same; [done|lia]| |].
      * rewrite Er. apply accounted_nil; destruct Hes as [->|(n & [->|[out ->]])]; done.
      * destruct Hes as [->|(n & [->|[out ->]])]; repeat constructor. by exists id, (Some (bytes, src)), send_ok, r.
    + unfold UdpRelay.remote_recv_cb. rewrite Hr. exists s, []. split_and!; [done|done|by apply later_same|by apply accounted_nil|done].
  - destruct Hen as (r & Hr & _). destruct (remote_timeout_spec id r s Hwf Hr) as (s' & -> & Hwf' & Er & Eq & En).
    eexists _, _. split; [done|]. split_and!; [done| | |by repeat constructor].
    + split; [lia|]. rewrite Er. intros j rj _ [_ Hj]%lookup_delete_Some. eauto.
    + rewrite Er. unfold accounted. cbn [opened closed omap list_omap app]. by apply ids_delete in Hr.
Qed.

(** An answer to a context that is gone goes through a pointer to it. *)
Lemma dangling_undefined ev s : enabled ev s -> dangling ev s -> handle ev s = None.
Proof using.
  destruct ev as [| v4 qid result behind socket_ok send_ok now| |]; [done| |done..]. intros _ (q & h & a & id & Hq & Hh & Ha & Hid & Hr).
  cbn [handle]. unfold UdpRelay.dns_cb. rewrite Hq. cbn [mbind option_bind]. rewrite Hh, Ha. unfold query_resolve_cb. rewrite Hq. cbn [mbind option_bind].
  rewrite Hid. cbn [mbind option_bind set_queries remotes]. by rewrite Hr.
Qed.

(** So does one that is copied past the end. *)
Lemma overread_undefined ev s : wf s -> overread ev s -> handle ev s = None.
Proof using H1.
  intros Hwf. destruct ev as [| v4 qid result behind socket_ok send_ok now| |]; [done| |done..]. intros (q & h & a & Hq & Hh & Ha & Hw & Hs).
  cbn [handle]. unfold UdpRelay.dns_cb. rewrite Hq. cbn [mbind option_bind]. rewrite Hh, Ha. by apply (query_resolve_short qid q).
Qed.

Lemma step_spec ev s s' es : wf s -> enabled ev s -> handle ev s = Some (s', es) ->
  wf s' /\ later s s' /\ accounted es (remotes s) (remotes s') /\ Forall (allowed ev s s') es.
Proof using RL H1 dns_pton_size sizes CL malloc_size malloc_bytes.
  intros Hwf He Hh. destruct (handle_spec ev s Hwf He) as (s1 & es1 & E & Hspec);
    [intros Hd; by rewrite (dangling_undefined ev s He Hd) in Hh|intros Ho; by rewrite (overread_undefined ev s Hwf Ho) in Hh|].
  rewrite Hh in E. injection E as <- <-. done.
Qed.

Inductive run : server_ctx -> list event -> list effect -> server_ctx -> Prop :=
| run_nil s : run s [] [] s
| run_cons s ev s1 es evs es' s2 : enabled ev s -> handle ev s = Some (s1, es) -> run s1 evs es' s2 -> run s (ev :: evs) (es ++ es') s2.

Lemma run_spec s evs es s' : wf s -> run s evs es s' -> wf s' /\ later s s' /\ accounted es (remotes s) (remotes s').
Proof using RL H1 dns_pton_size sizes CL malloc_size malloc_bytes.
  intros Hwf Hrun. induction Hrun as [s|s ev s1 es evs es' s2 He Hh Hrun IH]; [split_and!; [done|apply later_refl|by apply accounted_nil]|].
  destruct (step_spec ev s s1 es Hwf He Hh) as (Hwf1 & Hl1 & Ha1 & _). destruct (IH Hwf1) as (Hwf2 & Hl2 & Ha2).
  split_and!; [done|by eapply later_trans|by eapply accounted_app].
Qed.

Lemma start_wf c : wf (new_server_ctx c).
Proof using.
  split; cbn; [|done|done|intros id r Hr; by rewrite lookup_empty in Hr|intros id q Hq; by rewrite lookup_empty in Hq].
  split; cbn; [constructor|by intros k d ?%elem_of_nil|intros id r Hr; by rewrite lookup_empty in Hr].
Qed.

(** At the end every context that is there is closed. *)
Lemma free_all_spec freed : forall s, cached (map (fun e => (fst e, Some (snd e))) freed) (remotes s) ->
  exists s' es, free_all freed s = Some (s', es) /\ closed es ≡ₚ ids (remotes s) /\ remotes s' = ∅.
Proof using.
  induction freed as [|[k id] freed IH]; intros s Hc; cbn [free_all].
  - assert (remotes s = ∅) as E.
    { apply map_empty. intros id. destruct (remotes s !! id) as [r|] eqn:Er; [|done]. by apply (ca_remote _ _ Hc), elem_of_nil in Er. }
    exists s, []. split_and!; [done|by rewrite E|done].
  - apply cached_head in Hc as [(r & Hr & _) Hc]. unfold close_and_free_remote. cbn [snd] in Hr. rewrite Hr. cbn [mbind option_bind].
    destruct (IH (set_remotes (delete id (remotes s)) s) Hc) as (s' & es & -> & He & Hs'). cbn [mbind option_bind]. eexists _, _. split_and!; [done| |done].
    cbn [app closed omap list_omap]. rewrite (ids_delete _ _ _ Hr). by constructor.
Qed.

Lemma slots_dropped es rs : cached (slots es) rs -> slots es = map (fun e => (fst e, Some (snd e))) (concat (map Cache.drop_entry es)).
Proof using.
  intros Hc. pose proof (ca_entry _ _ Hc) as He. clear Hc. induction es as [|e es IH]; cbn [slots map concat]; [done|].
  destruct (He (Cache.ekey e) (Cache.data e)) as (id & r & Hd & _); [left|]. unfold Cache.drop_entry at 1. rewrite Hd. cbn [app map fst snd]. f_equal.
  apply IH. intros k d Hin. apply He. by right.
Qed.

Lemma free_udprelay_spec s : wf s -> exists es, free_udprelay s = Some es /\ closed es ≡ₚ ids (remotes s).
Proof using.
  intros Hwf. pose proof (wf_cached _ Hwf) as Hc. rewrite (slots_dropped _ _ Hc) in Hc. unfold free_udprelay, Cache.cache_delete.
  destruct (free_all_spec _ s Hc) as (s' & es & -> & He & _). by exists es.
Qed.

(** C34: whatever datagrams, replies, answers and timeouts come in whatever order,
    the sockets that were opened are those that were closed and those of the
    contexts that are there, each once; the contexts are the ones in the cache,
    under their own keys, less than 512, and each has its watcher and its timer; and
    the end of the relay closes just those that are left. *)
Theorem udp_sockets c evs es s : run (new_server_ctx c) evs es s ->
  opened es ≡ₚ closed es ++ ids (remotes s) /\ (exists es', free_udprelay s = Some es' /\ opened es ≡ₚ closed es ++ closed es') /\
  cached (slots (Cache.entries (conn_cache s))) (remotes s) /\ zlen (Cache.entries (conn_cache s)) < MAX_UDP_CONN_NUM /\
  (forall id r, remotes s !! id = Some r -> io r = true /\ watcher r = true).
Proof using RL H1 dns_pton_size sizes CL malloc_size malloc_bytes.
  intros Hrun. destruct (run_spec _ _ _ _ (start_wf c) Hrun) as (Hwf & _ & Hacc). split_and!.
  - unfold accounted in Hacc. cbn in Hacc. by rewrite app_nil_r in Hacc.
  - destruct (free_udprelay_spec s Hwf) as (es' & E & He). exists es'. split; [done|]. rewrite He. unfold accounted in Hacc. cbn in Hacc. by rewrite app_nil_r in Hacc.
  - by apply wf_cached.
  - by apply wf_room.
  - intros id r Hr. destruct (wf_remote _ Hwf id r Hr) as (_ & ? & ? & _). done.
Qed.

(** C35: in every state that the relay can reach, a callback leaves the objects and
    contexts that are there exactly when an answer with an address ends a query
    and: the query was made for a context that was closed in the meantime, so that
    a dangling pointer is followed; or there is a context to send on, or one is
    made, and behind the 16 or 28 bytes of the address the memory ends before the
    128 bytes that are copied.  (Nothing in the code provides for that memory: for
    an address that ends its object every such answer is undefined.) *)
Theorem udp_defined c evs es s ev : run (new_server_ctx c) evs es s -> enabled ev s ->
  (handle ev s = None <-> dangling ev s \/ overread ev s).
Proof using RL H1 dns_pton_size sizes CL malloc_size malloc_bytes.
  intros Hrun He. destruct (run_spec _ _ _ _ (start_wf c) Hrun) as (Hwf & _). split; [|intros [Hd|Ho]; [by apply dangling_undefined|by apply overread_undefined]].
  intros Hn. destruct (decide (dangling ev s)) as [|Hnd]; [by left|]. destruct (decide (overread ev s)) as [|Hno]; [by right|].
  destruct (handle_spec ev s Hwf He Hnd Hno) as (s' & es' & E & _). congruence.
Qed.

(** C36: clients are kept apart.  What is sent to a peer was sent by the client that
    the context is for, or was in a query that this client's datagram made; what
    comes back on a context goes to its client and to nobody else; and the client
    of a context never changes. *)
Theorem udp_isolated c evs es s ev s' es' : run (new_server_ctx c) evs es s -> enabled ev s -> handle ev s = Some (s', es') ->
  Forall (allowed ev s s') es' /\
  forall id r, (id < next s)%nat -> remotes s' !! id = Some r -> exists r0, remotes s !! id = Some r0 /\ src_addr r = src_addr r0.
Proof using RL H1 dns_pton_size sizes CL malloc_size malloc_bytes.
  intros Hrun He Hh. destruct (run_spec _ _ _ _ (start_wf c) Hrun) as (Hwf & _).
  destruct (step_spec ev s s' es' Hwf He Hh) as (_ & [_ Hl] & _ & Ha). split; [done|].
  intros id r Hid Hr. destruct (Hl id r Hid Hr) as (r0 & ? & ? & _). eauto.
Qed.

(** ** Through the relay *)

Lemma relayed_crypto f data src so se q4 q6 c s s' es : relayed f data src so se q4 q6 (set_crypto c s) s' es -> relayed f data src so se q4 q6 s s' es.
Proof using.
  destruct 1 as [s' es Hl Er Eq En Ho Hc Hf|id r s' Hr Haf Hs Hd Er Eq En dst|s' es Hip Hso Hnone Hl Ha Hq Hf Hres|s' Hip Hso Er Eq En|id s' Hu Hid Er Eq En].
  - by apply R_long.
  - by apply (R_known f data src so se q4 q6 s id r s').
  - by apply (R_new f data src so se q4 q6 s s' es).
  - by apply R_no_socket.
  - by apply (R_ask f data src so se q4 q6 s id s').
Qed.

(** A client's datagram: the header, then the data; what the server makes of it. *)
Definition mac_wanted (m : list Z) : bool := auth || negb (Z.land (hd 0 m) Relay.ONETIMEAUTH_FLAG =? 0).

Lemma client_datagram f data cc b : form_ok f -> is_bytes (form_bytes f ++ data) -> zlen (form_bytes f ++ data) + overhead <= packet_size ->
  holds b (form_bytes f ++ data) ->
  exists cc' b' w, ss_encrypt_all cc b (mac_wanted (form_bytes f ++ data)) buf_size = Some (cc', 0, Some b') /\ holds b' w /\ is_bytes w /\
    forall s src so se q4 q6 now, wf s -> addr_ok src ->
      exists s' es, server_recv_cb (Some (w, src)) so se q4 q6 now s = Some (s', Tx (zlen w) :: es) /\ wf s' /\ relayed f data src so se q4 q6 s s' es.
Proof using H1 dns_pton_size sizes CL malloc_size malloc_bytes.
  intros Hf Hb Hsz Hh. pose proof (form_length f Hf) as Hfl. rewrite length_app in Hsz.
  destruct (packet_roundtrip cc b (form_bytes f ++ data) auth buf_size Hh) as (cc' & b' & w & He & Hw & Hbw & Hwl & Hdec).
  { intros E. apply (f_equal length) in E. rewrite length_app in E. cbn in E. lia. }
  { done. } { rewrite length_app. lia. }
  exists cc', b', w. split_and!; try done. intros s src so se q4 q6 now Hwf Hsrc. rewrite length_app in Hwl.
  unfold UdpRelay.server_recv_cb. rewrite (take_ge w) by lia.
  destruct (fresh_buffer w) as (a & -> & Hok & Ha & Hholds); [done|lia|]. cbn [mbind option_bind]. rewrite (proj2 (Z.ltb_ge _ _)) by lia.
  destruct (Hdec (crypto s) (mkBuf a (zlen w)) buf_size Hholds) as (c2 & b3 & Ed & Hb3); [lia|]. rewrite Ed. cbn [mbind option_bind].
  change (negb (0 =? 0)) with false. cbv iota. destruct Hb3 as (Hl3 & [junk Hj] & Hs3).
  destruct (decrypt_defined (crypto s) (mkBuf a (zlen w)) auth buf_size Hok) as (c3 & err & r & Ed3 & Hr3); [lia|]. rewrite Ed in Ed3. injection Ed3 as <- <- <-.
  destruct (Hr3 eq_refl) as (b4 & [= <-] & (_ & Hs4 & _) & _).
  destruct (relay_packet_spec f data junk b3 src so se q4 q6 now (set_crypto c2 s)) as (s' & es & -> & Hwf' & _ & Hrel); try done.
  - by apply wf_set_crypto.
  - rewrite Hj. list_assoc.
  - by apply Forall_app in Hb as [? _].
  - by apply Forall_app in Hb as [_ ?].
  - cbn [mbind option_bind]. eexists _, _. split; [done|]. split; [done|]. by eapply relayed_crypto.
Qed.

(** A reply as the client gets it. *)
Lemma reply_spec id r data p s : wf s -> remotes s !! id = Some r -> is_bytes data -> addr_ok p -> zlen (reply_header r p ++ data) + overhead <= packet_size ->
  reply_header r p <> [] -> Z.land (hd 0 (reply_header r p)) Relay.ONETIMEAUTH_FLAG = 0 ->
  exists s' out, remote_recv_cb id (Some (data, p)) true s = Some (s', [Rx (zlen data); ToClient (take (get_sockaddr_len (src_addr r)) (src_addr r)) out; Restart id]) /\
    forall c2 b2, holds b2 out -> exists c3 b3, ss_decrypt_all c2 b2 false buf_size = Some (c3, 0, Some b3) /\ holds b3 (reply_header r p ++ data).
Proof using RL sizes CL malloc_size malloc_bytes.
  intros Hwf Hr Hb Hp Hsz Hne Hflag. rewrite length_app in Hsz. unfold UdpRelay.remote_recv_cb. rewrite Hr. cbn [mbind option_bind]. rewrite (take_ge data) by lia.
  destruct (fresh_buffer data) as (a & -> & Hok & Ha & (_ & Hpre & _)); [done|lia|].
  cbn [mbind option_bind array] in *. rewrite (proj2 (Z.ltb_ge _ _)) by lia. fold (reply_header r p).
  destruct (reply_header_ok id r p s Hwf Hr Hp) as [Hhb Hhl].
  destruct (reply_buffer (reply_header r p) data a Hhb (proj2 (proj2 Hok)) Hhl) as (a' & E & Hok' & Hh'); [lia|done|done|]. cbv zeta in E |- *.
  destruct (mread _ 0 (zlen data)) as [d|]; [|done]. cbn [mbind option_bind] in *. destruct (mwrite _ (zlen (reply_header r p)) d) as [a1|]; [|done].
  cbn [mbind option_bind] in *. rewrite E. cbn [mbind option_bind].
  destruct (packet_roundtrip (crypto s) _ (reply_header r p ++ data) false buf_size Hh') as (c' & b' & out & He & Hw & _ & Hwl & Hdec).
  { by destruct (reply_header r p). } { by apply Forall_app. } { rewrite length_app. lia. }
  assert (hd 0 (reply_header r p ++ data) = hd 0 (reply_header r p)) as Hhd by by destruct (reply_header r p).
  rewrite Hhd, Hflag in He. change (false || negb (0 =? 0)) with false in He. rewrite He. cbn [mbind option_bind]. change (negb (0 =? 0)) with false. cbv iota.
  destruct Hw as (Hlw & [junk Hj] & _). rewrite length_app in Hwl. rewrite (proj2 (Z.ltb_ge _ _)) by (rewrite u64_id by lia; lia).
  rewrite Hlw, Hj, mread_prefix by lia. cbn [mbind option_bind]. eexists _, out. split; [done|]. intros c2 b2 Hb2.
  destruct (Hdec c2 b2 buf_size Hb2) as (c3 & b3 & Ed & Hb3); [lia|]. eauto.
Qed.

(** The datagrams that went to peers: the context, the address, the data. *)
Definition sent (es : list effect) : list (nat * list Z * list Z) := omap (fun e => match e with ToPeer id a d => Some (id, a, d) | _ => None end) es.
(** An address as it is given to [sendto]. *)
Definition peer (addr : list Z) : list Z := take (get_sockaddr_len addr) addr.

(** A client gets the reply that comes on context [id] under [header]. *)
Definition replies_to (src : list Z) (header : list Z -> list Z) (id : nat) s : Prop :=
  forall p data, addr_ok p -> is_ip (sa_family p) = true -> is_bytes data -> zlen (header p ++ data) + overhead <= packet_size ->
    exists s' out, remote_recv_cb id (Some (data, p)) true s = Some (s', [Rx (zlen data); ToClient (peer src) out; Restart id]) /\
      forall c2 b2, holds b2 out -> exists c3 b3, ss_decrypt_all c2 b2 false buf_size = Some (c3, 0, Some b3) /\ holds b3 (header p ++ data).

Lemma construct_start p : is_ip (sa_family p) = true -> construct_udprealy_header p <> [] /\ Z.land (hd 0 (construct_udprealy_header p)) Relay.ONETIMEAUTH_FLAG = 0.
Proof using.
  unfold is_ip, construct_udprealy_header. destruct (sa_family p =? AF_INET); [done|]. cbn [orb]. intros ->. done.
Qed.

Lemma replies_ip id r s : wf s -> remotes s !! id = Some r -> is_ip (af r) = true -> replies_to (src_addr r) construct_udprealy_header id s.
Proof using RL sizes CL malloc_size malloc_bytes.
  intros Hwf Hr Hip p data Hp Hpip Hb Hsz. destruct (construct_start p Hpip) as [Hne Hfl].
  pose proof (reply_spec id r data p s Hwf Hr Hb Hp) as Hrep. unfold reply_header in Hrep. rewrite Hip in Hrep. by apply Hrep.
Qed.

Lemma replies_name id r s : wf s -> remotes s !! id = Some r -> af r = AF_UNSPEC -> Z.land (hd 0 (addr_header r)) Relay.ONETIMEAUTH_FLAG = 0 ->
  replies_to (src_addr r) (fun _ => addr_header r) id s.
Proof using RL sizes CL malloc_size malloc_bytes.
  intros Hwf Hr Haf Hfl p data Hp _ Hb Hsz.
  pose proof (reply_spec id r data p s Hwf Hr Hb Hp) as Hrep. unfold reply_header in Hrep. rewrite Haf in Hrep. apply Hrep; [done| |done].
  destruct (wf_remote _ Hwf id r Hr) as ([_ _ (f & Hf & E & _)] & _). rewrite E. by destruct f.
Qed.

(** The address that a header gives without a lookup: family, address and port.
    For the text of an address, it is the one that libcork finds. *)
Definition asked_for (f : form) : option (Z * list Z * list Z) :=
  match f with
  | V4 _ a p => Some (AF_INET, a, p)
  | V6 _ a p => Some (AF_INET6, a, p)
  | Name _ name p =>
      match cork_ip_init (name_text name) with
      | Some (IPv4 a) => Some (AF_INET, be_bytes 4 a, p)
      | Some (IPv6 a) => Some (AF_INET6, be_bytes 16 a, p)
      | None => None
      end
  end.
Definition is_ipv6_text (f : form) : bool :=
  match f with Name _ name _ => match cork_ip_init (name_text name) with Some (IPv6 _) => true | _ => false end | _ => false end.

(** An address as the system reads it. *)
Definition address_of (sa : list Z) : Z * list Z * list Z :=
  (sa_family sa, if sa_family sa =? AF_INET then sin_addr sa else sin6_addr sa, sin_port sa).

(** What [dns_pton(AF_INET, ...)] makes of the texts of addresses. *)
Context (pton_v4 : forall t a, cork_ip_init t = Some (IPv4 a) -> dns_pton AF_INET t = Some (be_bytes 4 a)).
Context (pton_v6 : forall t a, cork_ip_init t = Some (IPv6 a) -> dns_pton AF_INET t = None).

Lemma peer_sin p a : length p = 2%nat -> length a = 4%nat -> address_of (peer (set_sin p a no_address)) = (AF_INET, a, p).
Proof using. intros Hp Ha. destruct p as [|p0 [|p1 [|]]]; try done. by destruct a as [|a0 [|a1 [|a2 [|a3 [|]]]]]. Qed.
Lemma peer_sin6 p a : length p = 2%nat -> length a = 16%nat -> address_of (peer (set_sin6 p a no_address)) = (AF_INET6, a, p).
Proof using. intros Hp Ha. destruct p as [|p0 [|p1 [|]]]; try done. by do 17 (destruct a as [|? a]; try done). Qed.

Lemma asked_dst f fam ip p : form_ok f -> asked_for f = Some (fam, ip, p) ->
  is_ip (sa_family (form_dst f)) = true /\
  address_of (peer (form_dst f)) = (fam, if is_ipv6_text f then replicate 16 0 else ip, p).
Proof using pton_v4 pton_v6.
  destruct f as [t a q|t name q|t a q]; intros (_ & Ha & Hq); cbn [asked_for is_ipv6_text UdpRelay.form_dst].
  - intros [= <- <- <-]. split; [done|by apply peer_sin].
  - unfold name_dst. destruct (cork_ip_init (name_text name)) as [[a|a]|] eqn:E; [| |done]; intros [= <- <- <-].
    + rewrite (pton_v4 _ _ E). split; [done|]. apply peer_sin; [done|done].
    + rewrite (pton_v6 _ _ E). split; [done|]. by apply peer_sin6.
  - intros [= <- <- <-]. split; [done|by apply peer_sin6].
Qed.

Lemma not_asked_dst f : asked_for f = None -> sa_family (form_dst f) = AF_UNSPEC.
Proof using.
  destruct f as [t a q|t name q|t a q]; cbn [asked_for UdpRelay.form_dst]; [done| |done]. unfold name_dst.
  by destruct (cork_ip_init (name_text name)) as [[]|].
Qed.


(** ** Names *)

(** The two answers to a query, in either order. *)
Lemma name_answered qid q (v4 : bool) p r4 r6 behind1 behind so se now1 now s : wf s -> query_ctxs s !! qid = Some q ->
  resolv_mode = MODE_IPV4_FIRST \/ resolv_mode = MODE_IPV6_FIRST -> query q = resolv_query resolv_mode true true p ->
  answer_ok true r4 -> answer_ok false r6 -> (112 <= length behind)%nat ->
  (forall id, q_remote_ctx q = Some id -> is_Some (remotes s !! id)) ->
  exists s1 s2 es q', dns_cb v4 qid (if v4 then r4 else r6) behind1 so se now1 s = Some (s1, []) /\ wf s1 /\ remotes s1 = remotes s /\ next s1 = next s /\
    dns_cb (negb v4) qid (if v4 then r6 else r4) behind so se now s1 = Some (s2, es) /\ wf s2 /\
    q_src_addr q' = q_src_addr q /\ q_buf q' = q_buf q /\ q_addr_header q' = q_addr_header q /\ q_remote_ctx q' = q_remote_ctx q /\
    resolved q' (preferred malloc resolv_mode p r4 r6) behind so se s1 s2 es.
Proof using H1 malloc_size.
  intros Hwf Hq Hm Hquery H4 H6 Hb Hlive. rewrite query_taken in Hquery by done.
  destruct (both_answers malloc resolv_mode p r4 r6 v4 Hm) as (h1 & Ha1 & Hqs & Ha2).
  assert (answer v4 (if v4 then r4 else r6) (mkQuery (true, true) [] p) = Waiting h1) as Ha1' by by destruct v4.
  assert (answer (negb v4) (if v4 then r6 else r4) h1 = Called (preferred malloc resolv_mode p r4 r6)) as Ha2' by by destruct v4.
  destruct (dns_cb_spec v4 qid q _ (if v4 then r4 else r6) behind1 so se now1 s Hwf Hq Hquery) as (s1 & es1 & E1 & Hwf1 & Hout1);
    [by destruct v4|intros a Ha; exfalso; by rewrite Ha1' in Ha|intros h a id Hh Ha Hid; by apply Hlive|].
  rewrite Ha1' in Hout1. destruct Hout1 as [-> Es1]. set (q1 := mkQueryCtx (Live h1) (q_src_addr q) (q_buf q) (q_addr_header q) (q_remote_ctx q)) in *.
  assert (query_ctxs s1 !! qid = Some q1) as Hq1 by (rewrite Es1; cbn; by rewrite lookup_insert_eq).
  assert (remotes s1 = remotes s) as Ers by by rewrite Es1.
  destruct (dns_cb_spec (negb v4) qid q1 h1 (if v4 then r6 else r4) behind so se now s1 Hwf1 Hq1 eq_refl) as (s2 & es2 & E2 & Hwf2 & Hout2);
    [by destruct v4|intros a Ha _; by apply (whole_behind (negb v4) qid q1 h1 (if v4 then r6 else r4) behind a s1); try done; destruct v4|
     intros h a id Hh Ha Hid; rewrite Ers; by apply Hlive|].
  rewrite Ha2' in Hout2. destruct Hout2 as [_ Hout2]. exists s1, s2, es2, q1. split_and!; try done. by rewrite Es1.
Qed.

Lemma preferred_ok p r4 r6 a : length p = 2%nat -> answer_ok true r4 -> answer_ok false r6 -> preferred malloc resolv_mode p r4 r6 = Some a -> response_ok a.
Proof using malloc_size.
  intros Hp H4 H6 Ha. assert (Forall response_ok (in4 malloc p r4)) as F4.
  { unfold in4. destruct r4 as [rs|]; [|done]. apply Forall_map. eapply Forall_imp; [exact (H4 rs eq_refl)|]. intros x Hx. by apply set_sin_response. }
  assert (Forall response_ok (in6 malloc p r6)) as F6.
  { unfold in6. destruct r6 as [rs|]; [|done]. apply Forall_map. eapply Forall_imp; [exact (H6 rs eq_refl)|]. intros x Hx. by apply set_sin6_response. }
  assert (forall l, Forall response_ok l -> head l = Some a -> response_ok a) as Hl by (intros l [|x l' Hx _]; [done|by intros [= <-]]).
  revert Ha. unfold preferred. destruct (_ =? _); apply Hl; by apply Forall_app.
Qed.

(** The address that was copied with what is behind it is the address. *)
Lemma peer_copy a behind : response_ok a -> peer (take storage_size (a ++ behind)) = a.
Proof using.
  intros Ha. assert (sa_family (take storage_size (a ++ behind)) = sa_family a /\ (length a <= storage_size)%nat) as [Hf Hl].
  { unfold storage_size. destruct Ha as [[_ Hl]|[_ Hl]]; (split; [|lia]); destruct a as [|x [|y a]]; try done. }
  unfold peer. replace (get_sockaddr_len (take storage_size (a ++ behind))) with (get_sockaddr_len a) by (unfold get_sockaddr_len; by rewrite Hf).
  assert (get_sockaddr_len a = length a) as -> by (unfold get_sockaddr_len; destruct Ha as [[-> ->]|[-> ->]]; done).
  rewrite take_take, Nat.min_l by done. apply take_app_length.
Qed.

Lemma port_asked f : form_ok f -> is_bytes (form_bytes f) -> ask_port f = form_port f /\ length (form_port f) = 2%nat.
Proof using.
  intros Hf Hb. assert (is_bytes (form_port f) /\ length (form_port f) = 2%nat) as [Hp Hl].
  { destruct f as [t a p|t name p|t a p]; destruct Hf as (_ & _ & Hp); (split; [|done]); cbn [form_bytes form_port] in *; apply Forall_cons in Hb as [_ Hb].
    - by apply Forall_app in Hb as [_ ?].
    - apply Forall_cons in Hb as [_ Hb]. by apply Forall_app in Hb as [_ ?].
    - by apply Forall_app in Hb as [_ ?]. }
  split; [by apply port_again|done].
Qed.

(** C38: a datagram to a name, from a client that has no context for names (a
    later one may go astray: [second_name_misdirects]), makes a query for that name
    and port; when both answers are there, in either order, with an address, the
    data go once to the preferred address, on a new context of the client.  As long
    as that context lives a reply reaches this client, who decrypts it to the
    header of the request and the data, provided that the header has no flag for a
    MAC: with the flag a reply has it too, and no MAC.  The mode is one that
    [resolv_init] sets, the library takes both queries, the memory behind the
    address can be read, the sockets work, and the datagrams fit a packet. *)
Theorem name_there_and_back c evs es s f data cc b src v4 r4 r6 behind1 behind now1 now2 now3 a :
  run (new_server_ctx c) evs es s -> form_ok f -> asked_for f = None -> is_bytes (form_bytes f ++ data) ->
  zlen (form_bytes f ++ data) + overhead <= packet_size -> holds b (form_bytes f ++ data) -> addr_ok src ->
  (forall id r, remotes s !! id = Some r -> ~ (af r = AF_UNSPEC /\ src_addr r = src)) ->
  resolv_mode = MODE_IPV4_FIRST \/ resolv_mode = MODE_IPV6_FIRST ->
  answer_ok true r4 -> answer_ok false r6 -> (112 <= length behind)%nat ->
  preferred malloc resolv_mode (form_port f) r4 r6 = Some a ->
  exists cc' b' w s1 s2 s3 es3 qid id, ss_encrypt_all cc b (mac_wanted (form_bytes f ++ data)) buf_size = Some (cc', 0, Some b') /\ holds b' w /\
    server_recv_cb (Some (w, src)) true true true true now1 s = Some (s1, [Tx (zlen w); Query (form_host dns_ntop f) (form_port f)]) /\
    dns_cb v4 qid (if v4 then r4 else r6) behind1 true true now2 s1 = Some (s2, []) /\
    dns_cb (negb v4) qid (if v4 then r6 else r4) behind true true now3 s2 = Some (s3, es3) /\ sent es3 = [(id, a, data)] /\
    (Z.land (hd 0 (form_bytes f)) Relay.ONETIMEAUTH_FLAG = 0 ->
     forall evs2 es2 s4, run s3 evs2 es2 s4 -> is_Some (remotes s4 !! id) -> replies_to src (fun _ => form_bytes f) id s4).
Proof using RL H1 dns_pton_size sizes CL malloc_size malloc_bytes.
  intros Hrun Hf Hu%not_asked_dst Hb Hsz Hh Hsrc Hnone Hm H4 H6 Hb2 Ha. destruct (run_spec _ _ _ _ (start_wf c) Hrun) as (Hwf & _).
  pose proof Hb as [Hbf _]%Forall_app. destruct (port_asked f Hf Hbf) as [Hport Hpl].
  destruct (client_datagram f data cc b Hf Hb Hsz Hh) as (cc' & b' & w & He & Hw & _ & Hrecv).
  destruct (Hrecv s src true true true true now1 Hwf Hsrc) as (s1 & es1 & Er & Hwf1 & Hrel).
  destruct Hrel as [s1 es1 Hl|id r s1 Hr Haf Hs _ Ers|s1 es1 Hip|s1 _ Hso|[id|] s1 _ Hq0 Ers Eqs Ens].
  { rewrite length_app in Hsz. lia. } { destruct (Hnone id r Hr). by rewrite Haf. } { by rewrite Hu in Hip. } { done. }
  { destruct Hq0 as (r & Hr & Haf & Hsr & _). by destruct (Hnone id r Hr). }
  rewrite Hport in *. set (q := mkQueryCtx (resolv_query resolv_mode true true (form_port f)) src data (form_bytes f) None) in *.
  assert (query_ctxs s1 !! next s = Some q) as Hq by (rewrite Eqs; apply lookup_insert_eq).
  destruct (name_answered (next s) q v4 (form_port f) r4 r6 behind1 behind true true now2 now3 s1 Hwf1 Hq Hm eq_refl H4 H6 Hb2) as
    (s2 & s3 & es3 & q' & E1 & Hwf2 & Ers2 & _ & E2 & Hwf3 & Qs & Qb & Qh & Qr & Hres); [done|]. rewrite Ha in Hres.
  assert (forall id r, remotes s2 !! id = Some r -> src_addr r = src -> af r = AF_UNSPEC -> False) as Hno.
  { intros id r Hr Hs Haf. rewrite Ers2, Ers in Hr. by apply (Hnone id r Hr). }
  destruct Hres as [s3 [=]|id r a' s3 _ Hr Hs Haf|a' s3 es3 [= <-] _ _ _ _ _ [Hid (es' & -> & Hes)]|s3 [=]]; [by destruct (Hno id r Hr); rewrite ?Hs, ?Qs|].
  exists cc', b', w, s1, s2, s3, (Socket (next s2) :: ToPeer (next s2) a (q_buf q') :: es'), (next s), (next s2). split_and!; try done.
  { rewrite Qb. cbn. by destruct Hes as [->|[j ->]]. }
  intros Hflag evs2 es2 s4 Hrun2 [r4' Hr4]. destruct (run_spec _ _ _ _ Hwf3 Hrun2) as (Hwf4 & [_ Hl] & _). destruct (wf_remote _ Hwf3 _ _ Hid) as (_ & _ & _ & Hlt).
  destruct (Hl _ _ Hlt Hr4) as (r3 & Hr3 & F1 & F2 & F3). rewrite Hid in Hr3. injection Hr3 as <-. cbn [src_addr af addr_header] in *. rewrite Qs in F1. rewrite Qh in F3.
  change src with (q_src_addr q). rewrite <- F1. change (form_bytes f) with (q_addr_header q). rewrite <- F3.
  apply (replies_name (next s2) r4' s4 Hwf4 Hr4 F2). by rewrite F3.
Qed.

(** C39: two names on one context.  The client has a context for a first name; it
    sends to a second one, which is resolved, and its datagram goes to the right
    address; then a datagram under the header of the first name goes to the address
    of the second. *)
Theorem second_name_misdirects c evs es s id r f g dataf datag ccf ccg bf bg src v4 r4 r6 behind1 behind now1 now2 now3 now4 a :
  run (new_server_ctx c) evs es s -> remotes s !! id = Some r -> af r = AF_UNSPEC -> src_addr r = src -> addr_header r = form_bytes f -> form_bytes g <> form_bytes f ->
  form_ok f -> sa_family (form_dst f) = AF_UNSPEC -> form_ok g -> sa_family (form_dst g) = AF_UNSPEC ->
  is_bytes (form_bytes f ++ dataf) -> zlen (form_bytes f ++ dataf) + overhead <= packet_size -> holds bf (form_bytes f ++ dataf) ->
  is_bytes (form_bytes g ++ datag) -> zlen (form_bytes g ++ datag) + overhead <= packet_size -> holds bg (form_bytes g ++ datag) ->
  resolv_mode = MODE_IPV4_FIRST \/ resolv_mode = MODE_IPV6_FIRST ->
  answer_ok true r4 -> answer_ok false r6 -> (112 <= length behind)%nat ->
  preferred malloc resolv_mode (form_port g) r4 r6 = Some a ->
  exists wf wg s1 s2 s3 s4 es3 es4 qid,
    (exists cc' b', ss_encrypt_all ccf bf (mac_wanted (form_bytes f ++ dataf)) buf_size = Some (cc', 0, Some b') /\ holds b' wf) /\
    (exists cc' b', ss_encrypt_all ccg bg (mac_wanted (form_bytes g ++ datag)) buf_size = Some (cc', 0, Some b') /\ holds b' wg) /\
    server_recv_cb (Some (wg, src)) true true true true now1 s = Some (s1, [Tx (zlen wg); Restart id; Query (form_host dns_ntop g) (form_port g)]) /\
    dns_cb v4 qid (if v4 then r4 else r6) behind1 true true now2 s1 = Some (s2, []) /\
    dns_cb (negb v4) qid (if v4 then r6 else r4) behind true true now3 s2 = Some (s3, es3) /\ sent es3 = [(id, a, datag)] /\
    server_recv_cb (Some (wf, src)) true true true true now4 s3 = Some (s4, es4) /\ sent es4 = [(id, a, dataf)].
Proof using RL H1 dns_pton_size sizes CL malloc_size malloc_bytes.
  intros Hrun Hr Haf Hs Hhd Hne Hf Huf Hg Hug Hbf Hszf Hhf Hbg Hszg Hhg Hm H4 H6 Hb2 Ha. destruct (run_spec _ _ _ _ (start_wf c) Hrun) as (Hwf & _).
  assert (addr_ok src) as Hsrc by (rewrite <- Hs; by eapply remote_family).
  assert (forall i x s0, wf s0 -> remotes s0 !! id = Some r \/ (exists dst, remotes s0 !! id = Some (rset_dst dst r)) -> remotes s0 !! i = Some x -> af x = AF_UNSPEC -> src_addr x = src -> i = id) as Huniq.
  { intros i x s0 Hw0 Hid Hx Hafx Hsx. pose proof (wf_cached _ Hw0) as Hc. assert (exists y, remotes s0 !! id = Some y /\ conn_key y = conn_key x) as (y & Hy & Hk).
    { unfold conn_key. rewrite Hafx, Hsx. destruct Hid as [Hid|[dst Hid]]; eexists; (split; [exact Hid|]); cbn; by rewrite Haf, Hs. }
    pose proof (ca_remote _ _ Hc i x Hx) as Hi. pose proof (ca_remote _ _ Hc id y Hy) as Hy'. rewrite Hk in Hy'.
    apply list_elem_of_lookup_1 in Hi as [n Hn], Hy' as [m Hm']. assert (n = m) as ->.
    { eapply (NoDup_lookup _ n m (conn_key x) (ca_keys _ _ Hc)); rewrite list_lookup_fmap; [by rewrite Hn|by rewrite Hm']. }
    rewrite Hn in Hm'. by injection Hm'. }
  pose proof Hbg as [Hbgh _]%Forall_app. destruct (port_asked g Hg Hbgh) as [Hport Hpl].
  destruct (client_datagram g datag ccg bg Hg Hbg Hszg Hhg) as (ccg' & bg' & wg & Heg & Hwg & _ & Hrecvg).
  destruct (client_datagram f dataf ccf bf Hf Hbf Hszf Hhf) as (ccf' & bf' & wf' & Hef & Hwf' & _ & Hrecvf).
  destruct (Hrecvg s src true true true true now1 Hwf Hsrc) as (s1 & es1 & Er & Hwf1 & Hrel). rewrite length_app in Hszg, Hszf.
  destruct Hrel as [s1 es1 Hl|i x s1 Hx Hafx Hsx Hip Ers|s1 es1 Hip|s1 _ Hso|[i|] s1 _ Hid Ers Eqs Ens].
  { lia. }
  { rewrite Hug in Hafx. pose proof (Huniq i x s Hwf ltac:(by left) Hx Hafx Hsx) as ->. rewrite Hr in Hx. injection Hx as <-.
    rewrite Haf in Hip. destruct Hip; [done|congruence]. }
  { by rewrite Hug in Hip. } { done. }
  2: { destruct (Hid id r Hr). unfold conn_key. by rewrite Haf, Hs. }
  destruct Hid as (x & Hx & Hafx & Hsx & _). pose proof (Huniq i x s Hwf ltac:(by left) Hx Hafx Hsx) as ->. clear x Hx Hafx Hsx.
  rewrite Hport in *. set (q := mkQueryCtx (resolv_query resolv_mode true true (form_port g)) src datag (form_bytes g) (Some id)) in *.
  assert (query_ctxs s1 !! next s = Some q) as Hq by (rewrite Eqs; apply lookup_insert_eq).
  destruct (name_answered (next s) q v4 (form_port g) r4 r6 behind1 behind true true now2 now3 s1 Hwf1 Hq Hm eq_refl H4 H6 Hb2) as
    (s2 & s3 & es3 & q' & E1 & Hwf2 & Ers2 & _ & E2 & Hwf3 & Qs & Qb & Qh & Qr & Hres); [intros i [= <-]; rewrite Ers; by eexists|]. rewrite Ha in Hres.
  destruct Hres as [s3 [=]|i x a' s3 [= <-] Hx Hsx Hafx Ers3 _|a' s3 es3 _ _ Hrq|s3 [=]]; [|by rewrite Qr in Hrq].
  rewrite Ers2, Ers in *. rewrite Qs in Hsx. pose proof (Huniq i x s Hwf ltac:(by left) Hx Hafx Hsx) as ->. rewrite Hr in Hx. injection Hx as <-.
  destruct (Hrecvf s3 src true true true true now4 Hwf3 Hsrc) as (s4 & es4 & Er4 & Hwf4 & Hrel4).
  exists wf', wg, s1, s2, s3, s4, [ToPeer id a (q_buf q')], (Tx (zlen wf') :: es4), (next s). split_and!; try (by eauto); [cbn; by rewrite Qb|].
  assert (remotes s3 !! id = Some (rset_dst (take storage_size (a ++ behind)) r)) as Hr3 by (rewrite Ers3; apply lookup_insert_eq).
  destruct Hrel4 as [s4 es4 Hl|i x s4 Hx Hafx' Hsx' _ _ _ _ dst|s4 es4 Hip|s4 _ Hso|[i|] s4 _ Hid4].
  - lia.
  - rewrite Huf in Hafx'. pose proof (Huniq i x s3 Hwf3 ltac:(right; eauto) Hx Hafx' Hsx') as ->. rewrite Hr3 in Hx. injection Hx as <-.
    subst dst. cbn [rset_dst addr_header dst_addr]. rewrite bool_decide_eq_true_2 by done. fold (peer (take storage_size (a ++ behind))).
    rewrite peer_copy by by apply (preferred_ok (form_port g) r4 r6). done.
  - by rewrite Huf in Hip.
  - done.
  - destruct Hid4 as (x & Hx & Hafx' & Hsx' & Hh4). pose proof (Huniq i x s3 Hwf3 ltac:(right; eauto) Hx Hafx' Hsx') as ->. rewrite Hr3 in Hx. injection Hx as <-. done.
  - destruct (Hid4 id _ Hr3). unfold conn_key. cbn. by rewrite Haf, Hs.
Qed.
End Invariant.

(** ** An instance

    The default sizes, a stream cipher of Crypt.v, and simple texts of addresses. *)

Definition malloc_ex (n : Z) : list Z := replicate (Z.to_nat n) 170.
Definition ntop_ex (f : Z) (a : list Z) : list Z := map (fun x => 48 + x mod 10) a.
(** A text of four bytes is an IPv4 address, one of sixteen an IPv6 address. *)
Definition cork_ex (t : list Z) : option cork_ip :=
  if (length t =? 4)%nat then Some (IPv4 (be_val t)) else if (length t =? 16)%nat then Some (IPv6 (be_val t)) else None.
Definition pton_ex (f : Z) (t : list Z) : option (list Z) := if (length t =? 4)%nat then Some (be_bytes 4 (be_val t)) else None.

#[local] Instance cipher_ex : PacketCipher nat :=
  crypt_cipher realloc_example (fun l => l) Crypt.init_example Crypt.update_example Crypt.sodium_example Crypt.SALSA20 8 Crypt.key_example hmac_example
    (fun _ => mkBuf [] 0) (fun _ => Crypt.iv_example) (fun _ => (0, replicate 16 0)).
#[local] Instance cipher_ex_laws : PacketCipherLaws nat (8 + 10).
Proof.
  pose proof Crypt.evp_example_laws. pose proof (Crypt.sodium_example_laws Crypt.SALSA20).
  apply crypt_cipher_laws; try apply _; try done.
  - intros a n Ha. apply Forall_app; split; [done|]. by apply Forall_replicate.
  - intros e m x e' [= <- <-] Hm. apply Crypt.xor_ks_bytes; [intros; apply u8_range|done].
  - apply Crypt.globals_example.
  - intros _. split; [done|repeat constructor; lia].
Qed.

#[local] Notation handle_ex := (handle (H0 := Cache.first_find nat) malloc_ex realloc_example ntop_ex pton_ex cork_ex MODE_IPV4_FIRST 1397 2794 false).
#[local] Notation run_ex := (run (H0 := Cache.first_find nat) malloc_ex realloc_example ntop_ex pton_ex cork_ex MODE_IPV4_FIRST 1397 2794 false).
#[local] Notation server_recv_ex := (server_recv_cb (H0 := Cache.first_find nat) malloc_ex ntop_ex pton_ex cork_ex MODE_IPV4_FIRST 1397 2794 false).

Lemma malloc_ex_size n : 0 <= n -> zlen (malloc_ex n) = n.
Proof. intros Hn. unfold malloc_ex. rewrite length_replicate. lia. Qed.
Lemma malloc_ex_bytes n : is_bytes (malloc_ex n).
Proof. by apply Forall_replicate. Qed.
Lemma pton_ex_size t a : pton_ex AF_INET t = Some a -> length a = 4%nat.
Proof. unfold pton_ex. destruct (length t =? 4)%nat; [|done]. by intros [= <-]. Qed.
Lemma pton_ex_v4 t a : cork_ex t = Some (IPv4 a) -> pton_ex AF_INET t = Some (be_bytes 4 a).
Proof. unfold cork_ex, pton_ex. destruct (length t =? 4)%nat; [by intros [= <-]|by destruct (length t =? 16)%nat]. Qed.
Lemma pton_ex_v6 t a : cork_ex t = Some (IPv6 a) -> pton_ex AF_INET t = None.
Proof. unfold cork_ex, pton_ex. by destruct (length t =? 4)%nat. Qed.
Lemma sizes_ex : 0 < 1397 /\ 1397 + 259 + (8 + 10) <= 2794 < 2 ^ 27 /\ 0 <= 8 + 10.
Proof. lia. Qed.


(** A client, its datagrams, and a run: the first name, its answers, the second
    name, the time of the context is up, the first answer for the second name. *)
Definition src_ex : list Z := [2; 0; 31; 144; 10; 0; 0; 1] ++ replicate 120 0.
Definition buffer_ex (f : form) (data : list Z) : buffer_t := mkBuf (form_bytes f ++ data) (zlen (form_bytes f ++ data)).
Definition wire_ex (f : form) (data : list Z) : list Z :=
  match ss_encrypt_all 0%nat (buffer_ex f data) false 2794 with Some (_, _, Some b) => take (Z.to_nat (len b)) (array b) | _ => [] end.
Definition datagram_ex (f : form) (data : list Z) : event := Datagram (Some (wire_ex f data, src_ex)) true true true true 7.
Definition answer_ex (v4 : bool) (qid : nat) (a : list Z) : event :=
  Answered v4 qid (if v4 then Some [a] else None) (replicate 112 0) true true 8.
Definition ip_ex : form := V4 1 [1; 2; 3; 4] [0; 53].
Definition first_ex : form := Name 3 [97] [0; 53].
Definition second_ex : form := Name 3 [98] [0; 53].
Definition resolved_ex : list event := [datagram_ex first_ex [65; 66]; answer_ex true 0 [5; 6; 7; 8]; answer_ex false 0 []].
Definition late_ex : list event := resolved_ex ++ [datagram_ex second_ex [67]; Timed_out 1; answer_ex true 2 [9; 9; 9; 9]].

(** Running events as they come. *)
Definition enabledb (ev : event) (s : server_ctx nat) : bool :=
  match ev with
  | Datagram rcv _ _ _ _ _ | Replied _ rcv _ =>
      match ev with Replied id _ _ => match remotes s !! id with Some r => io r | None => false end | _ => true end &&
      match rcv with Some (bytes, src) => bool_decide (is_bytes bytes) && (length src =? storage_size)%nat && bool_decide (is_bytes src) | None => true end
  | Answered v4 qid result _ _ _ _ =>
      match query_ctxs s !! qid with
      | Some q => match query q with Live h => if v4 then fst (queries h) else snd (queries h) | Freed => false end
      | None => false
      end && match result with Some rs => forallb (fun a => length a =? if v4 then 4 else 16)%nat rs | None => true end
  | Timed_out id => match remotes s !! id with Some r => watcher r | None => false end
  end.
Fixpoint play (evs : list event) (s : server_ctx nat) : option (list effect * server_ctx nat) :=
  match evs with
  | [] => Some ([], s)
  | ev :: evs => if enabledb ev s then '(s, es) ← handle_ex ev s; '(es', s) ← play evs s; Some (es ++ es', s) else None
  end.

Lemma enabledb_spec ev s : enabledb ev s = true -> enabled ev s.
Proof.
  assert (forall rcv, match rcv with Some (bytes, src) => bool_decide (is_bytes bytes) && (length src =? storage_size)%nat && bool_decide (is_bytes src) | None => true end = true -> packet_ok rcv) as Hp.
  { intros rcv Hr bytes src ->. rewrite !andb_true_iff, !bool_decide_eq_true, Nat.eqb_eq in Hr. destruct Hr as [[? ?] ?]. by split_and!. }
  destruct ev as [rcv ? ? ? ? ?|v4 qid result behind ? ? ?|id rcv ?|id]; cbn [enabledb enabled].
  - apply Hp.
  - rewrite andb_true_iff. intros [Hq Hr]. split.
    + destruct (query_ctxs s !! qid) as [q|]; [|done]. destruct (query q) as [h|] eqn:Eh; [|done]. by exists q, h.
    + intros rs ->. rewrite forallb_forall in Hr. apply Forall_forall. intros a Ha%list_elem_of_In. apply Nat.eqb_eq. rewrite (proj1 (Nat.eqb_eq _ _) (Hr a Ha)). by destruct v4.
  - rewrite andb_true_iff. intros [Hr Hrcv]. split; [|by apply Hp]. destruct (remotes s !! id) as [r|]; [|done]. by exists r.
  - destruct (remotes s !! id) as [r|]; [|done]. intros Hw. by exists r.
Qed.

Lemma play_events evs : forall s es s', play evs s = Some (es, s') -> run_ex s evs es s'.
Proof.
  induction evs as [|ev evs IH]; intros s es s'; cbn [play]; [intros [= <- <-]; constructor|].
  destruct (enabledb ev s) eqn:Ee; [|done]. destruct (handle_ex ev s) as [[s1 es1]|] eqn:Eh; [|done]. cbn [mbind option_bind].
  destruct (play evs s1) as [[es2 s2]|] eqn:Ep; [|done]. intros [= <- <-]. econstructor; [by apply enabledb_spec|exact Eh|by apply IH].
Qed.

Definition played (evs : list event) : server_ctx nat := match play evs (new_server_ctx 0%nat) with Some (_, s) => s | None => new_server_ctx 0%nat end.
Definition done_by (evs : list event) : list effect := match play evs (new_server_ctx 0%nat) with Some (es, _) => es | None => [] end.
Lemma played_run evs : bool_decide (is_Some (play evs (new_server_ctx 0%nat))) = true -> run_ex (new_server_ctx 0%nat) evs (done_by evs) (played evs).
Proof.
  rewrite bool_decide_eq_true. intros [[es s] E]. unfold played, done_by. rewrite E. by apply play_events.
Qed.

Lemma late_run : run_ex (new_server_ctx 0%nat) late_ex (done_by late_ex) (played late_ex).
Proof. apply played_run. by vm_compute. Qed.
Lemma resolved_run : run_ex (new_server_ctx 0%nat) resolved_ex (done_by resolved_ex) (played resolved_ex).
Proof. apply played_run. by vm_compute. Qed.

#[local] Notation witness t := (t nat cipher_ex 18 cipher_ex_laws (Cache.first_find nat) (Cache.first_find_laws nat) malloc_ex realloc_example realloc_example_laws
  malloc_ex_size malloc_ex_bytes ntop_ex pton_ex cork_ex pton_ex_size MODE_IPV4_FIRST 1397 2794 false sizes_ex) (only parsing).

Lemma udp_sockets_witness :
  opened (done_by late_ex) ≡ₚ closed (done_by late_ex) ++ ids (remotes (played late_ex)) /\ opened (done_by late_ex) = [1%nat] /\ closed (done_by late_ex) = [1%nat].
Proof.
  destruct (witness (@udp_sockets) 0%nat late_ex (done_by late_ex) (played late_ex) late_run) as [H _]. split; [exact H|]. split; vm_compute; reflexivity.
Defined.

(** An answer of which nothing lies behind the address, in the middle of the run
    for the first name. *)
Definition bare_ex : event := Answered false 0 None [] true true 8.
Definition asked_ex : list event := take 2 resolved_ex.
Lemma asked_run : run_ex (new_server_ctx 0%nat) asked_ex (done_by asked_ex) (played asked_ex).
Proof. apply played_run. by vm_compute. Qed.

Lemma udp_defined_witness : handle_ex (answer_ex false 2 []) (played late_ex) = None /\ handle_ex bare_ex (played asked_ex) = None.
Proof.
  split.
  - apply (witness (@udp_defined) 0%nat late_ex (done_by late_ex) (played late_ex) (answer_ex false 2 []) late_run).
    + apply enabledb_spec. vm_compute. reflexivity.
    + left. assert (exists q, query_ctxs (played late_ex) !! 2%nat = Some q) as [q Hq] by (apply (bool_decide_unpack (is_Some _)); vm_compute; exact I).
      exists q. vm_compute in Hq. injection Hq as <-. eexists _, _, 1%nat. split; [vm_compute; reflexivity|]. split; [reflexivity|].
      split; [vm_compute; reflexivity|]. split; vm_compute; reflexivity.
  - apply (witness (@udp_defined) 0%nat asked_ex (done_by asked_ex) (played asked_ex) bare_ex asked_run).
    + apply enabledb_spec. vm_compute. reflexivity.
    + right. assert (exists q, query_ctxs (played asked_ex) !! 0%nat = Some q) as [q Hq] by (apply (bool_decide_unpack (is_Some _)); vm_compute; exact I).
      exists q. vm_compute in Hq. injection Hq as <-. eexists _, _. split; [vm_compute; reflexivity|]. split; [reflexivity|].
      split; [vm_compute; reflexivity|]. split; [right; right; reflexivity|]. vm_compute. lia.
Defined.

Lemma udp_isolated_witness : exists s' es',
  handle_ex (datagram_ex ip_ex [65]) (played resolved_ex) = Some (s', es') /\ Forall (allowed (datagram_ex ip_ex [65]) (played resolved_ex) s') es'.
Proof.
  assert (is_Some (handle_ex (datagram_ex ip_ex [65]) (played resolved_ex))) as [[s' es'] Hs] by (apply (bool_decide_unpack _); vm_compute; exact I).
  exists s', es'. split; [exact Hs|].
  apply (witness (@udp_isolated) 0%nat resolved_ex (done_by resolved_ex) (played resolved_ex) (datagram_ex ip_ex [65]) s' es' resolved_run); [|exact Hs].
  apply enabledb_spec. vm_compute. reflexivity.
Defined.

Lemma buffer_ex_holds f data : zlen (form_bytes f ++ data) < 2 ^ 30 -> holds (buffer_ex f data) (form_bytes f ++ data).
Proof. intros Hs. by split_and!. Qed.
Lemma src_ex_ok : addr_ok src_ex.
Proof. split; [done|]. apply (bool_decide_unpack _). by vm_compute. Qed.

Definition ipv6_text_ex : form := Name 3 [65; 66; 67; 68; 69; 70; 71; 72; 73; 74; 75; 76; 77; 78; 79; 80] [0; 53].

Lemma name_there_and_back_witness : exists w s1 s2 s3 es3 qid id,
  server_recv_ex (Some (w, src_ex)) true true true true 3 (new_server_ctx 0%nat) = Some (s1, [Tx (zlen w); Query [97] [0; 53]]) /\
  dns_cb (H0 := Cache.first_find nat) malloc_ex MODE_IPV4_FIRST false qid None (replicate 112 0) true true 4 s1 = Some (s2, []) /\
  dns_cb (H0 := Cache.first_find nat) malloc_ex MODE_IPV4_FIRST true qid (Some [[5; 6; 7; 8]]) (replicate 112 0) true true 5 s2 = Some (s3, es3) /\
  sent es3 = [(id, [2; 0; 0; 53; 5; 6; 7; 8] ++ replicate 8 170, [65])].
Proof.
  destruct (witness (@name_there_and_back) 0%nat [] [] (new_server_ctx 0%nat) first_ex [65] 5%nat (buffer_ex first_ex [65]) src_ex false
    (Some [[5; 6; 7; 8]]) None (replicate 112 0) (replicate 112 0) 3 4 5 ([2; 0; 0; 53; 5; 6; 7; 8] ++ replicate 8 170))
    as (cc' & b' & w & s1 & s2 & s3 & es3 & qid & id & _ & _ & H1 & H2 & H3 & H4 & _).
  - constructor.
  - split_and!; [done|cbn; lia|done].
  - reflexivity.
  - repeat constructor; lia.
  - cbn. lia.
  - by apply buffer_ex_holds.
  - apply src_ex_ok.
  - intros id r Hr. cbn in Hr. by rewrite lookup_empty in Hr.
  - by left.
  - intros rs [= <-]. by repeat constructor.
  - done.
  - rewrite length_replicate. lia.
  - reflexivity.
  - exists w, s1, s2, s3, es3, qid, id. split; [exact H1|]. split; [exact H2|]. split; [exact H3|exact H4].
Defined.

Lemma second_name_misdirects_witness : exists wf wg s1 s2 s3 s4 es3 es4 qid,
  server_recv_ex (Some (wg, src_ex)) true true true true 3 (played resolved_ex) = Some (s1, [Tx (zlen wg); Restart 1; Query [98] [0; 53]]) /\
  dns_cb (H0 := Cache.first_find nat) malloc_ex MODE_IPV4_FIRST true qid (Some [[9; 9; 9; 9]]) (replicate 112 0) true true 4 s1 = Some (s2, []) /\
  dns_cb (H0 := Cache.first_find nat) malloc_ex MODE_IPV4_FIRST false qid None (replicate 112 0) true true 5 s2 = Some (s3, es3) /\
  server_recv_ex (Some (wf, src_ex)) true true true true 6 s3 = Some (s4, es4) /\
  sent es4 = [(1%nat, [2; 0; 0; 53; 9; 9; 9; 9] ++ replicate 8 170, [65])].
Proof.
  assert (exists r, remotes (played resolved_ex) !! 1%nat = Some r /\ af r = AF_UNSPEC /\ src_addr r = src_ex /\ addr_header r = form_bytes first_ex) as (r & Hr & Haf & Hs & Hh).
  { assert (is_Some (remotes (played resolved_ex) !! 1%nat)) as [r Hr] by (apply (bool_decide_unpack _); vm_compute; exact I).
    exists r. split; [exact Hr|]. vm_compute in Hr. injection Hr as <-. split_and!; reflexivity. }
  destruct (witness (@second_name_misdirects) 0%nat resolved_ex (done_by resolved_ex) (played resolved_ex) 1%nat r first_ex second_ex [65] [67] 5%nat 6%nat
    (buffer_ex first_ex [65]) (buffer_ex second_ex [67]) src_ex true
    (Some [[9; 9; 9; 9]]) None (replicate 112 0) (replicate 112 0) 3 4 5 6 ([2; 0; 0; 53; 9; 9; 9; 9] ++ replicate 8 170) resolved_run Hr Haf Hs Hh)
    as (wf & wg & s1 & s2 & s3 & s4 & es3 & es4 & qid & _ & _ & H1 & H2 & H3 & _ & H4 & H5).
  - done.
  - split_and!; [done|cbn; lia|done].
  - reflexivity.
  - split_and!; [done|cbn; lia|done].
  - reflexivity.
  - repeat constructor; lia.
  - cbn. lia.
  - by apply buffer_ex_holds.
  - repeat constructor; lia.
  - cbn. lia.
  - by apply buffer_ex_holds.
  - by left.
  - intros rs [= <-]. by repeat constructor.
  - done.
  - rewrite length_replicate. lia.
  - reflexivity.
  - exists wf, wg, s1, s2, s3, s4, es3, es4, qid. split; [exact H1|]. split; [exact H2|]. split; [exact H3|]. split; [exact H4|exact H5].
Defined.
End UdpRelay.
